(* ===== verification/_CoqProject ===== *)
-Q . S2P
Prelude.v
GoStrings.v
Bolt.v
NetIP.v
Firewall.v
FirewallThms.v
RemotePolicy.v
Password.v
Discovery.v
Compat.v
Json.v
DsmErrors.v
DsmClient.v
DsmThms.v
DsmWire.v
DsmOps.v
FirewallWire.v
FirewallOps.v
Identity.v
IdentityWire.v
IdentityOps.v
ShareWire.v
ShareOps.v
Access.v
Config.v
Manager.v
Service.v
Management.v
Storage.v
StorageChecks.v
StorageWire.v
StorageOps.v
StoragePlan.v
StorageCalls.v
ManagementWire.v
ManagementThms.v
StorageThms.v
FirewallPlan.v
FirewallPlanThms.v
StateTypes.v
Records.v
McpPolicy.v
Policy.v
Http.v
TlsTrust.v
TlsThms.v
PlatformAuth.v
PlatformThms.v
Traces.v
OAuth.v
Gateway.v
GatewayThms.v
Repository.v
Vault.v
Provision.v
Admin.v
OAuthHandler.v
AdminHttp.v
AdminApi.v
AdminServe.v
Samples.v
OAuthThms.v
PolicyThms.v
McpThms.v
ManagerThms.v
TokenThms.v
RepositoryThms.v
AuditThms.v
ApprovalThms.v
RevisionThms.v
OpenThms.v
TokenHistory.v
TokenTypes.v
AdminThms.v
WebLoginThms.v
RemoteApply.v
FirewallRemote.v
ManagementRemote.v
StorageRemote.v
