(* ===== verification/Prelude.v ===== *)
(** * A verification development for dsmctl

    dsmctl administers Synology NAS devices through DSM's web API: as a command line tool,
    as an MCP server for a language model, and as a gateway that serves remote MCP clients
    under a policy.  This development models the parts of the Go program that decide what
    may happen, and proves what those decisions guarantee.

    ** The program's parts and how they interact

    A remote client calls a tool over HTTP.  The gateway authenticates its bearer token
    against the state repository and binds it to an MCP session; the policy middleware of
    the MCP server checks scope and target, asks the person for a confirmation or queues a
    request for approval, and audits the call; the handler of the tool calls the application
    service, which plans or applies a change through a client of the runtime manager; the
    client talks to DSM with retries, sessions and encrypted parameters.  The repository
    keeps profiles, secrets, tokens, approvals, administrator sessions and the audit log in
    an embedded database.

    ** Layers and files

    Shared vocabulary.  [Prelude]: results, the state-and-error monad [ST], list and map
    lemmas, tactics.  [GoStrings], [NetIP], [Json], [Http]: the parts of the Go packages
    strings, strconv, utf8, net, net/url, encoding/json, encoding/base64 and net/http that
    the code calls.  [Bolt]: the database, its transactions and their rollback.

    The repository, internal/gateway/state.  [StateTypes] (types.go: buckets, records,
    limits), [Records] (profile and token access), [Policy] (policy.go: tokens, approvals,
    pending requests, admission, audit log), [OAuth] (oauth.go: clients and token sets),
    [Repository] (repository.go: profiles, opening, envelopes, health), [Vault] (vault.go:
    passwords, devices, sessions, apply secrets), [Password] and [Admin] (admin.go).  A world
    is the database beside a store of the flags that copies of an interactive grant share; an
    operation is a function of its inputs and of the readings of clock and randomness it
    makes, in the monad [GW].

    Remote policy and MCP.  [RemotePolicy] (internal/remotepolicy/context.go) and
    [McpPolicy] (internal/mcpserver: the scope table, the reduced tool surfaces,
    remotePolicyMiddleware and categoryErrorMiddleware).

    The gateway.  [PlatformAuth] (internal/gateway/platformauth), [OAuthHandler]
    (internal/gateway/oauth/handler.go) and [Gateway] (internal/gateway/server.go).  The
    administration console (internal/gateway/admin): [AdminHttp] (browser checks, limiters,
    cookies, setup and logins), [AdminApi] (tokens, approvals, audit, profiles, TLS trust)
    and [AdminServe] (passwords, web login, recovery, discovery; routes, session and audit),
    with [Provision] (generated passwords, the first administrator of a new NAS, the
    connection with a stored password).
    [Traces] has the interfaces of the request windows and of the bounded single-use stores
    that several of them share.

    DSM.  [DsmErrors], [DsmClient] (internal/synology: errors.go, category.go, client.go,
    encryption.go, system.go), [DsmWire] and [DsmOps] (what a method sends, and the shapes
    all operations share), [Compat] (version and package matchers, selection of an
    operation), [Discovery] (findhost), [TlsTrust] (internal/tlstrust and the HTTP client of
    a profile).  Per feature, data, wire form and operations: [FirewallWire], [FirewallOps];
    [Identity], [IdentityWire], [IdentityOps] (users, groups, memberships, quotas,
    application privileges, and the data of shared folders); [ShareWire], [ShareOps] (shared
    folders and their permissions); [Storage], [StorageWire], [StorageOps] (disks, pools,
    volumes and SSD caches: the inventory, the script of model definitions, the changes).

    Application.  [Config] (internal/config and environment credentials), [Manager]
    (internal/runtime/manager.go), [Service] (internal/application/service.go: profiles and
    the remote apply boundary), [Firewall] (internal/domain/firewall: evaluation and the
    lock-out guard), [FirewallPlan] (firewall_write.go), [Management] (management.go: plans
    and applies of accounts and shared folders), [StorageChecks] and [StoragePlan]
    (storage_management.go: requests, topology and safety; plans, applies and
    postconditions), [RemoteApply] (the service behind the gateway), [Access]
    (internal/domain/access).

    Theorems are in the files named after their subject with the suffix Thms, and in
    [TokenHistory], [TokenTypes], [ManagementWire], [StorageCalls], [FirewallRemote],
    [ManagementRemote] and [StorageRemote]; [Samples], [FirewallPlanThms], [ManagementWire]
    and [StorageCalls] hold the concrete inputs they are instantiated at.

    ** What the theorems show

    Remote changes.  FirewallRemote.remote_firewall_write_admitted: a firewall change from a
    remote client reaches the NAS only as the plan that was approved;
    ManagementRemote.identity_apply_admitted and share_apply_admitted say the same of
    accounts and shared folders, where every change sent is one of the calls of the request
    and, on a success, the state that was read back has what was asked for (identity_achieved
    and share_achieved of ManagementThms, stated without the code's own verification);
    membership_apply_exact and ManagementThms: a change of memberships ends with exactly the
    requested groups.  StorageRemote.storage_apply_admitted says it of pools, volumes and
    caches, with storage_achieved; StorageThms: a plan takes spare disks only, its
    capacities are ones that DSM has, and it announces exactly what it can destroy.  McpThms.policy_gate,
    confirmation_admits_once, calls_audited; McpPolicy.surfaces_scoped.  PolicyThms,
    ApprovalThms: admission is sound, approvals are single use, the queue of requests is
    bounded.  TokenHistory: the repository refines an abstract book of tokens, in every
    history revocation is permanent and a refresh token is used once.  TokenTypes: every
    stored token has known scopes and names configured NAS devices only.  AuditThms: with the
    statistics of bbolt as they are, an append never leaves more than the bound and one
    event, but it wipes a log that has grown past the bound; queries are exact.

    The gateway.  PlatformThms: an assertion is accepted once; what is signed verifies and
    is remembered.
    OAuthThms: an authorization code is exchanged at most once, by its client and with the
    verifier of its challenge, for the grant an administrator approved.  GatewayThms: a
    request reaches the MCP server only as the principal of a live token, in a session of
    that token, at the permitted rate.  AdminThms: the console changes the gateway's state
    only for its own pages in an authenticated session, up to the housekeeping the relation
    idle spells out, and a revealed password leaves an audit event.  WebLoginThms: a web
    login is completed at most once, for the NAS and the identifier of its start.

    DSM.  DsmThms: a call that may change the NAS is not repeated after it may have run,
    retries end, secret parameters are never in the clear.  FirewallWire: decoding undoes
    encoding.  FirewallThms, FirewallPlanThms: the lock-out guard is exact and no change that
    passes it, merged into the profile read just before the write, locks the session out.
    TlsThms: the preflight of a profile agrees with its connections up to blanks around a
    pin, and a confirmation pins the observed certificate.

    State.  RevisionThms: a revision identifies a profile's settings.  ManagerThms: whatever
    runs concurrently, a request is handed a live client of the committed profile.
    RepositoryThms, OpenThms: optimistic updates, deletion with and without
    secrets, envelopes, opening and migration with its
    backup.

    ** Modelling conventions

    Go integers are [Z]; where a machine width matters it is written out (u64_wrap,
    int64_wrap, u32_wrap).  A Go map is a stdpp [gmap]; iteration in map order is a list
    argument or a sorted list where the result does not depend on it.  Time is nanoseconds
    as [Z].  Randomness and clocks are arguments in the order they are read.  Third-party
    and operating-system code is a class ([AEAD], [Argon2], [Sha256], [HMAC], [X509],
    [NetURL], [Network], [ScriptNetwork], [SDK], [Floats] for the parsing of floating-point
    text, [StorageHash] and [ManagedHash] for the hash of a plan, ...) whose documented laws are separate classes; every
    property that assumes one has a witness at a concrete instance.

    ** Fuel

    No fuel limits behaviour.  The login loop of [DsmClient] has three rounds, since DSM is
    asked for at most one password and two one-time codes; the retry loop has as many rounds
    as the policy has attempts (DsmThms.retry_terminates); eviction loops have as many
    rounds as there are entries, each round removing one; the address parser has eight, one
    per group.

    ** Not modelled

    The handlers of the MCP tools and the command line (they decode, call one method and
    print); the plans of domains other than the firewall, accounts, shared folders and
    storage, and their wire formats, which repeat the shape of the four over other data; web login and
    the setup window of a new NAS (protocols with live devices: the exchange of a web login
    and the steps of provisioning are arguments of the console's handlers); the inspection
    and the restoring of recovery sets (scheduling a restore is modelled); the restart of the
    process; the HTML pages; the report of
    compatibility beside the capabilities; the search for the assignment in the script of
    model definitions; the operating system's keyring;
    logging.  A request is modelled
    as one sequence of operations: what other requests do between its transactions is an
    argument where the code is written for it (password hashing in [Admin]), and a transition
    system where the interleaving is the point ([Manager]). *)

From stdpp Require Export base tactics gmap strings list sorting fin_maps.
From Stdlib Require Export ZArith Lia.

#[global] Set Default Goal Selector "!".

Declare Scope go_scope.
Delimit Scope go_scope with go.
#[global] Open Scope Z_scope.

(** ** Results: a Go [(value, error)] pair whose error is non-nil or nil *)

Inductive result (E A : Type) : Type :=
| Ok (a : A)
| Err (e : E).
Arguments Ok {_ _} _.
Arguments Err {_ _} _.

Definition is_Ok {E A} (r : result E A) : bool :=
  match r with Ok _ => true | Err _ => false end.

#[global] Instance result_ret {E} : MRet (result E) := fun A a => Ok a.
#[global] Instance result_bind {E} : MBind (result E) := fun A B k m =>
  match m with Ok a => k a | Err e => Err e end.
#[global] Instance result_fmap {E} : FMap (result E) := fun A B f m =>
  match m with Ok a => Ok (f a) | Err e => Err e end.

(** ** Stateful, fallible code: the state survives an error, as in Go *)

Definition ST (S E A : Type) : Type := S → result E A * S.

#[global] Instance ST_ret {S E} : MRet (ST S E) := fun A a s => (Ok a, s).
#[global] Instance ST_bind {S E} : MBind (ST S E) := fun A B k m s =>
  match m s with
  | (Ok a, s') => k a s'
  | (Err e, s') => (Err e, s')
  end.

(** [fail e] is the early return [return ..., e]. *)
Definition fail {S E A} (e : E) : ST S E A := fun s => (Err e, s).
Definition getS {S E} : ST S E S := fun s => (Ok s, s).
Definition modifyS {S E} (f : S → S) : ST S E () := fun s => (Ok (), f s).
(** [guard b e]: [if !b { return e }]. *)
Definition check {S E} (b : bool) (e : E) : ST S E () :=
  if b then mret () else fail e.
Definition lift {S E A} (r : result E A) : ST S E A :=
  match r with Ok a => mret a | Err e => fail e end.
(** [x, err := m; if err != nil { return e' }]: any error of [m] becomes [e']. *)
Definition mask {S E A} (e' : E) (m : ST S E A) : ST S E A := fun s =>
  match m s with
  | (Ok a, s') => (Ok a, s')
  | (Err _, s') => (Err e', s')
  end.

Arguments ST_ret {_ _} {_} _ _ /.
Arguments result_ret {_} {_} _ /.
Arguments fail {_ _ _} _ _ /.
Arguments getS {_ _} _ /.
Arguments modifyS {_ _} _ _ /.

(** ** Generic list lookups *)

(** First element satisfying a boolean test: a [for] loop that returns early. *)
Fixpoint find_first {A} (f : A → bool) (l : list A) : option A :=
  match l with
  | [] => None
  | x :: l => if f x then Some x else find_first f l
  end.

(** Keep the first occurrence of each element: the [seen] map idiom. *)
Fixpoint dedup_aux {A} `{EqDecision A} (seen l : list A) : list A :=
  match l with
  | [] => []
  | x :: l =>
      if decide (x ∈ seen) then dedup_aux seen l
      else x :: dedup_aux (x :: seen) l
  end.
Definition dedup {A} `{EqDecision A} (l : list A) : list A := dedup_aux [] l.

(** ** Lemmas *)

Create HintDb go discriminated.
#[export] Hint Constants Opaque : go.
#[export] Hint Variables Transparent : go.

Section monad_lemmas.
Context {S E : Type}.

Lemma bind_ok_inv {A B} (m : ST S E A) (k : A → ST S E B) s b s' :
  (m ≫= k) s = (Ok b, s') →
  ∃ a s1, m s = (Ok a, s1) ∧ k a s1 = (Ok b, s').
Proof.
  unfold mbind, ST_bind. intros H.
  destruct (m s) as [[a|e] s1]; [by exists a, s1|discriminate].
Qed.

Lemma bind_err_inv {A B} (m : ST S E A) (k : A → ST S E B) s e s' :
  (m ≫= k) s = (Err e, s') →
  m s = (Err e, s') ∨ ∃ a s1, m s = (Ok a, s1) ∧ k a s1 = (Err e, s').
Proof.
  unfold mbind, ST_bind. intros H.
  destruct (m s) as [[a|e'] s1]; [right; by exists a, s1|left; congruence].
Qed.

(** Either the first computation failed, or its value reached the second. *)
Lemma bind_inv {A B} (m : ST S E A) (k : A → ST S E B) s r s' :
  (m ≫= k) s = (r, s') →
  (∃ e, m s = (Err e, s') ∧ r = Err e) ∨
  (∃ a s1, m s = (Ok a, s1) ∧ k a s1 = (r, s')).
Proof.
  unfold mbind, ST_bind. intros Hr. destruct (m s) as [[a|e] s1]; [eauto|].
  injection Hr as <- <-. eauto.
Qed.

(** A chain of fallible steps that succeeds. *)
Lemma result_bind_ok {A B} (m : result E A) (k : A → result E B) b :
  m ≫= k = Ok b → ∃ a, m = Ok a ∧ k a = Ok b.
Proof. destruct m as [a|]; [by exists a|done]. Qed.

Lemma bind_ok {A B} (m : ST S E A) (k : A → ST S E B) s a s1 :
  m s = (Ok a, s1) → (m ≫= k) s = k a s1.
Proof. unfold mbind, ST_bind. by intros ->. Qed.

Lemma bind_err {A B} (m : ST S E A) (k : A → ST S E B) s e s1 :
  m s = (Err e, s1) → (m ≫= k) s = (Err e, s1).
Proof. unfold mbind, ST_bind. by intros ->. Qed.

Lemma check_ok_inv b (e : E) (s : S) u s' :
  check b e s = (Ok u, s') → b = true ∧ s' = s.
Proof. destruct b; cbv; intros H; by simplify_eq. Qed.

Lemma check_err_inv b (e : E) (s : S) e' s' :
  check b e s = (Err e', s') → b = false ∧ e' = e ∧ s' = s.
Proof. destruct b; cbv; intros H; by simplify_eq. Qed.

Lemma lift_ok_inv {A} (r : result E A) (s : S) a s' :
  lift r s = (Ok a, s') → r = Ok a ∧ s' = s.
Proof. destruct r; cbv; intros H; by simplify_eq. Qed.

Lemma lift_err_inv {A} (r : result E A) (s : S) e s' :
  lift r s = (Err e, s') → r = Err e ∧ s' = s.
Proof. destruct r; cbv; intros H; by simplify_eq. Qed.

Lemma mask_ok_inv {A} (e' : E) (m : ST S E A) s a s' :
  mask e' m s = (Ok a, s') → m s = (Ok a, s').
Proof. unfold mask. by destruct (m s) as [[]]. Qed.

Lemma mask_err_inv {A} (e' : E) (m : ST S E A) s e s' :
  mask e' m s = (Err e, s') → e = e' ∧ ∃ e0, m s = (Err e0, s').
Proof.
  unfold mask. destruct (m s) as [[a|e0] s0]; [discriminate|].
  intros; simplify_eq; eauto.
Qed.

Lemma check_true (e : E) (s : S) b : b = true → check b e s = (Ok (), s).
Proof. by intros ->. Qed.

Lemma check_false (e : E) (s : S) b : b = false → check b e s = (Err e, s).
Proof. by intros ->. Qed.
End monad_lemmas.

(** Decompose a successful run of monadic code into the runs of its steps. *)
Ltac st_inv_step :=
  match goal with
  | H : (_ ≫= _) _ = (Ok _, _) |- _ =>
      apply bind_ok_inv in H as (? & ? & ? & ?)
  | H : check _ _ _ = (Ok _, _) |- _ => apply check_ok_inv in H as [? ->]
  | H : lift _ _ = (Ok _, _) |- _ => apply lift_ok_inv in H as [? ->]
  | H : mask _ _ _ = (Ok _, _) |- _ => apply mask_ok_inv in H
  | H : mret _ _ = (_, _) |- _ => unfold mret in H; simpl in H
  | H : getS _ = (_, _) |- _ => simpl in H
  | H : modifyS _ _ = (_, _) |- _ => simpl in H
  | H : fail _ _ = (_, _) |- _ => simpl in H
  | H : (Ok _, _) = (Ok _, _) |- _ => injection H as; subst
  | H : (Err _, _) = (Ok _, _) |- _ => discriminate H
  | H : Ok _ = Ok _ |- _ => injection H as; subst
  | H : Err _ = Ok _ |- _ => discriminate H
  | H : Ok _ = Err _ |- _ => discriminate H
  end.
Ltac st_inv := repeat (st_inv_step; simplify_eq).

(** Split the boolean facts a guard leaves behind. *)
Ltac split_bools :=
  repeat match goal with
  | H : _ && _ = true |- _ => apply andb_prop in H as [? ?]
  | H : _ || _ = false |- _ => apply orb_false_elim in H as [? ?]
  | H : negb _ = true |- _ => apply negb_true_iff in H
  | H : negb _ = false |- _ => apply negb_false_iff in H
  | H : bool_decide _ = true |- _ => apply bool_decide_eq_true in H
  | H : bool_decide _ = false |- _ => apply bool_decide_eq_false in H
  | H : (_ <? _) = true |- _ => apply Z.ltb_lt in H
  | H : (_ <? _) = false |- _ => apply Z.ltb_ge in H
  | H : (_ <=? _) = true |- _ => apply Z.leb_le in H
  | H : (_ <=? _) = false |- _ => apply Z.leb_gt in H
  | H : (_ =? _) = true |- _ => apply Z.eqb_eq in H
  | H : (_ =? _) = false |- _ => apply Z.eqb_neq in H
  end; simplify_eq.

Section find_first.
Context {A : Type} (f : A → bool).

Lemma find_first_Some l x :
  find_first f l = Some x → x ∈ l ∧ f x = true.
Proof.
  induction l as [|y l IH]; simpl; [discriminate|].
  destruct (f y) eqn:Hy; intros H.
  - simplify_eq. split; [by left|done].
  - destruct (IH H). split; [by right|done].
Qed.

Lemma find_first_None l :
  find_first f l = None ↔ ∀ x, x ∈ l → f x = false.
Proof.
  induction l as [|y l IH]; simpl.
  { split; [|done]. intros _ x Hx. by apply elem_of_nil in Hx. }
  destruct (f y) eqn:Hy.
  - split; [discriminate|]. intros H. rewrite H in Hy; [done|by left].
  - rewrite IH. split.
    + intros H x [->|Hx]%elem_of_cons; auto.
    + intros H x Hx. apply H. by right.
Qed.

Lemma find_first_is_Some l x :
  x ∈ l → f x = true → is_Some (find_first f l).
Proof.
  intros Hx Hf. destruct (find_first f l) eqn:E; [eauto|].
  rewrite find_first_None in E. apply E in Hx. congruence.
Qed.
End find_first.

(** *** The first of a list, as a specification *)

(** The first of a list that satisfies [P]; and none does. *)
Definition first_such {A} (P : A → Prop) (l : list A) (a : A) : Prop :=
  ∃ before after, l = before ++ a :: after ∧ P a ∧ ∀ b, b ∈ before → ¬ P b.
Definition none_such {A} (P : A → Prop) (l : list A) : Prop := ∀ a, a ∈ l → ¬ P a.
(** What the first one says, or [dflt] when there is none. *)
Definition says {A V} (P : A → Prop) (get : A → V) (dflt : V) (l : list A) (v : V) : Prop :=
  (∃ a, first_such P l a ∧ get a = v) ∨ (none_such P l ∧ v = dflt).
Lemma find_first_such {A} (f : A → bool) l a :
  find_first f l = Some a → first_such (fun x => f x = true) l a.
Proof.
  induction l as [|x l IH]; cbn; [done|]. destruct (f x) eqn:E.
  - intros [= ->]. exists [], l. split; [done|]. split; [done|]. by intros b []%elem_of_nil.
  - intros (before & after & -> & Ha & Hb)%IH. exists (x :: before), after.
    split; [done|]. split; [done|]. intros b [->|Hin]%elem_of_cons; [by rewrite E|by apply Hb].
Qed.

Lemma find_none_such {A} (f : A → bool) l :
  find_first f l = None → none_such (fun x => f x = true) l.
Proof. rewrite find_first_None. intros Hn a Ha. by rewrite Hn. Qed.

Lemma says_find {A V} (f : A → bool) (get : A → V) (d : A) l :
  says (fun x => f x = true) get (get d) l (get (default d (find_first f l))).
Proof.
  destruct (find_first f l) as [a|] eqn:E; cbn.
  - left. exists a. split; [by apply find_first_such|done].
  - right. split; [by apply find_none_such|done].
Qed.

Lemma first_such_unique {A} (P : A → Prop) l a b :
  first_such P l a → first_such P l b → a = b.
Proof.
  intros (l1 & l2 & -> & Ha & Hn) (k1 & k2 & He & Hb & Hm). revert k1 He Hm.
  induction l1 as [|x l1 IH]; intros [|y k1] He Hm; cbn in He; injection He as Hx He.
  - done.
  - subst y. by destruct (Hm a (list_elem_of_here _ _)).
  - subst x. by destruct (Hn b (list_elem_of_here _ _)).
  - apply (IH (λ c Hc, Hn c (list_elem_of_further _ _ _ Hc)) k1); [done|].
    intros c Hc. apply Hm. by right.
Qed.

Lemma filter_single {A} (f : A → bool) l v :
  base.filter (λ x, f x = true) l = [v] →
  ∃ l1 l2, l = l1 ++ v :: l2 ∧ f v = true ∧ none_such (λ x, f x = true) (l1 ++ l2).
Proof.
  induction l as [|x l IH]; [done|]. rewrite filter_cons. case_decide as Hx.
  - intros [= -> Hl]. exists [], l. split; [done|]. split; [done|]. intros y Hy Hf.
    assert (y ∈ base.filter (λ x, f x = true) l) as Hin by by apply list_elem_of_filter.
    rewrite Hl in Hin. by apply elem_of_nil in Hin.
  - intros (l1 & l2 & -> & Hv & Hn)%IH. exists (x :: l1), l2. split; [done|]. split; [done|].
    intros y [->|Hy]%elem_of_cons; [done|]. by apply Hn.
Qed.

Lemma first_such_ext {A} (P Q : A → Prop) l a :
  (∀ x, P x ↔ Q x) → first_such P l a → first_such Q l a.
Proof. intros He (b & f & -> & Ha & Hb). exists b, f. naive_solver. Qed.

Lemma says_ext {A V} (P Q : A → Prop) (get : A → V) d l v :
  (∀ x, P x ↔ Q x) → says P get d l v → says Q get d l v.
Proof.
  intros He [(a & Ha & Hv)|[Hn Hv]].
  - left. exists a. split; [|done]. by eapply first_such_ext.
  - right. split; [|done]. intros a Hin Hq. by apply (Hn a Hin), He.
Qed.

Lemma conj_bool (P : Prop) `{Decision P} (b : bool) :
  bool_decide P && b = true ↔ P ∧ b = true.
Proof. by rewrite andb_true_iff, bool_decide_eq_true. Qed.

Section dedup.
Context {A : Type} `{EqDecision A}.

Lemma elem_of_dedup_aux (seen l : list A) x :
  x ∈ dedup_aux seen l ↔ x ∈ l ∧ x ∉ seen.
Proof.
  revert seen. induction l as [|y l IH]; intros seen; simpl.
  { split; [intros []%elem_of_nil|intros [[]%elem_of_nil _]]. }
  case_decide as Hy; [|rewrite elem_of_cons];
    rewrite IH, !elem_of_cons; destruct (decide (x = y)) as [->|]; tauto.
Qed.

Lemma elem_of_dedup (l : list A) x : x ∈ dedup l ↔ x ∈ l.
Proof.
  unfold dedup. rewrite elem_of_dedup_aux, elem_of_nil. tauto.
Qed.

Lemma NoDup_dedup_aux (seen l : list A) : NoDup (dedup_aux seen l).
Proof.
  revert seen. induction l as [|y l IH]; intros seen; simpl; [constructor|].
  case_decide; [done|]. constructor; [|done].
  rewrite elem_of_dedup_aux, elem_of_cons. tauto.
Qed.

Lemma NoDup_dedup (l : list A) : NoDup (dedup l).
Proof. apply NoDup_dedup_aux. Qed.

Lemma dedup_aux_id (seen l : list A) :
  NoDup l → (∀ x, x ∈ l → x ∉ seen) → dedup_aux seen l = l.
Proof.
  revert seen. induction l as [|y l IH]; intros seen Hnd Hs; simpl; [done|].
  apply NoDup_cons in Hnd as [Hy Hnd].
  rewrite decide_False by (apply Hs; by left). f_equal. apply IH; [done|].
  intros x Hx [->|Hs']%elem_of_cons; [done|].
  by apply (Hs x); [right|].
Qed.

Lemma dedup_id (l : list A) : NoDup l → dedup l = l.
Proof. intros. apply dedup_aux_id; [done|]. intros x _ []%elem_of_nil. Qed.
End dedup.

(** A step-wise invariant holds along every history. *)
Lemma rtc_keeps {A} (R : relation A) (P : A → Prop) :
  (∀ x y, P x → R x y → P y) → ∀ x y, rtc R x y → P x → P y.
Proof. intros Hstep x y Hr. induction Hr as [|x y z Hxy _ IH]; eauto. Qed.
