(* ===== verification/GoStrings.v ===== *)
(** * Go strings

    Go strings are byte sequences.  This file models the functions of the packages
    [strings], [strconv], [unicode/utf8], [unicode] and [encoding/binary] that the
    modelled code calls, on Rocq byte strings.

    White space and control characters are exact on UTF-8.  Case mapping and case
    folding are exact on ASCII strings; on a string with a non-ASCII byte they are
    given by the class [Unicode], the interface to Go's Unicode tables.  The laws a
    client needs of those tables are the class [UnicodeLaws]. *)

From Stdlib Require Import Ascii.
From Stdlib Require Import String.
From Stdlib Require Import DecimalString.
From S2P Require Import Prelude.

(** ** Bytes *)

Definition byte_of_ascii (c : ascii) : Z := Z.of_N (N_of_ascii c).
Definition ascii_of_byte (z : Z) : ascii := ascii_of_N (Z.to_N z).

(** [[]byte(s)] *)
Definition bytes (s : string) : list Z :=
  byte_of_ascii <$> list_ascii_of_string s.
(** [string(b)] *)
Definition of_bytes (l : list Z) : string :=
  string_of_list_ascii (ascii_of_byte <$> l).

Definition is_byte (z : Z) : Prop := 0 ≤ z < 256.

(** [len(s)] *)
Definition slen (s : string) : Z := Z.of_nat (String.length s).

Definition chr (z : Z) : string := String (ascii_of_byte z) EmptyString.

(** ** package utf8 *)

Definition RuneError : Z := 65533.

Definition cont (b : Z) : bool := (128 <=? b) && (b <=? 191).
Definition in_range (lo hi b : Z) : bool := (lo <=? b) && (b <=? hi).

(** Accepted second byte for each first byte of a multi-byte encoding. *)
Definition second2 (a b : Z) : bool := in_range 194 223 a && cont b.
Definition second3 (a b : Z) : bool :=
  if a =? 224 then in_range 160 191 b
  else if a =? 237 then in_range 128 159 b
  else in_range 225 239 a && cont b.
Definition second4 (a b : Z) : bool :=
  if a =? 240 then in_range 144 191 b
  else if a =? 244 then in_range 128 143 b
  else in_range 241 243 a && cont b.

(** The runes a [for _, r := range s] loop visits: an invalid byte yields
    [RuneError] and advances by one. *)
Fixpoint runes (l : list Z) : list Z :=
  match l with
  | [] => []
  | a :: l1 =>
      if a <? 128 then a :: runes l1 else
      match l1 with
      | b :: l2 =>
          if second2 a b then (a - 192) * 64 + (b - 128) :: runes l2 else
          match l2 with
          | c :: l3 =>
              if second3 a b && cont c then
                (a - 224) * 4096 + (b - 128) * 64 + (c - 128) :: runes l3 else
              match l3 with
              | d :: l4 =>
                  if second4 a b && cont c && cont d then
                    (a - 240) * 262144 + (b - 128) * 4096
                      + (c - 128) * 64 + (d - 128) :: runes l4
                  else RuneError :: runes l1
              | [] => RuneError :: runes l1
              end
          | [] => RuneError :: runes l1
          end
      | [] => RuneError :: runes l1
      end
  end.

Definition string_runes (s : string) : list Z := runes (bytes s).
(** The same loop, each rune with its bytes. *)
Fixpoint rune_parts (l : list Z) : list (Z * list Z) :=
  match l with
  | [] => []
  | a :: l1 =>
      let invalid := (RuneError, [a]) :: rune_parts l1 in
      if a <? 128 then (a, [a]) :: rune_parts l1 else
      match l1 with
      | b :: l2 =>
          if second2 a b then ((a - 192) * 64 + (b - 128), [a; b]) :: rune_parts l2 else
          match l2 with
          | c :: l3 =>
              if second3 a b && cont c then
                ((a - 224) * 4096 + (b - 128) * 64 + (c - 128), [a; b; c]) :: rune_parts l3 else
              match l3 with
              | d :: l4 =>
                  if second4 a b && cont c && cont d then
                    ((a - 240) * 262144 + (b - 128) * 4096 + (c - 128) * 64 + (d - 128),
                     [a; b; c; d]) :: rune_parts l4
                  else invalid
              | [] => invalid
              end
          | [] => invalid
          end
      | [] => invalid
      end
  end.

Definition RuneCountInString (s : string) : Z := Z.of_nat (length (string_runes s)).

(** ** package unicode *)

(** [unicode.IsControl]: category Cc. *)
Definition IsControl (r : Z) : bool := in_range 0 31 r || in_range 127 159 r.

(** UTF-8 encodings of the runes with the White_Space property. *)
Definition space1 (a : Z) : bool := in_range 9 13 a || (a =? 32).
Definition space2 (a b : Z) : bool := (a =? 194) && ((b =? 133) || (b =? 160)).
Definition space3 (a b c : Z) : bool :=
  ((a =? 225) && (b =? 154) && (c =? 128))
  || ((a =? 226) && (b =? 128)
      && (in_range 128 138 c || (c =? 168) || (c =? 169) || (c =? 175)))
  || ((a =? 226) && (b =? 129) && (c =? 159))
  || ((a =? 227) && (b =? 128) && (c =? 128)).

(** ** package strings *)

Fixpoint trim_left (l : list Z) : list Z :=
  match l with
  | [] => []
  | a :: l1 =>
      if space1 a then trim_left l1 else
      match l1 with
      | b :: l2 =>
          if space2 a b then trim_left l2 else
          match l2 with
          | c :: l3 => if space3 a b c then trim_left l3 else l
          | [] => l
          end
      | [] => l
      end
  end.

(** The same from the right, on the reversed bytes. *)
Fixpoint trim_right_rev (l : list Z) : list Z :=
  match l with
  | [] => []
  | a :: l1 =>
      if space1 a then trim_right_rev l1 else
      match l1 with
      | b :: l2 =>
          if space2 b a then trim_right_rev l2 else
          match l2 with
          | c :: l3 => if space3 c b a then trim_right_rev l3 else l
          | [] => l
          end
      | [] => l
      end
  end.

Definition trim_bytes (l : list Z) : list Z :=
  reverse (trim_right_rev (reverse (trim_left l))).
Definition TrimSpace (s : string) : string := of_bytes (trim_bytes (bytes s)).

(** [strings.TrimRight(s, cutset)] for a one-byte ASCII cutset. *)
Fixpoint drop_while_eq (x : Z) (l : list Z) : list Z :=
  match l with
  | [] => []
  | a :: l' => if a =? x then drop_while_eq x l' else l
  end.
Definition TrimRight1 (s : string) (x : Z) : string :=
  of_bytes (reverse (drop_while_eq x (reverse (bytes s)))).

Definition HasPrefix (s p : string) : bool := String.prefix p s.

(** [strings.TrimPrefix] *)
Definition TrimPrefix (s p : string) : string :=
  if HasPrefix s p
  then String.substring (String.length p) (String.length s - String.length p) s
  else s.

(** Index of the first byte that satisfies [f]. *)
Fixpoint index_by (f : Z → bool) (l : list Z) : option nat :=
  match l with
  | [] => None
  | a :: l' => if f a then Some O else S <$> index_by f l'
  end.

(** [strings.ContainsAny] for an ASCII set. *)
Definition ContainsAny (s : string) (set : list Z) : bool :=
  existsb (fun a => bool_decide (a ∈ set)) (bytes s).

(** [strings.FieldsFunc] for a predicate on ASCII bytes: maximal runs of bytes that
    do not satisfy it. *)
Fixpoint fields_aux (f : Z → bool) (cur : list Z) (l : list Z) : list (list Z) :=
  match l with
  | [] => match cur with [] => [] | _ => [reverse cur] end
  | a :: l' =>
      if f a then
        match cur with
        | [] => fields_aux f [] l'
        | _ => reverse cur :: fields_aux f [] l'
        end
      else fields_aux f (a :: cur) l'
  end.
Definition FieldsFunc (f : Z → bool) (l : list Z) : list (list Z) := fields_aux f [] l.

(** [strings.ReplaceAll(s, x, "")] for a one-byte pattern. *)
Definition RemoveByte (s : string) (x : Z) : string :=
  of_bytes (base.filter (fun a => a ≠ x) (bytes s)).

Fixpoint Join (l : list string) (sep : string) : string :=
  match l with
  | [] => ""
  | [x] => x
  | x :: l' => x +:+ sep +:+ Join l' sep
  end.

(** [strings.ContainsRune("0123456789abcdef", r)] *)
Definition is_hex_rune (r : Z) : bool := in_range 48 57 r || in_range 97 102 r.
Definition all_hex (s : string) : bool := forallb is_hex_rune (string_runes s).

(** *** Case *)

Class Unicode := {
  (** [strings.ToLower] on a string with a non-ASCII byte *)
  uni_lower : string → string;
  (** [strings.EqualFold] when one of the strings has a non-ASCII byte *)
  uni_fold : string → string → bool;
  (** the text of [unicode.ToUpper(r)] for a letter or digit [r] that is not ASCII,
      [None] for any other rune that is not ASCII *)
  uni_upper : Z → option string;
  (** [strconv.IsPrint] of a rune that is not ASCII *)
  uni_print : Z → bool
}.

Definition is_ascii (s : string) : bool := forallb (fun a => a <? 128) (bytes s).
Definition lower_byte (a : Z) : Z := if in_range 65 90 a then a + 32 else a.
Definition lower_ascii (s : string) : string := of_bytes (lower_byte <$> bytes s).

Definition ToLower `{Unicode} (s : string) : string :=
  if is_ascii s then lower_ascii s else uni_lower s.

Definition EqualFold `{Unicode} (s t : string) : bool :=
  if is_ascii s && is_ascii t
  then bool_decide (lower_ascii s = lower_ascii t)
  else uni_fold s t.

(** [EqualFold] is equality under simple case folding, an equivalence. *)
Class UnicodeLaws `{Unicode} : Prop := {
  uni_fold_refl s : is_ascii s = false → uni_fold s s = true;
  uni_fold_sym s t : uni_fold s t = uni_fold t s
}.

(** The tables restricted to ASCII: a non-ASCII string is its own fold. *)
Definition ascii_tables : Unicode := {|
  uni_lower := lower_ascii;
  uni_fold := fun s t => bool_decide (lower_ascii s = lower_ascii t);
  uni_upper := fun _ => None;
  uni_print := fun _ => false
|}.

(** *** Quoting: [strconv.Quote], the verb [%q] *)

Definition hex_digit_of (z : Z) : Z := if z <? 10 then 48 + z else 87 + z.
(** The last [n] hexadecimal digits. *)
Fixpoint hex_text (n : nat) (z : Z) : list Z :=
  match n with
  | O => []
  | S n => hex_text n (z / 16) ++ [hex_digit_of (z mod 16)]
  end.
Definition escape_rune `{Unicode} (r : Z) (part : list Z) : list Z :=
  if (r =? RuneError) && bool_decide (length part = 1%nat)
  then [92; 120] ++ hex_text 2 (default 0 (head part)) else
  if (r =? 34) || (r =? 92) then [92; r] else
  if if r <? 128 then in_range 32 126 r else uni_print r then part else
  if r =? 7 then [92; 97] else if r =? 8 then [92; 98] else if r =? 12 then [92; 102] else
  if r =? 10 then [92; 110] else if r =? 13 then [92; 114] else if r =? 9 then [92; 116] else
  if r =? 11 then [92; 118] else
  if (r <? 32) || (r =? 127) then [92; 120] ++ hex_text 2 r else
  if r <? 65536 then [92; 117] ++ hex_text 4 r else [92; 85] ++ hex_text 8 r.
Definition Quote `{Unicode} (s : string) : string :=
  chr 34 +:+ of_bytes (concat ((fun p => escape_rune p.1 p.2) <$> rune_parts (bytes s)))
    +:+ chr 34.

(** *** Sorting *)

(** [sort.Strings] *)
Definition sort_strings (l : list string) : list string := merge_sort String.le l.

(** ** package strconv *)

Definition is_digit (a : Z) : bool := in_range 48 57 a.
Definition maxInt64 : Z := 9223372036854775807.
Definition minInt64 : Z := -9223372036854775808.

Fixpoint digits_value (acc : Z) (l : list Z) : option Z :=
  match l with
  | [] => Some acc
  | a :: l' => if is_digit a then digits_value (acc * 10 + (a - 48)) l' else None
  end.

Definition unsigned_value (l : list Z) : option Z :=
  match l with [] => None | _ => digits_value 0 l end.

(** [strconv.Atoi] on a 64-bit platform; [None] is a syntax or range error. *)
Definition Atoi_bytes (l : list Z) : option Z :=
  v ← match l with
      | a :: l' =>
          if a =? 45 then Z.opp <$> unsigned_value l'
          else if a =? 43 then unsigned_value l'
          else unsigned_value l
      | [] => None
      end;
  if in_range minInt64 maxInt64 v then Some v else None.
Definition Atoi (s : string) : option Z := Atoi_bytes (bytes s).

(** [fmt.Sprintf("%d", n)] *)
Definition Itoa (n : Z) : string := NilZero.string_of_int (Z.to_int n).

(** ** package encoding/binary *)

Definition u32_wrap (x : Z) : Z := x mod 2 ^ 32.
Definition u64_wrap (x : Z) : Z := x mod 2 ^ 64.

Fixpoint le_value (l : list Z) : Z :=
  match l with [] => 0 | a :: l' => a + 256 * le_value l' end.
Definition be_value (l : list Z) : Z := le_value (reverse l).

(** [n] little-endian bytes of [x]. *)
Fixpoint le_bytes (n : nat) (x : Z) : list Z :=
  match n with O => [] | S n' => x mod 256 :: le_bytes n' (x / 256) end.
Definition be_bytes (n : nat) (x : Z) : list Z := reverse (le_bytes n x).

(** ** Lemmas *)

Lemma is_byte_of_ascii c : is_byte (byte_of_ascii c).
Proof.
  unfold is_byte, byte_of_ascii. pose proof (N_ascii_bounded c). lia.
Qed.

Lemma ascii_byte_ascii c : ascii_of_byte (byte_of_ascii c) = c.
Proof.
  unfold ascii_of_byte, byte_of_ascii. rewrite N2Z.id. apply ascii_N_embedding.
Qed.

Lemma byte_ascii_byte z : is_byte z → byte_of_ascii (ascii_of_byte z) = z.
Proof.
  unfold is_byte, ascii_of_byte, byte_of_ascii. intros Hz.
  rewrite N_ascii_embedding by lia. lia.
Qed.

Lemma bytes_is_byte s : Forall is_byte (bytes s).
Proof.
  unfold bytes. apply Forall_fmap, Forall_forall.
  intros c _. apply is_byte_of_ascii.
Qed.

Lemma of_bytes_bytes s : of_bytes (bytes s) = s.
Proof.
  unfold of_bytes, bytes. rewrite <- list_fmap_compose.
  rewrite (list_fmap_ext _ id).
  - rewrite list_fmap_id. apply string_of_list_ascii_of_string.
  - intros ? c _. apply ascii_byte_ascii.
Qed.

Lemma rune_parts_runes l : (rune_parts l).*1 = runes l.
Proof.
  revert l. fix IH 1. intros [|a l1]; [done|]. cbn [rune_parts runes].
  pose proof (IH l1) as E1. destruct (a <? 128); [by cbn; rewrite E1|].
  destruct l1 as [|b l2]; [done|]. pose proof (IH l2) as E2.
  destruct (second2 a b); [by cbn [fmap list_fmap fst]; rewrite <- E2|].
  destruct l2 as [|c l3]; [by rewrite <- E1|]. pose proof (IH l3) as E3.
  destruct (second3 a b && cont c); [by rewrite <- E3|].
  destruct l3 as [|d l4]; [by rewrite <- E1|]. pose proof (IH l4) as E4.
  destruct (second4 a b && cont c && cont d); [by rewrite <- E4|by rewrite <- E1].
Qed.

Lemma bytes_of_bytes l : Forall is_byte l → bytes (of_bytes l) = l.
Proof.
  intros Hl. unfold of_bytes, bytes.
  rewrite list_ascii_of_string_of_list_ascii, <- list_fmap_compose.
  rewrite <- (list_fmap_id l) at 2. apply list_fmap_ext.
  intros i x Hx. apply byte_ascii_byte.
  by eapply Forall_lookup_1 in Hl.
Qed.

#[global] Instance bytes_inj : Inj (=) (=) bytes.
Proof. intros s t E. by rewrite <- (of_bytes_bytes s), E, of_bytes_bytes. Qed.

Lemma length_bytes s : length (bytes s) = String.length s.
Proof.
  unfold bytes. rewrite length_fmap. by induction s; simpl; f_equal.
Qed.

Lemma HasPrefix_app p s : HasPrefix (p +:+ s) p = true.
Proof.
  unfold HasPrefix. induction p as [|c p IH]; [by destruct s|].
  simpl. by destruct (ascii_dec c c).
Qed.
Lemma HasPrefix_inv s p : HasPrefix s p = true → ∃ rest, s = p +:+ rest.
Proof.
  unfold HasPrefix. revert s. induction p as [|c p IH]; intros s Hp; [by exists s|].
  destruct s as [|a s]; [done|]. cbn in Hp. destruct (Ascii.ascii_dec c a) as [->|]; [|done].
  apply IH in Hp as [rest ->]. by exists rest.
Qed.

Lemma slen_app s t : slen (s +:+ t) = slen s + slen t.
Proof.
  unfold slen. assert (String.length (s +:+ t) = String.length s + String.length t)%nat as ->;
    [|lia]. induction s; simpl; f_equal; done.
Qed.

Lemma bytes_app s t : bytes (s +:+ t) = bytes s ++ bytes t.
Proof.
  unfold bytes. rewrite <- fmap_app. f_equal. induction s; simpl; f_equal; done.
Qed.

Lemma of_bytes_app l k : of_bytes (l ++ k) = of_bytes l +:+ of_bytes k.
Proof.
  unfold of_bytes. rewrite fmap_app. generalize (ascii_of_byte <$> k).
  generalize (ascii_of_byte <$> l). intros p r. induction p as [|a p IH]; [done|].
  change (String a (string_of_list_ascii (p ++ r))
    = String a (string_of_list_ascii p +:+ string_of_list_ascii r)).
  by rewrite IH.
Qed.

(** *** Trimming *)

Lemma trim_left_idem l : trim_left (trim_left l) = trim_left l.
Proof.
  induction l as [l IH] using (induction_ltof1 _ (@length Z)); unfold ltof in IH.
  destruct l as [|a [|b [|c l]]]; simpl.
  - done.
  - destruct (space1 a) eqn:E; simpl; [done|]. by rewrite E.
  - destruct (space1 a) eqn:E; [apply (IH [b]); simpl; lia|].
    destruct (space2 a b) eqn:E2; simpl; [done|]. by rewrite E, E2.
  - destruct (space1 a) eqn:E; [apply (IH (b :: c :: l)); simpl; lia|].
    destruct (space2 a b) eqn:E2; [apply (IH (c :: l)); simpl; lia|].
    destruct (space3 a b c) eqn:E3; [apply (IH l); simpl; lia|].
    simpl. by rewrite E, E2, E3.
Qed.

Lemma trim_left_suffix l : ∃ p, l = p ++ trim_left l.
Proof.
  induction l as [l IH] using (induction_ltof1 _ (@length Z)); unfold ltof in IH.
  destruct l as [|a [|b [|c l]]]; simpl.
  - by exists [].
  - destruct (space1 a); [by exists [a]|by exists []].
  - destruct (space1 a).
    { destruct (IH [b]) as [p Hp]; [simpl; lia|]. exists (a :: p).
      exact (f_equal (cons a) Hp). }
    destruct (space2 a b); [by exists [a; b]|by exists []].
  - destruct (space1 a).
    { destruct (IH (b :: c :: l)) as [p Hp]; [simpl; lia|]. exists (a :: p).
      exact (f_equal (cons a) Hp). }
    destruct (space2 a b).
    { destruct (IH (c :: l)) as [p Hp]; [simpl; lia|]. exists (a :: b :: p).
      exact (f_equal (λ r, a :: b :: r) Hp). }
    destruct (space3 a b c); [|by exists []].
    destruct (IH l) as [p Hp]; [simpl; lia|]. exists (a :: b :: c :: p).
    exact (f_equal (λ r, a :: b :: c :: r) Hp).
Qed.

(** A prefix of a list without leading space has no leading space. *)
Lemma trim_left_prefix p l : trim_left (p ++ l) = p ++ l → trim_left p = p.
Proof.
  intros H.
  assert (∀ q r : list Z, trim_left r = q ++ r → length (trim_left r) ≤ length r →
    q = [])%nat as Hlen.
  { intros q r E Hl. rewrite E, length_app in Hl. destruct q; [done|simpl in Hl; lia]. }
  assert (∀ r : list Z, length (trim_left r) ≤ length r)%nat as Hle.
  { intros r. destruct (trim_left_suffix r) as [q Hq].
    rewrite Hq at 2. rewrite length_app. lia. }
  assert (∀ (q r : list Z), trim_left r = q ++ r → q = []) as Hne by eauto.
  destruct p as [|a [|b [|c p]]]; simpl in *.
  - done.
  - destruct (space1 a); [|done]. discriminate (Hne [a] l H).
  - destruct (space1 a); [discriminate (Hne [a] (b :: l) H)|].
    destruct (space2 a b); [discriminate (Hne [a; b] l H)|done].
  - destruct (space1 a); [discriminate (Hne [a] (b :: c :: p ++ l) H)|].
    destruct (space2 a b); [discriminate (Hne [a; b] (c :: p ++ l) H)|].
    destruct (space3 a b c); [discriminate (Hne [a; b; c] (p ++ l) H)|done].
Qed.

Lemma trim_right_rev_suffix l : ∃ p, l = p ++ trim_right_rev l.
Proof.
  induction l as [l IH] using (induction_ltof1 _ (@length Z)); unfold ltof in IH.
  destruct l as [|a [|b [|c l]]]; simpl.
  - by exists [].
  - destruct (space1 a); [by exists [a]|by exists []].
  - destruct (space1 a).
    { destruct (IH [b]) as [p Hp]; [simpl; lia|]. exists (a :: p).
      exact (f_equal (cons a) Hp). }
    destruct (space2 b a); [by exists [a; b]|by exists []].
  - destruct (space1 a).
    { destruct (IH (b :: c :: l)) as [p Hp]; [simpl; lia|]. exists (a :: p).
      exact (f_equal (cons a) Hp). }
    destruct (space2 b a).
    { destruct (IH (c :: l)) as [p Hp]; [simpl; lia|]. exists (a :: b :: p).
      exact (f_equal (λ r, a :: b :: r) Hp). }
    destruct (space3 c b a); [|by exists []].
    destruct (IH l) as [p Hp]; [simpl; lia|]. exists (a :: b :: c :: p).
    exact (f_equal (λ r, a :: b :: c :: r) Hp).
Qed.

Lemma trim_right_rev_idem l : trim_right_rev (trim_right_rev l) = trim_right_rev l.
Proof.
  induction l as [l IH] using (induction_ltof1 _ (@length Z)); unfold ltof in IH.
  destruct l as [|a [|b [|c l]]]; simpl.
  - done.
  - destruct (space1 a) eqn:E; simpl; [done|]. by rewrite E.
  - destruct (space1 a) eqn:E; [apply (IH [b]); simpl; lia|].
    destruct (space2 b a) eqn:E2; simpl; [done|]. by rewrite E, E2.
  - destruct (space1 a) eqn:E; [apply (IH (b :: c :: l)); simpl; lia|].
    destruct (space2 b a) eqn:E2; [apply (IH (c :: l)); simpl; lia|].
    destruct (space3 c b a) eqn:E3; [apply (IH l); simpl; lia|].
    simpl. by rewrite E, E2, E3.
Qed.

Lemma trim_bytes_prefix l : ∃ q, trim_left l = trim_bytes l ++ q.
Proof.
  unfold trim_bytes.
  destruct (trim_right_rev_suffix (reverse (trim_left l))) as [p Hp].
  exists (reverse p). rewrite <- reverse_app, <- Hp. by rewrite reverse_involutive.
Qed.

Lemma trim_bytes_idem l : trim_bytes (trim_bytes l) = trim_bytes l.
Proof.
  unfold trim_bytes at 1.
  assert (trim_left (trim_bytes l) = trim_bytes l) as ->.
  { destruct (trim_bytes_prefix l) as [q Hq].
    apply (trim_left_prefix _ q). rewrite <- Hq. apply trim_left_idem. }
  unfold trim_bytes. by rewrite reverse_involutive, trim_right_rev_idem.
Qed.

Lemma trim_bytes_sublist l x : x ∈ trim_bytes l → x ∈ l.
Proof.
  destruct (trim_left_suffix l) as [p Hp], (trim_bytes_prefix l) as [q Hq].
  intros Hx. rewrite Hp, elem_of_app. right. rewrite Hq, elem_of_app. by left.
Qed.

Lemma trim_bytes_is_byte l : Forall is_byte l → Forall is_byte (trim_bytes l).
Proof. rewrite !Forall_forall. eauto using trim_bytes_sublist. Qed.

Lemma bytes_TrimSpace s : bytes (TrimSpace s) = trim_bytes (bytes s).
Proof. apply bytes_of_bytes, trim_bytes_is_byte, bytes_is_byte. Qed.

Lemma TrimSpace_idem s : TrimSpace (TrimSpace s) = TrimSpace s.
Proof.
  unfold TrimSpace at 1. rewrite bytes_TrimSpace, trim_bytes_idem. done.
Qed.

(** Printable ASCII is not trimmed. *)
Definition visible (a : Z) : Prop := 33 ≤ a < 127.

Ltac visible_bools := unfold visible, space1, space2, space3, in_range in *; lia.

Lemma trim_left_visible l : Forall visible l → trim_left l = l.
Proof.
  destruct 1 as [|a l Ha Hl]; [done|]. cbn.
  replace (space1 a) with false by visible_bools. destruct l as [|b l]; [done|].
  replace (space2 a b) with false by visible_bools. destruct l as [|c l]; [done|].
  by replace (space3 a b c) with false by visible_bools.
Qed.

Lemma trim_right_visible l : Forall visible l → trim_right_rev l = l.
Proof.
  destruct 1 as [|a l Ha Hl]; [done|]. cbn.
  replace (space1 a) with false by visible_bools. destruct l as [|b l]; [done|].
  replace (space2 b a) with false by visible_bools. destruct l as [|c l]; [done|].
  by replace (space3 c b a) with false by visible_bools.
Qed.

Lemma TrimSpace_visible s : Forall visible (bytes s) → TrimSpace s = s.
Proof.
  intros Hs. unfold TrimSpace, trim_bytes. rewrite trim_left_visible by done.
  by rewrite trim_right_visible, reverse_involutive, of_bytes_bytes by by apply Forall_reverse.
Qed.

(** *** Case *)

Lemma lower_byte_idem a : lower_byte (lower_byte a) = lower_byte a.
Proof.
  unfold lower_byte, in_range. destruct ((65 <=? a) && (a <=? 90)) eqn:E.
  - split_bools. destruct ((65 <=? a + 32) && (a + 32 <=? 90)) eqn:E'; [|done].
    split_bools. lia.
  - by rewrite E.
Qed.

Lemma lower_byte_is_byte a : is_byte a → is_byte (lower_byte a).
Proof.
  unfold is_byte, lower_byte, in_range. intros.
  destruct ((65 <=? a) && (a <=? 90)) eqn:E; split_bools; lia.
Qed.

Lemma bytes_lower_ascii s : bytes (lower_ascii s) = lower_byte <$> bytes s.
Proof.
  apply bytes_of_bytes, Forall_fmap.
  eapply Forall_impl; [apply bytes_is_byte|]. intros. by apply lower_byte_is_byte.
Qed.

Lemma EqualFold_refl `{UnicodeLaws} s : EqualFold s s = true.
Proof.
  unfold EqualFold. destruct (is_ascii s) eqn:E; simpl.
  - by apply bool_decide_eq_true.
  - by apply uni_fold_refl.
Qed.

Lemma EqualFold_sym `{UnicodeLaws} s t : EqualFold s t = EqualFold t s.
Proof.
  unfold EqualFold. rewrite (andb_comm (is_ascii t)).
  destruct (is_ascii s && is_ascii t); [|apply uni_fold_sym].
  apply bool_decide_ext. naive_solver.
Qed.

Lemma ascii_tables_laws : @UnicodeLaws ascii_tables.
Proof.
  split; simpl.
  - intros. by apply bool_decide_eq_true.
  - intros. apply bool_decide_ext. naive_solver.
Qed.

(** *** Fixed-width integers *)

Lemma length_le_bytes n x : length (le_bytes n x) = n.
Proof. revert x. induction n; intros; simpl; auto. Qed.

Lemma le_bytes_is_byte n x : Forall is_byte (le_bytes n x).
Proof.
  revert x. induction n as [|n IH]; intros; simpl; constructor; [|done].
  unfold is_byte. apply Z.mod_pos_bound. lia.
Qed.

Lemma le_value_bytes n x : 0 ≤ x → le_value (le_bytes n x) = x mod 256 ^ Z.of_nat n.
Proof.
  revert x. induction n as [|n IH]; intros x Hx.
  { simpl. by rewrite Z.mod_1_r. }
  cbn [le_bytes le_value]. rewrite IH by (apply Z.div_pos; lia).
  rewrite Nat2Z.inj_succ, Z.pow_succ_r by lia.
  by rewrite Z.rem_mul_r by lia.
Qed.

Lemma le_bytes_value l :
  Forall is_byte l → le_bytes (length l) (le_value l) = l.
Proof.
  induction 1 as [|a l Ha Hl IH]; [done|]. unfold is_byte in Ha.
  cbn [length le_value le_bytes].
  replace ((a + 256 * le_value l) mod 256) with a.
  2:{ rewrite Z.mul_comm, Z.mod_add, Z.mod_small by lia. done. }
  replace ((a + 256 * le_value l) / 256) with (le_value l).
  2:{ rewrite Z.mul_comm, Z.div_add, Z.div_small by lia. lia. }
  by rewrite IH.
Qed.

Lemma le_value_bound l :
  Forall is_byte l → 0 ≤ le_value l < 256 ^ Z.of_nat (length l).
Proof.
  induction 1 as [|a l Ha Hl IH]; [simpl; lia|].
  unfold is_byte in Ha. cbn [length le_value].
  rewrite Nat2Z.inj_succ, Z.pow_succ_r by lia. lia.
Qed.

Lemma be_value_bytes n x : 0 ≤ x → be_value (be_bytes n x) = x mod 256 ^ Z.of_nat n.
Proof.
  intros. unfold be_value, be_bytes. by rewrite reverse_involutive, le_value_bytes.
Qed.

#[export] Hint Rewrite TrimSpace_idem of_bytes_bytes : go.
#[export] Hint Resolve bytes_is_byte is_byte_of_ascii le_bytes_is_byte : go.
