(* ===== verification/Bolt.v ===== *)
(** * The embedded store

    A bbolt bucket is a map from byte-string keys to JSON documents; [ForEach] and
    cursors visit it in byte order of the keys.  A stored document is either the
    record it encodes or [Garbled], bytes that do not decode; every place of the
    source that decodes a document has its error branch in the model.

    [Update] runs a transaction: an error leaves the database as it was at the start of
    the transaction, while state outside it (the [rest] of the world) keeps its
    changes. *)

From S2P Require Import Prelude.

Inductive stored (A : Type) : Type :=
| Json (a : A)
| Garbled.
Arguments Json {_} _.
Arguments Garbled {_}.

Abbreviation bucket A := (gmap string (stored A)).

(** [json.Unmarshal] *)
Definition unmarshal {A} (v : stored A) : option A :=
  match v with Json a => Some a | Garbled => None end.

Definition entry_le {A} (p q : string * A) : Prop := String.le p.1 q.1.
#[global] Instance entry_le_dec {A} : RelDecision (@entry_le A).
Proof. intros p q. unfold entry_le. apply _. Defined.

(** The entries in the order a cursor visits them. *)
Definition entries {A} (b : gmap string A) : list (string * A) :=
  merge_sort entry_le (map_to_list b).

(** [ForEach] with [json.Unmarshal] of every value: fails on the first garbled one. *)
Definition decode_entry {A} (p : string * stored A) : option (string * A) :=
  a ← unmarshal p.2; Some (p.1, a).
Fixpoint decode_all {A} (l : list (string * stored A)) : option (list (string * A)) :=
  match l with
  | [] => Some []
  | p :: l => q ← decode_entry p; qs ← decode_all l; Some (q :: qs)
  end.
Definition ForEach {A} (b : bucket A) : option (list (string * A)) :=
  decode_all (entries b).

(** [ForEach] that stops at the first record satisfying [f] (the [errApprovalMatch]
    sentinel); a garbled value before it is an error. *)
Fixpoint scan {A} (f : A → bool) (l : list (string * stored A)) :
    option (option (string * A)) :=
  match l with
  | [] => Some None
  | (k, v) :: l =>
      match unmarshal v with
      | None => None
      | Some a => if f a then Some (Some (k, a)) else scan f l
      end
  end.

(** Keys of the decodable records that satisfy [f], in key order. *)
Definition keys_where {A} (f : A → bool) (b : bucket A) : list string :=
  (base.filter (fun p => from_option f false (unmarshal p.2) = true) (entries b)).*1.

(** Delete a list of keys. *)
Definition delete_keys {A} (ks : list string) (b : gmap string A) : gmap string A :=
  foldr delete b ks.

(** Number of keys. *)
Definition count {A} (b : gmap string A) : Z := Z.of_nat (size b).

(** [Bucket.Stats().KeyN], a function of the number of keys at the start of the transaction
    and of the number now. *)
Class KeyN := keyN : Z → Z → Z.

(** bbolt counts the keys of the committed pages: puts and deletes of the running
    transaction are not seen. *)
Definition keyN_committed : KeyN := fun start _ => start.

(** ** Worlds and transactions *)

Record world (D R : Type) := World { w_db : D; w_rest : R }.
Arguments World {_ _} _ _.
Arguments w_db {_ _} _.
Arguments w_rest {_ _} _.

Section tx.
Context {D R E : Type}.

(** [db.Update(body)] *)
Definition Update {A} (body : ST (world D R) E A) : ST (world D R) E A := fun w =>
  match body w with
  | (Ok a, w') => (Ok a, w')
  | (Err e, w') => (Err e, World (w_db w) (w_rest w'))
  end.

(** [db.View(body)]: a read-only transaction. *)
Definition View {A} (body : D → result E A) : ST (world D R) E A := fun w =>
  (body (w_db w), w).

Definition getDB : ST (world D R) E D := fun w => (Ok (w_db w), w).
Definition modifyDB (f : D → D) : ST (world D R) E () := fun w =>
  (Ok (), World (f (w_db w)) (w_rest w)).
End tx.

(** ** Step relations

    [Steps R m]: every run of [m], successful or not, goes from [w] to a world [R]-related
    to [w].  For a preorder [R] it is closed under the monad's constructors; a transaction
    needs [R] to tolerate the rollback. *)

Class Steps {S E A} (R : relation S) (m : ST S E A) : Prop :=
  steps w r w' : m w = (r, w') → R w w'.
Class RollbackOk {D R} (P : relation (world D R)) : Prop :=
  rollback_ok w w1 : P w w1 → P w (World (w_db w) (w_rest w1)).

(** ** Lemmas *)

#[global] Instance entry_le_total {A} : Total (@entry_le A).
Proof. intros p q. unfold entry_le. apply (total String.le). Qed.
#[global] Instance entry_le_trans {A} : Transitive (@entry_le A).
Proof. intros p q r. unfold entry_le. apply (transitivity (R:=String.le)). Qed.

Section entries.
Context {A : Type}.
Implicit Types (b : gmap string A).

Lemma entries_perm b : entries b ≡ₚ map_to_list b.
Proof. apply merge_sort_Permutation. Qed.

Lemma elem_of_entries b k v : (k, v) ∈ entries b ↔ b !! k = Some v.
Proof. rewrite entries_perm. apply elem_of_map_to_list. Qed.

Lemma entries_sorted b : StronglySorted entry_le (entries b).
Proof. apply StronglySorted_merge_sort; apply _. Qed.

Lemma length_entries b : Z.of_nat (length (entries b)) = count b.
Proof. unfold count. by rewrite entries_perm, length_map_to_list. Qed.

Lemma NoDup_entries_fst b : NoDup (entries b).*1.
Proof. rewrite entries_perm. apply NoDup_fst_map_to_list. Qed.

(** The entries are the only sorted list of the bucket's pairs. *)
Lemma entries_unique b l :
  StronglySorted entry_le l → NoDup l.*1 → (∀ k v, (k, v) ∈ l ↔ b !! k = Some v) →
  entries b = l.
Proof.
  intros Hs Hn Hl. apply (StronglySorted_unique_strong entry_le); [|apply entries_sorted|done|].
  - intros [k1 v1] [k2 v2] H1%elem_of_entries H2%Hl Hle1 Hle2.
    assert (k1 = k2) as -> by (by apply (anti_symm String.le)). congruence.
  - apply NoDup_Permutation; [by eapply NoDup_fmap_1, NoDup_entries_fst
      |by eapply NoDup_fmap_1|].
    intros [k v]. by rewrite elem_of_entries, Hl.
Qed.

(** Deleting the first key leaves the other entries. *)
Lemma entries_delete_first b k v l : entries b = (k, v) :: l → entries (delete k b) = l.
Proof.
  intros He. pose proof (entries_sorted b) as Hs. pose proof (NoDup_entries_fst b) as Hn.
  rewrite He in Hs, Hn. apply StronglySorted_cons in Hs as [_ Hs].
  apply NoDup_cons in Hn as [Hk Hn]. apply entries_unique; [done..|].
  intros k' v'. rewrite lookup_delete_Some, <- elem_of_entries, He, elem_of_cons. split.
  - intros Hin. split; [|by right]. intros ->. apply Hk.
    apply list_elem_of_fmap. by exists (k', v').
  - intros [Hne [[= -> ->]|Hin]]; done.
Qed.

Lemma entries_nil b : entries b = [] → b = ∅.
Proof.
  intros He. apply map_empty. intros k. destruct (b !! k) as [v|] eqn:Hk; [|done].
  apply elem_of_entries in Hk. rewrite He in Hk. by apply elem_of_nil in Hk.
Qed.

Lemma entries_empty : entries (∅ : gmap string A) = [].
Proof. unfold entries. by rewrite map_to_list_empty. Qed.
End entries.

Section foreach.
Context {A : Type}.
Implicit Types (b : bucket A).

Lemma decode_entry_Some (p : string * stored A) k a :
  decode_entry p = Some (k, a) ↔ p = (k, Json a).
Proof.
  destruct p as [k' [a'|]]; cbn; naive_solver.
Qed.

Lemma decode_all_json (es : list (string * A)) :
  decode_all ((λ p, (p.1, Json p.2)) <$> es) = Some es.
Proof. induction es as [|[k a] es IH]; cbn; [done|]. by rewrite IH. Qed.

Lemma decode_all_Some l (es : list (string * A)) :
  decode_all l = Some es ↔ l = (λ p, (p.1, Json p.2)) <$> es.
Proof.
  split; [|intros ->; apply decode_all_json].
  revert es. induction l as [|p l IH]; intros es; cbn; [by intros [= <-]|].
  destruct (decode_entry p) as [[k a]|] eqn:E; cbn; [|done].
  apply decode_entry_Some in E as ->.
  destruct (decode_all l) as [es'|]; cbn; [|done].
  intros [= <-]. cbn. f_equal. by apply IH.
Qed.

Lemma ForEach_Some b es :
  ForEach b = Some es → ∀ k a, (k, a) ∈ es ↔ b !! k = Some (Json a).
Proof.
  unfold ForEach. rewrite decode_all_Some. intros E k a.
  rewrite <- elem_of_entries, E, list_elem_of_fmap. split.
  - intros. by exists (k, a).
  - intros ([k' a'] & [= -> ->] & ?). done.
Qed.

Lemma ForEach_None b :
  ForEach b = None ↔ ∃ k, b !! k = Some Garbled.
Proof.
  unfold ForEach. setoid_rewrite <- elem_of_entries.
  induction (entries b) as [|[k v] l IH]; simpl.
  { split; [done|]. intros [k Hk]. by apply elem_of_nil in Hk. }
  destruct v as [a|]; cbn.
  - destruct (decode_all l) as [es|] eqn:E; cbn.
    + split; [done|]. intros [k' [?|Hk]%elem_of_cons]; [by simplify_eq|].
      destruct IH as [_ IH]. discriminate IH. eauto.
    + destruct IH as [IH _]. destruct (IH eq_refl) as [k' Hk].
      split; [|done]. exists k'. by right.
  - split; [|done]. exists k. by left.
Qed.

Lemma ForEach_count b es : ForEach b = Some es → Z.of_nat (length es) = count b.
Proof.
  unfold ForEach. rewrite decode_all_Some, <- length_entries. intros ->.
  by rewrite length_fmap.
Qed.

Lemma ForEach_NoDup b es : ForEach b = Some es → NoDup es.*1.
Proof.
  unfold ForEach. rewrite decode_all_Some. intros E.
  pose proof (NoDup_entries_fst b) as H. rewrite E, <- list_fmap_compose in H. done.
Qed.

Lemma scan_Some_Some f (l : list (string * stored A)) k a :
  scan f l = Some (Some (k, a)) → (k, Json a) ∈ l ∧ f a = true.
Proof.
  induction l as [|[k' [a'|]] l IH]; simpl; try done.
  destruct (f a') eqn:Ef.
  - intros [= <- <-]. split; [by left|done].
  - intros H. destruct (IH H). split; [by right|done].
Qed.

Lemma scan_Some_None f (l : list (string * stored A)) :
  scan f l = Some None → ∀ k v, (k, v) ∈ l → ∃ a, v = Json a ∧ f a = false.
Proof.
  induction l as [|[k' [a'|]] l IH]; simpl; try done.
  { intros _ k v Hv. by apply elem_of_nil in Hv. }
  destruct (f a') eqn:Ef; [done|].
  intros H k v [[= -> ->]|Hin]%elem_of_cons; eauto.
Qed.

(** A stronger test that the first match still passes finds the same match. *)
Lemma scan_stronger (f g : A → bool) (l : list (string * stored A)) k a :
  scan f l = Some (Some (k, a)) → g a = true → (∀ x, g x = true → f x = true) →
  scan g l = Some (Some (k, a)).
Proof.
  intros Hs Hg Hfg. induction l as [|[k' [a'|]] l IH]; simpl in *; try done.
  destruct (f a') eqn:Ef.
  - injection Hs as -> ->. by rewrite Hg.
  - destruct (g a') eqn:Eg; [|by apply IH]. by rewrite (Hfg _ Eg) in Ef.
Qed.

(** In a bucket without garbled values the scan finds a match when there is one. *)
Lemma scan_total f b :
  (∀ k, b !! k ≠ Some Garbled) → ∃ r, scan f (entries b) = Some r.
Proof.
  intros Hg. assert (∀ k v, (k, v) ∈ entries b → v ≠ Garbled) as Hl.
  { intros k v Hv ->. rewrite elem_of_entries in Hv. by apply (Hg k). }
  induction (entries b) as [|[k [a|]] l IH]; simpl.
  - eauto.
  - destruct (f a); [eauto|]. apply IH. intros k' v' Hv. apply (Hl k'). by right.
  - exfalso. eapply Hl; [by left|done].
Qed.
End foreach.

Section scan.
Context {A : Type}.
Implicit Types (b : bucket A).

Lemma scan_match f b k a :
  (∀ k, b !! k ≠ Some Garbled) → b !! k = Some (Json a) → f a = true →
  ∃ k' a', scan f (entries b) = Some (Some (k', a')) ∧ b !! k' = Some (Json a') ∧ f a' = true.
Proof.
  intros Hg Hk Hf. destruct (scan_total f b Hg) as [[[k' a']|] Hr].
  - pose proof (scan_Some_Some _ _ _ _ Hr) as [Hin ?]. apply elem_of_entries in Hin. eauto 6.
  - apply elem_of_entries in Hk.
    destruct (scan_Some_None _ _ Hr _ _ Hk) as (a0 & ? & ?). congruence.
Qed.

Lemma scan_none_readable f b : scan f (entries b) = Some None → ∀ k, b !! k ≠ Some Garbled.
Proof.
  intros Hs k Hk%elem_of_entries. by destruct (scan_Some_None _ _ Hs _ _ Hk) as (a & ? & _).
Qed.

(** Nothing matched before; then only the inserted record does. *)
Lemma scan_inserted f b k a :
  scan f (entries b) = Some None → f a = true →
  scan f (entries (<[k := Json a]> b)) = Some (Some (k, a)).
Proof.
  intros Hs Hf. destruct (scan_match f (<[k := Json a]> b) k a) as (k' & a' & Hr & Hk' & Hf').
  - intros k'. rewrite lookup_insert. case_decide; [done|]. by apply (scan_none_readable f).
  - apply lookup_insert_eq.
  - done.
  - rewrite Hr. apply lookup_insert_Some in Hk' as [[-> [= ->]]|[_ Hk']]; [done|].
    apply elem_of_entries in Hk'. destruct (scan_Some_None _ _ Hs _ _ Hk') as (a0 & ? & ?).
    simplify_eq. congruence.
Qed.
End scan.

Section delete_keys.
Context {A : Type}.

Lemma elem_of_keys_where f (b : bucket A) k :
  k ∈ keys_where f b ↔ ∃ a, b !! k = Some (Json a) ∧ f a = true.
Proof.
  unfold keys_where. rewrite list_elem_of_fmap. setoid_rewrite list_elem_of_filter.
  split.
  - intros ([k' [a|]] & -> & Ha & Hin); simpl in *; [|done].
    apply elem_of_entries in Hin. eauto.
  - intros (a & Ha & Hf). exists (k, Json a). split; [done|]. split; [done|].
    by apply elem_of_entries.
Qed.

Lemma lookup_delete_keys ks (b : gmap string A) k :
  delete_keys ks b !! k = if decide (k ∈ ks) then None else b !! k.
Proof.
  unfold delete_keys. induction ks as [|k' ks IH]; simpl; [done|].
  destruct (decide (k = k')) as [->|Hne].
  - rewrite lookup_delete_eq, decide_True; [done|by left].
  - rewrite lookup_delete_ne, IH by done.
    apply decide_ext. rewrite elem_of_cons. naive_solver.
Qed.

Lemma lookup_delete_keys_Some ks (b : gmap string A) k v :
  delete_keys ks b !! k = Some v ↔ b !! k = Some v ∧ k ∉ ks.
Proof. rewrite lookup_delete_keys. case_decide; naive_solver. Qed.

Lemma delete_keys_subseteq ks (b : gmap string A) : delete_keys ks b ⊆ b.
Proof.
  apply map_subseteq_spec. intros k v. rewrite lookup_delete_keys_Some. tauto.
Qed.

Lemma count_subseteq (b b' : gmap string A) : b ⊆ b' → count b ≤ count b'.
Proof. intros H. unfold count. apply inj_le, map_subseteq_size, H. Qed.

Lemma count_insert_le k v (b : gmap string A) : count (<[k := v]> b) ≤ count b + 1.
Proof.
  unfold count. rewrite map_size_insert. destruct (b !! k); simpl; lia.
Qed.

Lemma count_insert_Some k v (b : gmap string A) :
  is_Some (b !! k) → count (<[k := v]> b) = count b.
Proof. intros. unfold count. by rewrite map_size_insert_Some. Qed.

Lemma count_delete_Some k (b : gmap string A) :
  is_Some (b !! k) → count (delete k b) = count b - 1.
Proof.
  intros Hb. unfold count. rewrite (map_size_delete_Some k b Hb).
  assert (size b ≠ 0%nat) as Hne; [|lia].
  intros Hz%map_size_empty_iff. subst. destruct Hb as [v Hv].
  by rewrite lookup_empty in Hv.
Qed.

Lemma count_nonneg (b : gmap string A) : 0 ≤ count b.
Proof. unfold count. lia. Qed.
End delete_keys.

Lemma ForEach_delete_keys {A} ks (b : bucket A) :
  ForEach b ≠ None → ForEach (delete_keys ks b) ≠ None.
Proof.
  rewrite !ForEach_None. intros Hn [k [Hk _]%lookup_delete_keys_Some]. eauto.
Qed.

Section tx_lemmas.
Context {D R E : Type}.

Lemma Update_ok_inv {A} (body : ST (world D R) E A) w a w' :
  Update body w = (Ok a, w') → body w = (Ok a, w').
Proof. unfold Update. by destruct (body w) as [[]]. Qed.

Lemma Update_err_db {A} (body : ST (world D R) E A) w e w' :
  Update body w = (Err e, w') → w_db w' = w_db w.
Proof.
  unfold Update. destruct (body w) as [[] ]; [discriminate|]. intros; by simplify_eq.
Qed.

Lemma Update_err_inv {A} (body : ST (world D R) E A) w e w' :
  Update body w = (Err e, w') → ∃ w1, body w = (Err e, w1) ∧ w_rest w' = w_rest w1.
Proof.
  unfold Update. destruct (body w) as [[] w1] eqn:Eb; [discriminate|].
  intros; simplify_eq; simpl. eauto.
Qed.

Lemma View_inv {A} (body : D → result E A) (w : world D R) r w' :
  View body w = (r, w') → body (w_db w) = r ∧ w' = w.
Proof. unfold View. intros; by simplify_eq. Qed.
End tx_lemmas.

Section steps.
Context {S E : Type} (R : relation S) `{!PreOrder R}.

Lemma steps_pure {A} (m : ST S E A) :
  (∀ w, ∃ r, m w = (r, w)) → Steps R m.
Proof.
  intros Hm w r w' Hw. destruct (Hm w) as [r' Hr].
  rewrite Hr in Hw. simplify_eq. reflexivity.
Qed.

Lemma steps_mret {A} (a : A) : Steps R (mret a : ST S E A).
Proof. apply steps_pure. eexists. reflexivity. Qed.
Lemma steps_fail {A} (e : E) : Steps R (fail e : ST S E A).
Proof. apply steps_pure. eexists. reflexivity. Qed.
Lemma steps_check b (e : E) : Steps R (check b e : ST S E ()).
Proof. apply steps_pure. destruct b; eexists; reflexivity. Qed.
Lemma steps_lift {A} (r : result E A) : Steps R (lift r : ST S E A).
Proof. apply steps_pure. destruct r; eexists; reflexivity. Qed.

Lemma steps_mask {A} e (m : ST S E A) : Steps R m → Steps R (mask e m).
Proof.
  intros Hm w r w'. unfold mask. destruct (m w) as [[] w1] eqn:Em;
    intros; simplify_eq; by eapply Hm.
Qed.

Lemma steps_bind {A B} (m : ST S E A) (k : A → ST S E B) :
  Steps R m → (∀ a, Steps R (k a)) → Steps R (m ≫= k).
Proof.
  intros Hm Hk w r w'. unfold mbind, ST_bind.
  destruct (m w) as [[a|e] w1] eqn:Em; intros Hw.
  - transitivity w1; [by eapply Hm|by eapply Hk].
  - simplify_eq. by eapply Hm.
Qed.
End steps.

Section steps_tx.
Context {D T E : Type} (R : relation (world D T)) `{!PreOrder R}.

Lemma steps_getDB : Steps R (getDB : ST (world D T) E D).
Proof. intros w r w'. unfold getDB. intros; simplify_eq. reflexivity. Qed.
Lemma steps_View {A} (body : D → result E A) : Steps R (View body).
Proof. intros w r w'. unfold View. intros; simplify_eq. reflexivity. Qed.
Lemma steps_modifyDB (f : D → D) :
  (∀ w, R w (World (f (w_db w)) (w_rest w))) →
  Steps R (modifyDB f : ST (world D T) E ()).
Proof. intros Hf w r w'. unfold modifyDB. intros; simplify_eq. apply Hf. Qed.
Lemma steps_Update `{!RollbackOk R} {A} (body : ST (world D T) E A) :
  Steps R body → Steps R (Update body).
Proof.
  intros Hb w r w'. unfold Update.
  destruct (body w) as [[a|e] w1] eqn:Eb; intros; simplify_eq.
  - by eapply Hb.
  - apply rollback_ok. by eapply Hb.
Qed.
End steps_tx.

(** Walk through monadic code; what is left are the writes ([steps_modifyDB]). *)
Ltac steps_step :=
  lazymatch goal with
  | |- Steps _ (_ ≫= _) => apply steps_bind; [apply _| |intros ?]
  | |- Steps _ (mret _) => apply steps_mret; apply _
  | |- Steps _ (fail _) => apply steps_fail; apply _
  | |- Steps _ (check _ _) => apply steps_check; apply _
  | |- Steps _ (lift _) => apply steps_lift; apply _
  | |- Steps _ (mask _ _) => apply steps_mask
  | |- Steps _ getDB => apply steps_getDB; apply _
  | |- Steps _ (View _) => apply steps_View; apply _
  | |- Steps _ (modifyDB _) => apply steps_modifyDB; intros ?
  | |- Steps _ (Update _) => apply steps_Update; [apply _|]
  | |- Steps _ (match ?x with _ => _ end) => destruct x
  | |- Steps _ (let '(_, _) := ?x in _) => destruct x
  end.
Ltac steps_walk := repeat first [done | steps_step | progress (cbv zeta)].

(** The relation "the part of the world outside the database is unchanged". *)
Definition rest_eq {D T} : relation (world D T) := fun w w' => w_rest w' = w_rest w.
#[global] Instance rest_eq_preorder {D T} : PreOrder (@rest_eq D T).
Proof. split; unfold rest_eq; [done|]. intros ????. congruence. Qed.
#[global] Instance rest_eq_rollback {D T} : RollbackOk (@rest_eq D T).
Proof. intros w w1 Hw. exact Hw. Qed.

(** The relation "the database is unchanged". *)
Definition db_eq {D T} : relation (world D T) := fun w w' => w_db w' = w_db w.
#[global] Instance db_eq_preorder {D T} : PreOrder (@db_eq D T).
Proof. split; unfold db_eq; [done|]. intros ????. congruence. Qed.
#[global] Instance db_eq_rollback {D T} : RollbackOk (@db_eq D T).
Proof. intros w w1 _. reflexivity. Qed.

(** Failing runs leave the database alone. *)
Definition err_db {D T E A} (m : ST (world D T) E A) : Prop :=
  ∀ w e w', m w = (Err e, w') → w_db w' = w_db w.

Section err_db.
Context {D T E : Type}.

Lemma err_db_steps {A} (m : ST (world D T) E A) : Steps db_eq m → err_db m.
Proof. intros Hm w e w' Hw. exact (Hm _ _ _ Hw). Qed.
Lemma err_db_update {A} (m : ST (world D T) E A) : err_db (Update m).
Proof. intros w e w'. apply Update_err_db. Qed.
Lemma err_db_mask {A} e (m : ST (world D T) E A) : err_db m → err_db (mask e m).
Proof. intros Hm w e' w' (_ & e0 & Hw)%mask_err_inv. exact (Hm _ _ _ Hw). Qed.
Lemma err_db_bind {A B} (m : ST (world D T) E A) (k : A → ST (world D T) E B) :
  Steps db_eq m → (∀ a, err_db (k a)) → err_db (m ≫= k).
Proof.
  intros Hm Hk w e w' [Hw|(a & w1 & Hw & Hk')]%bind_err_inv.
  - exact (Hm _ _ _ Hw).
  - rewrite (Hk _ _ _ _ Hk'). exact (Hm _ _ _ Hw).
Qed.
Lemma err_db_ret {A B} (m : ST (world D T) E A) (f : A → B) :
  err_db m → err_db (m ≫= λ a, mret (f a)).
Proof.
  intros Hm w e w' [Hw|(a & w1 & _ & Hk)]%bind_err_inv; [exact (Hm _ _ _ Hw)|done].
Qed.
End err_db.

(** Walk through an operation up to its transaction. *)
Ltac err_db_walk :=
  cbv zeta;
  repeat lazymatch goal with
  | |- err_db (Update _) => apply err_db_update
  | |- err_db (mask _ _) => apply err_db_mask
  | |- err_db (match ?x with _ => _ end) => destruct x
  | |- err_db (_ ≫= (λ _, mret _)) => apply err_db_ret
  | |- err_db (_ ≫= _) => apply err_db_bind; [solve [steps_walk]|intros ?]
  | |- err_db _ => solve [apply err_db_steps; steps_walk]
  end.

(** "An invariant of the database is kept." *)
Definition keeps {D T} (I : D → Prop) : relation (world D T) := fun w w' =>
  I (w_db w) → I (w_db w').
#[global] Instance keeps_preorder {D T} (I : D → Prop) : PreOrder (@keeps D T I).
Proof. split; unfold keeps; auto. Qed.
#[global] Instance keeps_rollback {D T} (I : D → Prop) : RollbackOk (@keeps D T I).
Proof. intros w w1 _ Hw. exact Hw. Qed.

Ltac tx_inv_step :=
  match goal with
  | H : Update _ _ = (Ok _, _) |- _ => apply Update_ok_inv in H
  | H : View _ _ = (_, _) |- _ => apply View_inv in H as [? ?]; subst
  | H : getDB _ = (_, _) |- _ => unfold getDB in H
  | H : modifyDB _ _ = (_, _) |- _ => unfold modifyDB in H
  end.
Ltac tx_inv := repeat first [tx_inv_step | st_inv_step]; simplify_eq.

(** Unfold the monad of a run, leaving the reads and writes of the world. *)
Ltac st_unfold :=
  cbv beta iota delta
    [mbind ST_bind mret ST_ret fail getS modifyS getDB modifyDB w_db w_rest] in *.
