(* ===== verification/NetIP.v ===== *)
(** * Packages net and net/url

    [net.ParseIP], [net.ParseCIDR], [IPNet.Contains], [IP.Equal] and [IP.IsLoopback] of
    Go's standard library, on the bytes of the text.  An [IP] value is its sixteen-byte
    form, the form [ParseIP] returns; IPv4 addresses are IPv4-mapped.

    The parsers of net/url are an interface, [NetURL]: they give the parts of a URL that
    the modelled code inspects, [None] for a parse error. *)

From S2P Require Import Prelude.
From S2P Require Import GoStrings.

Abbreviation IP := (list Z).

Definition v4InV6Prefix : list Z := [0;0;0;0;0;0;0;0;0;0;255;255].

(** ** Parsing *)

(** [parseIPv4Fields]: [val] and [digLen] are the octet being read, [fields] the octets
    read before it, the latest first; [first] is set at the first byte and after a dot. *)
Fixpoint ipv4_fields (l : list Z) (val digLen : Z) (fields : list Z) (first : bool) :
    option (list Z) :=
  match l with
  | [] =>
      if Z.of_nat (length fields) <? 3 then None
      else Some (reverse (val :: fields))
  | c :: l' =>
      if is_digit c then
        if (digLen =? 1) && (val =? 0) then None else
        let val := val * 10 + (c - 48) in
        if 255 <? val then None else ipv4_fields l' val (digLen + 1) fields false
      else if c =? 46 then
        if first || bool_decide (l' = []) then None else
        if Z.of_nat (length fields) =? 3 then None else
        ipv4_fields l' 0 0 (val :: fields) true
      else None
  end.
Definition parseIPv4Fields (l : list Z) : option (list Z) := ipv4_fields l 0 0 [] true.

Definition hex_digit (c : Z) : option Z :=
  if in_range 48 57 c then Some (c - 48)
  else if in_range 97 102 c then Some (c - 87)
  else if in_range 65 70 c then Some (c - 55)
  else None.

(** The leading hex digits: their value, their number and the rest; [None] when there are
    more than four. *)
Fixpoint hex_group (l : list Z) (acc off : Z) : option (Z * Z * list Z) :=
  match l with
  | [] => Some (acc, off, [])
  | c :: l' =>
      match hex_digit c with
      | Some d => if 3 <? off then None else hex_group l' (acc * 16 + d) (off + 1)
      | None => Some (acc, off, l)
      end
  end.

(** The group loop: [ip] holds the bytes read so far (latest first), [ell] the position of
    the ellipsis.  Eight rounds read sixteen bytes, so eight rounds are enough.  The result
    is the bytes, the ellipsis and the text left over. *)
Fixpoint ipv6_groups (fuel : nat) (s : list Z) (ip : list Z) (ell : option nat) :
    option (list Z * option nat * list Z) :=
  match fuel with
  | O => Some (ip, ell, s)
  | S fuel =>
      match hex_group s 0 0 with
      | None => None
      | Some (acc, off, rest) =>
          if off =? 0 then None else
          match rest with
          | [] => Some (acc mod 256 :: acc / 256 :: ip, ell, [])
          | c :: rest' =>
              if c =? 46 then
                if bool_decide (ell = None) && negb (Z.of_nat (length ip) =? 12) then None else
                if 16 <? Z.of_nat (length ip) + 4 then None else
                v4 ← parseIPv4Fields s;
                Some (reverse v4 ++ ip, ell, [])
              else
                let ip := acc mod 256 :: acc / 256 :: ip in
                if negb (c =? 58) then None else
                match rest' with
                | [] => None
                | c2 :: rest2 =>
                    if c2 =? 58 then
                      match ell with
                      | Some _ => None
                      | None =>
                          match rest2 with
                          | [] => Some (ip, Some (length ip), [])
                          | _ => ipv6_groups fuel rest2 ip (Some (length ip))
                          end
                      end
                    else ipv6_groups fuel rest' ip ell
                end
          end
      end
  end.

(** Expand the ellipsis to the missing zero bytes. *)
Definition expand_ellipsis (ip : list Z) (ell : option nat) : option (list Z) :=
  let n := (16 - length ip)%nat in
  if (length ip <? 16)%nat then
    e ← ell; Some (take e ip ++ replicate n 0 ++ drop e ip)
  else match ell with Some _ => None | None => Some ip end.

(** [parseIPv6]; an address with a zone is not an [IP]. *)
Definition parseIPv6 (l : list Z) : option (list Z) :=
  if bool_decide (37 ∈ l) then None else
  let finish r :=
    '(ip, ell, rest) ← r;
    match rest with [] => expand_ellipsis (reverse ip) ell | _ => None end in
  match l with
  | a :: b :: s =>
      if (a =? 58) && (b =? 58) then
        match s with
        | [] => Some (replicate 16%nat 0)
        | _ => finish (ipv6_groups 8 s [] (Some O))
        end
      else finish (ipv6_groups 8 l [] None)
  | _ => finish (ipv6_groups 8 l [] None)
  end.

(** The family is decided by the first dot, colon or percent sign: [true] is IPv4. *)
Fixpoint ip_family (l : list Z) : option bool :=
  match l with
  | [] => None
  | c :: l' =>
      if c =? 46 then Some true
      else if c =? 58 then Some false
      else if c =? 37 then None
      else ip_family l'
  end.

(** The sixteen bytes, and the length in bits of the textual family. *)
Definition parse_addr (l : list Z) : option (IP * Z) :=
  v4 ← ip_family l;
  if v4 : bool then b ← parseIPv4Fields l; Some (v4InV6Prefix ++ b, 32)
  else b ← parseIPv6 l; Some (b, 128).

Definition ParseIP (s : string) : option IP := fst <$> parse_addr (bytes s).

(** ** IP methods *)

Definition To4 (ip : IP) : option (list Z) :=
  if bool_decide (take 12 ip = v4InV6Prefix) then Some (drop 12 ip) else None.

Definition IsLoopback (ip : IP) : bool :=
  match To4 ip with
  | Some (a :: _) => a =? 127
  | Some [] => false
  | None => bool_decide (ip = replicate 15%nat 0 ++ [1])
  end.

(** [IP.Equal] on two sixteen-byte forms. *)
Definition ip_equal (a b : IP) : bool := bool_decide (a = b).

(** ** Networks *)

(** [CIDRMask(n, bits)]: [n] ones, byte by byte. *)
Fixpoint cidr_mask (len : nat) (n : Z) : list Z :=
  match len with
  | O => []
  | S len => (if 8 <=? n then 255 else 255 - (Z.shiftr 255 (Z.max n 0))) :: cidr_mask len (n - 8)
  end.

Definition mask_bytes (ip m : list Z) : list Z := zip_with Z.land ip m.

(** The network address and the mask: four bytes or sixteen. *)
Record IPNet := { net_IP : list Z; net_Mask : list Z }.

(** [dtoi] on the whole text: decimal digits only, below 0xFFFFFF. *)
Fixpoint dtoi_aux (acc : Z) (l : list Z) : option Z :=
  match l with
  | [] => Some acc
  | c :: l' =>
      if is_digit c then
        let n := acc * 10 + (c - 48) in
        if 16777215 <=? n then None else dtoi_aux n l'
      else None
  end.
Definition dtoi (l : list Z) : option Z :=
  match l with [] => None | _ => dtoi_aux 0 l end.

Definition ParseCIDR (s : string) : option IPNet :=
  let l := bytes s in
  i ← index_by (fun c => c =? 47) l;
  '(ip, bits) ← parse_addr (take i l);
  n ← dtoi (drop (S i) l);
  if bits <? n then None else
  let m := cidr_mask (Z.to_nat (bits / 8)) n in
  let base := if bits =? 32 then drop 12 ip else ip in
  Some {| net_IP := mask_bytes base m; net_Mask := m |}.

(** [networkNumberAndMask] *)
Definition networkNumberAndMask (n : IPNet) : list Z * list Z :=
  if bool_decide (length (net_IP n) = 4%nat) then (net_IP n, net_Mask n)
  else match To4 (net_IP n) with
       | Some ip4 => (ip4, drop 12 (net_Mask n))
       | None => (net_IP n, net_Mask n)
       end.

Definition Contains (n : IPNet) (ip : IP) : bool :=
  let '(nn, m) := networkNumberAndMask n in
  let ip := default ip (To4 ip) in
  bool_decide (length ip = length nn)
  && bool_decide (mask_bytes nn m = mask_bytes ip m).

(** ** Printing *)

Definition hex_rune (d : Z) : Z := if d <? 10 then 48 + d else 87 + d.

(** [appendHex]: no leading zeros. *)
Definition hex_text (v : Z) : list Z :=
  (if 4096 <=? v then [hex_rune (v / 4096)] else [])
  ++ (if 256 <=? v then [hex_rune (v / 256 mod 16)] else [])
  ++ (if 16 <=? v then [hex_rune (v / 16 mod 16)] else [])
  ++ [hex_rune (v mod 16)].

(** The eight groups of an address. *)
Fixpoint ip_groups (l : list Z) : list Z :=
  match l with
  | a :: b :: l => a * 256 + b :: ip_groups l
  | _ => []
  end.

Fixpoint zero_prefix (l : list Z) : nat :=
  match l with
  | v :: l => if v =? 0 then S (zero_prefix l) else O
  | [] => O
  end.

(** The longest run of at least two zero groups, the first of that length: its start and
    its end; [i] is the position of the head of [l]. *)
Fixpoint zero_run (i : nat) (l : list Z) (best : option (nat * nat)) : option (nat * nat) :=
  match l with
  | [] => best
  | _ :: l' =>
      let n := zero_prefix l in
      let longer := match best with Some (s, e) => (e - s <? n)%nat | None => true end in
      zero_run (S i) l' (if (2 <=? n)%nat && longer then Some (i, (i + n)%nat) else best)
  end.

Fixpoint join_bytes (l : list (list Z)) (sep : Z) : list Z :=
  match l with
  | [] => []
  | [x] => x
  | x :: l' => x ++ sep :: join_bytes l' sep
  end.

Definition ipv6_text (ip : list Z) : list Z :=
  let groups := ip_groups ip in
  match zero_run 0 groups None with
  | Some (s, e) =>
      join_bytes (hex_text <$> take s groups) 58 ++ [58; 58]
      ++ join_bytes (hex_text <$> drop e groups) 58
  | None => join_bytes (hex_text <$> groups) 58
  end.

(** [IP.String] of an address of four or sixteen bytes. *)
Definition ip_String (ip : list Z) : string :=
  let dotted b := Join (Itoa <$> b) "." in
  if bool_decide (length ip = 4%nat) then dotted ip
  else match To4 ip with
       | Some b => dotted b
       | None => of_bytes (ipv6_text ip)
       end.

(** [net.ParseIP(host).IsLoopback()]: false for a host that is not an address. *)
Definition host_is_loopback (host : string) : bool :=
  match ParseIP host with Some ip => IsLoopback ip | None => false end.

(** ** package net/url *)

Record URL := {
  u_Scheme : string;
  u_Host : string;
  u_Hostname : string;
  u_Port : string;
  u_User : bool;
  u_Path : string;
  u_EscapedPath : string;
  u_RawQuery : string;
  u_Fragment : string;
  u_String : string
}.
Class NetURL := {
  url_Parse : string → option URL;
  url_ParseRequestURI : string → option URL
}.

(** ** Examples: the parser on concrete texts *)

Example parse_v4 : ParseIP "192.168.1.10" = Some (v4InV6Prefix ++ [192;168;1;10]).
Proof. vm_compute. reflexivity. Qed.
Example parse_v4_leading_zero : ParseIP "192.168.01.10" = None.
Proof. vm_compute. reflexivity. Qed.
Example parse_v6 : ParseIP "fe80::1:2" =
  Some [254;128;0;0;0;0;0;0;0;0;0;0;0;1;0;2].
Proof. vm_compute. reflexivity. Qed.
Example parse_v6_embedded : ParseIP "::ffff:10.0.0.1" = Some (v4InV6Prefix ++ [10;0;0;1]).
Proof. vm_compute. reflexivity. Qed.
Example parse_v6_zone : ParseIP "fe80::1%eth0" = None.
Proof. vm_compute. reflexivity. Qed.
Example parse_v6_full : ParseIP "1:2:3:4:5:6:7:8" =
  Some [0;1;0;2;0;3;0;4;0;5;0;6;0;7;0;8].
Proof. vm_compute. reflexivity. Qed.
Example parse_v6_long : ParseIP "1:2:3:4:5:6:7:8:9" = None.
Proof. vm_compute. reflexivity. Qed.
Example cidr_v4 : match ParseCIDR "192.168.1.77/20", ParseIP "192.168.15.1" with
                  | Some n, Some ip => Contains n ip | _, _ => false end = true.
Proof. vm_compute. reflexivity. Qed.
Example cidr_v4_out : match ParseCIDR "192.168.1.77/20", ParseIP "192.168.16.1" with
                      | Some n, Some ip => Contains n ip | _, _ => true end = false.
Proof. vm_compute. reflexivity. Qed.

Example print_v4 : ip_String [192;168;0;255] = "192.168.0.255".
Proof. vm_compute. reflexivity. Qed.
Example print_v6 : ip_String [254;128;0;0;0;0;0;0;0;0;0;0;0;1;0;2] = "fe80::1:2".
Proof. vm_compute. reflexivity. Qed.
Example print_v6_edges : ip_String (replicate 16%nat 0) = "::"
  ∧ ip_String [32;1;13;184;0;0;0;0;0;1;0;0;0;0;0;0] = "2001:db8:0:0:1::".
Proof. vm_compute. by split. Qed.

(** ** Lemmas *)

(** Every octet of a parsed IPv4 text is a byte, and there are four. *)
Lemma ipv4_fields_shape l val digLen fields first b :
  ipv4_fields l val digLen fields first = Some b →
  0 ≤ val < 256 → Forall is_byte fields → (length fields ≤ 3)%nat →
  length b = 4%nat ∧ Forall is_byte b.
Proof.
  revert val digLen fields first.
  induction l as [|c l IH]; intros val digLen fields first; cbn [ipv4_fields].
  - destruct (Z.ltb_spec (Z.of_nat (length fields)) 3) as [?|Hl]; [done|].
    intros [= <-] Hv Hf Hle. rewrite length_reverse. simpl. split; [lia|].
    rewrite reverse_Permutation. constructor; [exact Hv|done].
  - destruct (is_digit c) eqn:Ed.
    + destruct ((digLen =? 1) && (val =? 0)); [done|].
      unfold is_digit, in_range in Ed. split_bools.
      destruct (Z.ltb_spec 255 (val * 10 + (c - 48))); [done|].
      intros H' Hv Hf Hle. eapply IH; [exact H'| |done|done]. lia.
    + destruct (c =? 46); [|done].
      destruct (first || bool_decide (l = [])); [done|].
      destruct (Z.eqb_spec (Z.of_nat (length fields)) 3); [done|].
      intros H' Hv Hf Hle. eapply IH; [exact H'|lia| |simpl; lia].
      constructor; [exact Hv|done].
Qed.

Lemma parseIPv4Fields_shape l b :
  parseIPv4Fields l = Some b → length b = 4%nat ∧ Forall is_byte b.
Proof. intros H. eapply ipv4_fields_shape; [exact H|lia|constructor|simpl; lia]. Qed.

Lemma expand_ellipsis_length ip ell b :
  (length ip ≤ 16)%nat → (default 0%nat ell ≤ length ip)%nat →
  expand_ellipsis ip ell = Some b → length b = 16%nat.
Proof.
  unfold expand_ellipsis. intros Hl He.
  destruct (Nat.ltb_spec (length ip) 16) as [Hlt|Hge].
  - destruct ell as [e|]; simpl in *; [|done]. intros [= <-].
    rewrite !length_app, length_replicate, length_take, length_drop. lia.
  - destruct ell; [done|]. intros [= <-]. lia.
Qed.

Lemma hex_digit_bound c d : hex_digit c = Some d → 0 ≤ d < 16.
Proof.
  unfold hex_digit, in_range. intros H.
  repeat (destruct (_ && _) eqn:E in H; [split_bools; lia|]; clear E). done.
Qed.

Lemma hex_group_bound l acc off a o r :
  hex_group l acc off = Some (a, o, r) → 0 ≤ off ≤ 4 → 0 ≤ acc < 16 ^ off →
  0 ≤ a < 65536.
Proof.
  revert acc off. induction l as [|c l IH]; intros acc off; cbn [hex_group].
  - intros [= <- <- <-] Ho Ha. pose proof (Z.pow_le_mono_r 16 off 4). lia.
  - destruct (hex_digit c) as [d|] eqn:Ed.
    + destruct (Z.ltb_spec 3 off); [done|]. intros H' Ho Ha.
      apply hex_digit_bound in Ed. eapply IH; [exact H'|lia|].
      rewrite Z.pow_add_r by lia. lia.
    + intros [= <- <- <-] Ho Ha. pose proof (Z.pow_le_mono_r 16 off 4). lia.
Qed.

(** Bytes read so far, the ellipsis among them, room left for the rounds left. *)
Definition groups_ok (fuel : nat) (ip : list Z) (ell : option nat) : Prop :=
  Forall is_byte ip ∧ (length ip + 2 * fuel ≤ 16)%nat ∧ (default 0%nat ell ≤ length ip)%nat.

Lemma groups_ok_push fuel ip ell acc :
  groups_ok (S fuel) ip ell → 0 ≤ acc < 65536 →
  groups_ok fuel (acc mod 256 :: acc / 256 :: ip) ell.
Proof.
  intros (Hb & Hl & He) Ha. split; [|simpl; lia].
  constructor; [|constructor; [|done]]; unfold is_byte;
    pose proof (Z.mod_pos_bound acc 256); pose proof (Z.div_lt_upper_bound acc 256 256);
    pose proof (Z.div_pos acc 256); lia.
Qed.

Lemma ipv6_groups_shape fuel s ip ell ip' ell' rest :
  ipv6_groups fuel s ip ell = Some (ip', ell', rest) → groups_ok fuel ip ell →
  groups_ok 0 ip' ell'.
Proof.
  revert s ip ell. induction fuel as [|fuel IH]; intros s ip ell; cbn [ipv6_groups].
  { intros [= <- <- <-] Hok. exact Hok. }
  destruct (hex_group s 0 0) as [[[acc off] r]|] eqn:Eh; [|done].
  apply hex_group_bound in Eh; [|lia|simpl; lia].
  destruct (off =? 0); [done|]. destruct r as [|c r].
  { intros [= <- <- <-] Hok. eapply groups_ok_push in Hok; [|done].
    destruct Hok as (? & ? & ?). split; [done|]. lia. }
  destruct (c =? 46).
  - destruct (_ && _); [done|]. destruct (Z.ltb_spec 16 (Z.of_nat (length ip) + 4)); [done|].
    destruct (parseIPv4Fields s) as [b|] eqn:Ev; simpl; [|done].
    apply parseIPv4Fields_shape in Ev as [Hl Hb].
    intros [= <- <- <-] (Hi & ? & He). split.
    + apply Forall_app. split; [|done]. by rewrite reverse_Permutation.
    + rewrite length_app, length_reverse, Hl. lia.
  - destruct (negb (c =? 58)); [done|]. destruct r as [|c2 r2]; [done|].
    intros H' Hok. pose proof (groups_ok_push _ _ _ _ Hok Eh) as Hok'.
    set (ip2 := acc mod 256 :: acc / 256 :: ip) in *.
    assert (groups_ok fuel ip2 (Some (length ip2))) as Hok2.
    { destruct Hok' as (? & ? & ?). split; [done|]. split; [done|apply Nat.le_refl]. }
    destruct (c2 =? 58); [|by eapply IH]. destruct ell; [done|].
    destruct r2; [|by eapply IH]. injection H' as <- <- <-.
    destruct Hok2 as (? & ? & ?). split; [done|]. split; [lia|done].
Qed.

Lemma parseIPv6_shape l b : parseIPv6 l = Some b → length b = 16%nat ∧ Forall is_byte b.
Proof.
  assert (∀ s ell b, default 0%nat ell = 0%nat →
    ('(ip, ell, rest) ← ipv6_groups 8 s [] ell;
     match rest with [] => expand_ellipsis (reverse ip) ell | _ => None end) = Some b →
    length b = 16%nat ∧ Forall is_byte b) as Hf.
  { clear. intros s ell b Hell.
    destruct (ipv6_groups 8 s [] ell) as [[[ip ell'] rest]|] eqn:E; simpl; [|done].
    apply ipv6_groups_shape in E as (Hb & Hl & He).
    2:{ split; [done|]. rewrite Hell. simpl. lia. }
    destruct rest; [|done]. intros Hx.
    assert (Forall is_byte (reverse ip)) as Hr by (by rewrite reverse_Permutation).
    split.
    - eapply expand_ellipsis_length; [| |exact Hx]; rewrite length_reverse; lia.
    - revert Hx. unfold expand_ellipsis. destruct (_ <? _)%nat.
      + destruct ell' as [e|]; [|done]. cbn. intros [= <-].
        apply Forall_app. split; [by apply Forall_take|].
        apply Forall_app. split; [|by apply Forall_drop].
        apply Forall_replicate. unfold is_byte. lia.
      + destruct ell'; [done|]. by intros [= <-]. }
  unfold parseIPv6. destruct (bool_decide _); [done|].
  destruct l as [|a [|c l]]; [by apply Hf..|].
  destruct (_ && _); [|by apply Hf]. destruct l; [|by apply Hf].
  intros [= <-]. split; [done|]. apply (Forall_replicate is_byte 16). unfold is_byte. lia.
Qed.

(** [ParseIP] returns sixteen bytes. *)
Lemma ParseIP_shape s ip : ParseIP s = Some ip → length ip = 16%nat ∧ Forall is_byte ip.
Proof.
  unfold ParseIP, parse_addr. rewrite fmap_Some. intros ([b n] & Hp & ->). simpl.
  destruct (ip_family (bytes s)) as [[]|]; simpl in Hp; [| |done].
  - destruct (parseIPv4Fields (bytes s)) as [x|] eqn:E; simpl in Hp; [|done].
    injection Hp as <- <-. apply parseIPv4Fields_shape in E as [Hl Hb]. simpl. split; [lia|].
    repeat (constructor; [unfold is_byte; lia|]). done.
  - destruct (parseIPv6 (bytes s)) as [x|] eqn:E; simpl in Hp; [|done].
    injection Hp as <- <-. by apply parseIPv6_shape in E.
Qed.
