(* ===== verification/Firewall.v ===== *)
(** * The firewall self-lockout guard

    Source: internal/domain/firewall/model.go and evaluate.go.  Pure functions: the
    evaluation of one firewall profile against the tuple of the operator's session, and
    the overlay of a change on the current profile.  The reason of a verdict is the
    structured argument of the text the code formats. *)

From S2P Require Import Prelude.
From S2P Require Import GoStrings.
From S2P Require Import NetIP.

(** ** Model *)

Definition PolicyNone : string := "none".
Definition PolicyAllow : string := "allow".
Definition PolicyDeny : string := "deny".
Definition PolicyDrop : string := "drop".
Definition GlobalAdapter : string := "global".
Definition SourceAll : string := "all".
Definition SourceIP : string := "ip".
Definition SourceIPRange : string := "iprange".
Definition SourceNetmask : string := "netmask".
Definition PortAll : string := "all".
Definition PortService : string := "service".
Definition PortList : string := "ports".
Definition PortRange : string := "ports_range".
Definition PortDirDst : string := "destination".

Record Rule := {
  ru_Enabled : bool;
  ru_Policy : string;
  ru_Protocol : string;
  ru_PortDirection : string;
  ru_PortGroup : string;
  ru_Ports : string;
  ru_SourceGroup : string;
  ru_Source : string;
  ru_Log : bool;
  ru_Name : string
}.

Record AdapterPolicy := {
  fa_Adapter : string;
  fa_Policy : string;
  fa_Total : Z;
  fa_Rules : list Rule
}.

Record ProfileRules := {
  fp_Profile : string;
  fp_IsActive : bool;
  fp_Adapters : list AdapterPolicy
}.

Record Connection := {
  cn_Source : string;
  cn_Port : Z;
  cn_Protocol : string;
  cn_Determined : bool
}.

Inductive matchState := matchNo | matchMaybe | matchYes.

Inductive reason :=
| RuleMatches (index : Z) (label adapter policy : string)
| RuleMayMatch (index : Z) (label adapter policy : string)
| DefaultAllows (adapter : string)
| DefaultBlocks (adapter policy : string)
| NothingMatched
| RulesetAllows.

Record Reachability := { re_Allowed : bool; re_Reason : reason }.

#[global] Instance matchState_eq_dec : EqDecision matchState.
Proof. solve_decision. Defined.

Section eval.
Context `{Unicode}.

(** ** Matching one rule *)

Definition normalizePolicy (policy : string) : string := ToLower (TrimSpace policy).
Definition policyAllows (policy : string) : bool :=
  bool_decide (normalizePolicy policy = PolicyAllow).

Definition combineMatch (states : list matchState) : matchState :=
  (fix go (result : matchState) (l : list matchState) :=
     match l with
     | [] => result
     | matchNo :: _ => matchNo
     | matchMaybe :: l => go matchMaybe l
     | matchYes :: l => go result l
     end) matchYes states.

Definition protocolMatch (ruleProto connProto : string) : matchState :=
  let ruleProto := ToLower (TrimSpace ruleProto) in
  let connProto := ToLower (TrimSpace connProto) in
  if bool_decide (ruleProto = "") || bool_decide (ruleProto = "all") then matchYes
  else if bool_decide (ruleProto = connProto) then matchYes
  else matchNo.

Definition isDestinationPorts (direction : string) : bool :=
  let d := TrimSpace direction in
  bool_decide (d = "") || bool_decide (d = PortDirDst) || bool_decide (d = "dst").

(** The two ends of a port token, ordered; [None] when it does not parse. *)
Definition parsePortToken (token : list Z) : option (Z * Z) :=
  match index_by (fun c => (c =? 58) || (c =? 45)) token with
  | None => p ← Atoi_bytes token; Some (p, p)
  | Some sep =>
      lo ← Atoi_bytes (trim_bytes (take sep token));
      hi ← Atoi_bytes (trim_bytes (drop (S sep) token));
      Some (if hi <? lo then (hi, lo) else (lo, hi))
  end.

Fixpoint port_tokens (tokens : list (list Z)) (port : Z) (parsedAny : bool) : matchState :=
  match tokens with
  | [] => if parsedAny then matchNo else matchMaybe
  | token :: tokens =>
      let token := trim_bytes token in
      if bool_decide (token = []) then port_tokens tokens port parsedAny else
      match parsePortToken token with
      | None => matchMaybe
      | Some (lo, hi) =>
          if (lo <=? port) && (port <=? hi) then matchYes
          else port_tokens tokens port true
      end
  end.

Definition portsCover (spec : string) (port : Z) : matchState :=
  let spec := TrimSpace spec in
  if bool_decide (spec = "") || bool_decide (spec = PortAll) then matchYes
  else port_tokens (FieldsFunc (fun c => (c =? 44) || (c =? 32)) (bytes spec)) port false.

Definition portMatch (rule : Rule) (port : Z) : matchState :=
  let g := TrimSpace (ru_PortGroup rule) in
  if bool_decide (g = "") || bool_decide (g = PortAll) then matchYes
  else if bool_decide (g = PortList) || bool_decide (g = PortRange) then
    if negb (isDestinationPorts (ru_PortDirection rule)) then matchMaybe
    else portsCover (ru_Ports rule) port
  else if bool_decide (g = PortService) then matchMaybe
  else matchMaybe.

Definition cidrContains (spec : string) (ip : option IP) : matchState :=
  match ParseCIDR (TrimSpace spec), ip with
  | Some subnet, Some ip => if Contains subnet ip then matchYes else matchNo
  | _, _ => matchMaybe
  end.

(** Lexicographic comparison of the sixteen bytes. *)
Fixpoint bytesCompareIP (a b : IP) : Z :=
  match a, b with
  | x :: a, y :: b => if negb (x =? y) then (if x <? y then -1 else 1) else bytesCompareIP a b
  | _, _ => 0
  end.

Definition rangeContains (spec : string) (ip : option IP) : matchState :=
  let l := bytes (TrimSpace spec) in
  match index_by (fun c => (c =? 45) || (c =? 126)) l, ip with
  | Some sep, Some ip =>
      match ParseIP (TrimSpace (of_bytes (take sep l))),
            ParseIP (TrimSpace (of_bytes (drop (S sep) l))) with
      | Some lo, Some hi =>
          if (0 <=? bytesCompareIP ip lo) && (bytesCompareIP ip hi <=? 0)
          then matchYes else matchNo
      | _, _ => matchMaybe
      end
  | _, _ => matchMaybe
  end.

Definition sourceMatch (rule : Rule) (source : string) : matchState :=
  let ip := ParseIP (TrimSpace source) in
  let g := TrimSpace (ru_SourceGroup rule) in
  if bool_decide (g = "") || bool_decide (g = SourceAll) then matchYes
  else if bool_decide (g = SourceIP) then
    match ip, ParseIP (TrimSpace (ru_Source rule)) with
    | Some ip, Some target => if ip_equal target ip then matchYes else matchNo
    | _, _ => matchMaybe
    end
  else if bool_decide (g = SourceNetmask) then cidrContains (ru_Source rule) ip
  else if bool_decide (g = SourceIPRange) then rangeContains (ru_Source rule) ip
  else matchMaybe.

Definition ruleMatch (rule : Rule) (conn : Connection) : matchState :=
  combineMatch [protocolMatch (ru_Protocol rule) (cn_Protocol conn);
                portMatch rule (cn_Port conn); sourceMatch rule (cn_Source conn)].

(** ** Evaluating a section, a chain, a profile *)

Definition ruleLabel (rule : Rule) : string :=
  if negb (bool_decide (TrimSpace (ru_Name rule) = "")) then ru_Name rule else "unnamed".

(** [None] is [decided = false]. *)
Fixpoint section_rules (adapter : string) (i : Z) (rules : list Rule) (conn : Connection) :
    option Reachability :=
  match rules with
  | [] => None
  | rule :: rules =>
      if negb (ru_Enabled rule) then section_rules adapter (i + 1) rules conn else
      let state := ruleMatch rule conn in
      if bool_decide (state = matchYes) then
        Some {| re_Allowed := policyAllows (ru_Policy rule);
                re_Reason := RuleMatches (i + 1) (ruleLabel rule) adapter (ru_Policy rule) |}
      else if bool_decide (state = matchMaybe) && negb (policyAllows (ru_Policy rule)) then
        Some {| re_Allowed := false;
                re_Reason := RuleMayMatch (i + 1) (ruleLabel rule) adapter (ru_Policy rule) |}
      else section_rules adapter (i + 1) rules conn
  end.

Definition section_default (section : AdapterPolicy) : option Reachability :=
  let p := normalizePolicy (fa_Policy section) in
  if bool_decide (p = PolicyAllow) then
    Some {| re_Allowed := true; re_Reason := DefaultAllows (fa_Adapter section) |}
  else if bool_decide (p = PolicyDeny) || bool_decide (p = PolicyDrop) then
    Some {| re_Allowed := false;
            re_Reason := DefaultBlocks (fa_Adapter section) (fa_Policy section) |}
  else None.

Definition evaluateSection (section : AdapterPolicy) (conn : Connection) :
    option Reachability :=
  match section_rules (fa_Adapter section) 0 (fa_Rules section) conn with
  | Some r => Some r
  | None => section_default section
  end.

Record reachChain := { rc_primary : option AdapterPolicy; rc_global : option AdapterPolicy }.

Definition chain_evaluate (c : reachChain) (conn : Connection) : Reachability :=
  let try s := match s with Some a => evaluateSection a conn | None => None end in
  match try (rc_primary c) with
  | Some r => r
  | None =>
      match try (rc_global c) with
      | Some r => r
      | None => {| re_Allowed := true; re_Reason := NothingMatched |}
      end
  end.

Definition adapterConfigured (a : AdapterPolicy) : bool :=
  negb (bool_decide (fa_Rules a = []))
  || negb (bool_decide (normalizePolicy (fa_Policy a) = PolicyNone))
     && negb (bool_decide (normalizePolicy (fa_Policy a) = "")).

(** The last section named "global", and the others in order. *)
Definition splitAdapters (adapters : list AdapterPolicy) :
    option AdapterPolicy * list AdapterPolicy :=
  fold_left (fun '(g, ph) a =>
    if bool_decide (fa_Adapter a = GlobalAdapter) then (Some a, ph) else (g, ph ++ [a]))
    adapters (None, []).

Definition candidate_chains (profile : ProfileRules) : list reachChain :=
  let '(global, physical) := splitAdapters (fp_Adapters profile) in
  ((fun a => {| rc_primary := Some a; rc_global := global |})
     <$> base.filter (fun a => adapterConfigured a = true) physical)
  ++ [{| rc_primary := None; rc_global := global |}].

Fixpoint chains_allow (chains : list reachChain) (conn : Connection) : Reachability :=
  match chains with
  | [] => {| re_Allowed := true; re_Reason := RulesetAllows |}
  | c :: chains =>
      let r := chain_evaluate c conn in
      if negb (re_Allowed r) then r else chains_allow chains conn
  end.

Definition ProfileAllowsSession (profile : ProfileRules) (conn : Connection) :
    Reachability :=
  chains_allow (candidate_chains profile) conn.
End eval.

(** ** Overlay of a change *)

Definition with_total (a : AdapterPolicy) : AdapterPolicy := {|
  fa_Adapter := fa_Adapter a; fa_Policy := fa_Policy a;
  fa_Total := Z.of_nat (length (fa_Rules a)); fa_Rules := fa_Rules a
|}.

(** The map [replaced]: a later entry of the same name replaces an earlier one. *)
Definition replaced_map (desired : list AdapterPolicy) : gmap string AdapterPolicy :=
  fold_left (fun m a => <[fa_Adapter a := a]> m) desired ∅.

Definition MergeProfile (current : ProfileRules) (desired : list AdapterPolicy) :
    ProfileRules :=
  let replaced := replaced_map desired in
  let seen := fa_Adapter <$> fp_Adapters current in
  {| fp_Profile := fp_Profile current; fp_IsActive := fp_IsActive current;
     fp_Adapters :=
       ((fun a => match replaced !! fa_Adapter a with
                  | Some r => with_total r
                  | None => a
                  end) <$> fp_Adapters current)
       ++ (with_total <$> base.filter (fun a => fa_Adapter a ∉ seen) desired) |}.
