(* ===== verification/FirewallThms.v ===== *)
(** * Properties of the firewall self-lockout guard

    The guard is compared with the reference semantics of a DSM firewall: first enabled
    matching rule, then the section's default, then the global section, then allow.  A rule
    whose match the guard cannot decide is resolved either way. *)

From S2P Require Import Prelude.
From S2P Require Import GoStrings.
From S2P Require Import NetIP.
From S2P Require Import Firewall.

(** ** The reference semantics *)

(** Which rules match, by position in the section. *)
Definition decision := Z → Rule → bool.

Section reference.
Context `{Unicode}.

(** A decision that agrees with everything the guard can decide. *)
Definition resolves (conn : Connection) (dec : decision) : Prop := ∀ i rule,
  (ruleMatch rule conn = matchYes → dec i rule = true) ∧
  (ruleMatch rule conn = matchNo → dec i rule = false).

Fixpoint first_match (dec : decision) (i : Z) (rules : list Rule) : option bool :=
  match rules with
  | [] => None
  | rule :: rules =>
      if ru_Enabled rule && dec i rule then Some (policyAllows (ru_Policy rule))
      else first_match dec (i + 1) rules
  end.

Definition default_verdict (policy : string) : option bool :=
  let p := normalizePolicy policy in
  if bool_decide (p = PolicyAllow) then Some true
  else if bool_decide (p = PolicyDeny) || bool_decide (p = PolicyDrop) then Some false
  else None.

Definition section_verdict (dec : decision) (a : AdapterPolicy) : option bool :=
  match first_match dec 0 (fa_Rules a) with
  | Some b => Some b
  | None => default_verdict (fa_Policy a)
  end.

(** Does traffic that enters at [primary] (or at the global section) get through? *)
Definition dsm_allows (dec1 dec2 : decision) (c : reachChain) : bool :=
  let v1 := match rc_primary c with Some a => section_verdict dec1 a | None => None end in
  let v2 := match rc_global c with Some a => section_verdict dec2 a | None => None end in
  default true (match v1 with Some b => Some b | None => v2 end).

(** The resolution the guard assumes: undecided rules match exactly when they block. *)
Definition worst (conn : Connection) : decision := fun _ rule =>
  match ruleMatch rule conn with
  | matchYes => true
  | matchNo => false
  | matchMaybe => negb (policyAllows (ru_Policy rule))
  end.

(** ** Lemmas *)

Lemma worst_resolves conn : resolves conn (worst conn).
Proof. intros i rule. unfold worst. split; intros ->; done. Qed.

Lemma section_rules_worst adapter i rules conn :
  re_Allowed <$> section_rules adapter i rules conn = first_match (worst conn) i rules.
Proof.
  revert i. induction rules as [|rule rules IH]; intros i; simpl; [done|].
  destruct (ru_Enabled rule); simpl; [|apply IH].
  unfold worst. destruct (ruleMatch rule conn); simpl; [apply IH| |done].
  destruct (policyAllows (ru_Policy rule)) eqn:Ep; simpl; [apply IH|done].
Qed.

Lemma evaluateSection_worst a conn :
  re_Allowed <$> evaluateSection a conn = section_verdict (worst conn) a.
Proof.
  unfold evaluateSection, section_verdict.
  rewrite <- (section_rules_worst (fa_Adapter a)).
  destruct (section_rules _ _ _ _); simpl; [done|].
  unfold section_default, default_verdict. by repeat case_bool_decide.
Qed.

Lemma chain_evaluate_worst c conn :
  re_Allowed (chain_evaluate c conn) = dsm_allows (worst conn) (worst conn) c.
Proof.
  unfold chain_evaluate, dsm_allows. destruct c as [[p|] [g|]]; simpl;
    rewrite <- ?evaluateSection_worst;
    repeat match goal with |- context [evaluateSection ?a conn] =>
      destruct (evaluateSection a conn); simpl end; done.
Qed.

(** Where the worst resolution lets the session through, every resolution does. *)
Lemma first_match_mono dec conn i rules :
  resolves conn dec →
  first_match (worst conn) i rules = Some false
  ∨ first_match dec i rules = Some true
  ∨ first_match dec i rules = first_match (worst conn) i rules.
Proof.
  intros Hd. revert i. induction rules as [|rule rules IH]; intros i; simpl; [by auto|].
  destruct (ru_Enabled rule); simpl; [|apply IH].
  destruct (Hd i rule) as [Hy Hn]. unfold worst at 1 3.
  destruct (ruleMatch rule conn).
  - rewrite Hn by done. apply IH.
  - destruct (policyAllows (ru_Policy rule)) eqn:Ep; simpl; [|by left].
    destruct (dec i rule); [by auto|apply IH].
  - rewrite Hy by done. by auto.
Qed.

Lemma section_verdict_mono dec conn a :
  resolves conn dec →
  section_verdict (worst conn) a = Some false
  ∨ section_verdict dec a = Some true
  ∨ section_verdict dec a = section_verdict (worst conn) a.
Proof.
  intros Hd. unfold section_verdict.
  destruct (first_match_mono dec conn 0 (fa_Rules a) Hd) as [->|[->| ->]]; auto.
Qed.

Lemma dsm_allows_mono dec1 dec2 conn c :
  resolves conn dec1 → resolves conn dec2 →
  dsm_allows (worst conn) (worst conn) c = true → dsm_allows dec1 dec2 c = true.
Proof.
  intros H1 H2. unfold dsm_allows.
  destruct (rc_primary c) as [p|]; [|].
  - destruct (section_verdict_mono dec1 conn p H1) as [->|[->| ->]]; [done|done|].
    destruct (section_verdict (worst conn) p); [done|].
    destruct (rc_global c) as [g|]; [|done].
    by destruct (section_verdict_mono dec2 conn g H2) as [->|[->| ->]].
  - destruct (rc_global c) as [g|]; [|done].
    by destruct (section_verdict_mono dec2 conn g H2) as [->|[->| ->]].
Qed.

Lemma chains_allow_spec chains conn :
  re_Allowed (chains_allow chains conn) = true ↔
  ∀ c, c ∈ chains → re_Allowed (chain_evaluate c conn) = true.
Proof.
  induction chains as [|c chains IH]; simpl.
  { split; [|done]. intros _ c []%elem_of_nil. }
  destruct (re_Allowed (chain_evaluate c conn)) eqn:E; simpl.
  - rewrite IH. split.
    + intros Hc c' [->|?]%elem_of_cons; auto.
    + intros Hc c' ?. apply Hc. by right.
  - rewrite E. split; [done|]. intros Hc. rewrite Hc in E; [done|by left].
Qed.

Lemma splitAdapters_acc adapters g ph :
  fold_left (λ '(g, ph) a,
    if bool_decide (fa_Adapter a = GlobalAdapter) then (Some a, ph) else (g, ph ++ [a]))
    adapters (g, ph)
  = (match last (base.filter (λ a, fa_Adapter a = GlobalAdapter) adapters) with
     | Some a => Some a | None => g end,
     ph ++ base.filter (λ a, fa_Adapter a ≠ GlobalAdapter) adapters).
Proof.
  revert g ph. induction adapters as [|a adapters IH]; intros g ph; simpl.
  { by rewrite app_nil_r. }
  rewrite filter_cons, filter_cons. case_bool_decide as Ha.
  - rewrite IH, decide_True, decide_False by tauto. f_equal.
    rewrite last_cons. by destruct (last _).
  - rewrite IH, decide_False, decide_True by tauto. by rewrite <- app_assoc.
Qed.

(** The candidate ingress chains: each configured physical section before the global
    one, and the global one alone. *)
Lemma elem_of_candidate_chains profile c :
  c ∈ candidate_chains profile ↔
  rc_global c = last (base.filter (λ a, fa_Adapter a = GlobalAdapter) (fp_Adapters profile)) ∧
  match rc_primary c with
  | None => True
  | Some a => a ∈ fp_Adapters profile ∧ fa_Adapter a ≠ GlobalAdapter ∧
              adapterConfigured a = true
  end.
Proof.
  unfold candidate_chains, splitAdapters. rewrite splitAdapters_acc. simpl.
  set (g := match last _ with Some _ => _ | None => _ end).
  assert (g = last (base.filter (λ a, fa_Adapter a = GlobalAdapter) (fp_Adapters profile)))
    as -> by (unfold g; by destruct (last _)).
  rewrite elem_of_app, list_elem_of_fmap, list_elem_of_singleton.
  setoid_rewrite list_elem_of_filter. setoid_rewrite list_elem_of_filter.
  destruct c as [[p|] gl]; simpl; split.
  - intros [(a & [= -> ->] & ? & ? & ?)|[=]]. auto.
  - intros (-> & ? & ? & ?). left. eauto.
  - intros [(a & [=] & _)|[= ->]]. auto.
  - intros [-> _]. by right.
Qed.
End reference.

(** ** Overlay *)

Lemma NoDup_fmap_filter {A B} (f : A → B) (P : A → Prop) `{∀ x, Decision (P x)} (l : list A) :
  NoDup (f <$> l) → NoDup (f <$> base.filter P l).
Proof.
  induction l as [|x l IH]; [done|]. rewrite fmap_cons, filter_cons.
  intros [Hx Hl]%NoDup_cons. case_decide; [|by apply IH].
  rewrite fmap_cons. apply NoDup_cons. split; [|by apply IH].
  intros (y & Ey & Hy)%list_elem_of_fmap. apply list_elem_of_filter in Hy as [_ Hy].
  destruct Hx. rewrite Ey. by apply list_elem_of_fmap_2.
Qed.

Section merge.
Implicit Types (desired : list AdapterPolicy).

Lemma replaced_map_acc desired (m : gmap string AdapterPolicy) a :
  NoDup (fa_Adapter <$> desired) →
  fold_left (λ m a, <[fa_Adapter a := a]> m) desired m !! a =
  match find_first (λ d, bool_decide (fa_Adapter d = a)) desired with
  | Some d => Some d | None => m !! a end.
Proof.
  revert m. induction desired as [|d desired IH]; intros m; simpl; [done|].
  intros [Hd Hnd]%NoDup_cons. rewrite IH by done. case_bool_decide as Ha.
  - subst a. destruct (find_first _ desired) as [d'|] eqn:E.
    + apply find_first_Some in E as [Hin Hb]. apply bool_decide_eq_true in Hb.
      destruct Hd. rewrite <- Hb. by apply list_elem_of_fmap_2.
    + apply lookup_insert_eq.
  - destruct (find_first _ desired); [done|]. by apply lookup_insert_ne.
Qed.

Lemma replaced_map_Some desired a d :
  NoDup (fa_Adapter <$> desired) →
  replaced_map desired !! a = Some d ↔ d ∈ desired ∧ fa_Adapter d = a.
Proof.
  intros Hnd. unfold replaced_map. rewrite replaced_map_acc by done.
  destruct (find_first _ desired) as [d'|] eqn:E.
  - apply find_first_Some in E as [Hin Hb]. apply bool_decide_eq_true in Hb.
    split; [intros [= ->]; auto|]. intros [Hd <-]. f_equal.

    apply list_elem_of_lookup in Hin as [i Hi], Hd as [j Hj].
    assert (i = j) as ->; [|congruence].
    eapply NoDup_lookup; [exact Hnd|rewrite list_lookup_fmap, Hi; done|].
    rewrite list_lookup_fmap, Hj. simpl. by rewrite Hb.
  - rewrite lookup_empty. split; [done|]. intros [Hd Ha].
    rewrite find_first_None in E. specialize (E d Hd).
    apply bool_decide_eq_false in E. done.
Qed.

Lemma replaced_map_None desired a :
  NoDup (fa_Adapter <$> desired) →
  replaced_map desired !! a = None ↔ a ∉ fa_Adapter <$> desired.
Proof.
  intros Hnd. rewrite eq_None_not_Some, list_elem_of_fmap. split.
  - intros Hn (d & -> & Hd). apply Hn. exists d. by apply replaced_map_Some.
  - intros Hn [d Hd]. apply replaced_map_Some in Hd as [Hd <-]; [|done]. eauto.
Qed.
End merge.

(** ** Address ranges *)

Lemma be_value_cons x l : Forall is_byte (x :: l) →
  be_value (x :: l) = x * 256 ^ Z.of_nat (length l) + be_value l.
Proof.
  intros _. unfold be_value. rewrite reverse_cons. generalize (reverse l), (length_reverse l).
  intros r Hr. rewrite <- Hr. clear. induction r as [|y r IH]; [simpl; lia|].
  cbn [app le_value length]. rewrite IH, Nat2Z.inj_succ, Z.pow_succ_r by lia. lia.
Qed.

Lemma be_value_bound l : Forall is_byte l → 0 ≤ be_value l < 256 ^ Z.of_nat (length l).
Proof.
  intros Hl. unfold be_value. rewrite <- length_reverse. apply le_value_bound.
  by rewrite reverse_Permutation.
Qed.

(** The byte-wise comparison is the comparison of the addresses as integers. *)
Lemma bytesCompareIP_spec a b :
  length a = length b → Forall is_byte a → Forall is_byte b →
  bytesCompareIP a b = match be_value a ?= be_value b with Lt => -1 | Eq => 0 | Gt => 1 end.
Proof.
  revert b. induction a as [|x a IH]; intros [|y b]; try done.
  intros [= Hl] Ha Hb. rewrite !be_value_cons by done.
  apply Forall_cons in Ha as [Hx Ha], Hb as [Hy Hb]. unfold is_byte in *. cbn [bytesCompareIP].
  pose proof (be_value_bound _ Ha) as Ba. pose proof (be_value_bound _ Hb) as Bb.
  rewrite <- Hl in *. set (P := 256 ^ Z.of_nat (length a)) in *.
  destruct (Z.eqb_spec x y) as [->|Hne]; cbn [negb].
  - rewrite IH by done. by rewrite Z.add_compare_mono_l.
  - destruct (Z.ltb_spec x y).
    + assert (x * P + be_value a < y * P + be_value b) as E by nia.
      by apply Z.compare_lt_iff in E as ->.
    + assert (y * P + be_value b < x * P + be_value a) as E by nia.
      by apply Z.compare_gt_iff in E as ->.
Qed.

(** ** The properties *)

(** C15: The lock-out guard is exact.  It reports a session as allowed if and only if every
    ingress the operator may be on (each configured adapter before the all-interfaces
    section, and the all-interfaces section alone) lets the session through under DSM's
    first-match evaluation, whatever the outcome of the rules whose match the guard cannot
    decide. *)
Theorem lockout_guard_exact `{Unicode} profile conn :
  re_Allowed (ProfileAllowsSession profile conn) = true ↔
  ∀ c dec1 dec2,
    rc_global c = last (base.filter (λ a, fa_Adapter a = GlobalAdapter) (fp_Adapters profile)) →
    (∀ a, rc_primary c = Some a → a ∈ fp_Adapters profile ∧ fa_Adapter a ≠ GlobalAdapter ∧
                                  adapterConfigured a = true) →
    resolves conn dec1 → resolves conn dec2 → dsm_allows dec1 dec2 c = true.
Proof.
  unfold ProfileAllowsSession. rewrite chains_allow_spec. split.
  - intros Ha c dec1 dec2 Hg Hp H1 H2. apply (dsm_allows_mono _ _ conn); [done..|].
    rewrite <- chain_evaluate_worst. apply Ha, elem_of_candidate_chains.
    split; [done|]. destruct (rc_primary c); auto.
  - intros Ha c [Hg Hp]%elem_of_candidate_chains. rewrite chain_evaluate_worst.
    apply Ha; auto using worst_resolves. intros a Hc. by rewrite Hc in Hp.
Qed.

(** The overlay of a change owns exactly the named adapters.  The merged profile holds
    the desired section of every adapter the change names (with the rule count recomputed),
    the current section of every other adapter unchanged, and nothing else; the current
    order is kept, new adapters follow, and no adapter appears twice. *)
Theorem merge_profile_sections (current : ProfileRules) (desired : list AdapterPolicy) :
  NoDup (fa_Adapter <$> desired) → NoDup (fa_Adapter <$> fp_Adapters current) →
  let merged := MergeProfile current desired in
  (∀ a, a ∈ fp_Adapters merged ↔
     (∃ d, d ∈ desired ∧ a = with_total d)
     ∨ (a ∈ fp_Adapters current ∧ fa_Adapter a ∉ fa_Adapter <$> desired)) ∧
  NoDup (fa_Adapter <$> fp_Adapters merged) ∧
  ∃ fresh, fa_Adapter <$> fp_Adapters merged = (fa_Adapter <$> fp_Adapters current) ++ fresh.
Proof.
  intros Hd Hc merged. unfold merged, MergeProfile; simpl.
  set (f := λ a, match replaced_map desired !! fa_Adapter a with
                 | Some r => with_total r | None => a end).
  set (new := base.filter _ desired).
  assert (∀ a, fa_Adapter (f a) = fa_Adapter a) as Hf.
  { intros a. unfold f. destruct (replaced_map desired !! fa_Adapter a) eqn:E; [|done].
    by apply replaced_map_Some in E as [_ <-]. }
  assert (fa_Adapter <$> (f <$> fp_Adapters current) = fa_Adapter <$> fp_Adapters current)
    as Hnames by (rewrite <- list_fmap_compose; apply list_fmap_ext; intros; apply Hf).
  assert (fa_Adapter <$> (with_total <$> new) = fa_Adapter <$> new) as Hnew
    by (rewrite <- list_fmap_compose; by apply list_fmap_ext).
  split_and!.
  - intros a. rewrite elem_of_app, !list_elem_of_fmap. split.
    + intros [(b & -> & Hb)|(d & -> & Hin)].
      * unfold f. destruct (replaced_map desired !! fa_Adapter b) as [d|] eqn:E.
        { apply replaced_map_Some in E as [? _]; eauto. }
        right. split; [done|]. apply replaced_map_None in E; [|done].
        by rewrite list_elem_of_fmap in E.
      * apply list_elem_of_filter in Hin as [_ Hin]. eauto.
    + intros [(d & Hin & ->)|[Hin Ha]].
      * destruct (decide (fa_Adapter d ∈ fa_Adapter <$> fp_Adapters current)) as [Hs|Hs].
        { apply list_elem_of_fmap in Hs as (b & Eb & Hb). left. exists b. split; [|done].
          unfold f. assert (replaced_map desired !! fa_Adapter b = Some d) as ->; [|done].
          by apply replaced_map_Some. }
        right. exists d. split; [done|]. by apply list_elem_of_filter.
      * left. exists a. split; [|done]. unfold f.
        assert (replaced_map desired !! fa_Adapter a = None) as ->; [|done].
        apply replaced_map_None; [done|]. by rewrite list_elem_of_fmap.
  - rewrite fmap_app, Hnames, Hnew. apply NoDup_app. split_and!; [done| |].
    + intros x Hx (d & -> & Hin)%list_elem_of_fmap.
      apply list_elem_of_filter in Hin as [Hn _]. done.
    + by apply NoDup_fmap_filter.
  - exists (fa_Adapter <$> new). by rewrite fmap_app, Hnames, Hnew.
Qed.

(** A source range covers exactly the addresses between its ends, as integers: with
    both ends and the session's address parsed, the rule matches when
    [lo <= ip <= hi] and does not match otherwise. *)
Theorem range_contains_interval spec sep lo hi s ip :
  index_by (λ c, (c =? 45) || (c =? 126)) (bytes (TrimSpace spec)) = Some sep →
  ParseIP (TrimSpace (of_bytes (take sep (bytes (TrimSpace spec))))) = Some lo →
  ParseIP (TrimSpace (of_bytes (drop (S sep) (bytes (TrimSpace spec))))) = Some hi →
  ParseIP s = Some ip →
  rangeContains spec (Some ip) =
    if (be_value lo <=? be_value ip) && (be_value ip <=? be_value hi)
    then matchYes else matchNo.
Proof.
  intros Hs Hlo Hhi Hip. unfold rangeContains. rewrite Hs, Hlo, Hhi.
  apply ParseIP_shape in Hlo as [Ll Bl], Hhi as [Lh Bh], Hip as [Li Bi].
  rewrite !bytesCompareIP_spec by congruence.
  unfold Z.leb. rewrite (Z.compare_antisym (be_value ip) (be_value lo)).
  by destruct (be_value ip ?= be_value lo), (be_value ip ?= be_value hi).
Qed.

(** ** Witnesses *)

Definition sample_rule (policy group source : string) : Rule := {|
  ru_Enabled := true; ru_Policy := policy; ru_Protocol := "tcp";
  ru_PortDirection := ""; ru_PortGroup := "ports"; ru_Ports := "5000-5001,443";
  ru_SourceGroup := group; ru_Source := source; ru_Log := false; ru_Name := ""
|}.
Definition sample_section (name policy : string) (rules : list Rule) : AdapterPolicy := {|
  fa_Adapter := name; fa_Policy := policy; fa_Total := Z.of_nat (length rules);
  fa_Rules := rules
|}.
Definition sample_profile_rules : ProfileRules := {|
  fp_Profile := "custom"; fp_IsActive := true;
  fp_Adapters := [sample_section "global" "none" [];
    sample_section "eth0" "drop" [sample_rule "allow" "netmask" "10.0.0.0/8"]]
|}.
Definition sample_change : list AdapterPolicy :=
  [sample_section "eth0" "deny" []; sample_section "eth1" "allow" []].
Definition sample_conn (source : string) : Connection := {|
  cn_Source := source; cn_Port := 5001; cn_Protocol := "TCP"; cn_Determined := true |}.

(** The guard on a concrete profile: allowed from the LAN, refused from elsewhere, and
    refused from the LAN once the change is overlaid. *)
Example guard_lan :
  re_Allowed (@ProfileAllowsSession ascii_tables sample_profile_rules
    (sample_conn "10.1.2.3")) = true.
Proof. vm_compute. reflexivity. Qed.
Example guard_wan :
  re_Allowed (@ProfileAllowsSession ascii_tables sample_profile_rules
    (sample_conn "192.0.2.1")) = false.
Proof. vm_compute. reflexivity. Qed.
Example guard_merged :
  re_Allowed (@ProfileAllowsSession ascii_tables
    (MergeProfile sample_profile_rules sample_change) (sample_conn "10.1.2.3")) = false.
Proof. vm_compute. reflexivity. Qed.

Lemma merge_profile_sections_witness :
  NoDup (fa_Adapter <$> fp_Adapters (MergeProfile sample_profile_rules sample_change)).
Proof.
  apply (merge_profile_sections sample_profile_rules sample_change);
    apply (bool_decide_unpack _); vm_compute; exact I.
Defined.

Lemma range_contains_interval_witness :
  rangeContains " 10.0.0.5 - 10.0.1.0 " (Some (v4InV6Prefix ++ [10;0;0;77])) = matchYes.
Proof.
  apply (range_contains_interval " 10.0.0.5 - 10.0.1.0 " 9 (v4InV6Prefix ++ [10;0;0;5])
    (v4InV6Prefix ++ [10;0;1;0]) "10.0.0.77"); vm_compute; reflexivity.
Defined.
