(* ===== verification/RemotePolicy.v ===== *)
(** * Package remotepolicy: identity and admission metadata of remote requests

    Source: internal/remotepolicy/remotepolicy.go, and the error sentinels shared with
    internal/gateway/state/types.go.  A request context carries at most one principal,
    correlation id, MCP session id and interactive grant.  A grant's [used] field is a
    pointer to an [atomic.Bool] that every copy of the grant shares: it is a location of
    a store of flags, so that consuming a copy consumes them all. *)

From S2P Require Import Prelude.

(** ** Errors *)

Inductive error : Type :=
| ErrDenied
| ErrInteractiveApprovalRequired
| ErrNotFound (what : string)
| ErrRevisionConflict (expected current : Z)
| ErrAdministratorRequired
| ErrAlreadyInitialized
| ErrUnauthorized
| ErrTokenUnauthorized
| ErrOAuthUnauthorized
| ErrApprovalRequired
| ErrDecode
| ErrContext
| ErrNew (msg : string).

#[global] Instance error_eq_dec : EqDecision error.
Proof. solve_decision. Defined.

(** ** Scopes and approval modes *)

Definition ScopeRead : string := "nas.read".
Definition ScopePlan : string := "nas.plan".
Definition ScopeApply : string := "nas.apply".
Definition ScopeLANDiscover : string := "lan.discover".
Definition ScopeProvision : string := "nas.provision".
Definition ApprovalModeInteractive : string := "interactive".
Definition ApprovalModeAdministrator : string := "administrator".

(** ** Data *)

Record Principal := {
  pp_TokenID : string;
  pp_Name : string;
  pp_ApprovalMode : string;
  pp_Scopes : gset string;
  pp_NAS : gset string
}.

(** A store of [atomic.Bool] values. *)
Abbreviation flags := (gmap nat bool).

Record InteractiveApprovalGrant := {
  gr_TokenID : string;
  gr_SessionID : string;
  gr_NAS : string;
  gr_ProfileRevision : Z;
  gr_PlanHash : string;
  gr_used : option nat
}.

Record AuditEvent := {
  ev_ID : string;
  ev_Time : Z;
  ev_CorrelationID : string;
  ev_ActorType : string;
  ev_ActorID : string;
  ev_Action : string;
  ev_Tool : string;
  ev_NAS : string;
  ev_Outcome : string;
  ev_Reason : string
}.

Record PendingApprovalRequest := {
  pq_PlanHash : string;
  pq_NAS : string;
  pq_ProfileRevision : Z;
  pq_RequestingTokenID : string;
  pq_Tool : string;
  pq_Risk : string;
  pq_ResourceID : string;
  pq_Summary : string
}.

(** [context.Context]: the error of a cancelled context and the private values. *)
Record context := {
  ctx_Err : option error;
  ctx_principal : option Principal;
  ctx_correlation : option string;
  ctx_session : option string;
  ctx_grant : option InteractiveApprovalGrant
}.

Definition Background : context := {|
  ctx_Err := None; ctx_principal := None; ctx_correlation := None;
  ctx_session := None; ctx_grant := None
|}.

(** ** Operations *)

Definition HasScope (p : Principal) (scope : string) : bool :=
  bool_decide (scope ∈ pp_Scopes p).

Definition AllowsNAS (p : Principal) (name : string) : bool :=
  bool_decide (name ∈ pp_NAS p).

Definition WithPrincipal (ctx : context) (p : Principal) : context := {|
  ctx_Err := ctx_Err ctx; ctx_principal := Some p;
  ctx_correlation := ctx_correlation ctx; ctx_session := ctx_session ctx;
  ctx_grant := ctx_grant ctx
|}.

(** [(principal, ok)]: [ok] is false for a missing or anonymous principal. *)
Definition PrincipalFromContext (ctx : context) : option Principal :=
  p ← ctx_principal ctx;
  if bool_decide (pp_TokenID p = "") then None else Some p.

Definition WithCorrelationID (ctx : context) (id : string) : context := {|
  ctx_Err := ctx_Err ctx; ctx_principal := ctx_principal ctx;
  ctx_correlation := Some id; ctx_session := ctx_session ctx;
  ctx_grant := ctx_grant ctx
|}.

Definition CorrelationID (ctx : context) : string := default "" (ctx_correlation ctx).

Definition WithMCPSessionID (ctx : context) (id : string) : context := {|
  ctx_Err := ctx_Err ctx; ctx_principal := ctx_principal ctx;
  ctx_correlation := ctx_correlation ctx; ctx_session := Some id;
  ctx_grant := ctx_grant ctx
|}.

Definition MCPSessionID (ctx : context) : option string :=
  id ← ctx_session ctx; if bool_decide (id = "") then None else Some id.

(** Allocates the grant's flag. *)
Definition WithInteractiveApproval (ctx : context) (g : InteractiveApprovalGrant)
    (fl : flags) : context * flags :=
  let l := fresh (dom fl) in
  let g' := {| gr_TokenID := gr_TokenID g; gr_SessionID := gr_SessionID g;
               gr_NAS := gr_NAS g; gr_ProfileRevision := gr_ProfileRevision g;
               gr_PlanHash := gr_PlanHash g; gr_used := Some l |} in
  ({| ctx_Err := ctx_Err ctx; ctx_principal := ctx_principal ctx;
      ctx_correlation := ctx_correlation ctx; ctx_session := ctx_session ctx;
      ctx_grant := Some g' |},
   <[l := false]> fl).

Definition InteractiveApprovalFromContext (ctx : context) :
    option InteractiveApprovalGrant :=
  g ← ctx_grant ctx;
  if negb (bool_decide (gr_TokenID g = ""))
     && negb (bool_decide (gr_SessionID g = ""))
     && negb (bool_decide (gr_NAS g = ""))
     && negb (gr_ProfileRevision g =? 0)
     && negb (bool_decide (gr_PlanHash g = ""))
  then Some g else None.

(** [CompareAndSwap(false, true)] *)
Definition cas_used (fl : flags) (l : nat) : bool * flags :=
  match fl !! l with
  | Some false => (true, <[l := true]> fl)
  | _ => (false, fl)
  end.

Definition ConsumeMatches (g : InteractiveApprovalGrant)
    (tokenID sessionID nas : string) (revision : Z) (planHash : string)
    (fl : flags) : bool * flags :=
  let matches := bool_decide (gr_TokenID g = tokenID)
    && bool_decide (gr_SessionID g = sessionID)
    && bool_decide (gr_NAS g = nas)
    && (gr_ProfileRevision g =? revision)
    && bool_decide (gr_PlanHash g = planHash) in
  if matches then
    match gr_used g with
    | Some l => cas_used fl l
    | None => (false, fl)
    end
  else (false, fl).

(** ** Lemmas *)

Lemma cas_used_true fl l fl' :
  cas_used fl l = (true, fl') → fl !! l = Some false ∧ fl' = <[l := true]> fl.
Proof. unfold cas_used. intros. repeat case_match; by simplify_eq. Qed.

(** A successful consumption binds the grant to exactly the five values and flips its
    flag, which was clear. *)
Lemma ConsumeMatches_true g tokenID sessionID nas revision planHash fl fl' :
  ConsumeMatches g tokenID sessionID nas revision planHash fl = (true, fl') →
  gr_TokenID g = tokenID ∧ gr_SessionID g = sessionID ∧ gr_NAS g = nas ∧
  gr_ProfileRevision g = revision ∧ gr_PlanHash g = planHash ∧
  ∃ l, gr_used g = Some l ∧ fl !! l = Some false ∧ fl' = <[l := true]> fl.
Proof.
  unfold ConsumeMatches. intros H.
  destruct (_ && _) eqn:Em in H; [|done]. split_bools.
  destruct (gr_used g) as [l|] eqn:El; [|done].
  apply cas_used_true in H as [??]. repeat (split; [done|]). eauto.
Qed.

(** Flags are never cleared. *)
Lemma ConsumeMatches_flags g tokenID sessionID nas revision planHash fl b fl' l :
  ConsumeMatches g tokenID sessionID nas revision planHash fl = (b, fl') →
  fl !! l = Some true → fl' !! l = Some true.
Proof.
  unfold ConsumeMatches, cas_used. intros H Hl.
  repeat case_match; simplify_eq; try done.
  match goal with |- <[?k := _]> _ !! _ = _ => destruct (decide (k = l)) as [->|] end.
  - by rewrite lookup_insert_eq.
  - by rewrite lookup_insert_ne.
Qed.

Lemma InteractiveApprovalFromContext_Some ctx g :
  InteractiveApprovalFromContext ctx = Some g → ctx_grant ctx = Some g.
Proof.
  unfold InteractiveApprovalFromContext. destruct (ctx_grant ctx); [|done].
  simpl. case_match; naive_solver.
Qed.
