(* ===== verification/Password.v ===== *)
(** * Password verifiers and administrator identities

    Source: internal/gateway/state/admin.go, the parts that do not touch the database:
    usernames, passwords, and Argon2id PHC verifiers.  Argon2id itself is golang.org/x
    code, the interface [Argon2].  Acquiring a hashing slot or being cancelled while
    waiting is the argument [slot].  The base64 codec and [strings.Split] are defined
    here, on bytes. *)

From S2P Require Import Prelude.
From S2P Require Import GoStrings.
From S2P Require Import RemotePolicy.

(** ** package encoding/base64: RawStdEncoding *)

Definition b64_char (v : Z) : Z :=
  if v <? 26 then 65 + v
  else if v <? 52 then 71 + v
  else if v <? 62 then v - 4
  else if v =? 62 then 43 else 47.

Definition b64_val (c : Z) : option Z :=
  if in_range 65 90 c then Some (c - 65)
  else if in_range 97 122 c then Some (c - 71)
  else if in_range 48 57 c then Some (c + 4)
  else if c =? 43 then Some 62
  else if c =? 47 then Some 63
  else None.

Fixpoint b64_encode (l : list Z) : list Z :=
  match l with
  | [] => []
  | [a] => [b64_char (a / 4); b64_char (a mod 4 * 16)]
  | [a; b] => [b64_char (a / 4); b64_char (a mod 4 * 16 + b / 16); b64_char (b mod 16 * 4)]
  | a :: b :: c :: l =>
      b64_char (a / 4) :: b64_char (a mod 4 * 16 + b / 16)
        :: b64_char (b mod 16 * 4 + c / 64) :: b64_char (c mod 64) :: b64_encode l
  end.

(** Strict: the unused bits of the last character are zero. *)
Fixpoint b64_decode (l : list Z) : option (list Z) :=
  match l with
  | [] => Some []
  | [_] => None
  | [w; x] =>
      w ← b64_val w; x ← b64_val x;
      if x mod 16 =? 0 then Some [w * 4 + x / 16] else None
  | [w; x; y] =>
      w ← b64_val w; x ← b64_val x; y ← b64_val y;
      if y mod 4 =? 0 then Some [w * 4 + x / 16; x mod 16 * 16 + y / 4] else None
  | w :: x :: y :: z :: l =>
      w ← b64_val w; x ← b64_val x; y ← b64_val y; z ← b64_val z;
      rest ← b64_decode l;
      Some (w * 4 + x / 16 :: x mod 16 * 16 + y / 4 :: y mod 4 * 64 + z :: rest)
  end.

Definition newline (c : Z) : bool := (c =? 10) || (c =? 13).
(** The decoder skips line breaks. *)
Definition DecodeString (l : list Z) : option (list Z) :=
  b64_decode (base.filter (fun c => newline c = false) l).

(** ** [strings.Split] on a one-byte separator *)

Fixpoint split_aux (sep : Z) (cur : list Z) (l : list Z) : list (list Z) :=
  match l with
  | [] => [reverse cur]
  | a :: l => if a =? sep then reverse cur :: split_aux sep [] l
              else split_aux sep (a :: cur) l
  end.
Definition Split (l : list Z) (sep : Z) : list (list Z) := split_aux sep [] l.

(** ** Parameters and verifiers *)

Record PasswordHashParameters := {
  ph_MemoryKiB : Z;
  ph_Iterations : Z;
  ph_Parallelism : Z;
  ph_SaltLength : Z;
  ph_KeyLength : Z
}.

Definition DefaultPasswordHashParameters : PasswordHashParameters := {|
  ph_MemoryKiB := 32 * 1024; ph_Iterations := 3; ph_Parallelism := 1;
  ph_SaltLength := 16; ph_KeyLength := 32
|}.

(** [PasswordHashParameters.validate] *)
Definition validate_parameters (p : PasswordHashParameters) : result error () :=
  if (ph_MemoryKiB p <? 8) || (128 * 1024 <? ph_MemoryKiB p)
  then Err (ErrNew "Argon2id memory must be between 8 KiB and 128 MiB") else
  if (ph_Iterations p <? 1) || (10 <? ph_Iterations p)
  then Err (ErrNew "Argon2id iterations must be between 1 and 10") else
  if (ph_Parallelism p <? 1) || (4 <? ph_Parallelism p)
  then Err (ErrNew "Argon2id parallelism must be between 1 and 4") else
  if (ph_SaltLength p <? 8) || (64 <? ph_SaltLength p) || (ph_KeyLength p <? 16)
     || (64 <? ph_KeyLength p)
  then Err (ErrNew "Argon2id salt or key length is outside the safe bound") else
  Ok ().

(** [argon2.IDKey(password, salt, iterations, memory, parallelism, keyLength)] *)
Class Argon2 := IDKey : string → list Z → Z → Z → Z → Z → list Z.

Definition argon2_version : Z := 19.

(** [m=%d,t=%d,p=%d] *)
Definition format_parameters (p : PasswordHashParameters) : list Z :=
  bytes ("m=" +:+ Itoa (ph_MemoryKiB p)) ++ 44 :: bytes ("t=" +:+ Itoa (ph_Iterations p))
  ++ 44 :: bytes ("p=" +:+ Itoa (ph_Parallelism p)).

(** [$argon2id$v=%d$m=%d,t=%d,p=%d$%s$%s] *)
Definition format_verifier (p : PasswordHashParameters) (salt key : list Z) : string :=
  of_bytes (36 :: bytes "argon2id" ++ 36 :: bytes ("v=" +:+ Itoa argon2_version)
    ++ 36 :: format_parameters p ++ 36 :: b64_encode salt ++ 36 :: b64_encode key).

Definition maxUint32 : Z := 4294967295.

(** [name=value] with a decimal value that fits in a [uint32]. *)
Definition parse_field (name : Z) (l : list Z) : option Z :=
  match l with
  | a :: e :: l =>
      if (a =? name) && (e =? 61) then
        v ← unsigned_value l; if v <=? maxUint32 then Some v else None
      else None
  | _ => None
  end.

(** [fmt.Sscanf] with the format, then the comparison of the text with the formatted
    values: together they accept exactly the canonical texts. *)
Definition parse_parameters (l : list Z) : option PasswordHashParameters :=
  match Split l 44 with
  | [m; t; p] =>
      m ← parse_field 109 m; t ← parse_field 116 t; p ← parse_field 112 p;
      let ps := {| ph_MemoryKiB := m; ph_Iterations := t; ph_Parallelism := p;
                   ph_SaltLength := 0; ph_KeyLength := 0 |} in
      if 255 <? p then None
      else if bool_decide (format_parameters ps = l) then Some ps else None
  | _ => None
  end.

(** Parameters, salt and key of a verifier. *)
Definition parsePasswordVerifier (verifier : string) :
    result error (PasswordHashParameters * list Z * list Z) :=
  match Split (bytes verifier) 36 with
  | [_; p1; p2; p3; p4; p5] =>
      if negb (bool_decide (p1 = bytes "argon2id"))
         || negb (bool_decide (p2 = bytes ("v=" +:+ Itoa argon2_version)))
      then Err (ErrNew "invalid Argon2id verifier") else
      match parse_parameters p3 with
      | None => Err (ErrNew "invalid Argon2id parameters")
      | Some ps =>
          match DecodeString p4 with
          | None => Err (ErrNew "invalid Argon2id salt")
          | Some salt =>
              match DecodeString p5 with
              | None => Err (ErrNew "invalid Argon2id key")
              | Some expected =>
                  let ps := {| ph_MemoryKiB := ph_MemoryKiB ps;
                               ph_Iterations := ph_Iterations ps;
                               ph_Parallelism := ph_Parallelism ps;
                               ph_SaltLength := Z.of_nat (length salt);
                               ph_KeyLength := Z.of_nat (length expected) |} in
                  validate_parameters ps ≫= λ _, Ok (ps, salt, expected)
              end
          end
      end
  | _ => Err (ErrNew "invalid Argon2id verifier")
  end.

Section hashing.
Context `{Argon2}.

(** [slot]: [None] when a hashing slot was acquired, the context's error otherwise. *)
Definition hashPasswordWithSalt (slot : option error) (password : string)
    (salt : list Z) (p : PasswordHashParameters) : result error string :=
  match slot with
  | Some e => Err e
  | None =>
      let key := IDKey password salt (ph_Iterations p) (ph_MemoryKiB p)
                   (ph_Parallelism p) (ph_KeyLength p) in
      Ok (format_verifier p salt key)
  end.

Definition verifyPassword (slot : option error) (password verifier : string) : bool :=
  match parsePasswordVerifier verifier with
  | Err _ => false
  | Ok (p, salt, expected) =>
      match slot with
      | Some _ => false
      | None =>
          bool_decide (IDKey password salt (ph_Iterations p) (ph_MemoryKiB p)
            (ph_Parallelism p) (Z.of_nat (length expected)) = expected)
      end
  end.
End hashing.

Definition dummyPasswordVerifier (p : PasswordHashParameters) : string :=
  format_verifier p (bytes "dsmctl-dummy-salt") (replicate (Z.to_nat (ph_KeyLength p)) 0).

(** ** Usernames, passwords, subjects *)

Definition username_rune (c : Z) : bool :=
  in_range 97 122 c || in_range 48 57 c || (c =? 46) || (c =? 95) || (c =? 45).

Definition normalizeAdministratorUsername `{Unicode} (value : string) :
    result error string :=
  let value := ToLower (TrimSpace value) in
  if (slen value <? 3) || (64 <? slen value)
  then Err (ErrNew "administrator username must be between 3 and 64 characters") else
  if negb (forallb username_rune (string_runes value))
  then Err (ErrNew "administrator username may contain only ASCII letters, digits, dot, underscore, and hyphen") else
  Ok value.

Definition validateNewAdministratorPassword (value : string) : result error () :=
  if (RuneCountInString value <? 8) || (4096 <? slen value)
  then Err (ErrNew "administrator password must be at least 8 characters") else Ok ().

Definition validateLoginPassword (value : string) : result error () :=
  if bool_decide (value = "") || (1024 <? slen value) then Err ErrUnauthorized else Ok ().

Definition normalizedAdministratorProvider (provider : string) : string :=
  if bool_decide (TrimSpace provider = "") then "local" else TrimSpace provider.

Definition validateExternalAdministratorSubject (subject : string) : result error () :=
  let subject := TrimSpace subject in
  if bool_decide (subject = "") || (256 <? slen subject) || ContainsAny subject [13; 10; 0]
  then Err (ErrNew "external administrator subject is invalid") else Ok ().
