(* ===== verification/Discovery.v ===== *)
(** * LAN discovery: the findhost codec and the device model

    Source: internal/synology/findhost/codec.go and internal/domain/discovery/model.go.
    Datagrams are lists of bytes.  Integer TLVs are little endian, addresses are in
    network order.  [scanTLVs] may read at most 64 fields, which is its fuel. *)

From S2P Require Import Prelude.
From S2P Require Import GoStrings.
From S2P Require Import Password.

(** ** Device model *)

Definition StateReady : string := "ready".
Definition StateNotInstalled : string := "not_installed".
Definition StateMigratable : string := "migratable".
Definition StateRecoverable : string := "recoverable".
Definition StateInstalling : string := "installing".
Definition StateBooting : string := "booting".
Definition StateStarting : string := "starting".
Definition StateConfiguringNetwork : string := "configuring_network".
Definition StateMemoryTesting : string := "memory_testing".
Definition StateNetworkTesting : string := "network_testing".
Definition StateCrashed : string := "crashed".
Definition StateOffline : string := "offline".
Definition StateUnknown : string := "unknown".
Definition KindResponse : string := "response".
Definition KindJuniorResponse : string := "junior_response".
Definition KindRecoverResponse : string := "recover_response".
Definition KindInfoAvailable : string := "info_available".

Record Device := {
  dv_Hostname : string;
  dv_Model : string;
  dv_OS : string;
  dv_OSVersion : string;
  dv_Serial : string;
  dv_MACAddress : string;
  dv_IPAddress : string;
  dv_IPv4Addresses : list string;
  dv_MACAddresses : list string;
  dv_Netmask : string;
  dv_Gateway : string;
  dv_DNS : string;
  dv_BuildNumber : Z;
  dv_UpdateNumber : Z;
  dv_SupportsRAID : bool;
  dv_State : string;
  dv_ResponseKind : string;
  dv_DedupID : string
}.

(** ** Merging the answers of one device *)

Fixpoint octet_value (acc : Z) (l : list Z) : option Z :=
  match l with
  | [] => Some acc
  | r :: l => if is_digit r then octet_value (acc * 10 + (r - 48)) l else None
  end.

Fixpoint sort_key_loop (parts : list (list Z)) (key : Z) : Z :=
  match parts with
  | [] => key
  | part :: parts =>
      if bool_decide (part = []) || (3 <? Z.of_nat (length part)) then 0 else
      match octet_value 0 (runes part) with
      | None => 0
      | Some octet =>
          if 255 <? octet then 0
          else sort_key_loop parts (u32_wrap (Z.lor (Z.shiftl key 8) octet))
      end
  end.

Definition ipv4SortKey (addr : string) : Z :=
  let parts := Split (bytes addr) 46 in
  if negb (Z.of_nat (length parts) =? 4) then 0 else sort_key_loop parts 0.

(** The order of [sortIPv4Aware]: by key, then by text. *)
Definition addr_le (x y : string) : Prop :=
  ipv4SortKey x < ipv4SortKey y ∨ (ipv4SortKey x = ipv4SortKey y ∧ String.le x y).
#[global] Instance addr_le_dec : RelDecision addr_le.
Proof. intros x y. unfold addr_le. apply _. Defined.
Definition sortIPv4Aware (values : list string) : list string := merge_sort addr_le values.

Definition mergeUnique (existing incoming : list string) : list string :=
  sortIPv4Aware (dedup (base.filter (fun v => v ≠ "") (existing ++ incoming))).

Definition preferString (dst src : string) : string :=
  if bool_decide (dst = "") then src else dst.
Definition prefer_int (dst src : Z) : Z := if dst =? 0 then src else dst.

Definition Merge (d other : Device) : Device :=
  let ips := mergeUnique (dv_IPv4Addresses d) (dv_IPv4Addresses other) in
  let macs := mergeUnique (dv_MACAddresses d) (dv_MACAddresses other) in
  let mac := preferString (dv_MACAddress d) (dv_MACAddress other) in
  let fuller := bool_decide (dv_ResponseKind d = KindInfoAvailable)
    && negb (bool_decide (dv_ResponseKind other = ""))
    && negb (bool_decide (dv_ResponseKind other = KindInfoAvailable)) in
  {| dv_Hostname := preferString (dv_Hostname d) (dv_Hostname other);
     dv_Model := preferString (dv_Model d) (dv_Model other);
     dv_OS := preferString (dv_OS d) (dv_OS other);
     dv_OSVersion := preferString (dv_OSVersion d) (dv_OSVersion other);
     dv_Serial := preferString (dv_Serial d) (dv_Serial other);
     dv_MACAddress := if bool_decide (mac = "") then default mac (head macs) else mac;
     dv_IPAddress := default (dv_IPAddress d) (head ips);
     dv_IPv4Addresses := ips;
     dv_MACAddresses := macs;
     dv_Netmask := preferString (dv_Netmask d) (dv_Netmask other);
     dv_Gateway := preferString (dv_Gateway d) (dv_Gateway other);
     dv_DNS := preferString (dv_DNS d) (dv_DNS other);
     dv_BuildNumber := prefer_int (dv_BuildNumber d) (dv_BuildNumber other);
     dv_UpdateNumber := prefer_int (dv_UpdateNumber d) (dv_UpdateNumber other);
     dv_SupportsRAID := dv_SupportsRAID d || dv_SupportsRAID other;
     dv_State := if fuller then dv_State other else dv_State d;
     dv_ResponseKind := if fuller then dv_ResponseKind other else dv_ResponseKind d;
     dv_DedupID := dv_DedupID d |}.

Definition device_le (x y : Device) : Prop :=
  let kx := ipv4SortKey (dv_IPAddress x) in
  let ky := ipv4SortKey (dv_IPAddress y) in
  if negb (kx =? ky) then kx < ky
  else if negb (bool_decide (dv_Hostname x = dv_Hostname y))
       then String.le (dv_Hostname x) (dv_Hostname y)
       else String.le (dv_DedupID x) (dv_DedupID y).
#[global] Instance device_le_dec : RelDecision device_le.
Proof. intros x y. unfold device_le. repeat case_match; apply _. Defined.
Definition SortDevices (devices : list Device) : list Device := merge_sort device_le devices.

(** ** Packets *)

Definition headerPlain : list Z := [18; 52; 86; 120; 83; 89; 78; 79].
Definition headerEncrypted : list Z := [18; 52; 85; 102; 83; 89; 78; 79].
Definition findHostVersion : Z := 16908288.
Definition headerSize : nat := 8.
Definition maxTLVs : nat := 64.

Definition ptypeBroadcastQuery : Z := 1.
Definition ptypeBroadcastResponse : Z := 2.
Definition ptypeBroadcastJuniorResponse : Z := 6.
Definition ptypeBroadcastRecoverResponse : Z := 16.
Definition ptypeInfoAvailable : Z := 18.
Definition ptypeBroadcastQueryV2 : Z := 19.
Definition ptypeBroadcastResponseV2 : Z := 20.
Definition ptypeBroadcastJuniorRespV2 : Z := 21.

Definition idPacketType : Z := 1.
Definition idName : Z := 17.
Definition idIP : Z := 18.
Definition idNetmask : Z := 19.
Definition idGateway : Z := 20.
Definition idDNS : Z := 21.
Definition idMAC : Z := 25.
Definition idBuildNumber : Z := 73.
Definition idSupportRAID : Z := 113.
Definition idSerial : Z := 115.
Definition idDSMVersion : Z := 119.
Definition idDSMModel : Z := 120.
Definition idFirstNICMAC : Z := 162.
Definition idFindHostVer : Z := 164.
Definition idQuickConfDone : Z := 167.
Definition idCritical : Z := 144.
Definition idNewSerial : Z := 192.
Definition idOSName : Z := 193.

Inductive packet_error :=
| ErrNotFindhost
| ErrEncryptedPacket
| ErrQueryPacket
| ErrUnhandledType
| ErrMalformedType
| ErrTooManyFields
| ErrTruncatedHeader
| ErrOverrun (id length : Z).

#[global] Instance packet_error_eq_dec : EqDecision packet_error.
Proof. solve_decision. Defined.

(** The fields of a packet: the last value of each id. *)
Abbreviation fields := (gmap Z (list Z)).

Definition appendU32TLV (buf : list Z) (id value : Z) : list Z :=
  buf ++ id :: 4 :: le_bytes 4 value.

Definition BuildQuery : list Z :=
  appendU32TLV (appendU32TLV headerPlain idPacketType ptypeBroadcastQuery)
    idFindHostVer findHostVersion.

Fixpoint scan_loop (fuel : nat) (body : list Z) (fs : fields) : result packet_error fields :=
  match body with
  | [] => Ok fs
  | id :: rest =>
      match fuel with
      | O => Err ErrTooManyFields
      | S fuel =>
          match rest with
          | [] => Err ErrTruncatedHeader
          | len :: rest =>
              if Z.of_nat (length rest) <? len then Err (ErrOverrun id len)
              else scan_loop fuel (drop (Z.to_nat len) rest)
                     (<[id := take (Z.to_nat len) rest]> fs)
          end
      end
  end.
Definition scanTLVs (body : list Z) : result packet_error fields := scan_loop maxTLVs body ∅.

Definition decodeU32LE (value : list Z) : option Z :=
  if Z.of_nat (length value) =? 4 then Some (le_value value) else None.

(** The value of an absent field is the nil slice. *)
Definition field (fs : fields) (id : Z) : list Z := default [] (fs !! id).

Definition parseIPv4 (value : list Z) : string :=
  match value with
  | [a; b; c; d] =>
      if (a =? 0) && (b =? 0) && (c =? 0) && (d =? 0) then ""
      else Itoa a +:+ "." +:+ Itoa b +:+ "." +:+ Itoa c +:+ "." +:+ Itoa d
  | _ => ""
  end.

Definition trimString (value : list Z) : string :=
  TrimSpace (TrimRight1 (of_bytes value) 0).

(** [None] is [ok = false]. *)
Definition responseKind (packetType : Z) : option string :=
  if (packetType =? ptypeBroadcastResponse) || (packetType =? ptypeBroadcastResponseV2)
  then Some KindResponse
  else if (packetType =? ptypeBroadcastJuniorResponse)
          || (packetType =? ptypeBroadcastJuniorRespV2)
  then Some KindJuniorResponse
  else if packetType =? ptypeBroadcastRecoverResponse then Some KindRecoverResponse
  else if packetType =? ptypeInfoAvailable then Some KindInfoAvailable
  else None.

(** Codes 0 to 14 of [FHOSTQC_STATUS]. *)
Definition stateFromQuickConf (code : Z) : string :=
  match code with
  | 0 | 1 => StateReady
  | 2 => StateNotInstalled
  | 3 | 13 => StateInstalling
  | 4 => StateCrashed
  | 5 => StateBooting
  | 6 | 7 => StateStarting
  | 8 => StateConfiguringNetwork
  | 9 => StateMemoryTesting
  | 10 => StateNetworkTesting
  | 11 => StateRecoverable
  | 12 => StateOffline
  | 14 => StateMigratable
  | _ => StateUnknown
  end.

Definition stateFromKind (kind : string) : string :=
  if bool_decide (kind = KindResponse) then StateReady
  else if bool_decide (kind = KindJuniorResponse) then StateNotInstalled
  else if bool_decide (kind = KindRecoverResponse) then StateRecoverable
  else StateUnknown.

Definition formatOSVersion (version : string) (build update : Z) : string :=
  let result := if 0 <? build
                then if bool_decide (version = "") then Itoa build
                     else version +:+ "-" +:+ Itoa build
                else version in
  if (0 <? update) && negb (bool_decide (result = ""))
  then result +:+ " Update " +:+ Itoa update else result.

Section codec.
Context `{Unicode}.

Definition normalizeMAC (mac : string) : string :=
  if bool_decide (mac = "") then "" else
  let lower := ToLower mac in
  if bool_decide (lower = "00:00:00:00:00:00") then "" else lower.

Definition dedupID (serial firstNICMAC respondingMAC ip : string) : string :=
  if negb (bool_decide (serial = "")) then "serial:" +:+ ToLower serial
  else if negb (bool_decide (firstNICMAC = "")) then "mac:" +:+ firstNICMAC
  else if negb (bool_decide (respondingMAC = "")) then "mac:" +:+ respondingMAC
  else "ip:" +:+ ip.

Definition buildDevice (kind : string) (fs : fields) : Device :=
  let text id := trimString (field fs id) in
  let respondingMAC := normalizeMAC (text idMAC) in
  let firstNICMAC := normalizeMAC (text idFirstNICMAC) in
  let ip := parseIPv4 (field fs idIP) in
  let serial := if bool_decide (text idNewSerial = "") then text idSerial
                else text idNewSerial in
  let build := default 0 (decodeU32LE (field fs idBuildNumber)) in
  let update := default 0 (decodeU32LE (field fs idCritical)) in
  {| dv_Hostname := text idName; dv_Model := text idDSMModel; dv_OS := text idOSName;
     dv_OSVersion := formatOSVersion (text idDSMVersion) build update;
     dv_Serial := serial;
     dv_MACAddress := if bool_decide (firstNICMAC = "") then respondingMAC else firstNICMAC;
     dv_IPAddress := ip;
     dv_IPv4Addresses := if bool_decide (ip = "") then [] else [ip];
     dv_MACAddresses := if bool_decide (respondingMAC = "") then [] else [respondingMAC];
     dv_Netmask := parseIPv4 (field fs idNetmask);
     dv_Gateway := parseIPv4 (field fs idGateway);
     dv_DNS := parseIPv4 (field fs idDNS);
     dv_BuildNumber := build; dv_UpdateNumber := update;
     dv_SupportsRAID := match decodeU32LE (field fs idSupportRAID) with
                        | Some raid => negb (raid =? 0) | None => false end;
     dv_State := match decodeU32LE (field fs idQuickConfDone) with
                 | Some quickConf => stateFromQuickConf quickConf
                 | None => stateFromKind kind end;
     dv_ResponseKind := kind;
     dv_DedupID := dedupID serial firstNICMAC respondingMAC ip |}.

Definition ParseResponse (payload : list Z) : result packet_error Device :=
  if (headerSize <=? length payload)%nat
     && bool_decide (take headerSize payload = headerEncrypted)
  then Err ErrEncryptedPacket else
  if (length payload <? headerSize)%nat
     || negb (bool_decide (take headerSize payload = headerPlain))
  then Err ErrNotFindhost else
  fs ← scanTLVs (drop headerSize payload);
  match fs !! idPacketType with
  | None => Err ErrNotFindhost
  | Some b =>
      match decodeU32LE b with
      | None => Err ErrMalformedType
      | Some packetType =>
          match responseKind packetType with
          | Some kind => Ok (buildDevice kind fs)
          | None =>
              if (packetType =? ptypeBroadcastQuery) || (packetType =? ptypeBroadcastQueryV2)
              then Err ErrQueryPacket else Err ErrUnhandledType
          end
      end
  end.
End codec.
