(* ===== verification/Compat.v ===== *)
(** * Compatibility targets and operation selection

    Source: internal/synology/compatibility/target.go and selector.go.  A [Target] is what
    was discovered on a NAS; an operation is a list of variants, each with a matcher over
    the target; [Select] picks the matching variant of highest priority.  Values of the
    two regular expressions are computed by hand-written matchers with the same leftmost
    match.  Maps of a target are finite maps and sets, a nil map being empty. *)

From S2P Require Import Prelude.
From S2P Require Import GoStrings.

(** ** Versions *)

Record APIInfo := {
  api_Path : string;
  api_MinVersion : Z;
  api_MaxVersion : Z;
  api_RequestFormat : string
}.

Definition Supports (info : APIInfo) (version : Z) : bool :=
  (api_MinVersion info <=? version) && (version <=? api_MaxVersion info).

Record DSMVersion := {
  ds_Raw : string;
  ds_Major : Z;
  ds_Minor : Z;
  ds_Patch : Z;
  ds_Build : Z
}.

(** The maximal run of digits at the head, and the rest. *)
Fixpoint span_digits (l : list Z) : list Z * list Z :=
  match l with
  | a :: l' =>
      if is_digit a then let '(d, r) := span_digits l' in (a :: d, r) else ([], l)
  | [] => ([], [])
  end.

(** [(?:<sep>(\d+))?]: the digits of an optional group. *)
Definition optional_group (sep : Z) (l : list Z) : list Z * list Z :=
  match l with
  | a :: l' =>
      if a =? sep then
        let '(d, r) := span_digits l' in
        match d with [] => ([], l) | _ => (d, r) end
      else ([], l)
  | [] => ([], [])
  end.

(** [(\d+)\.(\d+)(?:\.(\d+))?(?:-(\d+))?] at the head of the text. *)
Definition match_version (l : list Z) : option (list Z * list Z * list Z * list Z) :=
  let '(major, r) := span_digits l in
  match major, r with
  | _ :: _, dot :: r =>
      if dot =? 46 then
        let '(minor, r) := span_digits r in
        match minor with
        | [] => None
        | _ =>
            let '(patch, r) := optional_group 46 r in
            let '(build, _) := optional_group 45 r in
            Some (major, minor, patch, build)
        end
      else None
  | _, _ => None
  end.

(** The leftmost match; the optional prefix of the pattern does not change the groups. *)
Fixpoint find_version (l : list Z) : option (list Z * list Z * list Z * list Z) :=
  match match_version l with
  | Some g => Some g
  | None => match l with [] => None | _ :: l' => find_version l' end
  end.

(** [n, _ := strconv.Atoi(s)] on digits: 0 for no digits, the largest integer when out of
    range. *)
Definition atoi_ignore (l : list Z) : Z :=
  match unsigned_value l with None => 0 | Some v => Z.min v maxInt64 end.

Definition ParseDSMVersion (value : string) : DSMVersion :=
  match find_version (bytes value) with
  | None => {| ds_Raw := TrimSpace value; ds_Major := 0; ds_Minor := 0; ds_Patch := 0;
               ds_Build := 0 |}
  | Some (major, minor, patch, build) =>
      {| ds_Raw := TrimSpace value; ds_Major := atoi_ignore major;
         ds_Minor := atoi_ignore minor; ds_Patch := atoi_ignore patch;
         ds_Build := atoi_ignore build |}
  end.

Definition dsm_Known (v : DSMVersion) : bool := 0 <? ds_Major v.

(** The loop over the components: -1, 0 or 1. *)
Fixpoint compare_loop (l r : list Z) : Z :=
  match l, r with
  | x :: l, y :: r =>
      if x <? y then -1 else if y <? x then 1 else compare_loop l r
  | _, _ => 0
  end.

Definition dsm_components (v : DSMVersion) : list Z :=
  [ds_Major v; ds_Minor v; ds_Patch v; ds_Build v].
Definition dsm_Compare (v other : DSMVersion) : Z :=
  compare_loop (dsm_components v) (dsm_components other).

Definition dsm_String (v : DSMVersion) : string :=
  if negb (bool_decide (ds_Raw v = "")) then ds_Raw v
  else if negb (dsm_Known v) then "unknown"
  else "DSM " +:+ Itoa (ds_Major v) +:+ "." +:+ Itoa (ds_Minor v) +:+ "."
       +:+ Itoa (ds_Patch v)
       +:+ (if 0 <? ds_Build v then "-" +:+ Itoa (ds_Build v) else "").

Record PackageVersion := { pv_Raw : string; pv_segments : list Z }.

(** [\d+] FindAll: the maximal runs of digits. *)
Definition digit_runs (l : list Z) : list (list Z) :=
  FieldsFunc (fun a => negb (is_digit a)) l.

Definition ParsePackageVersion (value : string) : PackageVersion :=
  let raw := TrimSpace value in
  match mapM Atoi_bytes (digit_runs (bytes raw)) with
  | Some segments => {| pv_Raw := raw; pv_segments := segments |}
  | None => {| pv_Raw := raw; pv_segments := [] |}
  end.

Definition pkg_Known (v : PackageVersion) : bool := negb (bool_decide (pv_segments v = [])).

(** Missing segments count as zero. *)
Fixpoint compare_segments (fuel : nat) (l r : list Z) : Z :=
  match fuel with
  | O => 0
  | S fuel =>
      let x := default 0 (head l) in
      let y := default 0 (head r) in
      if x <? y then -1 else if y <? x then 1
      else compare_segments fuel (tail l) (tail r)
  end.
Definition pkg_Compare (v other : PackageVersion) : Z :=
  compare_segments (length (pv_segments v) `max` length (pv_segments other))
    (pv_segments v) (pv_segments other).

Definition pkg_String (v : PackageVersion) : string :=
  if negb (bool_decide (pv_Raw v = "")) then pv_Raw v else "unknown".

(** ** Targets *)

Record InstalledPackage := {
  ip_ID : string;
  ip_Version : PackageVersion;
  ip_Running : bool
}.

Record Target := {
  ta_DSM : DSMVersion;
  ta_APIs : gmap string APIInfo;
  ta_capabilities : gset string;
  ta_quirks : gset string;
  ta_packages : gmap string InstalledPackage;
  ta_packagesKnown : bool
}.

Definition NewTarget : Target := {|
  ta_DSM := {| ds_Raw := ""; ds_Major := 0; ds_Minor := 0; ds_Patch := 0; ds_Build := 0 |};
  ta_APIs := ∅; ta_capabilities := ∅; ta_quirks := ∅; ta_packages := ∅;
  ta_packagesKnown := false |}.

Definition API (t : Target) (name : string) : option APIInfo := ta_APIs t !! name.

Definition SupportsAPI (t : Target) (name : string) (version : Z) : bool :=
  match API t name with Some info => Supports info version | None => false end.

Definition SetAPI (name : string) (info : APIInfo) (t : Target) : Target := {|
  ta_DSM := ta_DSM t; ta_APIs := <[name := info]> (ta_APIs t);
  ta_capabilities := ta_capabilities t; ta_quirks := ta_quirks t;
  ta_packages := ta_packages t; ta_packagesKnown := ta_packagesKnown t |}.

Definition AddCapability (name : string) (t : Target) : Target := {|
  ta_DSM := ta_DSM t; ta_APIs := ta_APIs t;
  ta_capabilities := {[name]} ∪ ta_capabilities t; ta_quirks := ta_quirks t;
  ta_packages := ta_packages t; ta_packagesKnown := ta_packagesKnown t |}.

Definition HasCapability (t : Target) (name : string) : bool :=
  bool_decide (name ∈ ta_capabilities t).

Definition AddQuirk (name : string) (t : Target) : Target := {|
  ta_DSM := ta_DSM t; ta_APIs := ta_APIs t; ta_capabilities := ta_capabilities t;
  ta_quirks := {[name]} ∪ ta_quirks t;
  ta_packages := ta_packages t; ta_packagesKnown := ta_packagesKnown t |}.

Definition HasQuirk (t : Target) (name : string) : bool := bool_decide (name ∈ ta_quirks t).

Definition package_step (m : gmap string InstalledPackage) (e : InstalledPackage) :
    gmap string InstalledPackage :=
  let id := TrimSpace (ip_ID e) in
  if bool_decide (id = "") then m
  else <[id := {| ip_ID := id; ip_Version := ip_Version e; ip_Running := ip_Running e |}]> m.

Definition SetInstalledPackages (packages : list InstalledPackage) (t : Target) : Target := {|
  ta_DSM := ta_DSM t; ta_APIs := ta_APIs t; ta_capabilities := ta_capabilities t;
  ta_quirks := ta_quirks t; ta_packages := fold_left package_step packages ∅;
  ta_packagesKnown := true |}.

Definition GetInstalledPackage (t : Target) (id : string) : option InstalledPackage :=
  ta_packages t !! id.
Definition PackageCatalogKnown (t : Target) : bool := ta_packagesKnown t.

(** ** Matchers *)

Definition Matcher := Target → bool * string.

Definition APIVersion (name : string) (version : Z) : Matcher := fun t =>
  match API t name with
  | None => (false, "API " +:+ name +:+ " was not discovered")
  | Some info =>
      if negb (Supports info version)
      then (false, "API " +:+ name +:+ " supports versions " +:+ Itoa (api_MinVersion info)
                   +:+ "-" +:+ Itoa (api_MaxVersion info) +:+ ", not v" +:+ Itoa version)
      else (true, "API " +:+ name +:+ " advertises support for v" +:+ Itoa version)
  end.

Definition Capability (name : string) : Matcher := fun t =>
  if negb (HasCapability t name)
  then (false, "capability " +:+ name +:+ " was not discovered")
  else (true, "capability " +:+ name +:+ " is available").

Definition DSMVersionRange (minimum maximum : DSMVersion) : Matcher := fun t =>
  if negb (dsm_Known (ta_DSM t)) then (false, "DSM release is not known")
  else if dsm_Known minimum && (dsm_Compare (ta_DSM t) minimum <? 0)
  then (false, "DSM " +:+ dsm_String (ta_DSM t) +:+ " is below the minimum "
               +:+ dsm_String minimum)
  else if dsm_Known maximum && (0 <=? dsm_Compare (ta_DSM t) maximum)
  then (false, "DSM " +:+ dsm_String (ta_DSM t)
               +:+ " is at or above the exclusive maximum " +:+ dsm_String maximum)
  else (true, "DSM " +:+ dsm_String (ta_DSM t) +:+ " is in the required release range").

Definition catalog_unknown : string :=
  "installed-package catalog was not loaded for this target".

Definition PackageInstalled (id : string) : Matcher := fun t =>
  if negb (PackageCatalogKnown t) then (false, catalog_unknown) else
  match GetInstalledPackage t id with
  | None => (false, "package " +:+ id +:+ " is not installed")
  | Some e => (true, "package " +:+ id +:+ " " +:+ pkg_String (ip_Version e)
                     +:+ " is installed")
  end.

Definition PackageVersionRange (id : string) (minimum maximum : PackageVersion) : Matcher :=
  fun t =>
  if negb (PackageCatalogKnown t) then (false, catalog_unknown) else
  match GetInstalledPackage t id with
  | None => (false, "package " +:+ id +:+ " is not installed")
  | Some e =>
      let v := ip_Version e in
      if negb (pkg_Known v) then (false, "package " +:+ id +:+ " reports no parseable version")
      else if pkg_Known minimum && (pkg_Compare v minimum <? 0)
      then (false, "package " +:+ id +:+ " " +:+ pkg_String v +:+ " is below the minimum "
                   +:+ pkg_String minimum)
      else if pkg_Known maximum && (0 <=? pkg_Compare v maximum)
      then (false, "package " +:+ id +:+ " " +:+ pkg_String v
                   +:+ " is at or above the exclusive maximum " +:+ pkg_String maximum)
      else (true, "package " +:+ id +:+ " " +:+ pkg_String v
                  +:+ " is in the required version range")
  end.

(** The loop of [All]: a nil matcher is skipped, the first refusal is the answer. *)
Fixpoint all_loop (matchers : list (option Matcher)) (t : Target) (reasons : list string) :
    bool * string :=
  match matchers with
  | [] => (true, Join (reverse reasons) "; ")
  | None :: ms => all_loop ms t reasons
  | Some m :: ms =>
      let '(matched, reason) := m t in
      if negb matched then (false, reason)
      else all_loop ms t (if bool_decide (reason = "") then reasons else reason :: reasons)
  end.
Definition All (matchers : list (option Matcher)) : Matcher := fun t => all_loop matchers t [].

(** ** Selecting a variant *)

(** The zero values of [API] and [Version] are used by some variants; [X] is the type of
    [Execute]. *)
Record Variant (X : Type) := {
  va_Name : string;
  va_API : string;
  va_Version : Z;
  va_Priority : Z;
  va_Match : option Matcher;
  va_Execute : option X
}.
Arguments va_Name {_} _.
Arguments va_API {_} _.
Arguments va_Version {_} _.
Arguments va_Priority {_} _.
Arguments va_Match {_} _.
Arguments va_Execute {_} _.

Record Operation (X : Type) := { op_Name : string; op_Variants : list (Variant X) }.
Arguments op_Name {_} _.
Arguments op_Variants {_} _.

Record Selection := {
  sl_Operation : string;
  sl_Supported : bool;
  sl_Backend : string;
  sl_API : string;
  sl_Version : Z;
  sl_Reason : string
}.

Inductive select_error :=
| UnsupportedOperation (operation : string)
| AmbiguousVariants (operation first second : string) (priority : Z).

Section select.
Context {X : Type}.

Definition APINames (op : Operation X) : list string :=
  sort_strings (dedup (base.filter (fun n => n ≠ "") (va_API <$> op_Variants op))).

(** What matching the candidate gives; [None] for an incomplete variant. *)
Definition candidate_match (t : Target) (v : Variant X) : option (bool * string) :=
  match va_Match v, va_Execute v with
  | Some m, Some _ => if bool_decide (va_Name v = "") then None else Some (m t)
  | _, _ => None
  end.

(** The loop: the variant selected so far with its reason, and the mismatches. *)
Fixpoint select_loop (opName : string) (t : Target) (vs : list (Variant X))
    (selected : option (Variant X * string)) (mismatches : list string) :
    sum select_error (option (Variant X * string) * list string) :=
  match vs with
  | [] => inr (selected, mismatches)
  | v :: vs =>
      match candidate_match t v with
      | None => select_loop opName t vs selected mismatches
      | Some (false, reason) =>
          select_loop opName t vs selected
            (if bool_decide (reason = "") then mismatches
             else mismatches ++ [va_Name v +:+ ": " +:+ reason])
      | Some (true, reason) =>
          match selected with
          | None => select_loop opName t vs (Some (v, reason)) mismatches
          | Some (s, _) =>
              if va_Priority v =? va_Priority s
              then inl (AmbiguousVariants opName (va_Name s) (va_Name v) (va_Priority v))
              else if va_Priority s <? va_Priority v
              then select_loop opName t vs (Some (v, reason)) mismatches
              else select_loop opName t vs selected mismatches
          end
      end
  end.

Definition unsupported_selection (name : string) (mismatches : list string) : Selection := {|
  sl_Operation := name; sl_Supported := false; sl_Backend := ""; sl_API := "";
  sl_Version := 0;
  sl_Reason := "no compatible implementation matched the discovered target"
    +:+ (match mismatches with [] => "" | _ => ": " +:+ Join mismatches "; " end) |}.

Definition zero_selection : Selection := {|
  sl_Operation := ""; sl_Supported := false; sl_Backend := ""; sl_API := "";
  sl_Version := 0; sl_Reason := "" |}.

(** The selection is returned with the error when the operation is unsupported. *)
Definition Select (op : Operation X) (t : Target) :
    sum select_error (Variant X) * Selection :=
  match select_loop (op_Name op) t (op_Variants op) None [] with
  | inl e => (inl e, zero_selection)
  | inr (None, mismatches) =>
      (inl (UnsupportedOperation (op_Name op)),
       unsupported_selection (op_Name op) mismatches)
  | inr (Some (v, reason), _) =>
      (inr v, {| sl_Operation := op_Name op; sl_Supported := true;
                 sl_Backend := va_Name v; sl_API := va_API v;
                 sl_Version := va_Version v; sl_Reason := reason |})
  end.
End select.

(** [Operation.Run]: execute the selected variant in the state of the executor; the error of
    the execution is wrapped. *)
Inductive run_error (E : Type) := RunSelect (e : select_error) | RunExecute (e : E).
Arguments RunSelect {_} _.
Arguments RunExecute {_} _.
Definition Run {S I O E} (op : Operation (I → ST S E O)) (t : Target) (input : I) (s : S) :
    result (run_error E) O * Selection * S :=
  let '(r, selection) := Select op t in
  match r with
  | inl e => (Err (RunSelect e), selection, s)
  | inr v =>
      match va_Execute v with
      | None => (Err (RunSelect (UnsupportedOperation (op_Name op))), selection, s)
      | Some execute =>
          match execute input s with
          | (Err e, s) => (Err (RunExecute e), selection, s)
          | (Ok o, s) => (Ok o, selection, s)
          end
      end
  end.
