(* ===== verification/Json.v ===== *)
(** * Package encoding/json, on values

    A JSON text is represented by the value it denotes: an object is the list of its
    members in the order of the text, a number is its literal ([json.Number]).  A Go value
    of type [any] that was decoded with [UseNumber] is such a value, a [map[string]any]
    its object: the last member of a key is the one the map holds.  A [json.RawMessage]
    is [None] when it is empty, so that decoding it is an error.

    The second part decodes into the fields of a Go struct: a key matches a field up to
    letter case, members are assigned in order, [null] leaves a field as it is, and a value
    of another type makes the whole decoding fail. *)

From S2P Require Import Prelude.
From S2P Require Import GoStrings.

(** ** Values *)

Inductive json : Type :=
| JNull
| JBool (b : bool)
| JNumber (literal : string)
| JString (s : string)
| JArray (l : list json)
| JObject (m : list (string * json)).

Abbreviation object := (list (string * json)).
Abbreviation RawMessage := (option json).

(** [values[key]]: the last member named [key]. *)
Fixpoint obj_get (m : object) (key : string) : option json :=
  match m with
  | [] => None
  | (k, v) :: m =>
      match obj_get m key with
      | Some v' => Some v'
      | None => if bool_decide (k = key) then Some v else None
      end
  end.

(** [values[key] = v]: the position of a key is irrelevant in a Go map. *)
Fixpoint obj_set (m : object) (key : string) (v : json) : object :=
  match m with
  | [] => [(key, v)]
  | (k, w) :: m =>
      if bool_decide (k = key) then (key, v) :: m else (k, w) :: obj_set m key v
  end.

(** The keys of the map, each once. *)
Definition obj_keys (m : object) : list string := dedup (fst <$> m).

(** [json.Number.Int64] and the decoding of a literal into an [int]. *)
Definition number_int (literal : string) : option Z := Atoi literal.

(** ** Decoding into struct fields *)

Section fields.
Context `{Unicode}.

(** The members whose key names the field, in order. *)
Definition field_values (m : object) (field : string) : list json :=
  snd <$> base.filter (fun '(k, _) => EqualFold k field = true) m.

(** Assign the values to a field in order, from its zero value. *)
Fixpoint assign {A} (f : json → option A) (cur : A) (l : list json) : option A :=
  match l with
  | [] => Some cur
  | JNull :: l => assign f cur l
  | v :: l => a ← f v; assign f a l
  end.

Definition as_string (v : json) : option string :=
  match v with JString s => Some s | _ => None end.
Definition as_bool (v : json) : option bool :=
  match v with JBool b => Some b | _ => None end.
Definition as_int (v : json) : option Z :=
  match v with JNumber n => number_int n | _ => None end.

Definition string_field (m : object) (field : string) : option string :=
  assign as_string "" (field_values m field).
Definition bool_field (m : object) (field : string) : option bool :=
  assign as_bool false (field_values m field).
Definition int_field (m : object) (field : string) : option Z :=
  assign as_int 0 (field_values m field).

(** An unsigned literal: digits only. *)
Definition number_uint (literal : string) : option Z :=
  v ← unsigned_value (bytes literal); if v <? 2 ^ 64 then Some v else None.
Definition as_uint (v : json) : option Z :=
  match v with JNumber n => number_uint n | _ => None end.
Definition uint_field (m : object) (field : string) : option Z :=
  assign as_uint 0 (field_values m field).

(** A member of struct type: the members of its objects, in order; [null] adds none. *)
Definition object_field (m : object) (field : string) : option object :=
  @concat _ <$> mapM (fun v => match v with
                            | JNull => Some []
                            | JObject m => Some m
                            | _ => None
                            end) (field_values m field).

(** The elements of an array decoded over the slice [cur]: a [null] element leaves the
    one that is there. *)
Fixpoint merge_strings (cur : list string) (l : list json) : option (list string) :=
  match l with
  | [] => Some []
  | v :: l =>
      s ← match v with
          | JNull => Some (default "" (head cur))
          | _ => as_string v
          end;
      rest ← merge_strings (tail cur) l;
      Some (s :: rest)
  end.

(** A member of type [[]string]; [null] makes it nil. *)
Fixpoint assign_strings (cur : list string) (l : list json) : option (list string) :=
  match l with
  | [] => Some cur
  | JNull :: l => assign_strings [] l
  | JArray a :: l => cur ← merge_strings cur a; assign_strings cur l
  | _ => None
  end.
Definition strings_field (m : object) (field : string) : option (list string) :=
  assign_strings [] (field_values m field).
End fields.

(** ** Lemmas *)

Lemma obj_get_app m m' key :
  obj_get (m ++ m') key =
  match obj_get m' key with Some v => Some v | None => obj_get m key end.
Proof.
  induction m as [|[k v] m IH]; simpl; [by destruct (obj_get m' key)|].
  rewrite IH. by destruct (obj_get m' key).
Qed.

Lemma obj_get_None m key : obj_get m key = None ↔ key ∉ m.*1.
Proof.
  induction m as [|[k v] m IH]; simpl.
  - split; [|done]. intros _ []%elem_of_nil.
  - rewrite not_elem_of_cons. destruct (obj_get m key) eqn:E.
    + split; [done|]. intros [_ Hn]. apply IH in Hn. done.
    + case_bool_decide; [naive_solver|]. rewrite <- IH. naive_solver.
Qed.

Lemma obj_get_cons_eq k v m : obj_get m k = None → obj_get ((k, v) :: m) k = Some v.
Proof. simpl. intros ->. by rewrite bool_decide_true. Qed.

Lemma obj_get_cons_ne k k' v m : k ≠ k' → obj_get ((k, v) :: m) k' = obj_get m k'.
Proof. simpl. intros. rewrite bool_decide_false by done. by destruct (obj_get m k'). Qed.

(** A setting of a fresh key is a new member. *)
Lemma obj_set_fresh m key v : key ∉ m.*1 → obj_set m key v = m ++ [(key, v)].
Proof.
  induction m as [|[k w] m IH]; simpl; [done|].
  rewrite not_elem_of_cons. intros [? ?].
  rewrite bool_decide_false by done. by rewrite IH.
Qed.

Lemma obj_set_keys m key v : (obj_set m key v).*1 = if decide (key ∈ m.*1)
  then m.*1 else m.*1 ++ [key].
Proof.
  induction m as [|[k w] m IH]; [done|]. cbn [obj_set fmap list_fmap fst].
  case_bool_decide as Hk; [subst; by rewrite decide_True by (by left)|].
  cbn [fmap list_fmap fst]. rewrite IH. destruct (decide (key ∈ m.*1)).
  - by rewrite decide_True by (by right).
  - by rewrite decide_False by (by rewrite not_elem_of_cons).
Qed.

(** The laws of a Go map; keys stay distinct. *)
Lemma obj_get_set_eq m key v : NoDup m.*1 → obj_get (obj_set m key v) key = Some v.
Proof.
  induction m as [|[k w] m IH]; cbn [obj_set fmap list_fmap fst].
  { intros _. by rewrite obj_get_cons_eq. }
  rewrite NoDup_cons. intros [Hk Hm]. case_bool_decide as Hkey; subst.
  - apply obj_get_cons_eq. by apply obj_get_None.
  - rewrite obj_get_cons_ne by done. auto.
Qed.

Lemma obj_get_set_ne m key key' v :
  key ≠ key' → obj_get (obj_set m key v) key' = obj_get m key'.
Proof.
  intros Hne. induction m as [|[k w] m IH]; cbn [obj_set].
  { by rewrite obj_get_cons_ne. }
  case_bool_decide; subst; [by rewrite !obj_get_cons_ne|].
  cbn [obj_get]. by rewrite IH.
Qed.

Lemma obj_set_NoDup m key v : NoDup m.*1 → NoDup (obj_set m key v).*1.
Proof.
  intros. rewrite obj_set_keys. case_decide as Hk; [done|].
  apply NoDup_app. split; [done|]. split; [|apply NoDup_singleton].
  intros x Hx ->%list_elem_of_singleton. done.
Qed.
