(* ===== verification/DsmErrors.v ===== *)
(** * Errors of the DSM client and their categories

    Source: internal/synology/errors.go and category.go.  An error value is a chain: a
    message that wraps a cause, ended by a typed error or by an opaque one.  [errors.As]
    for a type is the first error of that type along the chain. *)

From S2P Require Import Prelude.
From S2P Require Import GoStrings.
From S2P Require Import Compat.

(** ** Errors *)

Inductive Category :=
| CategoryAuth | CategoryPermission | CategoryNotFound | CategoryConflict
| CategoryRateLimit | CategoryTransient | CategoryUnsupported | CategoryInvalidInput
| CategoryUnknown.

#[global] Instance Category_eq_dec : EqDecision Category.
Proof. solve_decision. Defined.

Record APIError := { ae_API : string; ae_Method : string; ae_Code : Z }.

Inductive dsm_error : Type :=
| EAPI (e : APIError)
| EHTTP (status : Z) (category : Category)
| ESessionExpired (nas : string) (cause : dsm_error)
| EOTPRequired (cause : dsm_error)
| EContext
| ESelect (e : select_error)
| EWrap (msg : string) (cause : dsm_error)
| EMsg (msg : string).

#[global] Instance APIError_eq_dec : EqDecision APIError.
Proof. solve_decision. Defined.

(** [errors.As] into [*APIError]. *)
Fixpoint as_api_error (e : dsm_error) : option APIError :=
  match e with
  | EAPI a => Some a
  | ESessionExpired _ c | EOTPRequired c | EWrap _ c => as_api_error c
  | _ => None
  end.

(** [errors.As] into [*HTTPError]: its category. *)
Fixpoint as_http_error (e : dsm_error) : option Category :=
  match e with
  | EHTTP _ c => Some c
  | ESessionExpired _ c | EOTPRequired c | EWrap _ c => as_http_error c
  | _ => None
  end.

Fixpoint IsSessionExpired (e : dsm_error) : bool :=
  match e with
  | ESessionExpired _ _ => true
  | EOTPRequired c | EWrap _ c => IsSessionExpired c
  | _ => false
  end.

Fixpoint IsOTPRequired (e : dsm_error) : bool :=
  match e with
  | EOTPRequired _ => true
  | ESessionExpired _ c | EWrap _ c => IsOTPRequired c
  | _ => false
  end.

Fixpoint IsUnsupported (e : dsm_error) : bool :=
  match e with
  | ESelect (UnsupportedOperation _) => true
  | ESessionExpired _ c | EOTPRequired c | EWrap _ c => IsUnsupported c
  | _ => false
  end.

Definition APIErrorCode (e : dsm_error) : option Z := ae_Code <$> as_api_error e.

Definition code_in (e : dsm_error) (codes : list Z) : bool :=
  match as_api_error e with
  | Some a => bool_decide (ae_Code a ∈ codes)
  | None => false
  end.

Definition isSessionError (e : dsm_error) : bool := code_in e [106; 107; 119].
Definition isOTPChallenge (e : dsm_error) : bool := code_in e [403; 406].
Definition isInvalidOTP (e : dsm_error) : bool := code_in e [404].

(** ** Categories *)

Definition categoryByCode : list (Z * Category) :=
  [(101, CategoryInvalidInput); (102, CategoryNotFound); (103, CategoryNotFound);
   (104, CategoryUnsupported); (105, CategoryPermission); (106, CategoryAuth);
   (107, CategoryAuth); (108, CategoryPermission); (114, CategoryInvalidInput);
   (119, CategoryAuth); (120, CategoryInvalidInput); (400, CategoryAuth);
   (401, CategoryAuth); (402, CategoryPermission); (403, CategoryAuth);
   (404, CategoryAuth); (406, CategoryAuth); (407, CategoryPermission)].

Definition api_Category (a : APIError) : Category :=
  match find_first (fun '(c, _) => c =? ae_Code a) categoryByCode with
  | Some (_, category) => category
  | None => CategoryUnknown
  end.

Definition Classify (e : dsm_error) : Category :=
  if IsSessionExpired e then CategoryAuth
  else if IsOTPRequired e then CategoryAuth
  else match as_api_error e with
       | Some a => api_Category a
       | None =>
           match as_http_error e with
           | Some c => c
           | None => CategoryUnknown
           end
       end.

Definition isRetryable (e : dsm_error) : bool :=
  match Classify e with
  | CategoryTransient | CategoryRateLimit => true
  | _ => false
  end.

(** ** Lemmas *)

(** DSM's own answers are never retried: no code of the table is transient. *)
Lemma api_not_retryable e a : as_api_error e = Some a → isRetryable e = false.
Proof.
  unfold isRetryable, Classify. intros ->.
  destruct (IsSessionExpired e); [done|]. destruct (IsOTPRequired e); [done|].
  unfold api_Category.
  destruct (find_first _ categoryByCode) as [[c cat]|] eqn:E; [|done].
  apply find_first_Some in E as [Hin _].
  unfold categoryByCode in Hin. by repeat (apply elem_of_cons in Hin as [[= -> ->]|Hin]; [done|]);
    apply elem_of_nil in Hin.
Qed.

Lemma code_in_api e codes :
  code_in e codes = true → ∃ a, as_api_error e = Some a ∧ ae_Code a ∈ codes.
Proof.
  unfold code_in. destruct (as_api_error e) as [a|]; [|done].
  intros ?%bool_decide_eq_true. eauto.
Qed.

Lemma code_in_not_retryable e codes : code_in e codes = true → isRetryable e = false.
Proof. intros (a & Ha & _)%code_in_api. by eapply api_not_retryable. Qed.
