(* ===== verification/DsmClient.v ===== *)
(** * The DSM WebAPI client

    Source: internal/synology/client.go, system.go, encryption.go, the target preparation of
    compatibility_report.go and operations/systeminfo.  A client holds a DSM session, the
    APIs it has discovered and the credentials to sign in again; every method runs under
    the client's mutex, so a method is one transition of the client's state.

    The NAS behind the HTTP transport, the clock, the random source, the context and the
    callbacks of [Options] are the class [Network], over a state [W] of everything outside
    the client.  The log of the exchanges with the NAS is an observation of the model.
    A JSON parameter is its value; [http.NewRequestWithContext] does not fail, the URL
    being built from a parsed one. *)

From S2P Require Import Prelude.
From S2P Require Import GoStrings.
From S2P Require Import Compat.
From S2P Require Import Json.
From S2P Require Import DsmErrors.

Definition authAPI : string := "SYNO.API.Auth".
Definition maxOTPAttempts : nat := 3.
Definition dsmctlSession : string := "DSMCTL".
Definition encryptionAPIName : string := "SYNO.API.Encryption".
Definition capabilityAuthSession : string := "auth.session".
Definition capabilityAuthSynoToken : string := "auth.syno_token".
Definition capabilityAuthTrustedDevice : string := "auth.trusted_device".
Definition quirkSessionCookieHeader : string := "transport.session_cookie_and_token_header".

(** ** Requests *)

(** A form value: a text, or the text of a JSON value. *)
Inductive param := Text (s : string) | Encoded (v : json).

(** [url.Values] *)
Abbreviation Values := (gmap string (list param)).

Definition form (l : list (string * string)) : Values :=
  list_to_map ((fun '(k, v) => (k, [Text v])) <$> l).
Definition vset (k : string) (v : param) (f : Values) : Values := <[k := [v]]> f.

(** [compatibility.Request] *)
Record Request := {
  rq_API : string;
  rq_Version : Z;
  rq_Method : string;
  rq_Parameters : Values;
  rq_JSONParameters : option object;
  rq_EncryptedParameters : list string;
  rq_ReadOnly : bool
}.

(** What a POST carries: the path under /webapi/, the form, the cookie [id] and the token
    header; the API and the method label errors and log lines. *)
Record Post := {
  po_Path : string;
  po_Params : Values;
  po_Cookie : string;
  po_Token : string;
  po_API : string;
  po_Method : string
}.

(** The outcome of [httpClient.Do]: an error, with [ctx.Err() != nil] after it, or a status
    and the JSON value of the body, [None] when it does not decode. *)
Inductive answer :=
| Failed (cancelled : bool)
| Answered (status : Z) (body : option json).

Record encryptionInfo := {
  ei_CipherKey : string;
  ei_CipherToken : string;
  ei_PublicKey : string;
  ei_ServerTime : Z
}.

Class Network (W : Type) := {
  net_Do : Post → W → answer * W;
  net_Now : W → Z;
  (** [rand.Int63n] *)
  net_Int63n : Z → W → Z * W;
  (** [ctx.Err() != nil] *)
  net_ctx_done : W → bool;
  (** wait for the timer or the context: false when the context ends first *)
  net_timer : Z → W → bool * W;
  cb_otp : option (W → result dsm_error string * W);
  cb_saveDeviceID : option (string → W → option dsm_error * W);
  cb_resume : option (W → result dsm_error (string * string) * W);
  cb_saveSession : option (string → string → W → option dsm_error * W);
  cb_passwordFunc : option (W → result dsm_error string * W);
  (** the capabilities that the operations of the other domains derive from a target *)
  op_capabilities : Target → list string;
  (** [encryptDSMFields] with [rand.Reader], the JSON of the bundle *)
  encryptDSMFields : encryptionInfo → list (string * json) → W → result dsm_error json * W
}.

(** ** State *)

Record retryPolicy := {
  rp_MaxAttempts : Z;
  rp_BaseDelay : Z;
  rp_MaxDelay : Z;
  rp_Budget : Z
}.

(** Durations are in nanoseconds. *)
Definition defaultRetryPolicy : retryPolicy := {|
  rp_MaxAttempts := 3; rp_BaseDelay := 200000000; rp_MaxDelay := 2000000000;
  rp_Budget := 8000000000 |}.

Record Client := {
  cl_Scheme : string;
  cl_Port : string;
  cl_username : string;
  cl_password : string;
  cl_deviceName : string;
  cl_deviceID : string;
  cl_preserveSession : bool;
  cl_retry : retryPolicy;
  cl_target : Target;
  cl_apiChecked : gset string;
  cl_sid : string;
  cl_synoToken : string
}.

Definition set_session (sid token : string) (c : Client) : Client := {|
  cl_Scheme := cl_Scheme c; cl_Port := cl_Port c; cl_username := cl_username c;
  cl_password := cl_password c; cl_deviceName := cl_deviceName c;
  cl_deviceID := cl_deviceID c; cl_preserveSession := cl_preserveSession c;
  cl_retry := cl_retry c; cl_target := cl_target c; cl_apiChecked := cl_apiChecked c;
  cl_sid := sid; cl_synoToken := token |}.

Definition set_password (p : string) (c : Client) : Client := {|
  cl_Scheme := cl_Scheme c; cl_Port := cl_Port c; cl_username := cl_username c;
  cl_password := p; cl_deviceName := cl_deviceName c;
  cl_deviceID := cl_deviceID c; cl_preserveSession := cl_preserveSession c;
  cl_retry := cl_retry c; cl_target := cl_target c; cl_apiChecked := cl_apiChecked c;
  cl_sid := cl_sid c; cl_synoToken := cl_synoToken c |}.

Definition set_deviceID (d : string) (c : Client) : Client := {|
  cl_Scheme := cl_Scheme c; cl_Port := cl_Port c; cl_username := cl_username c;
  cl_password := cl_password c; cl_deviceName := cl_deviceName c;
  cl_deviceID := d; cl_preserveSession := cl_preserveSession c;
  cl_retry := cl_retry c; cl_target := cl_target c; cl_apiChecked := cl_apiChecked c;
  cl_sid := cl_sid c; cl_synoToken := cl_synoToken c |}.

Definition set_target (t : Target) (c : Client) : Client := {|
  cl_Scheme := cl_Scheme c; cl_Port := cl_Port c; cl_username := cl_username c;
  cl_password := cl_password c; cl_deviceName := cl_deviceName c;
  cl_deviceID := cl_deviceID c; cl_preserveSession := cl_preserveSession c;
  cl_retry := cl_retry c; cl_target := t; cl_apiChecked := cl_apiChecked c;
  cl_sid := cl_sid c; cl_synoToken := cl_synoToken c |}.

Definition mark_checked (name : string) (c : Client) : Client := {|
  cl_Scheme := cl_Scheme c; cl_Port := cl_Port c; cl_username := cl_username c;
  cl_password := cl_password c; cl_deviceName := cl_deviceName c;
  cl_deviceID := cl_deviceID c; cl_preserveSession := cl_preserveSession c;
  cl_retry := cl_retry c; cl_target := cl_target c;
  cl_apiChecked := {[name]} ∪ cl_apiChecked c;
  cl_sid := cl_sid c; cl_synoToken := cl_synoToken c |}.

Definition set_DSM (v : DSMVersion) (t : Target) : Target := {|
  ta_DSM := v; ta_APIs := ta_APIs t; ta_capabilities := ta_capabilities t;
  ta_quirks := ta_quirks t; ta_packages := ta_packages t;
  ta_packagesKnown := ta_packagesKnown t |}.

(** One exchange with the NAS. *)
Abbreviation exchange := (prod Post answer).

Record dstate (W : Type) := {
  dc_client : Client;
  dc_world : W;
  dc_log : list exchange
}.
Arguments Build_dstate {_} _ _ _.
Arguments dc_client {_} _.
Arguments dc_world {_} _.
Arguments dc_log {_} _.

(** ** The client over a world *)

Section client.
Context `{Unicode} {W : Type} `{Network W}.

Abbreviation M := (ST (dstate W) dsm_error).

Definition client : M Client := fun s => (Ok (dc_client s), s).
(** [time.Now()] *)
Definition clock : M Z := fun s => (Ok (net_Now (dc_world s)), s).
Definition update (f : Client → Client) : M () := fun s =>
  (Ok (), Build_dstate (f (dc_client s)) (dc_world s) (dc_log s)).
(** Run something outside the client. *)
Definition outside {A} (f : W → A * W) : M A := fun s =>
  let '(a, w) := f (dc_world s) in (Ok a, Build_dstate (dc_client s) w (dc_log s)).
(** [fmt.Errorf("msg: %w", err)] around the error of a computation. *)
Definition wrap {A} (msg : string) (m : M A) : M A := fun s =>
  match m s with
  | (Ok a, s) => (Ok a, s)
  | (Err e, s) => (Err (EWrap msg e), s)
  end.

(** [if err != nil { ... }] after a computation. *)
Definition catch {A} (m : M A) (handler : dsm_error → M A) : M A := fun s =>
  match m s with
  | (Ok a, s) => (Ok a, s)
  | (Err e, s) => handler e s
  end.

(** *** One request *)

Record envelope := { en_Success : bool; en_Data : RawMessage; en_Code : option Z }.

(** The pointer [Error]: [null] resets it, an object is decoded into what it points to. *)
Fixpoint error_field (cur : option Z) (l : list json) : option (option Z) :=
  match l with
  | [] => Some cur
  | JNull :: l => error_field None l
  | JObject m :: l =>
      code ← assign as_int (default 0 cur) (field_values m "code");
      error_field (Some code) l
  | _ :: _ => None
  end.

Definition decode_envelope (v : json) : option envelope :=
  match v with
  | JNull => Some {| en_Success := false; en_Data := None; en_Code := None |}
  | JObject m =>
      success ← bool_field m "success";
      code ← error_field None (field_values m "error");
      Some {| en_Success := success; en_Data := last (field_values m "data");
              en_Code := code |}
  | _ => None
  end.

(** The result of an answer. *)
Definition read_answer (api method : string) (a : answer) : result dsm_error RawMessage :=
  match a with
  | Failed true => Err (EWrap "request" EContext)
  | Failed false => Err (EHTTP 0 CategoryTransient)
  | Answered status body =>
      if (status <? 200) || (300 <=? status) then
        if status =? 429 then Err (EHTTP status CategoryRateLimit)
        else if 500 <=? status then Err (EHTTP status CategoryTransient)
        else Err (EMsg "returned HTTP")
      else
        match v ← body; decode_envelope v with
        | None => Err (EMsg "decode response")
        | Some env =>
            if negb (en_Success env)
            then Err (EAPI {| ae_API := api; ae_Method := method;
                              ae_Code := default 0 (en_Code env) |})
            else Ok (en_Data env)
        end
  end.

Definition requestLocked (apiPath : string) (params : Values) (api method : string) :
    M RawMessage := fun s =>
  let p := {| po_Path := of_bytes (drop_while_eq 47 (bytes apiPath)); po_Params := params;
              po_Cookie := cl_sid (dc_client s); po_Token := cl_synoToken (dc_client s);
              po_API := api; po_Method := method |} in
  let '(a, w) := net_Do p (dc_world s) in
  (read_answer api method a, Build_dstate (dc_client s) w (dc_log s ++ [(p, a)])).

(** *** Retries *)

Definition jitterDelay (base maxDelay : Z) : W → Z * W := fun w =>
  let base := if maxDelay <? base then maxDelay else base in
  if base <=? 0 then (0, w) else
  let half := base / 2 in
  let '(r, w) := net_Int63n (base - half + 1) w in (half + r, w).

(** The error of the context, if it ends the sleep. *)
Definition sleepWithContext (d : Z) : W → bool * W := fun w =>
  if d <=? 0 then (negb (net_ctx_done w), w) else net_timer d w.

(** The loop from attempt number [attempt]; [MaxAttempts] rounds of fuel are enough. *)
Fixpoint retry_loop (fuel : nat) (attempt delay deadline : Z)
    (apiPath : string) (params : Values) (api method : string) : M RawMessage :=
  match fuel with
  | O => fail (EMsg "out of fuel")
  | S fuel =>
      catch (requestLocked apiPath params api method) (fun e =>
        c ← client;
        let retry := cl_retry c in
        if negb (isRetryable e) || (rp_MaxAttempts retry <=? attempt) then fail e else
        wait ← outside (jitterDelay delay (rp_MaxDelay retry));
        now ← clock;
        let remaining := deadline - now in
        if remaining <=? 0 then fail e else
        slept ← outside (sleepWithContext (if remaining <? wait then remaining else wait));
        check slept EContext;;
        retry_loop fuel (attempt + 1)
          (if delay <? rp_MaxDelay retry then delay * 2 else delay) deadline
          apiPath params api method)
  end.

Definition requestWithRetryLocked (apiPath : string) (params : Values)
    (api method : string) (readOnly : bool) : M RawMessage :=
  c ← client;
  let retry := cl_retry c in
  if negb readOnly || (rp_MaxAttempts retry <=? 1)
  then requestLocked apiPath params api method
  else
    now ← clock;
    retry_loop (Z.to_nat (rp_MaxAttempts retry)) 1 (rp_BaseDelay retry)
      (now + rp_Budget retry) apiPath params api method.

(** *** Discovery *)

Definition decode_api_info (v : json) : option APIInfo :=
  match v with
  | JNull => Some {| api_Path := ""; api_MinVersion := 0; api_MaxVersion := 0;
                     api_RequestFormat := "" |}
  | JObject m =>
      path ← string_field m "path";
      minv ← int_field m "minVersion";
      maxv ← int_field m "maxVersion";
      fmt ← string_field m "requestFormat";
      Some {| api_Path := path; api_MinVersion := minv; api_MaxVersion := maxv;
              api_RequestFormat := fmt |}
  | _ => None
  end.

(** [map[string]APIInfo]: every member is decoded, the last of a name is kept. *)
Definition decode_discovery (data : RawMessage) : option (gmap string APIInfo) :=
  match data with
  | Some JNull => Some ∅
  | Some (JObject m) =>
      l ← mapM (fun '(k, v) => info ← decode_api_info v; Some (k, info)) m;
      Some (fold_left (fun acc '(k, info) => <[k := info]> acc) l ∅)
  | _ => None
  end.

Definition updateDerivedCapabilitiesLocked : M () :=
  update (fun c =>
    let t := cl_target c in
    let t := match API t authAPI with
             | Some info =>
                 let t := AddCapability capabilityAuthSession t in
                 if Supports info 6
                 then AddCapability capabilityAuthTrustedDevice
                        (AddCapability capabilityAuthSynoToken t)
                 else t
             | None => t
             end in
    let t := fold_left (fun t name => AddCapability name t) (op_capabilities t) t in
    set_target (AddQuirk quirkSessionCookieHeader t) c).

Definition note_api (discovered : gmap string APIInfo) (c : Client) (name : string) : Client :=
  let c := mark_checked name c in
  match discovered !! name with
  | Some info =>
      if bool_decide (api_Path info = "") || (api_MaxVersion info =? 0) then c
      else set_target (SetAPI name info (cl_target c)) c
  | None => c
  end.

Definition discoverAPIsLocked (names : list string) : M () :=
  c ← client;
  let missing := base.filter (fun n => n ∉ cl_apiChecked c) names in
  if bool_decide (missing = []) then mret () else
  data ← wrap "discover Synology APIs"
    (requestLocked "entry.cgi"
       (form [("api", "SYNO.API.Info"); ("version", "1"); ("method", "query");
              ("query", Join missing ",")]) "SYNO.API.Info" "query");
  match decode_discovery data with
  | None => fail (EMsg "decode Synology API discovery")
  | Some discovered =>
      update (fun c => fold_left (note_api discovered) missing c);;
      updateDerivedCapabilitiesLocked
  end.

Definition ensureAPIsLocked (names : list string) : M () :=
  discoverAPIsLocked names;;
  c ← client;
  check (forallb (fun n => bool_decide (is_Some (API (cl_target c) n))) names)
    (EMsg "Synology API is not available on this NAS").

Definition zero_api : APIInfo := {| api_Path := ""; api_MinVersion := 0; api_MaxVersion := 0;
  api_RequestFormat := "" |}.
Definition api_of (c : Client) (name : string) : APIInfo :=
  default zero_api (API (cl_target c) name).

Definition preferredVersion (info : APIInfo) (preferred : Z) : Z :=
  if api_MaxVersion info <? preferred then api_MaxVersion info
  else if preferred <? api_MinVersion info then api_MinVersion info
  else preferred.

(** *** Signing in *)

Definition login_reply (data : RawMessage) : option (string * string * string * string) :=
  match data with
  | Some JNull => Some ("", "", "", "")
  | Some (JObject m) =>
      sid ← string_field m "sid"; token ← string_field m "synotoken";
      did ← string_field m "did"; device ← string_field m "device_id";
      Some (sid, token, did, device)
  | _ => None
  end.

(** The session is stored before the callbacks run: a failure to save the trusted device is
    an error of the login, but the session stays. *)
Definition acceptLoginLocked (data : RawMessage) : M () :=
  match login_reply data with
  | None => fail (EMsg "decode DSM login")
  | Some (sid, token, did, deviceV7) =>
      check (negb (bool_decide (sid = "")))
        (EMsg "DSM login response did not contain a session ID");;
      update (set_session sid token);;
      let deviceID := if bool_decide (did = "") then deviceV7 else did in
      (if bool_decide (deviceID = "") then mret () else
       update (set_deviceID deviceID);;
       match cb_saveDeviceID with
       | None => mret ()
       | Some save =>
           r ← outside (save deviceID);
           match r with
           | Some e => fail (EWrap "save DSM trusted device" e)
           | None => mret ()
           end
       end);;
      match cb_saveSession with
      | None => mret ()
      | Some save => outside (save sid token);; mret ()
      end
  end.

(** The form of an attempt with a one-time password. *)
Definition otp_form (c : Client) (version : Z) (base : Values) (code : string) : Values :=
  let f := vset "otp_code" (Text code) (delete "device_id" base) in
  if (6 <=? version) && negb (bool_decide (cl_deviceName c = ""))
  then vset "device_name" (Text (cl_deviceName c)) (vset "enable_device_token" (Text "yes") f)
  else f.

(** The loop: attempts left, the last error. *)
Fixpoint otp_loop (attempts : nat) (otp : W → result dsm_error string * W)
    (path : string) (version : Z) (base : Values) (lastErr : dsm_error) : M RawMessage :=
  match attempts with
  | O => fail (EWrap "DSM rejected the one-time password" lastErr)
  | S attempts =>
      r ← outside otp;
      code ← wrap "obtain one-time password" (lift r);
      let code := TrimSpace code in
      check (negb (bool_decide (code = ""))) (EMsg "one-time password cannot be empty");;
      c ← client;
      catch (requestLocked path (otp_form c version base code) authAPI "login") (fun e =>
        if negb (isInvalidOTP e) then fail e
        else otp_loop attempts otp path version base e)
  end.

Definition loginWithOTPLocked (path : string) (version : Z) (base : Values)
    (challenge : dsm_error) : M RawMessage :=
  match cb_otp with
  | None => fail (EOTPRequired challenge)
  | Some otp => otp_loop maxOTPAttempts otp path version base (EMsg "")
  end.

(** The form of the login. *)
Definition login_form (c : Client) (version : Z) : Values :=
  let f := form [("api", authAPI); ("version", Itoa version); ("method", "login");
                 ("account", cl_username c); ("passwd", cl_password c);
                 ("session", dsmctlSession); ("format", "sid")] in
  if 6 <=? version then
    let f := vset "enable_syno_token" (Text "yes") f in
    if negb (bool_decide (cl_deviceID c = "")) && negb (bool_decide (cl_deviceName c = ""))
    then vset "device_id" (Text (cl_deviceID c))
           (vset "device_name" (Text (cl_deviceName c)) f)
    else f
  else f.

Definition resolve_password : M () :=
  c ← client;
  match cb_passwordFunc with
  | Some f =>
      if bool_decide (cl_password c = "") then
        r ← outside f;
        match r with Ok p => update (set_password p) | Err _ => mret () end
      else mret ()
  | None => mret ()
  end.

Definition loginLocked : M () :=
  c ← client;
  if negb (bool_decide (cl_sid c = "")) then mret () else
  resolve_password;;
  c ← client;
  check (negb (bool_decide (cl_password c = "")))
    (EMsg "DSM session is unavailable and no password is configured to re-authenticate");;
  ensureAPIsLocked [authAPI];;
  c ← client;
  let info := api_of c authAPI in
  let version := preferredVersion info 7 in
  let params := login_form c version in
  data ← wrap "log in to DSM"
    (catch (requestLocked (api_Path info) params authAPI "login") (fun e =>
       if isOTPChallenge e then loginWithOTPLocked (api_Path info) version params e
       else fail e));
  acceptLoginLocked data.

Definition Authenticate : M () := loginLocked.

Definition reestablishLocked : M () :=
  match cb_resume with
  | Some resume =>
      r ← outside resume;
      match r with
      | Ok (sid, token) => update (set_session sid token)
      | Err e =>
          c ← client;
          if bool_decide (cl_password c = "") && bool_decide (cb_passwordFunc = None)
          then fail e else loginLocked
      end
  | None => loginLocked
  end.

(** *** Executing a call *)

Definition session_params (c : Client) (f : Values) : Values :=
  let f := vset "_sid" (Text (cl_sid c)) f in
  if bool_decide (cl_synoToken c = "") then f
  else vset "SynoToken" (Text (cl_synoToken c)) f.

Definition encryption_reply (data : RawMessage) : option encryptionInfo :=
  match data with
  | Some JNull => Some {| ei_CipherKey := ""; ei_CipherToken := ""; ei_PublicKey := "";
                          ei_ServerTime := 0 |}
  | Some (JObject m) =>
      key ← string_field m "cipherkey"; token ← string_field m "ciphertoken";
      pub ← string_field m "public_key"; time ← int_field m "server_time";
      Some {| ei_CipherKey := key; ei_CipherToken := token; ei_PublicKey := pub;
              ei_ServerTime := time |}
  | _ => None
  end.

Definition encryptionInfoLocked : M encryptionInfo :=
  wrap "discover DSM parameter-encryption API" (ensureAPIsLocked [encryptionAPIName]);;
  c ← client;
  data ← wrap "get DSM parameter-encryption key"
    (requestLocked (api_Path (api_of c encryptionAPIName))
       (session_params c (form [("api", encryptionAPIName); ("version", "1");
                                ("method", "getinfo"); ("format", "module")]))
       encryptionAPIName "getinfo");
  match encryption_reply data with
  | None => fail (EMsg "decode DSM parameter-encryption key")
  | Some r =>
      check (negb (bool_decide (ei_CipherKey r = ""))
             && negb (bool_decide (ei_CipherToken r = ""))
             && negb (bool_decide (ei_PublicKey r = "")) && (0 <? ei_ServerTime r))
        (EMsg "DSM returned incomplete parameter-encryption metadata");;
      mret r
  end.

(** The first loop: the secret fields, each named once and present. *)
Fixpoint collect_encrypted (values : object) (names : list string)
    (acc : list (string * json)) : result dsm_error (list (string * json)) :=
  match names with
  | [] => Ok acc
  | n :: names =>
      if bool_decide (n ∈ acc.*1) then Err (EMsg "encrypted parameter appears more than once")
      else match obj_get values n with
           | None => Err (EMsg "encrypted parameter is missing")
           | Some v => collect_encrypted values names (acc ++ [(n, v)])
           end
  end.

(** The second loop: the JSON of the other fields. *)
Definition clear_params (values : object) (secret : list string) : Values :=
  fold_left (fun f k =>
    match obj_get values k with
    | Some v => if bool_decide (k ∈ secret) then f else vset k (Encoded v) f
    | None => f
    end) (obj_keys values) ∅.

Definition encodeJSONParametersLocked (values : object) (encryptedNames : list string) :
    M Values :=
  c ← client;
  let encryptTransport := negb (bool_decide (encryptedNames = []))
                          && negb (bool_decide (cl_Scheme c = "https")) in
  encrypted ← lift (collect_encrypted values encryptedNames []);
  let parameters := clear_params values (if encryptTransport then encryptedNames else []) in
  if negb encryptTransport then mret parameters else
  info ← encryptionInfoLocked;
  r ← outside (encryptDSMFields info encrypted);
  bundle ← lift r;
  mret (vset (ei_CipherKey info) (Encoded bundle) parameters).

Definition call_params (call : Request) : M Values :=
  match rq_JSONParameters call with
  | Some values =>
      wrap "prepare JSON parameters" (encodeJSONParametersLocked values (rq_EncryptedParameters call))
  | None =>
      check (bool_decide (rq_EncryptedParameters call = []))
        (EMsg "encrypted parameters require typed JSON parameters");;
      mret (rq_Parameters call)
  end.

(** The second attempt of a call whose session DSM rejected. *)
Definition retry_session (call : Request) (path : string) (params : Values) : M RawMessage :=
  update (set_session "" "");;
  catch reestablishLocked (fun e =>
    fail (if IsSessionExpired e then e else ESessionExpired "" e));;
  c ← client;
  requestWithRetryLocked path (session_params c (delete "SynoToken" params))
    (rq_API call) (rq_Method call) (rq_ReadOnly call).

Definition executeLocked (call : Request) : M RawMessage :=
  ensureAPIsLocked [rq_API call];;
  loginLocked;;
  c ← client;
  let info := api_of c (rq_API call) in
  let version := if rq_Version call =? 0 then api_MaxVersion info else rq_Version call in
  check (Supports info version) (EMsg "Synology API does not support requested version");;
  params ← call_params call;
  c ← client;
  let params := session_params c
    (vset "method" (Text (rq_Method call))
      (vset "version" (Text (Itoa version)) (vset "api" (Text (rq_API call)) params))) in
  catch (requestWithRetryLocked (api_Path info) params (rq_API call) (rq_Method call)
           (rq_ReadOnly call)) (fun e =>
    if isSessionError e then retry_session call (api_Path info) params else fail e).

(** *** Leaving *)

Definition logoutLocked : M () :=
  c ← client;
  if bool_decide (cl_sid c = "") then mret () else
  ensureAPIsLocked [authAPI];;
  c ← client;
  let info := api_of c authAPI in
  catch (requestLocked (api_Path info)
      (form [("api", authAPI); ("version", Itoa (api_MaxVersion info)); ("method", "logout");
             ("session", dsmctlSession); ("_sid", cl_sid c)]) authAPI "logout";;
      mret ()) (fun e =>
    update (set_session "" "");; fail (EWrap "log out from DSM" e));;
  update (set_session "" "").

Definition Close : M () :=
  c ← client;
  if cl_preserveSession c then update (set_session "" "") else logoutLocked.

Definition Logout : M () := logoutLocked.

Definition HasSession (c : Client) : bool := negb (bool_decide (cl_sid c = "")).

(** [(false, nil)] for a session DSM rejects. *)
Definition probeSessionLocked : M () :=
  ensureAPIsLocked ["SYNO.Core.System"];;
  c ← client;
  let info := api_of c "SYNO.Core.System" in
  requestLocked (api_Path info)
    (session_params c (form [("api", "SYNO.Core.System");
                             ("version", Itoa (api_MaxVersion info)); ("method", "info")]))
    "SYNO.Core.System" "info";;
  mret ().

Definition ValidateSession : M bool :=
  c ← client;
  if bool_decide (cl_sid c = "") then mret false else
  catch (probeSessionLocked;; mret true) (fun e =>
    if isSessionError e then mret false else fail e).

(** *** Operations *)

(** [operation.Run] with the locked executor on the client's own target. *)
Definition run_op {I O} (op : Operation (I → M O)) (input : I) : M (O * Selection) := fun s =>
  match Run op (cl_target (dc_client s)) input s with
  | (Ok o, selection, s) => (Ok (o, selection), s)
  | (Err (RunSelect e), _, s) => (Err (ESelect e), s)
  | (Err (RunExecute e), selection, s) =>
      (Err (EWrap ("execute " +:+ sl_Operation selection +:+ " with backend "
                   +:+ sl_Backend selection) e), s)
  end.

(** The DSM release of a system information reply: the first of the two keys that holds a
    text or a number. *)
Fixpoint system_string (m : object) (keys : list string) : string :=
  match keys with
  | [] => ""
  | k :: keys =>
      match obj_get m k with
      | Some (JString s) => s
      | Some (JNumber n) => n
      | _ => system_string m keys
      end
  end.

Definition decode_dsm_version (keys : list string) (data : RawMessage) :
    result dsm_error string :=
  match data with
  | Some JNull => Ok ""
  | Some (JObject m) => Ok (system_string m keys)
  | _ => Err (EMsg "decode system info")
  end.

Definition coreVariant (name : string) (version priority : Z) (keys : list string) :
    Variant (() → M string) := {|
  va_Name := name; va_API := "SYNO.Core.System"; va_Version := version;
  va_Priority := priority; va_Match := Some (APIVersion "SYNO.Core.System" version);
  va_Execute := Some (fun _ =>
    data ← wrap "call SYNO.Core.System.info"
      (executeLocked {| rq_API := "SYNO.Core.System"; rq_Version := version;
                        rq_Method := "info"; rq_Parameters := ∅; rq_JSONParameters := None;
                        rq_EncryptedParameters := []; rq_ReadOnly := true |});
    lift (decode_dsm_version keys data)) |}.

Definition system_operation : Operation (() → M string) := {|
  op_Name := "system.info";
  op_Variants := [coreVariant "core-system-v3" 3 30 ["firmware_ver"; "version_string"];
                  coreVariant "core-system-v2" 2 20 ["firmware_ver"; "version_string"];
                  coreVariant "core-system-v1-legacy" 1 10 ["version_string"; "firmware_ver"]] |}.

Definition note_version (version : string) : M () :=
  if bool_decide (version = "") then mret ()
  else update (fun c => set_target (set_DSM (ParseDSMVersion version) (cl_target c)) c).

(** The reply's other fields do not reach the client: the result is the DSM release. *)
Definition systemInfoLocked : M string :=
  wrap "discover system info APIs" (discoverAPIsLocked (APINames system_operation));;
  '(version, initial) ← wrap "get system info" (run_op system_operation ());
  note_version version;;
  c ← client;
  match Select system_operation (cl_target c) with
  | (inl e, _) => fail (EWrap "select system info backend after DSM discovery" (ESelect e))
  | (inr _, final) =>
      version ←
        (if bool_decide (sl_Backend final = sl_Backend initial) then mret version else
         '(version, _) ← wrap "get system info with DSM-specific backend"
            (run_op system_operation ());
         note_version version;;
         mret version);
      updateDerivedCapabilitiesLocked;;
      mret version
  end.

Definition prepareCompatibilityTargetLocked (apiNames : list string) : M () :=
  discoverAPIsLocked (APINames system_operation ++ apiNames);;
  c ← client;
  if dsm_Known (ta_DSM (cl_target c)) then mret () else
  wrap "bootstrap DSM compatibility target" systemInfoLocked;;
  mret ().
End client.
