(* ===== verification/DsmThms.v ===== *)
(** * The DSM client: what goes over the wire, and how often

    [emits P m]: every run of [m] appends to the log a list of exchanges that satisfies
    [P], and leaves the retry policy alone.  The lemmas follow the structure of the
    client's code; the properties read the log of whole calls. *)

From S2P Require Import Prelude.
From S2P Require Import GoStrings.
From S2P Require Import Compat.
From S2P Require Import Json.
From S2P Require Import DsmErrors.
From S2P Require Import DsmClient.

Section emits.
Context `{Unicode} {W : Type} `{Network W}.

Abbreviation M := (ST (dstate W) dsm_error).

(** The exchanges a run appends, and its result. *)
Definition emits {A} (P : list exchange → result dsm_error A → Prop) (m : M A) : Prop :=
  ∀ s r s', m s = (r, s') →
    cl_retry (dc_client s') = cl_retry (dc_client s) ∧
    ∃ l, dc_log s' = dc_log s ++ l ∧ P l r.

(** Everything [m] sends satisfies [R]. *)
Definition only {A} (R : Post → Prop) (m : M A) : Prop :=
  emits (fun l _ => Forall (fun x => R x.1) l) m.

Lemma emits_mono {A} (P P' : list exchange → result dsm_error A → Prop) (m : M A) :
  emits P m → (∀ l r, P l r → P' l r) → emits P' m.
Proof.
  intros Hm HP s r s' Hr. destruct (Hm s r s' Hr) as (? & l & ? & ?).
  split; [done|]. exists l. auto.
Qed.

Lemma only_weaken {A} (R R' : Post → Prop) (m : M A) :
  (∀ p, R p → R' p) → only R m → only R' m.
Proof.
  intros HR Hm. eapply emits_mono; [exact Hm|]. cbn. intros l _ Hl.
  eapply Forall_impl; [exact Hl|]. cbn. auto.
Qed.

Lemma only_and {A} (R R' : Post → Prop) (m : M A) :
  only R m → only R' m → only (fun p => R p ∧ R' p) m.
Proof.
  intros Hm Hm' s r s' Hr. destruct (Hm s r s' Hr) as (? & l & Hl & HR).
  destruct (Hm' s r s' Hr) as (_ & l' & Hl' & HR').
  rewrite Hl in Hl'. apply app_inv_head in Hl' as <-.
  split; [done|]. exists l. split; [done|]. by apply Forall_and.
Qed.

Section silent.
Variable R : Post → Prop.

Lemma silent_pure {A} (m : M A) :
  (∀ s, dc_log (m s).2 = dc_log s ∧ cl_retry (dc_client (m s).2) = cl_retry (dc_client s)) →
  only R m.
Proof.
  intros Hm s r s' Hr. specialize (Hm s). rewrite Hr in Hm. destruct Hm as [Hl Hc].
  split; [done|]. exists []. rewrite app_nil_r. split; [done|constructor].
Qed.

Lemma silent_ret {A} (a : A) : only R (mret a).
Proof. by apply silent_pure. Qed.
Lemma silent_fail {A} e : only R (fail e : M A).
Proof. by apply silent_pure. Qed.
Lemma silent_client : only R client.
Proof. by apply silent_pure. Qed.
Lemma silent_clock : only R clock.
Proof. by apply silent_pure. Qed.
Lemma silent_check b e : only R (check b e).
Proof. apply silent_pure. by destruct b. Qed.
Lemma silent_lift {A} (r : result dsm_error A) : only R (lift r).
Proof. apply silent_pure. by destruct r. Qed.
Lemma silent_outside {A} (f : W → A * W) : only R (outside f).
Proof. apply silent_pure. intros s. unfold outside. by destruct (f (dc_world s)). Qed.
Lemma silent_update f :
  (∀ c, cl_retry (f c) = cl_retry c) → only R (update f).
Proof. intros Hf. apply silent_pure. intros s. simpl. auto. Qed.

Lemma silent_bind {A B} (m : M A) (k : A → M B) :
  only R m → (∀ a, only R (k a)) → only R (m ≫= k).
Proof.
  intros Hm Hk s r s'. unfold mbind, ST_bind.
  destruct (m s) as [[a|e] s1] eqn:E; intros Hr.
  - destruct (Hm _ _ _ E) as (Hc & l & Hl & HR).
    destruct (Hk a _ _ _ Hr) as (Hc' & l' & Hl' & HR').
    split; [by rewrite Hc'|]. exists (l ++ l'). split; [|by apply Forall_app].
    by rewrite Hl', Hl, app_assoc.
  - simplify_eq. by destruct (Hm _ _ _ E) as (Hc & l & Hl & HR); eauto.
Qed.

Lemma silent_catch {A} (m : M A) (k : dsm_error → M A) :
  only R m → (∀ e, only R (k e)) → only R (catch m k).
Proof.
  intros Hm Hk s r s'. unfold catch.
  destruct (m s) as [[a|e] s1] eqn:E; intros Hr.
  - simplify_eq. by destruct (Hm _ _ _ E) as (Hc & l & Hl & HR); eauto.
  - destruct (Hm _ _ _ E) as (Hc & l & Hl & HR).
    destruct (Hk e _ _ _ Hr) as (Hc' & l' & Hl' & HR').
    split; [by rewrite Hc'|]. exists (l ++ l'). split; [|by apply Forall_app].
    by rewrite Hl', Hl, app_assoc.
Qed.

Lemma silent_wrap {A} msg (m : M A) : only R m → only R (wrap msg m).
Proof.
  intros Hm s r s'. unfold wrap. destruct (m s) as [[a|e] s1] eqn:E; intros; simplify_eq;
    by destruct (Hm _ _ _ E) as (Hc & l & Hl & HR); eauto.
Qed.

Lemma silent_request path params api method :
  (∀ p, po_API p = api → po_Method p = method → R p) →
  only R (requestLocked path params api method).
Proof.
  intros HR s r s'. unfold requestLocked. destruct (net_Do _ _) as [a w].
  intros; simplify_eq. split; [done|]. eexists. split; [done|].
  apply Forall_singleton. by apply HR.
Qed.

Lemma silent_request_params path params api method :
  (∀ p, po_Params p = params → R p) → only R (requestLocked path params api method).
Proof.
  intros HR s r s'. unfold requestLocked. destruct (net_Do _ _) as [a w].
  intros; simplify_eq. split; [done|]. eexists. split; [done|].
  apply Forall_singleton. by apply HR.
Qed.
End silent.
End emits.

(** Nothing [m] sends satisfies [Q]. *)
Abbreviation silent Q := (only (fun p => ¬ Q p)).

Create HintDb silent discriminated.
#[export] Hint Constants Opaque : silent.
#[export] Hint Resolve silent_ret silent_fail silent_client silent_clock silent_check
  silent_lift silent_outside silent_bind silent_catch silent_wrap : silent.
#[export] Hint Extern 4 (only _ (let _ := _ in _)) => cbv zeta : silent.
#[export] Hint Extern 4 (only _ (match ?x with _ => _ end)) => destruct x : silent.
#[export] Hint Extern 3 (only _ (update _)) => apply silent_update : silent.

Section internals.
Context `{Unicode} {W : Type} `{Network W}.
Variable R : Post → Prop.

Abbreviation M := (ST (dstate W) dsm_error).

(** The requests the client makes on its own. *)
Definition own_api (api : string) : Prop :=
  api = "SYNO.API.Info" ∨ api = authAPI ∨ api = encryptionAPIName.

Hypothesis Hown : ∀ p, own_api (po_API p) → R p.

Lemma silent_own path params api method :
  own_api api → only R (requestLocked path params api method).
Proof. intros Ha. apply silent_request. intros p <- _. by apply Hown. Qed.

Lemma fold_note_api_retry discovered names c :
  cl_retry (fold_left (note_api discovered) names c) = cl_retry c.
Proof.
  revert c. induction names as [|n names IH]; intros c; [done|]. simpl. rewrite IH.
  unfold note_api. destruct (discovered !! n) as [info|]; [|done]. by destruct (_ || _).
Qed.

Lemma silent_discover names : only R (discoverAPIsLocked names).
Proof.
  unfold discoverAPIsLocked. apply silent_bind; [apply silent_client|]. intros c. cbv zeta.
  case_bool_decide; [apply silent_ret|].
  apply silent_bind; [apply silent_wrap, silent_own; by left|]. intros data.
  destruct (decode_discovery data); [|apply silent_fail].
  apply silent_bind.
  - apply silent_update. intros. apply fold_note_api_retry.
  - intros _. by apply silent_update.
Qed.

Lemma silent_ensure names : only R (ensureAPIsLocked names).
Proof. unfold ensureAPIsLocked. eauto 6 using silent_discover with silent. Qed.

Lemma silent_accept data : only R (acceptLoginLocked data).
Proof.
  unfold acceptLoginLocked. destruct (login_reply data) as [[[[sid token] did] dev]|];
    [|apply silent_fail].
  apply silent_bind; [apply silent_check|]. intros _.
  apply silent_bind; [by apply silent_update|]. intros _. cbv zeta.
  apply silent_bind.
  - case_bool_decide; [apply silent_ret|].
    apply silent_bind; [by apply silent_update|]. intros _.
    destruct cb_saveDeviceID; eauto with silent.
  - intros _. destruct cb_saveSession; eauto with silent.
Qed.

Lemma silent_otp attempts otp path version base e :
  only R (otp_loop attempts otp path version base e).
Proof.
  revert e. induction attempts as [|n IH]; intros e; cbn [otp_loop]; [apply silent_fail|].
  apply silent_bind; [apply silent_outside|]. intros r.
  apply silent_bind; [apply silent_wrap, silent_lift|]. intros code. cbv zeta.
  apply silent_bind; [apply silent_check|]. intros _.
  apply silent_bind; [apply silent_client|]. intros c.
  apply silent_catch; [apply silent_own; by right; left|]. intros e'.
  destruct (negb _); [apply silent_fail|apply IH].
Qed.

Lemma silent_login : only R loginLocked.
Proof.
  unfold loginLocked. apply silent_bind; [apply silent_client|]. intros c.
  destruct (negb _); [apply silent_ret|].
  apply silent_bind.
  { unfold resolve_password. apply silent_bind; [apply silent_client|]. intros c'.
    destruct cb_passwordFunc; [|apply silent_ret]. case_bool_decide; [|apply silent_ret].
    apply silent_bind; [apply silent_outside|]. intros [pw|e]; [|apply silent_ret].
    by apply silent_update. }
  intros _. apply silent_bind; [apply silent_client|]. intros c2.
  apply silent_bind; [apply silent_check|]. intros _.
  apply silent_bind; [apply silent_ensure|]. intros _.
  apply silent_bind; [apply silent_client|]. intros c3. cbv zeta.
  apply silent_bind; [|intros; apply silent_accept].
  apply silent_wrap, silent_catch; [apply silent_own; by right; left|]. intros e.
  destruct (isOTPChallenge e); [|apply silent_fail].
  unfold loginWithOTPLocked. destruct cb_otp; [apply silent_otp|apply silent_fail].
Qed.

Lemma silent_reestablish : only R reestablishLocked.
Proof.
  unfold reestablishLocked. destruct cb_resume; [|apply silent_login].
  apply silent_bind; [apply silent_outside|]. intros [[sid token]|e].
  - by apply silent_update.
  - apply silent_bind; [apply silent_client|]. intros c.
    destruct (_ && _); [apply silent_fail|apply silent_login].
Qed.

Lemma silent_call_params call : only R (call_params call).
Proof.
  unfold call_params. destruct (rq_JSONParameters call) as [values|].
  - apply silent_wrap. unfold encodeJSONParametersLocked.
    apply silent_bind; [apply silent_client|]. intros c. cbv zeta.
    apply silent_bind; [apply silent_lift|]. intros enc.
    destruct (negb _); [apply silent_ret|].
    apply silent_bind.
    { unfold encryptionInfoLocked.
      apply silent_bind; [apply silent_wrap, silent_ensure|]. intros _.
      apply silent_bind; [apply silent_client|]. intros c'.
      apply silent_bind; [apply silent_wrap, silent_own; by right; right|]. intros data.
      destruct (encryption_reply data); eauto with silent. }
    intros info. eauto with silent.
  - eauto with silent.
Qed.
End internals.

#[export] Hint Resolve silent_discover silent_ensure silent_login silent_reestablish
  silent_call_params : silent.

(** ** How often a call is sent *)

Section sends.
Context `{Unicode} {W : Type} `{Network W}.
Variable call : Request.

Abbreviation M := (ST (dstate W) dsm_error).

(** The exchanges that carry the call. *)
Definition carries (p : Post) : Prop :=
  po_API p = rq_API call ∧ po_Method p = rq_Method call.
#[export] Instance carries_dec p : Decision (carries p).
Proof. unfold carries. apply _. Defined.
Definition sends (l : list exchange) : list exchange :=
  base.filter (fun x => carries x.1) l.

(** What the client reads in the answer. *)
Definition reading (x : exchange) : result dsm_error RawMessage :=
  read_answer (rq_API call) (rq_Method call) x.2.
(** DSM refused the session: nothing was executed. *)
Definition session_rejected (x : exchange) : Prop :=
  ∃ e, reading x = Err e ∧ isSessionError e = true.

Lemma sends_silent l : Forall (fun x => ¬ carries x.1) l → sends l = [].
Proof.
  induction 1 as [|x l Hx _ IH]; [done|]. unfold sends in *.
  by rewrite filter_cons_False.
Qed.

(** A prefix that does not send the call does not count; its errors end the run. *)
Lemma emits_after_silent {A B} (P : list exchange → result dsm_error B → Prop)
    (m : M A) (k : A → M B) :
  silent carries m → (∀ e, P [] (Err e)) →
  (∀ a, emits (fun l r => P (sends l) r) (k a)) →
  emits (fun l r => P (sends l) r) (m ≫= k).
Proof.
  intros Hm He Hk s r s'. unfold mbind, ST_bind.
  destruct (m s) as [[a|e] s1] eqn:E; intros Hr;
    destruct (Hm _ _ _ E) as (Hc & l & Hl & HQ).
  - destruct (Hk a _ _ _ Hr) as (Hc' & l' & Hl' & HP).
    split; [by rewrite Hc'|]. exists (l ++ l'). rewrite Hl', Hl, app_assoc.
    split; [done|]. unfold sends in *. rewrite filter_app.
    fold (sends l). by rewrite (sends_silent l).
  - simplify_eq. split; [done|]. exists l. split; [done|]. by rewrite (sends_silent l).
Qed.

Lemma emits_request path params :
  emits (fun l r => ∃ x, l = [x] ∧ carries x.1 ∧ r = reading x)
    (requestLocked path params (rq_API call) (rq_Method call)).
Proof.
  intros s r s'. unfold requestLocked. destruct (net_Do _ _) as [a w] eqn:E.
  intros Hr; simplify_eq. split; [done|]. eexists. split; [done|].
  eexists. split; [done|]. by split.
Qed.

Lemma emits_client {A} (P : list exchange → result dsm_error A → Prop) (k : Client → M A) :
  (∀ c, emits P (k c)) → emits P (c ← client; k c).
Proof. intros Hk s r s' Hr. by apply (Hk (dc_client s)) in Hr. Qed.

Definition sent_once (l : list exchange) (r : result dsm_error RawMessage) : Prop :=
  ∃ x, l = [x] ∧ r = reading x.

Lemma emits_mutating path params :
  rq_ReadOnly call = false →
  emits (fun l r => sent_once (sends l) r)
    (requestWithRetryLocked path params (rq_API call) (rq_Method call) (rq_ReadOnly call)).
Proof.
  intros ->. unfold requestWithRetryLocked. apply emits_client. intros c. cbn [negb orb].
  eapply emits_mono; [apply emits_request|].
  intros l r (x & -> & Hc & ->). exists x. unfold sends.
  by rewrite filter_cons_True, filter_nil.
Qed.

(** The sends of a whole call: none, one, or two when the first met a rejected session. *)
Definition call_outcome (l : list exchange) (r : result dsm_error RawMessage) : Prop :=
  match l with
  | [] => is_Ok r = false
  | [x] => r = reading x ∨ session_rejected x ∧ is_Ok r = false
  | [x; y] => session_rejected x ∧ r = reading y
  | _ => False
  end.

Definition retry_outcome (l : list exchange) (r : result dsm_error RawMessage) : Prop :=
  l = [] ∧ is_Ok r = false ∨ sent_once l r.

Hypothesis Hown : ¬ own_api (rq_API call).

Lemma own_silent p : own_api (po_API p) → ¬ carries p.
Proof. intros Ho [He _]. rewrite He in Ho. done. Qed.

Lemma emits_retry_session path params :
  rq_ReadOnly call = false →
  emits (fun l r => retry_outcome (sends l) r) (retry_session call path params).
Proof.
  intros Hro. unfold retry_session.
  apply emits_after_silent; [by apply silent_update|intros; by left|]. intros _.
  apply emits_after_silent; [|intros; by left|].
  { apply silent_catch; [apply silent_reestablish, own_silent|]. intros. apply silent_fail. }
  intros _. apply emits_client. intros c.
  eapply emits_mono; [by apply emits_mutating|]. intros. by right.
Qed.

Lemma emits_execute : rq_ReadOnly call = false →
  emits (fun l r => call_outcome (sends l) r) (executeLocked call).
Proof.
  intros Hro. unfold executeLocked. pose proof own_silent as Hs.
  apply emits_after_silent; [by apply silent_ensure|done|]. intros _.
  apply emits_after_silent; [by apply silent_login|done|]. intros _.
  apply emits_client. intros c. cbv zeta.
  apply emits_after_silent; [apply silent_check|done|]. intros _.
  apply emits_after_silent; [by apply silent_call_params|done|]. intros params.
  apply emits_client. intros c'.
  intros s r s'. unfold catch.
  destruct (requestWithRetryLocked _ _ _ _ _ s) as [r1 s1] eqn:E.
  destruct (emits_mutating _ _ Hro _ _ _ E) as (Hc & l & Hl & x & Hx & ->).
  destruct (reading x) as [data|e] eqn:Er; intros Hr.
  { simplify_eq. split; [done|]. exists l. split; [done|]. rewrite Hx. by left. }
  destruct (isSessionError e) eqn:Es.
  2:{ simpl in Hr. simplify_eq. split; [done|]. exists l. split; [done|]. rewrite Hx. by left. }
  destruct (emits_retry_session _ _ Hro _ _ _ Hr) as (Hc' & l' & Hl' & Ho).
  split; [by rewrite Hc'|]. exists (l ++ l'). rewrite Hl', Hl, app_assoc.
  split; [done|]. unfold sends in *. rewrite filter_app, Hx.
  assert (session_rejected x) by (by exists e).
  destruct Ho as [[Hn Hk]|(y & Hn & ->)]; rewrite Hn; simpl; [by right|by split].
Qed.
End sends.

(** C9: a call that is not marked read-only is put on the wire at most twice, and the second
    time only after DSM answered the first that the session is not valid (codes 106, 107
    and 119), so that it is never executed twice by an automatic retry.  The result is the
    reading of the last answer, or an error. *)
Theorem mutation_never_replayed `{Unicode} {W : Type} `{Network W} (call : Request)
    (s : dstate W) r s' :
  rq_ReadOnly call = false → ¬ own_api (rq_API call) →
  executeLocked call s = (r, s') →
  ∃ l, dc_log s' = dc_log s ++ l ∧ call_outcome call (sends call l) r.
Proof.
  intros Hro Hown Hr. destruct (emits_execute call Hown Hro _ _ _ Hr) as (_ & l & Hl & HP).
  eauto.
Qed.

(** ** The retry loop ends *)

Section retry.
Context `{Unicode} {W : Type} `{Network W}.

Lemma requestLocked_client path params api method (s : dstate W) :
  dc_client (requestLocked path params api method s).2 = dc_client s.
Proof. unfold requestLocked. by destruct (net_Do _ _). Qed.

(** With [n] attempts left, [n] rounds of fuel do; more change nothing. *)
Lemma retry_loop_fuel n fuel attempt delay deadline path params api method (s : dstate W) :
  rp_MaxAttempts (cl_retry (dc_client s)) - attempt + 1 = Z.of_nat n → (1 ≤ n)%nat →
  (n ≤ fuel)%nat →
  retry_loop fuel attempt delay deadline path params api method s =
  retry_loop n attempt delay deadline path params api method s.
Proof.
  revert fuel attempt delay s. induction n as [|n IH]; [lia|].
  intros [|fuel] attempt delay s Hn _ Hf; [lia|]. cbn [retry_loop].
  pose proof (requestLocked_client path params api method s) as Hc.
  unfold catch. destruct (requestLocked path params api method s) as [[d|e] s1]; [done|].
  cbn in Hc. unfold mbind, ST_bind, client. rewrite Hc.
  destruct (negb (isRetryable e)); [done|]. cbn [orb].
  destruct (Z.leb_spec (rp_MaxAttempts (cl_retry (dc_client s))) attempt); [done|].
  unfold outside. destruct (jitterDelay _ _ _) as [wait w1]. cbn.
  destruct (_ <=? 0); [done|]. destruct (sleepWithContext _ _) as [slept w2]. cbn.
  destruct slept; [|done]. cbn. apply IH; cbn; rewrite ?Hc; lia.
Qed.

(** The exchanges of the loop: between one and the attempts left, all but the last a
    failure worth a retry. *)
Definition retried (api method : string) (x : exchange) : Prop :=
  ∃ e, read_answer api method x.2 = Err e ∧ isRetryable e = true.

Lemma retry_loop_emits n attempt delay deadline path params api method (s : dstate W) r s' :
  rp_MaxAttempts (cl_retry (dc_client s)) - attempt + 1 = Z.of_nat n → (1 ≤ n)%nat →
  retry_loop n attempt delay deadline path params api method s = (r, s') →
  ∃ l x, dc_log s' = dc_log s ++ l ++ [x] ∧ (length l < n)%nat ∧
    Forall (retried api method) l ∧
    (r = read_answer api method x.2 ∨ retried api method x ∧ r = Err EContext).
Proof.
  revert attempt delay s. induction n as [|n IH]; [lia|].
  intros attempt delay s Hn _. cbn [retry_loop].
  unfold catch, requestLocked. destruct (net_Do _ _) as [a w]. cbn zeta.
  set (x := (Build_Post _ _ _ _ _ _, a)).
  destruct (read_answer api method a) as [d|e] eqn:Er.
  { intros [= <- <-]. exists [], x. split; [done|]. split; [simpl; lia|].
    split; [constructor|]. left. by rewrite <- Er. }
  unfold mbind, ST_bind, client. cbn.
  destruct (isRetryable e) eqn:Ee; cbn.
  2:{ intros [= <- <-]. exists [], x. split; [done|]. split; [simpl; lia|].
      split; [constructor|]. left. by rewrite <- Er. }
  destruct (Z.leb_spec (rp_MaxAttempts (cl_retry (dc_client s))) attempt).
  { intros [= <- <-]. exists [], x. split; [done|]. split; [simpl; lia|].
    split; [constructor|]. left. by rewrite <- Er. }
  unfold outside. destruct (jitterDelay _ _ _) as [wait w1]. cbn.
  destruct (_ <=? 0).
  { intros [= <- <-]. exists [], x. split; [done|]. split; [simpl; lia|].
    split; [constructor|]. left. by rewrite <- Er. }
  destruct (sleepWithContext _ _) as [slept w2]. cbn.
  destruct slept; cbn.
  - intros Hr. apply IH in Hr as (l & y & Hl & Hlen & HF & Ho); [|cbn; lia|lia].
    exists (x :: l), y. split; [|split; [simpl; lia|split; [|done]]].
    + rewrite Hl. cbn. by rewrite <- app_assoc.
    + constructor; [by exists e|done].
  - intros [= <- <-]. exists [], x. split; [done|]. split; [simpl; lia|].
    split; [constructor|]. right. split; [by exists e|done].
Qed.
End retry.

(** C23: a request with retries ends: the loop needs no more rounds than the policy's
    attempts, whatever the NAS, the clock and the context do.  It puts at least one and at
    most [MaxAttempts] exchanges on the wire, exactly one for a call that is not read-only;
    every exchange but the last is a transport failure, a 5xx or a 429, and the result is
    the reading of the last one or the end of the context. *)
Theorem retry_terminates `{Unicode} {W : Type} `{Network W} path params api method
    (readOnly : bool) (s : dstate W) :
  let n := rp_MaxAttempts (cl_retry (dc_client s)) in
  let bound := if readOnly then Z.max 1 n else 1 in
  (∀ fuel delay deadline, 1 < n → (Z.to_nat n ≤ fuel)%nat →
     retry_loop fuel 1 delay deadline path params api method s =
     retry_loop (Z.to_nat n) 1 delay deadline path params api method s) ∧
  ∃ l x r s', requestWithRetryLocked path params api method readOnly s = (r, s') ∧
    dc_log s' = dc_log s ++ l ++ [x] ∧ Z.of_nat (length l) < bound ∧
    Forall (retried api method) l ∧
    (r = read_answer api method x.2 ∨ retried api method x ∧ r = Err EContext).
Proof.
  intros n bound. split.
  { intros fuel delay deadline Hn Hf. apply retry_loop_fuel; fold n; lia. }
  unfold requestWithRetryLocked, mbind, ST_bind, client. fold n.
  destruct (negb readOnly || (n <=? 1)) eqn:Eb.
  - unfold requestLocked. destruct (net_Do _ _) as [a w]. eexists [], _, _, _.
    split; [done|]. split; [done|]. split; [simpl; subst bound; destruct readOnly; lia|].
    split; [constructor|by left].
  - destruct readOnly; [|done]. split_bools. unfold clock. cbn.
    destruct (retry_loop _ _ _ _ _ _ _ _ _) as [r s'] eqn:E.
    apply retry_loop_emits in E as (l & x & ? & ? & ? & ?); fold n; [|lia|lia].
    exists l, x, r, s'. split; [done|]. split; [done|]. split; [lia|]. by split.
Qed.

(** ** Secret parameters *)

Lemma collect_encrypted_spec values names acc fields :
  collect_encrypted values names acc = Ok fields →
  (∀ n v, (n, v) ∈ acc → obj_get values n = Some v) →
  (∀ n, n ∈ acc.*1 ∨ n ∈ names → (n, default JNull (obj_get values n)) ∈ fields).
Proof.
  revert acc. induction names as [|m names IH]; intros acc; cbn [collect_encrypted].
  - intros [= <-] Ha n [Hn|[]%elem_of_nil].
    apply list_elem_of_fmap in Hn as ([n' v] & -> & Hv). cbn.
    by rewrite (Ha _ _ Hv).
  - case_bool_decide; [done|]. destruct (obj_get values m) as [v|] eqn:Ev; [|done].
    intros Hc Ha n Hn. eapply IH; [exact Hc| |].
    + intros n' v' [?|[= -> ->]%list_elem_of_singleton]%elem_of_app; auto.
    + rewrite fmap_app, elem_of_app. destruct Hn as [?|[->|?]%elem_of_cons]; [by auto| |by auto].
      left. right. by apply list_elem_of_singleton.
Qed.

Lemma clear_params_secret values secret name :
  name ∈ secret → clear_params values secret !! name = None.
Proof.
  intros Hs. unfold clear_params.
  assert (∀ l (f : Values), f !! name = None →
    fold_left (fun f k => match obj_get values k with
      | Some v => if bool_decide (k ∈ secret) then f else vset k (Encoded v) f
      | None => f end) l f !! name = None) as Hl; [|by apply Hl].
  intros l. induction l as [|k l IH]; intros f Hf; [done|]. simpl. apply IH.
  destruct (obj_get values k); [|done]. case_bool_decide; [done|].
  unfold vset. rewrite lookup_insert_ne; [done|]. intros ->. done.
Qed.

(** C22: secret fields never leave in the clear: over a connection that is not TLS, every
    member the call marks as secret is handed to the encryption, and the form carries no
    value under its name, except the encrypted bundle when DSM chose that very name. *)
Theorem secrets_encrypted `{Unicode} {W : Type} `{Network W} (values : object)
    (secret : list string) (s : dstate W) f s' :
  encodeJSONParametersLocked values secret s = (Ok f, s') →
  cl_Scheme (dc_client s) ≠ "https" → secret ≠ [] →
  ∃ info fields w bundle w',
    encryptDSMFields info fields w = (Ok bundle, w') ∧
    ∀ name, name ∈ secret →
      (name, default JNull (obj_get values name)) ∈ fields ∧
      (f !! name = None ∨ name = ei_CipherKey info ∧ f !! name = Some [Encoded bundle]).
Proof.
  unfold encodeJSONParametersLocked. intros Hf Hs Hn.
  apply bind_ok_inv in Hf as (c & s1 & Hc & Hf). unfold client in Hc. simplify_eq.
  rewrite !bool_decide_false in Hf by done. cbn [negb andb] in Hf.
  apply bind_ok_inv in Hf as (fields & s2 & Hl & Hf). apply lift_ok_inv in Hl as [Hcol ->].
  apply bind_ok_inv in Hf as (info & s3 & Hi & Hf).
  apply bind_ok_inv in Hf as (rb & s4 & Ho & Hf).
  apply bind_ok_inv in Hf as (bundle & s5 & Hb & Hf). apply lift_ok_inv in Hb as [-> ->].
  unfold outside in Ho. destruct (encryptDSMFields info fields (dc_world s3)) as [rb w'] eqn:Ee.
  unfold mret, ST_ret in Hf. simplify_eq.
  exists info, fields, (dc_world s3), bundle, w'. split; [done|]. intros name Hname.
  split; [eapply collect_encrypted_spec; [exact Hcol| |by right]; by intros ?? []%elem_of_nil|].
  unfold vset. destruct (decide (name = ei_CipherKey info)) as [->|Hne].
  - right. by rewrite lookup_insert_eq.
  - left. rewrite lookup_insert_ne by done. by apply clear_params_secret.
Qed.

(** ** A scripted NAS *)

(** The answers to come; the transport fails when there are none left. *)
Definition script_world : Network (list answer) := {|
  net_Do := fun _ w => match w with a :: w => (a, w) | [] => (Failed false, []) end;
  net_Now := fun _ => 0;
  net_Int63n := fun _ w => (0, w);
  net_ctx_done := fun _ => false;
  net_timer := fun _ w => (true, w);
  cb_otp := None; cb_saveDeviceID := None; cb_resume := None; cb_saveSession := None;
  cb_passwordFunc := None;
  op_capabilities := fun _ => [];
  encryptDSMFields := fun _ _ w => (Ok (JString "bundle"), w)
|}.

Definition script_api : APIInfo := {| api_Path := "entry.cgi"; api_MinVersion := 1;
  api_MaxVersion := 7; api_RequestFormat := "" |}.

(** A client with a session, to which the given APIs are known. *)
Definition script_client (scheme : string) (apis : list string) : Client := {|
  cl_Scheme := scheme; cl_Port := "5001"; cl_username := "admin"; cl_password := "pw";
  cl_deviceName := "host"; cl_deviceID := ""; cl_preserveSession := false;
  cl_retry := defaultRetryPolicy;
  cl_target := fold_left (fun t n => SetAPI n script_api t) apis
    (set_DSM (ParseDSMVersion "DSM 7.2.1-69057") NewTarget);
  cl_apiChecked := list_to_set ("SYNO.Core.System" :: apis);
  cl_sid := "sid-1"; cl_synoToken := ""
|}.

Definition reply (m : object) : answer :=
  Answered 200 (Some (JObject [("success", JBool true); ("data", JObject m)])).
Definition refusal (code : string) : answer :=
  Answered 200 (Some (JObject [("success", JBool false);
                               ("error", JObject [("code", JNumber code)])])).

Definition script_state (scheme : string) (apis : list string) (answers : list answer) :
    dstate (list answer) :=
  {| dc_client := script_client scheme apis; dc_world := answers; dc_log := [] |}.

Definition write_call : Request := {|
  rq_API := "SYNO.Core.Share"; rq_Version := 1; rq_Method := "create";
  rq_Parameters := ∅; rq_JSONParameters := Some [("name", JString "photos")];
  rq_EncryptedParameters := []; rq_ReadOnly := false |}.

(** The session is rejected, the login succeeds, the call is sent again. *)
Lemma mutation_never_replayed_witness :
  let U := ascii_tables in let N := script_world in
  let s := script_state "https" ["SYNO.Core.Share"; authAPI]
             [refusal "119"; reply [("sid", JString "sid-2")]; reply []] in
  let s' := (executeLocked write_call s).2 in
  length (sends write_call (dc_log s')) = 2%nat ∧ cl_sid (dc_client s') = "sid-2" ∧
  ∃ l, dc_log s' = dc_log s ++ l ∧ call_outcome write_call (sends write_call l)
                                     (executeLocked write_call s).1.
Proof.
  cbv zeta. split; [vm_compute; reflexivity|]. split; [vm_compute; reflexivity|].
  refine (@mutation_never_replayed ascii_tables _ script_world write_call _ _ _ _ _ _).
  - reflexivity.
  - unfold own_api. simpl. intros [?|[?|?]]; discriminate.
  - apply surjective_pairing.
Defined.

Definition secret_values : object := [("name", JString "u"); ("password", JString "s3cret")].
Definition key_reply : answer :=
  reply [("cipherkey", JString "__cIpHeRtExT"); ("ciphertoken", JString "t");
         ("public_key", JString "k"); ("server_time", JNumber "5")].

(** The password is not in the form; the bundle is. *)
Lemma secrets_encrypted_witness :
  let U := ascii_tables in let N := script_world in
  let s := script_state "http" [encryptionAPIName] [key_reply] in
  ∃ f s', encodeJSONParametersLocked secret_values ["password"] s = (Ok f, s') ∧
    f !! "name" = Some [Encoded (JString "u")] ∧
    f !! "__cIpHeRtExT" = Some [Encoded (JString "bundle")] ∧
    ∃ info fields w bundle w',
      encryptDSMFields info fields w = (Ok bundle, w') ∧
      ∀ name, name ∈ ["password"] →
        (name, default JNull (obj_get secret_values name)) ∈ fields ∧
        (f !! name = None ∨ name = ei_CipherKey info ∧ f !! name = Some [Encoded bundle]).
Proof.
  cbv zeta. eexists _, _. split; [vm_compute; reflexivity|].
  split; [vm_compute; reflexivity|]. split; [vm_compute; reflexivity|].
  refine (@secrets_encrypted ascii_tables _ script_world secret_values ["password"]
    (script_state "http" [encryptionAPIName] [key_reply]) _ _ _ _ _).
  - vm_compute; reflexivity.
  - discriminate.
  - discriminate.
Defined.
