(* ===== verification/DsmWire.v ===== *)
(** * The DSM client: which requests an operation can send

    Closure of [silent] under the client's executor, its operations and the preparation of
    the compatibility target, and the parameters a call puts on the wire. *)

From S2P Require Import Prelude.
From S2P Require Import GoStrings.
From S2P Require Import Compat.
From S2P Require Import Json.
From S2P Require Import DsmErrors.
From S2P Require Import DsmClient.
From S2P Require Import DsmThms.

(** ** Selection picks one of the variants *)

Section select.
Context {X : Type}.

Lemma select_loop_in opName t (vs : list (Variant X)) selected mism v reason mism' :
  select_loop opName t vs selected mism = inr (Some (v, reason), mism') →
  (∃ r0, selected = Some (v, r0)) ∨ v ∈ vs.
Proof.
  revert selected mism. induction vs as [|w vs IH]; intros selected mism; cbn [select_loop].
  { intros; simplify_eq. left. eauto. }
  intros Hs.
  assert (∀ sel m, select_loop opName t vs sel m = inr (Some (v, reason), mism') →
    (∃ r0, selected = Some (v, r0)) ∨ v ∈ w :: vs ∨ ∃ r0, sel = Some (v, r0)) as IH'.
  { intros sel m Hsel. destruct (IH _ _ Hsel) as [?|?]; [by right; right|].
    right; left. by right. }
  destruct (candidate_match t w) as [[[] rw]|].
  - destruct selected as [[s rs]|].
    + destruct (_ =? _); [done|]. destruct (_ <? _).
      * destruct (IH' _ _ Hs) as [?|[?|[r0 [= -> ->]]]]; [by left|by right|right; by left].
      * destruct (IH' _ _ Hs) as [?|[?|[r0 ?]]]; [by left|by right|left; eauto].
    + destruct (IH' _ _ Hs) as [?|[?|[r0 [= -> ->]]]]; [by left|by right|right; by left].
  - destruct (IH' _ _ Hs) as [?|[?|[r0 ?]]]; [by left|by right|left; eauto].
  - destruct (IH' _ _ Hs) as [?|[?|[r0 ?]]]; [by left|by right|left; eauto].
Qed.

Lemma Select_in (op : Operation X) t v sel :
  Select op t = (inr v, sel) → v ∈ op_Variants op.
Proof.
  unfold Select. destruct (select_loop _ _ _ _ _) as [|[[[w reason]|] mism]] eqn:E; [done| |done].
  intros; simplify_eq. by destruct (select_loop_in _ _ _ _ _ _ _ _ E) as [[??]|?].
Qed.
End select.

(** ** Silence of the executor *)

Section wire.
Context `{Unicode} {W : Type} `{Network W}.
Variable R : Post → Prop.
Hypothesis Hown : ∀ p, own_api (po_API p) → R p.

Abbreviation M := (ST (dstate W) dsm_error).

(** A call all of whose exchanges satisfy [R]. *)
Definition call_within (call : Request) : Prop :=
  ∀ p, po_API p = rq_API call → po_Method p = rq_Method call → R p.

Lemma silent_retry_loop fuel attempt delay deadline path params api method :
  only R (requestLocked path params api method) →
  only R (retry_loop fuel attempt delay deadline path params api method).
Proof.
  intros Hr. revert attempt delay. induction fuel as [|fuel IH]; intros attempt delay;
    cbn [retry_loop]; [apply silent_fail|].
  apply silent_catch; [done|]. intros e.
  apply silent_bind; [apply silent_client|]. intros c. cbv zeta.
  destruct (_ || _); [apply silent_fail|].
  apply silent_bind; [apply silent_outside|]. intros wait.
  apply silent_bind; [apply silent_clock|]. intros now.
  destruct (_ <=? 0); [apply silent_fail|].
  apply silent_bind; [apply silent_outside|]. intros slept.
  apply silent_bind; [apply silent_check|]. intros _. apply IH.
Qed.

Lemma silent_request_retry path params api method readOnly :
  only R (requestLocked path params api method) →
  only R (requestWithRetryLocked path params api method readOnly).
Proof.
  intros Hr. unfold requestWithRetryLocked.
  apply silent_bind; [apply silent_client|]. intros c. cbv zeta.
  destruct (_ || _); [done|]. apply silent_bind; [apply silent_clock|]. intros now.
  by apply silent_retry_loop.
Qed.

(** A bind whose continuation may use what the first run established. *)
Lemma silent_bind_ok {A B} (m : M A) (k : A → M B) :
  only R m → (∀ s a s1, m s = (Ok a, s1) → only R (k a)) → only R (m ≫= k).
Proof.
  intros Hm Hk s r s'. unfold mbind, ST_bind.
  destruct (m s) as [[a|e] s1] eqn:E; intros Hr; destruct (Hm _ _ _ E) as (Hc & l & Hl & HR).
  - destruct (Hk _ _ _ E _ _ _ Hr) as (Hc' & l' & Hl' & HR').
    split; [by rewrite Hc'|]. exists (l ++ l'). split; [|by apply Forall_app].
    by rewrite Hl', Hl, app_assoc.
  - simplify_eq. eauto.
Qed.

(** The parameters the executor adds to a call. *)
Definition reserved : list string := ["api"; "version"; "method"; "_sid"; "SynoToken"].

Section params.
Variable call : Request.
(** What is known of the parameters, untouched by the executor's own. *)
Variable inv : Values → Prop.
Hypothesis Hset : ∀ f k v, k ∈ reserved → inv f → inv (vset k v f).
Hypothesis Hdel : ∀ f, inv f → inv (delete "SynoToken" f).
Hypothesis Hcall : ∀ s params s', call_params call s = (Ok params, s') → inv params.
Hypothesis Hsend : ∀ path params, inv params →
  only R (requestLocked path params (rq_API call) (rq_Method call)).

Lemma session_params_inv c f : inv f → inv (session_params c f).
Proof.
  intros Hf. unfold session_params.
  assert (inv (vset "_sid" (Text (cl_sid c)) f)) by (apply Hset; [unfold reserved; set_solver|done]).
  case_bool_decide; [done|]. apply Hset; [unfold reserved; set_solver|done].
Qed.

Lemma silent_execute_inv : only R (executeLocked call).
Proof.
  unfold executeLocked.
  apply silent_bind; [by apply silent_ensure|]. intros _.
  apply silent_bind; [by apply silent_login|]. intros _.
  apply silent_bind; [apply silent_client|]. intros c. cbv zeta.
  apply silent_bind; [apply silent_check|]. intros _.
  apply silent_bind_ok; [by apply silent_call_params|]. intros s0 params s1 Hp.
  apply Hcall in Hp.
  apply silent_bind; [apply silent_client|]. intros c'.
  set (params' := session_params _ _).
  assert (inv params') as Hi.
  { apply session_params_inv. do 3 (apply Hset; [unfold reserved; set_solver|]). done. }
  apply silent_catch; [by apply silent_request_retry, Hsend|]. intros e.
  destruct (isSessionError e); [|apply silent_fail].
  unfold retry_session. apply silent_bind; [by apply silent_update|]. intros _.
  apply silent_bind.
  { apply silent_catch; [by apply silent_reestablish|]. intros. apply silent_fail. }
  intros _. apply silent_bind; [apply silent_client|]. intros c2.
  apply silent_request_retry, Hsend, session_params_inv, Hdel, Hi.
Qed.
End params.

Lemma silent_execute (call : Request) : call_within call → only R (executeLocked call).
Proof.
  intros Ha. apply (silent_execute_inv call (fun _ => True)); try done.
  intros path params _. apply silent_request. auto.
Qed.

(** ** Operations *)

Lemma silent_run_op {I O} (op : Operation (I → M O)) (i : I) :
  (∀ v f, v ∈ op_Variants op → va_Execute v = Some f → only R (f i)) →
  only R (run_op op i).
Proof.
  intros Hv s r s'. unfold run_op, Run.
  destruct (Select op (cl_target (dc_client s))) as [[e|v] sel] eqn:Es.
  { intros [= <- <-]. split; [done|]. exists []. rewrite app_nil_r. split; [done|constructor]. }
  apply Select_in in Es. destruct (va_Execute v) as [f|] eqn:Ef.
  2:{ intros [= <- <-]. split; [done|]. exists []. rewrite app_nil_r. split; [done|constructor]. }
  destruct (f i s) as [[o|e] s1] eqn:E; intros [= <- <-]; by apply (Hv v f Es Ef) in E.
Qed.

Lemma silent_system_operation :
  (∀ p, po_API p = "SYNO.Core.System" → po_Method p = "info" → R p) →
  only R (run_op system_operation () : M (string * Selection)).
Proof.
  intros Hs. apply silent_run_op. intros v f Hv Hf.
  assert (∀ data keys, only R (lift (decode_dsm_version keys data) : M string)) by
    (intros; apply silent_lift).
  cbn [op_Variants system_operation] in Hv.
  repeat (apply elem_of_cons in Hv as [->|Hv];
    [injection Hf as <-; apply silent_bind; [|auto]; apply silent_wrap, silent_execute;
     intros p; apply Hs|]).
  by apply elem_of_nil in Hv.
Qed.

Lemma silent_note_version version : only R (note_version version : M ()).
Proof.
  unfold note_version. case_bool_decide; [apply silent_ret|]. by apply silent_update.
Qed.

Lemma silent_prepare names :
  (∀ p, po_API p = "SYNO.Core.System" → po_Method p = "info" → R p) →
  only R (prepareCompatibilityTargetLocked names : M ()).
Proof.
  intros Hs. unfold prepareCompatibilityTargetLocked.
  apply silent_bind; [by apply silent_discover|]. intros _.
  apply silent_bind; [apply silent_client|]. intros c. destruct (dsm_Known _); [apply silent_ret|].
  apply silent_bind; [|intros; apply silent_ret]. apply silent_wrap.
  unfold systemInfoLocked.
  apply silent_bind; [by apply silent_wrap, silent_discover|]. intros _.
  apply silent_bind; [by apply silent_wrap, silent_system_operation|]. intros [version initial].
  apply silent_bind; [apply silent_note_version|]. intros _.
  apply silent_bind; [apply silent_client|]. intros c2.
  destruct (Select system_operation _) as [[e|v] final]; [apply silent_fail|].
  apply silent_bind; [|intros; apply silent_bind; [by apply silent_update|intros; apply silent_ret]].
  case_bool_decide; [apply silent_ret|].
  apply silent_bind; [by apply silent_wrap, silent_system_operation|]. intros [version' sel].
  apply silent_bind; [apply silent_note_version|]. intros _. apply silent_ret.
Qed.
End wire.

(** ** The parameters of a typed call *)

Section typed.
Context `{Unicode} {W : Type} `{Network W}.

Lemma clear_params_get (values : object) name v :
  obj_get values name = Some v → clear_params values [] !! name = Some [Encoded v].
Proof.
  intros Hv. unfold clear_params.
  assert (∀ l (f : Values), (name ∈ l ∨ f !! name = Some [Encoded v]) →
    fold_left (fun f k => match obj_get values k with
      | Some v => if bool_decide (k ∈ []) then f else vset k (Encoded v) f
      | None => f end) l f !! name = Some [Encoded v]) as Hl.
  { intros l. induction l as [|k l IH]; intros f Hf; cbn [fold_left].
    { destruct Hf as [[]%elem_of_nil|]; done. }
    apply IH. destruct (decide (k = name)) as [->|Hne].
    - right. rewrite Hv. rewrite bool_decide_false by apply not_elem_of_nil.
      unfold vset. by rewrite lookup_insert_eq.
    - destruct Hf as [[->|Hin]%elem_of_cons|Hf]; [done|by left|]. right.
      destruct (obj_get values k); [|done].
      rewrite bool_decide_false by apply not_elem_of_nil.
      unfold vset. by rewrite lookup_insert_ne. }
  apply Hl. left. unfold obj_keys. rewrite elem_of_dedup.
  destruct (decide (name ∈ values.*1)) as [|Hn]; [done|].
  apply obj_get_None in Hn. congruence.
Qed.

(** Every exchange of a typed call without secrets carries each of its values. *)
Lemma typed_call_sends (call : Request) values name v :
  ¬ own_api (rq_API call) → rq_JSONParameters call = Some values →
  rq_EncryptedParameters call = [] → obj_get values name = Some v → name ∉ reserved →
  only (fun p => carries call p → po_Params p !! name = Some [Encoded v])
    (executeLocked call).
Proof.
  intros Hown Hj He Hv Hr.
  apply (silent_execute_inv _ (fun p Ho Hc => False_ind _ (own_silent call Hown p Ho Hc)) call
    (fun f => f !! name = Some [Encoded v])).
  - intros f k w Hk Hf. unfold vset. rewrite lookup_insert_ne; [done|]. by intros ->.
  - intros f Hf. rewrite lookup_delete_ne; [done|].
    intros <-. apply Hr. unfold reserved. set_solver.
  - intros s params s' Hp. unfold call_params in Hp. rewrite Hj, He in Hp.
    unfold wrap, encodeJSONParametersLocked, mbind, ST_bind, mret, ST_ret, client in Hp.
    cbn in Hp. injection Hp as <- <-. by apply clear_params_get.
  - intros path params Hp s r s'. unfold requestLocked. destruct (net_Do _ _) as [a w].
    intros; simplify_eq. split; [done|]. eexists. split; [done|].
    apply Forall_singleton. cbn. naive_solver.
Qed.
End typed.
