(* ===== verification/DsmOps.v ===== *)
(** * Operations of the DSM client: what the domains share

    The shapes that the operations of every domain use: an operation with one variant, a
    form call and a typed call, and the capabilities noted on the target.  The second part
    closes [only R] under them; [silent_walk] follows the structure of a method. *)

From S2P Require Import Prelude.
From S2P Require Import GoStrings.
From S2P Require Import Compat.
From S2P Require Import Json.
From S2P Require Import DsmErrors.
From S2P Require Import DsmClient.
From S2P Require Import DsmThms.
From S2P Require Import DsmWire.

(** A call that does not say it is read only, with form or with typed parameters. *)
Definition form_call (api : string) (version : Z) (method : string) (f : Values) : Request := {|
  rq_API := api; rq_Version := version; rq_Method := method; rq_Parameters := f;
  rq_JSONParameters := None; rq_EncryptedParameters := []; rq_ReadOnly := false |}.

Definition typed_call (api : string) (version : Z) (method : string) (params : object)
    (encrypted : list string) : Request := {|
  rq_API := api; rq_Version := version; rq_Method := method; rq_Parameters := ∅;
  rq_JSONParameters := Some params; rq_EncryptedParameters := encrypted;
  rq_ReadOnly := false |}.

Section ops.
Context `{Unicode} {W : Type} `{Network W}.

Abbreviation M := (ST (dstate W) dsm_error).

(** An operation with one variant. *)
Definition operation_v {I O} (version : Z) (name variant api : string) (m : Matcher)
    (execute : I → M O) : Operation (I → M O) := {|
  op_Name := name;
  op_Variants := [{| va_Name := variant; va_API := api; va_Version := version;
                     va_Priority := 10; va_Match := Some m; va_Execute := Some execute |}] |}.
Definition operation1 {I O} : string → string → string → Matcher → (I → M O) →
    Operation (I → M O) := operation_v 1.

Definition add_capability (name : string) : M () :=
  update (fun c => set_target (AddCapability name (cl_target c)) c).
Definition when_supported (b : bool) (name : string) : M () :=
  if b then add_capability name else mret ().

(** The selection of an operation: an unsupported one is not an error. *)
Definition select_supported {X} (what : string) (op : Operation X) : M bool :=
  c ← client;
  match Select op (cl_target c) with
  | (inr _, selection) => mret (sl_Supported selection)
  | (inl (UnsupportedOperation _), selection) => mret (sl_Supported selection)
  | (inl e, _) => fail (EWrap what (ESelect e))
  end.
End ops.

(** ** What they send *)

Section only.
Context `{Unicode} {W : Type} `{Network W}.
Variable R : Post → Prop.

Abbreviation M := (ST (dstate W) dsm_error).

Lemma only_operation {I O} version name variant api m (execute : I → M O) i :
  only R (execute i) → only R (run_op (operation_v version name variant api m execute) i).
Proof.
  intros Hq. apply silent_run_op. intros v f Hv Hf.
  apply list_elem_of_singleton in Hv as ->. by injection Hf as <-.
Qed.

Lemma only_add name : only R (add_capability name : M ()).
Proof. by apply silent_update. Qed.
Lemma only_when b name : only R (when_supported b name : M ()).
Proof. destruct b; [apply only_add|apply silent_ret]. Qed.
Lemma only_select {X} what (op : Operation X) : only R (select_supported what op : M bool).
Proof.
  apply silent_bind; [apply silent_client|]. intros c.
  destruct (Select op _) as [[[]|] sel]; auto using silent_ret, silent_fail.
Qed.
End only.

(** ** What a call puts on the wire *)

(** The parameters of a call, before the executor adds its own. *)
Definition visible (call : Request) : Values :=
  match rq_JSONParameters call with
  | Some values => clear_params values []
  | None => rq_Parameters call
  end.

(** The post carries the call; without secrets, also exactly its parameters. *)
Definition sent (call : Request) (p : Post) : Prop :=
  carries call p ∧
  (rq_EncryptedParameters call = [] →
   ∀ k, k ∉ reserved → po_Params p !! k = visible call !! k).

(** The changes [Q] that a method sends are among the calls. *)
Definition changes_by (calls : list Request) (p : Post) : Prop :=
  ∃ call, call ∈ calls ∧ sent call p.
Abbreviation only_calls Q calls := (only (fun p => Q p → changes_by calls p)).

Section calls.
Context `{Unicode} {W : Type} `{Network W}.

Abbreviation M := (ST (dstate W) dsm_error).

Lemma call_sends (call : Request) :
  ¬ own_api (rq_API call) →
  only (fun p => carries call p → sent call p) (executeLocked call : M RawMessage).
Proof.
  intros Hown. pose proof (own_silent call Hown) as Hs.
  destruct (decide (rq_EncryptedParameters call = [])) as [He|He].
  2:{ apply silent_execute; [intros p Ho Hc; by destruct (Hs p)|].
      intros p _ _ Hc. by split. }
  apply (silent_execute_inv _ (fun p Ho Hc => False_ind _ (Hs p Ho Hc)) call
    (fun f => ∀ k, k ∉ reserved → f !! k = visible call !! k)).
  - intros f k w Hk Hf k' Hk'. unfold vset. rewrite lookup_insert_ne; [auto|]. by intros ->.
  - intros f Hf k Hk. rewrite lookup_delete_ne; [auto|].
    intros <-. apply Hk. unfold reserved. set_solver.
  - intros s params s' Hp. unfold call_params in Hp. unfold visible.
    destruct (rq_JSONParameters call).
    + rewrite He in Hp. unfold wrap, encodeJSONParametersLocked, mbind, ST_bind, mret, ST_ret,
        client in Hp. cbn in Hp. by injection Hp as <- <-.
    + rewrite bool_decide_true in Hp by done. by injection Hp as <- <-.
  - intros path params Hp. apply silent_request_params. intros p Hpar Hc. split; [done|].
    intros _ k Hk. by rewrite Hpar, Hp.
Qed.

(** The mutating requests of a domain, by API and method. *)
Definition writes (l : list (string * string)) (p : Post) : Prop := (po_API p, po_Method p) ∈ l.
Definition is_own (api : string) : bool :=
  bool_decide (api ∈ ["SYNO.API.Info"; authAPI; encryptionAPIName]).
Definition own_free (l : list (string * string)) : bool := forallb (fun x => negb (is_own x.1)) l.

Lemma own_not_writes l p : own_free l = true → own_api (po_API p) → ¬ writes l p.
Proof.
  unfold own_free, writes. rewrite forallb_forall. intros Hl Ho Hw.
  apply list_elem_of_In, Hl in Hw. cbn in Hw. unfold is_own in Hw.
  rewrite bool_decide_true in Hw; [done|]. unfold own_api in Ho. set_solver.
Qed.

Lemma quiet_call l call :
  own_free l = true → (rq_API call, rq_Method call) ∉ l →
  silent (writes l) (executeLocked call : M RawMessage).
Proof.
  intros Hl Hn. apply silent_execute; [intros p; by apply own_not_writes|].
  intros p Ha Hm Hw. apply Hn. by rewrite <- Ha, <- Hm.
Qed.

Lemma quiet_prepared l names :
  own_free l = true → ("SYNO.Core.System", "info") ∉ l →
  silent (writes l) (prepareCompatibilityTargetLocked names : M ()).
Proof.
  intros Hl Hn. apply silent_prepare; [intros p; by apply own_not_writes|].
  intros p Ha Hm Hw. apply Hn. by rewrite <- Ha, <- Hm.
Qed.

Lemma call_among l calls call :
  own_free l = true → call ∈ calls → is_own (rq_API call) = false →
  only_calls (writes l) calls (executeLocked call : M RawMessage).
Proof.
  intros Hl Hin Hown. assert (¬ own_api (rq_API call)) as Ho.
  { unfold is_own in Hown. apply bool_decide_eq_false in Hown. unfold own_api. set_solver. }
  eapply only_weaken; [|apply only_and; [by apply (call_sends call)|]];
    [|apply (silent_execute (fun p => writes l p → carries call p))].
  - intros p [Hs Hc] Hw. exists call. auto.
  - intros p Hp Hw. by destruct (own_not_writes l p).
  - intros p Ha Hm _. by split.
Qed.

Lemma only_calls_mono {A} Q calls calls' (m : M A) :
  calls ⊆ calls' → only_calls Q calls m → only_calls Q calls' m.
Proof.
  intros Hs. apply only_weaken. intros p Hp Hw. destruct (Hp Hw) as (call & Hc & Ha).
  exists call. auto.
Qed.

(** A silent beginning, then a rest that sends what its result determines. *)
Lemma silent_then {A B} (Q : Post → Prop) (P : A → Post → Prop) (m : M A) (k : A → M B)
    (s : dstate W) r s' :
  silent Q m → (∀ a, only (fun p => Q p → P a p) (k a)) → (m ≫= k) s = (r, s') →
  ∃ l, dc_log s' = dc_log s ++ l ∧
    (Forall (fun x => ¬ Q x.1) l ∨
     ∃ a s1, m s = (Ok a, s1) ∧ Forall (fun x => Q x.1 → P a x.1) l).
Proof.
  intros Hm Hk. unfold mbind, ST_bind. destruct (m s) as [[a|e] s1] eqn:E;
    destruct (Hm _ _ _ E) as (_ & l & Hl & HQ); intros Hr; [|simplify_eq; eauto].
  destruct (Hk _ _ _ _ Hr) as (_ & l' & Hl' & HP).
  exists (l ++ l'). split; [by rewrite Hl', Hl, app_assoc|]. right. exists a, s1.
  split; [done|]. apply Forall_app. split; [|done].
  eapply Forall_impl; [exact HQ|]. cbn. by intros x Hn Hx.
Qed.

(** Binds associate. *)
Lemma bind_assoc {A B C} (m : M A) (f : A → M B) (k : B → M C) (s : dstate W) :
  (a ← m; b ← f a; k b) s = (b ← (a ← m; f a); k b) s.
Proof. unfold mbind, ST_bind. by destruct (m s) as [[]]. Qed.

Lemma silent_writes {A} (Q P : Post → Prop) (m : M A) :
  silent Q m → only (fun p => Q p → P p) m.
Proof. apply only_weaken. by intros p Hn Hq. Qed.

Lemma only_lift_bind {A B} (R : Post → Prop) (x : result dsm_error A) (k : A → M B) :
  (∀ a, x = Ok a → only R (k a)) → only R (a ← lift x; k a).
Proof.
  destruct x as [a|e]; intros Hk; [by apply (Hk a)|].
  intros s r s' [= <- <-]. split; [done|]. exists []. rewrite app_nil_r. split; [done|constructor].
Qed.
End calls.

(** One step of a walk along the code, by the head of the computation. *)
Ltac silent_step :=
  lazymatch goal with
  | |- only _ (mret _) => apply silent_ret
  | |- only _ (fail _) => apply silent_fail
  | |- only _ client => apply silent_client
  | |- only _ (check _ _) => apply silent_check
  | |- only _ (lift _) => apply silent_lift
  | |- only _ (outside _) => apply silent_outside
  | |- only _ (add_capability _) => apply only_add
  | |- only _ (when_supported _ _) => apply only_when
  | |- only _ (select_supported _ _) => apply only_select
  | |- only _ (mbind _ (lift _)) => apply only_lift_bind; intros ? ?
  | |- only _ (mbind _ _) => apply silent_bind; [|intros ?]
  | |- only _ (catch _ _) => apply silent_catch; [|intros ?]
  | |- only _ (wrap _ _) => apply silent_wrap
  | |- only _ (run_op (operation1 _ _ _ _ _) _) => apply only_operation
  | |- only _ (run_op (operation_v _ _ _ _ _ _) _) => apply only_operation
  | |- only _ (let _ := _ in _) => cbv zeta
  | |- only _ (match ?x with _ => _ end) => destruct x
  end.
Ltac silent_walk := repeat first [silent_step | assumption].

(** A read: its API and method are none of the writes. *)
Ltac quiet_leaf :=
  match goal with
  | |- only _ (executeLocked _) =>
      apply quiet_call; [reflexivity|by apply (bool_decide_unpack _)]
  | |- only _ (prepareCompatibilityTargetLocked _) =>
      apply quiet_prepared; [reflexivity|by apply (bool_decide_unpack _)]
  end.
Ltac quiet_walk := repeat first [silent_step | quiet_leaf | assumption].
