(* ===== verification/FirewallWire.v ===== *)
(** * The wire form of the DSM firewall

    Source: internal/synology/operations/firewall/decode.go.  Lenient decoders of the
    firewall replies, and the encoding of a profile for [Profile.set].  The keys of a
    reply are sorted before its sections are read, so the order of a Go map does not
    matter. *)

From S2P Require Import Prelude.
From S2P Require Import GoStrings.
From S2P Require Import Firewall.
From S2P Require Import Compat.
From S2P Require Import Json.
From S2P Require Import DsmErrors.

(** [firewall.Status], without the adapters, which another reply fills in. *)
Record Status := {
  fs_Enabled : bool;
  fs_ActiveProfile : string;
  fs_Adapters : list string
}.

Record SessionSource := {
  ss_From : string;
  ss_Who : string;
  ss_Current : bool
}.

(** ** Decoding helpers *)

Definition decodeObject (data : RawMessage) (what : string) : result dsm_error object :=
  match data with
  | Some (JObject m) => Ok m
  | Some JNull => Err (EMsg ("decode " +:+ what +:+ ": response is not an object"))
  | _ => Err (EMsg ("decode " +:+ what))
  end.

Definition has_key (m : object) (key : string) : bool := bool_decide (is_Some (obj_get m key)).
Definition hasAny (m : object) (keys : list string) : bool := existsb (has_key m) keys.

(** The first key that holds a non-blank text or a number. *)
Fixpoint stringValue (m : object) (keys : list string) : string :=
  match keys with
  | [] => ""
  | k :: keys =>
      match obj_get m k with
      | Some (JString s) =>
          let trimmed := TrimSpace s in
          if bool_decide (trimmed = "") then stringValue m keys else trimmed
      | Some (JNumber n) => n
      | _ => stringValue m keys
      end
  end.

Fixpoint intValue (m : object) (keys : list string) : Z :=
  match keys with
  | [] => 0
  | k :: keys =>
      match obj_get m k with
      | Some (JNumber n) =>
          match number_int n with Some z => z | None => intValue m keys end
      | _ => intValue m keys
      end
  end.

(** [value, ok]: callers ignore [ok]. *)
Fixpoint boolValue (m : object) (keys : list string) : bool :=
  match keys with
  | [] => false
  | k :: keys =>
      match obj_get m k with
      | Some (JBool b) => b
      | _ => boolValue m keys
      end
  end.

(** ** Replies *)

Definition decodeStatus (data : RawMessage) : result dsm_error Status :=
  root ← decodeObject data "firewall status";
  if negb (hasAny root ["enable_firewall"; "enabled"; "profile_name"])
  then Err (EMsg "decode firewall status: no recognized fields")
  else Ok {| fs_Enabled := boolValue root ["enable_firewall"; "enabled"; "enable"];
             fs_ActiveProfile := stringValue root ["profile_name"; "profile"; "name"];
             fs_Adapters := [] |}.

Definition decode_names (items : list json) : list string :=
  omap (fun v => match v with
                 | JString s => let t := TrimSpace s in
                                if bool_decide (t = "") then None else Some t
                 | _ => None
                 end) items.

Definition decodeNameList (data : RawMessage) (keys : list string) :
    result dsm_error (list string) :=
  root ← decodeObject data "firewall name list";
  match (fix go (keys : list string) : option (list json) :=
           match keys with
           | [] => None
           | k :: keys => match obj_get root k with
                          | Some (JArray items) => Some items
                          | _ => go keys
                          end
           end) keys with
  | Some items => Ok (decode_names items)
  | None => Err (EMsg "decode firewall name list: no string array")
  end.

Definition decode_rule (v : json) : option Rule :=
  match v with
  | JObject o => Some {|
      ru_Enabled := boolValue o ["enable"; "enabled"];
      ru_Policy := stringValue o ["policy"; "action"];
      ru_Protocol := stringValue o ["protocol"; "proto"];
      ru_PortDirection := stringValue o ["port_direction"; "direction"; "dir"];
      ru_PortGroup := stringValue o ["port_group"; "port_type"];
      ru_Ports := stringValue o ["ports"; "port"; "service"];
      ru_SourceGroup := stringValue o ["source_ip_group"; "src_type"; "source_type"];
      ru_Source := stringValue o ["source_ip"; "src"; "source"];
      ru_Log := boolValue o ["log"];
      ru_Name := stringValue o ["name"; "desc"; "description"] |}
  | _ => None
  end.

Definition decodeRules (section : object) : list Rule :=
  match obj_get section "rules" with
  | Some (JArray items) => omap decode_rule items
  | _ => []
  end.

Definition decodeAdapterPolicy (adapter : string) (section : object) : AdapterPolicy :=
  let policy := stringValue section ["policy"; "default_policy"] in
  let rules := decodeRules section in
  let total := intValue section ["total"] in
  {| fa_Adapter := adapter;
     fa_Policy := if bool_decide (policy = "") then PolicyNone else policy;
     fa_Total := if total =? 0 then Z.of_nat (length rules) else total;
     fa_Rules := rules |}.

(** The adapter section a key of the reply holds. *)
Definition decode_section (root : object) (key : string) : option AdapterPolicy :=
  if bool_decide (key = "name") then None else
  match obj_get root key with
  | Some (JObject section) =>
      if has_key section "policy" || has_key section "rules"
      then Some (decodeAdapterPolicy key section) else None
  | _ => None
  end.

Definition decodeProfileRules (data : RawMessage) (requestedProfile : string) :
    result dsm_error ProfileRules :=
  root ← decodeObject data "firewall profile rules";
  let named := stringValue root ["name"] in
  let profileName := if bool_decide (named = "") then requestedProfile else named in
  let adapters := omap (decode_section root) (sort_strings (obj_keys root)) in
  if bool_decide (profileName = "") && bool_decide (length adapters = 0%nat)
  then Err (EMsg "decode firewall profile rules: no name or adapter sections")
  else Ok {| fp_Profile := profileName; fp_IsActive := false; fp_Adapters := adapters |}.

Definition decode_source (v : json) : option SessionSource :=
  match v with
  | JObject o =>
      let from := stringValue o ["from"; "ip"; "ip_addr"] in
      if bool_decide (from = "") then None
      else Some {| ss_From := from; ss_Who := stringValue o ["who"; "user"];
                   ss_Current := boolValue o ["is_current_connected"; "is_current"; "current"] |}
  | _ => None
  end.

Definition decodeCurrentConnection (data : RawMessage) : result dsm_error (list SessionSource) :=
  root ← decodeObject data "current connection";
  match obj_get root "items" with
  | None | Some JNull => Ok []
  | Some (JArray items) => Ok (omap decode_source items)
  | Some _ => Err (EMsg "decode current connection: items is not an array")
  end.

(** ** Encoding a profile *)

Definition encodeRule (r : Rule) : json := JObject
  [("enable", JBool (ru_Enabled r)); ("name", JString (ru_Name r));
   ("policy", JString (ru_Policy r)); ("protocol", JString (ru_Protocol r));
   ("port_direction", JString (ru_PortDirection r));
   ("port_group", JString (ru_PortGroup r)); ("ports", JString (ru_Ports r));
   ("source_ip_group", JString (ru_SourceGroup r)); ("source_ip", JString (ru_Source r));
   ("log", JBool (ru_Log r))].

Definition encode_section (a : AdapterPolicy) : json := JObject
  [("policy", JString (fa_Policy a)); ("rules", JArray (encodeRule <$> fa_Rules a))].

(** A section named "name" would replace the profile's name. *)
Definition encodeProfile (p : ProfileRules) : object :=
  fold_left (fun out a => obj_set out (fa_Adapter a) (encode_section a)) (fp_Adapters p)
    [("name", JString (fp_Profile p))].

(** ** Round trip *)

(** A profile in the form DSM reports: texts without surrounding space, sections in the
    order of their names, each with a policy and the number of its rules. *)
Definition trimmed (s : string) : Prop := TrimSpace s = s.

Definition canonical_rule (r : Rule) : Prop :=
  trimmed (ru_Policy r) ∧ trimmed (ru_Protocol r) ∧ trimmed (ru_PortDirection r) ∧
  trimmed (ru_PortGroup r) ∧ trimmed (ru_Ports r) ∧ trimmed (ru_SourceGroup r) ∧
  trimmed (ru_Source r) ∧ trimmed (ru_Name r).

Definition canonical_adapter (a : AdapterPolicy) : Prop :=
  trimmed (fa_Policy a) ∧ fa_Policy a ≠ "" ∧ fa_Adapter a ≠ "name" ∧
  fa_Total a = Z.of_nat (length (fa_Rules a)) ∧ Forall canonical_rule (fa_Rules a).

Definition canonical_profile (p : ProfileRules) : Prop :=
  trimmed (fp_Profile p) ∧ fp_Profile p ≠ "" ∧ fp_IsActive p = false ∧
  Forall canonical_adapter (fp_Adapters p) ∧
  NoDup (fa_Adapter <$> fp_Adapters p) ∧
  StronglySorted String.le (fa_Adapter <$> fp_Adapters p).

(** *** Sorting and sections *)

Lemma omap_cons {A B} (f : A → option B) x (l : list A) :
  omap f (x :: l) = match f x with Some y => y :: omap f l | None => omap f l end.
Proof. done. Qed.

Lemma omap_filter {A B} (P : A → Prop) `{∀ x, Decision (P x)} (f : A → option B)
    (l : list A) :
  (∀ x, ¬ P x → f x = None) → omap f l = omap f (base.filter P l).
Proof.
  intros Hf. induction l as [|x l IH]; [done|].
  destruct (decide (P x)) as [Hx|Hx].
  - by rewrite filter_cons_True, !omap_cons, IH by done.
  - by rewrite filter_cons_False, omap_cons, (Hf x Hx) by done.
Qed.

Lemma StronglySorted_filter {A} (R : relation A) (P : A → Prop) `{∀ x, Decision (P x)}
    (l : list A) :
  StronglySorted R l → StronglySorted R (base.filter P l).
Proof.
  induction 1 as [|x l _ IH Hx]; [constructor|].
  destruct (decide (P x)).
  - rewrite filter_cons_True by done. constructor; [done|].
    rewrite Forall_forall in Hx |- *. intros y [_ Hy]%list_elem_of_filter. auto.
  - by rewrite filter_cons_False.
Qed.

(** Sorting a sorted list of names with one more name, then dropping that name. *)
Lemma sort_extra (n : string) l :
  NoDup l → n ∉ l → StronglySorted String.le l →
  base.filter (fun k => k ≠ n) (sort_strings (n :: l)) = l.
Proof.
  intros Hnd Hn Hs. apply (StronglySorted_unique String.le).
  - apply StronglySorted_filter. apply StronglySorted_merge_sort; apply _.
  - done.
  - unfold sort_strings. rewrite merge_sort_Permutation.
    rewrite filter_cons_False by (intros Hx; by apply Hx).
    clear Hs Hnd. induction l as [|k l IH]; [done|].
    apply not_elem_of_cons in Hn as [? ?].
    rewrite filter_cons_True by done. by rewrite IH.
Qed.

Lemma stringValue_absent o keys :
  Forall (fun k => obj_get o k = None) keys → stringValue o keys = "".
Proof. induction 1 as [|k keys Hk _ IH]; [done|]. simpl. by rewrite Hk. Qed.

(** The first key of a field holds its text; the older spellings are absent. *)
Lemma stringValue_first o s k keys :
  obj_get o k = Some (JString s) → trimmed s → Forall (fun k => obj_get o k = None) keys →
  stringValue o (k :: keys) = s.
Proof.
  intros Hk Ht Hks. simpl. rewrite Hk, Ht. case_bool_decide; [|done].
  subst. by apply stringValue_absent.
Qed.

(** A rule is read back from its own encoding. *)
Lemma decode_encode_rule r : canonical_rule r → decode_rule (encodeRule r) = Some r.
Proof.
  intros (H1 & H2 & H3 & H4 & H5 & H6 & H7 & H8).
  unfold decode_rule, encodeRule.
  set (o := [_; _; _; _; _; _; _; _; _; _]).
  rewrite (stringValue_first o (ru_Policy r)), (stringValue_first o (ru_Protocol r)),
    (stringValue_first o (ru_PortDirection r)), (stringValue_first o (ru_PortGroup r)),
    (stringValue_first o (ru_Ports r)), (stringValue_first o (ru_SourceGroup r)),
    (stringValue_first o (ru_Source r)), (stringValue_first o (ru_Name r));
    try done; try (repeat constructor; reflexivity).
  by destruct r.
Qed.

Lemma decode_encode_rules l :
  Forall canonical_rule l → omap decode_rule (encodeRule <$> l) = l.
Proof.
  induction 1 as [|r l Hr _ IH]; [done|].
  by rewrite fmap_cons, omap_cons, decode_encode_rule, IH by done.
Qed.

Lemma decode_encode_section a : canonical_adapter a →
  match encode_section a with
  | JObject section => decodeAdapterPolicy (fa_Adapter a) section = a
  | _ => False
  end.
Proof.
  intros (Hp & Hne & _ & Ht & Hr). cbn [encode_section].
  unfold decodeAdapterPolicy, decodeRules.
  rewrite (stringValue_first _ (fa_Policy a)); [|done|done|by repeat constructor].
  rewrite bool_decide_false by done.
  change (obj_get _ "rules") with (Some (JArray (encodeRule <$> fa_Rules a))).
  cbn [intValue obj_get]. rewrite (decode_encode_rules _ Hr).
  cbn. rewrite <- Ht. by destruct a.
Qed.

(** *** The object of a profile *)

Lemma encode_fold_fresh l m :
  NoDup (fa_Adapter <$> l) → (∀ a, a ∈ l → fa_Adapter a ∉ m.*1) →
  fold_left (fun out a => obj_set out (fa_Adapter a) (encode_section a)) l m =
  m ++ ((fun a => (fa_Adapter a, encode_section a)) <$> l).
Proof.
  revert m. induction l as [|a l IH]; intros m; cbn.
  { intros. by rewrite app_nil_r. }
  rewrite NoDup_cons. intros [Ha Hl] Hm.
  rewrite obj_set_fresh by (apply Hm; by left). rewrite IH; [by rewrite <- app_assoc|done|].
  intros b Hb. rewrite fmap_app, not_elem_of_app. split; [apply Hm; by right|].
  cbn. rewrite list_elem_of_singleton. intros Heq. apply Ha. rewrite <- Heq.
  by apply list_elem_of_fmap_2.
Qed.

Lemma obj_get_fmap {A} (f : A → string) (g : A → json) l a :
  NoDup (f <$> l) → a ∈ l → obj_get ((fun a => (f a, g a)) <$> l) (f a) = Some (g a).
Proof.
  induction l as [|b l IH]; [by intros _ []%elem_of_nil|].
  rewrite !fmap_cons, NoDup_cons. intros [Hb Hl] [->|Ha]%elem_of_cons.
  - apply obj_get_cons_eq, obj_get_None. by rewrite <- list_fmap_compose.
  - destruct (decide (f b = f a)) as [Heq|Hne].
    + exfalso. apply Hb. rewrite Heq. by apply list_elem_of_fmap_2.
    + rewrite obj_get_cons_ne by done. auto.
Qed.

Definition sections_of (p : ProfileRules) : object :=
  (fun a => (fa_Adapter a, encode_section a)) <$> fp_Adapters p.

Lemma sections_keys p : (sections_of p).*1 = fa_Adapter <$> fp_Adapters p.
Proof. unfold sections_of. by rewrite <- list_fmap_compose. Qed.

Lemma canonical_no_name p : canonical_profile p → "name" ∉ (fa_Adapter <$> fp_Adapters p).
Proof.
  intros (_ & _ & _ & Ha & _) (a & Hna & Hin)%list_elem_of_fmap.
  rewrite Forall_forall in Ha. destruct (Ha _ Hin) as (_ & _ & Hnn & _). congruence.
Qed.

Lemma encodeProfile_canonical p :
  canonical_profile p → encodeProfile p = ("name", JString (fp_Profile p)) :: sections_of p.
Proof.
  intros Hp. pose proof (canonical_no_name _ Hp) as Hn. destruct Hp as (_ & _ & _ & _ & Hnd & _).
  unfold encodeProfile. rewrite encode_fold_fresh; [done|done|].
  intros a Hin. cbn. rewrite list_elem_of_singleton. intros Heq.
  apply Hn. rewrite <- Heq. by apply list_elem_of_fmap_2.
Qed.

Lemma decode_own_section p a : canonical_profile p → a ∈ fp_Adapters p →
  decode_section (("name", JString (fp_Profile p)) :: sections_of p) (fa_Adapter a) = Some a.
Proof.
  intros (_ & _ & _ & Ha & Hnd & _) Hin. rewrite Forall_forall in Ha.
  pose proof (decode_encode_section a (Ha _ Hin)) as He. specialize (Ha _ Hin).
  unfold decode_section. destruct Ha as (_ & _ & Hnn & _).
  rewrite bool_decide_false by done. rewrite obj_get_cons_ne by congruence.
  unfold sections_of. rewrite (obj_get_fmap fa_Adapter encode_section) by done.
  unfold encode_section in *. by rewrite He.
Qed.

(** C24: what the firewall client writes is what it reads back: a profile in DSM's canonical
    form survives its encoding for [Profile.set] and the decoding of [Profile.get], field by
    field, in the order of the rules, whatever name the reader asked for. *)
Theorem profile_round_trip (p : ProfileRules) (requested : string) :
  canonical_profile p →
  decodeProfileRules (Some (JObject (encodeProfile p))) requested = Ok p.
Proof.
  intros Hp. rewrite encodeProfile_canonical by done.
  pose proof (canonical_no_name _ Hp) as Hn. pose proof (decode_own_section p) as Hsec.
  pose proof Hp as (Ht & Hne & Hact & _ & Hnd & Hs).
  unfold decodeProfileRules. cbn [decodeObject mbind result_bind].
  rewrite (stringValue_first _ (fp_Profile p)); [|by apply obj_get_cons_eq, obj_get_None;
    rewrite sections_keys|done|constructor].
  rewrite (bool_decide_false (fp_Profile p = "")) by done.
  rewrite (bool_decide_false (fp_Profile p = "")) by done. cbn [andb].
  unfold obj_keys. rewrite fmap_cons, sections_keys, dedup_id by (by apply NoDup_cons).
  rewrite (omap_filter (fun k => k ≠ "name")).
  2:{ intros k Hk'. unfold decode_section. rewrite bool_decide_true; [done|].
      by destruct (decide (k = "name")). }
  rewrite sort_extra by done.
  set (root := _ :: _) in *.
  assert (omap (decode_section root) (fa_Adapter <$> fp_Adapters p) = fp_Adapters p) as ->;
    [|by destruct p; cbn in *; subst].
  assert (∀ a, a ∈ fp_Adapters p → decode_section root (fa_Adapter a) = Some a) as Hin by auto.
  clear -Hin. induction (fp_Adapters p) as [|a l IH]; [done|].
  rewrite fmap_cons, omap_cons, Hin by (by left). f_equal. apply IH.
  intros b Hb. apply Hin. by right.
Qed.

Definition sample_wire_rule : Rule := {|
  ru_Enabled := true; ru_Policy := "allow"; ru_Protocol := "tcp";
  ru_PortDirection := "destination"; ru_PortGroup := "ports"; ru_Ports := "5001";
  ru_SourceGroup := "netmask"; ru_Source := "192.168.1.0/24"; ru_Log := false;
  ru_Name := "" |}.

Definition sample_wire_profile : ProfileRules := {|
  fp_Profile := "custom"; fp_IsActive := false;
  fp_Adapters := [{| fa_Adapter := "eth0"; fa_Policy := "drop"; fa_Total := 1;
                     fa_Rules := [sample_wire_rule] |};
                  {| fa_Adapter := "global"; fa_Policy := "none"; fa_Total := 0;
                     fa_Rules := [] |}] |}.

Lemma sample_wire_canonical : canonical_profile sample_wire_profile.
Proof.
  split; [reflexivity|]. split; [discriminate|]. split; [reflexivity|].
  split; [|split].
  - repeat constructor; try reflexivity; discriminate.
  - apply (bool_decide_unpack _). vm_compute. exact I.
  - repeat constructor; vm_compute; exact I.
Qed.

Lemma profile_round_trip_witness :
  canonical_profile sample_wire_profile ∧
  decodeProfileRules (Some (JObject (encodeProfile sample_wire_profile))) "" =
    Ok sample_wire_profile.
Proof.
  split; [apply sample_wire_canonical|].
  apply (profile_round_trip sample_wire_profile ""). apply sample_wire_canonical.
Defined.
