(* ===== verification/FirewallOps.v ===== *)
(** * The DSM firewall operations and their client

    Source: internal/synology/operations/firewall/operation.go and mutation.go, and
    internal/synology/firewall.go.  Each read and each write is a compatibility operation
    with one variant, run by the locked executor of the DSM client.  The report that
    [FirewallCapabilities] also returns is not modelled. *)

From S2P Require Import Prelude.
From S2P Require Import GoStrings.
From S2P Require Import Firewall.
From S2P Require Import Compat.
From S2P Require Import Json.
From S2P Require Import DsmErrors.
From S2P Require Import DsmClient.
From S2P Require Import DsmOps.
From S2P Require Import FirewallWire.

Definition FirewallAPIName : string := "SYNO.Core.Security.Firewall".
Definition FirewallProfileAPIName : string := "SYNO.Core.Security.Firewall.Profile".
Definition FirewallAdapterAPIName : string := "SYNO.Core.Security.Firewall.Adapter".
Definition FirewallRulesAPIName : string := "SYNO.Core.Security.Firewall.Rules".
Definition FirewallProfileApplyAPIName : string :=
  "SYNO.Core.Security.Firewall.Profile.Apply".
Definition CurrentConnectionAPIName : string := "SYNO.Core.CurrentConnection".
Definition StatusReadCapabilityName : string := "firewall.status.read".
Definition ProfilesReadCapabilityName : string := "firewall.profiles.read".
Definition AdaptersReadCapabilityName : string := "firewall.adapters.read".
Definition RulesReadCapabilityName : string := "firewall.rules.read".
Definition ProfileWriteCapabilityName : string := "firewall.profile.write".
Definition EnableWriteCapabilityName : string := "firewall.enable.write".

Definition firewall_APINames : list string :=
  [FirewallAPIName; FirewallProfileAPIName; FirewallAdapterAPIName; FirewallRulesAPIName;
   FirewallProfileApplyAPIName].

(** ** Data *)

Record ProfileChange := {
  pc_Profile : string;
  pc_Adapters : list AdapterPolicy;
  pc_Activate : bool;
  pc_AllowConnectivityBreak : bool;
  pc_KeepReachable : string
}.

Record EnableChange := {
  ec_Enabled : bool;
  ec_Profile : string;
  ec_AllowConnectivityBreak : bool;
  ec_KeepReachable : string
}.

Record MutationResult := {
  mr_Backend : string;
  mr_API : string;
  mr_Version : Z;
  mr_Method : string
}.

Record RuleSet := { rs_ActiveProfile : string; rs_Profiles : list ProfileRules }.

Record FirewallProfile := { fpr_Name : string; fpr_IsActive : bool }.

Record FirewallCaps := {
  fc_StatusRead : bool;
  fc_ProfilesRead : bool;
  fc_AdaptersRead : bool;
  fc_RulesRead : bool;
  fc_ProfileWrite : bool;
  fc_EnableWrite : bool
}.

(** ** Requests *)

Definition read_call (api method : string) (params : option object) : Request := {|
  rq_API := api; rq_Version := 1; rq_Method := method; rq_Parameters := ∅;
  rq_JSONParameters := params; rq_EncryptedParameters := []; rq_ReadOnly := true |}.

Definition write_request (api method : string) (params : object) : Request := {|
  rq_API := api; rq_Version := 1; rq_Method := method; rq_Parameters := ∅;
  rq_JSONParameters := Some params; rq_EncryptedParameters := []; rq_ReadOnly := false |}.

(** The write that replaces a profile. *)
Definition profile_set_request (p : ProfileRules) (activate : bool) : Request :=
  write_request FirewallProfileAPIName "set"
    [("profile", JObject (encodeProfile p)); ("profile_applying", JBool activate)].

Definition enable_request (profile : string) : Request :=
  write_request FirewallProfileApplyAPIName "start"
    [("name", JString profile); ("profile_applying", JBool false)].

Definition disable_request : Request :=
  write_request FirewallAPIName "set" [("set_type", JString "disable")].

Section ops.
Context `{Unicode} {W : Type} `{Network W}.

Abbreviation M := (ST (dstate W) dsm_error).

Definition statusOperation : Operation (() → M Status) :=
  operation1 StatusReadCapabilityName "firewall-status-get-v1" FirewallAPIName
    (APIVersion FirewallAPIName 1) (fun _ =>
      data ← wrap "call get" (executeLocked (read_call FirewallAPIName "get" None));
      lift (decodeStatus data)).

Definition profilesOperation : Operation (() → M (list string)) :=
  operation1 ProfilesReadCapabilityName "firewall-profiles-list-v1" FirewallProfileAPIName
    (APIVersion FirewallProfileAPIName 1) (fun _ =>
      data ← wrap "call list" (executeLocked (read_call FirewallProfileAPIName "list" None));
      lift (decodeNameList data ["profile_names"; "profiles"])).

Definition adaptersOperation : Operation (() → M (list string)) :=
  operation1 AdaptersReadCapabilityName "firewall-adapters-list-v1" FirewallAdapterAPIName
    (APIVersion FirewallAdapterAPIName 1) (fun _ =>
      data ← wrap "call list" (executeLocked (read_call FirewallAdapterAPIName "list" None));
      lift (decodeNameList data ["adapter_names"; "adapters"])).

Definition profileRulesOperation : Operation (string → M ProfileRules) :=
  operation1 RulesReadCapabilityName "firewall-profile-rules-get-v1" FirewallProfileAPIName
    (APIVersion FirewallProfileAPIName 1) (fun profile =>
      check (negb (bool_decide (profile = "")))
        (EMsg "a profile name is required to load firewall rules");;
      data ← wrap "call get" (executeLocked
        (read_call FirewallProfileAPIName "get" (Some [("name", JString profile)])));
      lift (decodeProfileRules data profile)).

Definition mutated (api method : string) : MutationResult :=
  {| mr_Backend := ""; mr_API := api; mr_Version := 0; mr_Method := method |}.

Definition profileSetOperation : Operation (ProfileRules * bool → M MutationResult) :=
  operation1 ProfileWriteCapabilityName "firewall-profile-set-v1" FirewallProfileAPIName
    (APIVersion FirewallProfileAPIName 1) (fun '(profile, activate) =>
      check (negb (bool_decide (fp_Profile profile = "")))
        (EMsg "firewall profile set requires a profile name");;
      wrap "call set" (executeLocked (profile_set_request profile activate));;
      mret (mutated "" "set")).

Definition enableOperation : Operation (bool * string → M MutationResult) :=
  operation1 EnableWriteCapabilityName "firewall-enable-v1" FirewallAPIName
    (All [Some (APIVersion FirewallAPIName 1); Some (APIVersion FirewallProfileApplyAPIName 1)])
    (fun '(enabled, profile) =>
      if negb enabled then
        wrap "call set(disable)" (executeLocked disable_request);;
        mret (mutated FirewallAPIName "set")
      else
        check (negb (bool_decide (profile = "")))
          (EMsg "enabling the firewall requires an active profile name");;
        wrap "call start" (executeLocked (enable_request profile));;
        mret (mutated FirewallProfileApplyAPIName "start")).

Definition ExecuteStatus : M (Status * Selection) := run_op statusOperation ().
Definition ExecuteProfiles : M (list string * Selection) := run_op profilesOperation ().
Definition ExecuteAdapters : M (list string * Selection) := run_op adaptersOperation ().
Definition ExecuteProfileRules (profile : string) : M (ProfileRules * Selection) :=
  run_op profileRulesOperation profile.

Definition ExecuteProfileSet (p : ProfileRules) (activate : bool) :
    M (MutationResult * Selection) :=
  '(r, sel) ← run_op profileSetOperation (p, activate);
  mret ({| mr_Backend := sl_Backend sel; mr_API := sl_API sel; mr_Version := sl_Version sel;
           mr_Method := mr_Method r |}, sel).

Definition ExecuteEnable (enabled : bool) (profile : string) :
    M (MutationResult * Selection) :=
  '(r, sel) ← run_op enableOperation (enabled, profile);
  mret ({| mr_Backend := sl_Backend sel; mr_API := mr_API r; mr_Version := sl_Version sel;
           mr_Method := mr_Method r |}, sel).

(** Best effort: no API and any failure give no sources. *)
Definition ExecuteCurrentConnection : M (list SessionSource) :=
  c ← client;
  if negb (SupportsAPI (cl_target c) CurrentConnectionAPIName 1) then mret [] else
  catch (data ← executeLocked (read_call CurrentConnectionAPIName "list" None);
         lift (decodeCurrentConnection data)) (fun _ => mret []).

(** ** The client's methods *)

Definition FirewallTransport (c : Client) : Connection :=
  let scheme := ToLower (cl_Scheme c) in
  let port := if bool_decide (cl_Port c = "") then 0 else atoi_ignore (bytes (cl_Port c)) in
  let port := if port =? 0 then (if bool_decide (scheme = "https") then 443 else 80)
              else port in
  {| cn_Source := ""; cn_Port := port; cn_Protocol := "tcp"; cn_Determined := false |}.

Definition prepare_firewall (what : string) : M () :=
  wrap what (prepareCompatibilityTargetLocked firewall_APINames).

Definition FirewallStatus : M Status :=
  prepare_firewall "prepare firewall target";;
  '(status, _) ← wrap "get firewall status" ExecuteStatus;
  add_capability StatusReadCapabilityName;;
  catch
    ('(adapters, _) ← ExecuteAdapters;
     add_capability AdaptersReadCapabilityName;;
     mret {| fs_Enabled := fs_Enabled status; fs_ActiveProfile := fs_ActiveProfile status;
             fs_Adapters := adapters |})
    (fun e => if IsUnsupported e then mret status
              else fail (EWrap "get firewall adapters" e)).

Definition firewallActiveProfileLocked : M string :=
  catch ('(status, _) ← ExecuteStatus;
         add_capability StatusReadCapabilityName;;
         mret (fs_ActiveProfile status)) (fun _ => mret "").

Definition is_active (name active : string) : bool :=
  bool_decide (name = active) && negb (bool_decide (active = "")).

Definition FirewallProfiles : M (list FirewallProfile) :=
  prepare_firewall "prepare firewall target";;
  '(names, _) ← wrap "get firewall profiles" ExecuteProfiles;
  add_capability ProfilesReadCapabilityName;;
  active ← firewallActiveProfileLocked;
  mret ((fun name => {| fpr_Name := name; fpr_IsActive := is_active name active |}) <$> names).

Fixpoint read_profiles (active : string) (names : list string) : M (list ProfileRules) :=
  match names with
  | [] => mret []
  | name :: names =>
      '(rules, _) ← wrap "get firewall rules" (ExecuteProfileRules name);
      rest ← read_profiles active names;
      mret ({| fp_Profile := fp_Profile rules; fp_IsActive := is_active name active;
               fp_Adapters := fp_Adapters rules |} :: rest)
  end.

Definition FirewallRules (requested : string) : M RuleSet :=
  prepare_firewall "prepare firewall target";;
  active ← firewallActiveProfileLocked;
  names ←
    (if negb (bool_decide (requested = "")) then mret [requested] else
     '(listed, _) ← wrap "list firewall profiles" ExecuteProfiles;
     add_capability ProfilesReadCapabilityName;;
     mret listed);
  profiles ← read_profiles active names;
  add_capability RulesReadCapabilityName;;
  mret {| rs_ActiveProfile := active; rs_Profiles := profiles |}.

(** [selectSupported]: an unsupported operation is not an error. *)
Definition selectSupported {X} (op : Operation X) : M bool :=
  select_supported "select firewall backend" op.

Definition FirewallCapabilities : M FirewallCaps :=
  prepare_firewall "prepare firewall capabilities target";;
  status ← selectSupported statusOperation;
  profiles ← selectSupported profilesOperation;
  adapters ← selectSupported adaptersOperation;
  rules ← selectSupported profileRulesOperation;
  profileWrite ← selectSupported profileSetOperation;
  enableWrite ← selectSupported enableOperation;
  when_supported status StatusReadCapabilityName;;
  when_supported profiles ProfilesReadCapabilityName;;
  when_supported adapters AdaptersReadCapabilityName;;
  when_supported rules RulesReadCapabilityName;;
  when_supported profileWrite ProfileWriteCapabilityName;;
  when_supported enableWrite EnableWriteCapabilityName;;
  mret {| fc_StatusRead := status; fc_ProfilesRead := profiles; fc_AdaptersRead := adapters;
          fc_RulesRead := rules; fc_ProfileWrite := profileWrite;
          fc_EnableWrite := enableWrite |}.

Definition FirewallActiveSessions : M (list SessionSource) :=
  prepare_firewall "prepare firewall target";;
  ExecuteCurrentConnection.

(** The profile is read again before the change is merged into it. *)
Definition ApplyFirewallProfileChange (change : ProfileChange) : M MutationResult :=
  prepare_firewall "prepare firewall mutation target";;
  '(current, _) ← wrap "refresh firewall profile before apply"
    (ExecuteProfileRules (pc_Profile change));
  let merged := MergeProfile current (pc_Adapters change) in
  '(r, _) ← wrap "apply firewall profile" (ExecuteProfileSet merged (pc_Activate change));
  mret r.

Definition ApplyFirewallEnableChange (change : EnableChange) : M MutationResult :=
  prepare_firewall "prepare firewall mutation target";;
  '(r, _) ← wrap "apply firewall enable change"
    (ExecuteEnable (ec_Enabled change) (ec_Profile change));
  mret r.
End ops.
