(* ===== verification/Identity.v ===== *)
(** * The domain models of accounts, groups and shared folders

    Source: internal/domain/identity/model.go, and internal/domain/share/model.go at the end: what DSM reports about local users, groups,
    memberships, quotas and application privileges, and the changes a plan may ask for.  A
    pointer field of a change is an option: [None] leaves the setting as it is. *)

From S2P Require Import Prelude.

(** ** Constants *)

Definition ActionCreate : string := "create".
Definition ActionUpdate : string := "update".
Definition ActionDelete : string := "delete".
Definition ActionSet : string := "set".
Definition ResourceUser : string := "user".
Definition ResourceGroup : string := "group".
Definition ResourceMembership : string := "membership".
Definition ResourceQuota : string := "quota".
Definition ResourceApplicationPrivilege : string := "application_privilege".
Definition PrincipalUser : string := "user".
Definition PrincipalGroup : string := "group".
Definition QuotaTargetVolume : string := "volume".
Definition QuotaTargetShare : string := "share".
Definition ApplicationAccessAllow : string := "allow".
Definition ApplicationAccessDeny : string := "deny".
Definition ApplicationAccessInherit : string := "inherit".
Definition ApplicationAccessCustom : string := "custom".

(** ** What DSM reports *)

Record User := {
  usr_ID : string;
  usr_Name : string;
  usr_Description : string;
  usr_Email : string;
  usr_Source : string;
  usr_Expired : bool;
  usr_PasswordNeverExpires : bool;
  usr_TwoFactorStatus : string
}.

Record Group := {
  grp_ID : string;
  grp_Name : string;
  grp_Description : string;
  grp_Source : string
}.

Record Membership := { mem_User : string; mem_Groups : list string }.

Record QuotaLimit := {
  qli_TargetType : string;
  qli_Target : string;
  qli_Volume : string;
  qli_QuotaMiB : Z;
  qli_Status : string
}.

Record PrincipalQuota := {
  pqu_PrincipalType : string;
  pqu_Principal : string;
  pqu_Limits : list QuotaLimit
}.

Record Application := {
  apn_ID : string;
  apn_Name : string;
  apn_GrantTypes : list string;
  apn_SupportsIP : bool
}.

Record ApplicationPermission := {
  am_ApplicationID : string;
  am_Access : string;
  am_AllowIP : list string;
  am_DenyIP : list string
}.

Record ApplicationPrivilegeAssignment := {
  aa_PrincipalType : string;
  aa_Principal : string;
  aa_Permissions : list ApplicationPermission
}.

(** [identity.State] *)
Record identity_state := {
  ist_Users : list User;
  ist_Groups : list Group;
  ist_Memberships : list Membership;
  ist_Quotas : list PrincipalQuota;
  ist_Applications : list Application;
  ist_ApplicationPrivileges : list ApplicationPrivilegeAssignment
}.

Record StateQuery := {
  iqy_IncludeMemberships : bool;
  iqy_IncludeQuotas : bool;
  iqy_IncludeApplicationPrivileges : bool;
  iqy_IncludeRelatedGroupApplicationPrivileges : bool;
  iqy_PrincipalType : string;
  iqy_Principal : string
}.

Definition zero_query : StateQuery := {|
  iqy_IncludeMemberships := false; iqy_IncludeQuotas := false;
  iqy_IncludeApplicationPrivileges := false;
  iqy_IncludeRelatedGroupApplicationPrivileges := false;
  iqy_PrincipalType := ""; iqy_Principal := "" |}.

(** [identity.Capabilities] *)
Record IdentityCaps := {
  ica_InventoryRead : bool;
  ica_UserCreate : bool;
  ica_UserUpdate : bool;
  ica_UserDelete : bool;
  ica_GroupCreate : bool;
  ica_GroupUpdate : bool;
  ica_GroupDelete : bool;
  ica_MembershipRead : bool;
  ica_MembershipSet : bool;
  ica_QuotaRead : bool;
  ica_QuotaSet : bool;
  ica_ApplicationPrivilegeRead : bool;
  ica_ApplicationPrivilegeSet : bool;
  ica_ApplicationPrivilegePreview : bool;
  ica_Mutations : bool
}.

(** ** Changes *)

Record UserChange := {
  uch_Name : string;
  uch_NewName : option string;
  uch_Description : option string;
  uch_Email : option string;
  uch_Expired : option string;
  uch_CannotChangePassword : option bool;
  uch_PasswordNeverExpires : option bool;
  uch_CredentialRef : string
}.

Record GroupChange := {
  gch_Name : string;
  gch_NewName : option string;
  gch_Description : option string
}.

Record MembershipChange := { mch_User : string; mch_Groups : list string }.

Record QuotaLimitChange := {
  qlc_TargetType : string;
  qlc_Target : string;
  qlc_QuotaMiB : Z
}.

Record QuotaChange := {
  qch_PrincipalType : string;
  qch_Principal : string;
  qch_Limits : list QuotaLimitChange
}.

Record ApplicationPermissionChange := { apm_ApplicationID : string; apm_Access : string }.

Record ApplicationPrivilegeChange := {
  apc_PrincipalType : string;
  apc_Principal : string;
  apc_Permissions : list ApplicationPermissionChange
}.

(** [identity.ChangeRequest] *)
Record IdentityChange := {
  icr_Action : string;
  icr_Resource : string;
  icr_User : option UserChange;
  icr_Group : option GroupChange;
  icr_Membership : option MembershipChange;
  icr_Quota : option QuotaChange;
  icr_ApplicationPrivilege : option ApplicationPrivilegeChange
}.

(** A request for one resource carries that resource's object and no other. *)
Definition user_request (action : string) (change : UserChange) : IdentityChange := {|
  icr_Action := action; icr_Resource := ResourceUser; icr_User := Some change;
  icr_Group := None; icr_Membership := None; icr_Quota := None;
  icr_ApplicationPrivilege := None |}.
Definition group_request (action : string) (change : GroupChange) : IdentityChange := {|
  icr_Action := action; icr_Resource := ResourceGroup; icr_User := None;
  icr_Group := Some change; icr_Membership := None; icr_Quota := None;
  icr_ApplicationPrivilege := None |}.
Definition membership_request (change : MembershipChange) : IdentityChange := {|
  icr_Action := ActionSet; icr_Resource := ResourceMembership; icr_User := None;
  icr_Group := None; icr_Membership := Some change; icr_Quota := None;
  icr_ApplicationPrivilege := None |}.
Definition quota_request (change : QuotaChange) : IdentityChange := {|
  icr_Action := ActionSet; icr_Resource := ResourceQuota; icr_User := None;
  icr_Group := None; icr_Membership := None; icr_Quota := Some change;
  icr_ApplicationPrivilege := None |}.
Definition privilege_request (change : ApplicationPrivilegeChange) : IdentityChange := {|
  icr_Action := ActionSet; icr_Resource := ResourceApplicationPrivilege; icr_User := None;
  icr_Group := None; icr_Membership := None; icr_Quota := None;
  icr_ApplicationPrivilege := Some change |}.

(** * The domain model of shared folders

    Source: internal/domain/share/model.go.  The actions and principal types are those of
    [Identity], whose Go constants have the same values.  Sizes are unsigned 64-bit
    numbers. *)

Definition ResourceShare : string := "share".
Definition ResourcePermission : string := "permission".
Definition AccessNone : string := "none".
Definition AccessRead : string := "read".
Definition AccessWrite : string := "write".
Definition AccessDeny : string := "deny".
Definition AccessCustom : string := "custom".

(** [share.Permission] *)
Record Permission := {
  pe_PrincipalType : string;
  pe_Principal : string;
  pe_Access : string;
  pe_Inherited : bool;
  pe_InheritedAccess : string;
  pe_InheritanceObserved : bool;
  pe_Custom : bool;
  pe_Masked : bool;
  pe_ACLMode : bool
}.

Definition zero_permission : Permission := {|
  pe_PrincipalType := ""; pe_Principal := ""; pe_Access := ""; pe_Inherited := false;
  pe_InheritedAccess := ""; pe_InheritanceObserved := false; pe_Custom := false;
  pe_Masked := false; pe_ACLMode := false |}.

Record SharedFolder := {
  sf_Name : string;
  sf_UUID : string;
  sf_Description : string;
  sf_VolumePath : string;
  sf_Hidden : bool;
  sf_Encrypted : bool;
  sf_EncryptionAutoMount : bool;
  sf_ACLMode : bool;
  sf_UnifiedPermissions : bool;
  sf_USB : bool;
  sf_SnapshotSupported : bool;
  sf_QuotaBytes : Z;
  sf_QuotaUsedBytes : Z;
  sf_Permissions : list Permission
}.

(** [folder.Permissions = l] *)
Definition set_Permissions (l : list Permission) (f : SharedFolder) : SharedFolder := {|
  sf_Name := sf_Name f; sf_UUID := sf_UUID f; sf_Description := sf_Description f;
  sf_VolumePath := sf_VolumePath f; sf_Hidden := sf_Hidden f; sf_Encrypted := sf_Encrypted f;
  sf_EncryptionAutoMount := sf_EncryptionAutoMount f; sf_ACLMode := sf_ACLMode f;
  sf_UnifiedPermissions := sf_UnifiedPermissions f; sf_USB := sf_USB f;
  sf_SnapshotSupported := sf_SnapshotSupported f; sf_QuotaBytes := sf_QuotaBytes f;
  sf_QuotaUsedBytes := sf_QuotaUsedBytes f; sf_Permissions := l |}.

(** [share.State] *)
Record share_state := { shs_Shares : list SharedFolder; shs_PermissionsIncluded : bool }.

(** [share.Principal] *)
Record SharePrincipal := { shp_Type : string; shp_Name : string }.

(** [share.Capabilities] *)
Record ShareCaps := {
  sca_InventoryRead : bool;
  sca_PermissionRead : bool;
  sca_ShareCreate : bool;
  sca_ShareUpdate : bool;
  sca_ShareDelete : bool;
  sca_PermissionWrite : bool;
  sca_Mutations : bool
}.

(** ** Changes *)

Record ShareChange := {
  sch_Name : string;
  sch_NewName : option string;
  sch_VolumePath : string;
  sch_Description : option string;
  sch_Hidden : option bool;
  sch_RecycleBin : option bool;
  sch_RecycleBinAdminOnly : option bool;
  sch_HideUnreadable : option bool;
  sch_EnableCOW : option bool;
  sch_EnableCompression : option bool;
  sch_QuotaMiB : option Z
}.

Record PermissionGrant := { pgr_ShareName : string; pgr_Access : string }.

Record PermissionChange := {
  pch_PrincipalType : string;
  pch_Principal : string;
  pch_Permissions : list PermissionGrant
}.

(** [share.ChangeRequest] *)
Record ShareRequest := {
  scr_Action : string;
  scr_Resource : string;
  scr_Share : option ShareChange;
  scr_Permission : option PermissionChange
}.
