(* ===== verification/IdentityWire.v ===== *)
(** * The wire form of DSM accounts

    Source: the decoders and the request builders of
    internal/synology/operations/identityinventory, identitymembership, identityquota,
    identityappprivilege and identitymutation.  Numbers are decoded with [UseNumber].
    [sort.Slice] orders by a key; where two entries have one key, the model keeps their
    order, as Go does for slices of at most twelve elements. *)

From S2P Require Import Prelude.
From S2P Require Import GoStrings.
From S2P Require Import Compat.
From S2P Require Import Json.
From S2P Require Import DsmErrors.
From S2P Require Import DsmClient.
From S2P Require Import Identity.

(** ** Values of a decoded object *)

(** [var raw map[string]any; decoder.Decode(&raw)]: [null] is the nil map. *)
Definition decodeMap (data : RawMessage) (label : string) : result dsm_error object :=
  match data with
  | Some (JObject m) => Ok m
  | Some JNull => Ok []
  | _ => Err (EMsg ("decode " +:+ label))
  end.

Definition is_object (v : json) : option object :=
  match v with JObject m => Some m | _ => None end.

(** [items, _ := value.([]any)]: [None] is nil. *)
Definition as_array (v : option json) : option (list json) :=
  match v with Some (JArray l) => Some l | _ => None end.

Definition objectList (m : object) (key : string) : list object :=
  omap is_object (default [] (as_array (obj_get m key))).

Fixpoint scalarString (m : object) (keys : list string) : string :=
  match keys with
  | [] => ""
  | k :: keys =>
      match obj_get m k with
      | Some (JString s) => s
      | Some (JNumber n) => n
      | Some (JBool b) => if b then "true" else "false"
      | _ => scalarString m keys
      end
  end.

(** [parsed, _ := strconv.ParseBool(s)] *)
Definition ParseBool (s : string) : bool :=
  bool_decide (s ∈ ["1"; "t"; "T"; "true"; "TRUE"; "True"]).

(** The words of the inventory beside those of [ParseBool]. *)
Fixpoint boolOf (words : list string) (m : object) (keys : list string) : bool :=
  match keys with
  | [] => false
  | k :: keys =>
      match obj_get m k with
      | Some (JBool b) => b
      | Some (JNumber n) => bool_decide (n = "1")
      | Some (JString s) => ParseBool s || bool_decide (s ∈ words)
      | _ => boolOf words m keys
      end
  end.
Definition identity_bool : object → list string → bool := boolOf ["1"; "enabled"].

(** [value, _ := number.Int64()]: out of range, the nearest integer; any other literal
    gives 0. *)
Definition int64_ignore (literal : string) : Z :=
  match bytes literal with
  | a :: l =>
      if a =? 45 then
        match unsigned_value l with Some v => Z.max minInt64 (- v) | None => 0 end
      else
        match unsigned_value (a :: l) with Some v => Z.min maxInt64 v | None => 0 end
  | [] => 0
  end.

Definition integer (v : option json) : Z :=
  match v with Some (JNumber n) => int64_ignore n | _ => 0 end.

Definition text (v : option json) : string :=
  match v with Some (JString s) => s | _ => "" end.

(** ** Users and groups *)

Definition twoFactorStatus (m : object) : string :=
  let value := match obj_get m "2fa_status" with
               | Some v => Some v
               | None => obj_get m "two_factor_status"
               end in
  match value with
  | Some (JBool b) => if b then "enabled" else "disabled"
  | Some (JNumber n) =>
      if bool_decide (n = "1") then "enabled" else if bool_decide (n = "0") then "disabled" else n
  | Some (JString s) =>
      if bool_decide (s ∈ ["true"; "1"]) then "enabled"
      else if bool_decide (s ∈ ["false"; "0"]) then "disabled" else s
  | _ => ""
  end.

Definition decode_user (m : object) : User := {|
  usr_ID := scalarString m ["uid"; "id"];
  usr_Name := scalarString m ["name"];
  usr_Description := scalarString m ["description"; "desc"];
  usr_Email := scalarString m ["email"];
  usr_Source := "local";
  usr_Expired := identity_bool m ["expired"; "is_expired"];
  usr_PasswordNeverExpires := identity_bool m ["passwd_never_expire"; "password_never_expires"];
  usr_TwoFactorStatus := twoFactorStatus m |}.

Definition decodeUsers (data : RawMessage) : result dsm_error (list User) :=
  raw ← decodeMap data "user inventory"; mret (decode_user <$> objectList raw "users").

Definition decode_group (m : object) : Group := {|
  grp_ID := scalarString m ["gid"; "id"];
  grp_Name := scalarString m ["name"];
  grp_Description := scalarString m ["description"; "desc"];
  grp_Source := "local" |}.

Definition decodeGroups (data : RawMessage) : result dsm_error (list Group) :=
  raw ← decodeMap data "group inventory"; mret (decode_group <$> objectList raw "groups").

Section members.
Context `{Unicode}.

(** ** Members of a group *)

(** The names of a [[]struct{ Name string }]. *)
Definition decode_member (v : json) : option string :=
  match v with
  | JObject m => string_field m "name"
  | JNull => Some ""
  | _ => None
  end.

(** The checks of the names, in order: not blank, and each once up to case. *)
Fixpoint member_loop (seen : gset string) (names : list string) : result dsm_error (list string) :=
  match names with
  | [] => mret []
  | name :: names =>
      if bool_decide (TrimSpace name = "") then Err (EMsg "decode group members: no name")
      else if bool_decide (ToLower name ∈ seen)
      then Err (EMsg "decode group members: duplicate user")
      else rest ← member_loop ({[ToLower name]} ∪ seen) names; mret (name :: rest)
  end.

Definition decodeMemberNames (data : RawMessage) : result dsm_error (list string) :=
  match data with
  | Some (JObject m) =>
      match last (field_values m "users") with
      | None => Err (EMsg "decode group members: required field is missing")
      | Some (JArray l) =>
          match mapM decode_member l with
          | None => Err (EMsg "decode group members field")
          | Some names => member_loop ∅ names
          end
      | Some JNull => Err (EMsg "decode group members: field must be an array")
      | Some _ => Err (EMsg "decode group members field")
      end
  | Some JNull => Err (EMsg "decode group members: required field is missing")
  | _ => Err (EMsg "decode group members")
  end.
End members.

(** ** Quotas *)

Definition limit_le (x y : QuotaLimit) : Prop :=
  if bool_decide (qli_TargetType x = qli_TargetType y)
  then String.le (qli_Target x) (qli_Target y)
  else String.le (qli_TargetType x) (qli_TargetType y).
#[export] Instance limit_le_dec x y : Decision (limit_le x y).
Proof. unfold limit_le. case_bool_decide; apply _. Defined.

(** The limits of one entry: of its shares when it lists shares, of the volume itself
    otherwise. *)
Definition decode_limits (item : object) : list QuotaLimit :=
  let volume := text (obj_get item "volume") in
  let status := text (obj_get item "quota_status") in
  match as_array (obj_get item "shares") with
  | Some shares =>
      (fun share => {|
        qli_TargetType := QuotaTargetShare; qli_Target := text (obj_get share "name");
        qli_Volume := volume; qli_QuotaMiB := integer (obj_get share "quota");
        qli_Status := status |}) <$> omap is_object shares
  | None => [{|
      qli_TargetType := QuotaTargetVolume; qli_Target := volume; qli_Volume := "";
      qli_QuotaMiB := integer (obj_get item "quota"); qli_Status := status |}]
  end.

Definition quota_key (principalType : string) : string :=
  if bool_decide (principalType = PrincipalGroup) then "group_quota" else "user_quota".

Definition decodeLimits (data : RawMessage) (principalType : string) :
    result dsm_error (list QuotaLimit) :=
  object ← decodeMap data "quota state";
  let items := as_array (obj_get object (quota_key principalType)) in
  let items := if bool_decide (principalType = PrincipalUser) && bool_decide (items = None)
               then as_array (obj_get object "quota") else items in
  mret (merge_sort limit_le
          (concat (decode_limits <$> omap is_object (default [] items)))).

Definition quota_set_params (principalType principal : string)
    (limits : list QuotaLimitChange) : object :=
  [("name", JString principal);
   (quota_key principalType, JArray ((fun l =>
      JObject [("quota", JNumber (Itoa (qlc_QuotaMiB l)));
               (qlc_TargetType l, JString (qlc_Target l))]) <$> limits))].

(** ** Application privileges *)

(** The objects of a required array; a [null] element is the nil map. *)
Definition object_element (v : json) : option object :=
  match v with JObject m => Some m | JNull => Some [] | _ => None end.

Definition requiredObjectArray (data : RawMessage) (key label : string) :
    result dsm_error (list object) :=
  match data with
  | Some (JObject m) =>
      match obj_get m key with
      | None => Err (EMsg ("decode " +:+ label +:+ ": required field is missing"))
      | Some (JArray l) =>
          match mapM object_element l with
          | Some objects => Ok objects
          | None => Err (EMsg ("decode " +:+ label +:+ " field"))
          end
      | Some JNull => Err (EMsg ("decode " +:+ label +:+ ": field must be an array"))
      | Some _ => Err (EMsg ("decode " +:+ label +:+ " field"))
      end
  | Some JNull => Err (EMsg ("decode " +:+ label +:+ ": required field is missing"))
  | _ => Err (EMsg ("decode " +:+ label))
  end.

Definition requiredStringArray (m : object) (key : string) : result dsm_error (list string) :=
  match obj_get m key with
  | None => Err (EMsg "required field is missing")
  | Some (JArray l) =>
      match mapM as_string l with
      | Some texts => Ok texts
      | None => Err (EMsg "field item must be a string")
      end
  | Some _ => Err (EMsg "field must be a string array")
  end.

Definition displayName (v : option json) : string :=
  match v with
  | Some (JString s) => s
  | Some (JArray l) => default "" (head (base.filter (fun s => s ≠ "") (omap as_string l)))
  | _ => ""
  end.

(** [strings.Split(s, ",")] *)
Fixpoint split_comma (cur : list Z) (l : list Z) : list string :=
  match l with
  | [] => [of_bytes (reverse cur)]
  | a :: l => if a =? 44 then of_bytes (reverse cur) :: split_comma [] l
              else split_comma (a :: cur) l
  end.

Definition stringSlice (v : option json) : list string :=
  match v with
  | Some (JArray l) => omap as_string l
  | Some (JString s) => if bool_decide (s = "") then [] else split_comma [] (bytes s)
  | _ => []
  end.

(** A [json.Number] is none of the cases. *)
Definition boolean (v : option json) : bool :=
  match v with
  | Some (JBool b) => b
  | Some (JString s) => bool_decide (s ∈ ["true"; "1"])
  | _ => false
  end.

Definition decode_application (m : object) : result dsm_error Application :=
  let id := text (obj_get m "app_id") in
  if bool_decide (TrimSpace id = "") then Err (EMsg "decode application inventory: no app_id")
  else Ok {| apn_ID := id; apn_Name := displayName (obj_get m "name");
             apn_GrantTypes := stringSlice (obj_get m "grant_type");
             apn_SupportsIP := boolean (obj_get m "supportIP") |}.

(** The loop over the entries: the first error ends it. *)
Fixpoint decode_each {A B} (f : A → result dsm_error B) (l : list A) :
    result dsm_error (list B) :=
  match l with
  | [] => mret []
  | a :: l => b ← f a; rest ← decode_each f l; mret (b :: rest)
  end.

Definition application_le (x y : Application) : Prop := String.le (apn_ID x) (apn_ID y).
Definition permission_le (x y : ApplicationPermission) : Prop :=
  String.le (am_ApplicationID x) (am_ApplicationID y).
#[export] Instance application_le_dec x y : Decision (application_le x y).
Proof. unfold application_le. apply _. Defined.
#[export] Instance permission_le_dec x y : Decision (permission_le x y).
Proof. unfold permission_le. apply _. Defined.

Definition decodeApplications (data : RawMessage) : result dsm_error (list Application) :=
  items ← requiredObjectArray data "applications" "application inventory";
  l ← decode_each decode_application items;
  mret (merge_sort application_le l).

(** DSM's address for every client. *)
Definition any_address : list string := ["0.0.0.0"].

Definition decode_rule (m : object) : result dsm_error ApplicationPermission :=
  let appID := text (obj_get m "app_id") in
  if bool_decide (TrimSpace appID = "")
  then Err (EMsg "decode application privilege rules: no app_id") else
  allowIP ← requiredStringArray m "allow_ip";
  denyIP ← requiredStringArray m "deny_ip";
  let access := if bool_decide (allowIP = any_address) && bool_decide (denyIP = [])
                then ApplicationAccessAllow else ApplicationAccessCustom in
  let access := if bool_decide (denyIP = any_address) && bool_decide (allowIP = [])
                then ApplicationAccessDeny else access in
  Ok {| am_ApplicationID := appID; am_Access := access; am_AllowIP := allowIP;
        am_DenyIP := denyIP |}.

Definition decodePermissions (data : RawMessage) :
    result dsm_error (list ApplicationPermission) :=
  rules ← requiredObjectArray data "rules" "application privilege rules";
  l ← decode_each decode_rule rules;
  mret (merge_sort permission_le l).

Section preview.
Context `{Unicode}.

(** A field of type [*string]: [null] makes it nil. *)
Fixpoint assign_pointer (cur : option string) (l : list json) : option (option string) :=
  match l with
  | [] => Some cur
  | JNull :: l => assign_pointer None l
  | JString s :: l => assign_pointer (Some s) l
  | _ :: _ => None
  end.

(** The application and its [privilelge]. *)
Definition preview_element (v : json) : option (string * option string) :=
  match v with
  | JObject m =>
      id ← string_field m "app_id";
      privilege ← assign_pointer None (field_values m "privilelge");
      Some (id, privilege)
  | JNull => Some ("", None)
  | _ => None
  end.

Definition preview_permission (e : string * option string) :
    result dsm_error ApplicationPermission :=
  let '(id, privilege) := e in
  if bool_decide (TrimSpace id = "")
  then Err (EMsg "decode application privilege preview: no app_id") else
  match privilege with
  | None => Err (EMsg "decode application privilege preview: no privilelge field")
  | Some p =>
      if bool_decide (p ∈ [ApplicationAccessAllow; ApplicationAccessDeny; ApplicationAccessCustom])
      then Ok {| am_ApplicationID := id; am_Access := p; am_AllowIP := []; am_DenyIP := [] |}
      else Err (EMsg "decode application privilege preview: unsupported privilelge")
  end.

Definition decodePreview (data : RawMessage) : result dsm_error (list ApplicationPermission) :=
  match data with
  | Some (JObject m) =>
      match last (field_values m "applications") with
      | None => Err (EMsg "decode application privilege preview: required field is missing")
      | Some (JArray l) =>
          match mapM preview_element l with
          | None => Err (EMsg "decode application privilege preview applications")
          | Some items =>
              l ← decode_each preview_permission items;
              mret (merge_sort permission_le l)
          end
      | Some JNull => Err (EMsg "decode application privilege preview: field must be an array")
      | Some _ => Err (EMsg "decode application privilege preview applications")
      end
  | Some JNull => Err (EMsg "decode application privilege preview: required field is missing")
  | _ => Err (EMsg "decode application privilege preview")
  end.
End preview.

Definition rule_entity (principalType principal : string)
    (p : ApplicationPermissionChange) : object :=
  [("entity_type", JString principalType); ("entity_name", JString principal);
   ("app_id", JString (apm_ApplicationID p))].

Definition strings (l : list string) : json := JArray (JString <$> l).

(** The rules to delete: applications that inherit again. *)
Definition rule_deletes (principalType principal : string)
    (permissions : list ApplicationPermissionChange) : list json :=
  omap (fun p => if bool_decide (apm_Access p = ApplicationAccessInherit)
                 then Some (JObject (rule_entity principalType principal p)) else None)
    permissions.

(** The rules to set; an access that is neither is skipped. *)
Definition rule_set (principalType principal : string) (p : ApplicationPermissionChange) :
    option json :=
  let rule allow deny :=
    Some (JObject (rule_entity principalType principal p
                   ++ [("allow_ip", strings allow); ("deny_ip", strings deny)])) in
  if bool_decide (apm_Access p = ApplicationAccessInherit) then None
  else if bool_decide (apm_Access p = ApplicationAccessAllow) then rule any_address []
  else if bool_decide (apm_Access p = ApplicationAccessDeny) then rule [] any_address
  else None.

Definition rule_sets (principalType principal : string)
    (permissions : list ApplicationPermissionChange) : list json :=
  omap (rule_set principalType principal) permissions.

(** ** Changes of users and groups *)

(** [if value != nil { parameters[key] = *value }] *)
Definition setOptionalJSON {A} (enc : A → json) (key : string) (v : option A) (m : object) :
    object :=
  match v with Some a => obj_set m key (enc a) | None => m end.

Definition setUserFields (change : UserChange) (m : object) : object :=
  let m := setOptionalJSON JString "description" (uch_Description change) m in
  let m := setOptionalJSON JString "email" (uch_Email change) m in
  let m := setOptionalJSON JString "expired" (uch_Expired change) m in
  let m := setOptionalJSON JBool "cannot_chg_passwd" (uch_CannotChangePassword change) m in
  setOptionalJSON JBool "passwd_never_expire" (uch_PasswordNeverExpires change) m.

(** Method, parameters and the name of the result. *)
Definition userRequest (action : string) (change : UserChange) (password : string) :
    result dsm_error (string * object * string) :=
  if bool_decide (action = ActionCreate) then
    if bool_decide (password = "") then Err (EMsg "password is required to create user")
    else Ok ("create", setUserFields change
               [("name", JString (uch_Name change)); ("password", JString password);
                ("notify_by_email", JBool false)], uch_Name change)
  else if bool_decide (action = ActionUpdate) then
    let resultName := match uch_NewName change with
                      | Some n => TrimSpace n
                      | None => uch_Name change
                      end in
    let m := [("name", JString (uch_Name change)); ("new_name", JString resultName)] in
    let m := if bool_decide (password = "") then m
             else obj_set m "password" (JString password) in
    Ok ("set", setUserFields change m, resultName)
  else if bool_decide (action = ActionDelete) then
    Ok ("delete", [("name", strings [uch_Name change])], uch_Name change)
  else Err (EMsg "unsupported user action").

Definition setOptionalString (key : string) (v : option string) (f : Values) : Values :=
  match v with Some s => vset key (Text s) f | None => f end.

Definition groupRequest (action : string) (change : GroupChange) :
    result dsm_error (string * Values * string) :=
  if bool_decide (action = ActionCreate) then
    Ok ("create", setOptionalString "description" (gch_Description change)
                    (form [("name", gch_Name change)]), gch_Name change)
  else if bool_decide (action = ActionUpdate) then
    let resultName := match gch_NewName change with
                      | Some n => TrimSpace n
                      | None => gch_Name change
                      end in
    Ok ("set", setOptionalString "description" (gch_Description change)
                 (form [("name", gch_Name change); ("new_name", resultName)]), resultName)
  else if bool_decide (action = ActionDelete) then
    Ok ("delete", vset "name" (Encoded (strings [gch_Name change])) ∅, gch_Name change)
  else Err (EMsg "unsupported group action").

(** The members added to a group and removed from it. *)
Definition member_change (group : string) (add remove : list string) : object :=
  [("group", JString group); ("add_member", strings add); ("remove_member", strings remove)].
