(* ===== verification/IdentityOps.v ===== *)
(** * The DSM operations on accounts and their client

    Source: the operations of internal/synology/operations/identityinventory,
    identitymembership, identityquota, identityappprivilege and identitymutation, and
    internal/synology/identity.go.  The selections that the operations return beside their
    results reach only the report of [IdentityCapabilities], which is not modelled. *)

From S2P Require Import Prelude.
From S2P Require Import GoStrings.
From S2P Require Import Compat.
From S2P Require Import Json.
From S2P Require Import DsmErrors.
From S2P Require Import DsmClient.
From S2P Require Import DsmOps.
From S2P Require Import Identity.
From S2P Require Import IdentityWire.

Definition UserAPIName : string := "SYNO.Core.User".
Definition GroupAPIName : string := "SYNO.Core.Group".
Definition MemberAPIName : string := "SYNO.Core.Group.Member".
Definition QuotaAPIName : string := "SYNO.Core.Quota".
Definition AppAPIName : string := "SYNO.Core.AppPriv.App".
Definition RuleAPIName : string := "SYNO.Core.AppPriv.Rule".

Definition InventoryCapability : string := "identity.inventory".
Definition UserCapabilityName : string := "identity.users.mutate".
Definition GroupCapabilityName : string := "identity.groups.mutate".
Definition MembershipReadCapability : string := "identity.memberships.read".
Definition MembershipSetCapability : string := "identity.memberships.set".
Definition QuotaReadCapability : string := "identity.quotas.read".
Definition QuotaSetCapability : string := "identity.quotas.set".
Definition PrivilegeReadCapability : string := "identity.application_privileges.read".
Definition PrivilegeSetCapability : string := "identity.application_privileges.set".
Definition PreviewCapabilityName : string := "identity.application_privileges.preview".

(** ** Inputs *)

Record MembershipRead := {
  rmi_Users : list User;
  rmi_Groups : list Group;
  rmi_User : string
}.

(** [identitymutation.Result] and its likes. *)
Record ChangeResult := { chr_Resource : string; chr_Action : string; chr_Name : string }.

(** The fields a listing asks for. *)
Definition additionalUserFields : json :=
  strings ["description"; "email"; "expired"; "passwd_never_expire"; "2fa_status"; "uid"].
Definition additionalGroupFields : json := strings ["description"; "gid"].

Definition list_form (additional : json) : Values :=
  vset "additional" (Encoded additional)
    (form [("offset", "0"); ("limit", "-1"); ("type", "local")]).

(** [identityPrincipal]: kind and name. *)
Abbreviation kind_name := (prod string string) (only parsing).

(** ** Memberships, before and after *)

Section delta.
Context `{Unicode}.

(** [membershipDelta]: groups to add and groups to remove, each set keyed by lower case;
    of two spellings of a group the last counts.  The users group is never removed. *)
Definition fold_set (l : list string) : gmap string string :=
  fold_left (fun m v => <[ToLower v := v]> m) l ∅.

Definition membershipDelta (current desired : list string) : list string * list string :=
  let currentSet := fold_set current in
  let desiredSet := fold_set desired in
  let add := base.filter (fun kv => currentSet !! kv.1 = None) (map_to_list desiredSet) in
  let remove := base.filter (fun kv => desiredSet !! kv.1 = None ∧ EqualFold kv.2 "users" = false)
                  (map_to_list currentSet) in
  (sort_strings add.*2, sort_strings remove.*2).

(** The users asked for, by lower case: their groups so far and their spelling. *)
Definition selected_users (input : MembershipRead) : gmap string (list string) * gmap string string :=
  let users := base.filter (fun u =>
    rmi_User input = "" ∨ EqualFold (rmi_User input) (usr_Name u) = true) (rmi_Users input) in
  (fold_left (fun m u => <[ToLower (usr_Name u) := []]> m) users ∅,
   fold_left (fun m u => <[ToLower (usr_Name u) := usr_Name u]> m) users ∅).

(** The loop over the members of one group. *)
Definition add_members (group : string) (names : list string)
    (memberships : gmap string (list string)) : gmap string (list string) :=
  fold_left (fun m name =>
    match m !! ToLower name with
    | Some groups => <[ToLower name := groups ++ [group]]> m
    | None => m
    end) names memberships.

(** The result, ordered by the lower case of the user. *)
Definition collect_memberships (memberships : gmap string (list string))
    (canonical : gmap string string) : list Membership :=
  (fun key => {| mem_User := default "" (canonical !! key);
                 mem_Groups := sort_strings (default [] (memberships !! key)) |})
  <$> sort_strings (map_to_list memberships).*1.
End delta.

Section ops.
Context `{Unicode} {W : Type} `{Network W}.

Abbreviation M := (ST (dstate W) dsm_error).

(** ** Operations *)

Definition userOperation : Operation (() → M (list User)) :=
  operation1 "identity.users.list" "core-user-v1" UserAPIName (APIVersion UserAPIName 1)
    (fun _ =>
      data ← wrap "call list"
        (executeLocked (form_call UserAPIName 1 "list" (list_form additionalUserFields)));
      lift (decodeUsers data)).

Definition group_get (name : string) : Request :=
  form_call GroupAPIName 1 "get" (form [("name", name)]).

(** A group without an identifier is read on its own. *)
Fixpoint complete_groups (groups : list Group) : M (list Group) :=
  match groups with
  | [] => mret []
  | g :: groups =>
      g ← (if negb (bool_decide (grp_ID g = "")) then mret g else
           detail ← wrap "call get" (executeLocked (group_get (grp_Name g)));
           details ← lift (decodeGroups detail);
           match details with
           | [d] =>
               if bool_decide (grp_Name d = grp_Name g) then mret d
               else fail (EMsg "call get returned no exact group")
           | _ => fail (EMsg "call get returned no exact group")
           end);
      rest ← complete_groups groups;
      mret (g :: rest)
  end.

Definition groupOperation : Operation (() → M (list Group)) :=
  operation1 "identity.groups.list" "core-group-v1" GroupAPIName (APIVersion GroupAPIName 1)
    (fun _ =>
      data ← wrap "call list"
        (executeLocked (form_call GroupAPIName 1 "list" (list_form additionalGroupFields)));
      groups ← lift (decodeGroups data);
      complete_groups groups).

Definition member_list (group : string) : Request :=
  form_call MemberAPIName 1 "list" (form [("group", group); ("ingroup", "true")]).

Fixpoint read_members (groups : list Group) (memberships : gmap string (list string)) :
    M (gmap string (list string)) :=
  match groups with
  | [] => mret memberships
  | g :: groups =>
      data ← wrap "call list" (executeLocked (member_list (grp_Name g)));
      names ← wrap "decode members" (lift (decodeMemberNames data));
      read_members groups (add_members (grp_Name g) names memberships)
  end.

Definition membershipReadOperation : Operation (MembershipRead → M (list Membership)) :=
  operation1 "identity.memberships.list" "core-group-member-list-v1" MemberAPIName
    (APIVersion MemberAPIName 1) (fun input =>
      let '(memberships, canonical) := selected_users input in
      memberships ← read_members (rmi_Groups input) memberships;
      mret (collect_memberships memberships canonical)).

Definition change_group (group : string) (add remove : list string) : Request :=
  typed_call MemberAPIName 1 "change" (member_change group add remove) [].

Definition changeGroup (group : string) (add remove : list string) : M () :=
  wrap "call change" (executeLocked (change_group group add remove));; mret ().

Fixpoint change_groups (change : string → M ()) (groups : list string) : M () :=
  match groups with
  | [] => mret ()
  | g :: groups => change g;; change_groups change groups
  end.

Definition membershipChangeOperation :
    Operation (string * list string * list string → M ChangeResult) :=
  operation1 "identity.memberships.set" "core-group-member-change-v1" MemberAPIName
    (APIVersion MemberAPIName 1) (fun '(user, add, remove) =>
      change_groups (fun g => changeGroup g [user] []) add;;
      change_groups (fun g => changeGroup g [] [user]) remove;;
      mret {| chr_Resource := ResourceMembership; chr_Action := ActionSet; chr_Name := user |}).

Definition quota_get (principalType principal : string) : Request :=
  let f := form [("name", principal); ("support_share_quota", "true")] in
  form_call QuotaAPIName 1 "get"
    (if bool_decide (principalType = PrincipalGroup) then vset "subject_type" (Text "group") f
     else f).

Definition quotaReadOperation : Operation (string * string → M PrincipalQuota) :=
  operation1 "identity.quotas.get" "core-quota-get-v1" QuotaAPIName (APIVersion QuotaAPIName 1)
    (fun '(principalType, principal) =>
      data ← wrap "call get" (executeLocked (quota_get principalType principal));
      limits ← lift (decodeLimits data principalType);
      mret {| pqu_PrincipalType := principalType; pqu_Principal := principal;
              pqu_Limits := limits |}).

Definition quotaSetOperation : Operation (QuotaChange → M ChangeResult) :=
  operation1 "identity.quotas.set" "core-quota-set-v1" QuotaAPIName (APIVersion QuotaAPIName 1)
    (fun c =>
      wrap "call set" (executeLocked (typed_call QuotaAPIName 1 "set"
        (quota_set_params (qch_PrincipalType c) (qch_Principal c) (qch_Limits c)) []));;
      mret {| chr_Resource := ResourceQuota; chr_Action := ActionSet;
              chr_Name := qch_PrincipalType c +:+ ":" +:+ qch_Principal c |}).

Definition appListOperation : Operation (() → M (list Application)) :=
  operation_v 2 "identity.applications.list" "core-apppriv-app-list-v2" AppAPIName
    (APIVersion AppAPIName 2) (fun _ =>
      data ← wrap "call list"
        (executeLocked (form_call AppAPIName 2 "list" (form [("offset", "0"); ("limit", "-1")])));
      lift (decodeApplications data)).

Definition ruleReadOperation : Operation (string * string → M ApplicationPrivilegeAssignment) :=
  operation1 "identity.application_privileges.get" "core-apppriv-rule-get-v1" RuleAPIName
    (APIVersion RuleAPIName 1) (fun '(principalType, principal) =>
      data ← wrap "call get" (executeLocked (form_call RuleAPIName 1 "get"
        (form [("entity_type", principalType); ("entity_name", principal)])));
      permissions ← lift (decodePermissions data);
      mret {| aa_PrincipalType := principalType; aa_Principal := principal;
              aa_Permissions := permissions |}).

Definition preview_params (principalType principal : string) : option object :=
  if bool_decide (principalType = PrincipalUser) then Some [("username", JString principal)]
  else if bool_decide (principalType = PrincipalGroup) then Some [("groups", strings [principal])]
  else None.

Definition previewOperation : Operation (string * string → M ApplicationPrivilegeAssignment) :=
  operation_v 2 "identity.application_privileges.preview" "core-apppriv-app-preview-v2"
    AppAPIName (APIVersion AppAPIName 2) (fun '(principalType, principal) =>
      match preview_params principalType principal with
      | None => fail (EMsg "unsupported application preview principal type")
      | Some params =>
          data ← wrap "call preview" (executeLocked (typed_call AppAPIName 2 "preview" params []));
          permissions ← lift (decodePreview data);
          mret {| aa_PrincipalType := principalType; aa_Principal := principal;
                  aa_Permissions := permissions |}
      end).

(** Delete the rules that inherit again, then set the others; an empty list is not sent. *)
Definition rules_call (method : string) (rules : list json) : M () :=
  if bool_decide (rules = []) then mret () else
  wrap "call rules"
    (executeLocked (typed_call RuleAPIName 1 method [("rules", JArray rules)] []));;
  mret ().

Definition executeRuleSet (c : ApplicationPrivilegeChange) : M ChangeResult :=
  rules_call "delete"
    (rule_deletes (apc_PrincipalType c) (apc_Principal c) (apc_Permissions c));;
  rules_call "set" (rule_sets (apc_PrincipalType c) (apc_Principal c) (apc_Permissions c));;
  mret {| chr_Resource := ResourceApplicationPrivilege; chr_Action := ActionSet;
          chr_Name := apc_PrincipalType c +:+ ":" +:+ apc_Principal c |}.

Definition ruleSetOperation : Operation (ApplicationPrivilegeChange → M ChangeResult) :=
  operation1 "identity.application_privileges.set" "core-apppriv-rule-set-v1" RuleAPIName
    (APIVersion RuleAPIName 1) executeRuleSet.

(** A password in the parameters is sent encrypted. *)
Definition user_call (method : string) (params : object) : Request :=
  typed_call UserAPIName 1 method params
    (if bool_decide (obj_get params "password" = None) then [] else ["password"]).

Definition userMutationOperation : Operation (string * UserChange * string → M ChangeResult) :=
  operation1 "identity.users.mutate" "core-user-mutation-v1" UserAPIName
    (APIVersion UserAPIName 1) (fun '(action, change, password) =>
      '(method, params, name) ← lift (userRequest action change password);
      wrap "call" (executeLocked (user_call method params));;
      mret {| chr_Resource := ResourceUser; chr_Action := action; chr_Name := name |}).

Definition groupMutationOperation : Operation (string * GroupChange → M ChangeResult) :=
  operation1 "identity.groups.mutate" "core-group-mutation-v1" GroupAPIName
    (APIVersion GroupAPIName 1) (fun '(action, change) =>
      '(method, params, name) ← lift (groupRequest action change);
      wrap "call" (executeLocked (form_call GroupAPIName 1 method params));;
      mret {| chr_Resource := ResourceGroup; chr_Action := action; chr_Name := name |}).

(** ** Reading the state *)

Definition inventory_APINames : list string :=
  sort_strings (dedup (APINames userOperation ++ APINames groupOperation)).
Definition mutation_APINames : list string := [GroupAPIName; UserAPIName].
Definition membership_APINames : list string := [MemberAPIName].
Definition quota_APINames : list string := [QuotaAPIName].
Definition privilege_APINames : list string := [AppAPIName; RuleAPIName].

(** The principals of one kind whose name was asked for; no name asks for all. *)
Definition named_principals (kind wanted : string) (names : list string) : list kind_name :=
  pair kind <$> base.filter (fun n => wanted = "" ∨ EqualFold wanted n = true) names.

Definition identityPrincipals (s : identity_state) (principalType wanted : string) :
    result dsm_error (list kind_name) :=
  if negb (bool_decide (principalType ∈ [""; PrincipalUser; PrincipalGroup]))
  then Err (EMsg "principal_type must be user or group")
  else if negb (bool_decide (wanted = "")) && bool_decide (principalType = "")
  then Err (EMsg "principal_type is required when principal is set")
  else
    let l :=
      (if bool_decide (principalType ∈ [""; PrincipalUser])
       then named_principals PrincipalUser wanted (usr_Name <$> ist_Users s) else [])
      ++ (if bool_decide (principalType ∈ [""; PrincipalGroup])
          then named_principals PrincipalGroup wanted (grp_Name <$> ist_Groups s) else []) in
    if negb (bool_decide (wanted = "")) && bool_decide (l = [])
    then Err (EMsg "principal does not exist") else Ok l.

Definition membershipForUser (memberships : list Membership) (user : string) :
    option Membership :=
  find_first (fun m => EqualFold (mem_User m) user) memberships.

(** The groups of the selected user that are not among the targets yet. *)
Fixpoint related_groups (seen : gset kind_name) (groups : list string) : list kind_name :=
  match groups with
  | [] => []
  | g :: groups =>
      let key := (PrincipalGroup, ToLower g) in
      if bool_decide (key ∈ seen) then related_groups seen groups
      else (PrincipalGroup, g) :: related_groups ({[key]} ∪ seen) groups
  end.

Definition applicationPrivilegePrincipals (s : identity_state) (q : StateQuery) :
    result dsm_error (list kind_name) :=
  targets ← identityPrincipals s (iqy_PrincipalType q) (iqy_Principal q);
  if negb (iqy_IncludeRelatedGroupApplicationPrivileges q) then Ok targets
  else if negb (bool_decide (iqy_PrincipalType q = PrincipalUser))
          || bool_decide (TrimSpace (iqy_Principal q) = "")
  then Err (EMsg "related group application privileges require one selected user")
  else match membershipForUser (ist_Memberships s) (iqy_Principal q) with
       | None => Err (EMsg "membership state for user was not returned")
       | Some m =>
           let seen := list_to_set ((fun t => (t.1, ToLower t.2)) <$> targets) in
           Ok (targets ++ related_groups seen (mem_Groups m))
       end.

Fixpoint read_each {A} (read : kind_name → M A) (targets : list kind_name) : M (list A) :=
  match targets with
  | [] => mret []
  | t :: targets => a ← read t; rest ← read_each read targets; mret (a :: rest)
  end.

Definition ExecuteInventory : M (list User * list Group) :=
  '(users, _) ← run_op userOperation ();
  '(groups, _) ← run_op groupOperation ();
  mret (users, groups).

(** The memberships, when the query asks for them. *)
Definition read_memberships (q : StateQuery) (users : list User) (groups : list Group) :
    M (list Membership) :=
  if negb (iqy_IncludeMemberships q) then mret [] else
  let user := if bool_decide (iqy_PrincipalType q = PrincipalUser) then iqy_Principal q else "" in
  '(memberships, _) ← wrap "get group memberships"
    (run_op membershipReadOperation {| rmi_Users := users; rmi_Groups := groups;
                                       rmi_User := user |});
  add_capability MembershipReadCapability;;
  mret memberships.

Definition read_quotas (q : StateQuery) (s : identity_state) : M (list PrincipalQuota) :=
  if negb (iqy_IncludeQuotas q) then mret [] else
  targets ← lift (identityPrincipals s (iqy_PrincipalType q) (iqy_Principal q));
  quotas ← read_each (fun t =>
    '(quota, _) ← wrap "get quota" (run_op quotaReadOperation t); mret quota) targets;
  add_capability QuotaReadCapability;;
  mret quotas.

Definition read_privileges (q : StateQuery) (s : identity_state) :
    M (list Application * list ApplicationPrivilegeAssignment) :=
  if negb (iqy_IncludeApplicationPrivileges q) then mret ([], []) else
  '(applications, _) ← wrap "get application inventory" (run_op appListOperation ());
  targets ← lift (applicationPrivilegePrincipals s q);
  assignments ← read_each (fun t =>
    '(assignment, _) ← wrap "get application privileges" (run_op ruleReadOperation t);
    mret assignment) targets;
  add_capability PrivilegeReadCapability;;
  mret (applications, assignments).

Definition identityStateLocked (q : StateQuery) : M identity_state :=
  '(users, groups) ← wrap "get account inventory" ExecuteInventory;
  add_capability InventoryCapability;;
  memberships ← read_memberships q users groups;
  let s := {| ist_Users := users; ist_Groups := groups; ist_Memberships := memberships;
              ist_Quotas := []; ist_Applications := []; ist_ApplicationPrivileges := [] |} in
  quotas ← read_quotas q s;
  '(applications, assignments) ← read_privileges q s;
  mret {| ist_Users := users; ist_Groups := groups; ist_Memberships := memberships;
          ist_Quotas := quotas; ist_Applications := applications;
          ist_ApplicationPrivileges := assignments |}.

Definition identityStateAPINames (q : StateQuery) : list string :=
  inventory_APINames
  ++ (if iqy_IncludeMemberships q then membership_APINames else [])
  ++ (if iqy_IncludeQuotas q then quota_APINames else [])
  ++ (if iqy_IncludeApplicationPrivileges q then privilege_APINames else []).

(** ** The client's methods *)

Definition IdentityState (q : StateQuery) : M identity_state :=
  wrap "prepare account inventory target"
    (prepareCompatibilityTargetLocked (identityStateAPINames q));;
  identityStateLocked q.

Definition ApplicationPrivilegePreview (principalType principal : string) :
    M ApplicationPrivilegeAssignment :=
  wrap "prepare application privilege preview target"
    (prepareCompatibilityTargetLocked privilege_APINames);;
  '(preview, _) ← wrap "preview application privileges"
    (run_op previewOperation (principalType, principal));
  add_capability PreviewCapabilityName;;
  mret preview.

Definition IdentityCapabilities : M IdentityCaps :=
  wrap "prepare account capabilities target" (prepareCompatibilityTargetLocked
    (inventory_APINames ++ mutation_APINames ++ membership_APINames ++ quota_APINames
     ++ privilege_APINames));;
  users ← select_supported "select account inventory backends" userOperation;
  groups ← select_supported "select account inventory backends" groupOperation;
  let supported := users && groups in
  when_supported supported InventoryCapability;;
  userMutations ← select_supported "select account mutation backends" userMutationOperation;
  groupMutations ← select_supported "select account mutation backends" groupMutationOperation;
  when_supported userMutations UserCapabilityName;;
  when_supported groupMutations GroupCapabilityName;;
  membershipRead ← select_supported "select membership backends" membershipReadOperation;
  membershipSet ← select_supported "select membership backends" membershipChangeOperation;
  quotaRead ← select_supported "select quota backends" quotaReadOperation;
  quotaSet ← select_supported "select quota backends" quotaSetOperation;
  apps ← select_supported "select application privilege backends" appListOperation;
  rules ← select_supported "select application privilege backends" ruleReadOperation;
  privilegeSet ← select_supported "select application privilege backends" ruleSetOperation;
  preview ← select_supported "select application privilege backends" previewOperation;
  when_supported membershipRead MembershipReadCapability;;
  when_supported membershipSet MembershipSetCapability;;
  when_supported quotaRead QuotaReadCapability;;
  when_supported quotaSet QuotaSetCapability;;
  when_supported (apps && rules) PrivilegeReadCapability;;
  when_supported privilegeSet PrivilegeSetCapability;;
  when_supported preview PreviewCapabilityName;;
  updateDerivedCapabilitiesLocked;;
  mret {|
    ica_InventoryRead := supported; ica_UserCreate := userMutations;
    ica_UserUpdate := userMutations; ica_UserDelete := userMutations;
    ica_GroupCreate := groupMutations; ica_GroupUpdate := groupMutations;
    ica_GroupDelete := groupMutations; ica_MembershipRead := membershipRead;
    ica_MembershipSet := membershipSet; ica_QuotaRead := quotaRead; ica_QuotaSet := quotaSet;
    ica_ApplicationPrivilegeRead := apps && rules; ica_ApplicationPrivilegeSet := privilegeSet;
    ica_ApplicationPrivilegePreview := preview;
    ica_Mutations := userMutations || groupMutations || membershipSet || quotaSet
                     || privilegeSet |}.

(** The request's object, which its resource names. *)
Definition required {A} (o : option A) (msg : string) : M A :=
  match o with Some a => mret a | None => fail (EMsg msg) end.

Definition membership_query (user : string) : StateQuery := {|
  iqy_IncludeMemberships := true; iqy_IncludeQuotas := false;
  iqy_IncludeApplicationPrivileges := false;
  iqy_IncludeRelatedGroupApplicationPrivileges := false;
  iqy_PrincipalType := PrincipalUser; iqy_Principal := user |}.

(** The memberships are read again: what changes is the difference at that moment. *)
Definition apply_membership (change : MembershipChange) : M ChangeResult :=
  s ← wrap "read current membership state" (identityStateLocked (membership_query (mch_User change)));
  let current := match membershipForUser (ist_Memberships s) (mch_User change) with
                 | Some m => mem_Groups m
                 | None => []
                 end in
  let '(add, remove) := membershipDelta current (mch_Groups change) in
  '(r, _) ← wrap "apply membership change"
    (run_op membershipChangeOperation (mch_User change, add, remove));
  mret r.

Definition ApplyIdentityChange (request : IdentityChange) (password : string) :
    M ChangeResult :=
  wrap "prepare account mutation target" (prepareCompatibilityTargetLocked
    (mutation_APINames ++ membership_APINames ++ quota_APINames ++ privilege_APINames));;
  let resource := icr_Resource request in
  if bool_decide (resource = ResourceUser) then
    change ← required (icr_User request) "user change is required";
    '(r, _) ← wrap "apply user change"
      (run_op userMutationOperation (icr_Action request, change, password));
    mret r
  else if bool_decide (resource = ResourceGroup) then
    change ← required (icr_Group request) "group change is required";
    '(r, _) ← wrap "apply group change"
      (run_op groupMutationOperation (icr_Action request, change));
    mret r
  else if bool_decide (resource = ResourceMembership) then
    change ← required (icr_Membership request) "membership change is required";
    apply_membership change
  else if bool_decide (resource = ResourceQuota) then
    change ← required (icr_Quota request) "quota change is required";
    '(r, _) ← wrap "apply quota change" (run_op quotaSetOperation change);
    mret r
  else if bool_decide (resource = ResourceApplicationPrivilege) then
    change ← required (icr_ApplicationPrivilege request)
      "application privilege change is required";
    '(r, _) ← wrap "apply application privilege change" (run_op ruleSetOperation change);
    mret r
  else fail (EMsg "unsupported identity resource").
End ops.
