(* ===== verification/ShareWire.v ===== *)
(** * The wire form of shared folders

    Source: the decoders of internal/synology/operations/shareinventory and the request
    builders of sharemutation.  Sizes are 64-bit unsigned and wrap around; DSM reports a
    quota in MiB. *)

From S2P Require Import Prelude.
From S2P Require Import GoStrings.
From S2P Require Import Compat.
From S2P Require Import Json.
From S2P Require Import DsmErrors.
From S2P Require Import DsmClient.
From S2P Require Import Identity.
From S2P Require Import IdentityWire.

(** ** Decoding *)

(** As [IdentityWire.scalarString], without booleans. *)
Fixpoint share_scalar (m : object) (keys : list string) : string :=
  match keys with
  | [] => ""
  | k :: keys =>
      match obj_get m k with
      | Some (JString s) => s
      | Some (JNumber n) => n
      | _ => share_scalar m keys
      end
  end.

Definition share_bool : object → list string → bool := boolOf ["1"; "yes"].

Definition maxUint64 : Z := 2 ^ 64 - 1.
(** [value, _ := strconv.ParseUint(s, 10, 64)] *)
Definition uint64_ignore (literal : string) : Z :=
  match unsigned_value (bytes literal) with Some v => Z.min maxUint64 v | None => 0 end.

Fixpoint uint64Value (m : object) (keys : list string) : Z :=
  match keys with
  | [] => 0
  | k :: keys =>
      match obj_get m k with
      | Some (JNumber n) => uint64_ignore n
      | Some (JString s) => uint64_ignore s
      | _ => uint64Value m keys
      end
  end.

(** [n * 1024 * 1024] on uint64 *)
Definition mib (n : Z) : Z := u64_wrap (n * 1024 * 1024).

Definition decode_share (m : object) : SharedFolder := {|
  sf_Name := share_scalar m ["name"];
  sf_UUID := share_scalar m ["uuid"];
  sf_Description := share_scalar m ["desc"; "description"];
  sf_VolumePath := share_scalar m ["vol_path"; "volume_path"];
  sf_Hidden := share_bool m ["hidden"];
  sf_Encrypted := share_bool m ["encryption"; "encrypted"];
  sf_EncryptionAutoMount := share_bool m ["enc_auto_mount"; "encryption_auto_mount"];
  sf_ACLMode := share_bool m ["is_aclmode"; "acl_mode"];
  sf_UnifiedPermissions := share_bool m ["unite_permission"; "is_unite_permission"];
  sf_USB := share_bool m ["is_usb_share"; "usb"];
  sf_SnapshotSupported := share_bool m ["support_snapshot"; "snapshot_supported"];
  sf_QuotaBytes := mib (uint64Value m ["quota_value"]);
  sf_QuotaUsedBytes := uint64Value m ["share_quota_used"; "share_quota_logical_size"];
  sf_Permissions := [] |}.

Definition decodeShares (data : RawMessage) : result dsm_error (list SharedFolder) :=
  raw ← decodeMap data "shared-folder inventory"; mret (decode_share <$> objectList raw "shares").

Definition permission_flags : list string :=
  ["is_deny"; "is_custom"; "is_writable"; "is_readonly"; "is_mask"; "is_aclmode"].

Definition boolean_like (v : json) : bool :=
  match v with
  | JBool _ | JNumber _ => true
  | JString s => bool_decide (s ∈ ["true"; "false"; "0"; "1"; "yes"; "no"])
  | _ => false
  end.

Definition validatePermissionFlags (m : object) : bool :=
  forallb (fun name => match obj_get m name with
                       | Some v => boolean_like v
                       | None => false
                       end) permission_flags.

Definition permissionAccess (m : object) : string :=
  if share_bool m ["is_deny"] then AccessDeny
  else if share_bool m ["is_custom"] then AccessCustom
  else if share_bool m ["is_writable"] then AccessWrite
  else if share_bool m ["is_readonly"] then AccessRead
  else AccessNone.

(** The aggregate and whether it was reported. *)
Definition permissionInheritedAccess (m : object) : result dsm_error (string * bool) :=
  let value := match obj_get m "inherit" with
               | Some v => Some v
               | None => obj_get m "inherited"
               end in
  match value with
  | None => Ok ("", false)
  | Some (JString code) =>
      if bool_decide (code ∈ ["-"; ""]) then Ok (AccessNone, true)
      else if bool_decide (code = "na") then Ok (AccessDeny, true)
      else if bool_decide (code = "cu") then Ok (AccessCustom, true)
      else if bool_decide (code = "rw") then Ok (AccessWrite, true)
      else if bool_decide (code = "ro") then Ok (AccessRead, true)
      else Err (EMsg "unsupported inherit permission code")
  | Some _ => Err (EMsg "inherit must be a string permission code")
  end.

Definition requiredPermissionObjects (m : object) (key : string) :
    result dsm_error (list object) :=
  match obj_get m key with
  | None => Err (EMsg "required field is missing")
  | Some (JArray l) =>
      match mapM is_object l with
      | Some objects => Ok objects
      | None => Err (EMsg "field element must be an object")
      end
  | Some _ => Err (EMsg "field must be an array")
  end.

(** [permissionResult]: the folder and the binding. *)
Definition decode_binding (principalType principal : string) (m : object) :
    result dsm_error (string * Permission) :=
  let name := share_scalar m ["name"] in
  if bool_decide (name = "") then Err (EMsg "decode shared-folder permissions: no name")
  else if negb (validatePermissionFlags m)
  then Err (EMsg "decode shared-folder permissions: invalid flag")
  else
    '(inherited, observed) ← permissionInheritedAccess m;
    if bool_decide (principalType = PrincipalUser) && negb observed
    then Err (EMsg "decode shared-folder permissions: no inherit aggregate for user")
    else Ok (name, {|
      pe_PrincipalType := principalType; pe_Principal := principal;
      pe_Access := permissionAccess m;
      pe_Inherited := observed && negb (bool_decide (inherited = AccessNone));
      pe_InheritedAccess := inherited; pe_InheritanceObserved := observed;
      pe_Custom := share_bool m ["is_custom"; "custom"];
      pe_Masked := share_bool m ["is_mask"; "masked"];
      pe_ACLMode := share_bool m ["is_aclmode"; "acl_mode"] |}).

Definition decode_bindings (data : RawMessage) (principalType principal : string) :
    result dsm_error (list (string * Permission)) :=
  raw ← decodeMap data "shared-folder permissions";
  items ← requiredPermissionObjects raw "shares";
  decode_each (decode_binding principalType principal) items.

(** ** Changes *)

(** The settings of a folder; [update] is the volume it is on. *)
Definition shareInfoValues (c : ShareChange) (resultName : string) (update : option string) :
    object :=
  let m := [("name", JString resultName)] in
  let m := match update with
           | Some path => obj_set (obj_set m "name_org" (JString (sch_Name c)))
                            "vol_path" (JString path)
           | None => m
           end in
  let m := if bool_decide (sch_VolumePath c = "") then m
           else obj_set m "vol_path" (JString (sch_VolumePath c)) in
  let m := setOptionalJSON JString "desc" (sch_Description c) m in
  let m := setOptionalJSON JBool "hidden" (sch_Hidden c) m in
  let m := setOptionalJSON JBool "enable_recycle_bin" (sch_RecycleBin c) m in
  let m := setOptionalJSON JBool "recycle_bin_admin_only" (sch_RecycleBinAdminOnly c) m in
  let m := setOptionalJSON JBool "hide_unreadable" (sch_HideUnreadable c) m in
  let m := setOptionalJSON JBool "enable_share_cow" (sch_EnableCOW c) m in
  let m := setOptionalJSON JBool "enable_share_compress" (sch_EnableCompression c) m in
  setOptionalJSON (fun q => JString (Itoa q)) "share_quota" (sch_QuotaMiB c) m.

(** Method, parameters and the name of the result. *)
Definition shareRequest (action : string) (c : ShareChange) (currentVolumePath : string) :
    result dsm_error (string * Values * string) :=
  if bool_decide (action = ActionCreate) then
    Ok ("create", vset "shareinfo" (Encoded (JObject (shareInfoValues c (sch_Name c) None)))
                    (form [("name", sch_Name c)]), sch_Name c)
  else if bool_decide (action = ActionUpdate) then
    let resultName := match sch_NewName c with
                      | Some n => TrimSpace n
                      | None => sch_Name c
                      end in
    if bool_decide (currentVolumePath = "")
    then Err (EMsg "current volume path is required to update shared folder")
    else Ok ("set", vset "shareinfo"
               (Encoded (JObject (shareInfoValues c resultName (Some currentVolumePath))))
               (form [("name", sch_Name c)]), resultName)
  else if bool_decide (action = ActionDelete) then
    Ok ("delete", vset "name" (Encoded (strings [sch_Name c])) ∅, sch_Name c)
  else Err (EMsg "unsupported shared-folder action").

Definition accessFlags (access : string) : result dsm_error object :=
  let flags r w d := [("is_readonly", JBool r); ("is_writable", JBool w); ("is_deny", JBool d);
                      ("is_custom", JBool false)] in
  if bool_decide (access = AccessNone) then Ok (flags false false false)
  else if bool_decide (access = AccessRead) then Ok (flags true false false)
  else if bool_decide (access = AccessWrite) then Ok (flags false true false)
  else if bool_decide (access = AccessDeny) then Ok (flags false false true)
  else Err (EMsg "unsupported permission access").

Definition grant_flags (g : PermissionGrant) : result dsm_error object :=
  flags ← accessFlags (pgr_Access g);
  Ok (obj_set flags "name" (JString (pgr_ShareName g))).

(** [local_user] or [local_group]. *)
Definition userGroupType (principalType : string) : result dsm_error string :=
  if bool_decide (principalType = PrincipalUser) then Ok "local_user"
  else if bool_decide (principalType = PrincipalGroup) then Ok "local_group"
  else Err (EMsg "unsupported principal type").

Definition permissionRequest (c : PermissionChange) : result dsm_error Values :=
  kind ← userGroupType (pch_PrincipalType c);
  permissions ← decode_each grant_flags (pch_Permissions c);
  Ok (vset "permissions" (Encoded (JArray (JObject <$> permissions)))
        (form [("name", pch_Principal c); ("user_group_type", kind)])).
