(* ===== verification/ShareOps.v ===== *)
(** * The DSM operations on shared folders and their client

    Source: internal/synology/operations/shareinventory/operation.go,
    sharemutation/operation.go and internal/synology/share.go.  Of the users and groups of
    a permission listing only the names are used.  The report of [ShareCapabilities] is not
    modelled. *)

From S2P Require Import Prelude.
From S2P Require Import GoStrings.
From S2P Require Import Compat.
From S2P Require Import Json.
From S2P Require Import DsmErrors.
From S2P Require Import DsmClient.
From S2P Require Import DsmOps.
From S2P Require Import Identity.
From S2P Require Import IdentityWire.
From S2P Require Import IdentityOps.
From S2P Require Import ShareWire.

Definition ShareAPIName : string := "SYNO.Core.Share".
Definition PermissionAPIName : string := "SYNO.Core.Share.Permission".
Definition ShareInventoryCapability : string := "share.inventory".
Definition SharePermissionsCapability : string := "share.permissions".
Definition ShareMutateCapability : string := "share.mutate".
Definition PermissionMutateCapability : string := "share.permissions.mutate".

Definition additionalShareFields : json := strings
  ["hidden"; "encryption"; "is_aclmode"; "unite_permission"; "support_snapshot"; "share_quota"].
Definition additionalPermissionFields : json := strings ["hidden"; "encryption"; "is_aclmode"].
Definition shareTypes : json := strings
  ["dec"; "local"; "usb"; "sata"; "cluster"; "c2"; "cold_storage"; "worm"].

Record ShareInput := {
  sin_IncludePermissions : bool;
  sin_Users : list string;
  sin_Groups : list string
}.
Definition zero_input : ShareInput :=
  {| sin_IncludePermissions := false; sin_Users := []; sin_Groups := [] |}.

(** The index of a folder; of two folders of one name the last counts. *)
Definition by_name (shares : list SharedFolder) : gmap string nat :=
  fold_left (fun m '(i, f) => <[sf_Name f := i]> m) (imap pair shares) ∅.

(** [shares[index].Permissions = append(...)]; a binding of another folder is dropped. *)
Definition add_binding (byName : gmap string nat) (shares : list SharedFolder)
    (r : string * Permission) : list SharedFolder :=
  match byName !! r.1 with
  | Some i => alter (fun f => set_Permissions (sf_Permissions f ++ [r.2]) f) i shares
  | None => shares
  end.

Definition binding_le (x y : Permission) : Prop :=
  if bool_decide (pe_PrincipalType x = pe_PrincipalType y)
  then String.le (pe_Principal x) (pe_Principal y)
  else String.le (pe_PrincipalType x) (pe_PrincipalType y).
#[export] Instance binding_le_dec x y : Decision (binding_le x y).
Proof. unfold binding_le. case_bool_decide; apply _. Defined.

Definition sort_bindings (f : SharedFolder) : SharedFolder :=
  set_Permissions (merge_sort binding_le (sf_Permissions f)) f.

Section ops.
Context `{Unicode} {W : Type} `{Network W}.

Abbreviation M := (ST (dstate W) dsm_error).

(** ** Operations *)

Definition shareListOperation : Operation (() → M (list SharedFolder)) :=
  operation1 "shares.list" "core-share-v1" ShareAPIName (APIVersion ShareAPIName 1) (fun _ =>
    data ← wrap "call list" (executeLocked (form_call ShareAPIName 1 "list"
      (vset "additional" (Encoded additionalShareFields)
        (form [("offset", "0"); ("limit", "-1")]))));
    lift (decodeShares data)).

(** Method and principal kind of a listing. *)
Definition permissionMethod (principalType : string) : result dsm_error (string * string) :=
  if bool_decide (principalType = PrincipalUser) then Ok ("list_by_user", "local_user")
  else if bool_decide (principalType = PrincipalGroup) then Ok ("list_by_group", "local_group")
  else Err (EMsg "unsupported principal type").

Definition permission_list (method kind principal : string) : Request :=
  form_call PermissionAPIName 1 method
    (vset "additional" (Encoded additionalPermissionFields)
      (vset "share_type" (Encoded shareTypes)
        (form [("name", principal); ("user_group_type", kind)]))).

Definition permissionListOperation :
    Operation (string * string → M (list (string * Permission))) :=
  operation1 "shares.permissions.list" "core-share-permission-v1" PermissionAPIName
    (APIVersion PermissionAPIName 1) (fun '(principalType, principal) =>
      '(method, kind) ← lift (permissionMethod principalType);
      check (negb (bool_decide (principal = ""))) (EMsg "principal name is required");;
      data ← wrap "call list" (executeLocked (permission_list method kind principal));
      lift (decode_bindings data principalType principal)).

Definition shareMutationOperation : Operation (string * ShareChange * string → M ChangeResult) :=
  operation1 "shares.mutate" "core-share-mutation-v1" ShareAPIName (APIVersion ShareAPIName 1)
    (fun '(action, change, currentVolumePath) =>
      '(method, params, name) ← lift (shareRequest action change currentVolumePath);
      wrap "call" (executeLocked (form_call ShareAPIName 1 method params));;
      mret {| chr_Resource := ResourceShare; chr_Action := action; chr_Name := name |}).

Definition permissionMutationOperation : Operation (PermissionChange → M ChangeResult) :=
  operation1 "shares.permissions.mutate" "core-share-permission-mutation-v1" PermissionAPIName
    (APIVersion PermissionAPIName 1) (fun change =>
      params ← lift (permissionRequest change);
      wrap "call" (executeLocked (form_call PermissionAPIName 1 "set_by_user_group" params));;
      mret {| chr_Resource := ResourcePermission; chr_Action := ActionSet;
              chr_Name := pch_Principal change |}).

(** ** The inventory *)

Definition share_APINames : list string :=
  sort_strings (dedup (APINames shareListOperation ++ APINames permissionListOperation)).
Definition share_mutation_APINames : list string := [PermissionAPIName; ShareAPIName].

Fixpoint appendPermissions (byName : gmap string nat) (principals : list kind_name)
    (shares : list SharedFolder) : M (list SharedFolder) :=
  match principals with
  | [] => mret shares
  | p :: principals =>
      '(results, _) ← run_op permissionListOperation p;
      appendPermissions byName principals (fold_left (add_binding byName) results shares)
  end.

(** [shareinventory.Execute] *)
Definition ExecuteShares (input : ShareInput) : M share_state :=
  '(shares, _) ← run_op shareListOperation ();
  c ← client;
  if negb (sin_IncludePermissions input)
  then mret {| shs_Shares := shares; shs_PermissionsIncluded := false |}
  else match Select permissionListOperation (cl_target c) with
       | (inl e, _) => fail (ESelect e)
       | (inr _, _) =>
           let shares := set_Permissions [] <$> shares in
           shares ← appendPermissions (by_name shares)
             ((pair PrincipalUser <$> sin_Users input) ++ (pair PrincipalGroup <$> sin_Groups input))
             shares;
           mret {| shs_Shares := sort_bindings <$> shares; shs_PermissionsIncluded := true |}
       end.

(** ** The client's methods *)

Definition ShareState (includePermissions : bool) : M share_state :=
  wrap "prepare shared-folder inventory target" (prepareCompatibilityTargetLocked
    (share_APINames ++ (if includePermissions then inventory_APINames else [])));;
  input ←
    (if includePermissions then
       identities ← wrap "load permission principals" (identityStateLocked zero_query);
       mret {| sin_IncludePermissions := true; sin_Users := usr_Name <$> ist_Users identities;
               sin_Groups := grp_Name <$> ist_Groups identities |}
     else mret zero_input);
  state ← wrap "get shared-folder inventory" (ExecuteShares input);
  add_capability ShareInventoryCapability;;
  when_supported includePermissions SharePermissionsCapability;;
  mret state.

(** The principals, each once, as the names of users and of groups. *)
Fixpoint select_principals (seen : gset string) (l : list SharePrincipal) (input : ShareInput) :
    result dsm_error ShareInput :=
  match l with
  | [] => Ok input
  | p :: l =>
      let name := TrimSpace (shp_Name p) in
      let key := shp_Type p +:+ chr 0 +:+ ToLower name in
      if bool_decide (name = "") then Err (EMsg "share permission principal name is required")
      else if bool_decide (key ∈ seen) then select_principals seen l input
      else
        let seen := {[key]} ∪ seen in
        if bool_decide (shp_Type p = PrincipalUser) then
          select_principals seen l
            {| sin_IncludePermissions := true; sin_Users := sin_Users input ++ [name];
               sin_Groups := sin_Groups input |}
        else if bool_decide (shp_Type p = PrincipalGroup) then
          select_principals seen l
            {| sin_IncludePermissions := true; sin_Users := sin_Users input;
               sin_Groups := sin_Groups input ++ [name] |}
        else Err (EMsg "unsupported share permission principal type")
  end.

Definition ShareStateForPrincipals (principals : list SharePrincipal) : M share_state :=
  check (negb (bool_decide (principals = [])))
    (EMsg "at least one share permission principal is required");;
  wrap "prepare focused shared-folder inventory target"
    (prepareCompatibilityTargetLocked share_APINames);;
  input ← lift (select_principals ∅ principals
    {| sin_IncludePermissions := true; sin_Users := []; sin_Groups := [] |});
  state ← wrap "get focused shared-folder permissions" (ExecuteShares input);
  add_capability ShareInventoryCapability;;
  add_capability SharePermissionsCapability;;
  mret state.

Definition ShareCapabilities : M ShareCaps :=
  wrap "prepare shared-folder capabilities target" (prepareCompatibilityTargetLocked
    (share_APINames ++ inventory_APINames ++ share_mutation_APINames));;
  inventory ← select_supported "select shared-folder backends" shareListOperation;
  permissions ← select_supported "select shared-folder backends" permissionListOperation;
  users ← select_supported "select permission-principal backends" userOperation;
  groups ← select_supported "select permission-principal backends" groupOperation;
  let permissionSupported := permissions && (users && groups) in
  when_supported inventory ShareInventoryCapability;;
  when_supported permissionSupported SharePermissionsCapability;;
  shareMutations ← select_supported "select shared-folder mutation backends"
    shareMutationOperation;
  permissionMutations ← select_supported "select shared-folder mutation backends"
    permissionMutationOperation;
  when_supported shareMutations ShareMutateCapability;;
  when_supported permissionMutations PermissionMutateCapability;;
  updateDerivedCapabilitiesLocked;;
  mret {| sca_InventoryRead := inventory; sca_PermissionRead := permissionSupported;
          sca_ShareCreate := shareMutations; sca_ShareUpdate := shareMutations;
          sca_ShareDelete := shareMutations; sca_PermissionWrite := permissionMutations;
          sca_Mutations := shareMutations || permissionMutations |}.

(** The volume of the folder, for an update: the folder is looked up again. *)
Definition current_volume (action : string) (change : ShareChange) : M string :=
  if negb (bool_decide (action = ActionUpdate)) then mret "" else
  state ← wrap "load current shared-folder settings" (ExecuteShares zero_input);
  let path := match find_first (fun f => EqualFold (sf_Name f) (sch_Name change))
                      (shs_Shares state) with
              | Some f => sf_VolumePath f
              | None => ""
              end in
  check (negb (bool_decide (path = ""))) (EMsg "shared folder no longer exists");;
  mret path.

Definition ApplyShareChange (request : ShareRequest) : M ChangeResult :=
  wrap "prepare shared-folder mutation target"
    (prepareCompatibilityTargetLocked share_mutation_APINames);;
  if bool_decide (scr_Resource request = ResourceShare) then
    change ← required (scr_Share request) "shared-folder change is required";
    path ← current_volume (scr_Action request) change;
    '(r, _) ← wrap "apply shared-folder change"
      (run_op shareMutationOperation (scr_Action request, change, path));
    mret r
  else if bool_decide (scr_Resource request = ResourcePermission) then
    change ← required (scr_Permission request) "permission change is required";
    '(r, _) ← wrap "apply shared-folder permission change"
      (run_op permissionMutationOperation change);
    mret r
  else fail (EMsg "unsupported share resource").
End ops.
