(* ===== verification/Access.v ===== *)
(** * Explaining effective access

    Source: internal/domain/access/model.go and evaluate.go, over the data of [Share] and
    [Identity].  Pure functions from the rules DSM reported to an explanation. *)

From S2P Require Import Prelude.
From S2P Require Import GoStrings.
From S2P Require Import Identity.

(** ** Model *)

Definition AccessAllow : string := "allow".
Definition AccessIndeterminate : string := "indeterminate".
Definition SourceDirect : string := "direct".
Definition SourceGroup : string := "group".
Definition SourcePreview : string := "dsm_preview".

Record Query := {
  qy_PrincipalType : string;
  qy_Principal : string;
  qy_ResourceType : string;
  qy_Resource : string
}.

Record Evidence := {
  eo_Source : string;
  eo_PrincipalType : string;
  eo_Principal : string;
  eo_Access : string;
  eo_Inherited : bool;
  eo_InheritedAccess : string;
  eo_Custom : bool;
  eo_Masked : bool;
  eo_AllowIP : list string;
  eo_DenyIP : list string;
  eo_Reason : string
}.

Record Explanation := {
  ex_PrincipalType : string;
  ex_Principal : string;
  ex_ResourceType : string;
  ex_Resource : string;
  ex_EffectiveAccess : string;
  ex_Determinate : bool;
  ex_Summary : string;
  ex_Evidence : list Evidence;
  ex_Limitations : list string
}.

(** [%q] of a text without characters to escape. *)
Definition quoted (s : string) : string := chr 34 +:+ s +:+ chr 34.

Section access.
Context `{Unicode}.

(** ** Evidence *)

Definition containsFold (values : list string) (target : string) : bool :=
  existsb (fun v => EqualFold v target) values.

(** [None] is [include = false]. *)
Definition sourceFor (q : Query) (groups : list string) (principalType principal : string) :
    option string :=
  if EqualFold principalType (qy_PrincipalType q) && EqualFold principal (qy_Principal q)
  then Some SourceDirect
  else if bool_decide (qy_PrincipalType q = PrincipalUser)
          && bool_decide (principalType = PrincipalGroup) && containsFold groups principal
  then Some SourceGroup
  else None.

Definition shareEvidenceReason (p : Permission) : string :=
  Join (["shared-folder root permission reported by DSM"]
    ++ (if pe_Inherited p
        then ["DSM returned inherited group access " +:+ pe_InheritedAccess p]
        else if pe_InheritanceObserved p
        then ["DSM returned no inherited group rule"] else [])
    ++ (if pe_Custom p || bool_decide (pe_Access p = AccessCustom)
        then ["custom ACL semantics are not modeled"] else [])
    ++ (if pe_Masked p then ["DSM marked it masked"] else [])) "; ".

Definition share_evidence (source : string) (p : Permission) : Evidence := {|
  eo_Source := source; eo_PrincipalType := pe_PrincipalType p;
  eo_Principal := pe_Principal p; eo_Access := pe_Access p;
  eo_Inherited := pe_Inherited p; eo_InheritedAccess := pe_InheritedAccess p;
  eo_Custom := pe_Custom p; eo_Masked := pe_Masked p; eo_AllowIP := []; eo_DenyIP := [];
  eo_Reason := shareEvidenceReason p |}.

Definition evidence_le (x y : Evidence) : Prop :=
  if negb (bool_decide (eo_Source x = eo_Source y))
  then String.le (eo_Source x) (eo_Source y)
  else if negb (bool_decide (eo_PrincipalType x = eo_PrincipalType y))
  then String.le (eo_PrincipalType x) (eo_PrincipalType y)
  else String.le (ToLower (eo_Principal x)) (ToLower (eo_Principal y)).
#[global] Instance evidence_le_dec : RelDecision evidence_le.
Proof. intros x y. unfold evidence_le. repeat case_match; apply _. Defined.

(** The stable insertion the sort amounts to. *)
Fixpoint insert_evidence (e : Evidence) (l : list Evidence) : list Evidence :=
  match l with
  | [] => [e]
  | x :: l' => if decide (evidence_le e x) then e :: l else x :: insert_evidence e l'
  end.
Definition sortEvidence (l : list Evidence) : list Evidence := foldr insert_evidence [] l.

Definition baseExplanation (q : Query) (evidence : list Evidence) : Explanation := {|
  ex_PrincipalType := qy_PrincipalType q; ex_Principal := qy_Principal q;
  ex_ResourceType := qy_ResourceType q; ex_Resource := qy_Resource q;
  ex_EffectiveAccess := AccessIndeterminate; ex_Determinate := false; ex_Summary := "";
  ex_Evidence := evidence; ex_Limitations := [] |}.

Definition with_answer (access summary : string) (determinate : bool)
    (limitations : list string) (e : Explanation) : Explanation := {|
  ex_PrincipalType := ex_PrincipalType e; ex_Principal := ex_Principal e;
  ex_ResourceType := ex_ResourceType e; ex_Resource := ex_Resource e;
  ex_EffectiveAccess := access; ex_Determinate := determinate; ex_Summary := summary;
  ex_Evidence := ex_Evidence e; ex_Limitations := limitations |}.

(** ** Shared folders *)

(** The evidence in the order of the rows, and the last direct row. *)
Fixpoint share_rows (q : Query) (groups : list string) (ps : list Permission)
    (evidence : list Evidence) (direct : option Permission) :
    list Evidence * option Permission :=
  match ps with
  | [] => (evidence, direct)
  | p :: ps =>
      match sourceFor q groups (pe_PrincipalType p) (pe_Principal p) with
      | None => share_rows q groups ps evidence direct
      | Some source =>
          share_rows q groups ps (evidence ++ [share_evidence source p])
            (if bool_decide (source = SourceDirect) then Some p else direct)
      end
  end.

Definition shareLimitation (q : Query) (folder : SharedFolder) (direct : option Permission)
    (evidence : list Evidence) : string :=
  match direct with
  | None => "DSM did not return a direct permission row for " +:+ qy_PrincipalType q
            +:+ " " +:+ qy_Principal q
  | Some d =>
      if sf_UnifiedPermissions folder then
        "DSM Advanced Share Permissions are enabled for this shared folder; their action-specific rules are not yet included"
      else
      match find_first eo_Masked evidence with
      | Some rule => "DSM marked the permission controls for " +:+ eo_PrincipalType rule
          +:+ " " +:+ eo_Principal rule
          +:+ " as masked; the cause is not represented by this API"
      | None =>
          if bool_decide (qy_PrincipalType q = PrincipalUser)
             && negb (pe_InheritanceObserved d)
          then "DSM did not return its computed inherited group permission" else ""
      end
  end.

Definition userShareAccess (direct : Permission) (groups : list string)
    (folder : SharedFolder) : string :=
  let inherited := pe_InheritedAccess direct in
  let access := pe_Access direct in
  if bool_decide (inherited = AccessDeny) then AccessDeny
  else if bool_decide (inherited = AccessCustom) then
    if bool_decide (access = AccessDeny) then AccessDeny else AccessCustom
  else if bool_decide (inherited = AccessWrite) then
    if bool_decide (access = AccessDeny) then AccessDeny
    else if bool_decide (access = AccessCustom) then AccessCustom
    else AccessWrite
  else if bool_decide (inherited = AccessRead) then
    if bool_decide (access = AccessDeny) then AccessDeny
    else if bool_decide (access = AccessCustom) then AccessCustom
    else if bool_decide (access = AccessWrite) then AccessWrite
    else if sf_ACLMode folder && containsFold groups "administrators" then AccessWrite
    else AccessRead
  else if bool_decide (inherited = AccessNone) then
    if bool_decide (access ∈ [AccessDeny; AccessCustom; AccessWrite; AccessRead])
    then access
    else if EqualFold (sf_Name folder) "homes" then "default"
    else AccessNone
  else "unknown".

Definition groupShareAccess (direct : Permission) (aclMode : bool) : string :=
  let access := pe_Access direct in
  let administrators := aclMode && EqualFold (pe_Principal direct) "administrators" in
  if bool_decide (access ∈ [AccessDeny; AccessCustom; AccessWrite; AccessRead]) then
    if bool_decide (access = AccessRead) && administrators then AccessWrite else access
  else if bool_decide (access = AccessNone) then
    if administrators then AccessWrite else AccessNone
  else "unknown".

Definition indeterminateShare (result : Explanation) (q : Query) (limitation : string) :
    Explanation :=
  with_answer AccessIndeterminate
    ("Access to shared folder " +:+ qy_Resource q +:+ " is indeterminate: "
     +:+ limitation +:+ ".") false [limitation] result.

Definition strongestSource (effective : string) (evidence : list Evidence) : string :=
  match find_first (fun r => bool_decide (eo_Access r = effective)) evidence with
  | Some rule =>
      if bool_decide (eo_Source rule = SourceDirect)
      then "a direct " +:+ effective +:+ " rule applies"
      else "group " +:+ eo_Principal rule +:+ " contributes a " +:+ effective +:+ " rule"
  | None => "DSM precedence was applied to the observed rules"
  end.

Definition shareSummary (q : Query) (effective : string) (evidence : list Evidence) :
    string :=
  let source := strongestSource effective evidence in
  if bool_decide (source = "")
  then qy_PrincipalType q +:+ " " +:+ qy_Principal q
       +:+ " has no observed grant on shared folder " +:+ qy_Resource q +:+ "."
  else qy_PrincipalType q +:+ " " +:+ qy_Principal q +:+ " has " +:+ effective
       +:+ " access to shared folder " +:+ qy_Resource q +:+ "; " +:+ source +:+ ".".

Definition ExplainShare (q : Query) (groups : list string) (folder : SharedFolder) :
    Explanation :=
  let '(evidence, direct) := share_rows q groups (sf_Permissions folder) [] None in
  let evidence := sortEvidence evidence in
  let result := baseExplanation q evidence in
  let limitation := shareLimitation q folder direct evidence in
  if negb (bool_decide (limitation = "")) then indeterminateShare result q limitation else
  let d := default zero_permission direct in
  let effective := if bool_decide (qy_PrincipalType q = PrincipalGroup)
                   then groupShareAccess d (sf_ACLMode folder)
                   else userShareAccess d groups folder in
  if bool_decide (effective = AccessCustom)
  then indeterminateShare result q "DSM computed a custom Windows ACL that dsmctl does not model"
  else if bool_decide (effective = "default")
  then indeterminateShare result q "DSM reports the special homes default permission, whose per-home filesystem ACL is outside this shared-folder-root model"
  else if bool_decide (effective = "unknown") || bool_decide (effective = "")
  then indeterminateShare result q "DSM returned an unknown inherited permission code"
  else with_answer effective (shareSummary q effective evidence) true [] result.

(** ** Applications *)

Fixpoint group_principals (groups : list string) (seen : list string) :
    list (string * string * string) :=
  match groups with
  | [] => []
  | group :: groups =>
      let key := ToLower (TrimSpace group) in
      if bool_decide (key = "") || bool_decide (key ∈ seen)
      then group_principals groups seen
      else (SourceGroup, PrincipalGroup, group) :: group_principals groups (key :: seen)
  end.

(** [(source, kind, name)] *)
Definition applicablePrincipals (q : Query) (groups : list string) :
    list (string * string * string) :=
  (SourceDirect, qy_PrincipalType q, qy_Principal q)
  :: (if bool_decide (qy_PrincipalType q = PrincipalUser)
      then group_principals groups [ToLower (qy_Principal q)] else []).

Fixpoint applicationPermission (assignments : list ApplicationPrivilegeAssignment)
    (principalType principal appID : string) : option ApplicationPermission :=
  match assignments with
  | [] => None
  | a :: assignments =>
      if negb (EqualFold (aa_PrincipalType a) principalType)
         || negb (EqualFold (aa_Principal a) principal)
      then applicationPermission assignments principalType principal appID
      else match find_first (fun p => EqualFold (am_ApplicationID p) appID) (aa_Permissions a) with
           | Some p => Some p
           | None => applicationPermission assignments principalType principal appID
           end
  end.

Definition principal_evidence (assignments : list ApplicationPrivilegeAssignment)
    (appID : string) (p : string * string * string) : Evidence :=
  let '(source, kind, name) := p in
  let permission := applicationPermission assignments kind name appID in
  let access := match permission with Some m => am_Access m
                | None => ApplicationAccessInherit end in {|
    eo_Source := source; eo_PrincipalType := kind; eo_Principal := name;
    eo_Access := access; eo_Inherited := false; eo_InheritedAccess := "";
    eo_Custom := bool_decide (access = AccessCustom); eo_Masked := false;
    eo_AllowIP := match permission with Some m => am_AllowIP m | None => [] end;
    eo_DenyIP := match permission with Some m => am_DenyIP m | None => [] end;
    eo_Reason := match permission with
      | Some _ => "explicit application privilege rule"
      | None => "no explicit rule was observed; this principal inherits DSM application policy"
      end |}.

Definition preview_evidence (m : ApplicationPermission)
    (preview : ApplicationPrivilegeAssignment) (reason : string) : Evidence := {|
  eo_Source := SourcePreview; eo_PrincipalType := aa_PrincipalType preview;
  eo_Principal := aa_Principal preview; eo_Access := am_Access m; eo_Inherited := false;
  eo_InheritedAccess := ""; eo_Custom := bool_decide (am_Access m = AccessCustom);
  eo_Masked := false; eo_AllowIP := []; eo_DenyIP := []; eo_Reason := reason |}.

Definition evidenceForPreview (m : ApplicationPermission)
    (preview : ApplicationPrivilegeAssignment) : Evidence :=
  preview_evidence m preview "DSM final preview including inherited and default policy".

Definition applicationLimitation (evidence : list Evidence) : string :=
  match find_first (fun r => eo_Custom r || bool_decide (eo_Access r = AccessCustom)) evidence with
  | Some rule => eo_PrincipalType rule +:+ " " +:+ eo_Principal rule
                 +:+ " has an IP-specific or custom application rule"
  | None => ""
  end.

Definition applicationSummary (q : Query) (effective : string) : string :=
  qy_PrincipalType q +:+ " " +:+ qy_Principal q +:+ " has " +:+ effective
  +:+ " access to application " +:+ qy_Resource q
  +:+ "; DSM final preview includes direct, group, everyone/default, and built-in account policy.".

Definition indeterminate_application (appID limitation why : string) (e : Explanation) :
    Explanation :=
  with_answer AccessIndeterminate
    ("Access to application " +:+ appID +:+ " is indeterminate: " +:+ why +:+ ".")
    false [limitation] e.

Definition ExplainApplication (q : Query) (groups : list string)
    (assignments : list ApplicationPrivilegeAssignment)
    (preview : ApplicationPrivilegeAssignment) : Explanation :=
  let appID := qy_Resource q in
  let rules := principal_evidence assignments appID <$> applicablePrincipals q groups in
  let found := applicationPermission [preview] (aa_PrincipalType preview)
                 (aa_Principal preview) appID in
  let evidence := sortEvidence (rules ++ match found with
    | Some m => [preview_evidence m preview
        "DSM final preview including direct, group, everyone/default, and built-in account policy"]
    | None => [] end) in
  let result := baseExplanation q evidence in
  match found with
  | None =>
      indeterminate_application appID "DSM application preview omitted the requested application"
        "DSM did not return a final preview" result
  | Some m =>
      let limitation := applicationLimitation [evidenceForPreview m preview] in
      if negb (bool_decide (limitation = ""))
      then indeterminate_application appID limitation limitation result
      else if bool_decide (am_Access m = AccessAllow)
      then with_answer AccessAllow (applicationSummary q AccessAllow) true [] result
      else if bool_decide (am_Access m = AccessDeny)
      then with_answer AccessDeny (applicationSummary q AccessDeny) true [] result
      else indeterminate_application appID
             ("DSM returned unsupported final preview " +:+ quoted (am_Access m))
             "DSM returned an unsupported final preview" result
  end.
End access.
