(* ===== verification/Config.v ===== *)
(** * The configuration

    Source: internal/config/config.go and internal/credentials/environment.go.  A [Config]
    is the default name and a map of profiles; a nil map is the empty one.  [Validate]
    ranges over the map in an unspecified order: the order is an argument. *)

From S2P Require Import Prelude.
From S2P Require Import GoStrings.
From S2P Require Import NetIP.
From S2P Require Import RemotePolicy.

(** ** Data *)

Definition ProfileRoleManaged : string := "managed".
Definition ProfileRoleTarget : string := "target".
Definition EndpointLANIP : string := "lan_ip".
Definition EndpointDDNS : string := "ddns".
Definition EndpointHostname : string := "hostname".
Definition EndpointQuickConnect : string := "quickconnect".

Record Identity := {
  id_Serial : string;
  id_MAC : string;
  id_MACs : list string;
  id_Model : string
}.

Record Endpoint := {
  ep_Kind : string;
  ep_URL : string;
  ep_QuickConnectID : string;
  ep_Priority : Z;
  ep_Source : string;
  ep_LastOK : Z
}.

(** [config.Profile] *)
Record NASProfile := {
  np_URL : string;
  np_Identity : Identity;
  np_Endpoints : list Endpoint;
  np_Username : string;
  np_PasswordEnv : string;
  np_InsecureSkipTLSVerify : bool;
  np_TLSMode : string;
  np_CertificateFingerprint : string;
  np_TimeoutSeconds : Z;
  np_Role : string;
  np_Revision : Z
}.

Record Config := {
  cf_DefaultNAS : string;
  cf_NAS : gmap string NASProfile
}.

Definition zero_identity : Identity :=
  {| id_Serial := ""; id_MAC := ""; id_MACs := []; id_Model := "" |}.

Definition new_config : Config := {| cf_DefaultNAS := ""; cf_NAS := ∅ |}.

Definition set_np_Endpoints (v : list Endpoint) (p : NASProfile) : NASProfile := {|
  np_URL := np_URL p; np_Identity := np_Identity p; np_Endpoints := v;
  np_Username := np_Username p; np_PasswordEnv := np_PasswordEnv p;
  np_InsecureSkipTLSVerify := np_InsecureSkipTLSVerify p; np_TLSMode := np_TLSMode p;
  np_CertificateFingerprint := np_CertificateFingerprint p;
  np_TimeoutSeconds := np_TimeoutSeconds p; np_Role := np_Role p;
  np_Revision := np_Revision p
|}.

(** ** Names and roles *)

Definition name_rune (r : Z) : bool :=
  in_range 97 122 r || in_range 65 90 r || in_range 48 57 r
  || (r =? 45) || (r =? 95) || (r =? 46).
Definition punct_rune (r : Z) : bool := (r =? 45) || (r =? 95) || (r =? 46).

Definition ValidateName (name : string) : result error () :=
  if bool_decide (name = "") then Err (ErrNew "name is required") else
  let rs := string_runes name in
  if negb (forallb name_rune rs)
     || match rs with r :: _ => punct_rune r | [] => false end
  then Err (ErrNew "name must start with a letter or number and contain only letters, numbers, '.', '_' or '-'")
  else Ok ().

Section config.
Context `{Unicode, NetURL}.

Definition Managed (p : NASProfile) : bool :=
  negb (EqualFold (TrimSpace (np_Role p)) ProfileRoleTarget).

Definition NormalizeRole (role : string) : result error string :=
  let r := ToLower (TrimSpace role) in
  if bool_decide (r = "") || bool_decide (r = ProfileRoleManaged) then Ok ""
  else if bool_decide (r = ProfileRoleTarget) then Ok ProfileRoleTarget
  else Err (ErrNew "role must be managed or target").

(** ** Normalisation and validation *)

Definition classifyEndpoint (raw : string) : string :=
  match url_ParseRequestURI raw with
  | Some p =>
      if negb (bool_decide (u_Host p = "")) && bool_decide (is_Some (ParseIP (u_Hostname p)))
      then EndpointLANIP else EndpointHostname
  | None => EndpointHostname
  end.

Definition normalize_profile (p : NASProfile) : NASProfile :=
  if bool_decide (np_Endpoints p = []) && negb (bool_decide (np_URL p = ""))
  then set_np_Endpoints [{| ep_Kind := classifyEndpoint (np_URL p); ep_URL := np_URL p;
         ep_QuickConnectID := ""; ep_Priority := 0; ep_Source := "manual";
         ep_LastOK := 0 |}] p
  else p.

(** [Config.Normalize]; a profile without endpoints gets one from its URL. *)
Definition Normalize (c : Config) : Config :=
  {| cf_DefaultNAS := cf_DefaultNAS c; cf_NAS := normalize_profile <$> cf_NAS c |}.

Definition validateDirectURL (raw : string) : result error () :=
  match url_ParseRequestURI raw with
  | Some p =>
      if bool_decide (u_Host p = "")
         || (negb (bool_decide (u_Scheme p = "http")) && negb (bool_decide (u_Scheme p = "https")))
      then Err (ErrNew "URL must be an absolute http or https URL") else Ok ()
  | None => Err (ErrNew "URL must be an absolute http or https URL")
  end.

Definition direct_kind (k : string) : bool :=
  bool_decide (k = EndpointLANIP) || bool_decide (k = EndpointDDNS)
  || bool_decide (k = EndpointHostname).

(** The loop over the endpoints: the number of usable ones. *)
Fixpoint reach_loop (eps : list Endpoint) (usable : Z) : result error Z :=
  match eps with
  | [] => Ok usable
  | ep :: eps =>
      if direct_kind (ep_Kind ep) then
        validateDirectURL (ep_URL ep) ≫= λ _, reach_loop eps (usable + 1)
      else if bool_decide (ep_Kind ep = EndpointQuickConnect) then
        if bool_decide (TrimSpace (ep_QuickConnectID ep) = "")
        then Err (ErrNew "quickconnect endpoint requires quickconnect_id")
        else reach_loop eps (usable + 1)
      else Err (ErrNew "unsupported endpoint kind")
  end.

Definition validateProfileReach (p : NASProfile) : result error () :=
  usable ← (if bool_decide (np_URL p = "") then Ok 0
            else validateDirectURL (np_URL p) ≫= λ _, Ok 1);
  usable ← reach_loop (np_Endpoints p) usable;
  if usable =? 0 then Err (ErrNew "needs a url or at least one endpoint") else Ok ().

Definition directURLs (p : NASProfile) : list string :=
  (if bool_decide (np_URL p = "") then [] else [np_URL p])
  ++ (ep_URL <$> base.filter
        (fun ep => direct_kind (ep_Kind ep) = true ∧ ep_URL ep ≠ "") (np_Endpoints p)).

Definition is_https (raw : string) : bool :=
  match url_ParseRequestURI raw with
  | Some p => bool_decide (u_Scheme p = "https") | None => false end.

Definition validateProfileTLS (p : NASProfile) : result error () :=
  if bool_decide (np_TLSMode p = "") || bool_decide (np_TLSMode p = "system_ca") then
    if negb (bool_decide (np_CertificateFingerprint p = ""))
    then Err (ErrNew "certificate_fingerprint requires pinned_fingerprint TLS mode") else Ok ()
  else if bool_decide (np_TLSMode p = "pinned_fingerprint") then
    let fingerprint := RemoveByte (TrimSpace (np_CertificateFingerprint p)) 58 in
    if negb (slen fingerprint =? 64)
    then Err (ErrNew "certificate_fingerprint must be a SHA-256 fingerprint") else
    if negb (all_hex (ToLower fingerprint))
    then Err (ErrNew "certificate_fingerprint must contain only hexadecimal characters") else
    if negb (forallb is_https (directURLs p))
    then Err (ErrNew "pinned_fingerprint TLS mode requires https endpoints") else Ok ()
  else Err (ErrNew "unsupported TLS mode").

Definition validate_profile (name : string) (p : NASProfile) : result error () :=
  ValidateName name ≫= λ _,
  validateProfileReach p ≫= λ _,
  if np_TimeoutSeconds p <? 0
  then Err (ErrNew "timeout_seconds cannot be negative") else
  if np_InsecureSkipTLSVerify p && negb (bool_decide (np_TLSMode p = ""))
  then Err (ErrNew "insecure_skip_tls_verify and tls_mode cannot be combined") else
  validateProfileTLS p.

Fixpoint validate_loop (l : list (string * NASProfile)) : result error () :=
  match l with
  | [] => Ok ()
  | (name, p) :: l => validate_profile name p ≫= λ _, validate_loop l
  end.

(** [order] is the iteration order: a permutation of the normalised profiles. *)
Definition Validate (c : option Config) (order : list (string * NASProfile)) :
    result error () :=
  match c with
  | None => Err (ErrNew "config is nil")
  | Some c =>
      let c := Normalize c in
      if negb (bool_decide (cf_DefaultNAS c = ""))
         && negb (bool_decide (is_Some (cf_NAS c !! cf_DefaultNAS c)))
      then Err (ErrNew "default NAS is not configured") else
      validate_loop order
  end.

(** ** Selecting a profile *)

Definition Resolve (c : option Config) (requested : string) :
    result error (string * NASProfile) :=
  match c with
  | None => Err (ErrNew "config is nil")
  | Some c =>
      let c := Normalize c in
      let name := if bool_decide (requested = "") then cf_DefaultNAS c else requested in
      let name := if bool_decide (name = "")
                  then match map_to_list (cf_NAS c) with [(only, _)] => only | _ => name end
                  else name in
      if bool_decide (name = "") then
        if bool_decide (size (cf_NAS c) = 0%nat)
        then Err (ErrNew "no NAS configured")
        else Err (ErrNew "no NAS selected")
      else
        match cf_NAS c !! name with
        | Some p => Ok (name, p)
        | None => Err (ErrNew "NAS profile is not configured")
        end
  end.

(** ** Password environment variables *)

Definition env_rune (r : Z) : string :=
  if r <? 128 then
    if in_range 97 122 r then chr (r - 32)
    else if in_range 65 90 r || in_range 48 57 r then chr r else "_"
  else default "_" (uni_upper r).

Definition DefaultEnvironmentVariable (profileName : string) : string :=
  "DSMCTL_PASSWORD_" +:+ Join (env_rune <$> string_runes profileName) "".

Definition env_name (profileName : string) (p : NASProfile) : string :=
  if bool_decide (np_PasswordEnv p = "") then DefaultEnvironmentVariable profileName
  else np_PasswordEnv p.

(** [lookup] is [os.LookupEnv]. *)
Definition env_Status (lookup : string → option string) (profileName : string)
    (p : NASProfile) : string * bool :=
  let name := env_name profileName p in
  (name, match lookup name with Some v => negb (bool_decide (v = "")) | None => false end).

Definition env_Password (lookup : string → option string) (ctx : context)
    (profileName : string) (p : NASProfile) : result error string :=
  match ctx_Err ctx with
  | Some e => Err e
  | None =>
      match lookup (env_name profileName p) with
      | Some password =>
          if bool_decide (password = "") then Err (ErrNew "password is unavailable")
          else Ok password
      | None => Err (ErrNew "password is unavailable")
      end
  end.

(** ** Summaries *)

Record Summary := {
  su_Name : string;
  su_URL : string;
  su_Username : string;
  su_PasswordEnv : string;
  su_Default : bool;
  su_InsecureSkipTLSVerify : bool;
  su_TLSMode : string;
  su_CertificateFingerprint : string;
  su_Serial : string;
  su_Revision : Z
}.

Definition summary (c : Config) (defaultPasswordEnv : string → string)
    (q : string * NASProfile) : Summary :=
  let '(name, p) := q in {|
    su_Name := name; su_URL := np_URL p; su_Username := np_Username p;
    su_PasswordEnv := if bool_decide (np_PasswordEnv p = "")
                      then defaultPasswordEnv name else np_PasswordEnv p;
    su_Default := bool_decide (name = cf_DefaultNAS c);
    su_InsecureSkipTLSVerify := np_InsecureSkipTLSVerify p; su_TLSMode := np_TLSMode p;
    su_CertificateFingerprint := np_CertificateFingerprint p;
    su_Serial := id_Serial (np_Identity p); su_Revision := np_Revision p |}.

Definition Summaries (c : Config) (defaultPasswordEnv : string → string) : list Summary :=
  summary c defaultPasswordEnv <$>
    omap (fun n => p ← cf_NAS c !! n; Some (n, p))
      (sort_strings (map_to_list (cf_NAS c)).*1).
End config.
