(* ===== verification/Manager.v ===== *)
(** * The runtime manager: one DSM client per profile

    Source: internal/runtime/manager.go, and NewClient of internal/synology/client.go.

    The manager caches one client per profile under the profile's revision.  Requests
    hold [profileGate] for reading while they resolve a profile and obtain its client;
    changes of profiles and credentials hold it for writing.  The critical sections under
    [mu] are functions on the cache; the operations, cut where other goroutines may run,
    are the steps of a transition system over any number of threads.  A client is a
    handle to a record of what it was built from. *)

From S2P Require Import Prelude.
From S2P Require Import GoStrings.
From S2P Require Import NetIP.
From S2P Require Import RemotePolicy.
From S2P Require Import Compat.
From S2P Require Import DsmClient.
From S2P Require Import Config.

(** ** The cache, under [mu] *)

Record clientEntry := { ce_client : nat; ce_revision : Z }.
Abbreviation cache := (gmap string clientEntry).

(** [entry, ok := m.clients[name]; ok && entry.revision == revision] *)
Definition lookup_client (c : cache) (name : string) (revision : Z) : option nat :=
  match c !! name with
  | Some e => if ce_revision e =? revision then Some (ce_client e) else None
  | None => None
  end.

(** [stale := m.clients[name]; delete(m.clients, name)] *)
Definition evict (c : cache) (name : string) : option nat * cache :=
  (ce_client <$> c !! name, delete name c).

Definition publish (c : cache) (name : string) (client : nat) (revision : Z) : cache :=
  <[name := {| ce_client := client; ce_revision := revision |}]> c.

(** What the eviction of [MutateProfile] removes: nothing for the empty name. *)
Definition evict_named (c : cache) (name : string) : option nat * cache :=
  if bool_decide (name = "") then (None, c) else evict c name.

Record SessionInfo := { si_ClientCached : bool; si_SessionHeld : bool }.
Definition session_info (c : cache) (held : nat → bool) (name : string) : SessionInfo :=
  match c !! name with
  | None => {| si_ClientCached := false; si_SessionHeld := false |}
  | Some e => {| si_ClientCached := true; si_SessionHeld := held (ce_client e) |}
  end.

Section manager.
Context `{Unicode, NetURL}.

(** ** Resolving a profile *)

(** [allowTarget] lets a destination-only profile through. *)
Definition resolve_profile (cfg : Config) (requested : string) (allowTarget : bool) :
    result error (string * NASProfile) :=
  '(name, profile) ← Resolve (Some cfg) requested;
  if negb allowTarget && negb (Managed profile)
  then Err (ErrNew "NAS is a destination-only profile and cannot be managed")
  else Ok (name, profile).

(** ** Building a client *)

(** The parts of [Options] that decide whether there is a client. *)
Definition client_options_valid (baseURL username password sessionID : string) :
    result error () :=
  match url_Parse baseURL with
  | None => Err (ErrNew "base URL must be an absolute http or https URL")
  | Some u =>
      if bool_decide (u_Host u = "")
         || negb (bool_decide (u_Scheme u = "http")) && negb (bool_decide (u_Scheme u = "https"))
      then Err (ErrNew "base URL must be an absolute http or https URL")
      else if bool_decide (sessionID = "") && bool_decide (TrimSpace username = "")
      then Err (ErrNew "username is required")
      else if bool_decide (password = "") && bool_decide (sessionID = "")
      then Err (ErrNew "a password or an existing session is required")
      else Ok ()
  end.

(** A client before its first request. *)
Definition NewClient (baseURL username password deviceName deviceID sessionID
    synoToken : string) (preserve : bool) : result error Client :=
  client_options_valid baseURL username password sessionID ≫= fun _ =>
  match url_Parse baseURL with
  | None => Err (ErrNew "base URL must be an absolute http or https URL")
  | Some u => Ok {|
      cl_Scheme := u_Scheme u; cl_Port := u_Port u; cl_username := username;
      cl_password := password; cl_deviceName := deviceName; cl_deviceID := deviceID;
      cl_preserveSession := preserve; cl_retry := defaultRetryPolicy;
      cl_target := NewTarget; cl_apiChecked := ∅; cl_sid := sessionID;
      cl_synoToken := synoToken |}
  end.

(** ** The transition system *)

(** What a client was built from, and whether it has been closed. *)
Record built := { bt_name : string; bt_profile : NASProfile; bt_open : bool }.

Record shared := {
  sh_config : Config;          (** the committed configuration *)
  sh_counter : Z;              (** the largest revision given out *)
  sh_clients : cache;
  sh_heap : gmap nat built
}.

Inductive operation :=
| OpClient (requested : string) (allowTarget : bool)
| OpMutate (name : string)
| OpConnect (requested : string)
| OpClose.

(** Where a goroutine is. *)
Inductive pc :=
| Idle (op : operation)
| Resolving (requested : string) (allowTarget : bool)
| Resolved (name : string) (profile : NASProfile)
| Building (name : string) (profile : NASProfile) (stale : option nat)
| Built (name : string) (profile : NASProfile) (client : nat)
| Discarding (name : string) (profile : NASProfile) (client existing : nat)
| Holding (name : string) (profile : NASProfile) (client : nat)
| Mutating (name : string)
| Evicting (name : string)
| Connecting (requested : string)
| Replacing (name : string) (profile : NASProfile) (client : nat) (stale : option nat)
| Draining
| Closing (client : option nat)
| Finished.

(** The goroutines that hold the gate. *)
Definition reads (p : pc) : bool :=
  match p with
  | Resolving _ _ | Resolved _ _ | Building _ _ _ | Built _ _ _ | Discarding _ _ _ _
  | Holding _ _ _ => true
  | _ => false
  end.
Definition writes (p : pc) : bool :=
  match p with
  | Mutating _ | Evicting _ | Connecting _ | Replacing _ _ _ _ | Draining => true
  | _ => false
  end.

Definition set_clients (c : cache) (s : shared) : shared := {|
  sh_config := sh_config s; sh_counter := sh_counter s; sh_clients := c;
  sh_heap := sh_heap s |}.
Definition close_client (h : nat) (s : shared) : shared := {|
  sh_config := sh_config s; sh_counter := sh_counter s; sh_clients := sh_clients s;
  sh_heap := alter (fun b => {| bt_name := bt_name b; bt_profile := bt_profile b;
                                bt_open := false |}) h (sh_heap s) |}.
Definition new_client (h : nat) (name : string) (profile : NASProfile) (s : shared) : shared := {|
  sh_config := sh_config s; sh_counter := sh_counter s; sh_clients := sh_clients s;
  sh_heap := <[h := {| bt_name := name; bt_profile := profile; bt_open := true |}]>
               (sh_heap s) |}.
Definition commit (cfg : Config) (counter : Z) (s : shared) : shared := {|
  sh_config := cfg; sh_counter := counter; sh_clients := sh_clients s; sh_heap := sh_heap s |}.

(** The profile that a name resolves to now. *)
Definition current (cfg : Config) (name : string) : option NASProfile :=
  cf_NAS (Normalize cfg) !! name.

(** What a caller of [MutateProfile] commits leaves a profile as it is or gives it a revision
    never used before: the repository's [nextProfileRevision], whose effect on every operation
    is RevisionThms.revision_identifies_settings.  Sessions and devices that clients save
    meanwhile change no profile. *)
Definition commit_ok (s : shared) (cfg : Config) (counter : Z) : Prop :=
  sh_counter s ≤ counter ∧
  ∀ name p, current cfg name = Some p →
    current (sh_config s) name = Some p ∨ sh_counter s < np_Revision p ≤ counter.

(** One step of one goroutine; the gate is the business of [step]. *)
Inductive local : pc → shared → pc → shared → Prop :=
| l_start requested allow s :
    local (Idle (OpClient requested allow)) s (Resolving requested allow) s
| l_refused requested allow s e :
    resolve_profile (sh_config s) requested allow = Err e →
    local (Resolving requested allow) s Finished s
| l_resolved requested allow s name profile :
    resolve_profile (sh_config s) requested allow = Ok (name, profile) →
    local (Resolving requested allow) s (Resolved name profile) s
| l_hit name profile s h :
    lookup_client (sh_clients s) name (np_Revision profile) = Some h →
    local (Resolved name profile) s (Holding name profile h) s
| l_miss name profile s stale c :
    lookup_client (sh_clients s) name (np_Revision profile) = None →
    evict (sh_clients s) name = (stale, c) →
    local (Resolved name profile) s (Building name profile stale) (set_clients c s)
| l_close_stale name profile s h :
    local (Building name profile (Some h)) s (Building name profile None) (close_client h s)
| l_build_failed name profile s :
    local (Building name profile None) s Finished s
| l_built name profile s h :
    sh_heap s !! h = None →
    local (Building name profile None) s (Built name profile h) (new_client h name profile s)
| l_lost name profile s h existing :
    lookup_client (sh_clients s) name (np_Revision profile) = Some existing →
    local (Built name profile h) s (Discarding name profile h existing) s
| l_discard name profile s h existing :
    local (Discarding name profile h existing) s (Holding name profile existing)
      (close_client h s)
| l_publish name profile s h :
    lookup_client (sh_clients s) name (np_Revision profile) = None →
    local (Built name profile h) s (Holding name profile h)
      (set_clients (publish (sh_clients s) name h (np_Revision profile)) s)
| l_return name profile s h :
    local (Holding name profile h) s Finished s
| l_lock name s : local (Idle (OpMutate name)) s (Mutating name) s
| l_mutate_failed name s : local (Mutating name) s Finished s
| l_commit name s cfg counter :
    commit_ok s cfg counter →
    local (Mutating name) s (Evicting name) (commit cfg counter s)
| l_evict name s stale c :
    evict_named (sh_clients s) name = (stale, c) →
    local (Evicting name) s (Closing stale) (set_clients c s)
| l_closed s : local (Closing None) s Finished s
| l_close s h : local (Closing (Some h)) s Finished (close_client h s)
| l_connect requested s : local (Idle (OpConnect requested)) s (Connecting requested) s
| l_connect_failed requested s : local (Connecting requested) s Finished s
| l_replace requested s name profile h stale c :
    Resolve (Some (sh_config s)) requested = Ok (name, profile) → sh_heap s !! h = None →
    evict (sh_clients s) name = (stale, c) →
    local (Connecting requested) s (Replacing name profile h stale)
      (set_clients c (new_client h name profile s))
| l_replace_close name profile s h g :
    local (Replacing name profile h (Some g)) s (Replacing name profile h None) (close_client g s)
| l_not_connected name profile s h :
    local (Replacing name profile h None) s Finished (close_client h s)
| l_connected name profile s h :
    local (Replacing name profile h None) s Finished
      (set_clients (publish (sh_clients s) name h (np_Revision profile)) s)
| l_drain s : local (Idle OpClose) s Draining s
| l_drained s :
    local Draining s Finished
      (set_clients ∅ (foldr (fun e => close_client (ce_client e.2)) s
                        (map_to_list (sh_clients s)))).

Record system := { sy_threads : gmap nat pc; sy_shared : shared }.

(** The gate lets a reader in when nobody writes, a writer when nobody else is in. *)
Definition gate_ok (others : gmap nat pc) (p p' : pc) : Prop :=
  (reads p' = true → reads p = false → ∀ t q, others !! t = Some q → writes q = false) ∧
  (writes p' = true → writes p = false →
   ∀ t q, others !! t = Some q → reads q = false ∧ writes q = false).

Inductive step : system → system → Prop :=
| step_thread threads s t p p' s' :
    threads !! t = Some p → local p s p' s' → gate_ok (delete t threads) p p' →
    step {| sy_threads := threads; sy_shared := s |}
         {| sy_threads := <[t := p']> threads; sy_shared := s' |}.

(** A manager that was just made: no client, and any operations about to start. *)
Definition starts (s : system) : Prop :=
  sh_clients (sy_shared s) = ∅ ∧ sh_heap (sy_shared s) = ∅ ∧
  (∀ name p, current (sh_config (sy_shared s)) name = Some p →
     np_Revision p ≤ sh_counter (sy_shared s)) ∧
  ∀ t p, sy_threads s !! t = Some p → ∃ op, p = Idle op.

(** ** What is true in every reachable state *)

Definition profile_of (p : pc) : option (string * NASProfile) :=
  match p with
  | Resolved n q | Building n q _ | Built n q _ | Discarding n q _ _ | Holding n q _
  | Replacing n q _ _ => Some (n, q)
  | _ => None
  end.

(** The client a goroutine works with, its own unpublished one, the one it will close. *)
Definition live (p : pc) : option nat :=
  match p with
  | Built _ _ h | Discarding _ _ _ h | Holding _ _ h | Replacing _ _ h _ => Some h
  | _ => None
  end.
Definition owned (p : pc) : option nat :=
  match p with Built _ _ h | Replacing _ _ h _ => Some h | _ => None end.
Definition doomed (p : pc) : option nat :=
  match p with
  | Building _ _ h | Closing h | Replacing _ _ _ h => h
  | Discarding _ _ h _ => Some h
  | _ => None
  end.

Definition uncached (s : shared) (h : nat) : Prop :=
  ∀ n e, sh_clients s !! n = Some e → ce_client e ≠ h.

Record inv (y : system) : Prop := {
  inv_gate t t' p p' : sy_threads y !! t = Some p → sy_threads y !! t' = Some p' → t ≠ t' →
    writes p = true → reads p' = false ∧ writes p' = false;
  inv_counter n p : current (sh_config (sy_shared y)) n = Some p →
    np_Revision p ≤ sh_counter (sy_shared y);
  inv_heap h b : sh_heap (sy_shared y) !! h = Some b →
    np_Revision (bt_profile b) ≤ sh_counter (sy_shared y) ∧
    ∀ p, current (sh_config (sy_shared y)) (bt_name b) = Some p →
      np_Revision p = np_Revision (bt_profile b) → p = bt_profile b;
  inv_cache n e : sh_clients (sy_shared y) !! n = Some e →
    ∃ b, sh_heap (sy_shared y) !! ce_client e = Some b ∧ bt_name b = n ∧
      np_Revision (bt_profile b) = ce_revision e ∧ bt_open b = true;
  inv_profile t p n q : sy_threads y !! t = Some p → profile_of p = Some (n, q) →
    current (sh_config (sy_shared y)) n = Some q;
  inv_live t p h : sy_threads y !! t = Some p → live p = Some h →
    ∃ n q, profile_of p = Some (n, q) ∧
      sh_heap (sy_shared y) !! h = Some {| bt_name := n; bt_profile := q; bt_open := true |};
  inv_owned t p h : sy_threads y !! t = Some p → owned p = Some h →
    uncached (sy_shared y) h ∧
    ∀ t' p', sy_threads y !! t' = Some p' → t' ≠ t → live p' ≠ Some h;
  inv_doomed t p h : sy_threads y !! t = Some p → doomed p = Some h →
    is_Some (sh_heap (sy_shared y) !! h) ∧ uncached (sy_shared y) h ∧
    ∀ t' p', sy_threads y !! t' = Some p' → live p' ≠ Some h
}.
End manager.
