(* ===== verification/Service.v ===== *)
(** * The application service: profiles, remote targets and the apply boundary

    Source: internal/application/service.go.  The service reads profiles from a
    configuration source, obtains a NAS's client from the runtime manager and, for a request
    that carries a remote principal, asks a [RemoteApplyAuthorizer] before any apply;
    a password that a change needs is resolved from its reference when the change is applied.
    The four are the fields of [Service]; its state is the gateway's state [G], which the
    authorizer may change, beside the DSM client's.  The runtime manager is not modelled:
    [sv_Client] is [manager.Client], and puts the client of the profile in place. *)

From S2P Require Import Prelude.
From S2P Require Import GoStrings.
From S2P Require Import NetIP.
From S2P Require Import RemotePolicy.
From S2P Require Import Compat.
From S2P Require Import Json.
From S2P Require Import DsmErrors.
From S2P Require Import DsmClient.
From S2P Require Import Config.

Inductive service_error :=
| EGateway (e : error)
| EDSM (e : dsm_error)
| EText (msg : string)
| EAround (msg : string) (e : service_error).

(** The error under the wrapping of [fmt.Errorf]. *)
Fixpoint root_cause (e : service_error) : service_error :=
  match e with EAround _ e => root_cause e | _ => e end.

(** [AdmitRemoteApply]: token, NAS, profile revision, plan hash and risk. *)
Definition authorizer (G : Type) : Type :=
  context → string → string → Z → string → string → ST G error ().

Record Service (G W : Type) := {
  sv_configSource : context → ST G error Config;
  sv_remoteApply : option (authorizer G);
  sv_secretReferences : context → string → ST G error string;
  sv_Client : context → string → ST (G * dstate W) service_error string
}.
Arguments sv_configSource {_ _} _ _.
Arguments sv_remoteApply {_ _} _.
Arguments sv_secretReferences {_ _} _ _ _.
Arguments sv_Client {_ _} _ _ _.

Section service.
Context `{Unicode, NetURL} {G W : Type} (srv : Service G W).

Abbreviation MS := (ST (G * dstate W) service_error).

(** Run on the gateway's state, or on the client's. *)
Definition on_gateway {A} (m : ST G error A) : MS A := fun '(g, d) =>
  match m g with
  | (Ok a, g) => (Ok a, (g, d))
  | (Err e, g) => (Err (EGateway e), (g, d))
  end.
Definition on_client {A} (m : ST (dstate W) dsm_error A) : MS A := fun '(g, d) =>
  match m d with
  | (Ok a, d) => (Ok a, (g, d))
  | (Err e, d) => (Err (EDSM e), (g, d))
  end.

Definition configSnapshot (ctx : context) : MS Config := on_gateway (sv_configSource srv ctx).

Definition filterRemoteSummaries (ctx : context) (l : list Summary) : list Summary :=
  match PrincipalFromContext ctx with
  | None => l
  | Some principal => base.filter (fun s => AllowsNAS principal (su_Name s) = true) l
  end.

(** Destination-only profiles are not listed. *)
Definition ListNASContext (ctx : context) : MS (list Summary) :=
  cfg ← configSnapshot ctx;
  let managed := base.filter (fun s =>
    match cf_NAS cfg !! su_Name s with Some p => Managed p | None => true end = true)
    (Summaries cfg DefaultEnvironmentVariable) in
  mret (filterRemoteSummaries ctx managed).

Definition AuthorizeRemoteTarget (ctx : context) (requested : string) : MS string :=
  match PrincipalFromContext ctx with
  | None => mret requested
  | Some principal =>
      check (negb (bool_decide (requested = "")))
        (EText "remote MCP calls require an explicit nas argument");;
      cfg ← mask (EGateway ErrDenied) (configSnapshot ctx);
      '(name, _) ← mask (EGateway ErrDenied)
        (lift (match Resolve (Some cfg) requested with
               | Ok r => Ok r | Err e => Err (EGateway e) end));
      check (AllowsNAS principal name) (EGateway ErrDenied);;
      mret name
  end.

Definition authorizeRemoteApply (ctx : context) (nas : string) (revision : Z)
    (hash risk : string) : MS () :=
  match PrincipalFromContext ctx with
  | None => mret ()
  | Some principal =>
      match sv_remoteApply srv with
      | None => fail (EGateway ErrDenied)
      | Some admit_remote =>
          check (HasScope principal ScopeApply && AllowsNAS principal nas)
            (EGateway ErrDenied);;
          on_gateway (admit_remote ctx (pp_TokenID principal) nas revision hash risk)
      end
  end.

Definition profileRevision (ctx : context) (name : string) : MS Z :=
  cfg ← configSnapshot ctx;
  match cf_NAS cfg !! name with
  | None => fail (EText "NAS profile is no longer configured")
  | Some profile => mret (np_Revision profile)
  end.

Definition verifyProfileRevision (ctx : context) (name : string) (planned : Z) : MS () :=
  current ← profileRevision ctx name;
  check (current =? planned) (EText "NAS profile changed after planning; create a new plan").
End service.

(** [fmt.Errorf("msg: %w", err)] around the error of a step of the service. *)
Definition around {S A} (msg : string) (m : ST S service_error A) : ST S service_error A :=
  fun s => match m s with
           | (Ok a, s) => (Ok a, s)
           | (Err e, s) => (Err (EAround msg e), s)
           end.

(** The error of a NAS, with its name. *)
Definition authenticationError (name : string) (e : dsm_error) : dsm_error :=
  if IsSessionExpired e then ESessionExpired name e
  else if IsOTPRequired e then EWrap ("NAS " +:+ name +:+ " requires a one-time password") e
  else EWrap ("NAS " +:+ name) e.

(** [if err != nil { return authenticationError(nas, err) }] *)
Definition named {W A} (nas : string) (m : ST (dstate W) dsm_error A) : ST (dstate W) dsm_error A :=
  catch m (fun e => fail (authenticationError nas e)).
