(* ===== verification/Management.v ===== *)
(** * Guarded changes of accounts and shared folders

    Source: internal/application/management.go and secret_reference.go.  A plan records the
    validated request, a fingerprint of what it changes and its risk; applying it admits
    it, plans again, compares, sends the change and reads the result back.

    [hashJSON] and [fingerprint], the hexadecimal SHA-256 of a value's JSON, are the class
    [ManagedHash] on the values hashed here.  A request that passes validation carries the
    object of its resource, so a missing object, a nil pointer in Go, is not reached. *)

From S2P Require Import Prelude.
From S2P Require Import GoStrings.
From S2P Require Import RemotePolicy.
From S2P Require Import Compat.
From S2P Require Import Json.
From S2P Require Import DsmErrors.
From S2P Require Import DsmClient.
From S2P Require Import Identity.
From S2P Require Import IdentityWire.
From S2P Require Import IdentityOps.
From S2P Require Import ShareWire.
From S2P Require Import ShareOps.
From S2P Require Import Config.
From S2P Require Import Service.

Definition managementAPIVersion : string := "dsmctl.io/v1alpha1".

(** ** Plans *)

Record ChangePrecondition := {
  cp_ExpectedExists : bool;
  cp_ResourceID : string;
  cp_Fingerprint : string
}.
#[export] Instance ChangePrecondition_eq_dec : EqDecision ChangePrecondition.
Proof. solve_decision. Defined.

Definition absent : ChangePrecondition :=
  {| cp_ExpectedExists := false; cp_ResourceID := ""; cp_Fingerprint := "" |}.
Definition present (id fingerprint : string) : ChangePrecondition :=
  {| cp_ExpectedExists := true; cp_ResourceID := id; cp_Fingerprint := fingerprint |}.

(** [IdentityPlan] and [SharePlan] differ in their request. *)
Record ManagedPlan (R : Type) := {
  mp_APIVersion : string;
  mp_NAS : string;
  mp_ProfileRevision : Z;
  mp_Request : R;
  mp_Precondition : ChangePrecondition;
  mp_Destructive : bool;
  mp_Risk : string;
  mp_Summary : list string;
  mp_Hash : string
}.
Arguments mp_APIVersion {_} _.
Arguments mp_NAS {_} _.
Arguments mp_ProfileRevision {_} _.
Arguments mp_Request {_} _.
Arguments mp_Precondition {_} _.
Arguments mp_Destructive {_} _.
Arguments mp_Risk {_} _.
Arguments mp_Summary {_} _.
Arguments mp_Hash {_} _.
Definition IdentityPlan : Type := ManagedPlan IdentityChange.
Definition SharePlan : Type := ManagedPlan ShareRequest.

(** [IdentityApplyResult] and [ShareApplyResult]. *)
Record ManagedResult := {
  ma_NAS : string;
  ma_PlanHash : string;
  ma_Applied : bool;
  ma_Operation : ChangeResult
}.

Definition set_Hash {R} (hash : string) (p : ManagedPlan R) : ManagedPlan R := {|
  mp_APIVersion := mp_APIVersion p; mp_NAS := mp_NAS p;
  mp_ProfileRevision := mp_ProfileRevision p; mp_Request := mp_Request p;
  mp_Precondition := mp_Precondition p; mp_Destructive := mp_Destructive p;
  mp_Risk := mp_Risk p; mp_Summary := mp_Summary p; mp_Hash := hash |}.

(** The values that are hashed: plans, and what a fingerprint covers. *)
Inductive managed :=
| HIdentityPlan (p : IdentityPlan)
| HSharePlan (p : SharePlan)
| HUser (u : User)
| HGroup (g : Group)
| HMembership (m : Membership)
| HLimits (l : list QuotaLimit)
| HPermissions (l : list ApplicationPermission)
| HFolder (f : SharedFolder)
| HBindings (l : list (string * Permission)).

Class ManagedHash := { hash_managed : managed → string }.

(** ** Validation *)

Abbreviation verdict := (result service_error ()).

Definition require (b : bool) (msg : string) : verdict :=
  if b then Ok () else Err (EText msg).

Definition is_alnum (a : Z) : bool := in_range 48 57 a || in_range 65 90 a || in_range 97 122 a.

(** [^[A-Za-z0-9][A-Za-z0-9_.-]{0,63}$] *)
Definition managedNamePattern (s : string) : bool :=
  match bytes s with
  | a :: l =>
      is_alnum a && bool_decide (length l <= 63)%nat
      && forallb (fun a => is_alnum a || bool_decide (a ∈ [95; 46; 45])) l
  | [] => false
  end.

(** One or two digits at the head, and the rest. *)
Definition short_number (l : list Z) : option (list Z) :=
  let '(d, r) := span_digits l in
  if bool_decide (1 <= length d)%nat && bool_decide (length d <= 2)%nat then Some r else None.

(** [^\d{4}/\d{1,2}/\d{1,2}$] *)
Definition expirationPattern (s : string) : bool :=
  let '(year, r) := span_digits (bytes s) in
  bool_decide (length year = 4%nat) &&
  match r with
  | a :: r =>
      (a =? 47) &&
      match short_number r with
      | Some (b :: r) => (b =? 47) && bool_decide (short_number r = Some [])
      | _ => false
      end
  | [] => false
  end.

(** [^(env:[A-Za-z_][A-Za-z0-9_]*|vault:[a-f0-9]{32})$] *)
Definition validSecretReference (s : string) : bool :=
  let letter a := in_range 65 90 a || in_range 97 122 a || (a =? 95) in
  let hex a := in_range 48 57 a || in_range 97 102 a in
  (HasPrefix s "env:" &&
   match bytes (TrimPrefix s "env:") with
   | a :: l => letter a && forallb (fun a => letter a || is_digit a) l
   | [] => false
   end)
  || (HasPrefix s "vault:" &&
      let l := bytes (TrimPrefix s "vault:") in
      bool_decide (length l = 32%nat) && forallb hex l).

Definition validateManagedName (label name : string) : verdict :=
  require (managedNamePattern (TrimSpace name)) (label +:+ " name is invalid").

Section management.
Context `{Unicode}.

Definition stringInFold (value : string) (candidates : list string) : bool :=
  existsb (fun c => EqualFold value c) candidates.
Definition containsFold (values : list string) (desired : string) : bool :=
  existsb (fun v => EqualFold v desired) values.

Definition protectedUser (name : string) : bool := stringInFold name ["admin"; "guest"; "root"].
Definition protectedGroup (name : string) : bool :=
  stringInFold name ["administrators"; "users"; "http"].
Definition protectedShare (name : string) : bool := stringInFold name ["home"; "homes"].

Definition validatePrincipal (principalType principal : string) : verdict :=
  require (bool_decide (principalType ∈ [PrincipalUser; PrincipalGroup]))
    "principal_type must be user or group";;
  validateManagedName "principal" principal;;
  require (negb (bool_decide (principalType = PrincipalUser) && protectedUser principal))
    "user is reserved and cannot be managed".

Definition userHasUpdates (c : UserChange) : bool :=
  bool_decide (is_Some (uch_NewName c)) || bool_decide (is_Some (uch_Description c))
  || bool_decide (is_Some (uch_Email c)) || bool_decide (is_Some (uch_Expired c))
  || bool_decide (is_Some (uch_CannotChangePassword c))
  || bool_decide (is_Some (uch_PasswordNeverExpires c))
  || negb (bool_decide (uch_CredentialRef c = "")).

Definition shareHasUpdates (c : ShareChange) : bool :=
  bool_decide (is_Some (sch_NewName c)) || bool_decide (is_Some (sch_Description c))
  || bool_decide (is_Some (sch_Hidden c)) || bool_decide (is_Some (sch_RecycleBin c))
  || bool_decide (is_Some (sch_RecycleBinAdminOnly c))
  || bool_decide (is_Some (sch_HideUnreadable c)) || bool_decide (is_Some (sch_EnableCOW c))
  || bool_decide (is_Some (sch_EnableCompression c)) || bool_decide (is_Some (sch_QuotaMiB c)).

(** A new name is a managed name that is not reserved. *)
Definition validate_new_name (label : string) (reserved : string → bool) (name : option string) :
    verdict :=
  match name with
  | None => Ok ()
  | Some n =>
      validateManagedName label n;;
      require (negb (reserved n)) "name is reserved and cannot be managed"
  end.

Definition valid_expired (e : option string) : bool :=
  match e with
  | None => true
  | Some e => bool_decide (e ∈ ["normal"; "now"]) || expirationPattern e
  end.

Definition resource_action (action : string) : bool :=
  bool_decide (action ∈ [ActionCreate; ActionUpdate; ActionDelete]).

Definition validate_user (action : string) (c : UserChange) : verdict :=
  validateManagedName "user" (uch_Name c);;
  require (negb (protectedUser (uch_Name c))) "user is reserved and cannot be managed";;
  validate_new_name "new user" protectedUser (uch_NewName c);;
  require (negb (bool_decide (action = ActionCreate) && bool_decide (uch_CredentialRef c = "")))
    "creating a user requires credential_ref";;
  require (bool_decide (uch_CredentialRef c = "") || validSecretReference (uch_CredentialRef c))
    "credential_ref must use env:NAME or vault:<id>";;
  require (valid_expired (uch_Expired c)) "expired must be normal, now, or YYYY/M/D";;
  require (negb (bool_decide (action = ActionUpdate) && negb (userHasUpdates c)))
    "user update contains no changed fields".

Definition validate_group (action : string) (c : GroupChange) : verdict :=
  validateManagedName "group" (gch_Name c);;
  require (negb (protectedGroup (gch_Name c))) "group is reserved and cannot be managed";;
  validate_new_name "new group" protectedGroup (gch_NewName c);;
  require (negb (bool_decide (action = ActionUpdate) && bool_decide (gch_NewName c = None)
                 && bool_decide (gch_Description c = None)))
    "group update contains no changed fields".

(** The loop: every group a managed name, none twice up to case. *)
Fixpoint validate_groups (seen : gset string) (groups : list string) : verdict :=
  match groups with
  | [] => Ok ()
  | g :: groups =>
      validateManagedName "group" g;;
      require (bool_decide (ToLower g ∉ seen)) "group appears more than once";;
      validate_groups ({[ToLower g]} ∪ seen) groups
  end.

Definition validate_membership (c : MembershipChange) : verdict :=
  validateManagedName "user" (mch_User c);;
  require (negb (protectedUser (mch_User c))) "user is reserved and cannot be managed";;
  require (negb (bool_decide (mch_Groups c = [])))
    "membership groups must include at least the mandatory users group";;
  validate_groups ∅ (mch_Groups c);;
  require (containsFold (mch_Groups c) "users")
    "membership groups must include the mandatory users group".

Definition quota_target (targetType target : string) : string :=
  targetType +:+ ":" +:+ target.

Fixpoint validate_limits (seen : gset string) (limits : list QuotaLimitChange) : verdict :=
  match limits with
  | [] => Ok ()
  | l :: limits =>
      require (0 <=? qlc_QuotaMiB l) "quota cannot be negative";;
      (if bool_decide (qlc_TargetType l = QuotaTargetVolume)
       then require (HasPrefix (qlc_Target l) "/volume") "volume quota target must begin with /volume"
       else if bool_decide (qlc_TargetType l = QuotaTargetShare)
       then validateManagedName "shared folder" (qlc_Target l)
       else Err (EText "quota target_type must be volume or share"));;
      let key := quota_target (qlc_TargetType l) (ToLower (qlc_Target l)) in
      require (bool_decide (key ∉ seen)) "quota target appears more than once";;
      validate_limits ({[key]} ∪ seen) limits
  end.

Definition validate_quota (c : QuotaChange) : verdict :=
  validatePrincipal (qch_PrincipalType c) (qch_Principal c);;
  require (negb (bool_decide (qch_Limits c = []))) "at least one quota limit is required";;
  validate_limits ∅ (qch_Limits c).

Fixpoint validate_permissions (seen : gset string) (l : list ApplicationPermissionChange) :
    verdict :=
  match l with
  | [] => Ok ()
  | p :: l =>
      require (negb (bool_decide (TrimSpace (apm_ApplicationID p) = "")))
        "application_id is required";;
      let key := ToLower (apm_ApplicationID p) in
      require (bool_decide (key ∉ seen)) "application appears more than once";;
      require (bool_decide (apm_Access p ∈ [ApplicationAccessAllow; ApplicationAccessDeny;
                                            ApplicationAccessInherit]))
        "application access must be allow, deny, or inherit";;
      validate_permissions ({[key]} ∪ seen) l
  end.

Definition validate_privilege (c : ApplicationPrivilegeChange) : verdict :=
  validatePrincipal (apc_PrincipalType c) (apc_Principal c);;
  require (negb (bool_decide (apc_Permissions c = [])))
    "at least one application permission is required";;
  validate_permissions ∅ (apc_Permissions c).

(** The objects of a request that are present, in the order of its fields. *)
Definition objects_of (r : IdentityChange) : list string :=
  (if icr_User r then [ResourceUser] else [])
  ++ (if icr_Group r then [ResourceGroup] else [])
  ++ (if icr_Membership r then [ResourceMembership] else [])
  ++ (if icr_Quota r then [ResourceQuota] else [])
  ++ (if icr_ApplicationPrivilege r then [ResourceApplicationPrivilege] else []).

(** The object of the request's resource, when it carries that object and no other. *)
Definition only_object {A} (r : IdentityChange) (o : option A) : option A :=
  if bool_decide (objects_of r = [icr_Resource r]) then o else None.

Definition validateIdentityRequest (r : IdentityChange) : verdict :=
  let action := icr_Action r in
  if bool_decide (icr_Resource r = ResourceUser) then
    require (resource_action action) "user resource does not support action";;
    match only_object r (icr_User r) with
    | None => Err (EText "user resource requires only the user object")
    | Some c => validate_user action c
    end
  else if bool_decide (icr_Resource r = ResourceGroup) then
    require (resource_action action) "group resource does not support action";;
    match only_object r (icr_Group r) with
    | None => Err (EText "group resource requires only the group object")
    | Some c => validate_group action c
    end
  else if bool_decide (icr_Resource r = ResourceMembership) then
    match only_object r (icr_Membership r), bool_decide (action = ActionSet) with
    | Some c, true => validate_membership c
    | _, _ => Err (EText "membership resource requires action set and only the membership object")
    end
  else if bool_decide (icr_Resource r = ResourceQuota) then
    match only_object r (icr_Quota r), bool_decide (action = ActionSet) with
    | Some c, true => validate_quota c
    | _, _ => Err (EText "quota resource requires action set and only the quota object")
    end
  else if bool_decide (icr_Resource r = ResourceApplicationPrivilege) then
    match only_object r (icr_ApplicationPrivilege r), bool_decide (action = ActionSet) with
    | Some c, true => validate_privilege c
    | _, _ => Err (EText "application_privilege resource requires action set and its object")
    end
  else Err (EText "unsupported identity resource").

Definition validate_share (action : string) (c : ShareChange) : verdict :=
  require (resource_action action) "unsupported shared-folder action";;
  validateManagedName "shared folder" (sch_Name c);;
  require (negb (protectedShare (sch_Name c))) "shared folder is reserved and cannot be managed";;
  validate_new_name "new shared folder" protectedShare (sch_NewName c);;
  require (negb (bool_decide (action = ActionCreate)
                 && negb (HasPrefix (sch_VolumePath c) "/volume")))
    "creating a shared folder requires a volume_path beginning with /volume";;
  require (negb (bool_decide (action = ActionUpdate)
                 && negb (bool_decide (sch_VolumePath c = ""))))
    "moving a shared folder between volumes is not supported";;
  require (negb (bool_decide (action = ActionUpdate) && negb (shareHasUpdates c)))
    "shared-folder update contains no changed fields".

(** Folders are compared exactly here. *)
Fixpoint validate_grants (seen : gset string) (l : list PermissionGrant) : verdict :=
  match l with
  | [] => Ok ()
  | g :: l =>
      validateManagedName "shared folder" (pgr_ShareName g);;
      require (bool_decide (pgr_ShareName g ∉ seen)) "shared folder appears more than once";;
      require (bool_decide (pgr_Access g ∈ [AccessNone; AccessRead; AccessWrite; AccessDeny]))
        "share has unsupported access";;
      validate_grants ({[pgr_ShareName g]} ∪ seen) l
  end.

Definition validate_share_permissions (c : PermissionChange) : verdict :=
  require (bool_decide (pch_PrincipalType c ∈ [PrincipalUser; PrincipalGroup]))
    "principal_type must be user or group";;
  validateManagedName "principal" (pch_Principal c);;
  require (negb (bool_decide (pch_Permissions c = [])))
    "at least one permission change is required";;
  validate_grants ∅ (pch_Permissions c).

Definition validateShareRequest (r : ShareRequest) : verdict :=
  if bool_decide (scr_Resource r = ResourceShare) then
    match scr_Share r, scr_Permission r with
    | Some c, None => validate_share (scr_Action r) c
    | _, _ => Err (EText "share resource requires only the share object")
    end
  else if bool_decide (scr_Resource r = ResourcePermission) then
    match scr_Share r, scr_Permission r, bool_decide (scr_Action r = ActionSet) with
    | None, Some c, true => validate_share_permissions c
    | _, _, _ => Err (EText "permission resource requires action set and its object")
    end
  else Err (EText "unsupported share resource").
(** ** Looking things up: the first match, names up to case *)

Definition findUser (users : list User) (name : string) : option User :=
  find_first (fun u => EqualFold (usr_Name u) name) users.
Definition findGroup (groups : list Group) (name : string) : option Group :=
  find_first (fun g => EqualFold (grp_Name g) name) groups.
Definition findMembership (memberships : list Membership) (user : string) : option Membership :=
  find_first (fun m => EqualFold (mem_User m) user) memberships.
Definition findQuotaAssignment (quotas : list PrincipalQuota) (principalType principal : string) :
    option PrincipalQuota :=
  find_first (fun q => bool_decide (pqu_PrincipalType q = principalType)
                       && EqualFold (pqu_Principal q) principal) quotas.
Definition findQuotaLimit (q : PrincipalQuota) (targetType target : string) :
    option QuotaLimit :=
  find_first (fun l => bool_decide (qli_TargetType l = targetType)
                       && EqualFold (qli_Target l) target) (pqu_Limits q).
Definition quotaLimitFor (q : PrincipalQuota) (targetType target : string) : QuotaLimit :=
  default {| qli_TargetType := targetType; qli_Target := target; qli_Volume := "";
             qli_QuotaMiB := 0; qli_Status := "" |} (findQuotaLimit q targetType target).
Definition findApplication (applications : list Application) (id : string) :
    option Application :=
  find_first (fun a => EqualFold (apn_ID a) id) applications.
Definition findApplicationPrivilegeAssignment (l : list ApplicationPrivilegeAssignment)
    (principalType principal : string) : option ApplicationPrivilegeAssignment :=
  find_first (fun a => bool_decide (aa_PrincipalType a = principalType)
                       && EqualFold (aa_Principal a) principal) l.
Definition applicationPermissionFor (a : ApplicationPrivilegeAssignment) (id : string) :
    ApplicationPermission :=
  default {| am_ApplicationID := id; am_Access := ApplicationAccessInherit;
             am_AllowIP := []; am_DenyIP := [] |}
    (find_first (fun p => EqualFold (am_ApplicationID p) id) (aa_Permissions a)).
Definition findShare (shares : list SharedFolder) (name : string) : option SharedFolder :=
  find_first (fun f => EqualFold (sf_Name f) name) shares.
Definition permissionFor (f : SharedFolder) (principalType principal : string) : Permission :=
  default {| pe_PrincipalType := principalType; pe_Principal := principal;
             pe_Access := AccessNone; pe_Inherited := false; pe_InheritedAccess := "";
             pe_InheritanceObserved := false; pe_Custom := false; pe_Masked := false;
             pe_ACLMode := false |}
    (find_first (fun p => bool_decide (pe_PrincipalType p = principalType)
                          && EqualFold (pe_Principal p) principal) (sf_Permissions f)).

Definition principalExists (s : identity_state) (principalType principal : string) : bool :=
  if bool_decide (principalType = PrincipalUser)
  then bool_decide (is_Some (findUser (ist_Users s) principal))
  else bool_decide (is_Some (findGroup (ist_Groups s) principal)).

(** A nil pointer in Go. *)
Definition nil_object {A} : result service_error A := Err (EText "nil pointer dereference").
Definition found {A} (o : option A) (msg : string) : result service_error A :=
  match o with Some a => Ok a | None => Err (EText msg) end.

Definition identityPrincipalID (s : identity_state) (principalType principal : string) :
    result service_error string :=
  if bool_decide (principalType = PrincipalUser)
  then u ← found (findUser (ist_Users s) principal) "user does not exist"; Ok (usr_ID u)
  else g ← found (findGroup (ist_Groups s) principal) "group does not exist"; Ok (grp_ID g).

(** ** Preconditions *)

Section hashed.
Context `{ManagedHash}.

Definition fingerprint : managed → string := hash_managed.

(** What must still hold of one named resource: absent for a create, present and
    unchanged otherwise. *)
Definition resource_precondition {A} (action : string) (o : option A) (id : A → string)
    (value : A → managed) : result service_error ChangePrecondition :=
  match o with
  | Some a =>
      if bool_decide (action = ActionCreate) then Err (EText "already exists")
      else Ok (present (id a) (fingerprint (value a)))
  | None =>
      if bool_decide (action = ActionCreate) then Ok absent else Err (EText "does not exist")
  end.

(** The loop over the items of a change: what is there for each. *)
Fixpoint observe {A B} (look : A → result service_error B) (l : list A) :
    result service_error (list B) :=
  match l with
  | [] => Ok []
  | a :: l => b ← look a; rest ← observe look l; Ok (b :: rest)
  end.

Definition observed_limit_le (x y : QuotaLimit) : Prop :=
  String.le (quota_target (qli_TargetType x) (qli_Target x))
    (quota_target (qli_TargetType y) (qli_Target y)).
#[export] Instance observed_limit_le_dec x y : Decision (observed_limit_le x y).
Proof. unfold observed_limit_le. apply _. Defined.

Definition identityPrecondition (s : identity_state) (r : IdentityChange) :
    result service_error ChangePrecondition :=
  if bool_decide (icr_Resource r = ResourceUser) then
    match icr_User r with
    | None => nil_object
    | Some c => resource_precondition (icr_Action r) (findUser (ist_Users s) (uch_Name c))
                  usr_ID HUser
    end
  else if bool_decide (icr_Resource r = ResourceGroup) then
    match icr_Group r with
    | None => nil_object
    | Some c => resource_precondition (icr_Action r) (findGroup (ist_Groups s) (gch_Name c))
                  grp_ID HGroup
    end
  else if bool_decide (icr_Resource r = ResourceMembership) then
    match icr_Membership r with
    | None => nil_object
    | Some c =>
        user ← found (findUser (ist_Users s) (mch_User c)) "user does not exist";
        observe (fun g => found (findGroup (ist_Groups s) g) "group does not exist")
          (mch_Groups c);;
        membership ← found (findMembership (ist_Memberships s) (mch_User c))
          "membership state for user was not returned";
        Ok (present (usr_ID user) (fingerprint (HMembership membership)))
    end
  else if bool_decide (icr_Resource r = ResourceQuota) then
    match icr_Quota r with
    | None => nil_object
    | Some c =>
        id ← identityPrincipalID s (qch_PrincipalType c) (qch_Principal c);
        assignment ← found (findQuotaAssignment (ist_Quotas s) (qch_PrincipalType c)
                              (qch_Principal c)) "quota state was not returned";
        observed ← observe (fun l => found (findQuotaLimit assignment (qlc_TargetType l)
                                              (qlc_Target l))
            "quota target does not exist or does not support per-principal quotas")
          (qch_Limits c);
        Ok (present id (fingerprint (HLimits (merge_sort observed_limit_le observed))))
    end
  else if bool_decide (icr_Resource r = ResourceApplicationPrivilege) then
    match icr_ApplicationPrivilege r with
    | None => nil_object
    | Some c =>
        id ← identityPrincipalID s (apc_PrincipalType c) (apc_Principal c);
        assignment ← found (findApplicationPrivilegeAssignment (ist_ApplicationPrivileges s)
                              (apc_PrincipalType c) (apc_Principal c))
          "application privilege state was not returned";
        observed ← observe (fun p =>
            found (findApplication (ist_Applications s) (apm_ApplicationID p))
              "application does not exist";;
            Ok (applicationPermissionFor assignment (apm_ApplicationID p)))
          (apc_Permissions c);
        Ok (present id (fingerprint (HPermissions (merge_sort permission_le observed))))
    end
  else Err (EText "unsupported identity resource").

Definition observed_binding_le (x y : string * Permission) : Prop := String.le x.1 y.1.
#[export] Instance observed_binding_le_dec x y : Decision (observed_binding_le x y).
Proof. unfold observed_binding_le. apply _. Defined.

Definition sharePrecondition (s : share_state) (identities : identity_state)
    (r : ShareRequest) : result service_error ChangePrecondition :=
  if bool_decide (scr_Resource r = ResourceShare) then
    match scr_Share r with
    | None => nil_object
    | Some c => resource_precondition (scr_Action r) (findShare (shs_Shares s) (sch_Name c))
                  sf_UUID HFolder
    end
  else
    match scr_Permission r with
    | None => nil_object
    | Some c =>
        require (principalExists identities (pch_PrincipalType c) (pch_Principal c))
          "principal does not exist";;
        bindings ← observe (fun g =>
            folder ← found (findShare (shs_Shares s) (pgr_ShareName g))
              "shared folder does not exist";
            Ok (pgr_ShareName g, permissionFor folder (pch_PrincipalType c) (pch_Principal c)))
          (pch_Permissions c);
        Ok (present (pch_PrincipalType c +:+ ":" +:+ pch_Principal c)
              (fingerprint (HBindings (merge_sort observed_binding_le bindings))))
    end.

(** ** Risk and summary *)

Definition riskLevel (destructive : bool) : string := if destructive then "high" else "medium".

Definition identityQueryForRequest (r : IdentityChange) : StateQuery :=
  if bool_decide (icr_Resource r = ResourceMembership) then
    match icr_Membership r with
    | Some c => membership_query (mch_User c)
    | None => zero_query
    end
  else if bool_decide (icr_Resource r = ResourceQuota) then
    match icr_Quota r with
    | Some c => {|
        iqy_IncludeMemberships := false; iqy_IncludeQuotas := true;
        iqy_IncludeApplicationPrivileges := false;
        iqy_IncludeRelatedGroupApplicationPrivileges := false;
        iqy_PrincipalType := qch_PrincipalType c; iqy_Principal := qch_Principal c |}
    | None => zero_query
    end
  else if bool_decide (icr_Resource r = ResourceApplicationPrivilege) then
    match icr_ApplicationPrivilege r with
    | Some c => {|
        iqy_IncludeMemberships := false; iqy_IncludeQuotas := false;
        iqy_IncludeApplicationPrivileges := true;
        iqy_IncludeRelatedGroupApplicationPrivileges := false;
        iqy_PrincipalType := apc_PrincipalType c; iqy_Principal := apc_Principal c |}
    | None => zero_query
    end
  else zero_query.

(** The groups of a user so far; no entry has none. *)
Definition groups_of (s : identity_state) (user : string) : list string :=
  match findMembership (ist_Memberships s) user with Some m => mem_Groups m | None => [] end.

Definition quota_of (s : identity_state) (principalType principal : string) : PrincipalQuota :=
  default {| pqu_PrincipalType := ""; pqu_Principal := ""; pqu_Limits := [] |}
    (findQuotaAssignment (ist_Quotas s) principalType principal).

(** A limit that was not there, or a lower one. *)
Definition tightens (q : PrincipalQuota) (l : QuotaLimitChange) : bool :=
  let before := qli_QuotaMiB (quotaLimitFor q (qlc_TargetType l) (qlc_Target l)) in
  (0 <? qlc_QuotaMiB l) && ((before =? 0) || (qlc_QuotaMiB l <? before)).

Definition identityChangeIsDestructive (s : identity_state) (r : IdentityChange) : bool :=
  if bool_decide (icr_Action r = ActionDelete) then true
  else if bool_decide (icr_Resource r = ResourceMembership) then
    match icr_Membership r with
    | Some c =>
        let '(_, remove) := membershipDelta (groups_of s (mch_User c)) (mch_Groups c) in
        negb (bool_decide (remove = [])) || containsFold (mch_Groups c) "administrators"
    | None => false
    end
  else if bool_decide (icr_Resource r = ResourceQuota) then
    match icr_Quota r with
    | Some c => existsb (tightens (quota_of s (qch_PrincipalType c) (qch_Principal c)))
                  (qch_Limits c)
    | None => false
    end
  else bool_decide (icr_Resource r = ResourceApplicationPrivilege).

(** [%v] of a list of texts. *)
Definition list_text (l : list string) : string := "[" +:+ Join l " " +:+ "]".
Definition count_text {A} (l : list A) : string := Itoa (Z.of_nat (length l)).

(** The first line; the text of an object that is not there is not reached. *)
Definition identity_action_text (s : identity_state) (r : IdentityChange) : string :=
  let on {A} (o : option A) (f : A → string) : string :=
    match o with Some c => f c | None => "" end in
  if bool_decide (icr_Resource r = ResourceUser) then
    on (icr_User r) (fun c => icr_Action r +:+ " user " +:+ uch_Name c)
  else if bool_decide (icr_Resource r = ResourceGroup) then
    on (icr_Group r) (fun c => icr_Action r +:+ " group " +:+ gch_Name c)
  else if bool_decide (icr_Resource r = ResourceMembership) then
    on (icr_Membership r) (fun c =>
      let '(add, remove) := membershipDelta (groups_of s (mch_User c)) (mch_Groups c) in
      "set memberships for user " +:+ mch_User c +:+ " (add: " +:+ list_text add
      +:+ "; remove: " +:+ list_text remove +:+ ")")
  else if bool_decide (icr_Resource r = ResourceQuota) then
    on (icr_Quota r) (fun c =>
      "set " +:+ count_text (qch_Limits c) +:+ " quota target(s) for "
      +:+ qch_PrincipalType c +:+ " " +:+ qch_Principal c)
  else if bool_decide (icr_Resource r = ResourceApplicationPrivilege) then
    on (icr_ApplicationPrivilege r) (fun c =>
      "set " +:+ count_text (apc_Permissions c) +:+ " application privilege rule(s) for "
      +:+ apc_PrincipalType c +:+ " " +:+ apc_Principal c)
  else icr_Action r +:+ " " +:+ icr_Resource r.

Definition identitySummary (s : identity_state) (r : IdentityChange) : list string :=
  [identity_action_text s r;
   "re-read identity state and verify the plan precondition before applying";
   "verify the resulting identity state after DSM accepts the change"].

Definition shareSummary (r : ShareRequest) : list string :=
  match scr_Share r, scr_Permission r with
  | Some c, _ =>
      [scr_Action r +:+ " shared folder " +:+ sch_Name c;
       "re-read shared-folder state and verify the plan precondition before applying";
       "verify the resulting shared-folder state after DSM accepts the change"]
  | None, Some c =>
      ["set permissions for " +:+ pch_PrincipalType c +:+ " " +:+ pch_Principal c;
       "re-read the permission matrix and verify the plan precondition before applying";
       "verify each requested permission after DSM accepts the change"]
  | None, None => []
  end.

(** ** Postconditions *)

Definition name_after (name : string) (newName : option string) : string := default name newName.

(** A field that the request leaves alone, or that has the requested value. *)
Definition applied {A} `{EqDecision A} (wanted : option A) (actual : A) : bool :=
  match wanted with Some w => bool_decide (actual = w) | None => true end.

Definition verify_user (s : identity_state) (action : string) (c : UserChange) : verdict :=
  if bool_decide (action = ActionDelete) then
    require (bool_decide (findUser (ist_Users s) (uch_Name c) = None))
      "user still exists after delete"
  else
    current ← found (findUser (ist_Users s) (name_after (uch_Name c) (uch_NewName c)))
      "user was not found";
    require (applied (uch_Description c) (usr_Description current))
      "user description was not applied";;
    require (applied (uch_Email c) (usr_Email current)) "user email was not applied";;
    require (applied (uch_PasswordNeverExpires c) (usr_PasswordNeverExpires current))
      "user password expiration setting was not applied";;
    require (negb (bool_decide (uch_Expired c = Some "normal") && usr_Expired current))
      "user remains expired";;
    require (negb (bool_decide (uch_Expired c = Some "now") && negb (usr_Expired current)))
      "user was not expired".

Definition verify_group (s : identity_state) (action : string) (c : GroupChange) : verdict :=
  if bool_decide (action = ActionDelete) then
    require (bool_decide (findGroup (ist_Groups s) (gch_Name c) = None))
      "group still exists after delete"
  else
    current ← found (findGroup (ist_Groups s) (name_after (gch_Name c) (gch_NewName c)))
      "group was not found";
    require (applied (gch_Description c) (grp_Description current))
      "group description was not applied".

Definition sameStringSet (left right : list string) : bool :=
  let leftSet : gset string := list_to_set (ToLower <$> left) in
  bool_decide (length left = length right)
  && forallb (fun v => bool_decide (ToLower v ∈ leftSet)) right.

Definition verify_membership (s : identity_state) (c : MembershipChange) : verdict :=
  current ← found (findMembership (ist_Memberships s) (mch_User c))
    "membership state for user was not returned after apply";
  require (sameStringSet (mem_Groups current) (mch_Groups c)) "memberships differ after apply".

Definition verify_quota (s : identity_state) (c : QuotaChange) : verdict :=
  current ← found (findQuotaAssignment (ist_Quotas s) (qch_PrincipalType c) (qch_Principal c))
    "quota state was not returned after apply";
  require (forallb (fun l =>
      qli_QuotaMiB (quotaLimitFor current (qlc_TargetType l) (qlc_Target l)) =? qlc_QuotaMiB l)
    (qch_Limits c)) "quota differs after apply".

Definition verify_privilege (s : identity_state) (c : ApplicationPrivilegeChange) : verdict :=
  current ← found (findApplicationPrivilegeAssignment (ist_ApplicationPrivileges s)
                     (apc_PrincipalType c) (apc_Principal c))
    "application privilege state was not returned after apply";
  require (forallb (fun p =>
      bool_decide (am_Access (applicationPermissionFor current (apm_ApplicationID p))
                   = apm_Access p)) (apc_Permissions c))
    "application access differs after apply".

Definition verifyIdentityPostcondition (s : identity_state) (r : IdentityChange) : verdict :=
  let on {A} (o : option A) (verify : A → verdict) : verdict :=
    match o with Some c => verify c | None => nil_object end in
  if bool_decide (icr_Resource r = ResourceUser) then
    on (icr_User r) (verify_user s (icr_Action r))
  else if bool_decide (icr_Resource r = ResourceGroup) then
    on (icr_Group r) (verify_group s (icr_Action r))
  else if bool_decide (icr_Resource r = ResourceMembership) then
    on (icr_Membership r) (verify_membership s)
  else if bool_decide (icr_Resource r = ResourceQuota) then on (icr_Quota r) (verify_quota s)
  else if bool_decide (icr_Resource r = ResourceApplicationPrivilege) then
    on (icr_ApplicationPrivilege r) (verify_privilege s)
  else Err (EText "unsupported identity resource").

Definition verify_share (s : share_state) (action : string) (c : ShareChange) : verdict :=
  if bool_decide (action = ActionDelete) then
    require (bool_decide (findShare (shs_Shares s) (sch_Name c) = None))
      "shared folder still exists after delete"
  else
    current ← found (findShare (shs_Shares s) (name_after (sch_Name c) (sch_NewName c)))
      "shared folder was not found";
    require (applied (sch_Description c) (sf_Description current))
      "shared folder description was not applied";;
    require (applied (sch_Hidden c) (sf_Hidden current))
      "shared folder hidden setting was not applied";;
    require (applied (mib <$> sch_QuotaMiB c) (sf_QuotaBytes current))
      "shared folder quota was not applied";;
    require (negb (bool_decide (action = ActionCreate)
                   && negb (bool_decide (sf_VolumePath current = sch_VolumePath c))))
      "shared folder was created on another volume".

(** The loop over the grants. *)
Fixpoint verify_grants (s : share_state) (principalType principal : string)
    (l : list PermissionGrant) : verdict :=
  match l with
  | [] => Ok ()
  | g :: l =>
      folder ← found (findShare (shs_Shares s) (pgr_ShareName g))
        "shared folder disappeared while verifying permissions";
      require (bool_decide (pe_Access (permissionFor folder principalType principal)
                            = pgr_Access g)) "permission differs after apply";;
      verify_grants s principalType principal l
  end.

Definition verifySharePostcondition (s : share_state) (r : ShareRequest) : verdict :=
  if bool_decide (scr_Resource r = ResourceShare) then
    match scr_Share r with Some c => verify_share s (scr_Action r) c | None => nil_object end
  else
    match scr_Permission r with
    | Some c => verify_grants s (pch_PrincipalType c) (pch_Principal c) (pch_Permissions c)
    | None => nil_object
    end.

(** ** Plan hashes *)

Definition identityPlanHash (p : IdentityPlan) : string :=
  hash_managed (HIdentityPlan (set_Hash "" p)).
Definition sharePlanHash (p : SharePlan) : string :=
  hash_managed (HSharePlan (set_Hash "" p)).

Definition validateIdentityPlan (p : IdentityPlan) (approveHash : string) : verdict :=
  require (bool_decide (mp_APIVersion p = managementAPIVersion))
    "unsupported identity plan API version";;
  validateIdentityRequest (mp_Request p);;
  require (negb (bool_decide (mp_Hash p = "")) && bool_decide (mp_Hash p = identityPlanHash p))
    "identity plan hash is invalid";;
  require (bool_decide (approveHash = mp_Hash p)) "approval hash does not match identity plan hash".

Definition validateSharePlan (p : SharePlan) (approveHash : string) : verdict :=
  require (bool_decide (mp_APIVersion p = managementAPIVersion))
    "unsupported shared-folder plan API version";;
  validateShareRequest (mp_Request p);;
  require (negb (bool_decide (mp_Hash p = "")) && bool_decide (mp_Hash p = sharePlanHash p))
    "shared-folder plan hash is invalid";;
  require (bool_decide (approveHash = mp_Hash p))
    "approval hash does not match shared-folder plan hash".

(** ** The service's operations *)

Section service.
Context `{NetURL} {W : Type} `{Network W} {G : Type} (srv : Service G W).

Abbreviation MS := (ST (G * dstate W) service_error).

(** A plan without its hash. *)
Definition draft {R} (name : string) (revision : Z) (request : R)
    (precondition : ChangePrecondition) (destructive : bool) (summary : list string) :
    ManagedPlan R := {|
  mp_APIVersion := managementAPIVersion; mp_NAS := name; mp_ProfileRevision := revision;
  mp_Request := request; mp_Precondition := precondition; mp_Destructive := destructive;
  mp_Risk := riskLevel destructive; mp_Summary := summary; mp_Hash := "" |}.

Definition PlanIdentityChange (ctx : context) (requestedNAS : string)
    (request : IdentityChange) : MS IdentityPlan :=
  lift (validateIdentityRequest request);;
  name ← sv_Client srv ctx requestedNAS;
  state ← on_client (named name (IdentityState (identityQueryForRequest request)));
  precondition ← lift (identityPrecondition state request);
  let destructive := identityChangeIsDestructive state request in
  revision ← profileRevision srv ctx name;
  let plan := draft name revision request precondition destructive
                (identitySummary state request) in
  mret (set_Hash (identityPlanHash plan) plan).

(** The password of a user change, from its reference. *)
Definition resolve_credential (ctx : context) (request : IdentityChange) : MS string :=
  match icr_User request with
  | Some c =>
      if bool_decide (uch_CredentialRef c = "") then mret ""
      else around "resolve user password reference"
             (on_gateway (sv_secretReferences srv ctx (uch_CredentialRef c)))
  | None => mret ""
  end.

Definition ApplyIdentityPlan (ctx : context) (plan : IdentityPlan) (approveHash : string) :
    MS ManagedResult :=
  lift (validateIdentityPlan plan approveHash);;
  authorizeRemoteApply srv ctx (mp_NAS plan) (mp_ProfileRevision plan) (mp_Hash plan)
    (mp_Risk plan);;
  verifyProfileRevision srv ctx (mp_NAS plan) (mp_ProfileRevision plan);;
  current ← around "identity plan precondition no longer holds"
    (PlanIdentityChange ctx (mp_NAS plan) (mp_Request plan));
  check (bool_decide (mp_Precondition current = mp_Precondition plan))
    (EText "identity plan precondition changed; create a new plan");;
  check (bool_decide (mp_Hash current = mp_Hash plan))
    (EText "identity plan is not the canonical plan for the current request and state");;
  sv_Client srv ctx (mp_NAS plan);;
  password ← resolve_credential ctx (mp_Request plan);
  operation ← on_client (named (mp_NAS plan) (ApplyIdentityChange (mp_Request plan) password));
  state ← around "verify identity change"
    (on_client (IdentityState (identityQueryForRequest (mp_Request plan))));
  lift (verifyIdentityPostcondition state (mp_Request plan));;
  mret {| ma_NAS := mp_NAS plan; ma_PlanHash := mp_Hash plan; ma_Applied := true;
          ma_Operation := operation |}.

Definition includes_permissions (r : ShareRequest) : bool :=
  bool_decide (scr_Resource r = ResourcePermission).

Definition no_identities : identity_state := {|
  ist_Users := []; ist_Groups := []; ist_Memberships := []; ist_Quotas := [];
  ist_Applications := []; ist_ApplicationPrivileges := [] |}.

Definition PlanShareChange (ctx : context) (requestedNAS : string) (request : ShareRequest) :
    MS SharePlan :=
  lift (validateShareRequest request);;
  name ← sv_Client srv ctx requestedNAS;
  state ← on_client (named name (ShareState (includes_permissions request)));
  identities ←
    (if includes_permissions request then on_client (named name (IdentityState zero_query))
     else mret no_identities);
  precondition ← lift (sharePrecondition state identities request);
  let destructive := bool_decide (scr_Action request = ActionDelete)
                     || includes_permissions request in
  revision ← profileRevision srv ctx name;
  let plan := draft name revision request precondition destructive (shareSummary request) in
  mret (set_Hash (sharePlanHash plan) plan).

Definition ApplySharePlan (ctx : context) (plan : SharePlan) (approveHash : string) :
    MS ManagedResult :=
  lift (validateSharePlan plan approveHash);;
  authorizeRemoteApply srv ctx (mp_NAS plan) (mp_ProfileRevision plan) (mp_Hash plan)
    (mp_Risk plan);;
  verifyProfileRevision srv ctx (mp_NAS plan) (mp_ProfileRevision plan);;
  current ← around "shared-folder plan precondition no longer holds"
    (PlanShareChange ctx (mp_NAS plan) (mp_Request plan));
  check (bool_decide (mp_Precondition current = mp_Precondition plan))
    (EText "shared-folder plan precondition changed; create a new plan");;
  check (bool_decide (mp_Hash current = mp_Hash plan))
    (EText "shared-folder plan is not the canonical plan for the current request and state");;
  sv_Client srv ctx (mp_NAS plan);;
  operation ← on_client (named (mp_NAS plan) (ApplyShareChange (mp_Request plan)));
  state ← around "verify shared-folder change"
    (on_client (ShareState (includes_permissions (mp_Request plan))));
  lift (verifySharePostcondition state (mp_Request plan));;
  mret {| ma_NAS := mp_NAS plan; ma_PlanHash := mp_Hash plan; ma_Applied := true;
          ma_Operation := operation |}.
End service.
End hashed.
End management.
