(* ===== verification/Storage.v ===== *)
(** * Storage: disks, pools, volumes and caches

    Source: internal/domain/storage/model.go.  The actions [create], [update] and [delete]
    are those of [Identity].  Sizes are 64-bit unsigned integers as [Z], counts are [int]s. *)

From S2P Require Import Prelude.
From S2P Require Import Identity.

Definition ActionConvert : string := "convert".

Definition ResourcePool : string := "pool".
Definition ResourceVolume : string := "volume".
Definition ResourceCache : string := "cache".

Definition RAIDSHR : string := "shr".
Definition RAIDSHR2 : string := "shr2".
Definition RAID0 : string := "raid0".
Definition RAID1 : string := "raid1".
Definition RAID5 : string := "raid5".
Definition RAID6 : string := "raid6".
Definition RAID10 : string := "raid10".
Definition RAIDJBOD : string := "jbod".
Definition RAIDBasic : string := "basic".

Definition FileSystemBtrfs : string := "btrfs".
Definition FileSystemExt4 : string := "ext4".
Definition CapacityMaximum : string := "maximum".
Definition CapacityExact : string := "exact".
Definition CacheModeReadOnly : string := "read_only".
Definition CacheModeReadWrite : string := "read_write".

(** ** The observed state *)

Record PoolCreationConstraints := { pcc_SupportsSHR : bool; pcc_MaxDisks : Z }.

Record VolumeCreationConstraints := {
  vcc_SupportedFileSystems : list string;
  vcc_MinimumSizeBytes : Z;
  vcc_MaxFileSystemBytes : Z
}.

Record CacheCreationConstraints := {
  ccc_SupportsReadOnly : bool;
  ccc_SupportsReadWrite : bool;
  ccc_SupportsProtection : bool;
  ccc_ProtectionRAIDTypes : list string;
  ccc_MinReadOnlyDisks : Z;
  ccc_MinReadWriteDisks : Z;
  ccc_MaxDisks : Z
}.

(** The temperature, of which only the text is kept. *)
Record Disk := {
  sd_ID : string;
  sd_Name : string;
  sd_Device : string;
  sd_Slot : string;
  sd_Vendor : string;
  sd_Model : string;
  sd_Serial : string;
  sd_Firmware : string;
  sd_Type : string;
  sd_Interface : string;
  sd_Status : string;
  sd_Health : string;
  sd_SMARTStatus : string;
  sd_UsedBy : string;
  sd_InUse : bool;
  sd_Selectable : bool;
  sd_Compatibility : string;
  sd_SizeBytes : Z;
  sd_TemperatureC : option string
}.

Record Pool := {
  spl_ID : string;
  spl_Name : string;
  spl_Path : string;
  spl_SpacePath : string;
  spl_RAIDType : string;
  spl_Layout : string;
  spl_Status : string;
  spl_Health : string;
  spl_SizeBytes : Z;
  spl_UsedBytes : Z;
  spl_AvailableBytes : Z;
  spl_DiskIDs : list string;
  spl_Writable : bool;
  spl_Actioning : bool;
  spl_Compatible : bool;
  spl_CanCreateVolume : bool;
  spl_CanExpand : bool;
  spl_CanDelete : bool;
  spl_MaxDiskCount : Z
}.

Record Volume := {
  svo_ID : string;
  svo_Name : string;
  svo_Path : string;
  svo_PoolID : string;
  svo_FileSystem : string;
  svo_Status : string;
  svo_Health : string;
  svo_SizeBytes : Z;
  svo_AllocatedBytes : Z;
  svo_MaxFileSystemBytes : Z;
  svo_UsedBytes : Z;
  svo_AvailableBytes : Z;
  svo_ReadOnly : bool;
  svo_Writable : bool;
  svo_Actioning : bool;
  svo_SingleVolume : bool;
  svo_CanExpand : bool;
  svo_CanDelete : bool
}.

Record Cache := {
  ssc_ID : string;
  ssc_Name : string;
  ssc_VolumeID : string;
  ssc_VolumePath : string;
  ssc_PoolID : string;
  ssc_CacheType : string;
  ssc_ProtectionRAID : string;
  ssc_DiskIDs : list string;
  ssc_SizeBytes : Z;
  ssc_Status : string;
  ssc_Health : string;
  ssc_ProtectionStatus : string;
  ssc_HasDirtyData : bool;
  ssc_Mounted : bool;
  ssc_Actioning : bool;
  ssc_Flushing : bool;
  ssc_CanExpand : bool;
  ssc_CanConvert : bool;
  ssc_CanDelete : bool
}.

Record storage_state := {
  sst_Disks : list Disk;
  sst_Pools : list Pool;
  sst_Volumes : list Volume;
  sst_Caches : list Cache;
  sst_PoolCreation : PoolCreationConstraints;
  sst_VolumeCreation : VolumeCreationConstraints;
  sst_CacheCreation : CacheCreationConstraints
}.

Record StorageCaps := {
  stc_InventoryRead : bool;
  stc_PoolCreate : bool;
  stc_PoolUpdate : bool;
  stc_PoolDelete : bool;
  stc_VolumeCreate : bool;
  stc_VolumeUpdate : bool;
  stc_VolumeDelete : bool;
  stc_CacheCreate : bool;
  stc_CacheExpand : bool;
  stc_CacheConvert : bool;
  stc_CacheDelete : bool;
  stc_Mutations : bool
}.

(** ** Requests *)

Record PoolChange := {
  plc_ID : string;
  plc_Name : string;
  plc_RAIDType : string;
  plc_DiskIDs : list string;
  plc_AddDiskIDs : list string;
  plc_TargetRAIDType : option string;
  plc_AllowUnsupportedDisks : bool
}.

Record CapacityPolicy := { cpp_Mode : string; cpp_SizeBytes : Z }.

Record VolumeChange := {
  vch_ID : string;
  vch_Name : string;
  vch_PoolID : string;
  vch_FileSystem : string;
  vch_Capacity : option CapacityPolicy;
  vch_ExpandTo : option CapacityPolicy
}.

Record CacheChange := {
  cch_ID : string;
  cch_Name : string;
  cch_VolumeID : string;
  cch_CacheType : string;
  cch_DiskIDs : list string;
  cch_ProtectionRAID : string;
  cch_AddDiskIDs : list string;
  cch_TargetMode : option string
}.

Record StorageRequest := {
  str_Action : string;
  str_Resource : string;
  str_Pool : option PoolChange;
  str_Volume : option VolumeChange;
  str_Cache : option CacheChange
}.
