(* ===== verification/StorageChecks.v ===== *)
(** * Storage checks: requests, topology and safety

    The canonical form of a request and the fields that each action owns; the normalised
    topology and what a request refers to in it; and what the observed state allows.

    Source: internal/application/storage_management.go, [canonicalStorageRequest] to
    [validateCapacityPolicy], and the functions on RAID types, identifiers and names.  An
    empty list of identifiers and the nil slice are one list. *)

From S2P Require Import Prelude.
From S2P Require Import GoStrings.
From S2P Require Import Identity.
From S2P Require Import Service.
From S2P Require Import Management.
From S2P Require Import Storage.

Section request.
Context `{Unicode}.

Definition lower_trim (s : string) : string := ToLower (TrimSpace s).

(** ** RAID types *)

Definition raid_types : list string :=
  [RAIDSHR; RAIDSHR2; RAID0; RAID1; RAID5; RAID6; RAID10; RAIDJBOD; RAIDBasic].

(** [strings.NewReplacer("-", "", "_", "", " ", "")] *)
Definition without_separators (s : string) : string :=
  of_bytes (base.filter (fun a => a ∉ [45; 95; 32]) (bytes s)).

Definition canonicalRAIDType (value : string) : result service_error string :=
  let normalized := without_separators (lower_trim value) in
  if bool_decide (normalized ∈ raid_types) then Ok normalized
  else Err (EText "unsupported RAID type").

Definition normalizeObservedRAIDType (value : string) : string :=
  let v := lower_trim value in
  if bool_decide (v ∈ ["shr_without_disk_protect"; "shr_with_1_disk_protect"; "shr_1"])
  then RAIDSHR
  else if bool_decide (v ∈ ["shr_with_2_disk_protect"; "shr_2"]) then RAIDSHR2
  else if bool_decide (v = "raid_linear") then RAIDJBOD
  else match canonicalRAIDType value with Ok n => n | Err _ => v end.

Definition raid_count_ok (raidType : string) (count : Z) : bool :=
  if bool_decide (raidType = RAIDSHR) then 1 <=? count
  else if bool_decide (raidType ∈ [RAIDSHR2; RAID6]) then 4 <=? count
  else if bool_decide (raidType ∈ [RAID0; RAIDJBOD]) then 2 <=? count
  else if bool_decide (raidType = RAID1) then (2 <=? count) && (count <=? 4)
  else if bool_decide (raidType = RAID5) then 3 <=? count
  else if bool_decide (raidType = RAID10) then (4 <=? count) && (count mod 2 =? 0)
  else bool_decide (raidType = RAIDBasic) && (count =? 1).

Definition validateRAIDDiskCount (raidType : string) (count : Z) : verdict :=
  require (raid_count_ok raidType count) "RAID type has invalid disk count".

Definition count {A} (l : list A) : Z := Z.of_nat (length l).

Definition isCacheProtectionRAID (value : string) : bool :=
  bool_decide (value ∈ [RAID1; RAID5; RAID6]).

(** ** Identifiers and names *)

(** The loop over neighbours of the sorted list. *)
Fixpoint adjacent_equal (l : list string) : bool :=
  match l with
  | x :: (y :: _) as rest => bool_decide (x = y) || adjacent_equal rest
  | _ => false
  end.

Definition canonicalIDs (values : list string) : result service_error (list string) :=
  let values := TrimSpace <$> values in
  require (negb (bool_decide ("" ∈ values))) "ID cannot be empty";;
  let sorted := sort_strings values in
  require (negb (adjacent_equal sorted)) "duplicate stable ID";;
  Ok sorted.

Definition validateStorageName (name : string) : verdict :=
  require (negb (bool_decide (name = ""))) "create requires name";;
  require (slen name <=? 128) "name is longer than 128 bytes";;
  require (forallb (fun r => negb ((r <? 32) || (r =? 127))) (string_runes name))
    "name contains a control character".

(** ** The canonical request *)

(** An optional value of a request: absent ones pass. *)
Definition optionally {A B} (f : A → result service_error B) (o : option A) :
    result service_error (option B) :=
  match o with
  | Some a => b ← f a; Ok (Some b)
  | None => Ok None
  end.

(** [if value != "" { value, err = canonicalRAIDType(value) }] *)
Definition canonical_raid (value : string) : result service_error string :=
  if bool_decide (value = "") then Ok value else canonicalRAIDType value.

Definition canonical_pool (p : PoolChange) : result service_error PoolChange :=
  raid ← canonical_raid (plc_RAIDType p);
  disks ← canonicalIDs (plc_DiskIDs p);
  add ← canonicalIDs (plc_AddDiskIDs p);
  target ← optionally canonicalRAIDType (plc_TargetRAIDType p);
  Ok {| plc_ID := TrimSpace (plc_ID p); plc_Name := TrimSpace (plc_Name p);
        plc_RAIDType := raid; plc_DiskIDs := disks; plc_AddDiskIDs := add;
        plc_TargetRAIDType := target;
        plc_AllowUnsupportedDisks := plc_AllowUnsupportedDisks p |}.

Definition canonical_capacity (c : CapacityPolicy) : CapacityPolicy :=
  {| cpp_Mode := lower_trim (cpp_Mode c); cpp_SizeBytes := cpp_SizeBytes c |}.

Definition canonical_volume (v : VolumeChange) : VolumeChange := {|
  vch_ID := TrimSpace (vch_ID v); vch_Name := TrimSpace (vch_Name v);
  vch_PoolID := TrimSpace (vch_PoolID v); vch_FileSystem := lower_trim (vch_FileSystem v);
  vch_Capacity := canonical_capacity <$> vch_Capacity v;
  vch_ExpandTo := canonical_capacity <$> vch_ExpandTo v |}.

Definition canonical_cache (c : CacheChange) : result service_error CacheChange :=
  disks ← canonicalIDs (cch_DiskIDs c);
  add ← canonicalIDs (cch_AddDiskIDs c);
  raid ← canonical_raid (cch_ProtectionRAID c);
  Ok {| cch_ID := TrimSpace (cch_ID c); cch_Name := TrimSpace (cch_Name c);
        cch_VolumeID := TrimSpace (cch_VolumeID c); cch_CacheType := lower_trim (cch_CacheType c);
        cch_DiskIDs := disks; cch_ProtectionRAID := raid; cch_AddDiskIDs := add;
        cch_TargetMode := lower_trim <$> cch_TargetMode c |}.

(** ** The fields that each action owns *)

Definition blank (s : string) : bool := bool_decide (s = "").
Definition unset {A} (o : option A) : bool := match o with Some _ => false | None => true end.
Definition no_ids (l : list string) : bool := match l with [] => true | _ => false end.

Definition validateCapacityPolicy (p : CapacityPolicy) : verdict :=
  if bool_decide (cpp_Mode p = CapacityMaximum) then
    require (cpp_SizeBytes p =? 0) "maximum capacity requires size_bytes=0"
  else if bool_decide (cpp_Mode p = CapacityExact) then
    require (negb (cpp_SizeBytes p =? 0)) "exact capacity requires positive size_bytes"
  else Err (EText "unsupported capacity mode").

Definition validatePoolChange (action : string) (c : PoolChange) : verdict :=
  if bool_decide (action = ActionCreate) then
    require (blank (plc_ID c) && no_ids (plc_AddDiskIDs c) && unset (plc_TargetRAIDType c))
      "pool create accepts only name, raid_type, and disk_ids";;
    validateStorageName (plc_Name c);;
    require (negb (blank (plc_RAIDType c))) "pool create requires raid_type";;
    validateRAIDDiskCount (plc_RAIDType c) (count (plc_DiskIDs c))
  else if bool_decide (action = ActionUpdate) then
    require (negb (blank (plc_ID c))) "pool update requires stable id";;
    require (blank (plc_Name c) && blank (plc_RAIDType c) && no_ids (plc_DiskIDs c))
      "pool update accepts only id, add_disk_ids, and target_raid_type";;
    require (negb (no_ids (plc_AddDiskIDs c) && unset (plc_TargetRAIDType c)))
      "pool update requires at least one disk addition or target RAID type"
  else if bool_decide (action = ActionDelete) then
    require (negb (blank (plc_ID c))) "pool delete requires stable id";;
    require (blank (plc_Name c) && blank (plc_RAIDType c) && no_ids (plc_DiskIDs c)
             && no_ids (plc_AddDiskIDs c) && unset (plc_TargetRAIDType c))
      "pool delete accepts only stable id"
  else Ok ().

(** The policy of a create or an expansion, which must be there. *)
Definition validate_policy (o : option CapacityPolicy) (msg : string) : verdict :=
  match o with None => Err (EText msg) | Some p => validateCapacityPolicy p end.

Definition validateVolumeChange (action : string) (c : VolumeChange) : verdict :=
  if bool_decide (action = ActionCreate) then
    require (blank (vch_ID c) && unset (vch_ExpandTo c))
      "volume create accepts only name, pool_id, file_system, and capacity";;
    validateStorageName (vch_Name c);;
    require (negb (blank (vch_PoolID c))) "volume create requires stable pool_id";;
    require (bool_decide (vch_FileSystem c ∈ [FileSystemBtrfs; FileSystemExt4]))
      "unsupported volume file_system";;
    validate_policy (vch_Capacity c) "volume create requires an explicit capacity policy"
  else if bool_decide (action = ActionUpdate) then
    require (negb (blank (vch_ID c))) "volume update requires stable id";;
    require (blank (vch_Name c) && blank (vch_PoolID c) && blank (vch_FileSystem c)
             && unset (vch_Capacity c)) "volume update accepts only id and expand_to";;
    validate_policy (vch_ExpandTo c) "volume update requires expand_to"
  else if bool_decide (action = ActionDelete) then
    require (negb (blank (vch_ID c))) "volume delete requires stable id";;
    require (blank (vch_Name c) && blank (vch_PoolID c) && blank (vch_FileSystem c)
             && unset (vch_Capacity c) && unset (vch_ExpandTo c))
      "volume delete accepts only stable id"
  else Ok ().

(** The mode of a new cache, its disks and its protection. *)
Definition validate_cache_mode (c : CacheChange) : verdict :=
  if bool_decide (cch_CacheType c = CacheModeReadOnly) then
    require (blank (cch_ProtectionRAID c)) "a read-only cache does not accept protection_raid";;
    require (1 <=? count (cch_DiskIDs c)) "a read-only cache requires at least one SSD"
  else if bool_decide (cch_CacheType c = CacheModeReadWrite) then
    require (isCacheProtectionRAID (cch_ProtectionRAID c))
      "a read-write cache requires protection_raid of raid1, raid5, or raid6";;
    validateRAIDDiskCount (cch_ProtectionRAID c) (count (cch_DiskIDs c))
  else Err (EText "cache create requires cache_type read_only or read_write").

Definition validate_target_mode (c : CacheChange) (mode : string) : verdict :=
  if bool_decide (mode = CacheModeReadWrite) then
    require (blank (cch_ProtectionRAID c) || isCacheProtectionRAID (cch_ProtectionRAID c))
      "cache convert protection_raid must be raid1, raid5, or raid6"
  else if bool_decide (mode = CacheModeReadOnly) then
    require (blank (cch_ProtectionRAID c) && no_ids (cch_AddDiskIDs c))
      "converting to read-only accepts only id and target_mode"
  else Err (EText "cache convert target_mode must be read_only or read_write").

Definition validateCacheChange (action : string) (c : CacheChange) : verdict :=
  let no_place := blank (cch_Name c) && blank (cch_VolumeID c) && blank (cch_CacheType c)
                  && no_ids (cch_DiskIDs c) in
  if bool_decide (action = ActionCreate) then
    require (blank (cch_ID c) && no_ids (cch_AddDiskIDs c) && unset (cch_TargetMode c))
      "cache create accepts only name, volume_id, cache_type, disk_ids, and protection_raid";;
    validateStorageName (cch_Name c);;
    require (negb (blank (cch_VolumeID c))) "cache create requires the parent volume_id";;
    validate_cache_mode c
  else if bool_decide (action = ActionUpdate) then
    require (negb (blank (cch_ID c))) "cache expand requires stable id";;
    require (no_place && blank (cch_ProtectionRAID c) && unset (cch_TargetMode c))
      "cache expand accepts only id and add_disk_ids";;
    require (negb (no_ids (cch_AddDiskIDs c)))
      "cache expand requires at least one SSD in add_disk_ids"
  else if bool_decide (action = ActionConvert) then
    require (negb (blank (cch_ID c))) "cache convert requires stable id";;
    match cch_TargetMode c with
    | None => Err (EText "cache convert requires target_mode")
    | Some mode =>
        require no_place
          "cache convert accepts only id, target_mode, add_disk_ids, and protection_raid";;
        validate_target_mode c mode
    end
  else if bool_decide (action = ActionDelete) then
    require (negb (blank (cch_ID c))) "cache delete requires stable id";;
    require (no_place && no_ids (cch_AddDiskIDs c) && blank (cch_ProtectionRAID c)
             && unset (cch_TargetMode c)) "cache delete accepts only stable id"
  else Ok ().

Definition validateStorageRequestShape (r : StorageRequest) : verdict :=
  require (bool_decide (str_Action r ∈ [ActionCreate; ActionUpdate; ActionConvert; ActionDelete]))
    "unsupported storage action";;
  if bool_decide (str_Resource r = ResourcePool) then
    match str_Pool r, str_Volume r, str_Cache r with
    | Some c, None, None => validatePoolChange (str_Action r) c
    | _, _, _ => Err (EText "pool resource requires exactly one pool intent")
    end
  else if bool_decide (str_Resource r = ResourceVolume) then
    match str_Volume r, str_Pool r, str_Cache r with
    | Some c, None, None => validateVolumeChange (str_Action r) c
    | _, _, _ => Err (EText "volume resource requires exactly one volume intent")
    end
  else if bool_decide (str_Resource r = ResourceCache) then
    match str_Cache r, str_Pool r, str_Volume r with
    | Some c, None, None => validateCacheChange (str_Action r) c
    | _, _, _ => Err (EText "cache resource requires exactly one cache intent")
    end
  else Err (EText "unsupported storage resource").

Definition canonicalStorageRequest (r : StorageRequest) : result service_error StorageRequest :=
  pool ← optionally canonical_pool (str_Pool r);
  cache ← optionally canonical_cache (str_Cache r);
  let canonical := {| str_Action := lower_trim (str_Action r);
                      str_Resource := lower_trim (str_Resource r); str_Pool := pool;
                      str_Volume := canonical_volume <$> str_Volume r; str_Cache := cache |} in
  validateStorageRequestShape canonical;;
  Ok canonical.
End request.

(** * Storage topology: what a plan refers to

    Source: internal/application/storage_management.go, [normalizeStorageTopology],
    [validateStorageTopologyReferences], [validateCacheTopologyReferences],
    [validateAvailableDisks] and the lookups by identifier.  [sort.Slice] orders by
    identifiers that are distinct. *)

Record storageTopologyDisk := { td_Disk : string; td_DiskSerial : string; td_SizeBytes : Z }.

Record storageTopologyPool := {
  tp_ID : string;
  tp_Name : string;
  tp_Path : string;
  tp_SpacePath : string;
  tp_RAIDType : string;
  tp_Layout : string;
  tp_DiskIDs : list string;
  tp_SizeBytes : Z
}.

Record storageTopologyVolume := {
  tv_ID : string;
  tv_Name : string;
  tv_PoolID : string;
  tv_FileSystem : string;
  tv_SizeBytes : Z;
  tv_AllocatedBytes : Z;
  tv_MaxFileSystemBytes : Z;
  tv_ReadOnly : bool
}.

Record storageTopologyCache := {
  tc_ID : string;
  tc_VolumeID : string;
  tc_CacheType : string;
  tc_ProtectionRAID : string;
  tc_DiskIDs : list string;
  tc_SizeBytes : Z
}.

Record storageTopology := {
  to_Disks : list storageTopologyDisk;
  to_Pools : list storageTopologyPool;
  to_Volumes : list storageTopologyVolume;
  to_Caches : list storageTopologyCache
}.

(** Entries by their identifier. *)
Definition id_le {A} (id : A → string) (x y : A) : Prop := String.le (id x) (id y).
#[export] Instance id_le_dec {A} (id : A → string) (x y : A) : Decision (id_le id x y).
Proof. unfold id_le. apply _. Defined.

Section topology.
Context `{Unicode}.

Definition topology_disk (d : Disk) : storageTopologyDisk :=
  {| td_Disk := TrimSpace (sd_ID d); td_DiskSerial := sd_Serial d;
     td_SizeBytes := sd_SizeBytes d |}.

(** The loop over one kind of resource: identifiers are not blank and distinct. *)
Fixpoint normalize_each {A B} (id : A → string) (f : A → result service_error B)
    (seen : gset string) (l : list A) : result service_error (list B) :=
  match l with
  | [] => Ok []
  | a :: l =>
      let key := TrimSpace (id a) in
      require (negb (bool_decide (key = ""))) "storage inventory contains an entry without a stable ID";;
      require (bool_decide (key ∉ seen)) "storage inventory contains a duplicate ID";;
      b ← f a;
      rest ← normalize_each id f ({[key]} ∪ seen) l;
      Ok (b :: rest)
  end.

Definition topology_pool (disks : gset string) (p : Pool) :
    result service_error storageTopologyPool :=
  ids ← canonicalIDs (spl_DiskIDs p);
  require (forallb (fun id => bool_decide (id ∈ disks)) ids)
    "pool references unknown stable disk ID";;
  Ok {| tp_ID := TrimSpace (spl_ID p); tp_Name := spl_Name p; tp_Path := TrimSpace (spl_Path p);
        tp_SpacePath := TrimSpace (spl_SpacePath p);
        tp_RAIDType := normalizeObservedRAIDType (spl_RAIDType p);
        tp_Layout := lower_trim (spl_Layout p); tp_DiskIDs := ids;
        tp_SizeBytes := spl_SizeBytes p |}.

Definition topology_volume (pools : gset string) (v : Volume) :
    result service_error storageTopologyVolume :=
  let poolID := TrimSpace (svo_PoolID v) in
  require (bool_decide (poolID = "") || bool_decide (poolID ∈ pools))
    "volume references unknown stable pool ID";;
  Ok {| tv_ID := TrimSpace (svo_ID v); tv_Name := svo_Name v; tv_PoolID := poolID;
        tv_FileSystem := lower_trim (svo_FileSystem v); tv_SizeBytes := svo_SizeBytes v;
        tv_AllocatedBytes := svo_AllocatedBytes v;
        tv_MaxFileSystemBytes := svo_MaxFileSystemBytes v; tv_ReadOnly := svo_ReadOnly v |}.

Definition topology_cache (c : Cache) : result service_error storageTopologyCache :=
  ids ← canonicalIDs (ssc_DiskIDs c);
  Ok {| tc_ID := TrimSpace (ssc_ID c); tc_VolumeID := TrimSpace (ssc_VolumeID c);
        tc_CacheType := ssc_CacheType c;
        tc_ProtectionRAID := normalizeObservedRAIDType (ssc_ProtectionRAID c);
        tc_DiskIDs := ids; tc_SizeBytes := ssc_SizeBytes c |}.

Definition normalizeStorageTopology (s : storage_state) : result service_error storageTopology :=
  disks ← normalize_each sd_ID (fun d => Ok (topology_disk d)) ∅ (sst_Disks s);
  pools ← normalize_each spl_ID (topology_pool (list_to_set (td_Disk <$> disks))) ∅ (sst_Pools s);
  volumes ← normalize_each svo_ID (topology_volume (list_to_set (tp_ID <$> pools))) ∅
              (sst_Volumes s);
  caches ← normalize_each ssc_ID topology_cache ∅ (sst_Caches s);
  Ok {| to_Disks := merge_sort (id_le td_Disk) disks; to_Pools := merge_sort (id_le tp_ID) pools;
        to_Volumes := merge_sort (id_le tv_ID) volumes;
        to_Caches := merge_sort (id_le tc_ID) caches |}.

(** ** Lookups *)

Definition topologyPoolByID (t : storageTopology) (id : string) : option storageTopologyPool :=
  find_first (fun p => bool_decide (tp_ID p = id)) (to_Pools t).
Definition topologyVolumeByID (t : storageTopology) (id : string) : option storageTopologyVolume :=
  find_first (fun v => bool_decide (tv_ID v = id)) (to_Volumes t).
Definition topologyCacheByID (t : storageTopology) (id : string) : option storageTopologyCache :=
  find_first (fun c => bool_decide (tc_ID c = id)) (to_Caches t).

Definition storageDiskByID (s : storage_state) (id : string) : option Disk :=
  find_first (fun d => bool_decide (TrimSpace (sd_ID d) = id)) (sst_Disks s).
Definition storagePoolByID (s : storage_state) (id : string) : option Pool :=
  find_first (fun p => bool_decide (TrimSpace (spl_ID p) = id)) (sst_Pools s).
Definition storageVolumeByID (s : storage_state) (id : string) : option Volume :=
  find_first (fun v => bool_decide (TrimSpace (svo_ID v) = id)) (sst_Volumes s).
Definition storageCacheByID (s : storage_state) (id : string) : option Cache :=
  find_first (fun c => bool_decide (TrimSpace (ssc_ID c) = id)) (sst_Caches s).

(** ** References *)

(** The disks of one pool: none belongs to an earlier pool. *)
Fixpoint occupy (owner : string) (ids : list string) (occupied : gmap string string) :
    result service_error (gmap string string) :=
  match ids with
  | [] => Ok occupied
  | id :: ids =>
      match occupied !! id with
      | Some _ => Err (EText "stable disk ID is assigned to two pools")
      | None => occupy owner ids (<[id := owner]> occupied)
      end
  end.

Fixpoint occupied_disks (pools : list storageTopologyPool) (occupied : gmap string string) :
    result service_error (gmap string string) :=
  match pools with
  | [] => Ok occupied
  | p :: pools =>
      occupied ← occupy (tp_ID p) (tp_DiskIDs p) occupied; occupied_disks pools occupied
  end.

(** The loop over the wanted disks: known, and in no pool. *)
Fixpoint validateAvailableDisks (disks : gset string) (occupied : gmap string string)
    (ids : list string) : verdict :=
  match ids with
  | [] => Ok ()
  | id :: ids =>
      require (bool_decide (id ∈ disks)) "unknown stable disk ID";;
      require (unset (occupied !! id)) "stable disk ID already belongs to pool";;
      validateAvailableDisks disks occupied ids
  end.

(** Disks of caches are taken as well, where no pool has them. *)
Definition occupy_caches (caches : list storageTopologyCache) (occupied : gmap string string) :
    gmap string string :=
  fold_left (fun m c => fold_left (fun m id =>
    match m !! id with Some _ => m | None => <[id := tc_ID c]> m end) (tc_DiskIDs c) m)
    caches occupied.

Definition validateCacheTopologyReferences (t : storageTopology) (disks : gset string)
    (occupied : gmap string string) (action : string) (c : CacheChange) : verdict :=
  let occupied := occupy_caches (to_Caches t) occupied in
  if bool_decide (action = ActionCreate) then
    require (negb (unset (topologyVolumeByID t (cch_VolumeID c)))) "volume does not exist";;
    require (negb (bool_decide (cch_VolumeID c ∈ tc_VolumeID <$> to_Caches t)))
      "volume already has an SSD cache";;
    validateAvailableDisks disks occupied (cch_DiskIDs c)
  else
    cache ← found (topologyCacheByID t (cch_ID c)) "SSD cache does not exist";
    validateAvailableDisks disks occupied (cch_AddDiskIDs c);;
    if bool_decide (action = ActionConvert) then
      match cch_TargetMode c with
      | None => nil_object
      | Some mode =>
          require (negb (negb (blank (tc_CacheType cache)) && bool_decide (tc_CacheType cache = mode)))
            "cache already has this mode";;
          if bool_decide (mode = CacheModeReadWrite) && negb (blank (cch_ProtectionRAID c))
          then validateRAIDDiskCount (cch_ProtectionRAID c)
                 (count (tc_DiskIDs cache) + count (cch_AddDiskIDs c))
          else Ok ()
      end
    else Ok ().

Definition pool_references (t : storageTopology) (disks : gset string)
    (occupied : gmap string string) (action : string) (c : PoolChange) : verdict :=
  if bool_decide (action = ActionCreate) then
    require (negb (existsb (fun p => EqualFold (tp_Name p) (plc_Name c)) (to_Pools t)))
      "storage pool already exists";;
    validateAvailableDisks disks occupied (plc_DiskIDs c)
  else
    pool ← found (topologyPoolByID t (plc_ID c)) "storage pool does not exist";
    if bool_decide (action = ActionUpdate) then
      validateAvailableDisks disks occupied (plc_AddDiskIDs c);;
      match plc_TargetRAIDType c with
      | None => Ok ()
      | Some target =>
          require (negb (bool_decide (normalizeObservedRAIDType (tp_RAIDType pool) = target)
                         && no_ids (plc_AddDiskIDs c))) "pool already uses this RAID type";;
          validateRAIDDiskCount target (count (tp_DiskIDs pool) + count (plc_AddDiskIDs c))
      end
    else Ok ().

Definition volume_references (t : storageTopology) (action : string) (c : VolumeChange) : verdict :=
  if bool_decide (action = ActionCreate) then
    require (negb (unset (topologyPoolByID t (vch_PoolID c)))) "storage pool does not exist";;
    require (negb (existsb (fun v => EqualFold (tv_Name v) (vch_Name c)) (to_Volumes t)))
      "volume already exists"
  else
    volume ← found (topologyVolumeByID t (vch_ID c)) "volume does not exist";
    let observed := if tv_AllocatedBytes volume =? 0 then tv_SizeBytes volume
                    else tv_AllocatedBytes volume in
    if bool_decide (action = ActionUpdate) then
      match vch_ExpandTo c with
      | None => nil_object
      | Some p =>
          require (negb (bool_decide (cpp_Mode p = CapacityExact) && (cpp_SizeBytes p <=? observed)))
            "volume expansion exact size must exceed observed allocated size"
      end
    else Ok ().

Definition validateStorageTopologyReferences (t : storageTopology) (r : StorageRequest) :
    verdict :=
  let disks : gset string := list_to_set (td_Disk <$> to_Disks t) in
  occupied ← occupied_disks (to_Pools t) ∅;
  if bool_decide (str_Resource r = ResourceCache) then
    match str_Cache r with
    | Some c => validateCacheTopologyReferences t disks occupied (str_Action r) c
    | None => nil_object
    end
  else if bool_decide (str_Resource r = ResourcePool) then
    match str_Pool r with
    | Some c => pool_references t disks occupied (str_Action r) c
    | None => nil_object
    end
  else
    match str_Volume r with
    | Some c => volume_references t (str_Action r) c
    | None => nil_object
    end.
End topology.

(** * Storage safety: what the observed state allows

    Source: internal/application/storage_management.go, [validateStorageMutationSafety] and
    what it calls, the status words, and [storageSafetyFingerprint].  Sizes are uint64: the
    additions are checked, and the rest only divides or compares. *)

Section safety.
Context `{Unicode}.

(** ** Status words *)

Definition healthyStorageStatus (v : string) : bool :=
  bool_decide (lower_trim v ∈ ["normal"; "healthy"]).
Definition backgroundStorageStatus (v : string) : bool :=
  bool_decide (lower_trim v ∈ ["background_optimizing"; "background_optimize"; "raid_syncing";
                               "syncing"; "expanding"]).
Definition failedStorageStatus (v : string) : bool :=
  bool_decide (lower_trim v ∈ ["crashed"; "broken"; "failed"; "failure"; "unavailable";
                               "critical"; "degraded"]) || blank (TrimSpace v).
Definition healthyPoolDiskStatus (v : string) : bool :=
  EqualFold (TrimSpace v) "sys_partition_normal" || healthyStorageStatus v.

(** ** Disks *)

Definition zero_disk : Disk := {|
  sd_ID := ""; sd_Name := ""; sd_Device := ""; sd_Slot := ""; sd_Vendor := ""; sd_Model := "";
  sd_Serial := ""; sd_Firmware := ""; sd_Type := ""; sd_Interface := ""; sd_Status := "";
  sd_Health := ""; sd_SMARTStatus := ""; sd_UsedBy := ""; sd_InUse := false;
  sd_Selectable := false; sd_Compatibility := ""; sd_SizeBytes := 0; sd_TemperatureC := None |}.

(** A disk that something uses. *)
Definition used (d : Disk) : bool :=
  let usedBy := TrimSpace (sd_UsedBy d) in
  sd_InUse d || (negb (blank usedBy) && negb (EqualFold usedBy "unused")).

Definition smart_ok (d : Disk) : bool :=
  bool_decide (lower_trim (sd_SMARTStatus d) ∈ [""; "normal"; "healthy"; "passed"; "pass"]).

Definition compatible (d : Disk) : bool :=
  bool_decide (lower_trim (sd_Compatibility d) ∈ ["support"; "supported"; "compatible"]).

Definition validatePoolCandidateDisk (d : Disk) (allowUnsupported : bool) : verdict :=
  require (negb (blank (TrimSpace (sd_ID d)))) "disk is missing from normalized inventory";;
  require (negb (used d)) "disk is already used";;
  require (sd_Selectable d) "DSM does not report the disk selectable";;
  require (healthyPoolDiskStatus (sd_Status d) && healthyStorageStatus (sd_Health d))
    "disk status or health is not normal or healthy";;
  require (smart_ok d) "SMART status";;
  require (allowUnsupported || compatible d) "drive compatibility".

Definition validateCacheCandidateDisk (d : Disk) : verdict :=
  require (negb (blank (TrimSpace (sd_ID d)))) "disk is missing from normalized inventory";;
  require (EqualFold (TrimSpace (sd_Type d)) "ssd") "disk media is not SSD";;
  require (negb (used d)) "SSD is already used";;
  require (sd_Selectable d) "DSM does not report the SSD selectable";;
  require (healthyStorageStatus (sd_Health d)) "SSD health is not normal or healthy";;
  require (smart_ok d) "SMART status".

(** [disks[diskID]]: the last disk of the identifier. *)
Definition disk_entry (s : storage_state) (id : string) : Disk :=
  default zero_disk (find_first (fun d => bool_decide (TrimSpace (sd_ID d) = id))
                       (reverse (sst_Disks s))).

Fixpoint candidate_disks (s : storage_state) (allowUnsupported : bool) (ids : list string) :
    verdict :=
  match ids with
  | [] => Ok ()
  | id :: ids =>
      validatePoolCandidateDisk (disk_entry s id) allowUnsupported;;
      candidate_disks s allowUnsupported ids
  end.

Fixpoint cache_disks (s : storage_state) (ids : list string) : verdict :=
  match ids with
  | [] => Ok ()
  | id :: ids =>
      d ← found (storageDiskByID s id) "stable disk ID is missing from observed state";
      validateCacheCandidateDisk d;;
      cache_disks s ids
  end.

(** ** Pools *)

Definition applicablePoolRAIDTypes (c : PoolCreationConstraints) (diskCount : Z) : list string :=
  let candidates := [RAIDBasic; RAID0; RAID1; RAID5; RAID6; RAID10; RAIDJBOD] in
  let candidates := if pcc_SupportsSHR c then [RAIDSHR; RAIDSHR2] ++ candidates
                    else candidates in
  base.filter (fun t => raid_count_ok t diskCount = true) candidates.

(** The pool that a plan refers to; the zero pool when there is none. *)
Definition zero_pool : Pool := {|
  spl_ID := ""; spl_Name := ""; spl_Path := ""; spl_SpacePath := ""; spl_RAIDType := "";
  spl_Layout := ""; spl_Status := ""; spl_Health := ""; spl_SizeBytes := 0; spl_UsedBytes := 0;
  spl_AvailableBytes := 0; spl_DiskIDs := []; spl_Writable := false; spl_Actioning := false;
  spl_Compatible := false; spl_CanCreateVolume := false; spl_CanExpand := false;
  spl_CanDelete := false; spl_MaxDiskCount := 0 |}.

(** The limit of disks, when DSM reports one. *)
Definition within_limit (limit n : Z) : bool := negb ((0 <? limit) && (limit <? n)).

Definition pool_safety (s : storage_state) (t : storageTopology) (action : string)
    (c : PoolChange) : result service_error (list string) :=
  let selected := if bool_decide (action = ActionUpdate) then plc_AddDiskIDs c
                  else plc_DiskIDs c in
  candidate_disks s (plc_AllowUnsupportedDisks c) selected;;
  if bool_decide (action = ActionCreate) then
    let applicable := applicablePoolRAIDTypes (sst_PoolCreation s) (count (plc_DiskIDs c)) in
    require (bool_decide (plc_RAIDType c ∈ applicable)) "RAID type is not applicable";;
    Ok applicable
  else if bool_decide (action = ActionUpdate) then
    let pool := topologyPoolByID t (plc_ID c) in
    let id := match pool with Some p => tp_ID p | None => "" end in
    let members := match pool with Some p => tp_DiskIDs p | None => [] end in
    let observed := default zero_pool (storagePoolByID s id) in
    require (negb (spl_Actioning observed)) "storage pool already has an action in progress";;
    require (spl_Writable observed) "storage pool is not writable";;
    require (spl_CanExpand observed) "DSM does not report add-disk expansion available";;
    require (within_limit (spl_MaxDiskCount observed) (count members + count (plc_AddDiskIDs c)))
      "pool expansion would exceed the disk limit";;
    Ok []
  else if bool_decide (action = ActionDelete) then
    let pool := default zero_pool (storagePoolByID s (plc_ID c)) in
    require (negb (spl_Actioning pool)) "storage pool already has an action in progress";;
    require (spl_CanDelete pool) "DSM does not report deletion available";;
    require (healthyStorageStatus (spl_Status pool) && healthyStorageStatus (spl_Health pool))
      "storage pool status or health is not normal or healthy";;
    Ok []
  else Ok [].

(** ** Volumes *)

Definition GiB : Z := 2 ^ 30.

(** [value] bounded by each limit that is positive. *)
Definition min_limit (value limit : Z) : Z :=
  if (0 <? limit) && ((value =? 0) || (limit <? value)) then limit else value.
Definition minimumPositive (value : Z) (limits : list Z) : Z := fold_left min_limit limits value.

Definition checkedAddBytes (left right : Z) : result service_error Z :=
  if 2 ^ 64 - 1 - left <? right then Err (EText "byte capacity overflow") else Ok (left + right).

Definition resolveVolumeCapacity (p : CapacityPolicy) (minimum maximum : Z) :
    result service_error Z :=
  require (negb ((minimum =? 0) || (maximum =? 0)))
    "DSM did not report usable minimum/maximum volume capacity";;
  let maximum := maximum / GiB * GiB in
  require (minimum <=? maximum) "maximum allocatable volume capacity is below minimum";;
  if bool_decide (cpp_Mode p = CapacityMaximum) then Ok maximum else
  require (cpp_SizeBytes p mod GiB =? 0) "exact volume capacity must be a whole GiB value";;
  require (minimum <=? cpp_SizeBytes p) "exact volume capacity is below minimum";;
  require (cpp_SizeBytes p <=? maximum) "exact volume capacity exceeds the maximum";;
  Ok (cpp_SizeBytes p).

Definition usable_status (v : string) : bool :=
  healthyStorageStatus v || backgroundStorageStatus v.

Definition validateVolumePoolForMutation (p : Pool) (create : bool) : verdict :=
  require (negb (spl_Actioning p)) "storage pool already has an action in progress";;
  require (spl_Writable p) "storage pool is not writable";;
  require (usable_status (spl_Status p) && usable_status (spl_Health p))
    "storage pool status or health is not usable";;
  require (negb create || spl_Compatible p) "DSM does not report storage pool compatible";;
  require (negb create || spl_CanCreateVolume p) "DSM does not report volume creation available".

Definition create_volume_safety (s : storage_state) (pool : Pool) (c : VolumeChange) :
    result service_error Z :=
  require (bool_decide (vch_FileSystem c ∈ vcc_SupportedFileSystems (sst_VolumeCreation s)))
    "filesystem is not advertised by this DSM model";;
  validateVolumePoolForMutation pool true;;
  let single := bool_decide (spl_Layout pool = "single") in
  require (single || bool_decide (spl_Layout pool = "multiple")) "unsupported volume layout";;
  match vch_Capacity c with
  | None => nil_object
  | Some policy =>
      require (negb single || negb (blank (spl_SpacePath pool))) "missing stable DSM space_path";;
      require (negb single || bool_decide (cpp_Mode policy = CapacityMaximum))
        "single-volume pool supports only the maximum capacity policy";;
      require (single || negb (blank (spl_Path pool))) "missing stable DSM pool_path";;
      let maximum := if single then spl_SizeBytes pool else spl_AvailableBytes pool in
      let maximum := minimumPositive maximum [vcc_MaxFileSystemBytes (sst_VolumeCreation s)] in
      resolveVolumeCapacity policy (vcc_MinimumSizeBytes (sst_VolumeCreation s)) maximum
  end.

Definition healthy_volume (v : Volume) : bool :=
  healthyStorageStatus (svo_Status v) && healthyStorageStatus (svo_Health v).

Definition expand_volume_safety (s : storage_state) (pool : Pool) (v : Volume)
    (c : VolumeChange) : result service_error Z :=
  require (negb (svo_Actioning v)) "volume already has an action in progress";;
  require (negb (svo_ReadOnly v || negb (svo_Writable v))) "volume is not writable";;
  require (svo_CanExpand v) "DSM does not report expansion available";;
  require (healthy_volume v) "volume status or health is not normal or healthy";;
  validateVolumePoolForMutation pool false;;
  require (negb (svo_AllocatedBytes v =? 0)) "volume is missing its allocated device size";;
  match vch_ExpandTo c with
  | None => nil_object
  | Some policy =>
      require (negb (svo_SingleVolume v) || bool_decide (cpp_Mode policy = CapacityMaximum))
        "single-volume expansion supports only the maximum capacity policy";;
      maximum ← checkedAddBytes (svo_AllocatedBytes v) (spl_AvailableBytes pool);
      let maximum := minimumPositive maximum [svo_MaxFileSystemBytes v] in
      let maximum := minimumPositive maximum [vcc_MaxFileSystemBytes (sst_VolumeCreation s)] in
      minimumExpansion ← checkedAddBytes (svo_AllocatedBytes v) 1;
      resolved ← resolveVolumeCapacity policy minimumExpansion maximum;
      require (svo_AllocatedBytes v <? resolved)
        "volume has no allocatable capacity for expansion";;
      Ok resolved
  end.

Definition delete_volume_safety (v : Volume) : result service_error Z :=
  require (negb (svo_Actioning v)) "volume already has an action in progress";;
  require (svo_CanDelete v) "DSM does not report deletion available";;
  require (healthy_volume v) "volume status or health is not normal or healthy";;
  Ok 0.

Definition validateVolumeMutationSafety (s : storage_state) (action : string)
    (c : VolumeChange) : result service_error Z :=
  let pool id := found (storagePoolByID s id) "parent storage pool is missing" in
  if bool_decide (action = ActionCreate) then
    pool ← pool (vch_PoolID c); create_volume_safety s pool c
  else
    volume ← found (storageVolumeByID s (vch_ID c)) "volume is missing";
    pool ← pool (svo_PoolID volume);
    if bool_decide (action = ActionUpdate) then expand_volume_safety s pool volume c
    else if bool_decide (action = ActionDelete) then delete_volume_safety volume
    else Ok 0.

(** ** Caches *)

Definition create_cache_safety (s : storage_state) (c : CacheChange) : verdict :=
  volume ← found (storageVolumeByID s (cch_VolumeID c)) "parent volume is missing";
  require (negb (svo_ReadOnly volume || negb (svo_Writable volume))) "parent volume is not writable";;
  require (negb (svo_Actioning volume)) "parent volume already has an action in progress";;
  require (healthy_volume volume) "parent volume status or health is not normal or healthy";;
  cache_disks s (cch_DiskIDs c);;
  let limits := sst_CacheCreation s in
  require (within_limit (ccc_MaxDisks limits) (count (cch_DiskIDs c))) "too many SSDs";;
  if bool_decide (cch_CacheType c = CacheModeReadOnly) then
    require (ccc_SupportsReadOnly limits) "no read-only SSD cache support"
  else if bool_decide (cch_CacheType c = CacheModeReadWrite) then
    require (ccc_SupportsReadWrite limits && ccc_SupportsProtection limits)
      "read-write SSD cache requires the RAID protection backend"
  else Ok ().

Definition validateCacheMutationSafety (s : storage_state) (action : string) (c : CacheChange) :
    verdict :=
  if bool_decide (action = ActionCreate) then create_cache_safety s c else
  cache ← found (storageCacheByID s (cch_ID c)) "SSD cache is missing from observed state";
  require (negb (ssc_Actioning cache || ssc_Flushing cache))
    "SSD cache already has an action in progress";;
  if bool_decide (action = ActionDelete) then Ok () else
  cache_disks s (cch_AddDiskIDs c);;
  if bool_decide (action = ActionConvert) then
    match cch_TargetMode c with
    | None => nil_object
    | Some mode =>
        require (negb (bool_decide (mode = CacheModeReadWrite))
                 || ccc_SupportsProtection (sst_CacheCreation s))
          "read-write SSD cache requires the RAID protection backend"
    end
  else Ok ().

(** The applicable RAID types and the resolved capacity. *)
Definition validateStorageMutationSafety (s : storage_state) (t : storageTopology)
    (r : StorageRequest) : result service_error (list string * Z) :=
  if bool_decide (str_Resource r = ResourceCache) then
    match str_Cache r with
    | Some c => validateCacheMutationSafety s (str_Action r) c;; Ok ([], 0)
    | None => nil_object
    end
  else if bool_decide (str_Resource r = ResourceVolume) then
    match str_Volume r with
    | Some c => resolved ← validateVolumeMutationSafety s (str_Action r) c; Ok ([], resolved)
    | None => nil_object
    end
  else
    match str_Pool r with
    | Some c => applicable ← pool_safety s t (str_Action r) c; Ok (applicable, 0)
    | None => nil_object
    end.
End safety.

(** ** What a safety fingerprint covers *)

Record storageSafetyDisk := {
  zd_ID : string;
  zd_Status : string;
  zd_Health : string;
  zd_SMARTStatus : string;
  zd_UsedBy : string;
  zd_InUse : bool;
  zd_Selectable : bool;
  zd_Compatibility : string;
  zd_Serial : string;
  zd_Firmware : string;
  zd_SizeBytes : Z
}.

Record storageSafetyPool := {
  zp_ID : string;
  zp_RAIDType : string;
  zp_Status : string;
  zp_Health : string;
  zp_DiskIDs : list string;
  zp_Writable : bool;
  zp_Actioning : bool;
  zp_CanExpand : bool;
  zp_CanDelete : bool;
  zp_Compatible : bool;
  zp_CanCreateVolume : bool;
  zp_SizeBytes : Z;
  zp_UsedBytes : Z;
  zp_AvailableBytes : Z;
  zp_Path : string;
  zp_SpacePath : string;
  zp_Layout : string;
  zp_MaxDiskCount : Z
}.

Record storageSafetyVolume := {
  zv_ID : string;
  zv_PoolID : string;
  zv_FileSystem : string;
  zv_Status : string;
  zv_Health : string;
  zv_ReadOnly : bool;
  zv_Writable : bool;
  zv_Actioning : bool;
  zv_SingleVolume : bool;
  zv_CanExpand : bool;
  zv_CanDelete : bool;
  zv_AllocatedBytes : Z;
  zv_MaxFileSystemBytes : Z
}.

Record storageSafetyCache := {
  zc_ID : string;
  zc_VolumeID : string;
  zc_CacheType : string;
  zc_ProtectionRAID : string;
  zc_Status : string;
  zc_Health : string;
  zc_ProtectionStatus : string;
  zc_DiskIDs : list string;
  zc_HasDirtyData : bool;
  zc_Flushing : bool;
  zc_Actioning : bool;
  zc_CanDelete : bool;
  zc_SizeBytes : Z
}.

Record storageSafetyObservation := {
  zo_PoolCreation : PoolCreationConstraints;
  zo_VolumeCreation : VolumeCreationConstraints;
  zo_CacheCreation : option CacheCreationConstraints;
  zo_Disks : list storageSafetyDisk;
  zo_Pool : option storageSafetyPool;
  zo_Volume : option storageSafetyVolume;
  zo_Cache : option storageSafetyCache
}.

Section observation.
Context `{Unicode}.

Definition safety_disk (d : Disk) : storageSafetyDisk := {|
  zd_ID := sd_ID d; zd_Status := sd_Status d; zd_Health := sd_Health d;
  zd_SMARTStatus := sd_SMARTStatus d; zd_UsedBy := sd_UsedBy d; zd_InUse := sd_InUse d;
  zd_Selectable := sd_Selectable d; zd_Compatibility := sd_Compatibility d;
  zd_Serial := sd_Serial d; zd_Firmware := sd_Firmware d; zd_SizeBytes := sd_SizeBytes d |}.

Definition storageSafetyPoolObservation (p : Pool) : storageSafetyPool := {|
  zp_ID := spl_ID p; zp_RAIDType := normalizeObservedRAIDType (spl_RAIDType p);
  zp_Status := spl_Status p; zp_Health := spl_Health p;
  zp_DiskIDs := sort_strings (spl_DiskIDs p); zp_Writable := spl_Writable p;
  zp_Actioning := spl_Actioning p; zp_CanExpand := spl_CanExpand p;
  zp_CanDelete := spl_CanDelete p; zp_Compatible := spl_Compatible p;
  zp_CanCreateVolume := spl_CanCreateVolume p; zp_SizeBytes := spl_SizeBytes p;
  zp_UsedBytes := spl_UsedBytes p; zp_AvailableBytes := spl_AvailableBytes p;
  zp_Path := spl_Path p; zp_SpacePath := spl_SpacePath p; zp_Layout := spl_Layout p;
  zp_MaxDiskCount := spl_MaxDiskCount p |}.

Definition safety_volume (v : Volume) : storageSafetyVolume := {|
  zv_ID := svo_ID v; zv_PoolID := svo_PoolID v; zv_FileSystem := svo_FileSystem v;
  zv_Status := svo_Status v; zv_Health := svo_Health v; zv_ReadOnly := svo_ReadOnly v;
  zv_Writable := svo_Writable v; zv_Actioning := svo_Actioning v;
  zv_SingleVolume := svo_SingleVolume v; zv_CanExpand := svo_CanExpand v;
  zv_CanDelete := svo_CanDelete v; zv_AllocatedBytes := svo_AllocatedBytes v;
  zv_MaxFileSystemBytes := svo_MaxFileSystemBytes v |}.

Definition safety_cache (c : Cache) : storageSafetyCache := {|
  zc_ID := ssc_ID c; zc_VolumeID := ssc_VolumeID c; zc_CacheType := ssc_CacheType c;
  zc_ProtectionRAID := normalizeObservedRAIDType (ssc_ProtectionRAID c);
  zc_Status := ssc_Status c; zc_Health := ssc_Health c;
  zc_ProtectionStatus := ssc_ProtectionStatus c; zc_DiskIDs := sort_strings (ssc_DiskIDs c);
  zc_HasDirtyData := ssc_HasDirtyData c; zc_Flushing := ssc_Flushing c;
  zc_Actioning := ssc_Actioning c; zc_CanDelete := ssc_CanDelete c;
  zc_SizeBytes := ssc_SizeBytes c |}.

Definition safety_disks (s : storage_state) (ids : list string) :
    result service_error (list storageSafetyDisk) :=
  disks ← observe (fun id => d ← found (storageDiskByID s id) "stable disk ID disappeared";
                             Ok (safety_disk d)) ids;
  Ok (merge_sort (id_le zd_ID) disks).

Definition observation (s : storage_state) (cacheCreation : option CacheCreationConstraints)
    (disks : list storageSafetyDisk) (pool : option storageSafetyPool)
    (volume : option storageSafetyVolume) (cache : option storageSafetyCache) :
    storageSafetyObservation := {|
  zo_PoolCreation := sst_PoolCreation s; zo_VolumeCreation := sst_VolumeCreation s;
  zo_CacheCreation := cacheCreation; zo_Disks := disks; zo_Pool := pool; zo_Volume := volume;
  zo_Cache := cache |}.

Definition cache_observation (s : storage_state) (action : string) (c : CacheChange) :
    result service_error storageSafetyObservation :=
  let create := bool_decide (action = ActionCreate) in
  disks ← safety_disks s (if create then cch_DiskIDs c else cch_AddDiskIDs c);
  cache ← (if create then Ok None else
           cache ← found (storageCacheByID s (cch_ID c)) "SSD cache disappeared";
           Ok (Some cache));
  let volumeID := match cache with Some cache => ssc_VolumeID cache | None => cch_VolumeID c end in
  Ok (observation s (Some (sst_CacheCreation s)) disks None
        (safety_volume <$> storageVolumeByID s volumeID) (safety_cache <$> cache)).

Definition volume_observation (s : storage_state) (action : string) (c : VolumeChange) :
    result service_error storageSafetyObservation :=
  volume ← (if bool_decide (action = ActionCreate) then Ok None else
            volume ← found (storageVolumeByID s (vch_ID c)) "volume disappeared";
            Ok (Some volume));
  let poolID := match volume with Some v => svo_PoolID v | None => vch_PoolID c end in
  pool ← found (storagePoolByID s poolID) "storage pool disappeared";
  Ok (observation s None [] (Some (storageSafetyPoolObservation pool)) (safety_volume <$> volume)
        None).

Definition pool_observation (s : storage_state) (action : string) (c : PoolChange) :
    result service_error storageSafetyObservation :=
  disks ← safety_disks s (if bool_decide (action = ActionUpdate) then plc_AddDiskIDs c
                          else plc_DiskIDs c);
  pool ← (if bool_decide (action = ActionCreate) then Ok None else
          pool ← found (storagePoolByID s (plc_ID c)) "storage pool disappeared";
          Ok (Some pool));
  Ok (observation s None disks (storageSafetyPoolObservation <$> pool) None None).

(** [storageSafetyFingerprint], before it is hashed. *)
Definition safety_observation (s : storage_state) (r : StorageRequest) :
    result service_error storageSafetyObservation :=
  let nothing := Ok (observation s None [] None None None) in
  if bool_decide (str_Resource r = ResourceCache) && negb (unset (str_Cache r)) then
    match str_Cache r with Some c => cache_observation s (str_Action r) c | None => nothing end
  else if bool_decide (str_Resource r = ResourceVolume) && negb (unset (str_Volume r)) then
    match str_Volume r with Some c => volume_observation s (str_Action r) c | None => nothing end
  else if bool_decide (str_Resource r = ResourcePool) then
    match str_Pool r with Some c => pool_observation s (str_Action r) c | None => nothing end
  else nothing.
End observation.
