(* ===== verification/StorageWire.v ===== *)
(** * The wire form of the storage inventory

    Source: internal/synology/operations/storageinventory/decode.go and the decoder of
    storagemodelconstraints/operation.go.  Numbers are decoded with [UseNumber], so that no
    [float64] occurs in a decoded value.  The parsing of floating-point text
    ([strconv.ParseFloat]) is the class [Floats]: the conversion to uint64 of a value that
    is not negative.  Of a temperature the text is kept. *)

From S2P Require Import Prelude.
From S2P Require Import GoStrings.
From S2P Require Import Json.
From S2P Require Import DsmErrors.
From S2P Require Import Identity.
From S2P Require Import IdentityWire.
From S2P Require Import Storage.

Class Floats := {
  (** [uint64(v)] where [v, err := strconv.ParseFloat(s, 64); err == nil && v >= 0] *)
  float_uint64 : string → option Z;
  (** [err == nil] *)
  float_parses : string → bool
}.

Definition volumeMinimumBytes : Z := 10 * 2 ^ 30.
Definition volumeExpandMinimumBytes : Z := 2 ^ 30.

(** [int(v)] of a uint64. *)
Definition int_of_uint64 (v : Z) : Z := if v <? 2 ^ 63 then v else v - 2 ^ 64.

(** ** Values *)

Fixpoint first_value {A} (f : json → option A) (m : object) (keys : list string) : option A :=
  match keys with
  | [] => None
  | k :: keys =>
      match obj_get m k ≫= f with
      | Some a => Some a
      | None => first_value f m keys
      end
  end.

Definition objectValue (m : object) (keys : list string) : option object :=
  first_value is_object m keys.

Definition object_list (m : object) (keys : list string) : list object :=
  omap is_object (default [] (first_value (fun v => as_array (Some v)) m keys)).

Definition string_of (v : json) : option string :=
  match v with JString s => Some s | JNumber n => Some n | _ => None end.
Definition stringValue (m : object) (keys : list string) : string :=
  default "" (first_value string_of m keys).

Definition boolValue : object → list string → bool := boolOf ["1"].

Definition firstNonEmpty (x y : string) : string := if bool_decide (x = "") then y else x.

(** The elements of the first array: texts, and the identifiers of objects. *)
Definition list_item (v : json) : option string :=
  match v with
  | JString s => Some s
  | JObject m =>
      let id := stringValue m ["id"; "disk_id"; "device"] in
      if bool_decide (id = "") then None else Some id
  | _ => None
  end.
Definition stringList (m : object) (keys : list string) : list string :=
  omap list_item (default [] (first_value (fun v => as_array (Some v)) m keys)).

(** ** Paths of volumes *)

(** A number without leading zeros up to the end of the text, after a prefix. *)
Definition number_after (prefix s : string) : option string :=
  if HasPrefix s prefix then
    match bytes (TrimPrefix s prefix) with
    | a :: l => if in_range 49 57 a && forallb is_digit l
                then Some (TrimPrefix s prefix) else None
    | [] => None
    end
  else None.

Definition volumeIDPattern : string → option string := number_after "volume_".
Definition volumePathPattern : string → option string := number_after "/volume".

Definition normalizedVolumePath (id explicit : string) : string :=
  let idMatch := volumeIDPattern id in
  if bool_decide (explicit = "") then
    match idMatch with Some n => "/volume" +:+ n | None => "" end
  else
    match volumePathPattern explicit, idMatch with
    | None, _ => ""
    | Some p, Some n => if bool_decide (n = p) then explicit else ""
    | Some _, None => explicit
    end.

Section decode.
Context `{Unicode, Floats}.

Definition uint_text (s : string) : option Z :=
  match number_uint s with Some v => Some v | None => float_uint64 s end.
Definition uint_of (v : json) : option Z :=
  match v with JNumber s | JString s => uint_text s | _ => None end.
Definition uint64Value (m : object) (keys : list string) : Z :=
  default 0 (first_value uint_of m keys).

(** The first text or number decides, whether it parses or not. *)
Definition float64Value (m : object) (keys : list string) : option string :=
  match first_value string_of m keys with
  | Some s => if float_parses s then Some s else None
  | None => None
  end.

Definition compatible_word (s : string) : bool :=
  bool_decide (ToLower (TrimSpace s) ∈ ["1"; "true"; "normal"; "support"; "supported";
                                        "compatible"]).
Definition compatible_of (v : json) : option bool :=
  match v with
  | JBool b => Some b
  | JNumber n => Some (negb (bool_decide (n = "0")))
  | JString s => Some (compatible_word s)
  | JObject m => Some (boolValue m ["compatible"; "is_compatible"; "valid"])
  | _ => None
  end.
Definition compatibilityValue (m : object) (keys : list string) : bool :=
  default false (first_value compatible_of m keys).

(** Total, used and available: of the resource itself, then of its [size]. *)
Definition sizeValues (m : object) : Z * Z * Z :=
  let nested := match obj_get m "size" with Some (JObject n) => Some n | _ => None end in
  let pick v keys :=
    match nested with
    | Some n => if v =? 0 then uint64Value n keys else v
    | None => v
    end in
  (pick (uint64Value m ["size_total"; "size_total_byte"; "total_size"; "sizeTotal"; "totalSize";
                        "capacity"]) ["total"; "size_total"; "total_size"],
   pick (uint64Value m ["size_used"; "size_used_byte"; "used_size"; "sizeUsed"; "used"])
        ["used"; "size_used"; "used_size"],
   pick (uint64Value m ["size_free"; "size_free_byte"; "available_size"; "sizeAvailable";
                        "available"; "free"])
        ["free"; "available"; "size_free"; "available_size"]).

(** The free space, where DSM reports none: what is not used. *)
Definition free_space (size used available : Z) : Z :=
  if (available =? 0) && (used <=? size) then size - used else available.

Definition health_of (m : object) (status : string) : string :=
  firstNonEmpty (stringValue m ["health"; "health_status"; "overview_status"]) status.

(** A flag of the actions that DSM reports possible. *)
Definition can_do (m : object) (groups flags : list string) : bool :=
  match objectValue m groups with Some actions => boolValue actions flags | None => false end.

(** ** Resources *)

Definition media_type (m : object) : string :=
  let mediaType := stringValue m ["type"; "disk_type"; "media_type"] in
  if negb (bool_decide (mediaType = "")) then mediaType
  else if bool_decide (is_Some (obj_get m "isSsd")) then
    if boolValue m ["isSsd"; "is_ssd"] then "SSD" else "HDD"
  else stringValue m ["diskType"].

Definition decodeDisk (m : object) : Disk :=
  let status := stringValue m ["status"; "disk_status"] in
  let usedBy := stringValue m ["used_by"; "usedBy"] in {|
  sd_ID := stringValue m ["id"; "disk_id"; "device"];
  sd_Name := stringValue m ["name"; "longName"; "display_name"];
  sd_Device := stringValue m ["device"; "dev_name"; "path"];
  sd_Slot := stringValue m ["slot"; "slot_id"; "bay"; "bay_id"; "num_id"];
  sd_Vendor := stringValue m ["vendor"; "brand"];
  sd_Model := stringValue m ["model"; "model_name"];
  sd_Serial := stringValue m ["serial"; "serial_number"];
  sd_Firmware := stringValue m ["firm"; "firmware"; "firmware_version"];
  sd_Type := media_type m;
  sd_Interface := stringValue m ["portType"; "port_type"; "interface"; "diskType"];
  sd_Status := status;
  sd_Health := health_of m status;
  sd_SMARTStatus := stringValue m ["smart_status"; "smartStatus"; "smart"];
  sd_UsedBy := usedBy;
  sd_InUse := negb (bool_decide (TrimSpace usedBy = ""))
              && negb (EqualFold (TrimSpace usedBy) "unused");
  sd_Selectable := can_do m ["action"] ["selectable"];
  sd_Compatibility := stringValue m ["compatibility"; "compatibility_status"];
  sd_SizeBytes := uint64Value m ["size_total"; "total_size"; "sizeTotal"; "totalSize"; "capacity"];
  sd_TemperatureC := float64Value m ["temp"; "temperature"; "temperature_c"] |}.

(** RAID type and layout: an older inventory has one field for both. *)
Definition pool_raid (m : object) : string * string :=
  let layout := ToLower (stringValue m ["raidType"; "layout"]) in
  let raidType := stringValue m ["device_type"; "raid_type"; "raid"] in
  if bool_decide (raidType = "") && negb (bool_decide (layout ∈ ["single"; "multiple"]))
  then (layout, "") else (raidType, layout).

Definition decodePool (m : object) : Pool :=
  let status := stringValue m ["status"; "pool_status"] in
  let '(size, used, available) := sizeValues m in
  let '(raidType, layout) := pool_raid m in {|
  spl_ID := stringValue m ["id"; "pool_id"; "pool_path"; "num_id"];
  spl_Name := stringValue m ["name"; "display_name"; "desc"];
  spl_Path := stringValue m ["pool_path"; "poolPath"];
  spl_SpacePath := stringValue m ["space_path"; "spacePath"];
  spl_RAIDType := raidType;
  spl_Layout := layout;
  spl_Status := status;
  spl_Health := health_of m status;
  spl_SizeBytes := size;
  spl_UsedBytes := used;
  spl_AvailableBytes := free_space size used available;
  spl_DiskIDs := stringList m ["disk_ids"; "diskIds"; "disks"; "drives"];
  spl_Writable := boolValue m ["is_writable"; "writable"];
  spl_Actioning := boolValue m ["is_actioning"; "actioning"];
  spl_Compatible := compatibilityValue m ["compatibility"; "is_compatible"];
  spl_CanCreateVolume := false;
  spl_CanExpand := can_do m ["can_do"; "canDo"] ["expand_by_disk"; "expandByDisk"];
  spl_CanDelete := can_do m ["can_do"; "canDo"] ["delete"; "remove"];
  spl_MaxDiskCount := int_of_uint64 (uint64Value m ["limited_disk_number"; "max_disk_count"]) |}.

Definition decodeVolume (m : object) : Volume :=
  let status := stringValue m ["status"; "volume_status"] in
  let id := stringValue m ["id"; "volume_id"; "volume_path"; "num_id"] in
  let '(size, used, available) := sizeValues m in {|
  svo_ID := id;
  svo_Name := stringValue m ["name"; "display_name"; "desc"];
  svo_Path := normalizedVolumePath id (stringValue m ["vol_path"; "volume_path"; "path"]);
  svo_PoolID := stringValue m ["pool_id"; "poolId"; "pool_path"; "storage_pool_id"];
  svo_FileSystem := stringValue m ["fs_type"; "fsType"; "file_system"; "filesystem"];
  svo_Status := status;
  svo_Health := health_of m status;
  svo_SizeBytes := size;
  svo_AllocatedBytes := match objectValue m ["size"] with
                        | Some n => uint64Value n ["total_device"; "totalDevice"]
                        | None => 0
                        end;
  svo_MaxFileSystemBytes := uint64Value m ["max_fs_size"; "maxFsSize"];
  svo_UsedBytes := used;
  svo_AvailableBytes := free_space size used available;
  svo_ReadOnly := boolValue m ["read_only"; "readonly"; "is_read_only"];
  svo_Writable := boolValue m ["is_writable"; "writable"];
  svo_Actioning := boolValue m ["is_actioning"; "actioning"];
  svo_SingleVolume := bool_decide (ToLower (stringValue m ["raidType"; "layout"]) = "single");
  svo_CanExpand := can_do m ["can_do"; "canDo"] ["expand_with_unalloc_size"; "expandWithUnallocSize"];
  svo_CanDelete := can_do m ["can_do"; "canDo"] ["delete"; "remove"] |}.

Definition normalizeCacheType (value : string) : string :=
  let v := ToLower (TrimSpace value) in
  if bool_decide (v ∈ ["writecache"; "rw"; "read_write"; "readwrite"; "write"; "rw_cache"])
  then CacheModeReadWrite
  else if bool_decide (v ∈ ["readcache"; "ro"; "read_only"; "readonly"; "read"; "ro_cache"])
  then CacheModeReadOnly else "".

Definition decodeCache (m : object) : Cache :=
  let status := stringValue m ["status"; "cache_status"; "cacheStatus"] in
  let can flags := can_do m ["can_do"; "canDo"; "vspace_can_do"] flags in {|
  ssc_ID := stringValue m ["id"; "cache_id"; "flashcache_id"; "uuid"; "space_id"];
  ssc_Name := stringValue m ["name"; "display_name"; "desc"];
  ssc_VolumeID := stringValue m ["mountSpaceId"; "reference_path"; "vol_id"; "volume_id";
                                 "mount_point"; "volumeId"];
  ssc_VolumePath := stringValue m ["vol_path"; "volume_path"; "mount_point"];
  ssc_PoolID := "";
  ssc_CacheType := normalizeCacheType
    (stringValue m ["mode"; "advtype"; "cache_type"; "cacheMode"; "cacheType"; "type"]);
  ssc_ProtectionRAID := stringValue m ["raidType"; "raid_type"; "device_type"];
  ssc_DiskIDs := stringList m ["disk_ids"; "diskIds"; "disks"; "cache_disks"; "ssd_disks"];
  ssc_SizeBytes := match objectValue m ["size"] with
                   | Some n => uint64Value n ["total"; "size_total"; "total_size"]
                   | None => uint64Value m ["size"; "size_total"; "sizeTotal"; "capacity"]
                   end;
  ssc_Status := status;
  ssc_Health := health_of m status;
  ssc_ProtectionStatus := stringValue m ["protection_status"; "raid_status"];
  ssc_HasDirtyData := boolValue m ["has_dirty_data"; "hasDirtyData"; "dirty"]
                      || (0 <? uint64Value m ["dirty_size"; "dirtySize"]);
  ssc_Mounted := boolValue m ["mounted"; "is_mounted"; "is_writable"];
  ssc_Actioning := boolValue m ["is_actioning"; "actioning"];
  ssc_Flushing := boolValue m ["is_flushing"; "flushing"];
  ssc_CanExpand := can ["expand"; "resize"; "add_disk"];
  ssc_CanConvert := can ["convert"; "change_type"];
  ssc_CanDelete := can ["remove"; "delete"] |}.

(** ** What is derived from the whole inventory *)

Definition set_CanCreateVolume (p : Pool) : Pool := {|
  spl_ID := spl_ID p; spl_Name := spl_Name p; spl_Path := spl_Path p;
  spl_SpacePath := spl_SpacePath p; spl_RAIDType := spl_RAIDType p; spl_Layout := spl_Layout p;
  spl_Status := spl_Status p; spl_Health := spl_Health p; spl_SizeBytes := spl_SizeBytes p;
  spl_UsedBytes := spl_UsedBytes p; spl_AvailableBytes := spl_AvailableBytes p;
  spl_DiskIDs := spl_DiskIDs p; spl_Writable := spl_Writable p;
  spl_Actioning := spl_Actioning p; spl_Compatible := spl_Compatible p;
  spl_CanCreateVolume :=
    spl_Writable p && spl_Compatible p && negb (spl_Actioning p)
    && ((bool_decide (spl_Layout p = "multiple") && (volumeMinimumBytes <? spl_AvailableBytes p))
        || (bool_decide (spl_Layout p = "single") && (spl_UsedBytes p =? 0)));
  spl_CanExpand := spl_CanExpand p; spl_CanDelete := spl_CanDelete p;
  spl_MaxDiskCount := spl_MaxDiskCount p |}.

Definition set_CanExpand (b : bool) (v : Volume) : Volume := {|
  svo_ID := svo_ID v; svo_Name := svo_Name v; svo_Path := svo_Path v; svo_PoolID := svo_PoolID v;
  svo_FileSystem := svo_FileSystem v; svo_Status := svo_Status v; svo_Health := svo_Health v;
  svo_SizeBytes := svo_SizeBytes v; svo_AllocatedBytes := svo_AllocatedBytes v;
  svo_MaxFileSystemBytes := svo_MaxFileSystemBytes v; svo_UsedBytes := svo_UsedBytes v;
  svo_AvailableBytes := svo_AvailableBytes v; svo_ReadOnly := svo_ReadOnly v;
  svo_Writable := svo_Writable v; svo_Actioning := svo_Actioning v;
  svo_SingleVolume := svo_SingleVolume v; svo_CanExpand := b; svo_CanDelete := svo_CanDelete v |}.

(** [m[id]] of a map built in order: the last of an identifier. *)
Definition last_by {A} (id : A → string) (l : list A) (key : string) : option A :=
  find_first (fun a => bool_decide (id a = key)) (reverse l).

Definition volume_can_expand (pools : list Pool) (v : Volume) : bool :=
  match last_by spl_ID pools (svo_PoolID v) with
  | None => false
  | Some p =>
      if svo_Actioning v || negb (svo_Writable v) || svo_ReadOnly v || spl_Actioning p
         || negb (spl_Writable p) then false
      else if svo_SingleVolume v then svo_CanExpand v
      else bool_decide (spl_Layout p = "multiple")
           && (volumeExpandMinimumBytes <? spl_AvailableBytes p)
  end.

Definition deriveVolumeActionability (pools : list Pool) (volumes : list Volume) :
    list Pool * list Volume :=
  (set_CanCreateVolume <$> pools,
   (fun v => set_CanExpand (volume_can_expand pools v) v) <$> volumes).

Definition derive_cache (volumes : list Volume) (c : Cache) : Cache :=
  match last_by svo_ID volumes (ssc_VolumeID c) with
  | None => c
  | Some v => {|
      ssc_ID := ssc_ID c; ssc_Name := ssc_Name c; ssc_VolumeID := ssc_VolumeID c;
      ssc_VolumePath := firstNonEmpty (ssc_VolumePath c) (svo_Path v);
      ssc_PoolID := firstNonEmpty (ssc_PoolID c) (svo_PoolID v);
      ssc_CacheType := ssc_CacheType c; ssc_ProtectionRAID := ssc_ProtectionRAID c;
      ssc_DiskIDs := ssc_DiskIDs c; ssc_SizeBytes := ssc_SizeBytes c; ssc_Status := ssc_Status c;
      ssc_Health := ssc_Health c; ssc_ProtectionStatus := ssc_ProtectionStatus c;
      ssc_HasDirtyData := ssc_HasDirtyData c; ssc_Mounted := ssc_Mounted c;
      ssc_Actioning := ssc_Actioning c; ssc_Flushing := ssc_Flushing c;
      ssc_CanExpand := ssc_CanExpand c; ssc_CanConvert := ssc_CanConvert c;
      ssc_CanDelete := ssc_CanDelete c |}
  end.

(** The inventory; the environment of the NAS bounds what can be created. *)
Definition inventory (raw : object) : storage_state :=
  let environment := default [] (objectValue raw ["env"; "storageEnv"]) in
  let '(pools, volumes) := deriveVolumeActionability
    (decodePool <$> object_list raw ["storagePools"; "storage_pools"; "pools"])
    (decodeVolume <$> object_list raw ["volumes"]) in {|
  sst_Disks := decodeDisk <$> object_list raw ["disks"; "drives"];
  sst_Pools := pools;
  sst_Volumes := volumes;
  sst_Caches := derive_cache volumes <$>
    (decodeCache <$> object_list raw ["ssdCaches"; "ssd_caches"; "flashcaches"; "flashCaches"]);
  sst_PoolCreation := {|
    pcc_SupportsSHR := can_do environment ["support"] ["sysdef"; "shr"; "support_shr"];
    pcc_MaxDisks := int_of_uint64 (uint64Value environment ["bay_number"; "bayNumber"]) |};
  sst_VolumeCreation := {|
    vcc_SupportedFileSystems := []; vcc_MinimumSizeBytes := volumeMinimumBytes;
    vcc_MaxFileSystemBytes := uint64Value environment ["max_fs_bytes"; "maxFsBytes"] |};
  sst_CacheCreation := {|
    ccc_SupportsReadOnly := false; ccc_SupportsReadWrite := false;
    ccc_SupportsProtection := false; ccc_ProtectionRAIDTypes := [RAID1; RAID5; RAID6];
    ccc_MinReadOnlyDisks := 1; ccc_MinReadWriteDisks := 2;
    ccc_MaxDisks := int_of_uint64
      (uint64Value environment ["cache_max_ssd_num"; "cacheMaxSsdNum"]) |} |}.

Definition decode_inventory (data : RawMessage) : result dsm_error storage_state :=
  raw ← decodeMap data "storage inventory"; Ok (inventory raw).

(** ** The definitions of a model *)

Record ModelConstraints := {
  moc_SupportedFileSystems : list string;
  moc_DefaultFileSystem : string
}.

Definition yesDefinition (v : option json) : bool :=
  match v with
  | Some (JBool b) => b
  | Some (JString s) =>
      EqualFold (TrimSpace s) "yes" || EqualFold (TrimSpace s) "true"
      || bool_decide (TrimSpace s = "1")
  | Some (JNumber n) => bool_decide (n = "1")
  | _ => false
  end.

(** The value assigned to [_SYNOINFODEF] in the script: [None] for no assignment. *)
Definition decode_definitions (assigned : option RawMessage) :
    result dsm_error ModelConstraints :=
  match assigned with
  | None => Err (EMsg "DSM definition script does not contain _SYNOINFODEF")
  | Some data =>
      definitions ← decodeMap data "DSM model definitions";
      let filesystems :=
        (if yesDefinition (obj_get definitions "support_btrfs") then [FileSystemBtrfs] else [])
        ++ (if yesDefinition (obj_get definitions "supportext4") then [FileSystemExt4] else []) in
      if bool_decide (filesystems = []) then
        Err (EMsg "DSM definition script did not advertise btrfs or ext4 support")
      else
        let name := ToLower (TrimSpace (text (obj_get definitions "defaultfs"))) in
        Ok {| moc_SupportedFileSystems := filesystems;
              moc_DefaultFileSystem :=
                if bool_decide (name ∈ [FileSystemBtrfs; FileSystemExt4]) then name else "" |}
  end.
End decode.
