(* ===== verification/StorageOps.v ===== *)
(** * The DSM operations on storage and their client

    Source: internal/synology/operations/storageinventory/operation.go,
    storagemodelconstraints/operation.go, storagepoolmutation/operation.go,
    volumemutation/operation.go, storageflashcachemutation/operation.go,
    internal/synology/storage.go and the script request of client.go.  The script is fetched
    with GET, by [net_script], and is no exchange of the log, which holds the POSTs.  The
    report of [StorageCapabilities] is not modelled. *)

From S2P Require Import Prelude.
From S2P Require Import GoStrings.
From S2P Require Import Compat.
From S2P Require Import Json.
From S2P Require Import DsmErrors.
From S2P Require Import DsmClient.
From S2P Require Import DsmOps.
From S2P Require Import Identity.
From S2P Require Import IdentityWire.
From S2P Require Import IdentityOps.
From S2P Require Import Storage.
From S2P Require Import StorageWire.

(** The outcome of the GET: an error, with [ctx.Err() != nil] after it, of the request or of
    reading the body; or a status and what the script assigns to [_SYNOINFODEF]. *)
Inductive script_answer :=
| ScriptFailed (cancelled : bool)
| Script (status : Z) (assigned : option RawMessage).

(** Path, query, session and token. *)
Class ScriptNetwork (W : Type) := {
  net_script : string → Values → string → string → W → script_answer * W
}.

Definition StorageAPIName : string := "SYNO.Storage.CGI.Storage".
Definition DefsAPIName : string := "SYNO.Core.Desktop.Defs".
Definition PoolAPIName : string := "SYNO.Storage.CGI.Pool".
Definition VolumeAPIName : string := "SYNO.Storage.CGI.Volume".
Definition FlashcacheAPIName : string := "SYNO.Storage.CGI.Flashcache".
Definition ProtectionAPIName : string := "SYNO.Storage.CGI.Cache.Protection".
Definition StorageInventoryCapability : string := "storage.inventory".

(** [Result] of the mutations, and [StorageMutationResult]. *)
Record MutationResult := { mur_ResourceID : string; mur_Operation : string }.

(** ** Parameters *)

Record PoolInput := { pin_Pool : PoolChange; pin_CurrentRAID : string }.

Definition deviceType (raidType : string) (diskCount : Z) : result dsm_error string :=
  if bool_decide (raidType = RAIDSHR) then
    Ok (if diskCount =? 1 then "shr_without_disk_protect" else "shr_with_1_disk_protect")
  else if bool_decide (raidType = RAIDSHR2) then Ok "shr_with_2_disk_protect"
  else if bool_decide (raidType = RAID0) then Ok "raid_0"
  else if bool_decide (raidType = RAID1) then Ok "raid_1"
  else if bool_decide (raidType = RAID5) then Ok "raid_5"
  else if bool_decide (raidType = RAID6) then Ok "raid_6"
  else if bool_decide (raidType = RAID10) then Ok "raid_10"
  else if bool_decide (raidType = RAIDJBOD) then Ok "raid_linear"
  else if bool_decide (raidType = RAIDBasic) then Ok "basic"
  else Err (EMsg "unsupported storage-pool RAID type").

Definition pool_create_params (c : PoolChange) : result dsm_error object :=
  device ← deviceType (plc_RAIDType c) (Z.of_nat (length (plc_DiskIDs c)));
  Ok [("disk_id", strings (plc_DiskIDs c)); ("device_type", JString device);
      ("is_disk_check", JBool true); ("is_pool_child", JBool false);
      ("allocate_size", JString "0"); ("spare_disk_count", JString "0");
      ("desc", JString (plc_Name c)); ("is_unused", JBool false); ("limitNum", JString "24");
      ("force", JBool false)].

Definition pool_expand_params (i : PoolInput) : object :=
  [("space_id", JString (plc_ID (pin_Pool i))); ("disk_id", strings (plc_AddDiskIDs (pin_Pool i)));
   ("force", JBool false); ("diskGroups", JArray []); ("do_expand_child_volume", JBool false)]
  ++ (if bool_decide (pin_CurrentRAID i ∈ [RAIDSHR; RAIDSHR2])
      then [("convert_shr_to_pool", JBool false)] else []).

Definition pool_delete_params (c : PoolChange) : object :=
  [("space_id", JString (plc_ID c)); ("force", JBool true)].

Record VolumeInput := {
  vin_Volume : VolumeChange;
  vin_PoolPath : string;
  vin_SpacePath : string;
  vin_SingleVolume : bool;
  vin_ResolvedCapacityBytes : Z
}.

Definition mebibyte : Z := 2 ^ 20.
Definition allocationMiB (v : Z) : result dsm_error string :=
  if (v =? 0) || negb (v mod mebibyte =? 0)
  then Err (EMsg "volume allocation must be a positive whole MiB value")
  else Ok (Itoa (v / mebibyte)).

(** Method and parameters. *)
Definition volume_create_call (i : VolumeInput) : result dsm_error (string * object) :=
  let common := [("fs_type", JString (vch_FileSystem (vin_Volume i)));
                 ("vol_attr", JString "generic");
                 ("vol_desc", JString (vch_Name (vin_Volume i)));
                 ("atime_opt", JString "noatime"); ("force", JBool false);
                 ("enable_dedupe", JBool false)] in
  if vin_SingleVolume i then
    if bool_decide (vin_SpacePath i = "")
    then Err (EMsg "single-volume creation requires stable DSM space_path")
    else Ok ("deploy_unused", common ++ [("space_path", JString (vin_SpacePath i))])
  else if bool_decide (vin_PoolPath i = "")
  then Err (EMsg "multi-volume creation requires stable DSM pool_path")
  else
    allocation ← allocationMiB (vin_ResolvedCapacityBytes i);
    Ok ("create_on_existing_pool",
        common ++ [("pool_path", JString (vin_PoolPath i)); ("allocate_size", JString allocation)]).

Definition volume_expand_call (i : VolumeInput) : result dsm_error (string * object) :=
  let space := ("space_id", JString (vch_ID (vin_Volume i))) in
  if vin_SingleVolume i then Ok ("expand_unallocated", [space])
  else if vin_ResolvedCapacityBytes i =? 0
  then Err (EMsg "multi-volume expansion requires a resolved target capacity")
  else Ok ("expand_pool_child",
           [space; ("new_size", JString (Itoa (vin_ResolvedCapacityBytes i)))]).

Definition volume_delete_params (c : VolumeChange) : object :=
  [("space_id", strings [vch_ID c]); ("force", JBool true)].

Record CacheInput := {
  cin_CacheType : string;
  cin_ReferencePath : string;
  cin_RAIDType : string;
  cin_DiskIDs : list string;
  cin_SizeBytes : Z;
  cin_IsMax : bool
}.

Definition cacheMode (cacheType : string) : result dsm_error string :=
  if bool_decide (cacheType = CacheModeReadOnly) then Ok "readCache"
  else if bool_decide (cacheType = CacheModeReadWrite) then Ok "writeCache"
  else Err (EMsg "unsupported SSD cache type").

Definition cache_create_params (i : CacheInput) : result dsm_error object :=
  mode ← cacheMode (cin_CacheType i);
  Ok [("cacheMode", JString mode); ("reference_path", JString (cin_ReferencePath i));
      ("create_type", JString "shared_cache_and_alloc_cache");
      ("raidType", JString (cin_RAIDType i)); ("disk_id", strings (cin_DiskIDs i));
      ("isMax", JBool (cin_IsMax i)); ("size", JString (Itoa (cin_SizeBytes i)));
      ("skipSeqIO", JBool true); ("metadataCache", JBool false); ("force", JBool false);
      ("check_lock", JBool true)].

Definition cache_delete_params (i : CacheInput) : object :=
  [("reference_path", JString (cin_ReferencePath i)); ("check_lock", JBool true)].

Definition cacheDeviceType (cacheType protectionRAID : string) (diskCount : Z) : string :=
  let striped := if diskCount <=? 1 then "basic" else "raid_0" in
  if bool_decide (cacheType = CacheModeReadWrite) then
    if bool_decide (protectionRAID = RAID1) then "raid_1"
    else if bool_decide (protectionRAID = RAID5) then "raid_5"
    else if bool_decide (protectionRAID = RAID6) then "raid_6" else striped
  else striped.

(** ** The estimated size of a cache *)

Definition drop_digits (l : list Z) : list Z := (span_digits l).2.

(** [isValidNumber] of encoding/json, after the sign. *)
Definition valid_fraction (l : list Z) : list Z :=
  match l with
  | 46 :: a :: l' => if is_digit a then drop_digits l' else l
  | _ => l
  end.
Definition valid_exponent (l : list Z) : option (list Z) :=
  match l with
  | e :: a :: l' =>
      if bool_decide (e ∈ [101; 69]) then
        if bool_decide (a ∈ [43; 45]) then
          match l' with [] => None | _ => Some (drop_digits l') end
        else Some (drop_digits (a :: l'))
      else Some l
  | _ => Some l
  end.
Definition isValidNumber (s : string) : bool :=
  let l := match bytes s with 45 :: l => l | l => l end in
  match l with
  | a :: l =>
      is_digit a &&
      bool_decide (valid_exponent (valid_fraction (if a =? 48 then l else drop_digits l)) = Some [])
  | [] => false
  end.

(** A field of type [json.Number]: a number, or a text that is one. *)
Definition as_number (v : json) : option string :=
  match v with
  | JNumber n => Some n
  | JString s => if isValidNumber s then Some s else None
  | _ => None
  end.

Section estimate.
Context `{Unicode}.

Definition number_field (m : object) (field : string) : option string :=
  assign as_number "" (field_values m field).

(** The fields of the estimate, in the order they are tried. *)
Definition estimate_fields (data : RawMessage) : option (list string) :=
  match data with
  | Some JNull => Some []
  | Some (JObject m) => mapM (number_field m) ["size_byte"; "size"; "raid_size"; "raid_size_byte"]
  | _ => None
  end.

Definition positive_size (s : string) : option Z :=
  v ← number_uint s; if 0 <? v then Some v else None.

Definition decode_estimate (data : RawMessage) : result dsm_error Z :=
  match estimate_fields data with
  | None => Err (EMsg "decode estimate_raid_size result")
  | Some fields =>
      match head (omap positive_size fields) with
      | Some v => Ok v
      | None => Err (EMsg "estimate_raid_size returned no usable size")
      end
  end.

Definition normalizeStorageRAID (value : string) : string :=
  let v := ToLower (TrimSpace value) in
  if bool_decide (v ∈ ["shr"; "shr_without_disk_protect"; "shr_with_1_disk_protect"]) then RAIDSHR
  else if bool_decide (v ∈ ["shr2"; "shr_2"; "shr_with_2_disk_protect"]) then RAIDSHR2
  else if bool_decide (v ∈ ["raid_0"; "raid0"]) then RAID0
  else if bool_decide (v ∈ ["raid_1"; "raid1"]) then RAID1
  else if bool_decide (v ∈ ["raid_5"; "raid5"]) then RAID5
  else if bool_decide (v ∈ ["raid_6"; "raid6"]) then RAID6
  else if bool_decide (v ∈ ["raid_10"; "raid10"]) then RAID10
  else if bool_decide (v ∈ ["raid_linear"; "jbod"]) then RAIDJBOD
  else if bool_decide (v = "basic") then RAIDBasic
  else v.
End estimate.

(** ** Requests *)

Record StorageMutationInput := {
  smi_Request : StorageRequest;
  smi_State : storage_state;
  smi_ResolvedCapacityBytes : Z
}.

Section ops.
Context `{Unicode, Floats} {W : Type} `{Network W, ScriptNetwork W}.

Abbreviation M := (ST (dstate W) dsm_error).

(** A typed call of version 1 whose reply is not read. *)
Definition mutate (api method : string) (params : object) : M () :=
  wrap "call" (executeLocked (typed_call api 1 method params []));; mret ().

Definition poolCreateOperation : Operation (PoolInput → M MutationResult) :=
  operation1 "storage.pool.create" "storage-cgi-pool-create-v1" PoolAPIName
    (APIVersion PoolAPIName 1) (fun i =>
      params ← lift (pool_create_params (pin_Pool i));
      mutate PoolAPIName "create" params;;
      mret {| mur_ResourceID := ""; mur_Operation := "storage.pool.create" |}).

Definition poolExpandOperation : Operation (PoolInput → M MutationResult) :=
  operation1 "storage.pool.expand" "storage-cgi-pool-expand-by-add-disk-v1" PoolAPIName
    (APIVersion PoolAPIName 1) (fun i =>
      mutate PoolAPIName "expand_by_add_disk" (pool_expand_params i);;
      mret {| mur_ResourceID := plc_ID (pin_Pool i); mur_Operation := "storage.pool.expand" |}).

Definition poolDeleteOperation : Operation (PoolInput → M MutationResult) :=
  operation1 "storage.pool.delete" "storage-cgi-pool-remove-v1" PoolAPIName
    (APIVersion PoolAPIName 1) (fun i =>
      mutate PoolAPIName "remove" (pool_delete_params (pin_Pool i));;
      mret {| mur_ResourceID := plc_ID (pin_Pool i); mur_Operation := "storage.pool.delete" |}).

Definition volumeCreateOperation : Operation (VolumeInput → M MutationResult) :=
  operation1 "storage.volume.create" "storage-cgi-volume-create-v1" VolumeAPIName
    (APIVersion VolumeAPIName 1) (fun i =>
      '(method, params) ← lift (volume_create_call i);
      mutate VolumeAPIName method params;;
      mret {| mur_ResourceID := ""; mur_Operation := "storage.volume.create" |}).

Definition volumeExpandOperation : Operation (VolumeInput → M MutationResult) :=
  operation1 "storage.volume.expand" "storage-cgi-volume-expand-v1" VolumeAPIName
    (APIVersion VolumeAPIName 1) (fun i =>
      '(method, params) ← lift (volume_expand_call i);
      mutate VolumeAPIName method params;;
      mret {| mur_ResourceID := vch_ID (vin_Volume i); mur_Operation := "storage.volume.expand" |}).

Definition volumeDeleteOperation : Operation (VolumeInput → M MutationResult) :=
  operation1 "storage.volume.delete" "storage-cgi-volume-delete-v1" VolumeAPIName
    (APIVersion VolumeAPIName 1) (fun i =>
      mutate VolumeAPIName "delete" (volume_delete_params (vin_Volume i));;
      mret {| mur_ResourceID := vch_ID (vin_Volume i); mur_Operation := "storage.volume.delete" |}).

Definition cacheCreateOperation : Operation (CacheInput → M MutationResult) :=
  operation1 "storage.cache.create" "storage-cgi-flashcache-enable-v1" FlashcacheAPIName
    (APIVersion FlashcacheAPIName 1) (fun i =>
      params ← lift (cache_create_params i);
      mutate FlashcacheAPIName "enable" params;;
      mret {| mur_ResourceID := ""; mur_Operation := "storage.cache.create" |}).

Definition cacheDeleteOperation : Operation (CacheInput → M MutationResult) :=
  operation1 "storage.cache.delete" "storage-cgi-flashcache-remove-v1" FlashcacheAPIName
    (APIVersion FlashcacheAPIName 1) (fun i =>
      mutate FlashcacheAPIName "remove" (cache_delete_params i);;
      mret {| mur_ResourceID := cin_ReferencePath i; mur_Operation := "storage.cache.delete" |}).

Definition inventoryOperation : Operation (() → M storage_state) :=
  operation1 "storage.inventory" "storage-cgi-v1" StorageAPIName (APIVersion StorageAPIName 1)
    (fun _ =>
      data ← wrap "call load_info" (executeLocked (form_call StorageAPIName 1 "load_info" ∅));
      lift (decode_inventory data)).

Definition EstimateRAIDSize (diskIDs : list string) (raidType : string) : M Z :=
  data ← wrap "call estimate_raid_size"
    (executeLocked (typed_call FlashcacheAPIName 1 "estimate_raid_size"
      [("cache_devices", strings diskIDs); ("raid_type", JString raidType)] []));
  lift (decode_estimate data).

(** ** The script of the definitions *)

Definition requestScriptLocked (path : string) (params : Values) : M (option RawMessage) :=
  c ← client;
  answer ← outside (net_script (of_bytes (drop_while_eq 47 (bytes path))) params (cl_sid c)
                      (cl_synoToken c));
  match answer with
  | ScriptFailed true => fail (EWrap "request" EContext)
  | ScriptFailed false => fail (EMsg "request")
  | Script status assigned =>
      check ((200 <=? status) && (status <? 300)) (EMsg "request returned HTTP");;
      mret assigned
  end.

Definition executeScriptLocked (api : string) (version : Z) (method : string) :
    M (option RawMessage) :=
  ensureAPIsLocked [api];;
  loginLocked;;
  c ← client;
  let info := api_of c api in
  let version := if version =? 0 then api_MaxVersion info else version in
  check (Supports info version) (EMsg "Synology API does not support requested version");;
  requestScriptLocked (api_Path info)
    (form [("api", api); ("version", Itoa version); ("method", method)]).

Definition modelOperation : Operation (() → M ModelConstraints) :=
  operation1 "storage.model.constraints" "desktop-defs-getjs-v1" DefsAPIName
    (APIVersion DefsAPIName 1) (fun _ =>
      script ← wrap "call getjs" (executeScriptLocked DefsAPIName 1 "getjs");
      lift (decode_definitions script)).

(** ** The client's methods *)

Definition pool_APINames : list string :=
  sort_strings (dedup (APINames poolCreateOperation ++ APINames poolExpandOperation
                       ++ APINames poolDeleteOperation)).
Definition volume_APINames : list string :=
  sort_strings (dedup (APINames volumeCreateOperation ++ APINames volumeExpandOperation
                       ++ APINames volumeDeleteOperation)).
Definition flashcache_APINames : list string :=
  sort_strings (dedup (APINames cacheCreateOperation ++ APINames cacheDeleteOperation)).

Definition set_creation (readOnly protection : bool) (filesystems : list string)
    (s : storage_state) : storage_state :=
  let v := sst_VolumeCreation s in
  let c := sst_CacheCreation s in {|
  sst_Disks := sst_Disks s; sst_Pools := sst_Pools s; sst_Volumes := sst_Volumes s;
  sst_Caches := sst_Caches s; sst_PoolCreation := sst_PoolCreation s;
  sst_VolumeCreation := {|
    vcc_SupportedFileSystems := filesystems; vcc_MinimumSizeBytes := vcc_MinimumSizeBytes v;
    vcc_MaxFileSystemBytes := vcc_MaxFileSystemBytes v |};
  sst_CacheCreation := {|
    ccc_SupportsReadOnly := readOnly; ccc_SupportsReadWrite := readOnly && protection;
    ccc_SupportsProtection := protection; ccc_ProtectionRAIDTypes := ccc_ProtectionRAIDTypes c;
    ccc_MinReadOnlyDisks := ccc_MinReadOnlyDisks c;
    ccc_MinReadWriteDisks := ccc_MinReadWriteDisks c; ccc_MaxDisks := ccc_MaxDisks c |} |}.

(** The file systems of this model, where its definitions can be read. *)
Definition model_filesystems (supported : bool) (s : storage_state) : M (list string) :=
  if supported then
    '(constraints, selection) ← wrap "get storage model constraints" (run_op modelOperation ());
    add_capability (sl_Operation selection);;
    mret (moc_SupportedFileSystems constraints)
  else mret (vcc_SupportedFileSystems (sst_VolumeCreation s)).

Definition StorageState : M storage_state :=
  wrap "prepare storage inventory target" (prepareCompatibilityTargetLocked
    (APINames inventoryOperation ++ APINames modelOperation ++ flashcache_APINames
     ++ [ProtectionAPIName]));;
  '(state, _) ← wrap "get storage inventory" (run_op inventoryOperation ());
  add_capability StorageInventoryCapability;;
  readOnly ← select_supported "select SSD cache backends" cacheCreateOperation;
  select_supported "select SSD cache backends" cacheDeleteOperation;;
  c ← client;
  let protection := SupportsAPI (cl_target c) ProtectionAPIName 1 in
  model ← select_supported "select storage model constraints backend" modelOperation;
  filesystems ← model_filesystems model state;
  mret (set_creation readOnly protection filesystems state).

(** Expanding and converting a cache have no backend. *)
Definition StorageCapabilities : M StorageCaps :=
  wrap "prepare storage capabilities target" (prepareCompatibilityTargetLocked
    (APINames inventoryOperation ++ APINames modelOperation ++ pool_APINames ++ volume_APINames
     ++ flashcache_APINames ++ [ProtectionAPIName]));;
  inventory ← select_supported "select storage inventory backend" inventoryOperation;
  when_supported inventory StorageInventoryCapability;;
  poolCreate ← select_supported "select storage-pool mutation backends" poolCreateOperation;
  poolExpand ← select_supported "select storage-pool mutation backends" poolExpandOperation;
  poolDelete ← select_supported "select storage-pool mutation backends" poolDeleteOperation;
  model ← select_supported "select storage model constraints backend" modelOperation;
  volumeCreate ← select_supported "select volume mutation backends" volumeCreateOperation;
  volumeExpand ← select_supported "select volume mutation backends" volumeExpandOperation;
  volumeDelete ← select_supported "select volume mutation backends" volumeDeleteOperation;
  cacheCreate ← select_supported "select SSD cache backends" cacheCreateOperation;
  cacheDelete ← select_supported "select SSD cache backends" cacheDeleteOperation;
  updateDerivedCapabilitiesLocked;;
  let volumeCreate := model && volumeCreate in
  mret {| stc_InventoryRead := inventory; stc_PoolCreate := poolCreate;
          stc_PoolUpdate := poolExpand; stc_PoolDelete := poolDelete;
          stc_VolumeCreate := volumeCreate; stc_VolumeUpdate := volumeExpand;
          stc_VolumeDelete := volumeDelete; stc_CacheCreate := cacheCreate;
          stc_CacheExpand := false; stc_CacheConvert := false; stc_CacheDelete := cacheDelete;
          stc_Mutations := poolCreate || poolExpand || poolDelete || volumeCreate || volumeExpand
                           || volumeDelete || cacheCreate || cacheDelete |}.

(** The operation of an action runs, and its capability is noted. *)
Definition run_mutation {I} (op : Operation (I → M MutationResult)) (input : I) :
    M MutationResult :=
  '(r, selection) ← run_op op input;
  add_capability (sl_Operation selection);;
  mret r.

(** The current RAID type, of a pool that is there. *)
Definition pool_input (action : string) (c : PoolChange) (s : storage_state) : PoolInput := {|
  pin_Pool := c;
  pin_CurrentRAID :=
    if bool_decide (action = ActionCreate) then ""
    else match find_first (fun p => bool_decide (spl_ID p = plc_ID c)) (sst_Pools s) with
         | Some p => normalizeStorageRAID (spl_RAIDType p)
         | None => ""
         end |}.

Definition applyStoragePoolChange (action : string) (c : PoolChange) (s : storage_state) :
    M MutationResult :=
  let input := pool_input action c s in
  wrap "prepare storage-pool mutation target" (prepareCompatibilityTargetLocked pool_APINames);;
  wrap "apply storage-pool"
    (if bool_decide (action = ActionCreate) then run_mutation poolCreateOperation input
     else if bool_decide (action = ActionUpdate) then run_mutation poolExpandOperation input
     else if bool_decide (action = ActionDelete) then run_mutation poolDeleteOperation input
     else fail (EMsg "unsupported storage-pool action")).

(** The volume of an expansion or a deletion, and its pool. *)
Definition observed_volume (action : string) (c : VolumeChange) (s : storage_state) :
    result dsm_error (option Volume * Pool) :=
  volume ←
    (if bool_decide (action = ActionCreate) then Ok None
     else match find_first (fun v => bool_decide (svo_ID v = vch_ID c)) (sst_Volumes s) with
          | Some v => if bool_decide (svo_ID v = "")
                      then Err (EMsg "volume is missing from observed state") else Ok (Some v)
          | None => Err (EMsg "volume is missing from observed state")
          end);
  let poolID := match volume with Some v => svo_PoolID v | None => vch_PoolID c end in
  match find_first (fun p => bool_decide (spl_ID p = poolID)) (sst_Pools s) with
  | Some p => if bool_decide (spl_ID p = "")
              then Err (EMsg "parent storage pool is missing from observed state")
              else Ok (volume, p)
  | None => Err (EMsg "parent storage pool is missing from observed state")
  end.

Definition volume_input (action : string) (c : VolumeChange) (s : storage_state)
    (resolvedCapacityBytes : Z) : result dsm_error VolumeInput :=
  '(volume, pool) ← observed_volume action c s;
  let single := match volume with Some v => svo_SingleVolume v | None => false end in
  Ok {| vin_Volume := c; vin_PoolPath := spl_Path pool; vin_SpacePath := spl_SpacePath pool;
        vin_SingleVolume := bool_decide (spl_Layout pool = "single") || single;
        vin_ResolvedCapacityBytes := resolvedCapacityBytes |}.

Definition applyVolumeChange (action : string) (c : VolumeChange) (s : storage_state)
    (resolvedCapacityBytes : Z) : M MutationResult :=
  input ← lift (volume_input action c s resolvedCapacityBytes);
  wrap "prepare volume mutation target" (prepareCompatibilityTargetLocked volume_APINames);;
  wrap "apply volume"
    (if bool_decide (action = ActionCreate) then run_mutation volumeCreateOperation input
     else if bool_decide (action = ActionUpdate) then run_mutation volumeExpandOperation input
     else if bool_decide (action = ActionDelete) then run_mutation volumeDeleteOperation input
     else fail (EMsg "unsupported volume action")).

(** The volume that DSM addresses the cache by, and the mode of the cache. *)
Definition cache_reference (action : string) (c : CacheChange) (s : storage_state) :
    result dsm_error (string * string) :=
  if bool_decide (action = ActionCreate) then Ok (cch_VolumeID c, cch_CacheType c)
  else if bool_decide (action = ActionDelete) then
    match find_first (fun x => bool_decide (ssc_ID x = cch_ID c)) (sst_Caches s) with
    | Some x => if bool_decide (ssc_VolumeID x = "")
                then Err (EMsg "SSD cache is missing from observed state")
                else Ok (ssc_VolumeID x, ssc_CacheType x)
    | None => Err (EMsg "SSD cache is missing from observed state")
    end
  else Err (EMsg "unsupported SSD cache action").

Definition cache_input (c : CacheChange) (reference : string * string) (size : Z)
    (isMax : bool) : CacheInput := {|
  cin_CacheType := reference.2; cin_ReferencePath := reference.1;
  cin_RAIDType := cacheDeviceType reference.2 (cch_ProtectionRAID c)
                    (Z.of_nat (length (cch_DiskIDs c)));
  cin_DiskIDs := cch_DiskIDs c; cin_SizeBytes := size; cin_IsMax := isMax |}.

(** The size of a new cache, read from DSM; a deletion needs none. *)
Definition cache_size (action : string) (c : CacheChange) (reference : string * string) : M Z :=
  if bool_decide (action = ActionCreate) then
    wrap "resolve SSD cache size"
      (EstimateRAIDSize (cch_DiskIDs c) (cin_RAIDType (cache_input c reference 0 false)))
  else mret 0.

Definition applyCacheChange (action : string) (c : CacheChange) (s : storage_state) :
    M MutationResult :=
  reference ← lift (cache_reference action c s);
  wrap "prepare SSD cache mutation target" (prepareCompatibilityTargetLocked flashcache_APINames);;
  size ← cache_size action c reference;
  wrap "apply SSD cache"
    (if bool_decide (action = ActionCreate)
     then run_mutation cacheCreateOperation (cache_input c reference size true)
     else run_mutation cacheDeleteOperation (cache_input c reference size false)).

Definition ApplyStorageChange (i : StorageMutationInput) : M MutationResult :=
  let r := smi_Request i in
  let migration := match str_Pool r with
                   | Some c => bool_decide (is_Some (plc_TargetRAIDType c))
                   | None => false
                   end in
  check (negb (bool_decide (str_Resource r = ResourcePool)
               && bool_decide (str_Action r = ActionUpdate) && migration))
    (EMsg "storage-pool RAID migration is not implemented");;
  if bool_decide (str_Resource r = ResourcePool) then
    match str_Pool r, str_Volume r with
    | Some c, None => applyStoragePoolChange (str_Action r) c (smi_State i)
    | _, _ => fail (EMsg "storage-pool backend requires exactly one pool intent")
    end
  else if bool_decide (str_Resource r = ResourceVolume) then
    match str_Volume r, str_Pool r with
    | Some c, None => applyVolumeChange (str_Action r) c (smi_State i) (smi_ResolvedCapacityBytes i)
    | _, _ => fail (EMsg "volume backend requires exactly one volume intent")
    end
  else if bool_decide (str_Resource r = ResourceCache) then
    match str_Cache r, str_Pool r, str_Volume r with
    | Some c, None, None => applyCacheChange (str_Action r) c (smi_State i)
    | _, _, _ => fail (EMsg "SSD cache backend requires exactly one cache intent")
    end
  else fail (EMsg "unsupported storage resource").
End ops.
