(* ===== verification/StoragePlan.v ===== *)
(** * Guarded changes of storage

    Source: internal/application/storage_management.go: the plan, its hash, its application
    and the postconditions.  A plan's fingerprints cover the whole topology and the health
    of what it touches; applying it reads the state, plans again, compares, sends the change
    with the state it compared, and reads the state again.

    The class [StorageHash] is [hashJSON] and [fingerprint] on the values hashed here.  A
    summary line is the value it prints.  The second part plans, applies and verifies. *)

From S2P Require Import Prelude.
From S2P Require Import GoStrings.
From S2P Require Import NetIP.
From S2P Require Import RemotePolicy.
From S2P Require Import Compat.
From S2P Require Import Json.
From S2P Require Import DsmErrors.
From S2P Require Import DsmClient.
From S2P Require Import Identity.
From S2P Require Import Config.
From S2P Require Import Service.
From S2P Require Import Management.
From S2P Require Import Storage.
From S2P Require Import StorageChecks.
From S2P Require Import StorageWire.
From S2P Require Import StorageOps.

(** ** Plans *)

Record StorageStableReferences := {
  ssr_ResourceID : string;
  ssr_PoolID : string;
  ssr_PoolPath : string;
  ssr_SpacePath : string;
  ssr_PoolLayout : string;
  ssr_DiskIDs : list string;
  ssr_CacheID : string;
  ssr_CacheVolumePath : string
}.
#[export] Instance StorageStableReferences_eq_dec : EqDecision StorageStableReferences.
Proof. solve_decision. Defined.

Record StorageDestructiveConsequence := {
  sdc_Kind : string;
  sdc_ResourceIDs : list string;
  sdc_Description : string
}.

(** The lines of a summary. *)
Inductive storage_line :=
| LCreateCache (mode volume : string) (disks : list string)
| LAddSSDs (disks : list string) (cache : string)
| LConvertCache (cache mode : string)
| LRemoveCache (cache volume : string)
| LCreatePool (name raidType : string) (disks : list string)
| LAddDisks (disks : list string) (pool : string)
| LMigratePool (pool raidType : string)
| LDeletePool (pool : string) (children : Z)
| LCreateVolume (fileSystem name pool mode : string) (bytes : Z)
| LExpandVolume (volume mode : string) (bytes : Z)
| LDeleteVolume (volume pool : string).

Record StoragePlan := {
  sp_APIVersion : string;
  sp_NAS : string;
  sp_ProfileRevision : Z;
  sp_Request : StorageRequest;
  sp_Precondition : ChangePrecondition;
  sp_References : StorageStableReferences;
  sp_TopologyFingerprint : string;
  sp_SafetyFingerprint : string;
  sp_ResolvedCapacityBytes : Z;
  sp_ApplicableRAIDTypes : list string;
  sp_Destructive : bool;
  sp_Risk : string;
  sp_Warnings : list string;
  sp_DestructiveConsequences : list StorageDestructiveConsequence;
  sp_Summary : list storage_line;
  sp_Hash : string
}.

Definition with_hash (revision : Z) (hash : string) (p : StoragePlan) : StoragePlan := {|
  sp_APIVersion := sp_APIVersion p; sp_NAS := sp_NAS p; sp_ProfileRevision := revision;
  sp_Request := sp_Request p; sp_Precondition := sp_Precondition p;
  sp_References := sp_References p; sp_TopologyFingerprint := sp_TopologyFingerprint p;
  sp_SafetyFingerprint := sp_SafetyFingerprint p;
  sp_ResolvedCapacityBytes := sp_ResolvedCapacityBytes p;
  sp_ApplicableRAIDTypes := sp_ApplicableRAIDTypes p; sp_Destructive := sp_Destructive p;
  sp_Risk := sp_Risk p; sp_Warnings := sp_Warnings p;
  sp_DestructiveConsequences := sp_DestructiveConsequences p; sp_Summary := sp_Summary p;
  sp_Hash := hash |}.

Record StorageApplyResult := {
  sar_NAS : string;
  sar_PlanHash : string;
  sar_Applied : bool;
  sar_Operation : MutationResult
}.

Inductive storage_hashed :=
| HStoragePlan (p : StoragePlan)
| HStorageRequest (r : StorageRequest)
| HTopology (t : storageTopology)
| HSafety (o : storageSafetyObservation)
| HTopologyPool (p : storageTopologyPool)
| HTopologyVolume (v : storageTopologyVolume)
| HTopologyCache (c : storageTopologyCache).

Class StorageHash := { hash_storage : storage_hashed → string }.

(** ** What a plan refers to *)

Definition zero_topology_pool : storageTopologyPool := {|
  tp_ID := ""; tp_Name := ""; tp_Path := ""; tp_SpacePath := ""; tp_RAIDType := "";
  tp_Layout := ""; tp_DiskIDs := []; tp_SizeBytes := 0 |}.
Definition zero_topology_volume : storageTopologyVolume := {|
  tv_ID := ""; tv_Name := ""; tv_PoolID := ""; tv_FileSystem := ""; tv_SizeBytes := 0;
  tv_AllocatedBytes := 0; tv_MaxFileSystemBytes := 0; tv_ReadOnly := false |}.
Definition zero_topology_cache : storageTopologyCache := {|
  tc_ID := ""; tc_VolumeID := ""; tc_CacheType := ""; tc_ProtectionRAID := ""; tc_DiskIDs := [];
  tc_SizeBytes := 0 |}.

Definition pool_in (t : storageTopology) (id : string) : storageTopologyPool :=
  default zero_topology_pool (topologyPoolByID t id).
Definition volume_in (t : storageTopology) (id : string) : storageTopologyVolume :=
  default zero_topology_volume (topologyVolumeByID t id).
Definition cache_in (t : storageTopology) (id : string) : storageTopologyCache :=
  default zero_topology_cache (topologyCacheByID t id).

Definition no_references : StorageStableReferences := {|
  ssr_ResourceID := ""; ssr_PoolID := ""; ssr_PoolPath := ""; ssr_SpacePath := "";
  ssr_PoolLayout := ""; ssr_DiskIDs := []; ssr_CacheID := ""; ssr_CacheVolumePath := "" |}.

Definition volume_references_of (resource poolID : string) (p : storageTopologyPool) :
    StorageStableReferences := {|
  ssr_ResourceID := resource; ssr_PoolID := poolID; ssr_PoolPath := tp_Path p;
  ssr_SpacePath := tp_SpacePath p; ssr_PoolLayout := tp_Layout p; ssr_DiskIDs := [];
  ssr_CacheID := ""; ssr_CacheVolumePath := "" |}.

Definition disk_references (resource : string) (disks : list string) :
    StorageStableReferences := {|
  ssr_ResourceID := resource; ssr_PoolID := resource; ssr_PoolPath := ""; ssr_SpacePath := "";
  ssr_PoolLayout := ""; ssr_DiskIDs := disks; ssr_CacheID := ""; ssr_CacheVolumePath := "" |}.

Definition cache_references_of (id volume : string) (disks : list string) :
    StorageStableReferences := {|
  ssr_ResourceID := id; ssr_PoolID := ""; ssr_PoolPath := ""; ssr_SpacePath := "";
  ssr_PoolLayout := ""; ssr_DiskIDs := disks; ssr_CacheID := id; ssr_CacheVolumePath := volume |}.

Section hashed.
Context `{StorageHash}.

Definition storagePreconditionAndReferences (t : storageTopology) (r : StorageRequest) :
    result service_error (ChangePrecondition * StorageStableReferences) :=
  let create := bool_decide (str_Action r = ActionCreate) in
  if bool_decide (str_Resource r = ResourceCache) then
    match str_Cache r with
    | None => nil_object
    | Some c =>
        if create then Ok (absent, cache_references_of "" (cch_VolumeID c) (cch_DiskIDs c)) else
        let cache := cache_in t (cch_ID c) in
        Ok (present (tc_ID cache) (hash_storage (HTopologyCache cache)),
            cache_references_of (tc_ID cache) (tc_VolumeID cache) [])
    end
  else if bool_decide (str_Resource r = ResourcePool) then
    match str_Pool r with
    | None => nil_object
    | Some c =>
        if create then Ok (absent, disk_references "" (plc_DiskIDs c)) else
        let pool := pool_in t (plc_ID c) in
        Ok (present (tp_ID pool) (hash_storage (HTopologyPool pool)),
            disk_references (tp_ID pool) (sort_strings (tp_DiskIDs pool ++ plc_AddDiskIDs c)))
    end
  else
    match str_Volume r with
    | None => nil_object
    | Some c =>
        if create then
          let pool := pool_in t (vch_PoolID c) in
          Ok (absent, volume_references_of "" (tp_ID pool) pool)
        else
          let volume := volume_in t (vch_ID c) in
          Ok (present (tv_ID volume) (hash_storage (HTopologyVolume volume)),
              volume_references_of (tv_ID volume) (tv_PoolID volume) (pool_in t (tv_PoolID volume)))
    end.
End hashed.

(** ** What a plan does *)

(** Destructive, the warnings after the first, the consequences and the summary. *)
Record effects := {
  ef_Destructive : bool;
  ef_Warnings : list string;
  ef_Consequences : list StorageDestructiveConsequence;
  ef_Summary : list storage_line
}.
Definition no_effects : effects :=
  {| ef_Destructive := false; ef_Warnings := []; ef_Consequences := []; ef_Summary := [] |}.
Definition harmless (warnings : list string) (line : storage_line) : effects :=
  {| ef_Destructive := false; ef_Warnings := warnings; ef_Consequences := [];
     ef_Summary := [line] |}.
Definition destructive (warning kind : string) (ids : list string) (description : string)
    (line : storage_line) : effects := {|
  ef_Destructive := true; ef_Warnings := [warning];
  ef_Consequences := [{| sdc_Kind := kind; sdc_ResourceIDs := ids;
                         sdc_Description := description |}];
  ef_Summary := [line] |}.

Definition cache_effects (t : storageTopology) (action : string) (c : CacheChange) :
    result service_error effects :=
  if bool_decide (action = ActionCreate) then
    Ok (harmless
      [if bool_decide (cch_CacheType c = CacheModeReadWrite)
       then "A read-write SSD cache holds dirty data; a later removal flushes it before teardown."
       else "A read-only SSD cache can be removed live without data loss."]
      (LCreateCache (cch_CacheType c) (cch_VolumeID c) (cch_DiskIDs c)))
  else if bool_decide (action = ActionUpdate) then
    Ok (harmless ["Adding SSDs can start an SSD cache rebuild."]
          (LAddSSDs (cch_AddDiskIDs c) (cch_ID c)))
  else if bool_decide (action = ActionConvert) then
    match cch_TargetMode c with
    | None => nil_object
    | Some mode =>
        let line := LConvertCache (cch_ID c) mode in
        if bool_decide (mode = CacheModeReadOnly) then
          Ok (destructive
            "Converting a read-write cache to read-only flushes all dirty cache data before teardown."
            "cache_dirty_flush" [cch_ID c]
            "Dirty read-write cache data is flushed during conversion; interrupting it risks data loss."
            line)
        else Ok (harmless [] line)
    end
  else if bool_decide (action = ActionDelete) then
    let cache := cache_in t (cch_ID c) in
    let line := LRemoveCache (tc_ID cache) (tc_VolumeID cache) in
    if bool_decide (tc_CacheType cache = CacheModeReadWrite) then
      Ok (destructive
        "Removing a read-write SSD cache flushes dirty data; interrupting it risks data loss."
        "cache_dirty_flush"
        (if bool_decide (tc_VolumeID cache = "") then [tc_ID cache]
         else sort_strings [tc_ID cache; tc_VolumeID cache])
        "Dirty read-write cache data is flushed during removal; interrupting it risks data loss."
        line)
    else Ok (harmless ["Removing a read-only SSD cache is live and non-destructive."] line)
  else Ok no_effects.

Definition unsupported_created : string :=
  "allow_unsupported_disks is set: the pool is being created on drives DSM does not list as "
  +:+ "compatible, which Synology does not validate.".
Definition unsupported_added : string :=
  "allow_unsupported_disks is set: added drives DSM does not list as compatible are being "
  +:+ "accepted, which Synology does not validate.".

(** The disks that an update adds. *)
Definition addition_effects (c : PoolChange) : effects :=
  if no_ids (plc_AddDiskIDs c) then no_effects else
  harmless
    ("Adding disks can start a long-running RAID reshape or rebuild and cannot be represented as a field reset."
     :: (if plc_AllowUnsupportedDisks c then [unsupported_added] else []))
    (LAddDisks (plc_AddDiskIDs c) (plc_ID c)).

(** Its migration. *)
Definition migration_effects (c : PoolChange) : effects :=
  match plc_TargetRAIDType c with
  | None => no_effects
  | Some target => destructive
      "RAID migration can rebuild or replace the existing topology; verify the selected backend supports this exact transition."
      "raid_topology_replacement" [plc_ID c]
      "The existing pool topology may be replaced during RAID migration, risking data loss if interrupted or unsupported."
      (LMigratePool (plc_ID c) target)
  end.

Definition both (x y : effects) : effects := {|
  ef_Destructive := ef_Destructive x || ef_Destructive y;
  ef_Warnings := ef_Warnings x ++ ef_Warnings y;
  ef_Consequences := ef_Consequences x ++ ef_Consequences y;
  ef_Summary := ef_Summary x ++ ef_Summary y |}.

(** The volumes of a pool. *)
Definition volumes_of (t : storageTopology) (poolID : string) : list string :=
  tv_ID <$> base.filter (fun v => tv_PoolID v = poolID) (to_Volumes t).

Definition pool_effects (t : storageTopology) (action : string) (c : PoolChange) : effects :=
  if bool_decide (action = ActionCreate) then
    harmless
      ("DSM drive checking is enabled for pool creation and may run for an extended period."
       :: (if plc_AllowUnsupportedDisks c then [unsupported_created] else []))
      (LCreatePool (plc_Name c) (plc_RAIDType c) (plc_DiskIDs c))
  else if bool_decide (action = ActionUpdate) then both (addition_effects c) (migration_effects c)
  else if bool_decide (action = ActionDelete) then
    let pool := pool_in t (plc_ID c) in
    let resourceIDs := sort_strings (tp_ID pool :: volumes_of t (tp_ID pool)) in
    destructive "Deleting a storage pool permanently destroys the pool and every volume it contains."
      "permanent_data_loss" resourceIDs
      "All data in the storage pool and its child volumes will be permanently deleted."
      (LDeletePool (tp_ID pool) (count resourceIDs - 1))
  else no_effects.

Definition volume_effects (t : storageTopology) (action : string) (c : VolumeChange)
    (resolved : Z) : result service_error effects :=
  if bool_decide (action = ActionCreate) then
    match vch_Capacity c with
    | None => nil_object
    | Some p => Ok (harmless [] (LCreateVolume (vch_FileSystem c) (vch_Name c) (vch_PoolID c)
                                   (cpp_Mode p) resolved))
    end
  else if bool_decide (action = ActionUpdate) then
    match vch_ExpandTo c with
    | None => nil_object
    | Some p => Ok (harmless
        ["Volume expansion is additive; shrinking is deliberately not expressible by this contract."]
        (LExpandVolume (vch_ID c) (cpp_Mode p) resolved))
    end
  else if bool_decide (action = ActionDelete) then
    let volume := volume_in t (vch_ID c) in
    Ok (destructive "Deleting a volume permanently destroys all data stored on that volume."
          "permanent_data_loss" [tv_ID volume]
          "All data in the volume will be permanently deleted."
          (LDeleteVolume (tv_ID volume) (tv_PoolID volume)))
  else Ok no_effects.

Definition backend_warning : string :=
  "Backend support is model- and DSM-specific and must be selected per operation before apply.".

Definition storagePlanEffects (t : storageTopology) (r : StorageRequest) (resolved : Z) :
    result service_error effects :=
  e ← (if bool_decide (str_Resource r = ResourceCache) then
         match str_Cache r with
         | Some c => cache_effects t (str_Action r) c
         | None => nil_object
         end
       else if bool_decide (str_Resource r = ResourcePool) then
         match str_Pool r with
         | Some c => Ok (pool_effects t (str_Action r) c)
         | None => nil_object
         end
       else
         match str_Volume r with
         | Some c => volume_effects t (str_Action r) c resolved
         | None => nil_object
         end);
  Ok {| ef_Destructive := ef_Destructive e; ef_Warnings := backend_warning :: ef_Warnings e;
        ef_Consequences := ef_Consequences e; ef_Summary := ef_Summary e |}.

(** * Planning and applying a change of storage

    Source: internal/application/storage_management.go, [BuildStoragePlan], the plan hash,
    the postconditions, and [PlanStorageChange] and [ApplyStoragePlan] with the helpers they
    share.  The client behind the interface [storageManagementClient] is that of
    [StorageOps].  The service has a runtime manager. *)

Section apply.
Context `{Unicode, StorageHash}.

(** ** Building a plan *)

Definition storagePlanHash (p : StoragePlan) : string :=
  hash_storage (HStoragePlan (with_hash (sp_ProfileRevision p) "" p)).

(** [plan.ProfileRevision = revision; plan.Hash, err = storagePlanHash(plan)] *)
Definition at_revision (revision : Z) (p : StoragePlan) : StoragePlan :=
  let p := with_hash revision "" p in with_hash revision (storagePlanHash p) p.

Definition BuildStoragePlan (nas : string) (s : storage_state) (request : StorageRequest) :
    result service_error StoragePlan :=
  let nas := TrimSpace nas in
  require (negb (blank nas)) "NAS profile is required";;
  canonical ← canonicalStorageRequest request;
  topology ← normalizeStorageTopology s;
  validateStorageTopologyReferences topology canonical;;
  '(applicable, resolved) ← validateStorageMutationSafety s topology canonical;
  safety ← safety_observation s canonical;
  '(precondition, references) ← storagePreconditionAndReferences topology canonical;
  effects ← storagePlanEffects topology canonical resolved;
  Ok (at_revision 0 {|
    sp_APIVersion := managementAPIVersion; sp_NAS := nas; sp_ProfileRevision := 0;
    sp_Request := canonical; sp_Precondition := precondition; sp_References := references;
    sp_TopologyFingerprint := hash_storage (HTopology topology);
    sp_SafetyFingerprint := hash_storage (HSafety safety);
    sp_ResolvedCapacityBytes := resolved; sp_ApplicableRAIDTypes := applicable;
    sp_Destructive := ef_Destructive effects; sp_Risk := riskLevel (ef_Destructive effects);
    sp_Warnings := ef_Warnings effects; sp_DestructiveConsequences := ef_Consequences effects;
    sp_Summary := ef_Summary effects; sp_Hash := "" |}).

Definition validateStoragePlan (p : StoragePlan) (approvalHash : string) : verdict :=
  require (bool_decide (sp_APIVersion p = managementAPIVersion))
    "unsupported storage plan API version";;
  canonical ← canonicalStorageRequest (sp_Request p);
  require (bool_decide (hash_storage (HStorageRequest canonical)
                        = hash_storage (HStorageRequest (sp_Request p))))
    "storage plan request is not canonical";;
  require (negb (bool_decide (sp_Hash p = "")) && bool_decide (sp_Hash p = storagePlanHash p))
    "storage plan hash is invalid";;
  require (bool_decide (approvalHash = sp_Hash p))
    "approval hash does not match storage plan hash".

Definition ensureStorageBackendScope (r : StorageRequest) : verdict :=
  let migration := match str_Pool r with
                   | Some c => bool_decide (is_Some (plc_TargetRAIDType c))
                   | None => false
                   end in
  require (negb (bool_decide (str_Resource r = ResourcePool)
                 && bool_decide (str_Action r = ActionUpdate) && migration))
    "storage-pool RAID migration is not implemented; no DSM request was sent";;
  require (bool_decide (str_Resource r ∈ [ResourcePool; ResourceVolume; ResourceCache]))
    "storage mutation backend is not available; no DSM request was sent".

Definition storageActionSupported (c : StorageCaps) (resource action : string) : bool :=
  if bool_decide (resource = ResourceCache) then
    if bool_decide (action = ActionCreate) then stc_CacheCreate c
    else if bool_decide (action = ActionUpdate) then stc_CacheExpand c
    else if bool_decide (action = ActionConvert) then stc_CacheConvert c
    else bool_decide (action = ActionDelete) && stc_CacheDelete c
  else if bool_decide (resource = ResourceVolume) then
    if bool_decide (action = ActionCreate) then stc_VolumeCreate c
    else if bool_decide (action = ActionUpdate) then stc_VolumeUpdate c
    else bool_decide (action = ActionDelete) && stc_VolumeDelete c
  else
    if bool_decide (action = ActionCreate) then stc_PoolCreate c
    else if bool_decide (action = ActionUpdate) then stc_PoolUpdate c
    else bool_decide (action = ActionDelete) && stc_PoolDelete c.

(** ** Postconditions: the identifier of the changed resource *)

Definition validatePostStatus (status health : string) (actioning : bool) : verdict :=
  require
    (healthyStorageStatus status && healthyStorageStatus health
     || (actioning && negb (failedStorageStatus status) && negb (failedStorageStatus health))
     || (backgroundStorageStatus status && negb (failedStorageStatus health)))
    "post-mutation status/health".
Definition validatePoolPostStatus (p : Pool) : verdict :=
  validatePostStatus (spl_Status p) (spl_Health p) (spl_Actioning p).
Definition validateVolumePostStatus (v : Volume) : verdict :=
  validatePostStatus (svo_Status v) (svo_Health v) (svo_Actioning v).

(** The new cache of the volume; its mode, when DSM reports one. *)
Definition created_cache (before after : storage_state) (c : CacheChange) :
    result service_error string :=
  cache ← found (find_first (fun x =>
      bool_decide (ssc_ID x ∉ ssc_ID <$> sst_Caches before)
      && bool_decide (ssc_VolumeID x = cch_VolumeID c)) (sst_Caches after))
    "created SSD cache was not found on volume";
  require (negb (negb (blank (ssc_CacheType cache)) && negb (blank (cch_CacheType c))
                 && negb (bool_decide (ssc_CacheType cache = cch_CacheType c))))
    "new cache has another mode";;
  require (negb (failedStorageStatus (ssc_Status cache))) "new cache reports failed status";;
  Ok (ssc_ID cache).

Definition verifyStorageCachePostcondition (action : string) (c : CacheChange)
    (before after : storage_state) : result service_error string :=
  if bool_decide (action = ActionCreate) then created_cache before after c
  else if bool_decide (action = ActionDelete) then
    match storageCacheByID after (cch_ID c) with
    | None => Ok (cch_ID c)
    | Some cache =>
        require (ssc_Actioning cache || ssc_Flushing cache
                 || negb (healthyStorageStatus (ssc_Status cache)))
          "SSD cache still present after removal";;
        Ok (cch_ID c)
    end
  else
    cache ← found (storageCacheByID after (cch_ID c)) "SSD cache disappeared";
    require (negb (failedStorageStatus (ssc_Status cache))) "SSD cache reports failed status";;
    Ok (ssc_ID cache).

Definition created_pool (after : storage_state) (c : PoolChange) : result service_error string :=
  pool ← found (find_first (fun p =>
      bool_decide (spl_Name p = plc_Name c)
      && bool_decide (normalizeObservedRAIDType (spl_RAIDType p) = plc_RAIDType c)
      && sameStringSet (spl_DiskIDs p) (plc_DiskIDs c)) (sst_Pools after))
    "created pool was not found";
  validatePoolPostStatus pool;;
  Ok (spl_ID pool).

Definition expanded_pool (before after : storage_state) (c : PoolChange) :
    result service_error string :=
  current ← found (storagePoolByID before (plc_ID c)) "pre-mutation pool is missing";
  pool ← found (storagePoolByID after (plc_ID c)) "expanded pool disappeared";
  require (sameStringSet (spl_DiskIDs pool) (spl_DiskIDs current ++ plc_AddDiskIDs c))
    "expanded pool has other member disks";;
  require (bool_decide (normalizeObservedRAIDType (spl_RAIDType pool)
                        = normalizeObservedRAIDType (spl_RAIDType current)))
    "expanded pool RAID changed";;
  validatePoolPostStatus pool;;
  Ok (spl_ID pool).

Definition verifyStoragePoolPostcondition (action : string) (c : PoolChange)
    (before after : storage_state) : result service_error string :=
  if bool_decide (action = ActionCreate) then created_pool after c
  else if bool_decide (action = ActionUpdate) then expanded_pool before after c
  else if bool_decide (action = ActionDelete) then
    require (unset (storagePoolByID after (plc_ID c))) "deleted pool is still present";;
    Ok (plc_ID c)
  else Err (EText "unsupported storage-pool postcondition action").

(** A new volume is known by its identifier, pool, file system and, on a pool of many
    volumes, by the approved capacity; its name counts when DSM reports one. *)
Definition new_volume (before : storage_state) (layout : string) (resolved : Z)
    (c : VolumeChange) (v : Volume) : bool :=
  bool_decide (svo_ID v ∉ svo_ID <$> sst_Volumes before)
  && (blank (svo_Name v) || bool_decide (svo_Name v = vch_Name c))
  && bool_decide (svo_PoolID v = vch_PoolID c)
  && EqualFold (svo_FileSystem v) (vch_FileSystem c)
  && (negb (bool_decide (layout = "multiple")) || (svo_AllocatedBytes v =? resolved)).

Definition created_volume (before after : storage_state) (layout : string) (resolved : Z)
    (c : VolumeChange) : result service_error string :=
  match base.filter (fun v => new_volume before layout resolved c v = true) (sst_Volumes after) with
  | [v] => validateVolumePostStatus v;; Ok (svo_ID v)
  | _ => Err (EText "expected exactly one new volume")
  end.

Definition expanded_volume (before after : storage_state) (resolved : Z) (c : VolumeChange) :
    result service_error string :=
  previous ← found (storageVolumeByID before (vch_ID c)) "pre-mutation volume is missing";
  volume ← found (storageVolumeByID after (vch_ID c)) "expanded volume disappeared";
  require (bool_decide (svo_PoolID volume = svo_PoolID previous)
           && EqualFold (svo_FileSystem volume) (svo_FileSystem previous))
    "expanded volume changed parent pool or filesystem identity";;
  require (if svo_SingleVolume volume
           then negb ((svo_AllocatedBytes volume <=? svo_AllocatedBytes previous)
                      && negb (svo_Actioning volume))
           else negb ((svo_AllocatedBytes volume <? resolved) && negb (svo_Actioning volume)))
    "expanded volume is below the approved target";;
  validateVolumePostStatus volume;;
  Ok (svo_ID volume).

Definition verifyStorageVolumePostcondition (action : string) (c : VolumeChange)
    (layout : string) (resolved : Z) (before after : storage_state) :
    result service_error string :=
  if bool_decide (action = ActionCreate) then created_volume before after layout resolved c
  else if bool_decide (action = ActionUpdate) then expanded_volume before after resolved c
  else if bool_decide (action = ActionDelete) then
    require (unset (storageVolumeByID after (vch_ID c))) "deleted volume is still present";;
    Ok (vch_ID c)
  else Err (EText "unsupported volume postcondition action").

Definition verifyStoragePostcondition (p : StoragePlan) (before after : storage_state) :
    result service_error string :=
  let r := sp_Request p in
  if bool_decide (str_Resource r = ResourceCache) then
    match str_Cache r with
    | Some c => verifyStorageCachePostcondition (str_Action r) c before after
    | None => nil_object
    end
  else if bool_decide (str_Resource r = ResourceVolume) then
    match str_Volume r with
    | Some c => verifyStorageVolumePostcondition (str_Action r) c
                  (ssr_PoolLayout (sp_References p)) (sp_ResolvedCapacityBytes p) before after
    | None => nil_object
    end
  else
    match str_Pool r with
    | Some c => verifyStoragePoolPostcondition (str_Action r) c before after
    | None => nil_object
    end.

(** ** The service's operations *)

Section service.
Context `{Floats} {W : Type} `{Network W, ScriptNetwork W} {G : Type} (srv : Service G W).

Abbreviation MS := (ST (G * dstate W) service_error).

(** [if err := ctx.Err(); err != nil { return err }] *)
Definition alive (ctx : context) : MS () :=
  match ctx_Err ctx with Some e => fail (EGateway e) | None => mret () end.

(** What DSM can do, and its state; an unsupported action sends no change. *)
Definition supported_state (nas : string) (r : StorageRequest) : MS storage_state :=
  capabilities ← on_client (named nas StorageCapabilities);
  check (storageActionSupported capabilities (str_Resource r) (str_Action r))
    (EText "NAS does not support this change through a verified backend");;
  on_client (named nas StorageState).

Definition planStorageChangeWithClient (nas : string) (request : StorageRequest) :
    MS StoragePlan :=
  s ← supported_state nas request;
  lift (BuildStoragePlan nas s request).

Definition PlanStorageChange (ctx : context) (requestedNAS : string) (request : StorageRequest) :
    MS StoragePlan :=
  alive ctx;;
  canonical ← lift (canonicalStorageRequest request);
  lift (ensureStorageBackendScope canonical);;
  name ← sv_Client srv ctx requestedNAS;
  plan ← planStorageChangeWithClient name canonical;
  revision ← profileRevision srv ctx name;
  mret (at_revision revision plan).

(** The plan made from the state now is the approved one. *)
Definition same_plan_now (refreshed plan : StoragePlan) : bool :=
  bool_decide (sp_Hash refreshed = sp_Hash plan)
  && bool_decide (sp_TopologyFingerprint refreshed = sp_TopologyFingerprint plan)
  && bool_decide (sp_SafetyFingerprint refreshed = sp_SafetyFingerprint plan)
  && bool_decide (sp_Precondition refreshed = sp_Precondition plan)
  && bool_decide (sp_References refreshed = sp_References plan).

(** [if operation.ResourceID == "" { operation.ResourceID = resourceID }] *)
Definition identified (r : MutationResult) (id : string) : MutationResult :=
  {| mur_ResourceID := if bool_decide (mur_ResourceID r = "") then id else mur_ResourceID r;
     mur_Operation := mur_Operation r |}.

Definition applyStoragePlanWithClient (plan : StoragePlan) : MS StorageApplyResult :=
  let nas := sp_NAS plan in
  current ← supported_state nas (sp_Request plan);
  refreshed ← around "storage plan precondition failed"
    (lift (BuildStoragePlan nas current (sp_Request plan)));
  check (same_plan_now (at_revision (sp_ProfileRevision plan) refreshed) plan)
    (EText "storage plan is stale");;
  operation ← on_client (named nas (ApplyStorageChange {|
    smi_Request := sp_Request plan; smi_State := current;
    smi_ResolvedCapacityBytes := sp_ResolvedCapacityBytes plan |}));
  after ← around "mutation returned but postcondition inventory failed" (on_client StorageState);
  resourceID ← around "storage postcondition failed"
    (lift (verifyStoragePostcondition plan current after));
  mret {| sar_NAS := nas; sar_PlanHash := sp_Hash plan; sar_Applied := true;
          sar_Operation := identified operation resourceID |}.

Definition ApplyStoragePlan (ctx : context) (plan : StoragePlan) (approvalHash : string) :
    MS StorageApplyResult :=
  alive ctx;;
  lift (validateStoragePlan plan approvalHash);;
  authorizeRemoteApply srv ctx (sp_NAS plan) (sp_ProfileRevision plan) (sp_Hash plan)
    (sp_Risk plan);;
  lift (ensureStorageBackendScope (sp_Request plan));;
  verifyProfileRevision srv ctx (sp_NAS plan) (sp_ProfileRevision plan);;
  name ← sv_Client srv ctx (sp_NAS plan);
  check (bool_decide (name = sp_NAS plan))
    (EText "storage plan NAS resolved to different profile");;
  applyStoragePlanWithClient plan.
End service.
End apply.
