(* ===== verification/StorageCalls.v ===== *)
(** * What guarded changes of storage put on the wire

    The reads of storage send no change; an apply sends the one call of its request, with
    exactly its parameters.  The samples that the properties are shown on are at the end. *)

From S2P Require Import Prelude.
From S2P Require Import GoStrings.
From S2P Require Import Compat.
From S2P Require Import Json.
From S2P Require Import DsmErrors.
From S2P Require Import DsmClient.
From S2P Require Import DsmThms.
From S2P Require Import DsmWire.
From S2P Require Import DsmOps.
From S2P Require Import Identity.
From S2P Require Import Service.
From S2P Require Import Management.
From S2P Require Import Storage.
From S2P Require Import StorageChecks.
From S2P Require Import StorageWire.
From S2P Require Import StorageOps.
From S2P Require Import StoragePlan.

(** The requests that change storage. *)
Definition storage_writes : list (string * string) :=
  [(PoolAPIName, "create"); (PoolAPIName, "expand_by_add_disk"); (PoolAPIName, "remove");
   (VolumeAPIName, "deploy_unused"); (VolumeAPIName, "create_on_existing_pool");
   (VolumeAPIName, "expand_unallocated"); (VolumeAPIName, "expand_pool_child");
   (VolumeAPIName, "delete"); (FlashcacheAPIName, "enable"); (FlashcacheAPIName, "remove")].
Definition storage_write : Post → Prop := writes storage_writes.

(** A typed call of version 1, when its parameters can be built. *)
Definition built (api method : string) (x : result dsm_error object) : list Request :=
  match x with Ok params => [typed_call api 1 method params []] | Err _ => [] end.
Definition built_call (api : string) (x : result dsm_error (string * object)) : list Request :=
  match x with Ok (method, params) => [typed_call api 1 method params []] | Err _ => [] end.

Section calls.
Context `{Unicode}.

Definition pool_calls (action : string) (c : PoolChange) (s : storage_state) : list Request :=
  if bool_decide (action = ActionCreate) then built PoolAPIName "create" (pool_create_params c)
  else if bool_decide (action = ActionUpdate)
  then built PoolAPIName "expand_by_add_disk" (Ok (pool_expand_params (pool_input action c s)))
  else built PoolAPIName "remove" (Ok (pool_delete_params c)).

Definition volume_calls (action : string) (c : VolumeChange) (s : storage_state)
    (resolved : Z) : list Request :=
  match volume_input action c s resolved with
  | Err _ => []
  | Ok i =>
      if bool_decide (action = ActionCreate) then built_call VolumeAPIName (volume_create_call i)
      else if bool_decide (action = ActionUpdate)
      then built_call VolumeAPIName (volume_expand_call i)
      else built VolumeAPIName "delete" (Ok (volume_delete_params c))
  end.

Definition cache_calls (action : string) (c : CacheChange) (s : storage_state) (size : Z) :
    list Request :=
  match cache_reference action c s with
  | Err _ => []
  | Ok reference =>
      if bool_decide (action = ActionCreate)
      then built FlashcacheAPIName "enable" (cache_create_params (cache_input c reference size true))
      else built FlashcacheAPIName "remove"
             (Ok (cache_delete_params (cache_input c reference size false)))
  end.

(** What a change sends, given the size that DSM estimates for a new cache. *)
Definition storage_calls (i : StorageMutationInput) (size : Z) : list Request :=
  let r := smi_Request i in
  if bool_decide (str_Resource r = ResourcePool) then
    match str_Pool r with Some c => pool_calls (str_Action r) c (smi_State i) | None => [] end
  else if bool_decide (str_Resource r = ResourceVolume) then
    match str_Volume r with
    | Some c => volume_calls (str_Action r) c (smi_State i) (smi_ResolvedCapacityBytes i)
    | None => []
    end
  else
    match str_Cache r with
    | Some c => cache_calls (str_Action r) c (smi_State i) size
    | None => []
    end.
End calls.

Section reads.
Context `{Unicode, Floats} {W : Type} `{Network W, ScriptNetwork W}.

Abbreviation M := (ST (dstate W) dsm_error).
Abbreviation quiet := (silent storage_write).

Lemma quiet_script api version method :
  is_own api = false → quiet (executeScriptLocked api version method : M _).
Proof.
  intros Hown. unfold executeScriptLocked, requestScriptLocked, storage_write.
  assert (∀ p, own_api (po_API p) → ¬ writes storage_writes p) as Ho
    by (intros p; by apply own_not_writes).
  silent_walk; first [by apply silent_ensure | by apply silent_login].
Qed.

Lemma quiet_model : quiet (run_op modelOperation () : M _).
Proof.
  apply only_operation. silent_walk. by apply quiet_script.
Qed.

Lemma quiet_model_filesystems b s : quiet (model_filesystems b s : M (list string)).
Proof. unfold model_filesystems. silent_walk. apply quiet_model. Qed.

Lemma quiet_StorageState : quiet (StorageState : M storage_state).
Proof.
  unfold StorageState, storage_write, inventoryOperation. quiet_walk.
  apply quiet_model_filesystems.
Qed.

Lemma quiet_StorageCapabilities : quiet (StorageCapabilities : M StorageCaps).
Proof. unfold StorageCapabilities, storage_write. quiet_walk. by apply silent_update. Qed.

(** ** Changes *)

Abbreviation by_calls calls := (only_calls storage_write calls).

Lemma mutate_by api method params calls :
  typed_call api 1 method params [] ∈ calls → is_own api = false →
  by_calls calls (mutate api method params : M ()).
Proof. intros. unfold mutate. silent_walk. by apply call_among. Qed.

Lemma run_mutation_by {I} calls (op : Operation (I → M MutationResult)) (i : I) :
  by_calls calls (run_op op i) → by_calls calls (run_mutation op i).
Proof. intros. unfold run_mutation. by silent_walk. Qed.

Ltac mutate_leaf := apply mutate_by; [by left|reflexivity].
Ltac prepare_quiet := apply silent_wrap, quiet_prepared; [reflexivity|by apply (bool_decide_unpack _)].

Lemma pool_by action c s :
  by_calls (pool_calls action c s) (applyStoragePoolChange action c s : M MutationResult).
Proof.
  unfold applyStoragePoolChange, pool_calls. apply silent_bind.
  { apply silent_writes. prepare_quiet. }
  intros _. apply silent_wrap.
  repeat (case_bool_decide; [apply run_mutation_by, only_operation|]); [..|apply silent_fail];
    [apply only_lift_bind; cbn [pin_Pool pool_input]; intros params ->|..];
    silent_walk; mutate_leaf.
Qed.

Lemma volume_by action c s resolved :
  by_calls (volume_calls action c s resolved)
    (applyVolumeChange action c s resolved : M MutationResult).
Proof.
  unfold applyVolumeChange, volume_calls. apply only_lift_bind. intros i Hi. rewrite Hi.
  apply silent_bind.
  { apply silent_writes. prepare_quiet. }
  intros _. apply silent_wrap.
  assert (vin_Volume i = c) as Hc.
  { revert Hi. unfold volume_input. by intros ([v p] & _ & [= <-])%result_bind_ok. }
  repeat (case_bool_decide; [apply run_mutation_by, only_operation|]); [..|apply silent_fail].
  - apply only_lift_bind. intros [method params] ->. silent_walk. mutate_leaf.
  - apply only_lift_bind. intros [method params] ->. silent_walk. mutate_leaf.
  - rewrite Hc. silent_walk. mutate_leaf.
Qed.

(** The size of a new cache, as a change of it run from [d] reads it. *)
Definition size_before (r : StorageRequest) (s : storage_state) (d : dstate W) (size : Z) : Prop :=
  ∀ c, str_Resource r = ResourceCache → str_Cache r = Some c →
    ∃ reference d', cache_reference (str_Action r) c s = Ok reference ∧
      (wrap "prepare SSD cache mutation target"
         (prepareCompatibilityTargetLocked flashcache_APINames);;
       cache_size (str_Action r) c reference) d = (Ok size, d').

Lemma quiet_cache_size action c reference : quiet (cache_size action c reference : M Z).
Proof. unfold cache_size, EstimateRAIDSize, storage_write. quiet_walk. Qed.

Lemma cache_by action c reference size :
  by_calls (if bool_decide (action = ActionCreate)
            then built FlashcacheAPIName "enable"
                   (cache_create_params (cache_input c reference size true))
            else built FlashcacheAPIName "remove"
                   (Ok (cache_delete_params (cache_input c reference size false))))
    (wrap "apply SSD cache"
       (if bool_decide (action = ActionCreate)
        then run_mutation cacheCreateOperation (cache_input c reference size true)
        else run_mutation cacheDeleteOperation (cache_input c reference size false))
     : M MutationResult).
Proof.
  apply silent_wrap. case_bool_decide; apply run_mutation_by, only_operation.
  - apply only_lift_bind. intros params ->. silent_walk. mutate_leaf.
  - silent_walk. mutate_leaf.
Qed.

(** A change of a cache: nothing, or the call for the size that was read. *)
Lemma cache_change_sends r c st (d : dstate W) x d' :
  str_Resource r = ResourceCache → str_Cache r = Some c →
  applyCacheChange (str_Action r) c st d = (x, d') →
  ∃ l, dc_log d' = dc_log d ++ l ∧
    (Forall (fun x => ¬ storage_write x.1) l ∨
     ∃ size, size_before r st d size ∧
       Forall (fun x => storage_write x.1 →
         changes_by (cache_calls (str_Action r) c st size) x.1) l).
Proof.
  intros Hr Hc. unfold applyCacheChange, cache_calls.
  destruct (cache_reference (str_Action r) c st) as [reference|e] eqn:Eref; cbn [lift].
  2:{ intros [= <- <-]. exists []. rewrite app_nil_r. split; [done|]. left. constructor. }
  change (mbind ?k (mret reference)) with (k reference). cbv beta. rewrite bind_assoc. intros Ha.
  eapply (silent_then _ (fun size => changes_by
    (if bool_decide (str_Action r = ActionCreate)
     then built FlashcacheAPIName "enable" (cache_create_params (cache_input c reference size true))
     else built FlashcacheAPIName "remove"
            (Ok (cache_delete_params (cache_input c reference size false)))))) in Ha
    as (l & Hl & Hq).
  - exists l. split; [done|]. destruct Hq as [?|(size & d1 & Hs & HP)]; [by left|]. right.
    exists size. split; [|done]. intros c' _ ?. simplify_eq. by exists reference, d1.
  - apply silent_bind; [unfold storage_write; prepare_quiet|]. intros _. apply quiet_cache_size.
  - intros size. apply cache_by.
Qed.

Lemma storage_change_sends i (d : dstate W) r d' :
  ApplyStorageChange i d = (r, d') →
  ∃ l, dc_log d' = dc_log d ++ l ∧
    (Forall (fun x => ¬ storage_write x.1) l ∨
     ∃ size, size_before (smi_Request i) (smi_State i) d size ∧
       Forall (fun x => storage_write x.1 → changes_by (storage_calls i size) x.1) l).
Proof.
  assert (∀ e r (d' : dstate W), (fail e : M MutationResult) d = (r, d') →
    ∃ l, dc_log d' = dc_log d ++ l ∧
    (Forall (fun x => ¬ storage_write x.1) l ∨
     ∃ size, size_before (smi_Request i) (smi_State i) d size ∧
       Forall (fun x => storage_write x.1 → changes_by (storage_calls i size) x.1) l)) as Hf.
  { intros e x x' [= _ <-]. exists []. rewrite app_nil_r. split; [done|]. left. constructor. }
  unfold ApplyStorageChange. cbv zeta.
  intros [(e & (_ & _ & ->)%check_err_inv & ->)|([] & s1 & [_ ->]%check_ok_inv & Ha)]%bind_inv.
  { by eapply (Hf (EMsg "")). }
  revert Hf. unfold storage_calls. cbv zeta.
  case_bool_decide as Hp; [|case_bool_decide as Hv; [|case_bool_decide as Hc]];
    [| | |intros Hf; by eapply Hf].
  - destruct (str_Pool (smi_Request i)) as [c|], (str_Volume (smi_Request i)); intros Hf; [by eapply Hf| |by eapply Hf..].
    apply pool_by in Ha as (_ & l & Hl & HP). exists l. split; [done|]. right. exists 0.
    split; [|done]. intros c' Hc'. by rewrite Hp in Hc'.
  - destruct (str_Volume (smi_Request i)) as [c|], (str_Pool (smi_Request i)); intros Hf; [by eapply Hf| |by eapply Hf..].
    apply volume_by in Ha as (_ & l & Hl & HP). exists l. split; [done|]. right. exists 0.
    split; [|done]. intros c' Hc'. by rewrite Hv in Hc'.
  - destruct (str_Cache (smi_Request i)) as [c|] eqn:Ec, (str_Pool (smi_Request i)), (str_Volume (smi_Request i)); intros Hf;
      try by eapply Hf.
    by eapply cache_change_sends.
Qed.
End reads.

(** * A NAS with disks, a pool and a volume, in samples

    An inventory as DSM reports it, changes of it, and a readable stand-in for the hashes.
    The properties of storage changes are instantiated on them. *)

(** Resource, action and risk of a plan, in the clear. *)
Definition clear_storage : StorageHash := {| hash_storage := fun v =>
  match v with
  | HStoragePlan p => str_Resource (sp_Request p) +:+ " " +:+ str_Action (sp_Request p) +:+ " "
                      +:+ sp_Risk p
  | HStorageRequest r => str_Resource r +:+ " " +:+ str_Action r
  | _ => "fingerprint"
  end |}.

(** No text is a floating-point number. *)
Definition no_floats : Floats := {| float_uint64 := fun _ => None; float_parses := fun _ => false |}.
(** The definitions of a model with one file system. *)
Definition btrfs_model : ScriptNetwork (list answer) := {| net_script := fun _ _ _ _ w =>
  (Script 200 (Some (Some (JObject [("support_btrfs", JString "yes")]))), w) |}.

(** ** The inventory *)

Definition gib (n : Z) : json := JNumber (Itoa (n * 2 ^ 30)).

Definition disk_json (id usedBy : string) (selectable : bool) : json := JObject
  [("id", JString id); ("used_by", JString usedBy); ("status", JString "normal");
   ("smart_status", JString "normal"); ("compatibility", JString "support");
   ("size_total", gib 100); ("action", JObject [("selectable", JBool selectable)])].

Definition pool_json : json := JObject
  [("id", JString "reuse_1"); ("desc", JString "data"); ("pool_path", JString "reuse_1");
   ("device_type", JString "raid_1"); ("raidType", JString "multiple");
   ("status", JString "normal"); ("is_writable", JBool true);
   ("compatibility", JBool true); ("disks", JArray [JString "sata1"; JString "sata2"]);
   ("size", JObject [("total", gib 99); ("used", gib 40)]);
   ("can_do", JObject [("expand_by_disk", JBool true); ("delete", JBool true)])].

Definition volume_json : json := JObject
  [("id", JString "volume_1"); ("pool_path", JString "reuse_1"); ("fs_type", JString "btrfs");
   ("status", JString "normal"); ("is_writable", JBool true); ("raidType", JString "multiple");
   ("size", JObject [("total", gib 39); ("used", gib 1); ("total_device", gib 40)]);
   ("can_do", JObject [("delete", JBool true)])].

(** The inventory with these pools and volumes. *)
Definition inventory_json (pools volumes : list json) : object :=
  [("env", JObject [("bay_number", JNumber "4"); ("max_fs_bytes", gib 1000);
                    ("support", JObject [("sysdef", JBool true)])]);
   ("disks", JArray [disk_json "sata1" "reuse_1" false; disk_json "sata2" "reuse_1" false;
                     disk_json "sata3" "" true; disk_json "sata4" "" true]);
   ("storagePools", JArray pools); ("volumes", JArray volumes)].

(** The state, on a model with one file system. *)
Definition sample_storage : storage_state :=
  set_creation false false ["btrfs"]
    (@inventory ascii_tables no_floats (inventory_json [pool_json] [volume_json])).

(** ** Changes *)

Definition pool_request (action : string) (c : PoolChange) : StorageRequest :=
  {| str_Action := action; str_Resource := ResourcePool; str_Pool := Some c; str_Volume := None;
     str_Cache := None |}.

(** A pool of the two spare disks. *)
Definition mirror : PoolChange := {|
  plc_ID := ""; plc_Name := "mirror"; plc_RAIDType := "raid1"; plc_DiskIDs := ["sata3"; "sata4"];
  plc_AddDiskIDs := []; plc_TargetRAIDType := None; plc_AllowUnsupportedDisks := false |}.
Definition create_mirror : StorageRequest := pool_request ActionCreate mirror.

(** The pool is deleted. *)
Definition delete_data : StorageRequest := pool_request ActionDelete {|
  plc_ID := "reuse_1"; plc_Name := ""; plc_RAIDType := ""; plc_DiskIDs := []; plc_AddDiskIDs := [];
  plc_TargetRAIDType := None; plc_AllowUnsupportedDisks := false |}.

(** A second volume, as large as fits. *)
Definition second : VolumeChange := {|
  vch_ID := ""; vch_Name := "second"; vch_PoolID := "reuse_1"; vch_FileSystem := "btrfs";
  vch_Capacity := Some {| cpp_Mode := CapacityMaximum; cpp_SizeBytes := 0 |};
  vch_ExpandTo := None |}.
Definition create_second : StorageRequest :=
  {| str_Action := ActionCreate; str_Resource := ResourceVolume; str_Pool := None;
     str_Volume := Some second; str_Cache := None |}.

(** ** Plans *)

Definition blank_plan : StoragePlan := {|
  sp_APIVersion := ""; sp_NAS := ""; sp_ProfileRevision := 0; sp_Request := delete_data;
  sp_Precondition := absent; sp_References := no_references; sp_TopologyFingerprint := "";
  sp_SafetyFingerprint := ""; sp_ResolvedCapacityBytes := 0; sp_ApplicableRAIDTypes := [];
  sp_Destructive := false; sp_Risk := ""; sp_Warnings := []; sp_DestructiveConsequences := [];
  sp_Summary := []; sp_Hash := "" |}.
Definition built_plan (r : result service_error StoragePlan) : StoragePlan :=
  match r with Ok p => p | Err _ => blank_plan end.
Definition planned (r : StorageRequest) : StoragePlan :=
  built_plan (@BuildStoragePlan ascii_tables clear_storage "nas1" sample_storage r).

Lemma planned_mirror :
  @BuildStoragePlan ascii_tables clear_storage "nas1" sample_storage create_mirror
  = Ok (planned create_mirror).
Proof. vm_compute. reflexivity. Qed.
Lemma planned_delete :
  @BuildStoragePlan ascii_tables clear_storage "nas1" sample_storage delete_data
  = Ok (planned delete_data).
Proof. vm_compute. reflexivity. Qed.
Lemma planned_second :
  @BuildStoragePlan ascii_tables clear_storage "nas1" sample_storage create_second
  = Ok (planned create_second).
Proof. vm_compute. reflexivity. Qed.

(** ** The NAS *)

Definition storage_apis : list string :=
  [StorageAPIName; DefsAPIName; PoolAPIName; VolumeAPIName; FlashcacheAPIName; ProtectionAPIName].
Definition storage_nas (answers : list answer) : dstate (list answer) :=
  script_state "https" storage_apis answers.
Definition full_reply : answer := reply (inventory_json [pool_json] [volume_json]).
Definition empty_reply : answer := reply (inventory_json [] []).

(** The answers to the deletion. *)
Definition destroy_script : list answer := [full_reply; reply []; empty_reply].
