(* ===== verification/ManagementWire.v ===== *)
(** * What guarded changes put on the wire

    The reads of accounts and shared folders send no change; an apply sends the calls of
    its request, with exactly their parameters.  The samples that the properties are shown
    on are at the end. *)

From S2P Require Import Prelude.
From S2P Require Import GoStrings.
From S2P Require Import Compat.
From S2P Require Import Json.
From S2P Require Import DsmErrors.
From S2P Require Import DsmClient.
From S2P Require Import DsmThms.
From S2P Require Import DsmWire.
From S2P Require Import DsmOps.
From S2P Require Import Identity.
From S2P Require Import IdentityWire.
From S2P Require Import IdentityOps.
From S2P Require Import ShareWire.
From S2P Require Import ShareOps.
From S2P Require Import Service.
From S2P Require Import Management.

(** The requests that change accounts or shared folders. *)
Definition managed_writes : list (string * string) :=
  [(UserAPIName, "create"); (UserAPIName, "set"); (UserAPIName, "delete");
   (GroupAPIName, "create"); (GroupAPIName, "set"); (GroupAPIName, "delete");
   (MemberAPIName, "change"); (QuotaAPIName, "set"); (RuleAPIName, "delete");
   (RuleAPIName, "set"); (ShareAPIName, "create"); (ShareAPIName, "set");
   (ShareAPIName, "delete"); (PermissionAPIName, "set_by_user_group")].
Definition managed_write : Post → Prop := writes managed_writes.

(** The change of a user's groups: one call per group, additions first. *)
Definition membership_calls (user : string) (delta : list string * list string) :
    list Request :=
  ((fun g => change_group g [user] []) <$> delta.1)
  ++ ((fun g => change_group g [] [user]) <$> delta.2).

(** The rules to delete and the rules to set, each in one call, empty ones left out. *)
Definition rule_calls (method : string) (rules : list json) : list Request :=
  if bool_decide (rules = []) then []
  else [typed_call RuleAPIName 1 method [("rules", JArray rules)] []].

Definition call_of {P} (f : string → P → Request) (x : result dsm_error (string * P * string)) :
    list Request :=
  match x with Ok (method, params, _) => [f method params] | Err _ => [] end.

(** The change of a resource of unknown name, one of the five. *)
Inductive identity_object :=
| OUser (c : UserChange)
| OGroup (c : GroupChange)
| OMembership (c : MembershipChange)
| OQuota (c : QuotaChange)
| OPrivilege (c : ApplicationPrivilegeChange).

(** The object that a request's resource names. *)
Definition identity_object_of (r : IdentityChange) : option identity_object :=
  if bool_decide (icr_Resource r = ResourceUser) then OUser <$> icr_User r
  else if bool_decide (icr_Resource r = ResourceGroup) then OGroup <$> icr_Group r
  else if bool_decide (icr_Resource r = ResourceMembership) then OMembership <$> icr_Membership r
  else if bool_decide (icr_Resource r = ResourceQuota) then OQuota <$> icr_Quota r
  else if bool_decide (icr_Resource r = ResourceApplicationPrivilege)
  then OPrivilege <$> icr_ApplicationPrivilege r
  else None.

Section calls.
Context `{Unicode}.

(** What a request sends, given the user's groups when it is sent. *)
Definition identity_calls (r : IdentityChange) (password : string) (current : list string) :
    list Request :=
  match identity_object_of r with
  | Some (OUser c) => call_of user_call (userRequest (icr_Action r) c password)
  | Some (OGroup c) => call_of (form_call GroupAPIName 1) (groupRequest (icr_Action r) c)
  | Some (OMembership c) =>
      membership_calls (mch_User c) (membershipDelta current (mch_Groups c))
  | Some (OQuota c) => [typed_call QuotaAPIName 1 "set"
      (quota_set_params (qch_PrincipalType c) (qch_Principal c) (qch_Limits c)) []]
  | Some (OPrivilege c) =>
      rule_calls "delete"
        (rule_deletes (apc_PrincipalType c) (apc_Principal c) (apc_Permissions c))
      ++ rule_calls "set" (rule_sets (apc_PrincipalType c) (apc_Principal c) (apc_Permissions c))
  | None => []
  end.

(** What a request sends, given the volume that the folder is on. *)
Definition share_calls (r : ShareRequest) (path : string) : list Request :=
  if bool_decide (scr_Resource r = ResourceShare) then
    match scr_Share r with
    | Some c => call_of (form_call ShareAPIName 1) (shareRequest (scr_Action r) c path)
    | None => []
    end
  else if bool_decide (scr_Resource r = ResourcePermission) then
    match scr_Permission r with
    | Some c =>
        match permissionRequest c with
        | Ok params => [form_call PermissionAPIName 1 "set_by_user_group" params]
        | Err _ => []
        end
    | None => []
    end
  else [].
End calls.

(** ** Reads *)

Section reads.
Context `{Unicode} {W : Type} `{Network W}.

Abbreviation M := (ST (dstate W) dsm_error).
Abbreviation quiet := (silent managed_write).

Lemma quiet_complete_groups groups : quiet (complete_groups groups : M (list Group)).
Proof.
  induction groups as [|g groups IH]; cbn [complete_groups]; [apply silent_ret|].
  unfold managed_write in *. quiet_walk.
Qed.

Lemma quiet_read_members groups memberships :
  quiet (read_members groups memberships : M (gmap string (list string))).
Proof.
  revert memberships. induction groups as [|g groups IH]; intros memberships;
    cbn [read_members]; [apply silent_ret|].
  unfold managed_write in *. quiet_walk. apply IH.
Qed.

Lemma quiet_read_each {A} (read : kind_name → M A) targets :
  (∀ t, quiet (read t)) → quiet (read_each read targets).
Proof.
  intros Hr. induction targets as [|t targets IH]; cbn [read_each]; [apply silent_ret|].
  apply silent_bind; [apply Hr|]. intros a. apply silent_bind; [done|]. intros.
  apply silent_ret.
Qed.

Lemma quiet_inventory : quiet (ExecuteInventory : M (list User * list Group)).
Proof.
  unfold ExecuteInventory, userOperation, groupOperation, managed_write. quiet_walk.
  apply quiet_complete_groups.
Qed.

Lemma quiet_memberships q users groups :
  quiet (read_memberships q users groups : M (list Membership)).
Proof.
  unfold read_memberships, membershipReadOperation, managed_write. quiet_walk.
  apply quiet_read_members.
Qed.

Lemma quiet_quotas q s : quiet (read_quotas q s : M (list PrincipalQuota)).
Proof.
  unfold read_quotas. quiet_walk. apply quiet_read_each. intros t.
  unfold quotaReadOperation, managed_write. quiet_walk.
Qed.

Lemma quiet_privileges q s :
  quiet (read_privileges q s : M (list Application * list ApplicationPrivilegeAssignment)).
Proof.
  unfold read_privileges, appListOperation, managed_write. quiet_walk.
  apply quiet_read_each. intros t. unfold ruleReadOperation, managed_write. quiet_walk.
Qed.

Lemma quiet_identityStateLocked q : quiet (identityStateLocked q : M identity_state).
Proof.
  unfold identityStateLocked. silent_walk.
  - apply quiet_inventory.
  - apply quiet_memberships.
  - apply quiet_quotas.
  - apply quiet_privileges.
Qed.

Lemma quiet_IdentityState q : quiet (IdentityState q : M identity_state).
Proof.
  unfold IdentityState, managed_write. quiet_walk. apply quiet_identityStateLocked.
Qed.

Lemma quiet_permissions p : quiet (run_op permissionListOperation p : M _).
Proof.
  unfold permissionListOperation, managed_write. destruct p as [kind name].
  apply only_operation. cbn [fst snd]. unfold permissionMethod.
  repeat case_bool_decide; quiet_walk; simplify_eq; quiet_walk.
Qed.

Lemma quiet_appendPermissions byName principals shares :
  quiet (appendPermissions byName principals shares : M (list SharedFolder)).
Proof.
  revert shares. induction principals as [|p principals IH]; intros shares;
    cbn [appendPermissions]; [apply silent_ret|].
  apply silent_bind; [apply quiet_permissions|]. intros [results sel]. apply IH.
Qed.

Lemma quiet_ExecuteShares input : quiet (ExecuteShares input : M share_state).
Proof.
  unfold ExecuteShares, managed_write. quiet_walk; [|apply quiet_appendPermissions].
  unfold shareListOperation. quiet_walk.
Qed.

Lemma quiet_ShareState includePermissions :
  quiet (ShareState includePermissions : M share_state).
Proof.
  unfold ShareState, managed_write. quiet_walk;
    [apply quiet_identityStateLocked|apply quiet_ExecuteShares].
Qed.

(** ** Changes *)

Abbreviation by_calls calls := (only_calls managed_write calls).

Lemma quiet_by {A} calls (m : M A) : quiet m → by_calls calls m.
Proof. apply silent_writes. Qed.

Lemma call_by calls call :
  call ∈ calls → is_own (rq_API call) = false →
  by_calls calls (executeLocked call : M RawMessage).
Proof. by apply call_among. Qed.

Lemma change_groups_by calls change groups :
  (∀ g, g ∈ groups → by_calls calls (change g : M ())) →
  by_calls calls (change_groups change groups).
Proof.
  induction groups as [|g groups IH]; intros Hg; cbn [change_groups]; [apply silent_ret|].
  apply silent_bind; [apply Hg; by left|]. intros _. apply IH. intros g' Hg'. apply Hg. by right.
Qed.

Lemma membership_by user add remove :
  by_calls (membership_calls user (add, remove))
    (run_op membershipChangeOperation (user, add, remove) : M _).
Proof.
  apply only_operation. unfold membership_calls, changeGroup. cbn [fst snd].
  apply silent_bind; [|intros _; apply silent_bind; [|intros; apply silent_ret]];
    apply change_groups_by; intros g Hg; silent_walk; (apply call_by; [|reflexivity]);
    rewrite elem_of_app; [left|right]; by apply (list_elem_of_fmap_2 (fun g => change_group g _ _)).
Qed.

Lemma rules_by method rules :
  by_calls (rule_calls method rules) (rules_call method rules : M ()).
Proof.
  unfold rule_calls, rules_call. case_bool_decide; silent_walk.
  apply call_by; [by left|reflexivity].
Qed.

Lemma only_required {A B} (R : Post → Prop) (o : option A) msg (k : A → M B) :
  (∀ a, o = Some a → only R (k a)) → only R (a ← required o msg; k a).
Proof.
  intros Hk. unfold required. destruct o as [a|]; [by apply (Hk a)|]. by apply silent_pure.
Qed.

Ltac call_leaf := apply call_by; [by left|reflexivity].

(** A mutation of one call, built by [request]. *)
Lemma call_of_by {P O} calls (f : string → P → Request) x (k : string → P → string → M O) :
  calls = call_of f x →
  (∀ method params name, x = Ok (method, params, name) → by_calls calls (k method params name)) →
  by_calls calls ('(method, params, name) ← lift x; k method params name).
Proof.
  intros -> Hk. apply only_lift_bind. intros [[method params] name] Hx. by apply Hk.
Qed.

Lemma user_by action c password :
  by_calls (call_of user_call (userRequest action c password))
    (run_op userMutationOperation (action, c, password) : M _).
Proof.
  apply only_operation. eapply call_of_by; [done|]. intros method params name ->. cbn [call_of].
  silent_walk. call_leaf.
Qed.

Lemma group_by action c :
  by_calls (call_of (form_call GroupAPIName 1) (groupRequest action c))
    (run_op groupMutationOperation (action, c) : M _).
Proof.
  apply only_operation. eapply call_of_by; [done|]. intros method params name ->. cbn [call_of].
  silent_walk. call_leaf.
Qed.

Lemma quota_by c :
  by_calls [typed_call QuotaAPIName 1 "set"
      (quota_set_params (qch_PrincipalType c) (qch_Principal c) (qch_Limits c)) []]
    (run_op quotaSetOperation c : M _).
Proof. apply only_operation. silent_walk. call_leaf. Qed.

Lemma privilege_by c :
  by_calls (rule_calls "delete"
        (rule_deletes (apc_PrincipalType c) (apc_Principal c) (apc_Permissions c))
      ++ rule_calls "set" (rule_sets (apc_PrincipalType c) (apc_Principal c) (apc_Permissions c)))
    (run_op ruleSetOperation c : M _).
Proof.
  apply only_operation. unfold executeRuleSet. silent_walk;
    (eapply only_calls_mono; [|apply rules_by]); set_solver.
Qed.

(** A change other than one of memberships sends the calls of its request. *)
Lemma identity_change_by request password current :
  icr_Resource request ≠ ResourceMembership →
  by_calls (identity_calls request password current)
    (ApplyIdentityChange request password : M ChangeResult).
Proof.
  intros Hne. unfold ApplyIdentityChange, identity_calls, identity_object_of. cbv zeta.
  apply silent_bind.
  { apply quiet_by. unfold managed_write. quiet_walk. }
  intros _.
  repeat (case_bool_decide; [try done; apply only_required; intros c ->;
    cbn [fmap option_fmap option_map]; silent_walk|]); [..|apply silent_fail].
  - apply user_by.
  - apply group_by.
  - apply quota_by.
  - apply privilege_by.
Qed.

(** The groups that a change of memberships, run from [d], starts from: those it reads
    itself, before it sends anything. *)
Definition read_before (request : IdentityChange) (d : dstate W) (current : list string) : Prop :=
  ∀ c, icr_Resource request = ResourceMembership → icr_Membership request = Some c →
    ∃ st d',
      (wrap "prepare account mutation target" (prepareCompatibilityTargetLocked
         (mutation_APINames ++ membership_APINames ++ quota_APINames ++ privilege_APINames));;
       wrap "read current membership state" (identityStateLocked (membership_query (mch_User c))))
        d = (Ok st, d') ∧
      current = groups_of st (mch_User c).

(** The volume that an update of a shared folder, run from [d], names: the folder's. *)
Definition volume_before (request : ShareRequest) (d : dstate W) (path : string) : Prop :=
  ∀ c, scr_Resource request = ResourceShare → scr_Share request = Some c →
    ∃ d',
      (wrap "prepare shared-folder mutation target"
         (prepareCompatibilityTargetLocked share_mutation_APINames);;
       current_volume (scr_Action request) c) d = (Ok path, d').

(** What a change of accounts sends: the calls of its request. *)
Lemma identity_change_sends request password (s : dstate W) r s' :
  ApplyIdentityChange request password s = (r, s') →
  ∃ l, dc_log s' = dc_log s ++ l ∧
    (Forall (fun x => ¬ managed_write x.1) l ∨
     ∃ current, read_before request s current ∧
       Forall (fun x => managed_write x.1 →
         changes_by (identity_calls request password current) x.1) l).
Proof.
  destruct (decide (icr_Resource request = ResourceMembership)) as [Hr|Hr].
  2:{ intros Ha. destruct (identity_change_by request password [] Hr _ _ _ Ha)
        as (_ & l & Hl & HP).
      exists l. split; [done|]. right. exists []. split; [|done]. by intros c Hc. }
  unfold ApplyIdentityChange. cbv zeta. rewrite Hr.
  rewrite !(bool_decide_false (ResourceMembership = _)) by done.
  rewrite (bool_decide_true (ResourceMembership = ResourceMembership)) by done. intros Ha.
  assert (∀ what names, silent managed_write
    (wrap what (prepareCompatibilityTargetLocked names) : M ())) as Hp.
  { intros. unfold managed_write. quiet_walk. }
  destruct (icr_Membership request) as [c|] eqn:Hm; cbn [required] in Ha.
  2:{ eapply (silent_then _ (fun _ _ => False)) in Ha as (l & Hl & Hq);
        [|apply Hp|intros; by apply silent_pure].
      exists l. split; [done|]. destruct Hq as [?|(a & s1 & _ & HP)]; [by left|]. left.
      eapply Forall_impl; [exact HP|done]. }
  match type of Ha with
    mbind _ ?m _ = _ => change ((m ≫= fun _ => apply_membership c) s = (r, s')) in Ha
  end.
  unfold apply_membership in Ha. rewrite bind_assoc in Ha.
  eapply (silent_then _ (fun st => changes_by (identity_calls request password
    (groups_of st (mch_User c))))) in Ha as (l & Hl & Hq).
  - exists l. split; [done|]. destruct Hq as [?|(st & s1 & Hst & HP)]; [by left|]. right.
    exists (groups_of st (mch_User c)). split; [|exact HP]. intros c' _ Hc'. simplify_eq.
    exists st, s1. by split.
  - apply silent_bind; [apply Hp|]. intros _. apply silent_wrap, quiet_identityStateLocked.
  - intros st. unfold identity_calls, identity_object_of. rewrite Hr.
    rewrite !(bool_decide_false (ResourceMembership = _)) by done.
    rewrite (bool_decide_true (ResourceMembership = ResourceMembership)), Hm by done.
    cbn [fmap option_fmap option_map]. unfold groups_of.
    change (@findMembership _) with (@membershipForUser _).
    destruct (membershipDelta _ _) as [add remove].
    silent_walk. apply membership_by.
Qed.

(** What a change of shared folders sends, given the volume it read. *)
Lemma share_by action c path :
  by_calls (call_of (form_call ShareAPIName 1) (shareRequest action c path))
    (run_op shareMutationOperation (action, c, path) : M _).
Proof.
  apply only_operation. eapply call_of_by; [done|]. intros method params name ->. cbn [call_of].
  silent_walk. call_leaf.
Qed.

Lemma quiet_current_volume action c : silent managed_write (current_volume action c : M string).
Proof. unfold current_volume. silent_walk. apply quiet_ExecuteShares. Qed.

Lemma share_change_sends request (s : dstate W) r s' :
  ApplyShareChange request s = (r, s') →
  ∃ l, dc_log s' = dc_log s ++ l ∧
    (Forall (fun x => ¬ managed_write x.1) l ∨
     ∃ path, volume_before request s path ∧
       Forall (fun x => managed_write x.1 → changes_by (share_calls request path) x.1) l).
Proof.
  unfold ApplyShareChange, share_calls. intros Ha.
  assert (∀ what names, silent managed_write
    (wrap what (prepareCompatibilityTargetLocked names) : M ())) as Hp.
  { intros. unfold managed_write. quiet_walk. }
  case_bool_decide as Hr1; [destruct (scr_Share request) as [c|] eqn:Hc; cbn [required] in Ha|].
  - match type of Ha with mbind _ ?m _ = _ => change ((m ≫= fun _ =>
      path ← current_volume (scr_Action request) c;
      '(r, _) ← wrap "apply shared-folder change"
        (run_op shareMutationOperation (scr_Action request, c, path));
      mret r) s = (r, s')) in Ha end.
    rewrite bind_assoc in Ha.
    eapply (silent_then _ (fun path => changes_by (call_of (form_call ShareAPIName 1)
      (shareRequest (scr_Action request) c path)))) in Ha as (l & Hl & Hq).
    + exists l. split; [done|]. destruct Hq as [?|(path & s1 & Hp' & HP)]; [by left|].
      right. exists path. split; [|done]. intros c' _ Hc'. simplify_eq. by exists s1.
    + apply silent_bind; [apply Hp|]. intros _. apply quiet_current_volume.
    + intros path. silent_walk. apply share_by.
  - eapply (silent_then _ (fun _ _ => False)) in Ha as (l & Hl & Hq);
      [|apply Hp|intros; by apply silent_pure].
    exists l. split; [done|]. destruct Hq as [?|(a & s1 & _ & HP)]; [by left|]. left.
    eapply Forall_impl; [exact HP|done].
  - eapply (silent_then _ (fun _ => changes_by _)) in Ha as (l & Hl & Hq); [|apply Hp|].
    + exists l. split; [done|]. destruct Hq as [?|(a & s1 & _ & HP)]; [by left|].
      right. exists "". split; [by intros c Hc|exact HP].
    + intros _. case_bool_decide; [|apply silent_fail].
      apply only_required. intros c ->. silent_walk. apply only_operation.
      apply only_lift_bind. intros params ->. silent_walk. call_leaf.
Qed.
End reads.

(** * A NAS with accounts and a shared folder, in samples

    A scripted NAS with one user in two groups and one folder, changes of both, and a
    readable stand-in for the hashes.  The properties of guarded changes are instantiated
    on them. *)

(** Resource and risk of a plan, in the clear. *)
Definition clear_managed : ManagedHash := {| hash_managed := fun v =>
  match v with
  | HIdentityPlan p => "identity " +:+ icr_Resource (mp_Request p) +:+ " " +:+ mp_Risk p
  | HSharePlan p => "share " +:+ scr_Resource (mp_Request p) +:+ " " +:+ mp_Risk p
  | HMembership m => Join (mem_Groups m) ","
  | HFolder f => sf_Name f
  | _ => "fingerprint"
  end |}.

(** ** Accounts *)

Definition named_object (name key id : string) : json :=
  JObject [("name", JString name); (key, JNumber id)].
Definition users_reply : answer :=
  reply [("users", JArray [named_object "bob" "uid" "1026"; named_object "eve" "uid" "1027"])].
Definition groups_reply : answer :=
  reply [("groups", JArray [named_object "users" "gid" "100"; named_object "staff" "gid" "65536"])].
Definition members_reply (names : list string) : answer :=
  reply [("users", JArray ((fun n => JObject [("name", JString n)]) <$> names))].

(** The answers to a read of the memberships: both are users, [staff] is the staff. *)
Definition accounts (staff : list string) : list answer :=
  [users_reply; groups_reply; members_reply ["bob"; "eve"]; members_reply staff].

Definition identity_apis : list string :=
  [UserAPIName; GroupAPIName; MemberAPIName; QuotaAPIName; AppAPIName; RuleAPIName].
Definition identity_nas (answers : list answer) : dstate (list answer) :=
  script_state "https" identity_apis answers.

(** Bob leaves the staff. *)
Definition leave_staff : IdentityChange :=
  membership_request {| mch_User := "bob"; mch_Groups := ["users"] |}.
Definition leave_script : list answer :=
  accounts ["Bob"] ++ accounts ["Bob"] ++ [reply []] ++ accounts [].

(** ** A shared folder *)

Definition folder_reply (quota : string) : answer :=
  reply [("shares", JArray [JObject [("name", JString "photos"); ("uuid", JString "u-1");
                                     ("vol_path", JString "/volume1");
                                     ("quota_value", JNumber quota)]])].

Definition share_apis : list string :=
  [ShareAPIName; PermissionAPIName; UserAPIName; GroupAPIName].
Definition share_nas (answers : list answer) : dstate (list answer) :=
  script_state "https" share_apis answers.

(** The folder is deleted. *)
Definition delete_photos : ShareRequest := {|
  scr_Action := ActionDelete; scr_Resource := ResourceShare;
  scr_Share := Some {|
    sch_Name := "photos"; sch_NewName := None; sch_VolumePath := ""; sch_Description := None;
    sch_Hidden := None; sch_RecycleBin := None; sch_RecycleBinAdminOnly := None;
    sch_HideUnreadable := None; sch_EnableCOW := None; sch_EnableCompression := None;
    sch_QuotaMiB := None |};
  scr_Permission := None |}.
Definition delete_script : list answer :=
  [folder_reply "0"; reply []; reply [("shares", JArray [])]].

(** ** A read of memberships *)

Definition sample_user (id name : string) : User := {|
  usr_ID := id; usr_Name := name; usr_Description := ""; usr_Email := ""; usr_Source := "local";
  usr_Expired := false; usr_PasswordNeverExpires := false; usr_TwoFactorStatus := "" |}.
Definition sample_group (id name : string) : Group :=
  {| grp_ID := id; grp_Name := name; grp_Description := ""; grp_Source := "local" |}.
Definition bob_input : MembershipRead := {|
  rmi_Users := [sample_user "1026" "bob"];
  rmi_Groups := [sample_group "100" "users"; sample_group "65536" "staff"];
  rmi_User := "bob" |}.
Definition bob_entry : Membership := {| mem_User := "bob"; mem_Groups := ["staff"; "users"] |}.

Definition read_bob : result dsm_error (list Membership * Selection) * dstate (list answer) :=
  @run_op (list answer) _ _ (@membershipReadOperation ascii_tables _ script_world) bob_input
    (identity_nas [members_reply ["bob"; "eve"]; members_reply ["Bob"]]).
