(* ===== verification/ManagementThms.v ===== *)
(** * Guarded changes: differences, reading back, and risk

    [keys l] is the set of names of [l] up to lower case, which is how the code compares
    groups.  The theorems are about the difference that a change of memberships sends, the
    memberships that are read, the comparison that verifies a change, what a state has when a
    request was achieved, and what a plan of medium risk leaves alone. *)

From S2P Require Import Prelude.
From S2P Require Import GoStrings.
From S2P Require Import Compat.
From S2P Require Import Json.
From S2P Require Import DsmErrors.
From S2P Require Import DsmClient.
From S2P Require Import DsmThms.
From S2P Require Import DsmWire.
From S2P Require Import DsmOps.
From S2P Require Import Identity.
From S2P Require Import IdentityWire.
From S2P Require Import IdentityOps.
From S2P Require Import Service.
From S2P Require Import Management.
From S2P Require Import ManagementWire.

Section keys.
Context `{Unicode}.

Definition keys (l : list string) : gset string := list_to_set (ToLower <$> l).

Lemma elem_of_keys l k : k ∈ keys l ↔ ∃ v, v ∈ l ∧ ToLower v = k.
Proof.
  unfold keys. rewrite elem_of_list_to_set, list_elem_of_fmap. naive_solver.
Qed.

(** ** The set of a list *)

Lemma fold_set_step (l : list string) (m : gmap string string) k v :
  fold_left (fun m v => <[ToLower v := v]> m) l m !! k = Some v →
  k = ToLower v ∧ v ∈ l ∨ m !! k = Some v.
Proof.
  revert m. induction l as [|x l IH]; intros m; cbn [fold_left]; [by right|].
  intros [[-> Hv]|Hm]%IH; [left; split; [done|by right]|].
  apply lookup_insert_Some in Hm as [[<- <-]|[_ Hm]]; [left; split; [done|by left]|by right].
Qed.

Lemma fold_set_Some l k v : fold_set l !! k = Some v → k = ToLower v ∧ v ∈ l.
Proof. intros [?|Hm]%fold_set_step; [done|]. by rewrite lookup_empty in Hm. Qed.

Lemma fold_set_dom_step (l : list string) (m : gmap string string) :
  dom (fold_left (fun m v => <[ToLower v := v]> m) l m) = keys l ∪ dom m.
Proof.
  revert m. induction l as [|x l IH]; intros m; cbn [fold_left].
  { unfold keys. cbn. set_solver. }
  rewrite IH, dom_insert_L. unfold keys. cbn [fmap list_fmap list_to_set]. set_solver.
Qed.

Lemma fold_set_dom l : dom (fold_set l) = keys l.
Proof. unfold fold_set. rewrite fold_set_dom_step, dom_empty_L. set_solver. Qed.

Lemma fold_set_None l k : fold_set l !! k = None ↔ k ∉ keys l.
Proof. by rewrite <- fold_set_dom, not_elem_of_dom. Qed.

Lemma elem_of_sorted (l : list string) x : x ∈ sort_strings l ↔ x ∈ l.
Proof. unfold sort_strings. by rewrite merge_sort_Permutation. Qed.

(** The values of one of the two sets that a filter keeps. *)
Lemma elem_of_delta (P : string * string → Prop) `{∀ x, Decision (P x)} (m : gmap string string) g :
  g ∈ sort_strings (base.filter P (map_to_list m)).*2 ↔
  ∃ k, m !! k = Some g ∧ P (k, g).
Proof.
  rewrite elem_of_sorted, list_elem_of_fmap. split.
  - intros ([k v] & -> & Hkv). apply list_elem_of_filter in Hkv as [HP Hkv].
    apply elem_of_map_to_list in Hkv. by exists k.
  - intros (k & Hk & HP). exists (k, g). split; [done|].
    apply list_elem_of_filter. split; [done|]. by apply elem_of_map_to_list.
Qed.

Lemma elem_of_add current desired g :
  g ∈ (membershipDelta current desired).1 ↔
  fold_set desired !! ToLower g = Some g ∧ ToLower g ∉ keys current.
Proof.
  unfold membershipDelta. cbn [fst]. rewrite elem_of_delta. cbn [fst]. split.
  - intros (k & Hk & Hn). apply fold_set_Some in Hk as Hk'. destruct Hk' as [-> _].
    by rewrite fold_set_None in Hn.
  - intros [Hk Hn]. exists (ToLower g). by rewrite fold_set_None.
Qed.

Lemma elem_of_remove current desired g :
  g ∈ (membershipDelta current desired).2 ↔
  fold_set current !! ToLower g = Some g ∧ ToLower g ∉ keys desired ∧
  EqualFold g "users" = false.
Proof.
  unfold membershipDelta. cbn [snd]. rewrite elem_of_delta. cbn [fst snd]. split.
  - intros (k & Hk & Hn & Hu). apply fold_set_Some in Hk as Hk'. destruct Hk' as [-> _].
    by rewrite fold_set_None in Hn.
  - intros (Hk & Hn & Hu). exists (ToLower g). by rewrite fold_set_None.
Qed.

Lemma fold_set_key l k : k ∈ keys l → ∃ g, fold_set l !! k = Some g ∧ ToLower g = k ∧ g ∈ l.
Proof.
  rewrite <- fold_set_dom. intros [g Hg]%elem_of_dom. exists g. split; [done|].
  by apply fold_set_Some in Hg as [-> ?].
Qed.

Lemma keys_add current desired :
  keys (membershipDelta current desired).1 = keys desired ∖ keys current.
Proof.
  apply set_eq. intros k. rewrite elem_of_keys, elem_of_difference. split.
  - intros (g & Hg & <-). apply elem_of_add in Hg as [Hg Hn]. split; [|done].
    rewrite <- fold_set_dom. by apply elem_of_dom.
  - intros [(g & Hg & <- & _)%fold_set_key Hn]. exists g. by rewrite elem_of_add.
Qed.

Lemma keys_remove current desired :
  keys (membershipDelta current desired).2 ⊆ keys current ∖ keys desired.
Proof.
  intros k. rewrite elem_of_keys, elem_of_difference. intros (g & Hg & <-).
  apply elem_of_remove in Hg as (Hg & Hn & _). split; [|done].
  rewrite <- fold_set_dom. by apply elem_of_dom.
Qed.

(** A group that is neither removed nor wanted is a users group. *)
Lemma kept_users current desired k :
  k ∈ keys current → k ∉ keys desired → k ∉ keys (membershipDelta current desired).2 →
  ∃ g, g ∈ current ∧ ToLower g = k ∧ EqualFold g "users" = true.
Proof.
  intros (g & Hg & <- & Hin)%fold_set_key Hn Hr. exists g. split; [done|]. split; [done|].
  destruct (EqualFold g "users") eqn:E; [done|]. destruct Hr. apply elem_of_keys.
  exists g. split; [|done]. by apply elem_of_remove.
Qed.
End keys.

(** C21: a change of memberships makes the user's groups the requested ones.  The calls add
    the requested groups the user is not in, remove only groups that were not requested, and
    once all of them took effect the user is in every requested group, and beyond those at
    most in a users group, which is never removed.  Groups are compared by lower case. *)
Theorem membership_delta_exact `{Unicode} current desired :
  let '(add, remove) := membershipDelta current desired in
  let after := (keys current ∖ keys remove) ∪ keys add in
  keys add = keys desired ∖ keys current ∧
  keys remove ⊆ keys current ∖ keys desired ∧
  Forall (fun g => EqualFold g "users" = false) remove ∧
  keys desired ⊆ after ∧
  ∀ k, k ∈ after → k ∈ keys desired ∨
    ∃ g, g ∈ current ∧ ToLower g = k ∧ EqualFold g "users" = true.
Proof.
  destruct (membershipDelta current desired) as [add remove] eqn:E. cbv zeta.
  pose proof (keys_add current desired) as Ha. pose proof (keys_remove current desired) as Hr.
  pose proof (kept_users current desired) as Hk.
  pose proof (λ g, proj1 (elem_of_remove current desired g)) as Hu.
  rewrite E in *. cbn [fst snd] in *. split; [done|]. split; [done|].
  split; [apply Forall_forall; intros g Hg; by apply Hu|].
  split; [intros k Hin; destruct (decide (k ∈ keys current)); set_solver|].
  intros k [[Hc Hn]%elem_of_difference|Hin]%elem_of_union; [|set_solver].
  destruct (decide (k ∈ keys desired)); [by left|]. right. auto.
Qed.

(** ** Reading memberships *)

Section read.
Context `{Unicode}.

Lemma member_loop_ok seen names r :
  member_loop seen names = Ok r →
  r = names ∧ NoDup (ToLower <$> names) ∧ ∀ n, n ∈ names → ToLower n ∉ seen.
Proof.
  revert seen r. induction names as [|n names IH]; intros seen r; cbn [member_loop].
  { intros [= <-]. split; [done|]. split; [constructor|]. by intros n []%elem_of_nil. }
  case_bool_decide; [done|]. case_bool_decide as Hs; [done|].
  destruct (member_loop _ names) as [rest|] eqn:E; [|done]. intros [= <-].
  apply IH in E as (-> & Hn & Hd). split; [done|]. split.
  - cbn. constructor; [|done]. intros (x & Hx & Hin)%list_elem_of_fmap.
    apply (Hd x Hin). set_solver.
  - intros x [->|Hin]%elem_of_cons; [done|]. specialize (Hd x Hin). set_solver.
Qed.

Lemma decodeMemberNames_ok data names :
  decodeMemberNames data = Ok names → NoDup (ToLower <$> names).
Proof.
  unfold decodeMemberNames. destruct data as [[]|]; try done.
  destruct (last _) as [[]|]; try done. destruct (mapM _ _) as [l'|]; [|done].
  intros Hl. apply member_loop_ok in Hl as Hl'. by destruct Hl' as (-> & ? & _).
Qed.

(** The members of a group, each once: the group is added to those that were selected. *)
Lemma add_members_lookup g names m k :
  NoDup (ToLower <$> names) →
  add_members g names m !! k =
  (fun groups => groups ++ (if decide (k ∈ keys names) then [g] else [])) <$> m !! k.
Proof.
  unfold add_members. revert m. induction names as [|n names IH]; intros m Hn; cbn [fold_left].
  { rewrite decide_False by (unfold keys; set_solver).
    destruct (m !! k); [|done]. cbn. by rewrite app_nil_r. }
  cbn [fmap list_fmap] in Hn. apply NoDup_cons in Hn as [Hnin Hn]. rewrite IH by done.
  assert (∀ k', k' ∈ keys (n :: names) ↔ k' = ToLower n ∨ k' ∈ keys names) as Hk.
  { intros k'. unfold keys. cbn. set_solver. }
  destruct (decide (k = ToLower n)) as [->|Hne].
  - assert (ToLower n ∉ keys names) as Hnk.
    { unfold keys. by rewrite elem_of_list_to_set. }
    rewrite (decide_False _ _ Hnk), decide_True by (rewrite Hk; by left).
    destruct (m !! ToLower n) as [gs|] eqn:E; [|by rewrite E].
    rewrite lookup_insert_eq. cbn. by rewrite app_nil_r.
  - rewrite (decide_ext (k ∈ keys (n :: names)) (k ∈ keys names)) by (rewrite Hk; naive_solver).
    destruct (m !! ToLower n); [|done]. by rewrite lookup_insert_ne.
Qed.

(** The groups of [key], out of the groups with their members. *)
Definition groups_with (key : string) (members : list (string * list string)) : list string :=
  (base.filter (fun x => key ∈ keys x.2) members).*1.

Definition all_members (members : list (string * list string)) (m : gmap string (list string)) :
    gmap string (list string) :=
  fold_left (fun m x => add_members x.1 x.2 m) members m.

Lemma all_members_lookup members m k :
  Forall (fun x => NoDup (ToLower <$> x.2)) members →
  all_members members m !! k = (fun groups => groups ++ groups_with k members) <$> m !! k.
Proof.
  unfold all_members, groups_with. revert m.
  induction members as [|x members IH]; intros m Hf; cbn [fold_left].
  { destruct (m !! k); [|done]. cbn. by rewrite app_nil_r. }
  apply Forall_cons in Hf as [Hx Hf]. rewrite IH, add_members_lookup by done.
  rewrite filter_cons. destruct (m !! k); [|done]. cbn.
  destruct (decide (k ∈ keys x.2)); cbn; by rewrite <- ?app_assoc, ?app_nil_r.
Qed.

Lemma fold_empty_lookup (users : list User) (m : gmap string (list string)) k :
  (∀ l, m !! k = Some l → l = []) →
  fold_left (fun m u => <[ToLower (usr_Name u) := []]> m) users m !! k =
  if decide (k ∈ keys (usr_Name <$> users)) then Some [] else m !! k.
Proof.
  revert m. induction users as [|u users IH]; intros m Hm; cbn [fold_left].
  { by rewrite decide_False by (unfold keys; set_solver). }
  assert (k ∈ keys (usr_Name <$> u :: users) ↔
          k = ToLower (usr_Name u) ∨ k ∈ keys (usr_Name <$> users)) as Hk.
  { unfold keys. cbn. set_solver. }
  rewrite IH.
  - destruct (decide (k ∈ keys (usr_Name <$> users))).
    + rewrite decide_True; [done|]. rewrite Hk. by right.
    + destruct (decide (k = ToLower (usr_Name u))) as [->|Hne].
      * rewrite lookup_insert_eq, decide_True; [done|]. rewrite Hk. by left.
      * rewrite lookup_insert_ne, decide_False; naive_solver.
  - intros l [[_ <-]|[_ ?]]%lookup_insert_Some; auto.
Qed.

Lemma fold_canonical (users : list User) :
  fold_left (fun m u => <[ToLower (usr_Name u) := usr_Name u]> m) users ∅
  = fold_set (usr_Name <$> users).
Proof.
  unfold fold_set. generalize (∅ : gmap string string).
  induction users as [|u users IH]; intros m; [done|]. cbn. apply IH.
Qed.

Definition selected (input : MembershipRead) (u : User) : Prop :=
  rmi_User input = "" ∨ EqualFold (rmi_User input) (usr_Name u) = true.

(** Every selected user has one entry: its groups, whatever their order. *)
Lemma collect_exact input members u :
  Forall (fun x => NoDup (ToLower <$> x.2)) members →
  u ∈ rmi_Users input → selected input u →
  let '(init, canonical) := selected_users input in
  let l := collect_memberships (all_members members init) canonical in
  ∃ m, m ∈ l ∧ ToLower (mem_User m) = ToLower (usr_Name u) ∧
    mem_Groups m ≡ₚ groups_with (ToLower (usr_Name u)) members ∧
    ∀ m', m' ∈ l → ToLower (mem_User m') = ToLower (usr_Name u) → m' = m.
Proof.
  intros Hf Hu Hsel. unfold selected_users. set (users := base.filter _ (rmi_Users input)).
  cbv zeta. rewrite fold_canonical. set (key := ToLower (usr_Name u)).
  set (init := fold_left _ users ∅).
  assert (key ∈ keys (usr_Name <$> users)) as Hkey.
  { apply elem_of_keys. exists (usr_Name u). split; [|done]. apply list_elem_of_fmap.
    exists u. split; [done|]. by apply list_elem_of_filter. }
  assert (∀ k, all_members members init !! k =
    if decide (k ∈ keys (usr_Name <$> users)) then Some (groups_with k members) else None) as Hlook.
  { intros k. rewrite all_members_lookup by done. unfold init.
    rewrite fold_empty_lookup; [|intros l; by rewrite lookup_empty].
    destruct (decide _); [done|]. by rewrite lookup_empty. }
  assert (∀ k, k ∈ sort_strings (map_to_list (all_members members init)).*1 ↔
               k ∈ keys (usr_Name <$> users)) as Hdom.
  { intros k. rewrite elem_of_sorted, list_elem_of_fmap. split.
    - intros ([k' gs] & -> & Hin%elem_of_map_to_list). rewrite Hlook in Hin. by case_decide.
    - intros Hin. exists (k, groups_with k members). split; [done|].
      apply elem_of_map_to_list. by rewrite Hlook, decide_True. }
  assert (∀ k, k ∈ keys (usr_Name <$> users) →
    ToLower (default "" (fold_set (usr_Name <$> users) !! k)) = k) as Hcan.
  { by intros k (g & -> & Hg & _)%fold_set_key. }
  unfold collect_memberships. eexists. split; [|split; [|split]].
  - apply list_elem_of_fmap. exists key. split; [reflexivity|]. by apply Hdom.
  - cbn. auto.
  - cbn. rewrite Hlook, decide_True by done. cbn. unfold sort_strings. by rewrite merge_sort_Permutation.
  - intros m' (k & -> & Hk)%list_elem_of_fmap. cbn. apply Hdom in Hk.
    rewrite Hcan by done. by intros ->.
Qed.
End read.

Section operation.
Context `{Unicode} {W : Type} `{Network W}.

Abbreviation M := (ST (dstate W) dsm_error).

(** The reply of DSM about the members of a group. *)
Definition listed (group : Group) (names : list string) : Prop :=
  ∃ (d1 d2 : dstate W) data, executeLocked (member_list (grp_Name group)) d1 = (Ok data, d2) ∧
    decodeMemberNames data = Ok names.

Lemma read_members_ok groups memberships (s : dstate W) r s' :
  read_members groups memberships s = (Ok r, s') →
  ∃ answers, Forall2 listed groups answers ∧
    r = all_members (zip (grp_Name <$> groups) answers) memberships.
Proof.
  revert memberships s. induction groups as [|g groups IH]; intros memberships s;
    cbn [read_members].
  { intros [= -> _]. exists []. split; [constructor|done]. }
  intros (data & s1 & Hd & (names & s2 & Hn & Hr)%bind_ok_inv)%bind_ok_inv.
  apply IH in Hr as (answers & Ha & ->). exists (names :: answers). split; [|done].
  constructor; [|done]. unfold wrap in Hd, Hn.
  destruct (executeLocked _ s) as [[]] eqn:Ee; [|done]. injection Hd as <- <-.
  destruct (decodeMemberNames a) as [ns|] eqn:En; [|done]. injection Hn as <- <-.
  red. eauto.
Qed.

(** What an operation of one variant returns is what its execution returned. *)
Lemma operation_ok {I O} version name variant api m (execute : I → M O) i (s : dstate W) o sel s' :
  run_op (operation_v version name variant api m execute) i s = (Ok (o, sel), s') →
  execute i s = (Ok o, s').
Proof.
  unfold run_op, Run. destruct (Select _ _) as [[e|v] selection] eqn:Es; [done|].
  apply Select_in in Es. apply list_elem_of_singleton in Es as ->. cbn [va_Execute].
  destruct (execute i s) as [[o'|e] s1]; intros; by simplify_eq.
Qed.
End operation.

(** What is read about memberships is what DSM answered.  When the read succeeds, DSM
    answered for every group with a list that names nobody twice; every user that was asked
    for has exactly one entry, and its groups are the groups whose answer names the user, each
    once.  Users are compared by lower case. *)
Theorem membership_read_exact `{Unicode} {W : Type} `{Network W} input (s : dstate W) l sel s' :
  run_op membershipReadOperation input s = (Ok (l, sel), s') →
  ∃ answers, Forall2 (listed (W:=W)) (rmi_Groups input) answers ∧
    ∀ u, u ∈ rmi_Users input → selected input u →
      let members := zip (grp_Name <$> rmi_Groups input) answers in
      ∃ m, m ∈ l ∧ ToLower (mem_User m) = ToLower (usr_Name u) ∧
        mem_Groups m ≡ₚ groups_with (ToLower (usr_Name u)) members ∧
        ∀ m', m' ∈ l → ToLower (mem_User m') = ToLower (usr_Name u) → m' = m.
Proof.
  intros Hr%operation_ok.
  destruct (selected_users input) as [init canonical] eqn:Es.
  apply bind_ok_inv in Hr as (memberships & s1 & Hm & [= <- <-]).
  apply read_members_ok in Hm as (answers & Ha & ->).
  exists answers. split; [done|]. intros u Hu Hsel members.
  assert (Forall (fun x => NoDup (ToLower <$> x.2)) members) as Hf.
  { subst members. clear -Ha. induction Ha as [|g names gs answers Hl _ IH]; [constructor|].
    cbn. constructor; [|done]. destruct Hl as (d1 & d2 & data & _ & Hd).
    by apply decodeMemberNames_ok in Hd. }
  pose proof (collect_exact input members u Hf Hu Hsel) as Hc. by rewrite Es in Hc.
Qed.

(** Bob is a user and, in another spelling, one of the staff. *)
Lemma membership_read_exact_witness :
  ∃ answers,
    Forall2 (@listed ascii_tables (list answer) script_world) (rmi_Groups bob_input) answers ∧
    ∃ m, m ∈ [bob_entry] ∧ @ToLower ascii_tables (mem_User m) = "bob" ∧
      mem_Groups m ≡ₚ @groups_with ascii_tables "bob" (zip ["users"; "staff"] answers).
Proof.
  assert (∃ sel s', read_bob = (Ok ([bob_entry], sel), s')) as (sel & s' & E).
  { eexists _, _. vm_compute. reflexivity. }
  destruct (@membership_read_exact ascii_tables (list answer) script_world bob_input
    (identity_nas [members_reply ["bob"; "eve"]; members_reply ["Bob"]])
    [bob_entry] sel s' E) as (answers & Ha & Hu).
  exists answers. split; [exact Ha|].
  destruct (Hu (sample_user "1026" "bob") (list_elem_of_here _ _)) as (m & Hm & Hl & Hg & _).
  - right. vm_compute. reflexivity.
  - exists m. split; [exact Hm|]. split; [exact Hl|exact Hg].
Defined.

(** ** Verifying *)

Section verify.
Context `{Unicode}.

Lemma require_ok b msg u : require b msg = Ok u → b = true.
Proof. unfold require. by destruct b. Qed.

Lemma verdict_bind {A} (r : verdict) (k : () → result service_error A) a :
  (r ≫= k) = Ok a → r = Ok () ∧ k () = Ok a.
Proof. destruct r as [[]|]; [|done]. intros. by split. Qed.

Lemma validate_groups_ok seen groups u :
  validate_groups seen groups = Ok u →
  NoDup (ToLower <$> groups) ∧ ∀ g, g ∈ groups → ToLower g ∉ seen.
Proof.
  revert seen. induction groups as [|g groups IH]; intros seen; cbn [validate_groups].
  { split; [constructor|]. by intros g []%elem_of_nil. }
  intros (_ & (Hs & Hr)%verdict_bind)%verdict_bind. apply require_ok in Hs. split_bools.
  apply IH in Hr as [Hn Hd]. split.
  - cbn. constructor; [|done]. intros (x & Hx & Hin)%list_elem_of_fmap.
    apply (Hd x Hin). set_solver.
  - intros x [->|Hin]%elem_of_cons; [done|]. specialize (Hd x Hin). set_solver.
Qed.

(** The comparison of two sets of groups, when one of them has no repetition: equality up to
    order and case. *)
Lemma sameStringSet_exact left right :
  NoDup (ToLower <$> right) →
  sameStringSet left right = true ↔ (ToLower <$> left) ≡ₚ (ToLower <$> right).
Proof.
  intros Hn. unfold sameStringSet. rewrite andb_true_iff, bool_decide_eq_true, forallb_forall.
  setoid_rewrite bool_decide_eq_true. setoid_rewrite elem_of_list_to_set. split.
  - intros [Hl Hin]. symmetry. apply submseteq_length_Permutation.
    + apply NoDup_submseteq; [done|]. intros k (v & -> & Hv)%list_elem_of_fmap.
      by apply Hin, list_elem_of_In.
    + by rewrite !length_fmap, Hl.
  - intros HP. split.
    + apply Permutation_length in HP. by rewrite !length_fmap in HP.
    + intros v Hv. rewrite HP. apply list_elem_of_fmap. exists v. by rewrite list_elem_of_In.
Qed.

Lemma verify_membership_exact s c u :
  NoDup (ToLower <$> mch_Groups c) →
  verify_membership s c = Ok u →
  ∃ m, findMembership (ist_Memberships s) (mch_User c) = Some m ∧
    (ToLower <$> mem_Groups m) ≡ₚ (ToLower <$> mch_Groups c).
Proof.
  unfold verify_membership, found. intros Hn.
  destruct (findMembership _ _) as [m|]; [|done]. cbn. intros Hs%require_ok.
  exists m. split; [done|]. by apply sameStringSet_exact.
Qed.

(** ** Risk *)

Lemma validated_object r u :
  validateIdentityRequest r = Ok u →
  match identity_object_of r with
  | Some (OUser c) => validate_user (icr_Action r) c = Ok ()
  | Some (OGroup c) => validate_group (icr_Action r) c = Ok ()
  | Some (OMembership c) => validate_membership c = Ok ()
  | Some (OQuota c) => validate_quota c = Ok ()
  | Some (OPrivilege c) => validate_privilege c = Ok ()
  | None => False
  end.
Proof.
  unfold validateIdentityRequest, identity_object_of, only_object. cbv zeta.
  destruct u.
  case_bool_decide as Hu; [intros [_ Hv]%verdict_bind|].
  { case_bool_decide; [|done]. by destruct (icr_User r). }
  case_bool_decide; [intros [_ Hv]%verdict_bind|].
  { case_bool_decide; [|done]. by destruct (icr_Group r). }
  case_bool_decide.
  { case_bool_decide; [|done]. destruct (icr_Membership r); [|done]. by case_bool_decide. }
  case_bool_decide.
  { case_bool_decide; [|done]. destruct (icr_Quota r); [|done]. by case_bool_decide. }
  case_bool_decide; [|done].
  case_bool_decide; [|done]. destruct (icr_ApplicationPrivilege r); [|done]. by case_bool_decide.
Qed.

Lemma validated_groups c u :
  validate_membership c = Ok u → NoDup (ToLower <$> mch_Groups c).
Proof.
  unfold validate_membership.
  intros (_ & (_ & (_ & (Hg & _)%verdict_bind)%verdict_bind)%verdict_bind)%verdict_bind.
  by apply validate_groups_ok in Hg as [? _].
Qed.

Lemma validated_limits seen limits u :
  validate_limits seen limits = Ok u → ∀ l, l ∈ limits → 0 ≤ qlc_QuotaMiB l.
Proof.
  revert seen. induction limits as [|l limits IH]; intros seen; cbn [validate_limits].
  { by intros _ l []%elem_of_nil. }
  intros (Hq & (_ & (_ & Hr)%verdict_bind)%verdict_bind)%verdict_bind. apply require_ok in Hq.
  intros x [->|Hin]%elem_of_cons; [lia|]. by eapply IH.
Qed.

(** A change that takes nothing from the state: no deletion; the user stays in every group it
    is in, up to case and but for spellings of the users group, and does not become an
    administrator; every limit is lifted, or was there and is not lowered.  Changes of
    application rules never qualify; the settings of users and groups are not looked at. *)
Definition keeps_access (s : identity_state) (r : IdentityChange) : Prop :=
  icr_Action r ≠ ActionDelete ∧
  match identity_object_of r with
  | Some (OMembership c) =>
      let current := groups_of s (mch_User c) in
      (∀ k, k ∈ keys current → k ∈ keys (mch_Groups c) ∨
        ∃ g, g ∈ current ∧ ToLower g = k ∧ EqualFold g "users" = true) ∧
      ∀ g, g ∈ mch_Groups c → EqualFold g "administrators" = false
  | Some (OQuota c) =>
      let quota := quota_of s (qch_PrincipalType c) (qch_Principal c) in
      ∀ l, l ∈ qch_Limits c →
        let before := qli_QuotaMiB (quotaLimitFor quota (qlc_TargetType l) (qlc_Target l)) in
        qlc_QuotaMiB l = 0 ∨ before ≠ 0 ∧ before ≤ qlc_QuotaMiB l
  | Some (OPrivilege _) | None => False
  | Some (OUser _) | Some (OGroup _) => True
  end.

Lemma containsFold_false l x :
  containsFold l x = false → ∀ g, g ∈ l → EqualFold g x = false.
Proof.
  unfold containsFold. intros He g Hg. destruct (EqualFold g x) eqn:E; [|done].
  assert (existsb (fun v => EqualFold v x) l = true) as Hx; [|by rewrite Hx in He].
  apply existsb_exists. exists g. split; [by apply list_elem_of_In|done].
Qed.

Lemma harmless_membership s c :
  (let '(_, remove) := membershipDelta (groups_of s (mch_User c)) (mch_Groups c) in
   negb (bool_decide (remove = [])) || containsFold (mch_Groups c) "administrators") = false →
  let current := groups_of s (mch_User c) in
  (∀ k, k ∈ keys current → k ∈ keys (mch_Groups c) ∨
    ∃ g, g ∈ current ∧ ToLower g = k ∧ EqualFold g "users" = true) ∧
  ∀ g, g ∈ mch_Groups c → EqualFold g "administrators" = false.
Proof.
  pose proof (kept_users (groups_of s (mch_User c)) (mch_Groups c)) as Hk.
  destruct (membershipDelta _ _) as [add remove]. cbn [snd] in Hk. intros Hf. split_bools.
  split; [|by apply containsFold_false]. intros k Hin.
  destruct (decide (k ∈ keys (mch_Groups c))); [by left|]. right. apply Hk; [done..|].
  unfold keys. set_solver.
Qed.

Lemma harmless_keeps s r u :
  validateIdentityRequest r = Ok u → identityChangeIsDestructive s r = false →
  keeps_access s r.
Proof.
  intros Hv%validated_object. unfold identityChangeIsDestructive, keeps_access.
  case_bool_decide as Ha; [done|]. intros Hd. split; [done|]. revert Hv Hd.
  unfold identity_object_of.
  case_bool_decide as Hu.
  { rewrite Hu. intros Hv _. by destruct (icr_User r). }
  case_bool_decide as Hg.
  { rewrite Hg. intros Hv _. by destruct (icr_Group r). }
  case_bool_decide as Hm.
  { destruct (icr_Membership r) as [c|]; cbn; [|done]. intros _. apply harmless_membership. }
  case_bool_decide as Hq.
  { destruct (icr_Quota r) as [c|]; cbn; [|done]. intros Hv He l Hl.
    apply verdict_bind in Hv as [_ [_ Hv]%verdict_bind].
    pose proof (validated_limits _ _ _ Hv l Hl) as Hpos.
    destruct (tightens (quota_of s (qch_PrincipalType c) (qch_Principal c)) l) eqn:Et.
    - rewrite (proj2 (existsb_exists _ _)) in He; [done|]. exists l.
      by rewrite <- list_elem_of_In.
    - unfold tightens in Et. cbv zeta in Et |- *. lia. }
  case_bool_decide as Hp; [|by cbn; intros []]. intros _. done.
Qed.
End verify.

(** ** What a change asks of the state that is read back *)

(** A setting that was asked for is there. *)
Definition has_asked {V} (asked : option V) (actual : V) : Prop :=
  ∀ v, asked = Some v → actual = v.

Lemma applied_asked {V} `{EqDecision V} (wanted : option V) actual :
  applied wanted actual = true → has_asked wanted actual.
Proof. intros Ha v ->. by apply bool_decide_eq_true in Ha. Qed.

(** The requirements in order. *)
Ltac verdicts H :=
  repeat match type of H with
  | (require _ _ ≫= _) = Ok _ =>
      let Hq := fresh "Hq" in apply verdict_bind in H as [Hq%require_ok H]
  | require _ _ = Ok _ => apply require_ok in H
  end.

Section achieved.
Context `{Unicode}.

Definition user_achieved (s : identity_state) (action : string) (c : UserChange) : Prop :=
  let is_named name (u : User) := EqualFold (usr_Name u) name = true in
  if decide (action = ActionDelete) then none_such (is_named (uch_Name c)) (ist_Users s)
  else ∃ u, first_such (is_named (default (uch_Name c) (uch_NewName c))) (ist_Users s) u ∧
    has_asked (uch_Description c) (usr_Description u) ∧ has_asked (uch_Email c) (usr_Email u) ∧
    has_asked (uch_PasswordNeverExpires c) (usr_PasswordNeverExpires u) ∧
    (uch_Expired c = Some "normal" → usr_Expired u = false) ∧
    (uch_Expired c = Some "now" → usr_Expired u = true).

Definition group_achieved (s : identity_state) (action : string) (c : GroupChange) : Prop :=
  let is_named name (g : Group) := EqualFold (grp_Name g) name = true in
  if decide (action = ActionDelete) then none_such (is_named (gch_Name c)) (ist_Groups s)
  else ∃ g, first_such (is_named (default (gch_Name c) (gch_NewName c))) (ist_Groups s) g ∧
    has_asked (gch_Description c) (grp_Description g).

(** Exactly the requested groups, up to order and case. *)
Definition membership_achieved (s : identity_state) (c : MembershipChange) : Prop :=
  ∃ m, first_such (fun m => EqualFold (mem_User m) (mch_User c) = true) (ist_Memberships s) m ∧
    (ToLower <$> mem_Groups m) ≡ₚ (ToLower <$> mch_Groups c).

(** Each requested limit, where no limit counts as zero. *)
Definition quota_achieved (s : identity_state) (c : QuotaChange) : Prop :=
  ∃ q, first_such (fun q => pqu_PrincipalType q = qch_PrincipalType c ∧
      EqualFold (pqu_Principal q) (qch_Principal c) = true) (ist_Quotas s) q ∧
    ∀ l, l ∈ qch_Limits c →
      says (fun x => qli_TargetType x = qlc_TargetType l ∧
          EqualFold (qli_Target x) (qlc_Target l) = true)
        qli_QuotaMiB 0 (pqu_Limits q) (qlc_QuotaMiB l).

(** Each requested rule, where no rule counts as inheriting. *)
Definition privilege_achieved (s : identity_state) (c : ApplicationPrivilegeChange) : Prop :=
  ∃ a, first_such (fun a => aa_PrincipalType a = apc_PrincipalType c ∧
      EqualFold (aa_Principal a) (apc_Principal c) = true) (ist_ApplicationPrivileges s) a ∧
    ∀ p, p ∈ apc_Permissions c →
      says (fun x => EqualFold (am_ApplicationID x) (apm_ApplicationID p) = true)
        am_Access ApplicationAccessInherit (aa_Permissions a) (apm_Access p).

Definition identity_achieved (s : identity_state) (r : IdentityChange) : Prop :=
  match identity_object_of r with
  | Some (OUser c) => user_achieved s (icr_Action r) c
  | Some (OGroup c) => group_achieved s (icr_Action r) c
  | Some (OMembership c) => membership_achieved s c
  | Some (OQuota c) => quota_achieved s c
  | Some (OPrivilege c) => privilege_achieved s c
  | None => False
  end.

Definition folder_achieved (s : share_state) (action : string) (c : ShareChange) : Prop :=
  let is_named name (f : SharedFolder) := EqualFold (sf_Name f) name = true in
  if decide (action = ActionDelete) then none_such (is_named (sch_Name c)) (shs_Shares s)
  else ∃ f, first_such (is_named (default (sch_Name c) (sch_NewName c))) (shs_Shares s) f ∧
    has_asked (sch_Description c) (sf_Description f) ∧ has_asked (sch_Hidden c) (sf_Hidden f) ∧
    (∀ q, sch_QuotaMiB c = Some q → sf_QuotaBytes f = (q * 1024 * 1024) `mod` 2 ^ 64) ∧
    (action = ActionCreate → sf_VolumePath f = sch_VolumePath c).

(** Each requested access on its folder, where no entry counts as none. *)
Definition grants_achieved (s : share_state) (c : PermissionChange) : Prop :=
  ∀ g, g ∈ pch_Permissions c → ∃ f,
    first_such (fun f => EqualFold (sf_Name f) (pgr_ShareName g) = true) (shs_Shares s) f ∧
    says (fun p => pe_PrincipalType p = pch_PrincipalType c ∧
        EqualFold (pe_Principal p) (pch_Principal c) = true)
      pe_Access AccessNone (sf_Permissions f) (pgr_Access g).

Definition share_achieved (s : share_state) (r : ShareRequest) : Prop :=
  match scr_Share r, scr_Permission r with
  | Some c, None => folder_achieved s (scr_Action r) c
  | None, Some c => grants_achieved s c
  | _, _ => False
  end.

(** *** The code's own checks establish it *)

Lemma verify_user_achieved s action c :
  verify_user s action c = Ok () → user_achieved s action c.
Proof.
  unfold verify_user, user_achieved. case_bool_decide as Ha.
  { intros Hd%require_ok. rewrite decide_True by done. apply bool_decide_eq_true in Hd.
    by apply find_none_such. }
  rewrite decide_False by done. unfold found, findUser, name_after.
  destruct (find_first _ _) as [u|] eqn:Ef; [|done]. cbn. intros Hv. verdicts Hv.
  exists u. split; [by apply find_first_such|]. do 3 (split; [by apply applied_asked|]). split.
  - intros He. by rewrite bool_decide_true, andb_true_l, negb_true_iff in Hq2.
  - intros He. by rewrite bool_decide_true, andb_true_l, negb_true_iff, negb_false_iff in Hv.
Qed.

Lemma verify_group_achieved s action c :
  verify_group s action c = Ok () → group_achieved s action c.
Proof.
  unfold verify_group, group_achieved. case_bool_decide as Ha.
  { intros Hd%require_ok. rewrite decide_True by done. apply bool_decide_eq_true in Hd.
    by apply find_none_such. }
  rewrite decide_False by done. unfold found, findGroup, name_after.
  destruct (find_first _ _) as [g|] eqn:Ef; [|done]. cbn. intros Hv. verdicts Hv.
  exists g. split; [by apply find_first_such|by apply applied_asked].
Qed.

Lemma verify_quota_achieved s c : verify_quota s c = Ok () → quota_achieved s c.
Proof.
  unfold verify_quota, quota_achieved, found, findQuotaAssignment.
  destruct (find_first _ _) as [q|] eqn:Ef; [|done]. cbn. intros Hv%require_ok.
  exists q. split.
  { eapply first_such_ext; [|by apply find_first_such]. intros x. apply conj_bool. }
  intros l Hl. rewrite forallb_forall in Hv. apply list_elem_of_In, Hv, Z.eqb_eq in Hl.
  rewrite <- Hl. eapply says_ext; [|apply says_find]. intros x. apply conj_bool.
Qed.

Lemma verify_privilege_achieved s c : verify_privilege s c = Ok () → privilege_achieved s c.
Proof.
  unfold verify_privilege, privilege_achieved, found, findApplicationPrivilegeAssignment.
  destruct (find_first _ _) as [a|] eqn:Ef; [|done]. cbn. intros Hv%require_ok.
  exists a. split.
  { eapply first_such_ext; [|by apply find_first_such]. intros x. apply conj_bool. }
  intros p Hp. rewrite forallb_forall in Hv.
  apply list_elem_of_In, Hv, bool_decide_eq_true in Hp. rewrite <- Hp. apply says_find.
Qed.

Lemma identity_verified s r u :
  validateIdentityRequest r = Ok u → verifyIdentityPostcondition s r = Ok () →
  identity_achieved s r.
Proof.
  intros Hv%validated_object. revert Hv.
  unfold identity_achieved, identity_object_of, verifyIdentityPostcondition.
  case_bool_decide.
  { destruct (icr_User r); [|done]. intros _. apply verify_user_achieved. }
  case_bool_decide.
  { destruct (icr_Group r); [|done]. intros _. apply verify_group_achieved. }
  case_bool_decide.
  { destruct (icr_Membership r) as [c|]; [|done]. cbn. intros Hg%validated_groups Hv.
    apply verify_membership_exact in Hv as (m & Hf & HP); [|done].
    exists m. split; [by apply find_first_such|done]. }
  case_bool_decide.
  { destruct (icr_Quota r); [|done]. intros _. apply verify_quota_achieved. }
  case_bool_decide; [|done].
  destruct (icr_ApplicationPrivilege r); [|done]. intros _. apply verify_privilege_achieved.
Qed.

Lemma verify_share_achieved s action c :
  verify_share s action c = Ok () → folder_achieved s action c.
Proof.
  unfold verify_share, folder_achieved. case_bool_decide as Ha.
  { intros Hd%require_ok. rewrite decide_True by done. apply bool_decide_eq_true in Hd.
    by apply find_none_such. }
  rewrite decide_False by done. unfold found, findShare, name_after.
  destruct (find_first _ _) as [f|] eqn:Ef; [|done]. cbn. intros Hv. verdicts Hv.
  exists f. split; [by apply find_first_such|]. do 2 (split; [by apply applied_asked|]). split.
  - intros q Hqq. rewrite Hqq in Hq1. by apply bool_decide_eq_true in Hq1.
  - intros Hc. rewrite bool_decide_true, andb_true_l, negb_involutive in Hv by done.
    by apply bool_decide_eq_true in Hv.
Qed.

Lemma verify_grants_achieved s pt pr l :
  verify_grants s pt pr l = Ok () →
  ∀ g, g ∈ l → ∃ f,
    first_such (fun f => EqualFold (sf_Name f) (pgr_ShareName g) = true) (shs_Shares s) f ∧
    says (fun p => pe_PrincipalType p = pt ∧ EqualFold (pe_Principal p) pr = true)
      pe_Access AccessNone (sf_Permissions f) (pgr_Access g).
Proof.
  induction l as [|x l IH]; cbn [verify_grants]; [by intros _ g []%elem_of_nil|].
  unfold found, findShare. destruct (find_first _ _) as [f|] eqn:Ef; [|done]. cbn.
  intros [Hx%require_ok Hl]%verdict_bind g [->|Hin]%elem_of_cons; [|by apply IH].
  exists f. split; [by apply find_first_such|].
  apply bool_decide_eq_true in Hx. rewrite <- Hx.
  eapply says_ext; [|apply says_find]. intros p. apply conj_bool.
Qed.

Lemma share_verified s r u :
  validateShareRequest r = Ok u → verifySharePostcondition s r = Ok () → share_achieved s r.
Proof.
  unfold validateShareRequest, verifySharePostcondition, share_achieved.
  case_bool_decide.
  { destruct (scr_Share r) as [c|], (scr_Permission r); try done. intros _.
    apply verify_share_achieved. }
  case_bool_decide; [|done].
  destruct (scr_Share r), (scr_Permission r) as [c|]; try done. intros _ Hv g Hg.
  by eapply verify_grants_achieved.
Qed.
End achieved.
