(* ===== verification/StorageThms.v ===== *)
(** * Guarded changes of storage: what a plan uses, what it sizes and what it announces

    A plan is built from one inventory: the theorems relate what it contains to that
    inventory.  [result_inv] takes a chain of fallible steps that succeeded apart. *)

From S2P Require Import Prelude.
From S2P Require Import GoStrings.
From S2P Require Import Identity.
From S2P Require Import Service.
From S2P Require Import Management.
From S2P Require Import Storage.
From S2P Require Import StorageChecks.
From S2P Require Import StorageWire.
From S2P Require Import StorageOps.
From S2P Require Import StoragePlan.
From S2P Require Import StorageCalls.
From S2P Require Import ManagementThms.

Ltac result_inv := repeat match goal with
  | H : mbind _ _ = Ok _ |- _ =>
      let x := fresh "x" in let Hx := fresh "Hx" in
      apply result_bind_ok in H as (x & Hx & H)
  | H : (let '(_, _) := ?p in _) = Ok _ |- _ => destruct p
  | H : require _ _ = Ok _ |- _ => apply require_ok in H
  | H : found ?o _ = Ok _ |- _ =>
      let E := fresh "E" in destruct o eqn:E; [injection H as H|discriminate H]
  | H : Ok _ = Ok _ |- _ => injection H as H
  | H : Err _ = Ok _ |- _ => discriminate H
  | H : nil_object = Ok _ |- _ => discriminate H
  end.

(** Comparisons of constant words are computed. *)
Ltac decide_words := repeat match goal with
  | H : context [@bool_decide ?P ?d] |- _ =>
      let b := eval vm_compute in (@bool_decide P d) in
      first [constr_eq b true | constr_eq b false];
      change (@bool_decide P d) with b in H; cbv iota in H
  | |- context [@bool_decide ?P ?d] =>
      let b := eval vm_compute in (@bool_decide P d) in
      first [constr_eq b true | constr_eq b false];
      change (@bool_decide P d) with b; cbv iota
  end.

(** ** Identifiers *)

Lemma sorted_NoDup (l : list string) :
  StronglySorted String.le l → adjacent_equal l = false → NoDup l.
Proof.
  induction l as [|x [|y l] IH]; intros Hs Ha; [constructor|apply NoDup_singleton|].
  cbn [adjacent_equal] in Ha. split_bools. inversion Hs as [|? ? Hs' Hx]; subst.
  constructor; [|by apply IH]. intros [->|Hin]%elem_of_cons; [done|].
  inversion Hs' as [|? ? _ Hy]; subst. rewrite Forall_forall in Hy, Hx.
  assert (x = y) as ->; [|done].
  apply (anti_symm String.le); [apply Hx; by left|by apply Hy].
Qed.

Section ids.
Context `{Unicode}.

Lemma canonicalIDs_ok l ids :
  canonicalIDs l = Ok ids → ids ≡ₚ TrimSpace <$> l ∧ NoDup ids ∧ "" ∉ ids.
Proof.
  unfold canonicalIDs. intros Hc. result_inv. subst. split_bools.
  assert (sort_strings (TrimSpace <$> l) ≡ₚ TrimSpace <$> l) as HP
    by apply merge_sort_Permutation.
  split; [done|]. split; [|by rewrite HP].
  apply sorted_NoDup; [|done]. apply StronglySorted_merge_sort; apply _.
Qed.

(** ** Inventories *)

Lemma normalize_each_ok {A B} (id : A → string) (f : A → result service_error B) seen l out :
  normalize_each id f seen l = Ok out →
  Forall2 (fun a b => f a = Ok b) l out ∧ NoDup ((fun a => TrimSpace (id a)) <$> l) ∧
  ∀ a, a ∈ l → TrimSpace (id a) ∉ seen ∧ TrimSpace (id a) ≠ "".
Proof.
  revert seen out. induction l as [|a l IH]; intros seen out; cbn [normalize_each]; intros Hn.
  { result_inv. subst. split; [constructor|]. split; [constructor|]. by intros a []%elem_of_nil. }
  result_inv. subst. split_bools.
  match goal with Hr : normalize_each _ _ _ _ = _ |- _ => apply IH in Hr as (HF & Hd & Hs) end.
  split; [by constructor|]. split.
  - cbn. constructor; [|done]. intros (a' & He & Hin)%list_elem_of_fmap.
    destruct (Hs a' Hin) as [Hs' _]. set_solver.
  - intros a' [->|Hin]%elem_of_cons; [done|]. destruct (Hs a' Hin). split; [set_solver|done].
Qed.

Lemma Forall2_elem_r {A B} (P : A → B → Prop) l k y :
  Forall2 P l k → y ∈ k → ∃ x, x ∈ l ∧ P x y.
Proof.
  induction 1 as [|x z l k Hxz HF IH]; [by intros []%elem_of_nil|].
  intros [->|Hin]%elem_of_cons; [exists x; split; [by left|done]|].
  destruct (IH Hin) as (w & Hw & HP). exists w. split; [by right|done].
Qed.

Lemma Forall2_elem_l {A B} (P : A → B → Prop) l k x :
  Forall2 P l k → x ∈ l → ∃ y, y ∈ k ∧ P x y.
Proof. intros HF Hx. apply Forall2_flip in HF. by eapply Forall2_elem_r in HF. Qed.

Lemma elem_of_merge_sort {A} (R : relation A) `{∀ x y, Decision (R x y)} l x :
  x ∈ merge_sort R l ↔ x ∈ l.
Proof. by rewrite merge_sort_Permutation. Qed.

(** What a topology says of the inventory it was read from. *)
Record topology_of (s : storage_state) (t : storageTopology) : Prop := {
  top_disks x : x ∈ to_Disks t ↔ ∃ d, d ∈ sst_Disks s ∧ topology_disk d = x;
  top_disk_ids : NoDup ((fun d => TrimSpace (sd_ID d)) <$> sst_Disks s);
  top_pool x : x ∈ to_Pools t → ∃ p, p ∈ sst_Pools s ∧ ∃ disks, topology_pool disks p = Ok x;
  top_pools p : p ∈ sst_Pools s → ∃ x, x ∈ to_Pools t ∧ ∃ disks, topology_pool disks p = Ok x;
  top_pool_ids : NoDup ((fun p => TrimSpace (spl_ID p)) <$> sst_Pools s);
  top_volume x : x ∈ to_Volumes t → ∃ v, v ∈ sst_Volumes s ∧ ∃ pools, topology_volume pools v = Ok x;
  top_volumes v : v ∈ sst_Volumes s → ∃ x, x ∈ to_Volumes t ∧ ∃ pools, topology_volume pools v = Ok x;
  top_volume_ids : NoDup ((fun v => TrimSpace (svo_ID v)) <$> sst_Volumes s);
  top_cache x : x ∈ to_Caches t → ∃ c, c ∈ sst_Caches s ∧ topology_cache c = Ok x;
  top_caches c : c ∈ sst_Caches s → ∃ x, x ∈ to_Caches t ∧ topology_cache c = Ok x;
  top_cache_ids : NoDup ((fun c => TrimSpace (ssc_ID c)) <$> sst_Caches s)
}.

Lemma normalize_topology s t : normalizeStorageTopology s = Ok t → topology_of s t.
Proof.
  unfold normalizeStorageTopology. intros Hn. result_inv. subst.
  repeat match goal with Hx : normalize_each _ _ _ _ = _ |- _ =>
    apply normalize_each_ok in Hx as (? & ? & _) end.
  split; cbn [to_Disks to_Pools to_Volumes to_Caches]; try done; intros y;
    rewrite ?elem_of_merge_sort.
  - split.
    + intros Hy. eapply Forall2_elem_r in Hy as (d & Hd & Hf); [|done]. cbn in Hf.
      injection Hf as <-. by exists d.
    + intros (d & Hd & <-). eapply Forall2_elem_l in Hd as (z & Hz & Hf); [|done]. cbn in Hf.
      by injection Hf as <-.
  - intros Hy. eapply Forall2_elem_r in Hy as (d & ? & Hf); [|eassumption]. cbn in Hf. eauto.
  - intros Hy. eapply Forall2_elem_l in Hy as (z & ? & Hf); [|eassumption]. cbn in Hf.
    exists z. rewrite elem_of_merge_sort. eauto.
  - intros Hy. eapply Forall2_elem_r in Hy as (d & ? & Hf); [|eassumption]. cbn in Hf. eauto.
  - intros Hy. eapply Forall2_elem_l in Hy as (z & ? & Hf); [|eassumption]. cbn in Hf.
    exists z. rewrite elem_of_merge_sort. eauto.
  - intros Hy. eapply Forall2_elem_r in Hy as (d & ? & Hf); [|eassumption]. cbn in Hf. eauto.
  - intros Hy. eapply Forall2_elem_l in Hy as (z & ? & Hf); [|eassumption]. cbn in Hf.
    exists z. rewrite elem_of_merge_sort. eauto.
Qed.

Lemma topology_pool_ok disks p x :
  topology_pool disks p = Ok x →
  tp_ID x = TrimSpace (spl_ID p) ∧ tp_DiskIDs x ≡ₚ TrimSpace <$> spl_DiskIDs p.
Proof.
  unfold topology_pool. intros Ht. result_inv. subst. cbn.
  split; [done|]. by edestruct canonicalIDs_ok as (? & _ & _).
Qed.

Lemma topology_volume_ok pools v x :
  topology_volume pools v = Ok x →
  tv_ID x = TrimSpace (svo_ID v) ∧ tv_PoolID x = TrimSpace (svo_PoolID v).
Proof. unfold topology_volume. intros Ht. result_inv. by subst. Qed.

Lemma topology_cache_ok c x :
  topology_cache c = Ok x →
  tc_ID x = TrimSpace (ssc_ID c) ∧ tc_VolumeID x = TrimSpace (ssc_VolumeID c) ∧
  tc_CacheType x = ssc_CacheType c.
Proof. unfold topology_cache. intros Ht. result_inv. by subst. Qed.

(** ** Disks that are free *)

Lemma occupy_ok owner ids occupied m :
  occupy owner ids occupied = Ok m →
  (∀ id, id ∈ ids → is_Some (m !! id)) ∧ (∀ id, is_Some (occupied !! id) → is_Some (m !! id)).
Proof.
  revert occupied. induction ids as [|i ids IH]; intros occupied; cbn [occupy].
  { intros [= <-]. split; [by intros id []%elem_of_nil|done]. }
  destruct (occupied !! i); [done|]. intros [Hi Hm]%IH. split.
  - intros id [->|Hin]%elem_of_cons; [apply Hm; rewrite lookup_insert_eq; eauto|by apply Hi].
  - intros id Hid. apply Hm. destruct (decide (i = id)) as [->|];
      [rewrite lookup_insert_eq; eauto|by rewrite lookup_insert_ne].
Qed.

Lemma occupied_disks_ok pools occupied m :
  occupied_disks pools occupied = Ok m →
  (∀ p id, p ∈ pools → id ∈ tp_DiskIDs p → is_Some (m !! id)) ∧
  (∀ id, is_Some (occupied !! id) → is_Some (m !! id)).
Proof.
  revert occupied. induction pools as [|p pools IH]; intros occupied; cbn [occupied_disks].
  { intros [= <-]. split; [by intros p id []%elem_of_nil|done]. }
  intros Ho. result_inv. rename x into m1.
  match goal with Hx : occupy _ _ _ = _ |- _ => apply occupy_ok in Hx as [Hi1 Hm1] end.
  apply IH in Ho as [Hi Hm].
  split; [|by auto]. intros q id [->|Hin]%elem_of_cons Hid; eauto.
Qed.

Lemma available_ok disks occupied ids u :
  validateAvailableDisks disks occupied ids = Ok u →
  ∀ id, id ∈ ids → id ∈ disks ∧ occupied !! id = None.
Proof.
  induction ids as [|i ids IH]; cbn [validateAvailableDisks]; [by intros _ id []%elem_of_nil|].
  intros Hv. result_inv. split_bools. intros id [->|Hin]%elem_of_cons; [|by apply IH].
  split; [done|]. by destruct (occupied !! i).
Qed.

Lemma candidate_disks_ok s allow ids u :
  candidate_disks s allow ids = Ok u →
  ∀ id, id ∈ ids → validatePoolCandidateDisk (disk_entry s id) allow = Ok ().
Proof.
  induction ids as [|i ids IH]; cbn [candidate_disks]; [by intros _ id []%elem_of_nil|].
  intros Hv. result_inv. destruct x. intros id [->|Hin]%elem_of_cons; [done|by apply IH].
Qed.

Lemma disk_entry_in s id :
  (∃ d, d ∈ sst_Disks s ∧ TrimSpace (sd_ID d) = id ∧ disk_entry s id = d) ∨
  disk_entry s id = zero_disk.
Proof.
  unfold disk_entry. destruct (find_first _ _) as [d|] eqn:E; [left|by right].
  apply find_first_Some in E as [Hd Hi%bool_decide_eq_true]. rewrite elem_of_reverse in Hd.
  by exists d.
Qed.
End ids.

(** ** Requests and plans, taken apart *)

Section plans.
Context `{Unicode, StorageHash}.

Lemma canonical_request r c :
  canonicalStorageRequest r = Ok c →
  validateStorageRequestShape c = Ok () ∧
  (∀ p, str_Pool c = Some p → ∃ q, canonical_pool q = Ok p) ∧
  (∀ p, str_Cache c = Some p → ∃ q, canonical_cache q = Ok p).
Proof.
  unfold canonicalStorageRequest. intros Hc. result_inv. subst. cbn [str_Pool str_Cache].
  repeat match goal with u : () |- _ => destruct u end.
  split; [done|]. unfold optionally in *.
  split; intros p ->; [destruct (str_Pool r)|destruct (str_Cache r)]; result_inv; simplify_eq; eauto.
Qed.

Lemma pool_shape r c u :
  validateStorageRequestShape r = Ok u → str_Pool r = Some c →
  str_Resource r = ResourcePool ∧ validatePoolChange (str_Action r) c = Ok ().
Proof.
  unfold validateStorageRequestShape. intros Hs Hp. result_inv. rewrite Hp in Hs.
  case_bool_decide; [split; [done|]|].
  - destruct (str_Volume r), (str_Cache r); result_inv; by destruct u.
  - case_bool_decide; [by destruct (str_Volume r)|]. case_bool_decide; [|done].
    by destruct (str_Cache r).
Qed.

Lemma volume_shape r c u :
  validateStorageRequestShape r = Ok u → str_Volume r = Some c →
  str_Resource r = ResourceVolume ∧ validateVolumeChange (str_Action r) c = Ok ().
Proof.
  unfold validateStorageRequestShape. intros Hs Hp. result_inv. rewrite Hp in Hs.
  case_bool_decide; [by destruct (str_Pool r)|]. case_bool_decide; [split; [done|]|].
  - destruct (str_Pool r), (str_Cache r); result_inv; by destruct u.
  - case_bool_decide; [|done]. by destruct (str_Cache r), (str_Pool r).
Qed.

Lemma cache_shape r c u :
  validateStorageRequestShape r = Ok u → str_Cache r = Some c →
  str_Resource r = ResourceCache ∧ validateCacheChange (str_Action r) c = Ok ().
Proof.
  unfold validateStorageRequestShape. intros Hs Hp. result_inv. rewrite Hp in Hs.
  case_bool_decide; [by destruct (str_Pool r), (str_Volume r)|].
  case_bool_decide; [by destruct (str_Volume r), (str_Pool r)|].
  case_bool_decide; [split; [done|]|done].
  destruct (str_Pool r), (str_Volume r); result_inv; by destruct u.
Qed.

(** Every request carries one change, of its resource. *)
Inductive carries_change (r : StorageRequest) : Prop :=
| carries_pool c : str_Resource r = ResourcePool → str_Pool r = Some c → carries_change r
| carries_volume c : str_Resource r = ResourceVolume → str_Volume r = Some c → carries_change r
| carries_cache c : str_Resource r = ResourceCache → str_Cache r = Some c → carries_change r.

Lemma shape_carries r u : validateStorageRequestShape r = Ok u → carries_change r.
Proof.
  unfold validateStorageRequestShape. intros Hs. result_inv.
  case_bool_decide; [destruct (str_Pool r) eqn:E; [by eapply carries_pool|done]|].
  case_bool_decide; [destruct (str_Volume r) eqn:E'; [by eapply carries_volume|done]|].
  case_bool_decide; [|done]. destruct (str_Cache r) eqn:E''; [by eapply carries_cache|done].
Qed.

(** What a plan was built from. *)
Record built_from (s : storage_state) (plan : StoragePlan) (t : storageTopology)
    (e : effects) : Prop := {
  bf_topology : normalizeStorageTopology s = Ok t;
  bf_shape : validateStorageRequestShape (sp_Request plan) = Ok ();
  bf_pool p : str_Pool (sp_Request plan) = Some p → ∃ q, canonical_pool q = Ok p;
  bf_references : validateStorageTopologyReferences t (sp_Request plan) = Ok ();
  bf_safety : validateStorageMutationSafety s t (sp_Request plan) =
    Ok (sp_ApplicableRAIDTypes plan, sp_ResolvedCapacityBytes plan);
  bf_effects : storagePlanEffects t (sp_Request plan) (sp_ResolvedCapacityBytes plan) = Ok e;
  bf_risk : sp_Risk plan = riskLevel (ef_Destructive e);
  bf_destructive : sp_Destructive plan = ef_Destructive e;
  bf_consequences : sp_DestructiveConsequences plan = ef_Consequences e
}.

Lemma build_inv nas s request plan :
  BuildStoragePlan nas s request = Ok plan → ∃ t e, built_from s plan t e.
Proof.
  unfold BuildStoragePlan, at_revision. intros Hb. result_inv.
  subst.
  match goal with Hc : canonicalStorageRequest _ = _ |- _ =>
    apply canonical_request in Hc as (? & ? & _) end.
  repeat match goal with u : () |- _ => destruct u end.
  eexists _, _. split; cbn; eauto.
Qed.
End plans.

(** ** Pools *)

Lemma NoDup_fmap_eq {A B} (f : A → B) l x y :
  NoDup (f <$> l) → x ∈ l → y ∈ l → f x = f y → x = y.
Proof.
  induction l as [|z l IH]; [by intros _ []%elem_of_nil|].
  cbn. rewrite NoDup_cons. intros [Hn Hd] Hx Hy He.
  apply elem_of_cons in Hx as [->|Hx], Hy as [->|Hy]; [done| | |by apply IH];
    destruct Hn; apply list_elem_of_fmap; eauto.
Qed.

Section pools.
Context `{Unicode, StorageHash}.

(** A disk of the inventory that nothing uses, in no pool, and that DSM reports selectable
    and healthy; its compatibility may be waived. *)
Record spare_disk (s : storage_state) (allowUnsupported : bool) (id : string) : Prop := {
  spare_in_no_pool p : p ∈ sst_Pools s → id ∉ TrimSpace <$> spl_DiskIDs p;
  spare_disk_known : ∃ d, d ∈ sst_Disks s ∧ TrimSpace (sd_ID d) = id ∧
    used d = false ∧ sd_Selectable d = true ∧ healthyPoolDiskStatus (sd_Status d) = true ∧
    healthyStorageStatus (sd_Health d) = true ∧ smart_ok d = true ∧
    (allowUnsupported = true ∨ compatible d = true)
}.

(** The RAID type is one that the model offers, for that many disks. *)
Definition raid_fits (limits : PoolCreationConstraints) (raidType : string) (n : Z) : Prop :=
  raid_count_ok raidType n = true ∧
  (raidType ∈ [RAIDSHR; RAIDSHR2] → pcc_SupportsSHR limits = true).

(** The pool can take the disks. *)
Definition growable (s : storage_state) (c : PoolChange) (p : Pool) : Prop :=
  let n := count (spl_DiskIDs p) + count (plc_AddDiskIDs c) in
  p ∈ sst_Pools s ∧ TrimSpace (spl_ID p) = plc_ID c ∧ spl_Actioning p = false ∧
  spl_Writable p = true ∧ spl_CanExpand p = true ∧
  (0 < spl_MaxDiskCount p → n ≤ spl_MaxDiskCount p) ∧
  (∀ t, plc_TargetRAIDType c = Some t → raid_count_ok t n = true).

(** The disks that a change takes. *)
Definition selected (action : string) (c : PoolChange) : list string :=
  if bool_decide (action = ActionUpdate) then plc_AddDiskIDs c else plc_DiskIDs c.

Lemma canonical_pool_ids q c : canonical_pool q = Ok c → ∀ action, NoDup (selected action c).
Proof.
  unfold canonical_pool, selected. intros Hc action. result_inv. subst. cbn.
  case_bool_decide; match goal with |- NoDup ?l =>
    match goal with Hx : canonicalIDs _ = Ok l |- _ => by apply canonicalIDs_ok in Hx as (_ & ? & _) end
  end.
Qed.

Lemma spare_disks s t allow occupied ids u v :
  topology_of s t → occupied_disks (to_Pools t) ∅ = Ok occupied →
  validateAvailableDisks (list_to_set (td_Disk <$> to_Disks t)) occupied ids = Ok u →
  candidate_disks s allow ids = Ok v →
  ∀ id, id ∈ ids → spare_disk s allow id.
Proof.
  intros Ht Ho Ha Hc id Hid. split.
  - intros p Hp Hin. destruct (top_pools _ _ Ht p Hp) as (x & Hx & disks & Hok).
    apply topology_pool_ok in Hok as [_ HP].
    apply occupied_disks_ok in Ho as [Ho _].
    destruct (Ho x id Hx) as [o Hsome]; [by rewrite HP|].
    eapply available_ok in Ha as [_ Hnone]; [|done]. congruence.
  - eapply candidate_disks_ok in Hc; [|done]. unfold validatePoolCandidateDisk in Hc. result_inv.
    destruct (disk_entry_in s id) as [(d & Hd & He & Heq)|Hz];
      [|rewrite Hz in *; unfold blank in *; by split_bools].
    rewrite Heq in *. exists d. split_bools. repeat split; try done. 
    by apply orb_prop.
Qed.

Lemma elem_of_applicable limits n t :
  t ∈ applicablePoolRAIDTypes limits n → raid_fits limits t n.
Proof.
  unfold applicablePoolRAIDTypes. intros [Hok Hin]%list_elem_of_filter. split; [done|].
  intros Hshr. destruct (pcc_SupportsSHR limits); [done|]. exfalso. revert Hin.
  apply elem_of_cons in Hshr as [->|Hshr%list_elem_of_singleton]; [|rewrite Hshr];
    by apply (bool_decide_unpack _).
Qed.

Lemma within_limit_ok limit n : within_limit limit n = true → 0 < limit → n ≤ limit.
Proof. unfold within_limit. intros Hw Hl. destruct (Z.ltb_spec 0 limit); [|lia]. cbn in Hw. split_bools. lia. Qed.

(** The topology's entry of an identifier, and the inventory's. *)
Lemma pool_by_id s t x p :
  topology_of s t → x ∈ to_Pools t → storagePoolByID s (tp_ID x) = Some p →
  p ∈ sst_Pools s ∧ TrimSpace (spl_ID p) = tp_ID x ∧ count (tp_DiskIDs x) = count (spl_DiskIDs p).
Proof.
  intros Ht Hx [Hp Hi%bool_decide_eq_true]%find_first_Some.
  destruct (top_pool _ _ Ht x Hx) as (p' & Hp' & disks & [Hid HP]%topology_pool_ok).
  assert (p' = p) as ->.
  { eapply NoDup_fmap_eq; [exact (top_pool_ids _ _ Ht)|done|done|]. cbn. congruence. }
  split; [done|]. split; [done|]. unfold count. rewrite HP. by rewrite length_fmap.
Qed.

(** Only an inventory's pool is writable. *)
Lemma pool_or_zero s id :
  spl_Writable (default zero_pool (storagePoolByID s id)) = true →
  ∃ p, storagePoolByID s id = Some p.
Proof. destruct (storagePoolByID s id); [eauto|done]. Qed.

(** What both checks of a creation and of an expansion establish. *)
Lemma pool_checks s t action c occupied u r :
  topology_of s t → occupied_disks (to_Pools t) ∅ = Ok occupied →
  pool_references t (list_to_set (td_Disk <$> to_Disks t)) occupied action c = Ok u →
  pool_safety s t action c = Ok r →
  action = ActionCreate ∨ action = ActionUpdate →
  ∀ id, id ∈ selected action c → spare_disk s (plc_AllowUnsupportedDisks c) id.
Proof.
  unfold pool_references, pool_safety, selected. intros Ht Ho Hr Hs Ha id Hid.
  destruct Ha as [-> | ->];
    decide_words; result_inv;
    (eapply spare_disks; [done|done|done| |done]); done.
Qed.

Lemma expand_growable s t c occupied u r :
  topology_of s t →
  pool_references t (list_to_set (td_Disk <$> to_Disks t)) occupied ActionUpdate c = Ok u →
  pool_safety s t ActionUpdate c = Ok r →
  ∃ p, growable s c p.
Proof.
  unfold pool_references, pool_safety. intros Ht Hr Hs.
  decide_words. result_inv. split_bools.
  match goal with E : topologyPoolByID _ _ = Some ?x |- _ =>
    apply find_first_Some in E as [Htop Hi%bool_decide_eq_true] end.
  edestruct pool_or_zero as [p Hp]; [done|]. rewrite Hp in *. cbn [default from_option] in *.
  eapply pool_by_id in Hp as (Hin & Hid & Hn); [|done|done].
  exists p. unfold growable. rewrite <- Hn. repeat split; try done; [congruence| |].
  - by apply within_limit_ok.
  - intros tgt Htgt. rewrite Htgt in *. result_inv. unfold validateRAIDDiskCount in *.
    by result_inv.
Qed.
End pools.

(** C5: a plan takes only spare disks.  Every disk that a plan of a new pool or of an
    expansion takes is named once, and is a disk of the inventory the plan was made from:
    in no pool, unused, reported selectable and healthy, and compatible unless the request
    waives that.  A new pool has a RAID type that the model offers for that many disks; an
    expanded pool is an idle and writable one that DSM lets grow, within its limit of disks
    and, for a migration, with enough of them. *)
Theorem pool_plan_spare_disks `{Unicode, StorageHash} nas s request plan c :
  let action := str_Action (sp_Request plan) in
  BuildStoragePlan nas s request = Ok plan → str_Pool (sp_Request plan) = Some c →
  action = ActionCreate ∨ action = ActionUpdate →
  NoDup (selected action c) ∧
  (∀ id, id ∈ selected action c → spare_disk s (plc_AllowUnsupportedDisks c) id) ∧
  (action = ActionCreate → raid_fits (sst_PoolCreation s) (plc_RAIDType c) (count (plc_DiskIDs c))) ∧
  (action = ActionUpdate → ∃ p, growable s c p).
Proof.
  cbv zeta. intros (t & e & Hb)%build_inv Hp Ha.
  destruct (bf_pool _ _ _ _ Hb c Hp) as [q Hq].
  pose proof (normalize_topology _ _ (bf_topology _ _ _ _ Hb)) as Ht.
  destruct (pool_shape _ _ _ (bf_shape _ _ _ _ Hb) Hp) as [Hres _].
  pose proof (bf_references _ _ _ _ Hb) as Hr. pose proof (bf_safety _ _ _ _ Hb) as Hs.
  unfold validateStorageTopologyReferences, validateStorageMutationSafety in *.
  rewrite Hres, Hp in *. decide_words. result_inv.
  split; [by eapply canonical_pool_ids|]. split; [by eapply pool_checks|]. split.
  - intros Hc. rewrite Hc in *. eapply elem_of_applicable.
    unfold pool_safety in *. decide_words. result_inv.
    by split_bools.
  - intros Hu. rewrite Hu in *. by eapply expand_growable.
Qed.

Lemma mirror_request :
  str_Pool (sp_Request (planned create_mirror)) = Some mirror ∧
  str_Action (sp_Request (planned create_mirror)) = ActionCreate.
Proof. vm_compute. auto. Qed.

(** The two spare disks become a mirror. *)
Lemma pool_plan_spare_disks_witness :
  NoDup ["sata3"; "sata4"] ∧ @spare_disk ascii_tables sample_storage false "sata3" ∧
  raid_fits (sst_PoolCreation sample_storage) "raid1" 2.
Proof.
  destruct mirror_request as [Hp Ha].
  destruct (@pool_plan_spare_disks ascii_tables clear_storage "nas1" sample_storage create_mirror
    (planned create_mirror) mirror planned_mirror Hp (or_introl Ha)) as (Hn & Hs & Hr & _).
  rewrite Ha in Hn, Hs, Hr. split; [exact Hn|]. split; [|exact (Hr eq_refl)].
  apply Hs. left.
Defined.

(** ** Capacities *)

Lemma min_limit_ok value limit :
  0 ≤ value → 0 ≤ limit →
  let m := min_limit value limit in
  0 ≤ m ∧ (m = value ∨ m = limit) ∧ (0 < value → m ≤ value) ∧ (0 < limit → m ≤ limit) ∧
  (m = 0 → value = 0 ∧ limit = 0).
Proof.
  unfold min_limit. intros Hv Hl. cbv zeta.
  destruct (Z.ltb_spec 0 limit), (Z.eqb_spec value 0), (Z.ltb_spec limit value); cbn; lia.
Qed.

Lemma minimumPositive_ok value limits :
  0 ≤ value → Forall (Z.le 0) limits →
  let m := minimumPositive value limits in
  0 ≤ m ∧ m ∈ value :: limits ∧ (∀ b, b ∈ value :: limits → 0 < b → m ≤ b).
Proof.
  unfold minimumPositive. revert value. induction limits as [|b limits IH]; intros value Hv Hl.
  { cbn. split; [done|]. split; [by left|]. by intros b ->%list_elem_of_singleton. }
  inversion Hl; subst. cbn [fold_left].
  destruct (min_limit_ok value b) as (H0 & Hm & Hmv & Hmb & Hz); [done..|].
  destruct (IH (min_limit value b)) as (Hf & Hin & Hle); [done..|]. cbv zeta in *.
  split; [done|]. split.
  - apply elem_of_cons in Hin as [He|Hin]; [|by do 2 right].
    rewrite He. destruct Hm as [-> | ->]; [by left|right; by left].
  - intros x Hx Hp. apply elem_of_cons in Hx as [->|[->|Hx]%elem_of_cons].
    + assert (0 < min_limit value b) by lia.
      specialize (Hle (min_limit value b)). transitivity (min_limit value b); [|lia].
      apply Hle; [by left|done].
    + assert (0 < min_limit value b) by lia.
      transitivity (min_limit value b); [|lia]. apply Hle; [by left|done].
    + apply Hle; [by right|done].
Qed.

(** What the resolution of a policy between two bounds gives. *)
Lemma resolve_ok p minimum maximum v :
  0 ≤ minimum → 0 ≤ maximum → resolveVolumeCapacity p minimum maximum = Ok v →
  0 < minimum ∧ 0 < maximum ∧ minimum ≤ v ≤ maximum ∧ v mod GiB = 0 ∧
  (cpp_Mode p = CapacityMaximum → ∀ n, n mod GiB = 0 → n ≤ maximum → n ≤ v) ∧
  (cpp_Mode p ≠ CapacityMaximum → v = cpp_SizeBytes p).
Proof.
  unfold resolveVolumeCapacity. intros Hmin Hmax Hr. result_inv. split_bools.
  assert (0 < GiB) as Hg by done.
  assert (maximum / GiB * GiB ≤ maximum) as Hle.
  { rewrite Z.mul_comm. by apply Z.mul_div_le. }
  split; [lia|]. split; [lia|].
  case_bool_decide as Hm; result_inv; subst.
  - split; [lia|]. split; [by apply Z.mod_mul; lia|]. split; [|done]. intros _ n Hn Hb.
    rewrite (Z.div_mod n GiB), Hn, Z.add_0_r, Z.mul_comm by lia.
    apply Z.mul_le_mono_nonneg_r; [lia|]. by apply Z.div_le_mono.
  - split_bools. split; [lia|]. split; [done|]. done.
Qed.

Section capacity.
Context `{Unicode, StorageHash}.

(** The sizes of an inventory are uint64. *)
Definition uint64 (v : Z) : Prop := 0 ≤ v < 2 ^ 64.
Record uint64_sizes (s : storage_state) : Prop := {
  us_pools p : p ∈ sst_Pools s → uint64 (spl_SizeBytes p) ∧ uint64 (spl_AvailableBytes p);
  us_volumes v : v ∈ sst_Volumes s →
    uint64 (svo_AllocatedBytes v) ∧ uint64 (svo_MaxFileSystemBytes v);
  us_minimum : uint64 (vcc_MinimumSizeBytes (sst_VolumeCreation s));
  us_maximum : uint64 (vcc_MaxFileSystemBytes (sst_VolumeCreation s))
}.

(** What bounds the size of a volume from above; 0 is no bound. *)
Definition create_limits (s : storage_state) (p : Pool) : list Z :=
  [if bool_decide (spl_Layout p = "single") then spl_SizeBytes p else spl_AvailableBytes p;
   vcc_MaxFileSystemBytes (sst_VolumeCreation s)].
Definition expand_limits (s : storage_state) (p : Pool) (v : Volume) : list Z :=
  [svo_AllocatedBytes v + spl_AvailableBytes p; svo_MaxFileSystemBytes v;
   vcc_MaxFileSystemBytes (sst_VolumeCreation s)].

(** The capacity is what the policy asks for within the bounds: a whole number of GiB, the
    largest one or the requested one. *)
Record sized_within (policy : CapacityPolicy) (least : Z) (limits : list Z) (v : Z) : Prop := {
  sw_least : least ≤ v;
  sw_limits b : b ∈ limits → 0 < b → v ≤ b;
  sw_uint64 : 0 < v < 2 ^ 64;
  sw_whole : v mod GiB = 0;
  sw_largest n : cpp_Mode policy = CapacityMaximum → n mod GiB = 0 →
    (∀ b, b ∈ limits → 0 < b → n ≤ b) → n ≤ v;
  sw_exact : cpp_Mode policy ≠ CapacityMaximum → v = cpp_SizeBytes policy
}.

Lemma resolve_sized policy least first limits v :
  0 ≤ least → uint64 first → Forall uint64 limits →
  resolveVolumeCapacity policy least (minimumPositive first limits) = Ok v →
  sized_within policy least (first :: limits) v.
Proof.
  intros Hl [Hf Hf'] Hls Hr.
  destruct (minimumPositive_ok first limits) as (Hm & Hin & Hle); [done| |].
  { eapply Forall_impl; [exact Hls|]. by intros b [? _]. }
  cbv zeta in *. apply resolve_ok in Hr as (H1 & H2 & [H3 H3'] & H4 & H5 & H6); [|done..].
  assert (uint64 (minimumPositive first limits)) as [_ Hu].
  { apply elem_of_cons in Hin as [->|Hin]; [done|]. rewrite Forall_forall in Hls. auto. }
  split; [done| |lia|done| |done].
  - intros b Hb Hp. specialize (Hle b Hb Hp). lia.
  - intros n Hmax Hn Hb. apply H5; [done|done|]. by apply Hb.
Qed.

Lemma create_sized s p c v :
  uint64_sizes s → p ∈ sst_Pools s → create_volume_safety s p c = Ok v →
  vch_FileSystem c ∈ vcc_SupportedFileSystems (sst_VolumeCreation s) ∧
  ∃ policy, vch_Capacity c = Some policy ∧
    sized_within policy (vcc_MinimumSizeBytes (sst_VolumeCreation s)) (create_limits s p) v.
Proof.
  intros Hs Hp. unfold create_volume_safety. intros Hr. result_inv.
  destruct (vch_Capacity c) as [policy|]; [|done]. result_inv. split_bools.
  split; [done|]. exists policy. split; [done|].
  destruct (us_pools _ Hs p Hp). pose proof (us_minimum _ Hs) as [? _].
  apply resolve_sized; [done| | |done]; [by case_bool_decide|].
  constructor; [by apply us_maximum|constructor].
Qed.

Lemma expand_sized s p vol c v :
  uint64_sizes s → p ∈ sst_Pools s → vol ∈ sst_Volumes s →
  expand_volume_safety s p vol c = Ok v →
  ∃ policy, vch_ExpandTo c = Some policy ∧ svo_AllocatedBytes vol < v ∧
    sized_within policy (svo_AllocatedBytes vol + 1) (expand_limits s p vol) v.
Proof.
  intros Hs Hp Hvol. unfold expand_volume_safety. intros Hr. result_inv.
  destruct (vch_ExpandTo c) as [policy|]; [|done]. result_inv. subst.
  destruct (us_pools _ Hs p Hp) as [_ [Ha Ha']], (us_volumes _ Hs vol Hvol) as [[Hv Hv'] Hm].
  unfold checkedAddBytes in *. repeat case_match; try done. result_inv. subst. split_bools.
  exists policy. do 2 (split; [done|]).
  eapply resolve_sized; [lia|split; lia| |done].
  constructor; [done|]. constructor; [by apply us_maximum|constructor].
Qed.

(** A whole number of GiB is one of MiB. *)
Lemma GiB_allocation v : 0 < v → v mod GiB = 0 → allocationMiB v = Ok (Itoa (v / 2 ^ 20)).
Proof.
  intros Hv Hm. unfold allocationMiB.
  assert (v mod mebibyte = 0) as ->.
  { apply Z.mod_divide; [done|]. apply Z.mod_divide in Hm; [|done].
    etransitivity; [|exact Hm]. by exists 1024. }
  destruct (Z.eqb_spec v 0); [lia|done].
Qed.
End capacity.

(** C6: an approved capacity is one that DSM has.  The size that a plan of a new volume or
    of an expansion resolves is a positive whole number of GiB and a uint64, so it is sent as
    it was approved; it is the requested size, or for the policy of the maximum the largest
    such size, within what the inventory allows.  A new volume has a file system that the
    model offers, is no smaller than the minimum and no larger than the room of its pool and
    the limit of file systems; an expansion is larger than the volume, by at most the room
    that its pool has left, in sums that do not overflow.  Bounds that DSM reports as 0 are
    none. *)
Theorem volume_capacity_bounds `{Unicode, StorageHash} nas s request plan c :
  let action := str_Action (sp_Request plan) in
  let resolved := sp_ResolvedCapacityBytes plan in
  uint64_sizes s →
  BuildStoragePlan nas s request = Ok plan → str_Volume (sp_Request plan) = Some c →
  (action = ActionCreate → ∃ p policy, p ∈ sst_Pools s ∧ TrimSpace (spl_ID p) = vch_PoolID c ∧
     vch_FileSystem c ∈ vcc_SupportedFileSystems (sst_VolumeCreation s) ∧
     vch_Capacity c = Some policy ∧
     sized_within policy (vcc_MinimumSizeBytes (sst_VolumeCreation s)) (create_limits s p) resolved ∧
     allocationMiB resolved = Ok (Itoa (resolved / 2 ^ 20))) ∧
  (action = ActionUpdate → ∃ v p policy, v ∈ sst_Volumes s ∧ TrimSpace (svo_ID v) = vch_ID c ∧
     p ∈ sst_Pools s ∧ TrimSpace (spl_ID p) = svo_PoolID v ∧ vch_ExpandTo c = Some policy ∧
     svo_AllocatedBytes v < resolved ∧
     sized_within policy (svo_AllocatedBytes v + 1) (expand_limits s p v) resolved).
Proof.
  cbv zeta. intros Hs (t & e & Hb)%build_inv Hv.
  destruct (volume_shape _ _ _ (bf_shape _ _ _ _ Hb) Hv) as [Hres _].
  pose proof (bf_safety _ _ _ _ Hb) as Hsafe.
  unfold validateStorageMutationSafety in Hsafe. rewrite Hres, Hv in Hsafe. decide_words.
  result_inv. subst. unfold validateVolumeMutationSafety in *.
  split; intros Ha; rewrite Ha in *; decide_words; result_inv; subst.
  - match goal with E : storagePoolByID _ _ = Some ?p |- _ =>
      apply find_first_Some in E as [Hp Hid%bool_decide_eq_true]; exists p end.
    match goal with Hc : create_volume_safety _ _ _ = _ |- _ =>
      apply create_sized in Hc as (Hfs & policy & Hpol & Hsz); [|done..] end.
    exists policy. do 5 (split; [done|]). apply GiB_allocation; [apply Hsz|apply Hsz].
  - match goal with E : storageVolumeByID _ _ = Some ?v |- _ =>
      apply find_first_Some in E as [Hvol Hvid%bool_decide_eq_true]; exists v end.
    match goal with E : storagePoolByID _ _ = Some ?p |- _ =>
      apply find_first_Some in E as [Hp Hid%bool_decide_eq_true]; exists p end.
    match goal with Hc : expand_volume_safety _ _ _ _ = _ |- _ =>
      apply expand_sized in Hc as (policy & Hpol & Hgt & Hsz); [|done..] end.
    exists policy. by repeat (split; [done|]).
Qed.

Lemma second_request :
  str_Volume (sp_Request (planned create_second)) = Some second ∧
  str_Action (sp_Request (planned create_second)) = ActionCreate ∧
  sp_ResolvedCapacityBytes (planned create_second) = 59 * GiB.
Proof. vm_compute. auto. Qed.

Definition uint64b (v : Z) : bool := (0 <=? v) && (v <? 2 ^ 64).
Lemma uint64b_ok v : uint64b v = true → uint64 v.
Proof. unfold uint64b, uint64. intros. split_bools. lia. Qed.

Lemma sample_sizes : uint64_sizes sample_storage.
Proof.
  assert (∀ {A} (P : A → bool) l x, forallb P l = true → x ∈ l → P x = true) as Hall.
  { intros A P l x Hl Hx. rewrite forallb_forall in Hl. by apply Hl, list_elem_of_In. }
  split; [intros p Hp|intros v Hv|..]; try (apply uint64b_ok; vm_compute; reflexivity).
  - apply (Hall _ (fun p => uint64b (spl_SizeBytes p) && uint64b (spl_AvailableBytes p))) in Hp;
      [split_bools; by split; apply uint64b_ok|vm_compute; reflexivity].
  - apply (Hall _ (fun v => uint64b (svo_AllocatedBytes v) && uint64b (svo_MaxFileSystemBytes v)))
      in Hv; [split_bools; by split; apply uint64b_ok|vm_compute; reflexivity].
Qed.

(** The second volume takes the 59 GiB that the pool has left. *)
Lemma volume_capacity_bounds_witness :
  ∃ p policy, p ∈ sst_Pools sample_storage ∧
    sized_within policy (10 * GiB) (create_limits sample_storage p) (59 * GiB) ∧
    allocationMiB (59 * GiB) = Ok (Itoa (59 * GiB / 2 ^ 20)).
Proof.
  destruct second_request as (Hv & Ha & Hr).
  destruct (@volume_capacity_bounds ascii_tables clear_storage "nas1" sample_storage create_second
    (planned create_second) second sample_sizes planned_second Hv) as [Hc _].
  destruct (Hc Ha) as (p & policy & Hp & _ & _ & _ & Hs & Hm).
  rewrite Hr in Hs, Hm. exists p, policy. split; [exact Hp|]. split; [exact Hs|exact Hm].
Defined.

(** ** Consequences *)

Section consequences.
Context `{Unicode, StorageHash}.

(** The resources whose data a change puts at stake. *)
Inductive at_stake (s : storage_state) (r : StorageRequest) : string → Prop :=
| stake_pool c : str_Pool r = Some c → str_Action r = ActionDelete → at_stake s r (plc_ID c)
| stake_child c v : str_Pool r = Some c → str_Action r = ActionDelete →
    v ∈ sst_Volumes s → TrimSpace (svo_PoolID v) = plc_ID c →
    at_stake s r (TrimSpace (svo_ID v))
| stake_migrated c : str_Pool r = Some c → str_Action r = ActionUpdate →
    is_Some (plc_TargetRAIDType c) → at_stake s r (plc_ID c)
| stake_volume c : str_Volume r = Some c → str_Action r = ActionDelete →
    at_stake s r (vch_ID c)
| stake_cache c x : str_Cache r = Some c → str_Action r = ActionDelete →
    x ∈ sst_Caches s → TrimSpace (ssc_ID x) = cch_ID c → ssc_CacheType x = CacheModeReadWrite →
    at_stake s r (cch_ID c)
| stake_cached c x : str_Cache r = Some c → str_Action r = ActionDelete →
    x ∈ sst_Caches s → TrimSpace (ssc_ID x) = cch_ID c → ssc_CacheType x = CacheModeReadWrite →
    TrimSpace (ssc_VolumeID x) ≠ "" → at_stake s r (TrimSpace (ssc_VolumeID x))
| stake_converted c : str_Cache r = Some c → str_Action r = ActionConvert →
    cch_TargetMode c = Some CacheModeReadOnly → at_stake s r (cch_ID c).

(** The resources that effects announce, all of them iff they are destructive. *)
Definition announces (e : effects) (P : string → Prop) : Prop :=
  (∀ id, (∃ x, x ∈ ef_Consequences e ∧ id ∈ sdc_ResourceIDs x) ↔ P id) ∧
  (ef_Destructive e = true ↔ ∃ id, P id).

Lemma announces_nothing e (P : string → Prop) :
  ef_Destructive e = false → ef_Consequences e = [] → (∀ id, ¬ P id) → announces e P.
Proof.
  intros Hd Hc HP. split.
  - intros id. rewrite Hc. split; [by intros (x & []%elem_of_nil & _)|by intros []%HP].
  - rewrite Hd. split; [done|by intros [id []%HP]].
Qed.

Lemma announces_ids warning kind ids description line id (P : string → Prop) :
  id ∈ ids → (∀ id, id ∈ ids ↔ P id) → announces (destructive warning kind ids description line) P.
Proof.
  intros Hid HP. split; cbn.
  - intros i. rewrite <- HP. split.
    + by intros (x & ->%list_elem_of_singleton & Hx).
    + intros Hi. eexists. split; [by left|done].
  - split; [|done]. intros _. exists id. by apply HP.
Qed.

Lemma elem_of_volumes_of s t pool id :
  topology_of s t →
  id ∈ volumes_of t pool ↔
  ∃ v, v ∈ sst_Volumes s ∧ TrimSpace (svo_PoolID v) = pool ∧ id = TrimSpace (svo_ID v).
Proof.
  intros Ht. unfold volumes_of. rewrite list_elem_of_fmap. split.
  - intros (x & -> & [Hp Hx]%list_elem_of_filter).
    destruct (top_volume _ _ Ht x Hx) as (v & Hv & pools & [Hi Hq]%topology_volume_ok).
    exists v. split; [done|]. split; congruence.
  - intros (v & Hv & Hp & ->).
    destruct (top_volumes _ _ Ht v Hv) as (x & Hx & pools & [Hi Hq]%topology_volume_ok).
    exists x. split; [done|]. apply list_elem_of_filter. split; [congruence|done].
Qed.

Lemma pool_in_found t id x : topologyPoolByID t id = Some x → tp_ID (pool_in t id) = id.
Proof.
  intros E. unfold pool_in. rewrite E. by apply find_first_Some in E as [_ ?%bool_decide_eq_true].
Qed.

Lemma volume_in_found t id x : topologyVolumeByID t id = Some x → tv_ID (volume_in t id) = id.
Proof.
  intros E. unfold volume_in. rewrite E. by apply find_first_Some in E as [_ ?%bool_decide_eq_true].
Qed.

(** Two different actions of one request. *)
Ltac clash :=
  first [congruence |
    match goal with Ha : ?x = _, Hb : ?x = _ |- _ => rewrite Ha in Hb; discriminate Hb end].
Ltac no_stake := intros ? Hst; inversion Hst; simplify_eq; clash.

Lemma pool_announces s t r c occupied disks u :
  topology_of s t → str_Pool r = Some c → str_Volume r = None → str_Cache r = None →
  pool_references t disks occupied (str_Action r) c = Ok u →
  announces (pool_effects t (str_Action r) c) (at_stake s r).
Proof.
  intros Ht Hp Hv Hc Hr. unfold pool_effects.
  case_bool_decide as Hcr; [by apply announces_nothing; [..|no_stake]|].
  case_bool_decide as Hup.
  - destruct (plc_TargetRAIDType c) as [target|] eqn:Etarget.
    + assert (announces (migration_effects c) (at_stake s r)) as Ha.
      { unfold migration_effects. rewrite Etarget. eapply announces_ids; [by left|].
        intros id. rewrite list_elem_of_singleton. split.
        - intros ->. by eapply stake_migrated.
        - intros Hst. inversion Hst; simplify_eq; clash. }
      unfold addition_effects. destruct (no_ids _); exact Ha.
    + apply announces_nothing; [| |intros ? Hst; inversion Hst; simplify_eq; try clash].
      1,2: unfold addition_effects, migration_effects; rewrite Etarget; by destruct (no_ids _).
      match goal with Ht' : is_Some _ |- _ => rewrite Etarget in Ht'; by destruct Ht' end.
  - case_bool_decide as Hde; [|by apply announces_nothing; [..|no_stake]].
    unfold pool_references in Hr. rewrite Hde in *. decide_words. result_inv.
    match goal with E : topologyPoolByID _ _ = Some _ |- _ => rewrite (pool_in_found _ _ _ E) end.
    eapply announces_ids; [apply elem_of_sorted; by left|].
    intros id. rewrite elem_of_sorted, elem_of_cons, (elem_of_volumes_of s t) by done. split.
    + intros [->|(v & Hvol & Hpool & ->)]; [by eapply stake_pool|by eapply stake_child].
    + intros Hst. inversion Hst; simplify_eq; try clash; eauto.
Qed.

Lemma volume_announces s t r c resolved e u :
  str_Volume r = Some c → str_Pool r = None → str_Cache r = None →
  volume_references t (str_Action r) c = Ok u →
  volume_effects t (str_Action r) c resolved = Ok e → announces e (at_stake s r).
Proof.
  intros Hv Hp Hc Hr He. unfold volume_effects in He.
  case_bool_decide; [destruct (vch_Capacity c); result_inv; subst;
    by apply announces_nothing; [..|no_stake]|].
  case_bool_decide; [destruct (vch_ExpandTo c); result_inv; subst;
    by apply announces_nothing; [..|no_stake]|].
  case_bool_decide as Hde; result_inv; subst; [|by apply announces_nothing; [..|no_stake]].
  unfold volume_references in Hr. rewrite Hde in *. decide_words. result_inv.
  match goal with E : topologyVolumeByID _ _ = Some _ |- _ => rewrite (volume_in_found _ _ _ E) end.
  eapply announces_ids; [by left|]. intros id. rewrite list_elem_of_singleton. split.
  - intros ->. by eapply stake_volume.
  - intros Hst. inversion Hst; simplify_eq; clash.
Qed.

(** The inventory's cache of an identifier is the topology's. *)
Lemma cache_found s t id x :
  topology_of s t → topologyCacheByID t id = Some x →
  ∃ c, c ∈ sst_Caches s ∧ tc_ID x = id ∧ TrimSpace (ssc_ID c) = id ∧
    tc_VolumeID x = TrimSpace (ssc_VolumeID c) ∧ tc_CacheType x = ssc_CacheType c ∧
    ∀ c', c' ∈ sst_Caches s → TrimSpace (ssc_ID c') = id → c' = c.
Proof.
  intros Ht [Hx Hi%bool_decide_eq_true]%find_first_Some.
  destruct (top_cache _ _ Ht x Hx) as (c & Hc & (Hid & Hvol & Hty)%topology_cache_ok).
  exists c. do 2 (split; [done|]). split; [congruence|]. do 2 (split; [done|]).
  intros c' Hc' He. eapply NoDup_fmap_eq; [exact (top_cache_ids _ _ Ht)|done|done|].
  cbn. congruence.
Qed.

Lemma removal_announces s t r c x line :
  topology_of s t → str_Cache r = Some c → str_Pool r = None → str_Volume r = None →
  str_Action r = ActionDelete → topologyCacheByID t (cch_ID c) = Some x →
  tc_CacheType x = CacheModeReadWrite →
  announces (destructive
    "Removing a read-write SSD cache flushes dirty data; interrupting it risks data loss."
    "cache_dirty_flush"
    (if bool_decide (tc_VolumeID x = "") then [tc_ID x] else sort_strings [tc_ID x; tc_VolumeID x])
    "Dirty read-write cache data is flushed during removal; interrupting it risks data loss."
    line) (at_stake s r).
Proof.
  intros Ht Hc Hp Hv Ha Hx Hrw.
  eapply cache_found in Hx as (c0 & Hc0 & -> & Hid & -> & Hty & Huniq); [|done].
  rewrite Hty in Hrw.
  assert (∀ id, id ∈ (if bool_decide (TrimSpace (ssc_VolumeID c0) = "") then [cch_ID c]
    else sort_strings [cch_ID c; TrimSpace (ssc_VolumeID c0)]) ↔
    id = cch_ID c ∨ id = TrimSpace (ssc_VolumeID c0) ∧ TrimSpace (ssc_VolumeID c0) ≠ "") as Hids.
  { intros id. case_bool_decide as Hb; rewrite ?elem_of_sorted, ?elem_of_cons, ?elem_of_nil;
      naive_solver. }
  eapply announces_ids; [apply Hids; by left|]. intros id. rewrite Hids. split.
  - intros [->|[-> Hne]]; [by eapply stake_cache|by eapply stake_cached].
  - intros Hst. inversion Hst; simplify_eq; try clash; [by left|].
    right. match goal with Hin : ?y ∈ sst_Caches s, He : _ = cch_ID _ |- _ =>
      rewrite (Huniq y Hin) in * by done end. done.
Qed.

Lemma cache_announces s t r c disks occupied e u :
  topology_of s t → str_Cache r = Some c → str_Pool r = None → str_Volume r = None →
  validateCacheTopologyReferences t disks occupied (str_Action r) c = Ok u →
  cache_effects t (str_Action r) c = Ok e → announces e (at_stake s r).
Proof.
  intros Ht Hc Hp Hv Hr He. unfold cache_effects in He.
  case_bool_decide; [result_inv; subst; by apply announces_nothing; [..|no_stake]|].
  case_bool_decide; [result_inv; subst; by apply announces_nothing; [..|no_stake]|].
  case_bool_decide as Hco.
  { destruct (cch_TargetMode c) as [mode|] eqn:Em; [|done].
    case_bool_decide as Hro; result_inv; subst; [|by apply announces_nothing; [..|no_stake]].
    eapply announces_ids; [by left|]. intros id. rewrite list_elem_of_singleton. split.
    - intros ->. by eapply stake_converted.
    - intros Hst. inversion Hst; simplify_eq; clash. }
  case_bool_decide as Hde; [|result_inv; subst; by apply announces_nothing; [..|no_stake]].
  unfold validateCacheTopologyReferences in Hr. rewrite Hde in Hr. decide_words. result_inv.
  match goal with E : topologyCacheByID _ _ = Some ?x |- _ =>
    unfold cache_in in He; rewrite E in He; cbn [default from_option] in He;
    case_bool_decide as Hrw; result_inv; subst e; [by eapply removal_announces|];
    eapply cache_found in E as (c0 & Hc0 & _ & Hid & _ & Hty & Huniq); [|done] end.
  apply announces_nothing; [done|done|]. intros id Hst.
  inversion Hst; simplify_eq; try clash;
    match goal with Hin : ?y ∈ sst_Caches s |- _ =>
      pose proof (Huniq y Hin ltac:(done)) as Hy; rewrite Hy in *; cbn in Hrw; congruence end.
Qed.

(** Exactly the change of its resource. *)
Lemma only_change r u :
  validateStorageRequestShape r = Ok u →
  (∃ c, str_Resource r = ResourcePool ∧ str_Pool r = Some c ∧ str_Volume r = None ∧
     str_Cache r = None) ∨
  (∃ c, str_Resource r = ResourceVolume ∧ str_Volume r = Some c ∧ str_Pool r = None ∧
     str_Cache r = None) ∨
  (∃ c, str_Resource r = ResourceCache ∧ str_Cache r = Some c ∧ str_Pool r = None ∧
     str_Volume r = None).
Proof.
  unfold validateStorageRequestShape. intros Hs. result_inv.
  case_bool_decide; [left|right].
  - destruct (str_Pool r), (str_Volume r), (str_Cache r); try done. eauto 6.
  - case_bool_decide; [left|right].
    + destruct (str_Volume r), (str_Pool r), (str_Cache r); try done. eauto 6.
    + case_bool_decide; [|done].
      destruct (str_Cache r), (str_Pool r), (str_Volume r); try done. eauto 6.
Qed.

Lemma plan_announces s plan t e :
  built_from s plan t e → announces e (at_stake s (sp_Request plan)).
Proof.
  intros Hb. pose proof (normalize_topology _ _ (bf_topology _ _ _ _ Hb)) as Ht.
  pose proof (bf_references _ _ _ _ Hb) as Hr. pose proof (bf_effects _ _ _ _ Hb) as He.
  unfold validateStorageTopologyReferences, storagePlanEffects in *.
  destruct (only_change _ _ (bf_shape _ _ _ _ Hb)) as
    [(c & Hres & H1 & H2 & H3)|[(c & Hres & H1 & H2 & H3)|(c & Hres & H1 & H2 & H3)]];
    rewrite Hres, H1 in *; decide_words; result_inv; subst.
  - refine (pool_announces s t _ c _ _ _ Ht H1 H2 H3 Hr).
  - match goal with Hx : volume_effects _ _ _ _ = _ |- _ =>
      refine (volume_announces s t _ c _ _ _ H1 H2 H3 Hr Hx) end.
  - match goal with Hx : cache_effects _ _ _ = _ |- _ =>
      refine (cache_announces s t _ c _ _ _ _ Ht H1 H2 H3 Hr Hx) end.
Qed.
End consequences.

(** C7: what a change of storage can destroy is announced.  The resources that a plan's
    consequences name are exactly those whose data it puts at stake: of a pool that is
    deleted the pool and every volume that the inventory has in it, a pool whose RAID type
    is migrated, a deleted volume, and of a read-write cache that is removed or converted
    the cache and, on removal, its volume.  The plan is destructive, and of high risk, if
    and only if there is such a resource. *)
Theorem storage_destruction_announced `{Unicode, StorageHash} nas s request plan :
  BuildStoragePlan nas s request = Ok plan →
  (∀ id, (∃ x, x ∈ sp_DestructiveConsequences plan ∧ id ∈ sdc_ResourceIDs x) ↔
     at_stake s (sp_Request plan) id) ∧
  (sp_Destructive plan = true ↔ ∃ id, at_stake s (sp_Request plan) id) ∧
  (sp_Risk plan = "high" ↔ sp_Destructive plan = true).
Proof.
  intros (t & e & Hb)%build_inv. destruct (plan_announces _ _ _ _ Hb) as [Hids Hd].
  rewrite (bf_consequences _ _ _ _ Hb), (bf_destructive _ _ _ _ Hb), (bf_risk _ _ _ _ Hb).
  split; [done|]. split; [done|]. by destruct (ef_Destructive e).
Qed.

(** The volume of the deleted pool is announced with it. *)
Lemma storage_destruction_announced_witness :
  at_stake sample_storage (sp_Request (planned delete_data)) "volume_1" ∧
  sp_Destructive (planned delete_data) = true ∧ sp_Risk (planned delete_data) = "high".
Proof.
  destruct (@storage_destruction_announced ascii_tables clear_storage "nas1" sample_storage
    delete_data (planned delete_data) planned_delete) as (Hids & Hd & Hr).
  assert (sp_Destructive (planned delete_data) = true) as Ht by (vm_compute; reflexivity).
  split; [|split; [exact Ht|exact (proj2 Hr Ht)]].
  apply (proj1 (Hids "volume_1")). eexists. split; vm_compute; [left|right; left].
Defined.
