(* ===== verification/FirewallPlan.v ===== *)
(** * Planning and applying guarded firewall writes

    Source: internal/application/firewall_write.go.  A plan records the observed state, the
    decision of the never-lockout guard and a hash of it all; applying a plan plans again
    on the NAS's current state, compares the hashes, writes and reads back.

    [hashJSON], the hexadecimal SHA-256 of a value's JSON, is the class [PlanHash] on the
    four kinds of values hashed here.  Items of a summary are the structured arguments of
    the texts the code formats. *)

From S2P Require Import Prelude.
From S2P Require Import GoStrings.
From S2P Require Import NetIP.
From S2P Require Import Firewall.
From S2P Require Import RemotePolicy.
From S2P Require Import Compat.
From S2P Require Import Json.
From S2P Require Import DsmErrors.
From S2P Require Import DsmClient.
From S2P Require Import FirewallWire.
From S2P Require Import FirewallOps.
From S2P Require Import Config.
From S2P Require Import Service.

Definition firewallAPIVersion : string := "dsmctl.io/v1alpha1".

(** ** Data *)

Record FirewallGuardResult := {
  gu_Evaluated : bool;
  gu_Connection : Connection;
  gu_Allowed : bool;
  gu_Reason : option reason;
  gu_Overridden : bool
}.

Definition zero_connection : Connection :=
  {| cn_Source := ""; cn_Port := 0; cn_Protocol := ""; cn_Determined := false |}.
Definition zero_guard : FirewallGuardResult :=
  {| gu_Evaluated := false; gu_Connection := zero_connection; gu_Allowed := false;
     gu_Reason := None; gu_Overridden := false |}.
Definition zero_profile : ProfileRules :=
  {| fp_Profile := ""; fp_IsActive := false; fp_Adapters := [] |}.

Inductive summary_item :=
| ConfigureAdapter (adapter policy : string) (rules : Z)
| ChangeDefaultPolicy (adapter from to : string)
| ChangeRuleCount (adapter : string) (from to : Z)
| RewriteRules (adapter : string)
| ActivateProfile
| NoAdapterChanges
| EnableFirewall (profile : string)
| SwitchProfile (profile : string)
| DisableFirewall.

Inductive warning :=
| BreakAcknowledged (r : option reason)
| FilteringRemoved.

Record FirewallProfileObserved := {
  fo_Status : Status;
  fo_Profile : ProfileRules;
  fo_Connection : Connection;
  fo_ProtectedSources : list string
}.

Record FirewallProfilePlan := {
  fpl_APIVersion : string;
  fpl_NAS : string;
  fpl_ProfileRevision : Z;
  fpl_Request : ProfileChange;
  fpl_Observed : FirewallProfileObserved;
  fpl_ObservedFingerprint : string;
  fpl_Resulting : ProfileRules;
  fpl_TakesEffect : bool;
  fpl_Guard : FirewallGuardResult;
  fpl_Risk : string;
  fpl_Warnings : list warning;
  fpl_Summary : list summary_item;
  fpl_Hash : string
}.

Record FirewallEnableObserved := {
  feo_Status : Status;
  feo_ActiveProfile : ProfileRules;
  feo_Connection : Connection;
  feo_ProtectedSources : list string
}.

Record FirewallEnablePlan := {
  fep_APIVersion : string;
  fep_NAS : string;
  fep_ProfileRevision : Z;
  fep_Request : EnableChange;
  fep_Observed : FirewallEnableObserved;
  fep_ObservedFingerprint : string;
  fep_Guard : FirewallGuardResult;
  fep_Risk : string;
  fep_Warnings : list warning;
  fep_Summary : list summary_item;
  fep_Hash : string
}.

Record FirewallApplyResult := {
  fa_NAS : string;
  fa_PlanHash : string;
  fa_Applied : bool;
  fa_Operation : MutationResult
}.

Definition set_fpl_Revision_Hash (revision : Z) (hash : string) (p : FirewallProfilePlan) :
    FirewallProfilePlan := {|
  fpl_APIVersion := fpl_APIVersion p; fpl_NAS := fpl_NAS p; fpl_ProfileRevision := revision;
  fpl_Request := fpl_Request p; fpl_Observed := fpl_Observed p;
  fpl_ObservedFingerprint := fpl_ObservedFingerprint p; fpl_Resulting := fpl_Resulting p;
  fpl_TakesEffect := fpl_TakesEffect p; fpl_Guard := fpl_Guard p; fpl_Risk := fpl_Risk p;
  fpl_Warnings := fpl_Warnings p; fpl_Summary := fpl_Summary p; fpl_Hash := hash |}.

Definition set_fep_Revision_Hash (revision : Z) (hash : string) (p : FirewallEnablePlan) :
    FirewallEnablePlan := {|
  fep_APIVersion := fep_APIVersion p; fep_NAS := fep_NAS p; fep_ProfileRevision := revision;
  fep_Request := fep_Request p; fep_Observed := fep_Observed p;
  fep_ObservedFingerprint := fep_ObservedFingerprint p; fep_Guard := fep_Guard p;
  fep_Risk := fep_Risk p; fep_Warnings := fep_Warnings p; fep_Summary := fep_Summary p;
  fep_Hash := hash |}.

(** The values that are hashed. *)
Inductive hashed :=
| HProfileObserved (o : FirewallProfileObserved)
| HProfilePlan (p : FirewallProfilePlan)
| HEnableObserved (o : FirewallEnableObserved)
| HEnablePlan (p : FirewallEnablePlan).

Class PlanHash := { hashJSON : hashed → string }.

#[global] Instance Rule_eq_dec : EqDecision Rule.
Proof. solve_decision. Defined.

Section plan.
Context `{Unicode, PlanHash}.

Definition firewallProfilePlanHash (p : FirewallProfilePlan) : string :=
  hashJSON (HProfilePlan (set_fpl_Revision_Hash (fpl_ProfileRevision p) "" p)).
Definition firewallEnablePlanHash (p : FirewallEnablePlan) : string :=
  hashJSON (HEnablePlan (set_fep_Revision_Hash (fep_ProfileRevision p) "" p)).

(** ** The guard *)

(** The distinct sources of the connections DSM flags as current. *)
Definition current_sources (sessions : list SessionSource) : list string :=
  dedup (base.filter (fun ip => ip ≠ "")
    ((fun s => TrimSpace (ss_From s)) <$> base.filter (fun s => ss_Current s = true) sessions)).

Definition determineConnection (transport : Connection) (sessions : list SessionSource)
    (keepReachable : string) : Connection :=
  let conn source determined :=
    {| cn_Source := source; cn_Port := cn_Port transport; cn_Protocol := "tcp";
       cn_Determined := determined |} in
  let trimmed := TrimSpace keepReachable in
  if negb (bool_decide (trimmed = "")) then conn trimmed false
  else match current_sources sessions with
       | [ip] => conn ip true
       | _ => conn "" false
       end.

Definition cidrHostBounds (subnet : IPNet) : string * string :=
  (ip_String (net_IP subnet),
   ip_String (zip_with (fun a m => Z.lor a (255 - m)) (net_IP subnet) (net_Mask subnet))).

(** The addresses to check; [None] for a text that is neither an address nor a network. *)
Definition guardProbeIPs (source : string) : option (list string) :=
  let source := TrimSpace source in
  match ParseIP source with
  | Some _ => Some [source]
  | None =>
      match ParseCIDR source with
      | Some subnet => let '(first, last) := cidrHostBounds subnet in Some [first; last]
      | None => None
      end
  end.

Definition probe_connection (port : Z) (ip : string) : Connection :=
  {| cn_Source := ip; cn_Port := port; cn_Protocol := "tcp"; cn_Determined := false |}.

(** The first probe that is not allowed, or the answer that all are. *)
Fixpoint probe_loop (resulting : ProfileRules) (port : Z) (probes : list string) :
    Reachability :=
  match probes with
  | [] => {| re_Allowed := true; re_Reason := RulesetAllows |}
  | ip :: probes =>
      let r := ProfileAllowsSession resulting (probe_connection port ip) in
      if negb (re_Allowed r) then r else probe_loop resulting port probes
  end.

Inductive guard_error :=
| UndeterminedSource
| InvalidSource (source : string)
| LockoutRefused (source : string) (port : Z) (r : reason).

Definition evaluateGuard (conn : Connection) (resulting : ProfileRules) (allowBreak : bool) :
    result guard_error FirewallGuardResult :=
  if bool_decide (TrimSpace (cn_Source conn) = "") then Err UndeterminedSource else
  match guardProbeIPs (cn_Source conn) with
  | None => Err (InvalidSource (cn_Source conn))
  | Some probes =>
      let verdict := probe_loop resulting (cn_Port conn) probes in
      let guard overridden :=
        {| gu_Evaluated := true; gu_Connection := conn; gu_Allowed := re_Allowed verdict;
           gu_Reason := Some (re_Reason verdict); gu_Overridden := overridden |} in
      if negb (re_Allowed verdict) then
        if negb allowBreak
        then Err (LockoutRefused (cn_Source conn) (cn_Port conn) (re_Reason verdict))
        else Ok (guard true)
      else Ok (guard false)
  end.

Definition protectedSourceList (sessions : list SessionSource) : list string :=
  dedup (base.filter (fun ip => ip ≠ "") ((fun s => TrimSpace (ss_From s)) <$> sessions)).

(** ** Policies, rules and profiles *)

Definition validAdapterPolicy (policy : string) : bool :=
  bool_decide (normalizePolicy policy ∈ [PolicyAllow; PolicyDeny; PolicyDrop; PolicyNone; ""]).
Definition validRulePolicy (policy : string) : bool :=
  bool_decide (normalizePolicy policy ∈ [PolicyAllow; PolicyDeny; PolicyDrop]).
Definition isBlockingPolicy (policy : string) : bool :=
  bool_decide (normalizePolicy policy ∈ [PolicyDeny; PolicyDrop]).

Definition adaptersByName (l : list AdapterPolicy) : gmap string AdapterPolicy :=
  replaced_map l.

Definition rulesEqual (a b : list Rule) : bool := bool_decide (a = b).

Definition firewallProfilesEqual (a b : ProfileRules) : bool :=
  bool_decide (length (fp_Adapters a) = length (fp_Adapters b))
  && forallb (fun adapter =>
       match adaptersByName (fp_Adapters a) !! fa_Adapter adapter with
       | Some prior => EqualFold (fa_Policy prior) (fa_Policy adapter)
                       && rulesEqual (fa_Rules prior) (fa_Rules adapter)
       | None => false
       end) (fp_Adapters b).

Definition validate_adapter (a : AdapterPolicy) : result dsm_error () :=
  if bool_decide (TrimSpace (fa_Adapter a) = "")
  then Err (EMsg "firewall adapter section requires an adapter name")
  else if negb (validAdapterPolicy (fa_Policy a))
  then Err (EMsg "firewall adapter default policy is invalid")
  else if negb (forallb (fun r => validRulePolicy (ru_Policy r)) (fa_Rules a))
  then Err (EMsg "firewall rule has invalid action")
  else Ok ().

Fixpoint validate_adapters (l : list AdapterPolicy) : result dsm_error () :=
  match l with
  | [] => Ok ()
  | a :: l => validate_adapter a ≫= fun _ => validate_adapters l
  end.

Definition validateFirewallProfileShape (change : ProfileChange) : result dsm_error () :=
  if bool_decide (TrimSpace (pc_Profile change) = "")
  then Err (EMsg "firewall profile change requires a profile name")
  else if bool_decide (length (pc_Adapters change) = 0%nat)
  then Err (EMsg "firewall profile change requires at least one adapter section")
  else
    validate_adapters (pc_Adapters change) ≫= fun _ =>
    if negb (bool_decide (TrimSpace (pc_KeepReachable change) = ""))
       && bool_decide (guardProbeIPs (pc_KeepReachable change) = None)
    then Err (EMsg "keep_reachable is not a valid IP address or CIDR subnet")
    else Ok ().

(** ** Effects *)

(** The items of one adapter, and whether its change is high risk on its own. *)
Definition adapter_effects (before : gmap string AdapterPolicy) (a : AdapterPolicy) :
    list summary_item * bool :=
  match before !! fa_Adapter a with
  | None => ([ConfigureAdapter (fa_Adapter a) (fa_Policy a) (Z.of_nat (length (fa_Rules a)))],
             false)
  | Some prior =>
      let policy := negb (EqualFold (fa_Policy prior) (fa_Policy a)) in
      let n := Z.of_nat (length (fa_Rules prior)) in
      let n' := Z.of_nat (length (fa_Rules a)) in
      ((if policy then [ChangeDefaultPolicy (fa_Adapter a) (fa_Policy prior) (fa_Policy a)]
        else [])
       ++ (if negb (n =? n') then [ChangeRuleCount (fa_Adapter a) n n']
           else if negb (rulesEqual (fa_Rules prior) (fa_Rules a))
                then [RewriteRules (fa_Adapter a)] else []),
       policy && isBlockingPolicy (fa_Policy a) && negb (isBlockingPolicy (fa_Policy prior)))
  end.

Definition firewallProfileEffects (observed resulting : ProfileRules) (request : ProfileChange)
    (takesEffect : bool) (guard : FirewallGuardResult) :
    string * list warning * list summary_item :=
  let before := adaptersByName (fp_Adapters observed) in
  let effects := adapter_effects before <$> fp_Adapters resulting in
  let summary := concat effects.*1 ++ (if pc_Activate request then [ActivateProfile] else []) in
  let summary := if bool_decide (length summary = 0%nat) then [NoAdapterChanges] else summary in
  let high := existsb snd effects || takesEffect in
  (if high then "high" else "medium",
   if takesEffect && gu_Overridden guard then [BreakAcknowledged (gu_Reason guard)] else [],
   summary).

Definition firewallEnableEffects (status : Status) (enabled : bool) (profile : string)
    (guard : FirewallGuardResult) : string * list warning * list summary_item :=
  if enabled then
    ("high",
     if gu_Overridden guard then [BreakAcknowledged (gu_Reason guard)] else [],
     [if negb (fs_Enabled status) then EnableFirewall profile else SwitchProfile profile])
  else ("medium", [FilteringRemoved], [DisableFirewall]).

(** ** Planning and applying a profile change *)

Section apply.
Context {W : Type} `{Network W}.

Abbreviation M := (ST (dstate W) dsm_error).

Definition guarded (r : result guard_error FirewallGuardResult) : M FirewallGuardResult :=
  match r with
  | Ok g => mret g
  | Err UndeterminedSource =>
      fail (EMsg "the source of the management session could not be determined")
  | Err (InvalidSource _) => fail (EMsg "keep_reachable is not a valid IP address or CIDR subnet")
  | Err (LockoutRefused _ _ _) => fail (EMsg "the never-lockout guard refuses this change")
  end.

(** The one profile of a rule set. *)
Definition only_profile (rules : RuleSet) (msg : string) : M ProfileRules :=
  match rs_Profiles rules with [p] => mret p | _ => fail (EMsg msg) end.

Definition profile_takes_effect (request : ProfileChange) (status : Status) : bool :=
  pc_Activate request
  || fs_Enabled status && EqualFold (fs_ActiveProfile status) (pc_Profile request).

(** The plan over what was observed; its fingerprint and hash are computed last. *)
Definition profile_plan (nas : string) (request : ProfileChange)
    (observed : FirewallProfileObserved) (resulting : ProfileRules) (takesEffect : bool)
    (guard : FirewallGuardResult) : FirewallProfilePlan :=
  let '(risk, warnings, summary) :=
    firewallProfileEffects (fo_Profile observed) resulting request takesEffect guard in
  let p := {| fpl_APIVersion := firewallAPIVersion; fpl_NAS := nas; fpl_ProfileRevision := 0;
              fpl_Request := request; fpl_Observed := observed;
              fpl_ObservedFingerprint := hashJSON (HProfileObserved observed);
              fpl_Resulting := resulting; fpl_TakesEffect := takesEffect;
              fpl_Guard := guard; fpl_Risk := risk; fpl_Warnings := warnings;
              fpl_Summary := summary; fpl_Hash := "" |} in
  set_fpl_Revision_Hash 0 (firewallProfilePlanHash p) p.

Definition planFirewallProfileWithClient (nas : string) (request : ProfileChange) :
    M FirewallProfilePlan :=
  capabilities ← named nas FirewallCapabilities;
  check (fc_RulesRead capabilities && fc_ProfileWrite capabilities)
    (EMsg "no verified firewall profile read/write backend");;
  status ← named nas FirewallStatus;
  ruleSet ← named nas (FirewallRules (pc_Profile request));
  observedProfile ← only_profile ruleSet "firewall profile was not found";
  let resulting := MergeProfile observedProfile (pc_Adapters request) in
  check (negb (firewallProfilesEqual observedProfile resulting && negb (pc_Activate request)))
    (EMsg "firewall profile change would not change the current configuration");;
  sessions ← named nas FirewallActiveSessions;
  c ← client;
  let conn := determineConnection (FirewallTransport c) sessions (pc_KeepReachable request) in
  let takesEffect := profile_takes_effect request status in
  guard ← (if takesEffect
           then guarded (evaluateGuard conn resulting (pc_AllowConnectivityBreak request))
           else mret zero_guard);
  mret (profile_plan nas request
    {| fo_Status := status; fo_Profile := observedProfile; fo_Connection := conn;
       fo_ProtectedSources := protectedSourceList sessions |}
    resulting takesEffect guard).

Definition verifyFirewallProfilePostcondition (plan : FirewallProfilePlan) : M () :=
  ruleSet ← FirewallRules (pc_Profile (fpl_Request plan));
  written ← only_profile ruleSet "profile missing after write";
  check (firewallProfilesEqual written (fpl_Resulting plan))
    (EMsg "the written profile does not match the desired state").

Definition applyFirewallProfileWithClient (plan : FirewallProfilePlan) :
    M FirewallApplyResult :=
  current ← wrap "firewall profile plan precondition no longer holds"
    (planFirewallProfileWithClient (fpl_NAS plan) (fpl_Request plan));
  let current := set_fpl_Revision_Hash (fpl_ProfileRevision plan) (fpl_Hash current) current in
  let hash := firewallProfilePlanHash current in
  check (bool_decide (fpl_ObservedFingerprint current = fpl_ObservedFingerprint plan)
         && bool_decide (hash = fpl_Hash plan))
    (EMsg "firewall profile plan is stale; create a new plan");;
  operation ← named (fpl_NAS plan) (ApplyFirewallProfileChange (fpl_Request plan));
  wrap "verify firewall profile change" (verifyFirewallProfilePostcondition plan);;
  mret {| fa_NAS := fpl_NAS plan; fa_PlanHash := fpl_Hash plan; fa_Applied := true;
          fa_Operation := operation |}.

Definition validateFirewallProfilePlan (plan : FirewallProfilePlan) (approvalHash : string) :
    result dsm_error () :=
  if bool_decide (TrimSpace approvalHash = "") || negb (bool_decide (approvalHash = fpl_Hash plan))
  then Err (EMsg "approval hash does not match the firewall profile plan")
  else if negb (bool_decide (fpl_APIVersion plan = firewallAPIVersion))
          || bool_decide (TrimSpace (fpl_NAS plan) = "")
  then Err (EMsg "invalid firewall profile plan metadata")
  else
    validateFirewallProfileShape (fpl_Request plan) ≫= fun _ =>
    if negb (bool_decide (hashJSON (HProfileObserved (fpl_Observed plan))
                          = fpl_ObservedFingerprint plan))
    then Err (EMsg "firewall profile plan observed state was modified")
    else if negb (bool_decide (firewallProfilePlanHash plan = fpl_Hash plan))
    then Err (EMsg "firewall profile plan contents were modified after planning")
    else Ok ().

(** ** Enabling and disabling *)

Definition enable_plan (nas : string) (request : EnableChange)
    (observed : FirewallEnableObserved) (guard : FirewallGuardResult) : FirewallEnablePlan :=
  let '(risk, warnings, summary) :=
    firewallEnableEffects (feo_Status observed) (ec_Enabled request) (ec_Profile request) guard in
  let p := {| fep_APIVersion := firewallAPIVersion; fep_NAS := nas; fep_ProfileRevision := 0;
              fep_Request := request; fep_Observed := observed;
              fep_ObservedFingerprint := hashJSON (HEnableObserved observed);
              fep_Guard := guard; fep_Risk := risk; fep_Warnings := warnings;
              fep_Summary := summary; fep_Hash := "" |} in
  set_fep_Revision_Hash 0 (firewallEnablePlanHash p) p.

Definition planFirewallEnableWithClient (nas : string) (request : EnableChange) :
    M FirewallEnablePlan :=
  capabilities ← named nas FirewallCapabilities;
  check (fc_EnableWrite capabilities)
    (EMsg "no verified firewall enable/disable backend");;
  status ← named nas FirewallStatus;
  let requested := TrimSpace (ec_Profile request) in
  let targetProfile := if bool_decide (requested = "") then fs_ActiveProfile status
                       else requested in
  check (negb (ec_Enabled request && fs_Enabled status
               && EqualFold (fs_ActiveProfile status) targetProfile))
    (EMsg "firewall is already enabled with profile; nothing to change");;
  check (ec_Enabled request || fs_Enabled status)
    (EMsg "firewall is already disabled; nothing to change");;
  sessions ← named nas FirewallActiveSessions;
  c ← client;
  let conn := determineConnection (FirewallTransport c) sessions (ec_KeepReachable request) in
  let request := {| ec_Enabled := ec_Enabled request; ec_Profile := targetProfile;
                    ec_AllowConnectivityBreak := ec_AllowConnectivityBreak request;
                    ec_KeepReachable := ec_KeepReachable request |} in
  '(activeProfile, guard) ←
    (if ec_Enabled request then
       ruleSet ← named nas (FirewallRules targetProfile);
       activeProfile ← only_profile ruleSet "firewall profile was not found";
       guard ← guarded (evaluateGuard conn activeProfile (ec_AllowConnectivityBreak request));
       mret (activeProfile, guard)
     else mret (zero_profile, zero_guard));
  mret (enable_plan nas request
    {| feo_Status := status; feo_ActiveProfile := activeProfile; feo_Connection := conn;
       feo_ProtectedSources := protectedSourceList sessions |} guard).

Definition verifyFirewallEnablePostcondition (change : EnableChange) : M () :=
  status ← FirewallStatus;
  check (bool_decide (fs_Enabled status = ec_Enabled change)) (EMsg "enable_firewall differs");;
  check (negb (ec_Enabled change && negb (bool_decide (TrimSpace (ec_Profile change) = ""))
               && negb (EqualFold (fs_ActiveProfile status) (ec_Profile change))))
    (EMsg "active profile differs").

Definition applyFirewallEnableWithClient (plan : FirewallEnablePlan) :
    M FirewallApplyResult :=
  current ← wrap "firewall enable plan precondition no longer holds"
    (planFirewallEnableWithClient (fep_NAS plan) (fep_Request plan));
  let current := set_fep_Revision_Hash (fep_ProfileRevision plan) (fep_Hash current) current in
  let hash := firewallEnablePlanHash current in
  check (bool_decide (fep_ObservedFingerprint current = fep_ObservedFingerprint plan)
         && bool_decide (hash = fep_Hash plan))
    (EMsg "firewall enable plan is stale; create a new plan");;
  operation ← named (fep_NAS plan) (ApplyFirewallEnableChange (fep_Request plan));
  wrap "verify firewall enable change" (verifyFirewallEnablePostcondition (fep_Request plan));;
  mret {| fa_NAS := fep_NAS plan; fa_PlanHash := fep_Hash plan; fa_Applied := true;
          fa_Operation := operation |}.

Definition validateFirewallEnablePlan (plan : FirewallEnablePlan) (approvalHash : string) :
    result dsm_error () :=
  if bool_decide (TrimSpace approvalHash = "") || negb (bool_decide (approvalHash = fep_Hash plan))
  then Err (EMsg "approval hash does not match the firewall enable plan")
  else if negb (bool_decide (fep_APIVersion plan = firewallAPIVersion))
          || bool_decide (TrimSpace (fep_NAS plan) = "")
  then Err (EMsg "invalid firewall enable plan metadata")
  else if negb (bool_decide (hashJSON (HEnableObserved (fep_Observed plan))
                             = fep_ObservedFingerprint plan))
  then Err (EMsg "firewall enable plan observed state was modified")
  else if negb (bool_decide (firewallEnablePlanHash plan = fep_Hash plan))
  then Err (EMsg "firewall enable plan contents were modified after planning")
  else Ok ().

(** ** The service's operations *)

Section service.
Context `{NetURL} {G : Type} (srv : Service G W).

Abbreviation MS := (ST (G * dstate W) service_error).

Definition PlanFirewallProfileChange (ctx : context) (requestedNAS : string)
    (request : ProfileChange) : MS FirewallProfilePlan :=
  on_client (lift (validateFirewallProfileShape request));;
  name ← sv_Client srv ctx requestedNAS;
  plan ← on_client (planFirewallProfileWithClient name request);
  revision ← profileRevision srv ctx name;
  let plan := set_fpl_Revision_Hash revision (fpl_Hash plan) plan in
  mret (set_fpl_Revision_Hash revision (firewallProfilePlanHash plan) plan).

Definition ApplyFirewallProfilePlan (ctx : context) (plan : FirewallProfilePlan)
    (approvalHash : string) : MS FirewallApplyResult :=
  on_client (lift (validateFirewallProfilePlan plan approvalHash));;
  authorizeRemoteApply srv ctx (fpl_NAS plan) (fpl_ProfileRevision plan) (fpl_Hash plan)
    (fpl_Risk plan);;
  verifyProfileRevision srv ctx (fpl_NAS plan) (fpl_ProfileRevision plan);;
  name ← sv_Client srv ctx (fpl_NAS plan);
  check (bool_decide (name = fpl_NAS plan))
    (EText "firewall profile plan NAS resolved to different profile");;
  on_client (applyFirewallProfileWithClient plan).

Definition PlanFirewallEnableChange (ctx : context) (requestedNAS : string)
    (request : EnableChange) : MS FirewallEnablePlan :=
  name ← sv_Client srv ctx requestedNAS;
  plan ← on_client (planFirewallEnableWithClient name request);
  revision ← profileRevision srv ctx name;
  let plan := set_fep_Revision_Hash revision (fep_Hash plan) plan in
  mret (set_fep_Revision_Hash revision (firewallEnablePlanHash plan) plan).

Definition ApplyFirewallEnablePlan (ctx : context) (plan : FirewallEnablePlan)
    (approvalHash : string) : MS FirewallApplyResult :=
  on_client (lift (validateFirewallEnablePlan plan approvalHash));;
  authorizeRemoteApply srv ctx (fep_NAS plan) (fep_ProfileRevision plan) (fep_Hash plan)
    (fep_Risk plan);;
  verifyProfileRevision srv ctx (fep_NAS plan) (fep_ProfileRevision plan);;
  name ← sv_Client srv ctx (fep_NAS plan);
  check (bool_decide (name = fep_NAS plan))
    (EText "firewall enable plan NAS resolved to different profile");;
  on_client (applyFirewallEnableWithClient plan).
End service.
End apply.
End plan.
