(* ===== verification/FirewallPlanThms.v ===== *)
(** * The never-lockout guard on the wire, and the NAS it is shown on

    The samples come first: a scripted NAS whose active profile lets the local network in, a change that adds a
    rule, and a readable stand-in for the hash of a plan.  The properties of plans and
    applies are instantiated on them. *)

From S2P Require Import Prelude.
From S2P Require Import GoStrings.
From S2P Require Import NetIP.
From S2P Require Import Firewall.
From S2P Require Import FirewallThms.
From S2P Require Import RemotePolicy.
From S2P Require Import Compat.
From S2P Require Import Json.
From S2P Require Import DsmErrors.
From S2P Require Import DsmClient.
From S2P Require Import DsmThms.
From S2P Require Import DsmWire.
From S2P Require Import DsmOps.
From S2P Require Import FirewallWire.
From S2P Require Import FirewallOps.
From S2P Require Import Config.
From S2P Require Import Service.
From S2P Require Import FirewallPlan.

(** Profile, effect and risk of a plan, in the clear. *)
Definition clear_hash : PlanHash := {| hashJSON := fun v =>
  match v with
  | HProfileObserved o => "observed " +:+ fp_Profile (fo_Profile o)
  | HProfilePlan p => "profile " +:+ pc_Profile (fpl_Request p) +:+ " " +:+ fpl_Risk p
  | HEnableObserved o => "observed " +:+ fp_Profile (feo_ActiveProfile o)
  | HEnablePlan p => "enable " +:+ ec_Profile (fep_Request p) +:+ " " +:+ fep_Risk p
  end |}.

Definition allow_rule (group source : string) : Rule := {|
  ru_Enabled := true; ru_Policy := "allow"; ru_Protocol := "tcp";
  ru_PortDirection := PortDirDst; ru_PortGroup := PortList; ru_Ports := "5001";
  ru_SourceGroup := group; ru_Source := source; ru_Log := false; ru_Name := "" |}.

Definition eth0_section (rules : list Rule) : AdapterPolicy := {|
  fa_Adapter := "eth0"; fa_Policy := "drop"; fa_Total := Z.of_nat (length rules);
  fa_Rules := rules |}.

(** The profile that is active, and the section the change replaces. *)
Definition lan_profile : ProfileRules := {|
  fp_Profile := "custom"; fp_IsActive := false;
  fp_Adapters := [eth0_section [allow_rule SourceNetmask "192.168.1.0/24"]] |}.
Definition wider_section : AdapterPolicy :=
  eth0_section [allow_rule SourceNetmask "192.168.1.0/24"; allow_rule SourceIP "10.0.0.7"].

Definition sample_change : ProfileChange := {|
  pc_Profile := "custom"; pc_Adapters := [wider_section]; pc_Activate := true;
  pc_AllowConnectivityBreak := false; pc_KeepReachable := "" |}.

Definition status_reply : answer :=
  reply [("enable_firewall", JBool true); ("profile_name", JString "custom")].
Definition adapters_reply : answer := reply [("adapter_names", JArray [JString "eth0"])].
Definition profile_reply (p : ProfileRules) : answer := reply (encodeProfile p).
Definition sessions_reply : answer := reply [("items", JArray [JObject
  [("from", JString "192.168.1.20"); ("who", JString "admin");
   ("is_current_connected", JBool true)]])].

(** The answers to a plan, and to an apply of it that succeeds. *)
Definition plan_script : list answer :=
  [status_reply; adapters_reply; status_reply; profile_reply lan_profile; sessions_reply].
Definition apply_script : list answer :=
  plan_script ++ [profile_reply lan_profile; reply []; status_reply;
                  profile_reply (MergeProfile lan_profile [wider_section])].

Definition firewall_state (answers : list answer) : dstate (list answer) :=
  script_state "https" (CurrentConnectionAPIName :: firewall_APINames) answers.

Section samples.
#[local] Existing Instance ascii_tables.
#[local] Existing Instance script_world.
#[local] Existing Instance clear_hash.

Definition planned_change : result dsm_error FirewallProfilePlan :=
  (planFirewallProfileWithClient "nas1" sample_change (firewall_state plan_script)).1.
Definition sample_plan : FirewallProfilePlan :=
  match planned_change with
  | Ok p => let p := set_fpl_Revision_Hash 3 (fpl_Hash p) p in
            set_fpl_Revision_Hash 3 (firewallProfilePlanHash p) p
  | Err _ => profile_plan "" sample_change
      {| fo_Status := {| fs_Enabled := false; fs_ActiveProfile := ""; fs_Adapters := [] |};
         fo_Profile := zero_profile; fo_Connection := zero_connection;
         fo_ProtectedSources := [] |} zero_profile false zero_guard
  end.
End samples.

(** * The never-lockout guard on the wire

    The reads of the firewall client send no write; a write that an apply sends carries the
    profile the guard decided on, and only after the guard, the hashes and the admission
    let it.  The properties read the log of exchanges with the NAS. *)

(** The requests that change the firewall. *)
Definition firewall_write (p : Post) : Prop :=
  (po_API p, po_Method p) ∈
    [(FirewallProfileAPIName, "set"); (FirewallProfileApplyAPIName, "start");
     (FirewallAPIName, "set")].

(** A replacement of a profile by [profile], activated or only saved. *)
Definition writes_profile (profile : ProfileRules) (activate : bool) (p : Post) : Prop :=
  carries (profile_set_request profile activate) p ∧
  po_Params p !! "profile" = Some [Encoded (JObject (encodeProfile profile))] ∧
  po_Params p !! "profile_applying" = Some [Encoded (JBool activate)].

Lemma own_not_write p : own_api (po_API p) → ¬ firewall_write p.
Proof.
  intros Ho Hw. unfold firewall_write in Hw.
  repeat (apply elem_of_cons in Hw as [[= Ha _]|Hw];
    [rewrite Ha in Ho; destruct Ho as [?|[?|?]]; discriminate|]).
  by apply elem_of_nil in Hw.
Qed.

Lemma not_write_of api method : (api, method) ∉
    [(FirewallProfileAPIName, "set"); (FirewallProfileApplyAPIName, "start");
     (FirewallAPIName, "set")] →
  ∀ p, po_API p = api → po_Method p = method → ¬ firewall_write p.
Proof. by intros Hn p <- <-. Qed.

Section reads.
Context `{Unicode} {W : Type} `{Network W}.

Abbreviation M := (ST (dstate W) dsm_error).
Abbreviation quiet := (silent firewall_write).

Lemma quiet_read api method params :
  (api, method) ∉ [(FirewallProfileAPIName, "set"); (FirewallProfileApplyAPIName, "start");
     (FirewallAPIName, "set")] →
  quiet (executeLocked (read_call api method params) : M RawMessage).
Proof.
  intros Hn. apply silent_execute; [apply own_not_write|]. intros p Ha Hm.
  by apply (not_write_of api method).
Qed.

Lemma quiet_prepare what : quiet (prepare_firewall what : M ()).
Proof.
  apply silent_wrap, silent_prepare; [apply own_not_write|].
  apply not_write_of. by apply (bool_decide_unpack _).
Qed.

Ltac quiet_exec :=
  apply only_operation; apply silent_bind;
  [apply silent_wrap, quiet_read; by apply (bool_decide_unpack _)|intros; apply silent_lift].

Lemma quiet_status : quiet (ExecuteStatus : M _).
Proof. quiet_exec. Qed.
Lemma quiet_profiles : quiet (ExecuteProfiles : M _).
Proof. quiet_exec. Qed.
Lemma quiet_adapters : quiet (ExecuteAdapters : M _).
Proof. quiet_exec. Qed.
Lemma quiet_rules name : quiet (ExecuteProfileRules name : M _).
Proof.
  apply only_operation. apply silent_bind; [apply silent_check|]. intros _.
  apply silent_bind; [apply silent_wrap, quiet_read; by apply (bool_decide_unpack _)|].
  intros; apply silent_lift.
Qed.

Lemma quiet_active : quiet (firewallActiveProfileLocked : M string).
Proof.
  apply silent_catch; [|intros; apply silent_ret].
  apply silent_bind; [apply quiet_status|]. intros [status sel].
  apply silent_bind; [apply only_add|]. intros; apply silent_ret.
Qed.

Lemma quiet_FirewallStatus : quiet (FirewallStatus : M Status).
Proof.
  apply silent_bind; [apply quiet_prepare|]. intros _.
  apply silent_bind; [apply silent_wrap, quiet_status|]. intros [status sel].
  apply silent_bind; [apply only_add|]. intros _.
  apply silent_catch.
  - apply silent_bind; [apply quiet_adapters|]. intros [adapters sel'].
    apply silent_bind; [apply only_add|]. intros; apply silent_ret.
  - intros e. destruct (IsUnsupported e); [apply silent_ret|apply silent_fail].
Qed.

Lemma quiet_read_profiles active names : quiet (read_profiles active names : M _).
Proof.
  induction names as [|name names IH]; [apply silent_ret|]. cbn [read_profiles].
  apply silent_bind; [apply silent_wrap, quiet_rules|]. intros [rules sel].
  apply silent_bind; [done|]. intros; apply silent_ret.
Qed.

Lemma quiet_FirewallRules requested : quiet (FirewallRules requested : M RuleSet).
Proof.
  apply silent_bind; [apply quiet_prepare|]. intros _.
  apply silent_bind; [apply quiet_active|]. intros active.
  apply silent_bind.
  - destruct (negb _); [apply silent_ret|].
    apply silent_bind; [apply silent_wrap, quiet_profiles|]. intros [listed sel].
    apply silent_bind; [apply only_add|]. intros; apply silent_ret.
  - intros names. apply silent_bind; [apply quiet_read_profiles|]. intros profiles.
    apply silent_bind; [apply only_add|]. intros; apply silent_ret.
Qed.

Lemma quiet_FirewallCapabilities : quiet (FirewallCapabilities : M FirewallCaps).
Proof.
  apply silent_bind; [apply quiet_prepare|]. intros _.
  do 6 (apply silent_bind; [apply only_select|]; intros ?).
  do 6 (apply silent_bind; [apply only_when|]; intros _). apply silent_ret.
Qed.

Lemma quiet_sessions : quiet (FirewallActiveSessions : M _).
Proof.
  apply silent_bind; [apply quiet_prepare|]. intros _.
  apply silent_bind; [apply silent_client|]. intros c. destruct (negb _); [apply silent_ret|].
  apply silent_catch; [|intros; apply silent_ret].
  apply silent_bind; [|intros; apply silent_lift].
  apply quiet_read. by apply (bool_decide_unpack _).
Qed.

Lemma quiet_named {A} nas (m : M A) : quiet m → quiet (named nas m).
Proof. intros. apply silent_catch; [done|]. intros; apply silent_fail. Qed.

Lemma quiet_only rules msg : quiet (only_profile rules msg : M ProfileRules).
Proof.
  unfold only_profile. destruct (rs_Profiles rules) as [|p [|]];
    auto using silent_ret, silent_fail.
Qed.

Lemma quiet_guarded r : quiet (guarded r : M FirewallGuardResult).
Proof. unfold guarded. destruct r as [|[]]; auto using silent_ret, silent_fail. Qed.
End reads.

#[export] Hint Resolve quiet_FirewallStatus quiet_FirewallRules quiet_FirewallCapabilities
  quiet_sessions quiet_only quiet_guarded : silent.

Section profile.
Context `{Unicode, PlanHash} {W : Type} `{Network W}.

Abbreviation M := (ST (dstate W) dsm_error).
Abbreviation quiet := (silent firewall_write).

Lemma quiet_plan nas request :
  quiet (planFirewallProfileWithClient nas request : M FirewallProfilePlan).
Proof.
  apply silent_bind; [apply quiet_named, quiet_FirewallCapabilities|]. intros caps.
  apply silent_bind; [apply silent_check|]. intros _.
  apply silent_bind; [apply quiet_named, quiet_FirewallStatus|]. intros status.
  apply silent_bind; [apply quiet_named, quiet_FirewallRules|]. intros rules.
  apply silent_bind; [apply quiet_only|]. intros observed. cbv zeta.
  apply silent_bind; [apply silent_check|]. intros _.
  apply silent_bind; [apply quiet_named, quiet_sessions|]. intros sessions.
  apply silent_bind; [apply silent_client|]. intros c.
  apply silent_bind; [|intros; apply silent_ret].
  destruct (profile_takes_effect _ _); [apply quiet_guarded|apply silent_ret].
Qed.

Lemma quiet_verify plan :
  quiet (verifyFirewallProfilePostcondition plan : M ()).
Proof.
  apply silent_bind; [apply quiet_FirewallRules|]. intros rules.
  apply silent_bind; [apply quiet_only|]. intros written. apply silent_check.
Qed.

(** ** The guard *)

Lemma probe_loop_allowed resulting port probes :
  re_Allowed (probe_loop resulting port probes) = true ↔
  ∀ ip, ip ∈ probes →
    re_Allowed (ProfileAllowsSession resulting (probe_connection port ip)) = true.
Proof.
  induction probes as [|ip probes IH]; cbn [probe_loop].
  { split; [|done]. intros _ ip []%elem_of_nil. }
  destruct (re_Allowed (ProfileAllowsSession resulting (probe_connection port ip))) eqn:E; cbn.
  - rewrite IH. split; [intros Hp q [->|Hq]%elem_of_cons; auto|].
    intros Hp q Hq. apply Hp. by right.
  - rewrite E. split; [done|]. intros Hp. rewrite Hp in E; [done|by left].
Qed.

(** A ruleset that lets in every address the guard probes for a source. *)
Definition lets_in (p : ProfileRules) (conn : Connection) : Prop :=
  ∃ probes, guardProbeIPs (cn_Source conn) = Some probes ∧ probes ≠ [] ∧
    ∀ ip, ip ∈ probes →
      re_Allowed (ProfileAllowsSession p (probe_connection (cn_Port conn) ip)) = true.

Lemma guardProbeIPs_nonempty source probes :
  guardProbeIPs source = Some probes → probes ≠ [].
Proof.
  unfold guardProbeIPs. destruct (ParseIP _); [by intros [= <-]|].
  destruct (ParseCIDR _); [|done]. destruct (cidrHostBounds _). by intros [= <-].
Qed.

Lemma evaluateGuard_ok conn resulting allowBreak g :
  evaluateGuard conn resulting allowBreak = Ok g →
  TrimSpace (cn_Source conn) ≠ "" ∧ (gu_Overridden g = false → lets_in resulting conn) ∧
  (gu_Overridden g = true → allowBreak = true).
Proof.
  unfold evaluateGuard. case_bool_decide as Hs; [done|].
  destruct (guardProbeIPs (cn_Source conn)) as [probes|] eqn:Ep; [|done].
  destruct (re_Allowed (probe_loop _ _ _)) eqn:Ea; cbn.
  - intros [= <-]. split; [done|]. split; [|done]. intros _. exists probes.
    split; [done|]. split; [by eapply guardProbeIPs_nonempty|]. by apply probe_loop_allowed.
  - destruct allowBreak; [|done]. cbn. intros [= <-]. by split.
Qed.

(** The verdict depends on the sections of the profile alone. *)
Lemma lets_in_sections p q conn :
  fp_Adapters p = fp_Adapters q → lets_in p conn → lets_in q conn.
Proof.
  intros He (probes & Hp & Hn & Ha). exists probes. split; [done|]. split; [done|].
  intros ip Hip. specialize (Ha ip Hip). revert Ha.
  unfold ProfileAllowsSession, candidate_chains. by rewrite He.
Qed.

(** ** A plan that was made *)

(** What a plan says when planning succeeds. *)
Record planned (nas : string) (request : ProfileChange) (p : FirewallProfilePlan) : Prop := {
  pl_NAS : fpl_NAS p = nas;
  pl_Request : fpl_Request p = request;
  pl_Resulting : fpl_Resulting p = MergeProfile (fo_Profile (fpl_Observed p)) (pc_Adapters request);
  pl_TakesEffect : fpl_TakesEffect p = profile_takes_effect request (fo_Status (fpl_Observed p));
  pl_Risk : fpl_TakesEffect p = true → fpl_Risk p = "high";
  pl_Guard : fpl_TakesEffect p = true → pc_AllowConnectivityBreak request = false →
    lets_in (fpl_Resulting p) (fo_Connection (fpl_Observed p))
}.

Lemma plan_sound nas request (s : dstate W) p s' :
  planFirewallProfileWithClient nas request s = (Ok p, s') → planned nas request p.
Proof.
  unfold planFirewallProfileWithClient. intros Hr.
  st_inv.
  destruct (profile_takes_effect request _) eqn:Et;
    unfold profile_plan, firewallProfileEffects; cbn; split; cbn; try done.
  - by rewrite orb_true_r.
  - intros _ Hb.
    match goal with H : guarded ?r _ = _ |- _ => rename H into Hg; destruct r as [g|[]] eqn:Eg end;
      [|by simpl in Hg..].
    apply evaluateGuard_ok in Eg as (_ & Hl & Ho). apply Hl.
    destruct (gu_Overridden g); [|done]. by rewrite Ho in Hb.
Qed.

(** ** What an apply sends *)

(** Every write in [l] replaces the profile by [profile]. *)
Definition only_writes (profile : ProfileRules) (activate : bool) (l : list exchange) : Prop :=
  Forall (fun x => firewall_write x.1 → writes_profile profile activate x.1) l.

Lemma set_call_sends profile activate :
  only (fun p => firewall_write p → writes_profile profile activate p)
    (executeLocked (profile_set_request profile activate) : M RawMessage).
Proof.
  assert (¬ own_api FirewallProfileAPIName) as Hown by (by intros [?|[?|?]]).
  set (call := profile_set_request profile activate).
  set (params := [("profile", JObject (encodeProfile profile));
                  ("profile_applying", JBool activate)]).
  eapply only_weaken; [|apply only_and; [|apply only_and]];
    [|apply (silent_execute (fun p => firewall_write p → carries call p))
     |apply (typed_call_sends call params "profile"); try done; by apply (bool_decide_unpack _)
     |apply (typed_call_sends call params "profile_applying"); try done;
      by apply (bool_decide_unpack _)].
  - intros p (Hc & Hp & Ha) Hw. specialize (Hc Hw). unfold writes_profile. auto.
  - intros p Ho Hw. by destruct (own_not_write p).
  - intros p Ha Hm _. by split.
Qed.

Lemma quiet_writes profile activate {A} (m : M A) :
  quiet m → only (fun p => firewall_write p → writes_profile profile activate p) m.
Proof. apply only_weaken. by intros p Hn Hw. Qed.

Lemma execute_set_sends profile activate :
  only (fun p => firewall_write p → writes_profile profile activate p)
    (ExecuteProfileSet profile activate : M _).
Proof.
  apply silent_bind; [|intros []; apply silent_ret]. apply silent_run_op.
  intros v f Hv Hf. apply list_elem_of_singleton in Hv as ->. injection Hf as <-.
  apply silent_bind; [apply silent_check|]. intros _.
  apply silent_bind; [apply silent_wrap, set_call_sends|]. intros; apply silent_ret.
Qed.

(** From [s] to [s'] the client prepares, reads the profile of the change from the NAS with no
    firewall write before that read, and every firewall write after it replaces the profile by
    the change merged into what was read. *)
Definition merged_into_fresh (change : ProfileChange) (s s' : dstate W) (fresh : ProfileRules) :
    Prop :=
  ∃ s1 sel s2 reads writes,
    prepare_firewall "prepare firewall mutation target" s = (Ok (), s1) ∧
    ExecuteProfileRules (pc_Profile change) s1 = (Ok (fresh, sel), s2) ∧
    dc_log s2 = dc_log s ++ reads ∧ Forall (fun x => ¬ firewall_write x.1) reads ∧
    dc_log s' = dc_log s2 ++ writes ∧
    only_writes (MergeProfile fresh (pc_Adapters change)) (pc_Activate change) writes.

Lemma merged_into_fresh_log change (s s' : dstate W) fresh :
  merged_into_fresh change s s' fresh →
  ∃ l, dc_log s' = dc_log s ++ l ∧
    only_writes (MergeProfile fresh (pc_Adapters change)) (pc_Activate change) l.
Proof.
  intros (s1 & sel & s2 & reads & writes & _ & _ & Hr & HQ & Hw & HW).
  exists (reads ++ writes). split; [by rewrite Hw, Hr, app_assoc|].
  apply Forall_app. split; [|done]. eapply Forall_impl; [exact HQ|]. cbn. by intros x Hn Hx.
Qed.

(** Exchanges without writes may follow. *)
Lemma merged_into_fresh_quiet change (s s1 s' : dstate W) fresh l :
  merged_into_fresh change s s1 fresh →
  dc_log s' = dc_log s1 ++ l → Forall (fun x => ¬ firewall_write x.1) l →
  merged_into_fresh change s s' fresh.
Proof.
  intros (t1 & sel & t2 & reads & writes & Hp & He & Hr & HQ & Hw & HW) Hl Hq.
  exists t1, sel, t2, reads, (writes ++ l). do 4 (split; [done|]).
  split; [by rewrite Hl, Hw, app_assoc|]. apply Forall_app. split; [done|].
  eapply Forall_impl; [exact Hq|]. cbn. by intros x Hn Hx.
Qed.

(** The change is merged into a profile the client has just read, and nothing else is
    written. *)
Lemma apply_change_sends change (s : dstate W) r s' :
  ApplyFirewallProfileChange change s = (r, s') →
  (∃ l, dc_log s' = dc_log s ++ l ∧ Forall (fun x => ¬ firewall_write x.1) l) ∨
  ∃ fresh, merged_into_fresh change s s' fresh.
Proof.
  unfold ApplyFirewallProfileChange. unfold mbind at 1, ST_bind at 1. intros Hr.
  destruct (prepare_firewall _ s) as [[[]|e] s1] eqn:E1;
    destruct (quiet_prepare _ _ _ _ E1) as (_ & l1 & Hl1 & HQ1);
    [|injection Hr as <- <-; left; eauto].
  assert (quiet (wrap "refresh firewall profile before apply"
    (ExecuteProfileRules (pc_Profile change)) : M _)) as Hq by apply silent_wrap, quiet_rules.
  revert Hr. unfold mbind at 1, ST_bind at 1.
  destruct (wrap "refresh firewall profile before apply" (ExecuteProfileRules (pc_Profile change)) s1)
    as [[[fresh sel]|e] s2] eqn:E2; intros Hr;
    destruct (Hq _ _ _ E2) as (_ & l2 & Hl2 & HQ2);
    assert (dc_log s2 = dc_log s ++ (l1 ++ l2)) as Hlog by (by rewrite Hl2, Hl1, app_assoc);
    assert (Forall (fun x => ¬ firewall_write x.1) (l1 ++ l2)) as HQ by (by apply Forall_app);
    [|injection Hr as <- <-; left; eauto].
  assert (ExecuteProfileRules (pc_Profile change) s1 = (Ok (fresh, sel), s2)) as E3.
  { revert E2. unfold wrap. by destruct (ExecuteProfileRules _ s1) as [[]]; intros; simplify_eq. }
  assert (only (fun p => firewall_write p →
      writes_profile (MergeProfile fresh (pc_Adapters change)) (pc_Activate change) p)
    ('(r, _) ← wrap "apply firewall profile"
       (ExecuteProfileSet (MergeProfile fresh (pc_Adapters change)) (pc_Activate change));
     mret r : M MutationResult)) as Hw.
  { apply silent_bind; [apply silent_wrap, execute_set_sends|]. intros []; apply silent_ret. }
  destruct (Hw _ _ _ Hr) as (_ & l' & Hl' & HW). right. exists fresh.
  exists s1, sel, s2, (l1 ++ l2), l'. done.
Qed.

(** The plan made now is the plan that was approved, by its fingerprint and its hash. *)
Definition same_plan (current plan : FirewallProfilePlan) : Prop :=
  fpl_ObservedFingerprint current = fpl_ObservedFingerprint plan ∧
  firewallProfilePlanHash
    (set_fpl_Revision_Hash (fpl_ProfileRevision plan) (fpl_Hash current) current)
  = fpl_Hash plan.

(** Sending the change and verifying it. *)
Definition send_change (plan : FirewallProfilePlan) : M FirewallApplyResult :=
  operation ← named (fpl_NAS plan) (ApplyFirewallProfileChange (fpl_Request plan));
  wrap "verify firewall profile change" (verifyFirewallProfilePostcondition plan);;
  mret {| fa_NAS := fpl_NAS plan; fa_PlanHash := fpl_Hash plan; fa_Applied := true;
          fa_Operation := operation |}.

Lemma send_change_sends plan (s : dstate W) r s' :
  send_change plan s = (r, s') →
  (∃ l, dc_log s' = dc_log s ++ l ∧ Forall (fun x => ¬ firewall_write x.1) l) ∨
  ∃ fresh, merged_into_fresh (fpl_Request plan) s s' fresh.
Proof.
  unfold send_change, named, catch, mbind, ST_bind.
  destruct (ApplyFirewallProfileChange _ s) as [[op|e] s1] eqn:E; intros Hr;
    pose proof (apply_change_sends _ _ _ _ E) as Hs; [|injection Hr as <- <-; done].
  assert (quiet (wrap "verify firewall profile change"
    (verifyFirewallProfilePostcondition plan) : M ())) as Hq by apply silent_wrap, quiet_verify.
  destruct (wrap _ _ s1) as [[[]|e] s2] eqn:Ev; destruct (Hq _ _ _ Ev) as (_ & l' & Hl' & HQ);
    injection Hr as <- <-;
    (destruct Hs as [(l & Hl & Hn)|[fresh Hw]];
     [left; exists (l ++ l'); split; [by rewrite Hl', Hl, app_assoc|by apply Forall_app]
     |right; exists fresh; by eapply merged_into_fresh_quiet]).
Qed.

Lemma apply_plan_eq plan (s : dstate W) :
  applyFirewallProfileWithClient plan s =
  match planFirewallProfileWithClient (fpl_NAS plan) (fpl_Request plan) s with
  | (Err e, s1) => (Err (EWrap "firewall profile plan precondition no longer holds" e), s1)
  | (Ok current, s1) =>
      if bool_decide (fpl_ObservedFingerprint current = fpl_ObservedFingerprint plan)
         && bool_decide (firewallProfilePlanHash (set_fpl_Revision_Hash
              (fpl_ProfileRevision plan) (fpl_Hash current) current) = fpl_Hash plan)
      then send_change plan s1
      else (Err (EMsg "firewall profile plan is stale; create a new plan"), s1)
  end.
Proof.
  unfold applyFirewallProfileWithClient. unfold mbind at 1, ST_bind at 1, wrap at 1.
  destruct (planFirewallProfileWithClient _ _ s) as [[current|e] s1]; [|done].
  cbv zeta. unfold mbind at 1, ST_bind at 1, check.
  change (fpl_ObservedFingerprint (set_fpl_Revision_Hash _ _ ?c)) with (fpl_ObservedFingerprint c).
  by destruct (_ && _).
Qed.

(** What applying a plan sends; the property [never_locked_out] below states it. *)
Lemma apply_profile_sends plan (s : dstate W) r s' :
  applyFirewallProfileWithClient plan s = (r, s') →
  ∃ l, dc_log s' = dc_log s ++ l ∧
    (Forall (fun x => ¬ firewall_write x.1) l ∨
     ∃ current s1 fresh,
       planFirewallProfileWithClient (fpl_NAS plan) (fpl_Request plan) s = (Ok current, s1) ∧
       same_plan current plan ∧
       (∃ l0, dc_log s1 = dc_log s ++ l0 ∧ Forall (fun x => ¬ firewall_write x.1) l0) ∧
       merged_into_fresh (fpl_Request plan) s1 s' fresh ∧
       only_writes (MergeProfile fresh (pc_Adapters (fpl_Request plan)))
         (pc_Activate (fpl_Request plan)) l ∧
       (profile_takes_effect (fpl_Request plan) (fo_Status (fpl_Observed current)) = true →
        pc_AllowConnectivityBreak (fpl_Request plan) = false →
        fp_Adapters fresh = fp_Adapters (fo_Profile (fpl_Observed current)) →
        lets_in (MergeProfile fresh (pc_Adapters (fpl_Request plan)))
          (fo_Connection (fpl_Observed current)))).
Proof.
  rewrite apply_plan_eq.
  destruct (planFirewallProfileWithClient _ _ s) as [[current|e] s1] eqn:Ep; intros Hr;
    destruct (quiet_plan _ _ _ _ _ Ep) as (_ & l & Hl & HQ);
    [|injection Hr as <- <-; eauto].
  destruct (_ && _) eqn:Eh; [|injection Hr as <- <-; eauto]. split_bools.
  apply plan_sound in Ep as Hp.
  destruct (send_change_sends _ _ _ _ Hr) as [(l' & Hl' & Hw)|[fresh Hw]].
  { exists (l ++ l'). split; [by rewrite Hl', Hl, app_assoc|]. left. by apply Forall_app. }
  destruct (merged_into_fresh_log _ _ _ _ Hw) as (l' & Hl' & HW).
  exists (l ++ l'). split; [by rewrite Hl', Hl, app_assoc|].
  right. exists current, s1, fresh. split; [done|]. split; [by split|]. split; [by exists l|].
  split; [done|]. split.
  { apply Forall_app. split; [|done]. eapply Forall_impl; [exact HQ|]. cbn. by intros x Hn Hx. }
  intros Ht Hb Hf. apply (lets_in_sections (fpl_Resulting current)).
  - rewrite (pl_Resulting _ _ _ Hp). unfold MergeProfile. cbn. by rewrite Hf.
  - apply (pl_Guard _ _ _ Hp); [by rewrite (pl_TakesEffect _ _ _ Hp)|done].
Qed.
End profile.

(** C8: the never-lockout guard holds on the wire.  Applying an approved profile plan sends
    no firewall write at all, or it first plans again on the NAS's current state without a
    firewall write, finds the same fingerprint and the same hash as the approved plan, then
    prepares again and reads the profile from the NAS once more, still before any write, and
    only then sends replacements of the profile by the change merged into what that read gave.
    When the change takes effect and the operator did not accept losing the connection,
    the profile written lets in every address the guard probes for the session's source,
    on the session's port, unless the NAS's sections changed between the two reads. *)
Theorem never_locked_out `{Unicode, PlanHash} {W : Type} `{Network W}
    (plan : FirewallProfilePlan) (s : dstate W) r s' :
  applyFirewallProfileWithClient plan s = (r, s') →
  ∃ l, dc_log s' = dc_log s ++ l ∧
    (Forall (fun x => ¬ firewall_write x.1) l ∨
     ∃ current s1 fresh,
       planFirewallProfileWithClient (fpl_NAS plan) (fpl_Request plan) s = (Ok current, s1) ∧
       same_plan current plan ∧
       (∃ l0, dc_log s1 = dc_log s ++ l0 ∧ Forall (fun x => ¬ firewall_write x.1) l0) ∧
       merged_into_fresh (fpl_Request plan) s1 s' fresh ∧
       only_writes (MergeProfile fresh (pc_Adapters (fpl_Request plan)))
         (pc_Activate (fpl_Request plan)) l ∧
       (profile_takes_effect (fpl_Request plan) (fo_Status (fpl_Observed current)) = true →
        pc_AllowConnectivityBreak (fpl_Request plan) = false →
        fp_Adapters fresh = fp_Adapters (fo_Profile (fpl_Observed current)) →
        lets_in (MergeProfile fresh (pc_Adapters (fpl_Request plan)))
          (fo_Connection (fpl_Observed current)))).
Proof. apply apply_profile_sends. Qed.

(** One allowed rule is added over a session from the local network. *)
Lemma never_locked_out_witness :
  let U := ascii_tables in let N := script_world in let P := clear_hash in
  let s := firewall_state apply_script in
  let s' := (applyFirewallProfileWithClient sample_plan s).2 in
  is_Ok (applyFirewallProfileWithClient sample_plan s).1 = true ∧
  length (base.filter (fun x => po_Method x.1 = "set") (dc_log s')) = 1%nat ∧
  ∃ l, dc_log s' = dc_log s ++ l ∧
    (Forall (fun x => ¬ firewall_write x.1) l ∨
     ∃ current s1 fresh,
       planFirewallProfileWithClient "nas1" sample_change s = (Ok current, s1) ∧
       same_plan current sample_plan ∧
       (∃ l0, dc_log s1 = dc_log s ++ l0 ∧ Forall (fun x => ¬ firewall_write x.1) l0) ∧
       merged_into_fresh sample_change s1 s' fresh ∧
       only_writes (MergeProfile fresh (pc_Adapters sample_change)) true l ∧
       (profile_takes_effect sample_change (fo_Status (fpl_Observed current)) = true →
        pc_AllowConnectivityBreak sample_change = false →
        fp_Adapters fresh = fp_Adapters (fo_Profile (fpl_Observed current)) →
        lets_in (MergeProfile fresh (pc_Adapters sample_change))
          (fo_Connection (fpl_Observed current)))).
Proof.
  cbv zeta. split; [vm_compute; reflexivity|]. split; [vm_compute; reflexivity|].
  assert (fpl_NAS sample_plan = "nas1" ∧ fpl_Request sample_plan = sample_change) as [Hn Hq]
    by (vm_compute; by split).
  destruct (@never_locked_out ascii_tables clear_hash _ script_world sample_plan
    (firewall_state apply_script) _ _ (surjective_pairing _)) as (l & Hl & Hw).
  exists l. split; [exact Hl|]. by rewrite Hn, Hq in Hw.
Defined.

(** The guard probes the two ends of a network that must stay reachable: here an address
    inside it is refused by the very first rule. *)
Definition interior_deny : ProfileRules := {|
  fp_Profile := "custom"; fp_IsActive := true;
  fp_Adapters := [eth0_section
    [{| ru_Enabled := true; ru_Policy := "deny"; ru_Protocol := "tcp";
        ru_PortDirection := PortDirDst; ru_PortGroup := PortAll; ru_Ports := "";
        ru_SourceGroup := SourceIP; ru_Source := "192.168.1.20"; ru_Log := false;
        ru_Name := "" |};
     allow_rule SourceNetmask "192.168.1.0/24"]] |}.

Example guard_misses_interior :
  let U := ascii_tables in
  let conn := determineConnection (probe_connection 5001 "") [] "192.168.1.0/24" in
  (∃ g, evaluateGuard conn interior_deny false = Ok g ∧ gu_Allowed g = true) ∧
  re_Allowed (ProfileAllowsSession interior_deny (probe_connection 5001 "192.168.1.20")) = false.
Proof. vm_compute. split; [eexists; split; reflexivity|reflexivity]. Qed.
