(* ===== verification/StateTypes.v ===== *)
(** * Data of the gateway state repository

    Source: internal/gateway/state/types.go and the record types of policy.go, oauth.go,
    admin.go, vault.go and repository.go.  Times are nanoseconds since the Unix epoch;
    [*time.Time] is an [option].  [uint64] revisions are integers in [0, 2^64).  The
    Nonce and Ciphertext of a sealed secret are base64 text; the model keeps what the
    text decodes to, [None] for text that does not decode.

    The database is a record of buckets; [set_...] functions are Go field assignments. *)

From S2P Require Import Prelude.
From S2P Require Import GoStrings.
From S2P Require Import Bolt.
From S2P Require Import RemotePolicy.

(** ** Time *)

Definition Second : Z := 1000000000.
Definition Minute : Z := 60 * Second.
Definition Hour : Z := 60 * Minute.
(** [time.Time{}], January 1, year 1 UTC *)
Definition zeroTime : Z := -62135596800 * Second.
Definition IsZero (t : Z) : bool := t =? zeroTime.

(** ** Constants of types.go and policy.go *)

Definition SchemaVersion : Z := 7.
Definition MaxProfiles : Z := 32.
Definition MaxMCPTokenNameBytes : Z := 64.
Definition DefaultApprovalTTL : Z := 10 * Minute.
Definition PendingApprovalTTL : Z := 24 * Hour.
Definition MaxPendingApprovals : Z := 50.
Definition AdminModeLocal : string := "local".
Definition AdminProviderLocal : string := "local".
Definition AdminProviderDSM : string := "dsm".
Definition MaxAdminSessions : Z := 16.
Definition AdminSessionTTL : Z := 12 * Hour.
Definition MaxOAuthClients : Z := 128.
Definition OAuthAccessTokenTTL : Z := Hour.
Definition OAuthRefreshTokenTTL : Z := 365 * 24 * Hour.
Definition TLSSystemCA : string := "system_ca".
Definition TLSPinnedFingerprint : string := "pinned_fingerprint".

Definition maxAuditEvents : Z := 10000.
Definition auditRetention : Z := 30 * 24 * Hour.
Definition mcpTokenPrefix : string := "dsmctl_mcp_".
Definition validScopes : list string := [ScopeRead; ScopePlan; ScopeApply; ScopeLANDiscover].

(** ** Records *)

Record MCPToken := {
  tk_ID : string;
  tk_Name : string;
  tk_AuthMode : string;
  tk_ApprovalMode : string;
  tk_OAuthClientID : string;
  tk_Scopes : list string;
  tk_NASAllowlist : list string;
  tk_CreatedAt : Z;
  tk_UpdatedAt : Z;
  tk_ExpiresAt : option Z;
  tk_RevokedAt : option Z;
  tk_LastUsedAt : option Z
}.

Record MCPTokenInput := {
  ti_Name : string;
  ti_Scopes : list string;
  ti_NASAllowlist : list string;
  ti_ExpiresAt : option Z;
  ti_ApprovalMode : string
}.

Record mcpTokenRecord := {
  tr_MCPToken : MCPToken;
  tr_Digest : string
}.

Record Approval := {
  ap_ID : string;
  ap_PlanHash : string;
  ap_NAS : string;
  ap_ProfileRevision : Z;
  ap_RequestingTokenID : string;
  ap_Administrator : string;
  ap_CreatedAt : Z;
  ap_ExpiresAt : Z;
  ap_ConsumedAt : option Z
}.

Record ApprovalInput := {
  ai_PlanHash : string;
  ai_NAS : string;
  ai_ProfileRevision : Z;
  ai_RequestingTokenID : string;
  ai_TTL : Z
}.

Record PendingApproval := {
  pa_ID : string;
  pa_PlanHash : string;
  pa_NAS : string;
  pa_ProfileRevision : Z;
  pa_RequestingTokenID : string;
  pa_RequestingToken : string;
  pa_Tool : string;
  pa_Risk : string;
  pa_ResourceID : string;
  pa_Summary : string;
  pa_CreatedAt : Z;
  pa_ExpiresAt : Z
}.

Record AuditQuery := {
  aq_After : Z;
  aq_Limit : Z;
  aq_ActorID : string;
  aq_Action : string
}.

Record OAuthClient := {
  oc_ID : string;
  oc_Name : string;
  oc_RedirectURIs : list string;
  oc_GrantTypes : list string;
  oc_ResponseTypes : list string;
  oc_TokenEndpointAuthMethod : string;
  oc_CreatedAt : Z
}.

Record OAuthClientInput := {
  oi_Name : string;
  oi_RedirectURIs : list string;
  oi_GrantTypes : list string;
  oi_ResponseTypes : list string;
  oi_TokenEndpointAuthMethod : string
}.

Record oauthRefreshRecord := {
  rf_TokenID : string;
  rf_ClientID : string;
  rf_Resource : string;
  rf_CreatedAt : Z;
  rf_ExpiresAt : Z
}.

Record OAuthTokenInput := {
  ot_Name : string;
  ot_Scopes : list string;
  ot_NASAllowlist : list string;
  ot_ClientID : string;
  ot_Resource : string
}.

Record OAuthTokenSet := {
  os_AccessToken : string;
  os_RefreshToken : string;
  os_Token : MCPToken;
  os_ExpiresIn : Z
}.

Record administratorSessionRecord := {
  se_ID : string;
  se_Username : string;
  se_Provider : string;
  se_CreatedAt : Z;
  se_ExpiresAt : Z
}.

Record profileRecord := {
  pr_ID : string;
  pr_Name : string;
  pr_URL : string;
  pr_Username : string;
  pr_TLSMode : string;
  pr_CertificateFingerprint : string;
  pr_TimeoutSeconds : Z;
  pr_Revision : Z;
  pr_Role : string;
  pr_PasswordSecretID : string;
  pr_TrustedDeviceSecretID : string;
  pr_SessionSecretID : string;
  pr_CreatedAt : Z;
  pr_UpdatedAt : Z
}.

Record Profile := {
  pf_ID : string;
  pf_Name : string;
  pf_URL : string;
  pf_Username : string;
  pf_TLSMode : string;
  pf_CertificateFingerprint : string;
  pf_TimeoutSeconds : Z;
  pf_Revision : Z;
  pf_Default : bool;
  pf_Role : string;
  pf_PasswordStored : bool;
  pf_TrustedDeviceStored : bool;
  pf_SessionStored : bool;
  pf_CreatedAt : Z;
  pf_UpdatedAt : Z
}.

Record ProfileInput := {
  pi_Name : string;
  pi_URL : string;
  pi_Username : string;
  pi_TLSMode : string;
  pi_CertificateFingerprint : string;
  pi_TimeoutSeconds : Z;
  pi_Role : string
}.

Record Health := {
  he_SchemaVersion : Z;
  he_ProfileCount : Z;
  he_Initialized : bool;
  he_Ready : bool;
  he_AdminMode : string
}.

Record SecretMetadata := {
  sm_ID : string;
  sm_ProfileID : string;
  sm_Type : string;
  sm_Account : string;
  sm_CreatedAt : Z;
  sm_UpdatedAt : Z
}.

Record sealedSecret := {
  ss_Metadata : SecretMetadata;
  ss_Nonce : option string;
  ss_Ciphertext : option string
}.

Record AccountCredentialInfo := {
  ac_Account : string;
  ac_Primary : bool;
  ac_CreatedAt : Z;
  ac_UpdatedAt : Z
}.

(** ** The database: one field per bucket *)


Record DB := {
  b_meta : gmap string string;
  b_profiles : bucket profileRecord;
  b_secrets : bucket sealedSecret;
  b_migrations : gmap string string;
  b_mcp_tokens : bucket mcpTokenRecord;
  b_token_digests : gmap string string;
  b_approvals : bucket Approval;
  b_approval_requests : bucket PendingApproval;
  b_audit : bucket AuditEvent;
  b_admin_sessions : bucket administratorSessionRecord;
  b_oauth_clients : bucket OAuthClient;
  b_oauth_refresh : bucket oauthRefreshRecord
}.

(** ** Field assignment *)


Definition set_tk_ApprovalMode (v : string) (r : MCPToken) : MCPToken :=
  {| tk_ID := tk_ID r;
     tk_Name := tk_Name r;
     tk_AuthMode := tk_AuthMode r;
     tk_ApprovalMode := v;
     tk_OAuthClientID := tk_OAuthClientID r;
     tk_Scopes := tk_Scopes r;
     tk_NASAllowlist := tk_NASAllowlist r;
     tk_CreatedAt := tk_CreatedAt r;
     tk_UpdatedAt := tk_UpdatedAt r;
     tk_ExpiresAt := tk_ExpiresAt r;
     tk_RevokedAt := tk_RevokedAt r;
     tk_LastUsedAt := tk_LastUsedAt r |}.

Definition set_tk_Scopes (v : list string) (r : MCPToken) : MCPToken :=
  {| tk_ID := tk_ID r;
     tk_Name := tk_Name r;
     tk_AuthMode := tk_AuthMode r;
     tk_ApprovalMode := tk_ApprovalMode r;
     tk_OAuthClientID := tk_OAuthClientID r;
     tk_Scopes := v;
     tk_NASAllowlist := tk_NASAllowlist r;
     tk_CreatedAt := tk_CreatedAt r;
     tk_UpdatedAt := tk_UpdatedAt r;
     tk_ExpiresAt := tk_ExpiresAt r;
     tk_RevokedAt := tk_RevokedAt r;
     tk_LastUsedAt := tk_LastUsedAt r |}.

Definition set_tk_NASAllowlist (v : list string) (r : MCPToken) : MCPToken :=
  {| tk_ID := tk_ID r;
     tk_Name := tk_Name r;
     tk_AuthMode := tk_AuthMode r;
     tk_ApprovalMode := tk_ApprovalMode r;
     tk_OAuthClientID := tk_OAuthClientID r;
     tk_Scopes := tk_Scopes r;
     tk_NASAllowlist := v;
     tk_CreatedAt := tk_CreatedAt r;
     tk_UpdatedAt := tk_UpdatedAt r;
     tk_ExpiresAt := tk_ExpiresAt r;
     tk_RevokedAt := tk_RevokedAt r;
     tk_LastUsedAt := tk_LastUsedAt r |}.

Definition set_tk_UpdatedAt (v : Z) (r : MCPToken) : MCPToken :=
  {| tk_ID := tk_ID r;
     tk_Name := tk_Name r;
     tk_AuthMode := tk_AuthMode r;
     tk_ApprovalMode := tk_ApprovalMode r;
     tk_OAuthClientID := tk_OAuthClientID r;
     tk_Scopes := tk_Scopes r;
     tk_NASAllowlist := tk_NASAllowlist r;
     tk_CreatedAt := tk_CreatedAt r;
     tk_UpdatedAt := v;
     tk_ExpiresAt := tk_ExpiresAt r;
     tk_RevokedAt := tk_RevokedAt r;
     tk_LastUsedAt := tk_LastUsedAt r |}.

Definition set_tk_ExpiresAt (v : option Z) (r : MCPToken) : MCPToken :=
  {| tk_ID := tk_ID r;
     tk_Name := tk_Name r;
     tk_AuthMode := tk_AuthMode r;
     tk_ApprovalMode := tk_ApprovalMode r;
     tk_OAuthClientID := tk_OAuthClientID r;
     tk_Scopes := tk_Scopes r;
     tk_NASAllowlist := tk_NASAllowlist r;
     tk_CreatedAt := tk_CreatedAt r;
     tk_UpdatedAt := tk_UpdatedAt r;
     tk_ExpiresAt := v;
     tk_RevokedAt := tk_RevokedAt r;
     tk_LastUsedAt := tk_LastUsedAt r |}.

Definition set_tk_RevokedAt (v : option Z) (r : MCPToken) : MCPToken :=
  {| tk_ID := tk_ID r;
     tk_Name := tk_Name r;
     tk_AuthMode := tk_AuthMode r;
     tk_ApprovalMode := tk_ApprovalMode r;
     tk_OAuthClientID := tk_OAuthClientID r;
     tk_Scopes := tk_Scopes r;
     tk_NASAllowlist := tk_NASAllowlist r;
     tk_CreatedAt := tk_CreatedAt r;
     tk_UpdatedAt := tk_UpdatedAt r;
     tk_ExpiresAt := tk_ExpiresAt r;
     tk_RevokedAt := v;
     tk_LastUsedAt := tk_LastUsedAt r |}.

Definition set_tk_LastUsedAt (v : option Z) (r : MCPToken) : MCPToken :=
  {| tk_ID := tk_ID r;
     tk_Name := tk_Name r;
     tk_AuthMode := tk_AuthMode r;
     tk_ApprovalMode := tk_ApprovalMode r;
     tk_OAuthClientID := tk_OAuthClientID r;
     tk_Scopes := tk_Scopes r;
     tk_NASAllowlist := tk_NASAllowlist r;
     tk_CreatedAt := tk_CreatedAt r;
     tk_UpdatedAt := tk_UpdatedAt r;
     tk_ExpiresAt := tk_ExpiresAt r;
     tk_RevokedAt := tk_RevokedAt r;
     tk_LastUsedAt := v |}.

Definition set_tk_AuthMode (v : string) (r : MCPToken) : MCPToken :=
  {| tk_ID := tk_ID r;
     tk_Name := tk_Name r;
     tk_AuthMode := v;
     tk_ApprovalMode := tk_ApprovalMode r;
     tk_OAuthClientID := tk_OAuthClientID r;
     tk_Scopes := tk_Scopes r;
     tk_NASAllowlist := tk_NASAllowlist r;
     tk_CreatedAt := tk_CreatedAt r;
     tk_UpdatedAt := tk_UpdatedAt r;
     tk_ExpiresAt := tk_ExpiresAt r;
     tk_RevokedAt := tk_RevokedAt r;
     tk_LastUsedAt := tk_LastUsedAt r |}.

Definition set_tk_OAuthClientID (v : string) (r : MCPToken) : MCPToken :=
  {| tk_ID := tk_ID r;
     tk_Name := tk_Name r;
     tk_AuthMode := tk_AuthMode r;
     tk_ApprovalMode := tk_ApprovalMode r;
     tk_OAuthClientID := v;
     tk_Scopes := tk_Scopes r;
     tk_NASAllowlist := tk_NASAllowlist r;
     tk_CreatedAt := tk_CreatedAt r;
     tk_UpdatedAt := tk_UpdatedAt r;
     tk_ExpiresAt := tk_ExpiresAt r;
     tk_RevokedAt := tk_RevokedAt r;
     tk_LastUsedAt := tk_LastUsedAt r |}.

Definition set_ap_ConsumedAt (v : option Z) (r : Approval) : Approval :=
  {| ap_ID := ap_ID r;
     ap_PlanHash := ap_PlanHash r;
     ap_NAS := ap_NAS r;
     ap_ProfileRevision := ap_ProfileRevision r;
     ap_RequestingTokenID := ap_RequestingTokenID r;
     ap_Administrator := ap_Administrator r;
     ap_CreatedAt := ap_CreatedAt r;
     ap_ExpiresAt := ap_ExpiresAt r;
     ap_ConsumedAt := v |}.

Definition set_ai_ProfileRevision (v : Z) (r : ApprovalInput) : ApprovalInput :=
  {| ai_PlanHash := ai_PlanHash r;
     ai_NAS := ai_NAS r;
     ai_ProfileRevision := v;
     ai_RequestingTokenID := ai_RequestingTokenID r;
     ai_TTL := ai_TTL r |}.

Definition set_pa_RequestingToken (v : string) (r : PendingApproval) : PendingApproval :=
  {| pa_ID := pa_ID r;
     pa_PlanHash := pa_PlanHash r;
     pa_NAS := pa_NAS r;
     pa_ProfileRevision := pa_ProfileRevision r;
     pa_RequestingTokenID := pa_RequestingTokenID r;
     pa_RequestingToken := v;
     pa_Tool := pa_Tool r;
     pa_Risk := pa_Risk r;
     pa_ResourceID := pa_ResourceID r;
     pa_Summary := pa_Summary r;
     pa_CreatedAt := pa_CreatedAt r;
     pa_ExpiresAt := pa_ExpiresAt r |}.

Definition set_pr_URL (v : string) (r : profileRecord) : profileRecord :=
  {| pr_ID := pr_ID r;
     pr_Name := pr_Name r;
     pr_URL := v;
     pr_Username := pr_Username r;
     pr_TLSMode := pr_TLSMode r;
     pr_CertificateFingerprint := pr_CertificateFingerprint r;
     pr_TimeoutSeconds := pr_TimeoutSeconds r;
     pr_Revision := pr_Revision r;
     pr_Role := pr_Role r;
     pr_PasswordSecretID := pr_PasswordSecretID r;
     pr_TrustedDeviceSecretID := pr_TrustedDeviceSecretID r;
     pr_SessionSecretID := pr_SessionSecretID r;
     pr_CreatedAt := pr_CreatedAt r;
     pr_UpdatedAt := pr_UpdatedAt r |}.

Definition set_pr_Username (v : string) (r : profileRecord) : profileRecord :=
  {| pr_ID := pr_ID r;
     pr_Name := pr_Name r;
     pr_URL := pr_URL r;
     pr_Username := v;
     pr_TLSMode := pr_TLSMode r;
     pr_CertificateFingerprint := pr_CertificateFingerprint r;
     pr_TimeoutSeconds := pr_TimeoutSeconds r;
     pr_Revision := pr_Revision r;
     pr_Role := pr_Role r;
     pr_PasswordSecretID := pr_PasswordSecretID r;
     pr_TrustedDeviceSecretID := pr_TrustedDeviceSecretID r;
     pr_SessionSecretID := pr_SessionSecretID r;
     pr_CreatedAt := pr_CreatedAt r;
     pr_UpdatedAt := pr_UpdatedAt r |}.

Definition set_pr_TLSMode (v : string) (r : profileRecord) : profileRecord :=
  {| pr_ID := pr_ID r;
     pr_Name := pr_Name r;
     pr_URL := pr_URL r;
     pr_Username := pr_Username r;
     pr_TLSMode := v;
     pr_CertificateFingerprint := pr_CertificateFingerprint r;
     pr_TimeoutSeconds := pr_TimeoutSeconds r;
     pr_Revision := pr_Revision r;
     pr_Role := pr_Role r;
     pr_PasswordSecretID := pr_PasswordSecretID r;
     pr_TrustedDeviceSecretID := pr_TrustedDeviceSecretID r;
     pr_SessionSecretID := pr_SessionSecretID r;
     pr_CreatedAt := pr_CreatedAt r;
     pr_UpdatedAt := pr_UpdatedAt r |}.

Definition set_pr_CertificateFingerprint (v : string) (r : profileRecord) : profileRecord :=
  {| pr_ID := pr_ID r;
     pr_Name := pr_Name r;
     pr_URL := pr_URL r;
     pr_Username := pr_Username r;
     pr_TLSMode := pr_TLSMode r;
     pr_CertificateFingerprint := v;
     pr_TimeoutSeconds := pr_TimeoutSeconds r;
     pr_Revision := pr_Revision r;
     pr_Role := pr_Role r;
     pr_PasswordSecretID := pr_PasswordSecretID r;
     pr_TrustedDeviceSecretID := pr_TrustedDeviceSecretID r;
     pr_SessionSecretID := pr_SessionSecretID r;
     pr_CreatedAt := pr_CreatedAt r;
     pr_UpdatedAt := pr_UpdatedAt r |}.

Definition set_pr_TimeoutSeconds (v : Z) (r : profileRecord) : profileRecord :=
  {| pr_ID := pr_ID r;
     pr_Name := pr_Name r;
     pr_URL := pr_URL r;
     pr_Username := pr_Username r;
     pr_TLSMode := pr_TLSMode r;
     pr_CertificateFingerprint := pr_CertificateFingerprint r;
     pr_TimeoutSeconds := v;
     pr_Revision := pr_Revision r;
     pr_Role := pr_Role r;
     pr_PasswordSecretID := pr_PasswordSecretID r;
     pr_TrustedDeviceSecretID := pr_TrustedDeviceSecretID r;
     pr_SessionSecretID := pr_SessionSecretID r;
     pr_CreatedAt := pr_CreatedAt r;
     pr_UpdatedAt := pr_UpdatedAt r |}.

Definition set_pr_Revision (v : Z) (r : profileRecord) : profileRecord :=
  {| pr_ID := pr_ID r;
     pr_Name := pr_Name r;
     pr_URL := pr_URL r;
     pr_Username := pr_Username r;
     pr_TLSMode := pr_TLSMode r;
     pr_CertificateFingerprint := pr_CertificateFingerprint r;
     pr_TimeoutSeconds := pr_TimeoutSeconds r;
     pr_Revision := v;
     pr_Role := pr_Role r;
     pr_PasswordSecretID := pr_PasswordSecretID r;
     pr_TrustedDeviceSecretID := pr_TrustedDeviceSecretID r;
     pr_SessionSecretID := pr_SessionSecretID r;
     pr_CreatedAt := pr_CreatedAt r;
     pr_UpdatedAt := pr_UpdatedAt r |}.

Definition set_pr_PasswordSecretID (v : string) (r : profileRecord) : profileRecord :=
  {| pr_ID := pr_ID r;
     pr_Name := pr_Name r;
     pr_URL := pr_URL r;
     pr_Username := pr_Username r;
     pr_TLSMode := pr_TLSMode r;
     pr_CertificateFingerprint := pr_CertificateFingerprint r;
     pr_TimeoutSeconds := pr_TimeoutSeconds r;
     pr_Revision := pr_Revision r;
     pr_Role := pr_Role r;
     pr_PasswordSecretID := v;
     pr_TrustedDeviceSecretID := pr_TrustedDeviceSecretID r;
     pr_SessionSecretID := pr_SessionSecretID r;
     pr_CreatedAt := pr_CreatedAt r;
     pr_UpdatedAt := pr_UpdatedAt r |}.

Definition set_pr_TrustedDeviceSecretID (v : string) (r : profileRecord) : profileRecord :=
  {| pr_ID := pr_ID r;
     pr_Name := pr_Name r;
     pr_URL := pr_URL r;
     pr_Username := pr_Username r;
     pr_TLSMode := pr_TLSMode r;
     pr_CertificateFingerprint := pr_CertificateFingerprint r;
     pr_TimeoutSeconds := pr_TimeoutSeconds r;
     pr_Revision := pr_Revision r;
     pr_Role := pr_Role r;
     pr_PasswordSecretID := pr_PasswordSecretID r;
     pr_TrustedDeviceSecretID := v;
     pr_SessionSecretID := pr_SessionSecretID r;
     pr_CreatedAt := pr_CreatedAt r;
     pr_UpdatedAt := pr_UpdatedAt r |}.

Definition set_pr_SessionSecretID (v : string) (r : profileRecord) : profileRecord :=
  {| pr_ID := pr_ID r;
     pr_Name := pr_Name r;
     pr_URL := pr_URL r;
     pr_Username := pr_Username r;
     pr_TLSMode := pr_TLSMode r;
     pr_CertificateFingerprint := pr_CertificateFingerprint r;
     pr_TimeoutSeconds := pr_TimeoutSeconds r;
     pr_Revision := pr_Revision r;
     pr_Role := pr_Role r;
     pr_PasswordSecretID := pr_PasswordSecretID r;
     pr_TrustedDeviceSecretID := pr_TrustedDeviceSecretID r;
     pr_SessionSecretID := v;
     pr_CreatedAt := pr_CreatedAt r;
     pr_UpdatedAt := pr_UpdatedAt r |}.

Definition set_pr_UpdatedAt (v : Z) (r : profileRecord) : profileRecord :=
  {| pr_ID := pr_ID r;
     pr_Name := pr_Name r;
     pr_URL := pr_URL r;
     pr_Username := pr_Username r;
     pr_TLSMode := pr_TLSMode r;
     pr_CertificateFingerprint := pr_CertificateFingerprint r;
     pr_TimeoutSeconds := pr_TimeoutSeconds r;
     pr_Revision := pr_Revision r;
     pr_Role := pr_Role r;
     pr_PasswordSecretID := pr_PasswordSecretID r;
     pr_TrustedDeviceSecretID := pr_TrustedDeviceSecretID r;
     pr_SessionSecretID := pr_SessionSecretID r;
     pr_CreatedAt := pr_CreatedAt r;
     pr_UpdatedAt := v |}.

(** ** Bucket replacement *)


Definition set_b_meta (v : gmap string string) (r : DB) : DB :=
  {| b_meta := v;
     b_profiles := b_profiles r;
     b_secrets := b_secrets r;
     b_migrations := b_migrations r;
     b_mcp_tokens := b_mcp_tokens r;
     b_token_digests := b_token_digests r;
     b_approvals := b_approvals r;
     b_approval_requests := b_approval_requests r;
     b_audit := b_audit r;
     b_admin_sessions := b_admin_sessions r;
     b_oauth_clients := b_oauth_clients r;
     b_oauth_refresh := b_oauth_refresh r |}.

Definition set_b_profiles (v : bucket profileRecord) (r : DB) : DB :=
  {| b_meta := b_meta r;
     b_profiles := v;
     b_secrets := b_secrets r;
     b_migrations := b_migrations r;
     b_mcp_tokens := b_mcp_tokens r;
     b_token_digests := b_token_digests r;
     b_approvals := b_approvals r;
     b_approval_requests := b_approval_requests r;
     b_audit := b_audit r;
     b_admin_sessions := b_admin_sessions r;
     b_oauth_clients := b_oauth_clients r;
     b_oauth_refresh := b_oauth_refresh r |}.

Definition set_b_secrets (v : bucket sealedSecret) (r : DB) : DB :=
  {| b_meta := b_meta r;
     b_profiles := b_profiles r;
     b_secrets := v;
     b_migrations := b_migrations r;
     b_mcp_tokens := b_mcp_tokens r;
     b_token_digests := b_token_digests r;
     b_approvals := b_approvals r;
     b_approval_requests := b_approval_requests r;
     b_audit := b_audit r;
     b_admin_sessions := b_admin_sessions r;
     b_oauth_clients := b_oauth_clients r;
     b_oauth_refresh := b_oauth_refresh r |}.

Definition set_b_migrations (v : gmap string string) (r : DB) : DB :=
  {| b_meta := b_meta r;
     b_profiles := b_profiles r;
     b_secrets := b_secrets r;
     b_migrations := v;
     b_mcp_tokens := b_mcp_tokens r;
     b_token_digests := b_token_digests r;
     b_approvals := b_approvals r;
     b_approval_requests := b_approval_requests r;
     b_audit := b_audit r;
     b_admin_sessions := b_admin_sessions r;
     b_oauth_clients := b_oauth_clients r;
     b_oauth_refresh := b_oauth_refresh r |}.

Definition set_b_mcp_tokens (v : bucket mcpTokenRecord) (r : DB) : DB :=
  {| b_meta := b_meta r;
     b_profiles := b_profiles r;
     b_secrets := b_secrets r;
     b_migrations := b_migrations r;
     b_mcp_tokens := v;
     b_token_digests := b_token_digests r;
     b_approvals := b_approvals r;
     b_approval_requests := b_approval_requests r;
     b_audit := b_audit r;
     b_admin_sessions := b_admin_sessions r;
     b_oauth_clients := b_oauth_clients r;
     b_oauth_refresh := b_oauth_refresh r |}.

Definition set_b_token_digests (v : gmap string string) (r : DB) : DB :=
  {| b_meta := b_meta r;
     b_profiles := b_profiles r;
     b_secrets := b_secrets r;
     b_migrations := b_migrations r;
     b_mcp_tokens := b_mcp_tokens r;
     b_token_digests := v;
     b_approvals := b_approvals r;
     b_approval_requests := b_approval_requests r;
     b_audit := b_audit r;
     b_admin_sessions := b_admin_sessions r;
     b_oauth_clients := b_oauth_clients r;
     b_oauth_refresh := b_oauth_refresh r |}.

Definition set_b_approvals (v : bucket Approval) (r : DB) : DB :=
  {| b_meta := b_meta r;
     b_profiles := b_profiles r;
     b_secrets := b_secrets r;
     b_migrations := b_migrations r;
     b_mcp_tokens := b_mcp_tokens r;
     b_token_digests := b_token_digests r;
     b_approvals := v;
     b_approval_requests := b_approval_requests r;
     b_audit := b_audit r;
     b_admin_sessions := b_admin_sessions r;
     b_oauth_clients := b_oauth_clients r;
     b_oauth_refresh := b_oauth_refresh r |}.

Definition set_b_approval_requests (v : bucket PendingApproval) (r : DB) : DB :=
  {| b_meta := b_meta r;
     b_profiles := b_profiles r;
     b_secrets := b_secrets r;
     b_migrations := b_migrations r;
     b_mcp_tokens := b_mcp_tokens r;
     b_token_digests := b_token_digests r;
     b_approvals := b_approvals r;
     b_approval_requests := v;
     b_audit := b_audit r;
     b_admin_sessions := b_admin_sessions r;
     b_oauth_clients := b_oauth_clients r;
     b_oauth_refresh := b_oauth_refresh r |}.

Definition set_b_audit (v : bucket AuditEvent) (r : DB) : DB :=
  {| b_meta := b_meta r;
     b_profiles := b_profiles r;
     b_secrets := b_secrets r;
     b_migrations := b_migrations r;
     b_mcp_tokens := b_mcp_tokens r;
     b_token_digests := b_token_digests r;
     b_approvals := b_approvals r;
     b_approval_requests := b_approval_requests r;
     b_audit := v;
     b_admin_sessions := b_admin_sessions r;
     b_oauth_clients := b_oauth_clients r;
     b_oauth_refresh := b_oauth_refresh r |}.

Definition set_b_admin_sessions (v : bucket administratorSessionRecord) (r : DB) : DB :=
  {| b_meta := b_meta r;
     b_profiles := b_profiles r;
     b_secrets := b_secrets r;
     b_migrations := b_migrations r;
     b_mcp_tokens := b_mcp_tokens r;
     b_token_digests := b_token_digests r;
     b_approvals := b_approvals r;
     b_approval_requests := b_approval_requests r;
     b_audit := b_audit r;
     b_admin_sessions := v;
     b_oauth_clients := b_oauth_clients r;
     b_oauth_refresh := b_oauth_refresh r |}.

Definition set_b_oauth_clients (v : bucket OAuthClient) (r : DB) : DB :=
  {| b_meta := b_meta r;
     b_profiles := b_profiles r;
     b_secrets := b_secrets r;
     b_migrations := b_migrations r;
     b_mcp_tokens := b_mcp_tokens r;
     b_token_digests := b_token_digests r;
     b_approvals := b_approvals r;
     b_approval_requests := b_approval_requests r;
     b_audit := b_audit r;
     b_admin_sessions := b_admin_sessions r;
     b_oauth_clients := v;
     b_oauth_refresh := b_oauth_refresh r |}.

Definition set_b_oauth_refresh (v : bucket oauthRefreshRecord) (r : DB) : DB :=
  {| b_meta := b_meta r;
     b_profiles := b_profiles r;
     b_secrets := b_secrets r;
     b_migrations := b_migrations r;
     b_mcp_tokens := b_mcp_tokens r;
     b_token_digests := b_token_digests r;
     b_approvals := b_approvals r;
     b_approval_requests := b_approval_requests r;
     b_audit := b_audit r;
     b_admin_sessions := b_admin_sessions r;
     b_oauth_clients := b_oauth_clients r;
     b_oauth_refresh := v |}.

(** ** Worlds *)

(** The database and the flags of the interactive grants alive in the process. *)
Abbreviation gworld := (world DB flags).
Abbreviation GW A := (ST gworld error A).

(** [if err := ctx.Err(); err != nil { return err }] *)
Definition ctx_check (ctx : context) : GW () :=
  match ctx_Err ctx with None => mret () | Some e => fail e end.

(** Bucket writes inside a transaction. *)
Definition put_token (k : string) (v : mcpTokenRecord) : GW () :=
  modifyDB (fun d => set_b_mcp_tokens (<[k := Json v]> (b_mcp_tokens d)) d).
Definition put_digest (k v : string) : GW () :=
  modifyDB (fun d => set_b_token_digests (<[k := v]> (b_token_digests d)) d).
Definition delete_digest (k : string) : GW () :=
  modifyDB (fun d => set_b_token_digests (delete k (b_token_digests d)) d).
Definition put_approval (k : string) (v : Approval) : GW () :=
  modifyDB (fun d => set_b_approvals (<[k := Json v]> (b_approvals d)) d).
Definition put_meta (k v : string) : GW () :=
  modifyDB (fun d => set_b_meta (<[k := v]> (b_meta d)) d).
Definition delete_meta (k : string) : GW () :=
  modifyDB (fun d => set_b_meta (delete k (b_meta d)) d).
Definition put_profile (k : string) (v : profileRecord) : GW () :=
  modifyDB (fun d => set_b_profiles (<[k := Json v]> (b_profiles d)) d).
Definition put_secret (k : string) (v : sealedSecret) : GW () :=
  modifyDB (fun d => set_b_secrets (<[k := Json v]> (b_secrets d)) d).
Definition delete_secret (k : string) : GW () :=
  modifyDB (fun d => set_b_secrets (delete k (b_secrets d)) d).

(** [json.Unmarshal] of every value of a bucket, an error when one is garbled. *)
Definition foreach {A} (b : bucket A) : GW (list (string * A)) :=
  match ForEach b with Some l => mret l | None => fail ErrDecode end.

Lemma ctx_check_ok ctx (w : gworld) u w' :
  ctx_check ctx w = (Ok u, w') → ctx_Err ctx = None ∧ w' = w.
Proof. unfold ctx_check. destruct (ctx_Err ctx); cbv; intros; by simplify_eq. Qed.

Lemma foreach_ok {A} (b : bucket A) (w : gworld) l w' :
  foreach b w = (Ok l, w') → ForEach b = Some l ∧ w' = w.
Proof. unfold foreach. destruct (ForEach b); cbv; intros; by simplify_eq. Qed.

Lemma modifyDB_ok {D R E} (f : D → D) (w : world D R) r w' :
  modifyDB (E:=E) f w = (r, w') → r = Ok () ∧ w' = World (f (w_db w)) (w_rest w).
Proof. unfold modifyDB. intros; by simplify_eq. Qed.

#[global] Instance steps_ctx_check ctx (R : relation gworld) `{!PreOrder R} :
  Steps R (ctx_check ctx).
Proof. unfold ctx_check. steps_walk. Qed.

#[global] Instance steps_foreach {A} (b : bucket A) (R : relation gworld) `{!PreOrder R} :
  Steps R (foreach b).
Proof. unfold foreach. steps_walk. Qed.
