(* ===== verification/Records.v ===== *)
(** * Record access inside a transaction

    The readers and writers every part of the repository shares: profiles and their
    revision counter (internal/gateway/state/repository.go), MCP token records and their
    validity (policy.go), and the OAuth refresh records of a token (oauth.go). *)

From S2P Require Import Prelude.
From S2P Require Import GoStrings.
From S2P Require Import Bolt.
From S2P Require Import RemotePolicy.
From S2P Require Import StateTypes.

(** ** Meta keys *)

Definition keySchemaVersion : string := "schema_version".
Definition keyDefaultProfile : string := "default_profile".
Definition keyKeyCheck : string := "master_key_check".
Definition keyBootstrapDigest : string := "bootstrap_digest".
Definition keyBootstrapUsed : string := "bootstrap_used".
Definition keyAdminDigest : string := "admin_digest".
Definition keyAdminMode : string := "admin_mode".
Definition keyAdminUsername : string := "admin_username".
Definition keyAdminPassword : string := "admin_password_hash".
Definition keyAdminInitializedAt : string := "admin_initialized_at".
Definition keyRevisionCounter : string := "profile_revision_counter".

(** [meta.Get(key)]: a missing key reads as the nil slice. *)
Definition meta_get (d : DB) (k : string) : string := default "" (b_meta d !! k).

(** ** Profiles *)

Definition decodeProfile (v : stored profileRecord) : result error profileRecord :=
  match unmarshal v with Some p => Ok p | None => Err ErrDecode end.

Definition readProfile (d : DB) (name : string) : result error profileRecord :=
  match b_profiles d !! name with
  | None => Err (ErrNotFound "NAS profile")
  | Some v => decodeProfile v
  end.

Definition putProfile (r : profileRecord) : GW () := put_profile (pr_Name r) r.

Definition publicProfile (r : profileRecord) (isDefault : bool) : Profile := {|
  pf_ID := pr_ID r; pf_Name := pr_Name r; pf_URL := pr_URL r;
  pf_Username := pr_Username r; pf_TLSMode := pr_TLSMode r;
  pf_CertificateFingerprint := pr_CertificateFingerprint r;
  pf_TimeoutSeconds := pr_TimeoutSeconds r; pf_Revision := pr_Revision r;
  pf_Default := isDefault; pf_Role := pr_Role r;
  pf_PasswordStored := negb (bool_decide (pr_PasswordSecretID r = ""));
  pf_TrustedDeviceStored := negb (bool_decide (pr_TrustedDeviceSecretID r = ""));
  pf_SessionStored := negb (bool_decide (pr_SessionSecretID r = ""));
  pf_CreatedAt := pr_CreatedAt r; pf_UpdatedAt := pr_UpdatedAt r
|}.

Definition encodeUint64 (x : Z) : string := of_bytes (be_bytes 8 x).
Definition decodeUint64 (s : string) : Z :=
  if bool_decide (length (bytes s) = 8%nat) then be_value (bytes s) else 0.

Arguments encodeUint64 : simpl never.

(** The counter of the database. *)
Definition revision_counter (d : DB) : Z := decodeUint64 (meta_get d keyRevisionCounter).

(** [uint64] addition wraps. *)
Definition nextProfileRevision : GW Z :=
  d ← getDB;
  let next := u64_wrap (revision_counter d + 1) in
  put_meta keyRevisionCounter (encodeUint64 next);;
  mret next.

(** ** MCP tokens *)

Definition set_tr_Digest (v : string) (r : mcpTokenRecord) : mcpTokenRecord :=
  {| tr_MCPToken := tr_MCPToken r; tr_Digest := v |}.
Definition upd_tr (f : MCPToken → MCPToken) (r : mcpTokenRecord) : mcpTokenRecord :=
  {| tr_MCPToken := f (tr_MCPToken r); tr_Digest := tr_Digest r |}.
Abbreviation tr_ID r := (tk_ID (tr_MCPToken r)).

(** A record written before approval modes existed decodes as administrator mode. *)
Definition decodeMCPToken (v : stored mcpTokenRecord) : result error mcpTokenRecord :=
  match unmarshal v with
  | None => Err ErrDecode
  | Some r =>
      Ok (if bool_decide (TrimSpace (tk_ApprovalMode (tr_MCPToken r)) = "")
          then upd_tr (set_tk_ApprovalMode ApprovalModeAdministrator) r
          else r)
  end.

Definition readMCPToken (d : DB) (id : string) : result error mcpTokenRecord :=
  match b_mcp_tokens d !! id with
  | None => Err (ErrNotFound "MCP token")
  | Some v => decodeMCPToken v
  end.

Definition token_active (t : MCPToken) (now : Z) : bool :=
  bool_decide (tk_RevokedAt t = None)
  && match tk_ExpiresAt t with Some e => now <? e | None => true end.

Definition validateActiveToken (r : mcpTokenRecord) (now : Z) : result error () :=
  if token_active (tr_MCPToken r) now then Ok () else Err ErrTokenUnauthorized.

Definition principalFor (t : MCPToken) : Principal := {|
  pp_TokenID := tk_ID t; pp_Name := tk_Name t; pp_ApprovalMode := tk_ApprovalMode t;
  pp_Scopes := list_to_set (tk_Scopes t); pp_NAS := list_to_set (tk_NASAllowlist t)
|}.

Fixpoint sliceContains (values : list string) (target : string) : bool :=
  match values with
  | [] => false
  | v :: vs => if bool_decide (v = target) then true else sliceContains vs target
  end.

Definition uniqueSorted (values : list string) : list string :=
  sort_strings (dedup (base.filter (fun v => v ≠ "") (TrimSpace <$> values))).

Definition validateTokenNAS (d : DB) (names : list string) : result error () :=
  if forallb (fun n => is_Ok (readProfile d n)) names
  then Ok () else Err (ErrNew "NAS allowlist entry is not configured").

Definition putMCPTokenRecord (r : mcpTokenRecord) : GW () :=
  d ← getDB;
  lift (validateTokenNAS d (tk_NASAllowlist (tr_MCPToken r)));;
  put_token (tr_ID r) r;;
  put_digest (tr_Digest r) (tr_ID r).

(** ** OAuth refresh records of a token *)

(** Garbled records are skipped. *)
Definition refresh_keys_of (d : DB) (tokenID : string) : list string :=
  keys_where (fun r => bool_decide (rf_TokenID r = tokenID)) (b_oauth_refresh d).

Definition deleteOAuthRefreshTokensForMCPToken (tokenID : string) : GW () :=
  modifyDB (fun d =>
    set_b_oauth_refresh (delete_keys (refresh_keys_of d tokenID) (b_oauth_refresh d)) d).

(** ** Lemmas *)

Lemma readProfile_Ok d name r :
  readProfile d name = Ok r ↔ b_profiles d !! name = Some (Json r).
Proof.
  unfold readProfile, decodeProfile.
  destruct (b_profiles d !! name) as [[p|]|]; simpl; naive_solver.
Qed.

Lemma readMCPToken_Ok d id r :
  readMCPToken d id = Ok r → ∃ r0, b_mcp_tokens d !! id = Some (Json r0) ∧
    tr_Digest r = tr_Digest r0 ∧ tr_ID r = tr_ID r0 ∧
    tk_Scopes (tr_MCPToken r) = tk_Scopes (tr_MCPToken r0) ∧
    tk_NASAllowlist (tr_MCPToken r) = tk_NASAllowlist (tr_MCPToken r0) ∧
    tk_RevokedAt (tr_MCPToken r) = tk_RevokedAt (tr_MCPToken r0) ∧
    tk_ExpiresAt (tr_MCPToken r) = tk_ExpiresAt (tr_MCPToken r0).
Proof.
  unfold readMCPToken, decodeMCPToken.
  destruct (b_mcp_tokens d !! id) as [[p|]|]; simpl; try done.
  intros [= <-]. exists p. split; [done|]. by case_bool_decide.
Qed.

(** A record with a non-blank approval mode reads back unchanged. *)
Lemma readMCPToken_put d id r :
  b_mcp_tokens d !! id = Some (Json r) →
  TrimSpace (tk_ApprovalMode (tr_MCPToken r)) ≠ "" → readMCPToken d id = Ok r.
Proof.
  unfold readMCPToken, decodeMCPToken. intros ->. simpl. intros H.
  by rewrite bool_decide_false.
Qed.

Lemma readMCPToken_mode d id r :
  readMCPToken d id = Ok r → TrimSpace (tk_ApprovalMode (tr_MCPToken r)) ≠ "".
Proof.
  unfold readMCPToken, decodeMCPToken.
  destruct (b_mcp_tokens d !! id) as [[p|]|]; simpl; try done.
  intros [= <-]. by case_bool_decide.
Qed.

Lemma sliceContains_true values target :
  sliceContains values target = true ↔ target ∈ values.
Proof.
  induction values as [|v vs IH]; simpl.
  { split; [done|]. intros []%elem_of_nil. }
  rewrite elem_of_cons. case_bool_decide; naive_solver.
Qed.

Lemma validateActiveToken_Ok r now u :
  validateActiveToken r now = Ok u → token_active (tr_MCPToken r) now = true.
Proof. unfold validateActiveToken. by case_match. Qed.

Lemma elem_of_uniqueSorted x l :
  x ∈ uniqueSorted l ↔ x ≠ "" ∧ ∃ y, y ∈ l ∧ x = TrimSpace y.
Proof.
  unfold uniqueSorted, sort_strings.
  rewrite merge_sort_Permutation, elem_of_dedup, list_elem_of_filter,
    list_elem_of_fmap. naive_solver.
Qed.

Lemma uniqueSorted_sorted l : StronglySorted String.le (uniqueSorted l).
Proof. apply StronglySorted_merge_sort; apply _. Qed.

Lemma uniqueSorted_NoDup l : NoDup (uniqueSorted l).
Proof. unfold uniqueSorted, sort_strings. rewrite merge_sort_Permutation. apply NoDup_dedup. Qed.

(** Normalising twice is normalising once. *)
Lemma uniqueSorted_idem l : uniqueSorted (uniqueSorted l) = uniqueSorted l.
Proof.
  apply (StronglySorted_unique String.le); [apply uniqueSorted_sorted..|].
  apply NoDup_Permutation; [apply uniqueSorted_NoDup..|].
  intros x. rewrite (elem_of_uniqueSorted x (uniqueSorted l)). split.
  - intros (Hx & y & Hy & ->). apply elem_of_uniqueSorted in Hy as (?&z&?&->).
    rewrite TrimSpace_idem in *. apply elem_of_uniqueSorted. eauto.
  - intros Hx. pose proof Hx as (Hne & z & Hz & ->)%elem_of_uniqueSorted.
    split; [done|]. exists (TrimSpace z). by rewrite TrimSpace_idem.
Qed.

Lemma uint64_roundtrip x : 0 ≤ x < 2 ^ 64 → decodeUint64 (encodeUint64 x) = x.
Proof.
  intros Hx. unfold decodeUint64, encodeUint64.
  assert (length (be_bytes 8 x) = 8%nat) as Hl by done.
  assert (Forall is_byte (be_bytes 8 x)) as Hb.
  { unfold be_bytes. rewrite reverse_Permutation. apply le_bytes_is_byte. }
  rewrite bytes_of_bytes, bool_decide_true by done.
  rewrite be_value_bytes by lia. apply Z.mod_small. lia.
Qed.

Lemma decodeUint64_bound s : 0 ≤ decodeUint64 s < 2 ^ 64.
Proof.
  unfold decodeUint64. case_bool_decide as H; [|lia].
  unfold be_value. pose proof (le_value_bound (reverse (bytes s))) as Hb.
  rewrite length_reverse, H in Hb. apply Hb.
  rewrite reverse_Permutation. apply bytes_is_byte.
Qed.

Lemma nextProfileRevision_run (w : gworld) r w' :
  nextProfileRevision w = (r, w') →
  let next := u64_wrap (revision_counter (w_db w) + 1) in
  r = Ok next ∧
  w' = World (set_b_meta (<[keyRevisionCounter := encodeUint64 next]>
    (b_meta (w_db w))) (w_db w)) (w_rest w).
Proof. cbv zeta. unfold nextProfileRevision. unfold put_meta. intros H.
  st_unfold. by simplify_eq.
Qed.

(** While the counter is not at its maximum the next revision is the counter plus one,
    and the new counter is the revision handed out. *)
Lemma nextProfileRevision_spec (w : gworld) r w' :
  revision_counter (w_db w) < 2 ^ 64 - 1 →
  nextProfileRevision w = (r, w') →
  r = Ok (revision_counter (w_db w) + 1) ∧
  revision_counter (w_db w') = revision_counter (w_db w) + 1.
Proof.
  intros Hb H. apply nextProfileRevision_run in H as [-> ->].
  pose proof (decodeUint64_bound (meta_get (w_db w) keyRevisionCounter)) as Hc.
  fold (revision_counter (w_db w)) in Hc.
  assert (u64_wrap (revision_counter (w_db w) + 1) = revision_counter (w_db w) + 1) as ->.
  { apply Z.mod_small. lia. }
  split; [done|]. unfold revision_counter at 1, meta_get. simpl.
  rewrite lookup_insert_eq. simpl. apply uint64_roundtrip. lia.
Qed.

Lemma refresh_keys_of_spec d tokenID k :
  k ∈ refresh_keys_of d tokenID ↔
  ∃ r, b_oauth_refresh d !! k = Some (Json r) ∧ rf_TokenID r = tokenID.
Proof.
  unfold refresh_keys_of. rewrite elem_of_keys_where.
  by setoid_rewrite bool_decide_eq_true.
Qed.

#[export] Hint Rewrite uint64_roundtrip using lia : go.
#[export] Hint Resolve decodeUint64_bound uniqueSorted_NoDup uniqueSorted_sorted : go.
