(* ===== verification/McpPolicy.v ===== *)
(** * The tools of the MCP server and its remote policy

    Source: internal/mcpserver/server.go, remote_policy.go and read_only.go.  The names of
    the tools that [New] registers, those that the two remote surfaces remove, and the
    scope that a call of each needs. *)

From S2P Require Import Prelude.
From S2P Require Import GoStrings.
From S2P Require Import Bolt.
From S2P Require Import NetIP.
From S2P Require Import RemotePolicy.
From S2P Require Import Json.
From S2P Require Import DsmErrors.
From S2P Require Import DsmClient.
From S2P Require Import Config.
From S2P Require Import Service.
From S2P Require Import StateTypes.

(** ** The authorization table *)

Definition ToolScope (name : string) : option string :=
  if bool_decide (name = "discover_lan_devices") then Some ScopeLANDiscover
  else if HasPrefix name "provision_" || HasPrefix name "install_" then Some ScopeProvision
  else if bool_decide (name = "run_security_scan") then Some ScopeApply
  else if HasPrefix name "plan_" then Some ScopePlan
  else if HasPrefix name "apply_" then Some ScopeApply
  else if bool_decide (name = "list_nas") || HasPrefix name "get_" || HasPrefix name "explain_"
  then Some ScopeRead
  else None.

(** ** The surfaces *)

(** The tools of [New], in the order of registration. *)
Definition registered_tools : list string :=
  ["list_nas"; "discover_lan_devices"; "get_auth_status"; "provision_nas";
   "provision_discovered_nas"; "install_discovered_nas"; "get_system_info";
   "get_capabilities"; "explain_effective_access"; "get_control_panel_time_capabilities";
   "get_control_panel_time_state"; "get_external_access_capabilities";
   "get_external_access_account"; "get_external_access_quickconnect";
   "get_external_access_ddns"; "get_external_access_port_forward";
   "plan_external_access_quickconnect_change"; "apply_external_access_quickconnect_plan";
   "plan_external_access_quickconnect_config_change";
   "apply_external_access_quickconnect_config_plan";
   "plan_external_access_quickconnect_permission_change";
   "apply_external_access_quickconnect_permission_plan"; "plan_external_access_ddns_change";
   "apply_external_access_ddns_plan"; "get_download_station_capabilities";
   "get_download_station_service"; "get_download_station_tasks";
   "get_download_station_statistics"; "get_filestation_capabilities"; "get_filestation_info";
   "get_filestation_shares"; "get_filestation_directory"; "get_filestation_entry_info";
   "get_filestation_search"; "get_filestation_directory_size"; "get_filestation_md5";
   "get_filestation_virtual_folders"; "get_filestation_write_permission";
   "get_filestation_file_content"; "get_filestation_thumbnail"; "get_filestation_favorites";
   "get_filestation_sharing_links"; "get_filestation_background_tasks";
   "plan_filestation_change"; "apply_filestation_plan"; "get_download_station_settings";
   "plan_download_station_task_change"; "apply_download_station_task_plan";
   "plan_download_station_settings_change"; "apply_download_station_settings_plan";
   "get_hyper_backup_capabilities"; "get_hyper_backup_tasks"; "get_hyper_backup_task";
   "get_hyper_backup_versions"; "get_hyper_backup_logs"; "get_hyper_backup_applications";
   "get_hyper_backup_luns"; "get_hyper_backup_lun_backups";
   "plan_hyper_backup_lun_backup_create"; "apply_hyper_backup_lun_backup_plan";
   "get_hyper_backup_vault"; "plan_hyper_backup_task_change"; "apply_hyper_backup_task_plan";
   "plan_control_panel_time_change"; "apply_control_panel_time_plan";
   "plan_system_hostname_change"; "apply_system_hostname_plan";
   "get_file_service_capabilities"; "get_smb_state"; "get_nfs_state";
   "plan_file_service_change"; "apply_file_service_plan"; "get_nfs_export_capabilities";
   "get_nfs_export_state"; "plan_nfs_export_change"; "apply_nfs_export_plan";
   "get_service_discovery_capabilities"; "get_service_discovery_state";
   "plan_service_discovery_change"; "apply_service_discovery_plan";
   "get_ftp_service_capabilities"; "get_ftp_service_state"; "plan_ftp_service_change";
   "apply_ftp_service_plan"; "get_rsync_service_capabilities"; "get_rsync_service_state";
   "plan_rsync_service_change"; "apply_rsync_service_plan"; "get_tftp_service_capabilities";
   "get_tftp_service_state"; "plan_tftp_service_change"; "apply_tftp_service_plan";
   "get_photos_capabilities"; "get_photos_settings"; "plan_photos_change";
   "apply_photos_plan"; "get_office_capabilities"; "get_office_info"; "get_office_settings";
   "get_office_preferences"; "get_office_fonts"; "plan_office_change"; "apply_office_plan";
   "get_storage_capabilities"; "get_storage_state"; "plan_storage_change";
   "apply_storage_plan"; "get_account_capabilities"; "plan_account_change";
   "apply_account_plan"; "get_account_state"; "get_san_capabilities"; "get_san_state";
   "get_log_capabilities"; "get_logs"; "get_notification_capabilities";
   "get_notification_mail"; "get_notification_push"; "get_notification_webhook";
   "get_notification_sms"; "get_notification_rules"; "get_notification_desktop";
   "get_notification_history"; "get_task_scheduler_capabilities"; "get_task_scheduler_tasks";
   "get_task_scheduler_triggered"; "get_dsm_update_capabilities"; "get_dsm_update_status";
   "get_dsm_update_available"; "get_dsm_update_policy"; "get_dsm_update_config_backup";
   "get_resource_monitor_capabilities"; "get_resource_monitor_state";
   "get_resource_monitor_history"; "get_resource_monitor_setting";
   "get_disk_smart_capabilities"; "get_disk_health"; "get_disk_smart_attributes";
   "get_universal_search_capabilities"; "get_universal_search_folders";
   "get_universal_search_status"; "get_hardware_capabilities"; "get_hardware_general";
   "get_hardware_power_schedule"; "get_hardware_power_recovery"; "get_hardware_ups";
   "get_external_device_capabilities"; "get_external_storage"; "get_external_printers";
   "get_directory_capabilities"; "get_directory_status"; "get_directory_users";
   "get_directory_groups"; "get_kmip_capabilities"; "get_kmip_status";
   "plan_resource_recording_change"; "apply_resource_recording_plan"; "plan_san_change";
   "apply_san_plan"; "get_share_capabilities"; "plan_share_change"; "apply_share_plan";
   "get_share_state"; "get_package_capabilities"; "get_package_state"; "get_package_settings";
   "plan_package_change"; "apply_package_plan"; "get_package_available";
   "plan_package_install"; "plan_package_update"; "apply_package_install_plan";
   "plan_package_local_install"; "apply_package_local_install_plan";
   "get_certificate_capabilities"; "get_certificates"; "get_terminal_snmp_capabilities";
   "get_terminal_state"; "get_snmp_state"; "plan_terminal_change"; "apply_terminal_plan";
   "plan_snmp_change"; "apply_snmp_plan"; "plan_certificate_change"; "apply_certificate_plan";
   "get_certificate_export"; "get_security_advisor_capabilities";
   "get_security_advisor_status"; "get_security_advisor_schedule";
   "plan_security_advisor_schedule_change"; "apply_security_advisor_schedule_plan";
   "run_security_scan"; "get_account_protection_capabilities";
   "get_account_protection_autoblock"; "get_account_protection_autoblock_list";
   "get_account_protection"; "get_account_protection_enforce_2fa";
   "plan_account_protection_autoblock_change"; "apply_account_protection_autoblock_plan";
   "plan_account_protection_list_change"; "apply_account_protection_list_plan";
   "plan_account_protection_thresholds_change"; "apply_account_protection_thresholds_plan";
   "plan_account_protection_enforce_2fa_change"; "apply_account_protection_enforce_2fa_plan";
   "get_firewall_capabilities"; "get_firewall_status"; "get_firewall_profiles";
   "get_firewall_rules"; "get_network_capabilities"; "get_network_general";
   "get_network_interfaces"; "get_network_bonds"; "get_network_routes";
   "plan_network_general_change"; "apply_network_general_plan";
   "plan_network_interface_change"; "apply_network_interface_plan";
   "plan_firewall_profile_change"; "apply_firewall_profile_plan";
   "plan_firewall_enable_change"; "apply_firewall_enable_plan";
   "get_login_portal_capabilities"; "get_login_portal_dsm"; "get_login_portal_applications";
   "get_login_portal_reverse_proxy"; "plan_login_portal_dsm_change";
   "apply_login_portal_dsm_plan"; "plan_login_portal_application_change";
   "apply_login_portal_application_plan"; "plan_login_portal_reverse_proxy_create";
   "plan_login_portal_reverse_proxy_delete"; "apply_login_portal_reverse_proxy_plan";
   "get_drive_admin_capabilities"; "get_drive_admin_status"; "get_drive_admin_connections";
   "get_drive_admin_team_folders"; "get_drive_admin_logs"; "get_drive_log_export";
   "get_surveillance_capabilities"; "get_surveillance_info"; "get_surveillance_cameras";
   "get_surveillance_home_mode"; "plan_surveillance_home_mode_change";
   "apply_surveillance_home_mode_plan"; "get_snapshot_capabilities"; "get_snapshot_state";
   "get_snapshot_share"; "get_snapshot_replication_status"; "get_snapshot_log";
   "plan_snapshot_change"; "apply_snapshot_plan"; "plan_snapshot_replication_create";
   "apply_snapshot_replication_create"; "get_drive_config"; "plan_drive_config_change";
   "apply_drive_config_plan"; "get_drive_connection_summary"; "get_drive_db_usage";
   "get_drive_top_files"; "get_drive_activation"; "get_drive_users"; "get_drive_files";
   "get_drive_file_versions"; "plan_drive_restore"; "apply_drive_restore_plan";
   "plan_drive_connection_kick"; "apply_drive_connection_kick_plan";
   "plan_drive_team_folder_change"; "apply_drive_team_folder_plan"].

Definition RemoveTools (tools removed : list string) : list string :=
  base.filter (fun t => t ∉ removed) tools.

(** The tools of the developer gateway. *)
Definition read_only_removed : list string :=
  ["discover_lan_devices"; "provision_nas"; "provision_discovered_nas";
   "install_discovered_nas"; "get_filestation_file_content"; "get_filestation_thumbnail";
   "get_drive_log_export"; "get_certificate_export"; "run_security_scan";
   "plan_security_advisor_schedule_change"; "apply_security_advisor_schedule_plan";
   "plan_account_protection_autoblock_change"; "apply_account_protection_autoblock_plan";
   "plan_account_protection_list_change"; "apply_account_protection_list_plan";
   "plan_account_protection_thresholds_change"; "apply_account_protection_thresholds_plan";
   "plan_account_protection_enforce_2fa_change"; "apply_account_protection_enforce_2fa_plan";
   "plan_firewall_profile_change"; "apply_firewall_profile_plan";
   "plan_firewall_enable_change"; "apply_firewall_enable_plan"; "plan_network_general_change";
   "apply_network_general_plan"; "plan_network_interface_change";
   "apply_network_interface_plan"; "plan_terminal_change"; "apply_terminal_plan";
   "plan_snmp_change"; "apply_snmp_plan"; "plan_login_portal_dsm_change";
   "apply_login_portal_dsm_plan"; "plan_login_portal_application_change";
   "apply_login_portal_application_plan"; "plan_login_portal_reverse_proxy_create";
   "plan_login_portal_reverse_proxy_delete"; "apply_login_portal_reverse_proxy_plan";
   "plan_certificate_change"; "apply_certificate_plan"; "plan_filestation_change";
   "apply_filestation_plan"; "plan_account_change"; "plan_control_panel_time_change";
   "plan_system_hostname_change"; "plan_download_station_settings_change";
   "plan_download_station_task_change"; "plan_hyper_backup_task_change";
   "plan_hyper_backup_lun_backup_create"; "plan_drive_config_change";
   "plan_drive_connection_kick"; "plan_drive_restore"; "plan_drive_team_folder_change";
   "plan_external_access_quickconnect_change";
   "plan_external_access_quickconnect_config_change";
   "plan_external_access_quickconnect_permission_change"; "plan_external_access_ddns_change";
   "plan_file_service_change"; "plan_ftp_service_change"; "plan_nfs_export_change";
   "plan_office_change"; "plan_package_change"; "plan_package_install";
   "plan_package_local_install"; "plan_package_update"; "plan_photos_change";
   "plan_resource_recording_change"; "plan_rsync_service_change"; "plan_san_change";
   "plan_service_discovery_change"; "plan_share_change"; "plan_snapshot_change";
   "plan_snapshot_replication_create"; "plan_storage_change";
   "plan_surveillance_home_mode_change"; "plan_tftp_service_change"; "apply_account_plan";
   "apply_control_panel_time_plan"; "apply_system_hostname_plan";
   "apply_download_station_settings_plan"; "apply_download_station_task_plan";
   "apply_hyper_backup_task_plan"; "apply_hyper_backup_lun_backup_plan";
   "apply_drive_config_plan"; "apply_drive_connection_kick_plan"; "apply_drive_restore_plan";
   "apply_drive_team_folder_plan"; "apply_external_access_quickconnect_plan";
   "apply_external_access_quickconnect_config_plan";
   "apply_external_access_quickconnect_permission_plan"; "apply_external_access_ddns_plan";
   "apply_file_service_plan"; "apply_ftp_service_plan"; "apply_nfs_export_plan";
   "apply_office_plan"; "apply_package_plan"; "apply_package_install_plan";
   "apply_package_local_install_plan"; "apply_photos_plan"; "apply_resource_recording_plan";
   "apply_rsync_service_plan"; "apply_san_plan"; "apply_service_discovery_plan";
   "apply_share_plan"; "apply_snapshot_plan"; "apply_snapshot_replication_create";
   "apply_storage_plan"; "apply_surveillance_home_mode_plan"; "apply_tftp_service_plan"].
Definition NewReadOnly : list string := RemoveTools registered_tools read_only_removed.

(** The tools of the managed gateway, before its middleware. *)
Definition NewRemote : list string := RemoveTools registered_tools ["get_certificate_export"].

(** ** Properties *)

(** The developer gateway is read-only: every tool that is left on it needs the
    nas.read scope alone, every tool it removes was registered, no two tools share a name,
    and on the managed gateway every tool has a scope, so that none is open to every
    caller and none is out of every caller's reach. *)
Theorem surfaces_scoped :
  (∀ tool, tool ∈ NewReadOnly → ToolScope tool = Some ScopeRead) ∧
  (∀ tool, tool ∈ read_only_removed → tool ∈ registered_tools) ∧
  NoDup registered_tools ∧
  (∀ tool, tool ∈ NewRemote → is_Some (ToolScope tool)).
Proof.
  split; [|split; [|split]].
  - apply (Forall_forall (fun tool => ToolScope tool = Some ScopeRead)).
    apply (bool_decide_unpack _). vm_compute. exact I.
  - apply (Forall_forall (fun tool => tool ∈ registered_tools)).
    apply (bool_decide_unpack _). vm_compute. exact I.
  - apply (bool_decide_unpack _). vm_compute. exact I.
  - apply (Forall_forall (fun tool => is_Some (ToolScope tool))).
    apply (bool_decide_unpack _). vm_compute. exact I.
Qed.

(** * The remote policy of the MCP server

    Source: internal/mcpserver/remote_policy.go and error_category.go.  The middleware
    around every request of a remote client: the principal, the scope of the tool, the NAS
    it names, the confirmation of a high-risk change, the audit event and the request for
    approval.  A handler is a function on the gateway's and the client's state; a handler
    answers with a result and an error, both of which the middleware reads.

    The SDK's requests and results are records of what the middleware reads of them;
    [SetError] and the confirmation dialog are the class [SDK]. *)

(** ** The SDK's values *)

Inductive mcp_error :=
| MService (e : service_error)
| MText (msg : string)
| MWrap (msg : string) (e : mcp_error).

(** [errors.Is(err, remotepolicy.ErrInteractiveApprovalRequired)] *)
Fixpoint is_interactive (e : mcp_error) : bool :=
  match e with
  | MService e =>
      match root_cause e with EGateway ErrInteractiveApprovalRequired => true | _ => false end
  | MWrap _ e => is_interactive e
  | _ => false
  end.

(** [StructuredContent]: absent, not encodable, or the value of its JSON text. *)
Inductive structured := NoContent | NotEncodable | Content (v : json).

(** A text of [None] is a content item of another type. *)
Record CallToolResult := {
  cr_IsError : bool;
  cr_GetError : option mcp_error;
  cr_Content : list (option string);
  cr_Structured : structured
}.

(** [CallResult None] is a nil [*CallToolResult] in a non-nil interface. *)
Inductive Result :=
| ListToolsResult (tools : list string)
| CallResult (r : option CallToolResult)
| OtherResult.

Inductive mcp_params :=
| CallToolParams (name : string) (arguments : RawMessage)
| OtherParams.

(** [TokenInfo]: the user id, and the principal when the extra value is one. *)
Record TokenInfo := { ti_UserID : string; ti_Principal : option Principal }.

Record mcp_request := {
  mq_Params : mcp_params;
  mq_TokenInfo : option TokenInfo;
  (** the id of the server session, [None] for a nil or foreign session *)
  mq_Session : option string
}.

Record ElicitResult := { er_Action : string; er_Approve : option json }.

(** [remotepolicy.Auditor]; [au_Record] is there when it is also an
    [ApprovalRequestRecorder]. *)
Record Auditor := {
  au_AppendAudit : context → AuditEvent → GW ();
  au_Record : option (context → PendingApprovalRequest → GW ())
}.

(** ** Stateful code without an error of its own *)

Definition HM (W A : Type) : Type := gworld * dstate W → A * (gworld * dstate W).
#[global] Instance HM_ret W : MRet (HM W) := fun A a s => (a, s).
#[global] Instance HM_bind W : MBind (HM W) := fun A B k m s => let '(a, s) := m s in k a s.

Abbreviation answered := (Result * option mcp_error)%type.
Definition handler (W : Type) : Type := context → string → mcp_request → HM W answered.

Class SDK (W : Type) := {
  sdk_SetError : CallToolResult → mcp_error → CallToolResult;
  (** show a message in a session and wait for the form *)
  sdk_Elicit : context → string → string → HM W (result mcp_error (option ElicitResult))
}.

(** ** Decoding what the middleware reads *)

Record planTarget := {
  pt_NAS : string;
  pt_ProfileRevision : Z;
  pt_SourceNAS : string;
  pt_SourceProfileRevision : Z;
  pt_DestNAS : string;
  pt_Hash : string;
  pt_Risk : string;
  pt_Summary : list string
}.

Record remoteToolTarget := {
  tt_NAS : string;
  tt_SourceNAS : string;
  tt_DestNAS : string;
  tt_URL : string;
  tt_Plan : planTarget
}.

Record remotePlanResult := { rr_Plan : planTarget; rr_ResourceID : string }.

Definition zero_plan_target : planTarget := {|
  pt_NAS := ""; pt_ProfileRevision := 0; pt_SourceNAS := ""; pt_SourceProfileRevision := 0;
  pt_DestNAS := ""; pt_Hash := ""; pt_Risk := ""; pt_Summary := [] |}.
Definition zero_target : remoteToolTarget := {|
  tt_NAS := ""; tt_SourceNAS := ""; tt_DestNAS := ""; tt_URL := "";
  tt_Plan := zero_plan_target |}.

Section decode.
Context `{Unicode}.

(** The fields of a plan; [dest] decodes the one that only the arguments have. *)
Definition decode_plan (m : object) (dest : option string) : option planTarget :=
  nas ← string_field m "nas"; revision ← uint_field m "profile_revision";
  source ← string_field m "source_nas";
  source_revision ← uint_field m "source_profile_revision";
  dest ← dest; hash ← string_field m "hash"; risk ← string_field m "risk";
  summary ← strings_field m "summary";
  Some {| pt_NAS := nas; pt_ProfileRevision := revision; pt_SourceNAS := source;
          pt_SourceProfileRevision := source_revision; pt_DestNAS := dest; pt_Hash := hash;
          pt_Risk := risk; pt_Summary := summary |}.

Definition decode_target (arguments : RawMessage) : option remoteToolTarget :=
  match arguments with
  | None | Some JNull => Some zero_target
  | Some (JObject m) =>
      nas ← string_field m "nas"; source ← string_field m "source_nas";
      dest ← string_field m "dest_nas"; url ← string_field m "url";
      p ← object_field m "plan";
      plan ← decode_plan p (string_field p "dest_nas");
      Some {| tt_NAS := nas; tt_SourceNAS := source; tt_DestNAS := dest; tt_URL := url;
              tt_Plan := plan |}
  | Some _ => None
  end.

Definition decode_plan_result (v : json) : option remotePlanResult :=
  match v with
  | JNull => Some {| rr_Plan := zero_plan_target; rr_ResourceID := "" |}
  | JObject m =>
      p ← object_field m "plan";
      plan ← decode_plan p (Some "");
      references ← object_field p "references";
      resource ← string_field references "resource_id";
      Some {| rr_Plan := plan; rr_ResourceID := resource |}
  | _ => None
  end.
End decode.

(** ** The principal *)

(** The context with the principal of the verified token, or the context's own. *)
Definition currentRemotePrincipal (ctx : context) (request : mcp_request) :
    context * option Principal :=
  match mq_TokenInfo request with
  | Some info =>
      match ti_Principal info with
      | Some principal =>
          if bool_decide (pp_TokenID principal = "")
             || negb (bool_decide (pp_TokenID principal = ti_UserID info))
          then (ctx, None)
          else (WithPrincipal ctx principal, Some principal)
      | None => (ctx, None)
      end
  | None => (ctx, PrincipalFromContext ctx)
  end.

(** ** Confirmation of a high-risk change *)

Definition interactiveApprovalRequired (r : option CallToolResult) : bool :=
  match r with
  | None => false
  | Some r =>
      cr_IsError r
      && (match cr_GetError r with Some e => is_interactive e | None => false end
          || existsb (fun t => bool_decide
               (t = Some "interactive approval is required for this exact high-risk plan"))
               (cr_Content r))
  end.

Definition ellipsis : string := of_bytes [226; 128; 166].
Definition newline : string := of_bytes [10].

(** [s[:n]] when [s] is longer, in bytes. *)
Definition clip (n : Z) (suffix s : string) : string :=
  if n <? Z.of_nat (String.length s)
  then of_bytes (take (Z.to_nat n) (bytes s)) +:+ suffix else s.

Definition highRiskApprovalMessage (nas planHash : string) (summary : list string) : string :=
  let items := take 4 (base.filter (fun s => s ≠ "") (TrimSpace <$> summary)) in
  let change := if bool_decide (items = []) then "No summary was provided."
                else Join items "; " in
  "High-risk NAS change" +:+ newline +:+ newline +:+ "NAS: " +:+ nas +:+ newline +:+
  "Change: " +:+ clip 1200 ellipsis change +:+ newline +:+
  "Plan: " +:+ clip 12 "" planHash +:+ newline +:+ newline +:+
  "Confirm only if this is the exact change you requested. Approval applies to this call only.".

(** The NAS and the revision a plan binds an approval to. *)
Definition approval_binding (p : planTarget) : string * Z :=
  if bool_decide (pt_NAS p = "") then (pt_SourceNAS p, pt_SourceProfileRevision p)
  else (pt_NAS p, pt_ProfileRevision p).

Definition accepted (response : ElicitResult) : bool :=
  bool_decide (er_Action response = "accept")
  && match er_Approve response with Some (JBool b) => b | _ => false end.

Section policy.
Context `{Unicode, NetURL} {W : Type} `{SDK W}.
Context (srv : Service gworld W) (auditor : option Auditor).

Abbreviation M := (HM W).

Definition interactiveApprovalFailure (message : string) (e : mcp_error) : answered :=
  (CallResult (Some (sdk_SetError {| cr_IsError := false; cr_GetError := None;
     cr_Content := [Some message]; cr_Structured := NoContent |} e)), None).

(** The grant's flag is allocated in the gateway's store. *)
Definition with_grant (ctx : context) (session : string) (grant : InteractiveApprovalGrant) :
    M context := fun '(World db fl, d) =>
  let '(ctx, fl) := WithInteractiveApproval (WithMCPSessionID ctx session) grant fl in
  (ctx, (World db fl, d)).

Definition elicitHighRiskApproval (next : handler W) (ctx : context) (method : string)
    (request : mcp_request) (principal : Principal) (target : remoteToolTarget) :
    M answered :=
  match mq_Session request with
  | Some session =>
      if bool_decide (TrimSpace session = "") then
        mret (interactiveApprovalFailure "This MCP client cannot provide a session-bound confirmation."
          (MText "interactive high-risk approval requires a stateful MCP session"))
      else
      let plan := tt_Plan target in
      let '(nas, revision) := approval_binding plan in
      if bool_decide (nas = "") || (revision =? 0) || bool_decide (pt_Hash plan = "") then
        mret (interactiveApprovalFailure
          "The high-risk plan is missing approval-binding metadata."
          (MText "interactive high-risk approval metadata is incomplete"))
      else
      response ← sdk_Elicit ctx session
        (highRiskApprovalMessage nas (pt_Hash plan) (pt_Summary plan));
      match response with
      | Err e => mret (interactiveApprovalFailure
          "This MCP client could not show the high-risk confirmation."
          (MWrap "request interactive high-risk approval" e))
      | Ok None => mret (interactiveApprovalFailure
          "The MCP client returned an invalid high-risk confirmation."
          (MText "interactive high-risk approval returned no response"))
      | Ok (Some response) =>
          if negb (accepted response) then
            mret (interactiveApprovalFailure "High-risk change declined or cancelled."
              (MText "interactive high-risk approval was not accepted"))
          else
          ctx ← with_grant ctx session
            {| gr_TokenID := pp_TokenID principal; gr_SessionID := session; gr_NAS := nas;
               gr_ProfileRevision := revision; gr_PlanHash := pt_Hash plan; gr_used := None |};
          next ctx method request
      end
  | None =>
      mret (interactiveApprovalFailure "This MCP client cannot provide a session-bound confirmation."
        (MText "interactive high-risk approval requires a stateful MCP session"))
  end.

(** ** Audit and requests for approval *)

(** Run on the gateway's state; its error is dropped. *)
Definition ignoring_errors (m : GW ()) : M () := fun '(g, d) => ((), ((m g).2, d)).

Definition auditRemote (ctx : context) (principal : Principal) (tool nas outcome reason : string) :
    M () :=
  match auditor with
  | None => mret ()
  | Some a => ignoring_errors (au_AppendAudit a ctx {|
      ev_ID := ""; ev_Time := zeroTime; ev_CorrelationID := CorrelationID ctx;
      ev_ActorType := "mcp_token"; ev_ActorID := pp_TokenID principal;
      ev_Action := "mcp.tool"; ev_Tool := tool; ev_NAS := nas; ev_Outcome := outcome;
      ev_Reason := reason |})
  end.

(** The request for approval that the result of a plan gives. *)
Definition pending_request (principal : Principal) (tool : string) (r : CallToolResult) :
    option PendingApprovalRequest :=
  match cr_Structured r with
  | Content v =>
      value ← decode_plan_result v;
      let p := rr_Plan value in
      if negb (EqualFold (pt_Risk p) "high")
         || (pt_ProfileRevision p =? 0) && (pt_SourceProfileRevision p =? 0) then None else
      let '(nas, revision) := approval_binding p in
      Some {| pq_PlanHash := pt_Hash p; pq_NAS := nas; pq_ProfileRevision := revision;
              pq_RequestingTokenID := pp_TokenID principal; pq_Tool := tool;
              pq_Risk := pt_Risk p; pq_ResourceID := rr_ResourceID value;
              pq_Summary := Join (pt_Summary p) "; " |}
  | _ => None
  end.

Definition recordPendingApproval (ctx : context) (principal : Principal) (tool : string)
    (r : Result) : M () :=
  match a ← auditor; au_Record a, r with
  | Some record, CallResult (Some r) =>
      if cr_IsError r then mret () else
      match pending_request principal tool r with
      | Some request => ignoring_errors (record ctx request)
      | None => mret ()
      end
  | _, _ => mret ()
  end.

(** ** The middleware *)

Definition denied : answered := (OtherResult, Some (MService (EGateway ErrDenied))).

(** The outcome the audit event names. *)
Definition outcome_of (r : answered) : string :=
  match r with
  | (_, Some _) => "failure"
  | (CallResult (Some c), None) => if cr_IsError c then "failure" else "success"
  | _ => "success"
  end.

(** The NAS a call is about, and a second one it also reaches. *)
Definition call_target (name : string) (t : remoteToolTarget) : string * string :=
  let p := tt_Plan t in
  if HasPrefix name "apply_" then
    if bool_decide (name = "apply_snapshot_replication_create")
    then (pt_SourceNAS p, pt_DestNAS p) else (pt_NAS p, "")
  else if bool_decide (name = "plan_snapshot_replication_create")
  then (tt_SourceNAS t, tt_DestNAS t) else (tt_NAS t, "").

(** Devices that have no profile yet. *)
Definition unenrolled (name : string) : bool :=
  bool_decide (name = "provision_discovered_nas")
  || bool_decide (name = "install_discovered_nas").

Definition needs_target (name nas : string) : bool :=
  negb (bool_decide (name = "list_nas")) && negb (bool_decide (name = "discover_lan_devices"))
  && negb (bool_decide (name = "get_auth_status") && bool_decide (nas = "")).

Definition resolve_target (ctx : context) (requested : string) : M (result service_error string) :=
  AuthorizeRemoteTarget srv ctx requested.

(** The refusal of a call, or the resolved NAS. *)
Definition authorize_call (ctx : context) (principal : Principal)
    (name nas secondaryNAS : string) : M (result answered string) :=
  let audit_denied nas := auditRemote ctx principal name nas "denied" "denied" in
  if needs_target name nas then
    if bool_decide (TrimSpace nas = "") then
      audit_denied "";;
      mret (Err (OtherResult, Some (MText "remote MCP tool requires an explicit nas argument")))
    else
      resolved ← resolve_target ctx nas;
      match resolved with
      | Err _ => audit_denied "";; mret (Err denied)
      | Ok nas =>
          if bool_decide (TrimSpace secondaryNAS = "") then mret (Ok nas) else
          secondary ← resolve_target ctx secondaryNAS;
          match secondary with
          | Err _ => audit_denied nas;; mret (Err denied)
          | Ok _ => mret (Ok nas)
          end
      end
  else if negb (bool_decide (nas = "")) && negb (AllowsNAS principal nas)
  then audit_denied "";; mret (Err denied)
  else mret (Ok nas).

Definition scope_held (principal : Principal) (name : string) : bool :=
  match ToolScope name with Some scope => HasScope principal scope | None => false end.

(** The calls of an authorised caller: confirmation, request for approval, audit. *)
Definition dispatch (next : handler W) (ctx : context) (method : string)
    (request : mcp_request) (principal : Principal) (name nas : string)
    (target : remoteToolTarget) : M answered :=
  r ← next ctx method request;
  r ← match r.1 with
      | CallResult c =>
          if interactiveApprovalRequired c
          then elicitHighRiskApproval next ctx method request principal target
          else mret r
      | _ => mret r
      end;
  (if bool_decide (outcome_of r = "success") && HasPrefix name "plan_"
      && negb (bool_decide (pp_ApprovalMode principal = ApprovalModeInteractive))
   then recordPendingApproval ctx principal name r.1 else mret ());;
  auditRemote ctx principal name nas (outcome_of r) "";;
  mret r.

Definition call_tool (next : handler W) (ctx : context) (method : string)
    (request : mcp_request) (principal : Principal) (name : string) (arguments : RawMessage) :
    M answered :=
  if negb (scope_held principal name) then
    auditRemote ctx principal name "" "denied" "denied";; mret denied
  else
  match decode_target arguments with
  | None => next ctx method request
  | Some target =>
      let '(nas, secondaryNAS) := call_target name target in
      if unenrolled name then
        r ← next ctx method request;
        auditRemote ctx principal name (tt_URL target) (outcome_of r) "";;
        mret r
      else
      authorized ← authorize_call ctx principal name nas secondaryNAS;
      match authorized with
      | Err refusal => mret refusal
      | Ok nas => dispatch next ctx method request principal name nas target
      end
  end.

(** The tools a listing shows. *)
Definition visible (principal : Principal) (r : answered) : answered :=
  match r with
  | (ListToolsResult tools, None) =>
      (ListToolsResult (base.filter (fun t => scope_held principal t = true) tools), None)
  | _ => r
  end.

Definition remotePolicyMiddleware (next : handler W) : handler W :=
  fun ctx method request =>
  let '(ctx, remote) := currentRemotePrincipal ctx request in
  match remote with
  | None => mret denied
  | Some principal =>
      if bool_decide (method = "tools/list") then
        r ← next ctx method request; mret (visible principal r)
      else if negb (bool_decide (method = "tools/call")) then next ctx method request
      else
      match mq_Params request with
      | OtherParams => mret denied
      | CallToolParams name arguments =>
          call_tool next ctx method request principal name arguments
      end
  end.
End policy.

(** ** The category of a failed call *)

(** [synology.Classify] of the error, and its text. *)
Class ErrorView := { classify_mcp : option mcp_error → string; error_text : mcp_error → string }.

Definition toolErrorMessage `{ErrorView} (r : CallToolResult) (e : option mcp_error) : string :=
  match e with
  | Some e => error_text e
  | None => default "" (t ← find_first (fun t => match t with
                                                 | Some s => negb (bool_decide (s = ""))
                                                 | None => false end) (cr_Content r); t)
  end.

Definition categoryErrorMiddleware `{ErrorView} {W} (next : handler W) : handler W :=
  fun ctx method request =>
  r ← next ctx method request;
  mret match r with
       | (CallResult (Some c), None) =>
           if bool_decide (method = "tools/call") && cr_IsError c then
             (CallResult (Some {|
                cr_IsError := true; cr_GetError := cr_GetError c; cr_Content := cr_Content c;
                cr_Structured := Content (JObject
                  [("category", JString (classify_mcp (cr_GetError c)));
                   ("message", JString (toolErrorMessage c (cr_GetError c)))]) |}), None)
           else r
       | _ => r
       end.
