(* ===== verification/Policy.v ===== *)
(** * MCP tokens, approvals and the audit log

    Source: internal/gateway/state/policy.go.  One definition per method of the
    repository; the body given to [db.Update] is a computation in the transaction monad.

    Readings of the environment are arguments, in the order the code makes them: [now]
    is [r.now().UTC()], [wall] is [time.Now().UTC()], [raw], [rid] and the like are the
    results of [randomToken] and [randomID].  crypto/rand does not fail since Go 1.24
    and JSON encoding of these records does not fail, so those error branches have no
    counterpart.  Texts of formatted errors omit the arguments. *)

From S2P Require Import Prelude.
From S2P Require Import GoStrings.
From S2P Require Import Bolt.
From S2P Require Import RemotePolicy.
From S2P Require Import StateTypes.
From S2P Require Import Records.

(** [sha256.Sum256] on the bytes of a string. *)
Class Sha256 := sha256 : string → string.

(** ** Token inputs *)

Definition has_control (s : string) : bool :=
  existsb (fun c => (c <? 32) || (c =? 127)) (string_runes s).

Definition normalizeMCPTokenInput (input : MCPTokenInput) (now : Z) :
    result error MCPTokenInput :=
  let name := TrimSpace (ti_Name input) in
  if bool_decide (name = "") || (MaxMCPTokenNameBytes <? slen name)
  then Err (ErrNew "token name must be 1 to 64 bytes") else
  if has_control name
  then Err (ErrNew "token name must not contain control characters") else
  let scopes := uniqueSorted
    (match ti_Scopes input with [] => [ScopeRead] | l => l end) in
  let allow := uniqueSorted (ti_NASAllowlist input) in
  let mode0 := TrimSpace (ti_ApprovalMode input) in
  let mode := if bool_decide (mode0 = "") then ApprovalModeInteractive else mode0 in
  if negb (bool_decide (mode = ApprovalModeInteractive)
           || bool_decide (mode = ApprovalModeAdministrator))
  then Err (ErrNew "approval_mode must be interactive or administrator") else
  if negb (forallb (fun s => bool_decide (s ∈ validScopes)) scopes)
  then Err (ErrNew "unsupported scope") else
  match ti_ExpiresAt input with
  | Some e =>
      if negb (now <? e) then Err (ErrNew "expires_at must be in the future") else
      Ok {| ti_Name := name; ti_Scopes := scopes; ti_NASAllowlist := allow;
            ti_ExpiresAt := Some e; ti_ApprovalMode := mode |}
  | None =>
      Ok {| ti_Name := name; ti_Scopes := scopes; ti_NASAllowlist := allow;
            ti_ExpiresAt := None; ti_ApprovalMode := mode |}
  end.

(** ** Audit log *)

Definition safe_reasons : list string :=
  [""; "authorized"; "denied"; "success"; "failure"; "invalid_token"; "expired";
   "revoked"; "rate_limited"; "approval_required"; "storage_failure"].
Definition safeAuditReason (reason : string) : string :=
  if bool_decide (reason ∈ safe_reasons) then reason else "failure".

(** The eight big-endian bytes of [uint64(t.UnixNano())], then the event id. *)
Definition audit_key (t : Z) (id : string) : string :=
  of_bytes (be_bytes 8 (u64_wrap t)) +:+ id.

(** The pruning loop: [l] lists the remaining entries in cursor order, [start] is the
    number of keys at the start of the transaction. *)
Fixpoint audit_prune `{KeyN} (start cutoff : Z) (l : list (string * stored AuditEvent))
    (b : bucket AuditEvent) : bucket AuditEvent :=
  match l with
  | [] => b
  | (k, v) :: l =>
      match unmarshal v with
      | None => b
      | Some oldest =>
          if negb (ev_Time oldest <? cutoff) && (keyN start (count b) <=? maxAuditEvents)
          then b
          else audit_prune start cutoff l (delete k b)
      end
  end.

Definition normalize_event (wall : Z) (rid : string) (e : AuditEvent) : AuditEvent := {|
  ev_ID := if bool_decide (ev_ID e = "") then rid else ev_ID e;
  ev_Time := if IsZero (ev_Time e) then wall else ev_Time e;
  ev_CorrelationID := ev_CorrelationID e; ev_ActorType := ev_ActorType e;
  ev_ActorID := ev_ActorID e; ev_Action := ev_Action e; ev_Tool := ev_Tool e;
  ev_NAS := ev_NAS e; ev_Outcome := ev_Outcome e;
  ev_Reason := safeAuditReason (ev_Reason e)
|}.

Definition audit_append `{KeyN} (start wall : Z) (rid : string) (e : AuditEvent)
    (b : bucket AuditEvent) : bucket AuditEvent :=
  let e' := normalize_event wall rid e in
  let b1 := <[audit_key (ev_Time e') (ev_ID e') := Json e']> b in
  audit_prune start (wall - auditRetention) (entries b1) b1.

(** [start]: the number of audit keys at the start of the transaction. *)
Definition appendAuditTx `{KeyN} (start wall : Z) (rid : string) (e : AuditEvent) : GW () :=
  modifyDB (fun d => set_b_audit (audit_append start wall rid e (b_audit d)) d).

Definition AppendAudit `{KeyN} (ctx : context) (auditFailure : option error)
    (wall : Z) (rid : string) (e : AuditEvent) : GW () :=
  ctx_check ctx;;
  match auditFailure with Some err => fail err | None => mret () end;;
  Update (d ← getDB; appendAuditTx (count (b_audit d)) wall rid e).

Definition audit_query_match (q : AuditQuery) (e : AuditEvent) : bool :=
  (IsZero (aq_After q) || (aq_After q <? ev_Time e))
  && (bool_decide (aq_ActorID q = "") || bool_decide (ev_ActorID e = aq_ActorID q))
  && (bool_decide (aq_Action q = "") || bool_decide (ev_Action e = aq_Action q)).

(** The cursor walk, newest first, until [limit] events are collected. *)
Fixpoint audit_collect (q : AuditQuery) (limit : nat)
    (l : list (string * stored AuditEvent)) : option (list AuditEvent) :=
  match limit, l with
  | O, _ | _, [] => Some []
  | S limit', (_, v) :: l =>
      e ← unmarshal v;
      if audit_query_match q e
      then es ← audit_collect q limit' l; Some (e :: es)
      else audit_collect q limit l
  end.

Definition audit_limit (q : AuditQuery) : Z :=
  if (aq_Limit q <=? 0) || (1000 <? aq_Limit q) then 100 else aq_Limit q.

Definition AuditEvents (ctx : context) (q : AuditQuery) : GW (list AuditEvent) :=
  ctx_check ctx;;
  View (fun d =>
    match audit_collect q (Z.to_nat (audit_limit q)) (reverse (entries (b_audit d))) with
    | Some es => Ok es | None => Err ErrDecode
    end).

Definition AuditExport (ctx : context) : GW (list AuditEvent) :=
  ctx_check ctx;;
  View (fun d =>
    match ForEach (b_audit d) with
    | Some es => Ok es.*2 | None => Err ErrDecode
    end).

(** ** Token operations *)

(** The orders the listings are sorted by. *)
Definition created_le (x y : MCPToken) : Prop := tk_CreatedAt x ≤ tk_CreatedAt y.
Definition approval_created_ge (x y : Approval) : Prop := ap_CreatedAt y ≤ ap_CreatedAt x.
Definition pending_created_ge (x y : PendingApproval) : Prop :=
  pa_CreatedAt y ≤ pa_CreatedAt x.
#[global] Instance created_le_dec : RelDecision created_le.
Proof. intros x y. unfold created_le. apply _. Defined.
#[global] Instance approval_created_ge_dec : RelDecision approval_created_ge.
Proof. intros x y. unfold approval_created_ge. apply _. Defined.
#[global] Instance pending_created_ge_dec : RelDecision pending_created_ge.
Proof. intros x y. unfold pending_created_ge. apply _. Defined.

Section ops.
Context `{Sha256}.

Record IssuedMCPToken := {
  is_Token : MCPToken;
  is_BearerToken : string
}.

Definition newMCPTokenRecord (input : MCPTokenInput) (now : Z) (rtok rid : string) :
    string * mcpTokenRecord :=
  let raw := mcpTokenPrefix +:+ rtok in
  (raw,
   {| tr_MCPToken :=
        {| tk_ID := rid; tk_Name := ti_Name input; tk_AuthMode := "";
           tk_ApprovalMode := ti_ApprovalMode input; tk_OAuthClientID := "";
           tk_Scopes := ti_Scopes input; tk_NASAllowlist := ti_NASAllowlist input;
           tk_CreatedAt := now; tk_UpdatedAt := now;
           tk_ExpiresAt := ti_ExpiresAt input; tk_RevokedAt := None;
           tk_LastUsedAt := None |};
      tr_Digest := sha256 raw |}).

Definition CreateMCPToken (ctx : context) (input : MCPTokenInput) (now1 now2 : Z)
    (rtok rid : string) : GW IssuedMCPToken :=
  ctx_check ctx;;
  input ← lift (normalizeMCPTokenInput input now1);
  let '(raw, record) := newMCPTokenRecord input now2 rtok rid in
  Update (putMCPTokenRecord record);;
  mret {| is_Token := tr_MCPToken record; is_BearerToken := raw |}.

(** [sort.Slice] by creation time; ties keep key order here, any order in Go. *)
Definition MCPTokens (ctx : context) : GW (list MCPToken) :=
  ctx_check ctx;;
  View (fun d =>
    match ForEach (b_mcp_tokens d) with
    | None => Err ErrDecode
    | Some l =>
        Ok (merge_sort created_le
             ((fun p => match decodeMCPToken (Json p.2) with
                        | Ok r => tr_MCPToken r | Err _ => tr_MCPToken p.2 end) <$> l))
    end).

Definition GetMCPToken (ctx : context) (id : string) : GW MCPToken :=
  ctx_check ctx;;
  View (fun d => r ← readMCPToken d id; Ok (tr_MCPToken r)).

Definition RotateMCPToken (ctx : context) (id : string) (now : Z) (rtok : string) :
    GW IssuedMCPToken :=
  ctx_check ctx;;
  let raw := mcpTokenPrefix +:+ rtok in
  token ← Update (
    d ← getDB;
    record ← lift (readMCPToken d id);
    check (bool_decide (tk_RevokedAt (tr_MCPToken record) = None))
      (ErrNew "revoked MCP token cannot be rotated");;
    delete_digest (tr_Digest record);;
    deleteOAuthRefreshTokensForMCPToken (tr_ID record);;
    let record := upd_tr (set_tk_UpdatedAt now) (set_tr_Digest (sha256 raw) record) in
    put_token id record;;
    put_digest (sha256 raw) id;;
    mret (tr_MCPToken record));
  mret {| is_Token := token; is_BearerToken := raw |}.

(** *** Pending approval requests of a token *)

Definition requests_of_token (tokenID : string) (p : PendingApproval) : bool :=
  bool_decide (pa_RequestingTokenID p = tokenID).
Definition requests_of_plan (hash tokenID : string) (p : PendingApproval) : bool :=
  bool_decide (pa_PlanHash p = hash) && bool_decide (pa_RequestingTokenID p = tokenID).
Definition request_expired (now : Z) (p : PendingApproval) : bool :=
  negb (now <? pa_ExpiresAt p).

(** Delete every request satisfying [f]; a garbled request is an error. *)
Definition delete_requests (f : PendingApproval → bool) : GW () :=
  d ← getDB;
  foreach (b_approval_requests d);;
  modifyDB (fun d => set_b_approval_requests
    (delete_keys (keys_where f (b_approval_requests d)) (b_approval_requests d)) d).

Definition deleteMatchingApprovalRequests (hash tokenID : string) : GW () :=
  delete_requests (requests_of_plan hash tokenID).
Definition deletePendingApprovalsForToken (tokenID : string) : GW () :=
  delete_requests (requests_of_token tokenID).
Definition prunePendingApprovals (now : Z) : GW () :=
  delete_requests (request_expired now).

(** *** Revocation and expiry *)

Definition changeMCPToken (ctx : context) (id : string)
    (change : MCPToken → Z → MCPToken) (now : Z) : GW MCPToken :=
  ctx_check ctx;;
  Update (
    d ← getDB;
    record ← lift (readMCPToken d id);
    let record := upd_tr (fun t => set_tk_UpdatedAt now (change t now)) record in
    put_token id record;;
    match tk_RevokedAt (tr_MCPToken record) with
    | Some _ => deletePendingApprovalsForToken (tr_ID record)
    | None => mret ()
    end;;
    deleteOAuthRefreshTokensForMCPToken (tr_ID record);;
    mret (tr_MCPToken record)).

Definition revoke_change (t : MCPToken) (now : Z) : MCPToken :=
  match tk_RevokedAt t with None => set_tk_RevokedAt (Some now) t | Some _ => t end.

Definition RevokeMCPToken (ctx : context) (id : string) (now : Z) : GW MCPToken :=
  changeMCPToken ctx id revoke_change now.

Definition ExpireMCPToken (ctx : context) (id : string) (expiresAt now : Z) :
    GW MCPToken :=
  check (negb (IsZero expiresAt)) (ErrNew "expires_at is required");;
  changeMCPToken ctx id (fun t _ => set_tk_ExpiresAt (Some expiresAt) t) now.

(** *** Authentication *)

Definition AuthenticateMCPToken (ctx : context) (raw : string) (now : Z) : GW Principal :=
  ctx_check ctx;;
  check (HasPrefix raw mcpTokenPrefix && (slen mcpTokenPrefix + 32 <=? slen raw))
    ErrTokenUnauthorized;;
  mask ErrTokenUnauthorized (Update (
    d ← getDB;
    let id := default "" (b_token_digests d !! sha256 raw) in
    check (negb (bool_decide (id = ""))) ErrTokenUnauthorized;;
    record ← mask ErrTokenUnauthorized (lift (readMCPToken d id));
    lift (validateActiveToken record now);;
    let record := upd_tr (set_tk_LastUsedAt (Some now)) record in
    put_token (tr_ID record) record;;
    mret (principalFor (tr_MCPToken record)))).
End ops.

(** ** Approvals *)

Definition validateApprovalInput (input : ApprovalInput) (administrator : string) :
    result error () :=
  if negb (slen (ai_PlanHash input) =? 64) || negb (all_hex (ai_PlanHash input))
  then Err (ErrNew "plan_hash must be a SHA-256 hash") else
  if bool_decide (ai_NAS input = "") || bool_decide (ai_RequestingTokenID input = "")
  then Err (ErrNew "NAS and requesting_token_id are required") else
  if bool_decide (administrator = "")
  then Err (ErrNew "administrator identity is required") else
  if (ai_TTL input <? 0) || (DefaultApprovalTTL <? ai_TTL input)
  then Err (ErrNew "approval TTL must be at most 10m0s") else
  Ok ().

(** The first approval in key order that satisfies [f], with a non-empty id. *)
Definition scan_approvals (f : Approval → bool) (d : DB) : result error (option Approval) :=
  match scan f (entries (b_approvals d)) with
  | None => Err ErrDecode
  | Some None => Ok None
  | Some (Some (_, a)) => Ok (if bool_decide (ap_ID a = "") then None else Some a)
  end.

(** Unconsumed, unexpired, and for exactly this plan, NAS, revision and token. *)
Definition approval_usable (tokenID nas : string) (revision : Z) (hash : string) (now : Z)
    (a : Approval) : bool :=
  bool_decide (ap_ConsumedAt a = None) && (now <? ap_ExpiresAt a)
  && bool_decide (ap_PlanHash a = hash) && bool_decide (ap_NAS a = nas)
  && (ap_ProfileRevision a =? revision) && bool_decide (ap_RequestingTokenID a = tokenID).

Definition existingApproval (d : DB) (input : ApprovalInput) (now : Z) :
    result error (option Approval) :=
  scan_approvals (approval_usable (ai_RequestingTokenID input) (ai_NAS input)
    (ai_ProfileRevision input) (ai_PlanHash input) now) d.

Definition findApproval (d : DB) (tokenID nas : string) (revision : Z) (hash : string)
    (now : Z) : result error (option Approval) :=
  scan_approvals (fun a => approval_usable tokenID nas revision hash now a
                           && negb (bool_decide (ap_Administrator a = ""))) d.

(** [(approval, created)] *)
Definition createApprovalTx (input : ApprovalInput) (administrator : string) (now : Z)
    (rid : string) : GW (Approval * bool) :=
  d ← getDB;
  profile ← lift (readProfile d (ai_NAS input));
  let input := if ai_ProfileRevision input =? 0
               then set_ai_ProfileRevision (pr_Revision profile) input else input in
  check (pr_Revision profile =? ai_ProfileRevision input)
    (ErrNew "NAS profile revision does not match");;
  token ← lift (readMCPToken d (ai_RequestingTokenID input));
  lift (validateActiveToken token now);;
  check (sliceContains (tk_Scopes (tr_MCPToken token)) ScopeApply
         && sliceContains (tk_NASAllowlist (tr_MCPToken token)) (ai_NAS input)) ErrDenied;;
  existing ← lift (existingApproval d input now);
  match existing with
  | Some a =>
      deleteMatchingApprovalRequests (ai_PlanHash input) (ai_RequestingTokenID input);;
      mret (a, false)
  | None =>
      let ttl := if ai_TTL input =? 0 then DefaultApprovalTTL else ai_TTL input in
      let approval := {|
        ap_ID := rid; ap_PlanHash := ai_PlanHash input; ap_NAS := ai_NAS input;
        ap_ProfileRevision := ai_ProfileRevision input;
        ap_RequestingTokenID := ai_RequestingTokenID input;
        ap_Administrator := administrator; ap_CreatedAt := now;
        ap_ExpiresAt := now + ttl; ap_ConsumedAt := None |} in
      put_approval rid approval;;
      deleteMatchingApprovalRequests (ai_PlanHash input) (ai_RequestingTokenID input);;
      mret (approval, true)
  end.

Definition CreateApproval `{Unicode} (ctx : context) (input : ApprovalInput)
    (administrator : string) (now : Z) (rid : string) : GW Approval :=
  ctx_check ctx;;
  let input := {| ai_PlanHash := ToLower (TrimSpace (ai_PlanHash input));
                  ai_NAS := TrimSpace (ai_NAS input);
                  ai_ProfileRevision := ai_ProfileRevision input;
                  ai_RequestingTokenID := TrimSpace (ai_RequestingTokenID input);
                  ai_TTL := ai_TTL input |} in
  let administrator := TrimSpace administrator in
  lift (validateApprovalInput input administrator);;
  p ← Update (createApprovalTx input administrator now rid);
  mret p.1.

Definition Approvals (ctx : context) (includeConsumed : bool) : GW (list Approval) :=
  ctx_check ctx;;
  View (fun d =>
    match ForEach (b_approvals d) with
    | None => Err ErrDecode
    | Some l =>
        Ok (merge_sort approval_created_ge
             (base.filter (fun a => includeConsumed = true ∨ ap_ConsumedAt a = None) l.*2))
    end).

(** ** Pending approval requests *)

Definition validatePendingApproval (q : PendingApprovalRequest) : result error () :=
  if negb (slen (pq_PlanHash q) =? 64) || negb (all_hex (pq_PlanHash q))
  then Err (ErrNew "plan hash must be a SHA-256 hash") else
  if bool_decide (pq_NAS q = "") || (pq_ProfileRevision q =? 0)
     || bool_decide (pq_RequestingTokenID q = "") || bool_decide (pq_Tool q = "")
     || negb (bool_decide (pq_Risk q = "high")) || bool_decide (pq_Summary q = "")
  then Err (ErrNew "pending approval requires NAS, revision, token, tool, high risk, and summary")
  else
  if (64 <? slen (pq_NAS q)) || (64 <? slen (pq_RequestingTokenID q))
     || (128 <? slen (pq_Tool q)) || (256 <? slen (pq_ResourceID q))
     || (4096 <? slen (pq_Summary q))
  then Err (ErrNew "pending approval scalar exceeds its size limit") else
  Ok ().

(** The oldest request; ties keep the first in key order. *)
Definition older (acc : option (string * PendingApproval)) (p : string * PendingApproval) :
    option (string * PendingApproval) :=
  match acc with
  | None => Some p
  | Some q => if pa_CreatedAt p.2 <? pa_CreatedAt q.2 then Some p else Some q
  end.
Definition oldest_request (l : list (string * PendingApproval)) :
    option (string * PendingApproval) := fold_left older l None.

(** Each round deletes one request, so as many rounds as requests are enough. *)
Fixpoint bound_loop (fuel : nat) (b : bucket PendingApproval) :
    result error (bucket PendingApproval) :=
  match ForEach b with
  | None => Err ErrDecode
  | Some l =>
      match oldest_request l with
      | None => Ok b
      | Some (k, _) =>
          if Z.of_nat (length l) <=? MaxPendingApprovals then Ok b else
          match fuel with
          | O => Ok b
          | S fuel => bound_loop fuel (delete k b)
          end
      end
  end.
Definition boundPendingApprovals : GW () :=
  d ← getDB;
  b ← lift (bound_loop (size (b_approval_requests d)) (b_approval_requests d));
  modifyDB (set_b_approval_requests b).

Definition normalize_request `{Unicode} (q : PendingApprovalRequest) :
    PendingApprovalRequest := {|
  pq_PlanHash := ToLower (TrimSpace (pq_PlanHash q));
  pq_NAS := TrimSpace (pq_NAS q);
  pq_ProfileRevision := pq_ProfileRevision q;
  pq_RequestingTokenID := TrimSpace (pq_RequestingTokenID q);
  pq_Tool := TrimSpace (pq_Tool q);
  pq_Risk := ToLower (TrimSpace (pq_Risk q));
  pq_ResourceID := TrimSpace (pq_ResourceID q);
  pq_Summary := TrimSpace (pq_Summary q)
|}.

Definition RecordPendingApproval `{Unicode} (ctx : context) (input : PendingApprovalRequest)
    (now : Z) (rid : string) : GW () :=
  ctx_check ctx;;
  let input := normalize_request input in
  lift (validatePendingApproval input);;
  Update (
    prunePendingApprovals now;;
    d ← getDB;
    match scan (requests_of_plan (pq_PlanHash input) (pq_RequestingTokenID input))
               (entries (b_approval_requests d)) with
    | None => fail ErrDecode
    | Some current =>
        let id0 := match current with Some (_, p) => pa_ID p | None => "" end in
        let name0 := match current with Some (_, p) => pa_RequestingToken p | None => "" end in
        let id := if bool_decide (id0 = "") then rid else id0 in
        let request := {|
          pa_ID := id; pa_PlanHash := pq_PlanHash input; pa_NAS := pq_NAS input;
          pa_ProfileRevision := pq_ProfileRevision input;
          pa_RequestingTokenID := pq_RequestingTokenID input; pa_RequestingToken := name0;
          pa_Tool := pq_Tool input; pa_Risk := pq_Risk input;
          pa_ResourceID := pq_ResourceID input; pa_Summary := pq_Summary input;
          pa_CreatedAt := now; pa_ExpiresAt := now + PendingApprovalTTL |} in
        modifyDB (fun d => set_b_approval_requests
          (<[id := Json request]> (b_approval_requests d)) d);;
        boundPendingApprovals
    end).

Definition with_token_name (d : DB) (p : PendingApproval) : PendingApproval :=
  match readMCPToken d (pa_RequestingTokenID p) with
  | Ok t => set_pa_RequestingToken (tk_Name (tr_MCPToken t)) p
  | Err _ => p
  end.

Definition PendingApprovals (ctx : context) (now : Z) : GW (list PendingApproval) :=
  ctx_check ctx;;
  l ← Update (
    prunePendingApprovals now;;
    d ← getDB;
    l ← foreach (b_approval_requests d);
    mret (with_token_name d <$> l.*2));
  mret (merge_sort pending_created_ge l).

Definition ApprovePendingApproval `{KeyN} (ctx : context) (id administrator : string)
    (now wall : Z) (rid aid : string) : GW Approval :=
  ctx_check ctx;;
  let id := TrimSpace id in
  let administrator := TrimSpace administrator in
  check (negb (bool_decide (id = "") || bool_decide (administrator = "")))
    (ErrNew "approval request and administrator are required");;
  Update (
    d ← getDB;
    match b_approval_requests d !! id with
    | None => fail (ErrNotFound "pending approval")
    | Some Garbled => fail ErrDecode
    | Some (Json request) =>
        if negb (now <? pa_ExpiresAt request) then
          modifyDB (fun d => set_b_approval_requests
            (delete id (b_approval_requests d)) d);;
          fail (ErrNotFound "pending approval expired")
        else
          p ← createApprovalTx
            {| ai_PlanHash := pa_PlanHash request; ai_NAS := pa_NAS request;
               ai_ProfileRevision := pa_ProfileRevision request;
               ai_RequestingTokenID := pa_RequestingTokenID request; ai_TTL := 0 |}
            administrator now rid;
          appendAuditTx (count (b_audit d)) wall aid
            {| ev_ID := ""; ev_Time := now; ev_CorrelationID := "";
               ev_ActorType := "gateway_admin"; ev_ActorID := administrator;
               ev_Action := "approval.request.approve"; ev_Tool := pa_Tool request;
               ev_NAS := pa_NAS request; ev_Outcome := "success"; ev_Reason := "" |};;
          mret p.1
    end).

Definition DismissPendingApproval (ctx : context) (id : string) : GW () :=
  ctx_check ctx;;
  let id := TrimSpace id in
  check (negb (bool_decide (id = ""))) (ErrNew "approval request is required");;
  Update (
    d ← getDB;
    check (bool_decide (is_Some (b_approval_requests d !! id)))
      (ErrNotFound "pending approval");;
    modifyDB (fun d => set_b_approval_requests (delete id (b_approval_requests d)) d)).

(** ** Admission of a remote apply *)

Definition consume_grant (g : InteractiveApprovalGrant) (tokenID sessionID nas : string)
    (revision : Z) (planHash : string) : GW bool := fun w =>
  let '(b, fl) := ConsumeMatches g tokenID sessionID nas revision planHash (w_rest w) in
  (Ok b, World (w_db w) fl).

Definition admit_event (now : Z) (ctx : context) (tokenID action nas outcome : string) :
    AuditEvent := {|
  ev_ID := ""; ev_Time := now; ev_CorrelationID := CorrelationID ctx;
  ev_ActorType := "mcp_token"; ev_ActorID := tokenID; ev_Action := action;
  ev_Tool := ""; ev_NAS := nas; ev_Outcome := outcome; ev_Reason := ""
|}.

(** The interactive branch: no administrator approval was found. *)
Definition admit_interactive `{KeyN} (ctx : context) (start : Z) (mode tokenID nas : string)
    (revision : Z) (planHash : string) (now wall : Z) (rid : string) : GW () :=
  check (bool_decide (mode = ApprovalModeInteractive)) ErrApprovalRequired;;
  match InteractiveApprovalFromContext ctx with
  | None => fail ErrInteractiveApprovalRequired
  | Some grant =>
      match MCPSessionID ctx with
      | None => fail ErrDenied
      | Some sessionID =>
          b ← consume_grant grant tokenID sessionID nas revision planHash;
          check b ErrDenied;;
          appendAuditTx start wall rid
            (admit_event now ctx tokenID "approval.interactive" nas "approved")
      end
  end.

Definition AdmitRemoteApply `{Unicode, KeyN} (ctx : context) (auditFailure : option error)
    (tokenID nas : string) (revision : Z) (planHash risk : string)
    (now wall : Z) (rid1 rid2 : string) : GW () :=
  ctx_check ctx;;
  match auditFailure with Some err => fail err | None => mret () end;;
  Update (
    d ← getDB;
    let start := count (b_audit d) in
    token ← mask ErrDenied (lift (readMCPToken d tokenID));
    mask ErrDenied (lift (validateActiveToken token now));;
    check (sliceContains (tk_Scopes (tr_MCPToken token)) ScopeApply
           && sliceContains (tk_NASAllowlist (tr_MCPToken token)) nas) ErrDenied;;
    check (match readProfile d nas with
           | Ok profile => pr_Revision profile =? revision
           | Err _ => false
           end) (ErrNew "NAS profile revision changed; create a new plan and approval");;
    (if EqualFold risk "high" then
       approved ← lift (findApproval d tokenID nas revision planHash now);
       match approved with
       | Some approval =>
           put_approval (ap_ID approval) (set_ap_ConsumedAt (Some now) approval)
       | None =>
           admit_interactive ctx start (tk_ApprovalMode (tr_MCPToken token))
             tokenID nas revision planHash now wall rid1
       end
     else mret ());;
    appendAuditTx start wall rid2
      (admit_event now ctx tokenID "apply.admit" nas "admitted")).

(** ** Schema migrations *)

(** The rewritten record, when the migration changes it.  The code puts records while it
    iterates over the bucket; the model rewrites the records of the bucket at the start. *)
Definition migrate_scopes (r : mcpTokenRecord) : option mcpTokenRecord :=
  let scopes := tk_Scopes (tr_MCPToken r) in
  if existsb (fun s => bool_decide (s = "nas.admin")) scopes
  then Some (upd_tr (set_tk_Scopes (uniqueSorted
         ((fun s => if bool_decide (s = "nas.admin") then ScopeLANDiscover else s) <$> scopes))) r)
  else None.

Definition migrate_mode (r : mcpTokenRecord) : option mcpTokenRecord :=
  if bool_decide (TrimSpace (tk_ApprovalMode (tr_MCPToken r)) = "")
  then Some (upd_tr (set_tk_ApprovalMode ApprovalModeAdministrator) r)
  else None.

Definition rewrite_tokens (f : mcpTokenRecord → option mcpTokenRecord) : GW () :=
  d ← getDB;
  foreach (b_mcp_tokens d);;
  modifyDB (fun d => set_b_mcp_tokens
    ((fun v => match v with
               | Json r => Json (default r (f r))
               | Garbled => Garbled
               end) <$> b_mcp_tokens d) d).

Definition migrateLANDiscoveryScope : GW () :=
  rewrite_tokens (fun r =>
    match decodeMCPToken (Json r) with Ok r' => migrate_scopes r' | Err _ => None end).

Definition migrateMCPApprovalMode : GW () := rewrite_tokens migrate_mode.
