(* ===== verification/Http.v ===== *)
(** * HTTP requests and the text formats of the gateway

    Parts of the packages net/http, net, strings and encoding/base64 that the handlers of
    internal/gateway use.  A request holds what the handlers read of it: header, query and
    form lookups are functions, since a missing key reads as the empty string.  Parsing a
    media type is the class [MIME]. *)

From S2P Require Import Prelude.
From S2P Require Import GoStrings.
From S2P Require Import RemotePolicy.
From S2P Require Import Password.
From S2P Require Import Json.

Record http_request := {
  rq_Method : string;
  rq_Path : string;
  rq_Header : string → string;
  rq_Query : string → string;
  (** [PostForm.Get] after [ParseForm]; [None] when parsing fails, which an overlong body
      makes it do *)
  rq_PostForm : option (string → string);
  rq_Cookie : string → option string;
  (** the first JSON value of the body, and whether nothing follows it *)
  rq_JSON : option (json * bool);
  (** [None] when reading the body fails *)
  rq_BodyLength : option Z;
  rq_ContentLength : Z;
  rq_Host : string;
  rq_RemoteAddr : string;
  rq_TLS : bool;
  rq_Context : context
}.

Definition with_context (ctx : context) (r : http_request) : http_request := {|
  rq_Method := rq_Method r; rq_Path := rq_Path r; rq_Header := rq_Header r;
  rq_Query := rq_Query r; rq_PostForm := rq_PostForm r; rq_Cookie := rq_Cookie r;
  rq_JSON := rq_JSON r; rq_BodyLength := rq_BodyLength r;
  rq_ContentLength := rq_ContentLength r; rq_Host := rq_Host r;
  rq_RemoteAddr := rq_RemoteAddr r; rq_TLS := rq_TLS r; rq_Context := ctx
|}.

(** [mime.ParseMediaType]: the media type of a valid header value. *)
Class MIME := ParseMediaType : string → option string.

(** ** [strings.Fields] *)

Definition flush (cur : list Z) : list (list Z) :=
  match cur with [] => [] | _ => [reverse cur] end.

Fixpoint fields_loop (cur : list Z) (l : list Z) : list (list Z) :=
  match l with
  | [] => flush cur
  | a :: l1 =>
      if space1 a then flush cur ++ fields_loop [] l1 else
      match l1 with
      | b :: l2 =>
          if space2 a b then flush cur ++ fields_loop [] l2 else
          match l2 with
          | c :: l3 =>
              if space3 a b c then flush cur ++ fields_loop [] l3
              else fields_loop (a :: cur) l1
          | [] => fields_loop (a :: cur) l1
          end
      | [] => fields_loop (a :: cur) l1
      end
  end.
Definition Fields (s : string) : list string := of_bytes <$> fields_loop [] (bytes s).

(** ** [net.SplitHostPort], the host *)

Definition last_index (x : Z) (l : list Z) : option nat :=
  match index_by (fun a => a =? x) (reverse l) with
  | Some i => Some (length l - 1 - i)%nat
  | None => None
  end.

Definition split_host (l : list Z) : option (list Z) :=
  let contains x l := bool_decide (x ∈ l) in
  match last_index 58 l with
  | None => None
  | Some i =>
      match l with
      | 91 :: _ =>
          match index_by (fun a => a =? 93) l with
          | None => None
          | Some e =>
              if bool_decide ((e + 1)%nat = i)
                 && negb (contains 91 (drop 1 l)) && negb (contains 93 (drop (e + 1) l))
              then Some (take (e - 1) (drop 1 l)) else None
          end
      | _ =>
          let host := take i l in
          if contains 58 host || contains 91 l || contains 93 l then None else Some host
      end
  end.
Definition SplitHostPort (s : string) : option string := of_bytes <$> split_host (bytes s).

(** ** package encoding/base64: RawURLEncoding *)

Definition url_char (c : Z) : Z := if c =? 43 then 45 else if c =? 47 then 95 else c.
Definition url_val (c : Z) : option Z :=
  if c =? 45 then Some 62 else if c =? 95 then Some 63
  else if (c =? 43) || (c =? 47) then None else b64_val c.

Definition RawURLEncode (s : string) : string := of_bytes (url_char <$> b64_encode (bytes s)).

(** Not strict: the unused bits of the last character are ignored. *)
Fixpoint url_decode (l : list Z) : option (list Z) :=
  match l with
  | [] => Some []
  | [_] => None
  | [w; x] => w ← url_val w; x ← url_val x; Some [w * 4 + x / 16]
  | [w; x; y] =>
      w ← url_val w; x ← url_val x; y ← url_val y;
      Some [w * 4 + x / 16; x mod 16 * 16 + y / 4]
  | w :: x :: y :: z :: l =>
      w ← url_val w; x ← url_val x; y ← url_val y; z ← url_val z;
      rest ← url_decode l;
      Some (w * 4 + x / 16 :: x mod 16 * 16 + y / 4 :: y mod 4 * 64 + z :: rest)
  end.
Definition RawURLDecode (s : string) : option string :=
  of_bytes <$> url_decode (base.filter (fun c => newline c = false) (bytes s)).

(** ** Lemmas *)

Lemma url_val_char v : 0 ≤ v < 64 → url_val (url_char (b64_char v)) = Some v ∧
  newline (url_char (b64_char v)) = false ∧ visible (url_char (b64_char v)) ∧
  url_char (b64_char v) ≠ 46.
Proof.
  intros Hv. unfold url_char, b64_char.
  destruct (v <? 26) eqn:E1; [|destruct (v <? 52) eqn:E2; [|destruct (v <? 62) eqn:E3;
    [|destruct (v =? 62) eqn:E4]]].
  all: unfold url_val, b64_val, newline, visible, in_range.
  all: repeat case_match; try lia; split; [f_equal; lia|split_and!; lia].
Qed.

(** Induction by threes. *)
Lemma threes_ind {A} (P : list A → Prop) :
  P [] → (∀ a, P [a]) → (∀ a b, P [a; b]) → (∀ a b c l, P l → P (a :: b :: c :: l)) → ∀ l, P l.
Proof.
  intros H0 H1 H2 H3.
  assert (∀ l, P l ∧ (∀ a, P (a :: l)) ∧ ∀ a b, P (a :: b :: l)) as H; [|intros l; apply H].
  induction l as [|c l (IH & IHa & IHab)]; auto.
Qed.

Lemma b64_chars l : Forall is_byte l →
  Forall (λ c, ∃ v, 0 ≤ v < 64 ∧ c = b64_char v) (b64_encode l) ∧
  url_decode (url_char <$> b64_encode l) = Some l.
Proof.
  assert (∀ v, 0 ≤ v < 64 → ∃ u, 0 ≤ u < 64 ∧ b64_char v = b64_char u) as Hc by eauto.
  induction l as [|a|a b|a b c l IH] using threes_ind; intros Hl.
  - by split.
  - apply Forall_cons in Hl as [Ha _]. unfold is_byte in Ha. cbn [b64_encode fmap list_fmap].
    assert (0 ≤ a / 4 < 64 ∧ 0 ≤ a mod 4 * 16 < 64) as [H1 H2] by (split; Z.to_euclidean_division_equations; lia).
    split; [repeat constructor; by apply Hc|]. cbn [url_decode].
    rewrite (proj1 (url_val_char _ H1)), (proj1 (url_val_char _ H2)). cbn. do 2 f_equal.
    Z.to_euclidean_division_equations; lia.
  - apply Forall_cons in Hl as [Ha [Hb _]%Forall_cons]. unfold is_byte in Ha, Hb.
    cbn [b64_encode fmap list_fmap].
    assert (0 ≤ a / 4 < 64 ∧ 0 ≤ a mod 4 * 16 + b / 16 < 64 ∧ 0 ≤ b mod 16 * 4 < 64)
      as (H1 & H2 & H3) by (split_and!; Z.to_euclidean_division_equations; lia).
    split; [repeat constructor; by apply Hc|]. cbn [url_decode].
    rewrite (proj1 (url_val_char _ H1)), (proj1 (url_val_char _ H2)),
      (proj1 (url_val_char _ H3)). cbn.
    f_equal. f_equal; [|f_equal]; Z.to_euclidean_division_equations; lia.
  - apply Forall_cons in Hl as [Ha [Hb [Hc' Hl]%Forall_cons]%Forall_cons].
    unfold is_byte in Ha, Hb, Hc'. destruct (IH Hl) as [IHc IHd].
    cbn [b64_encode fmap list_fmap].
    assert (0 ≤ a / 4 < 64 ∧ 0 ≤ a mod 4 * 16 + b / 16 < 64 ∧ 0 ≤ b mod 16 * 4 + c / 64 < 64 ∧
      0 ≤ c mod 64 < 64)
      as (H1 & H2 & H3 & H4) by (split_and!; Z.to_euclidean_division_equations; lia).
    split; [repeat constructor; first [by apply Hc|done]|]. cbn [url_decode].
    rewrite (proj1 (url_val_char _ H1)), (proj1 (url_val_char _ H2)),
      (proj1 (url_val_char _ H3)), (proj1 (url_val_char _ H4)).
    cbn [mbind option_bind]. cbn [fmap] in IHd. rewrite IHd. cbn.
    f_equal. f_equal; [|f_equal; [|f_equal]]; Z.to_euclidean_division_equations; lia.
Qed.

(** The characters of an encoding: printable, no line break and no dot. *)
Lemma RawURL_chars s :
  Forall (λ c, newline c = false ∧ visible c ∧ c ≠ 46) (bytes (RawURLEncode s)) ∧
  bytes (RawURLEncode s) = url_char <$> b64_encode (bytes s).
Proof.
  destruct (b64_chars (bytes s) (bytes_is_byte s)) as [Hc Hd].
  assert (Forall (λ c, newline c = false ∧ visible c ∧ c ≠ 46)
    (url_char <$> b64_encode (bytes s))) as Hf.
  { apply Forall_fmap. eapply Forall_impl; [exact Hc|]. intros c (v & Hv & ->).
    apply (url_val_char v Hv). }
  assert (bytes (RawURLEncode s) = url_char <$> b64_encode (bytes s)) as ->; [|by split].
  unfold RawURLEncode. apply bytes_of_bytes. eapply Forall_impl; [exact Hf|].
  intros c (_ & Hv & _). unfold visible, is_byte in *. lia.
Qed.

Lemma RawURL_roundtrip s : RawURLDecode (RawURLEncode s) = Some s.
Proof.
  destruct (RawURL_chars s) as [Hf Hb]. rewrite Hb in Hf. unfold RawURLDecode. rewrite Hb.
  assert (∀ l, Forall (λ c, newline c = false ∧ visible c ∧ c ≠ 46) l →
    base.filter (λ c, newline c = false) l = l) as Hfilter.
  { induction 1 as [|c l [Hn _] _ IH]; [done|]. by rewrite filter_cons_True, IH. }
  rewrite Hfilter by done. destruct (b64_chars (bytes s) (bytes_is_byte s)) as [_ ->]. cbn.
  by rewrite of_bytes_bytes.
Qed.
