(* ===== verification/TlsTrust.v ===== *)
(** * TLS trust: the credential-free preflight and the pinned connection

    Sources: internal/tlstrust/tlstrust.go, and httpClient of internal/runtime/manager.go.

    Packages crypto/x509 and crypto/tls appear as the class [X509] — chain and hostname
    verification — and as [handshake], the order in which a TLS client consults them and
    the caller's [VerifyConnection].  What servers present to successive dials is the class
    [Peers]; the state of [Probe] is the number of dials made.  Texts of times are the
    class [RFC3339]. *)

From S2P Require Import Prelude.
From S2P Require Import GoStrings.
From S2P Require Import NetIP.
From S2P Require Import RemotePolicy.
From S2P Require Import Config.
From S2P Require Import StateTypes.
From S2P Require Import Records.
From S2P Require Import Policy.

(** ** package encoding/hex *)

Fixpoint hex_bytes (l : list Z) : list Z :=
  match l with
  | [] => []
  | b :: l => hex_rune (b / 16) :: hex_rune (b mod 16) :: hex_bytes l
  end.
Definition hex_EncodeToString (s : string) : string := of_bytes (hex_bytes (bytes s)).

(** An odd length and a byte that is no digit are errors. *)
Fixpoint hex_values (l : list Z) : option (list Z) :=
  match l with
  | [] => Some []
  | [_] => None
  | a :: b :: l =>
      match hex_digit a, hex_digit b with
      | Some x, Some y => cons (x * 16 + y) <$> hex_values l
      | _, _ => None
      end
  end.
Definition hex_DecodeString (s : string) : option string := of_bytes <$> hex_values (bytes s).

(** ** Certificates, as crypto/x509 parses them *)

Record x509 := {
  xc_Raw : string;
  xc_Subject : string;             (** [Subject.String()] *)
  xc_Issuer : string;
  xc_RawSubject : string;
  xc_RawIssuer : string;
  xc_DNSNames : list string;
  xc_IPAddresses : list (list Z);
  xc_NotBefore : Z;
  xc_NotAfter : Z;
  xc_self_signature : bool         (** [leaf.CheckSignatureFrom(leaf) == nil] *)
}.

(** The errors of a dial that the package tells apart; the last one stands for all others. *)
Inductive net_error :=
| UnknownAuthorityError
| HostnameError
| CertificateInvalidError
| CertificateVerificationError (cause : net_error)
| PlainError (text : string).

Class X509 := {
  CertPool : Type;
  (** [None] is the system's pool, as a nil [RootCAs] *)
  VerifyChain : option CertPool → string → list x509 → option net_error;
  VerifyHostname : x509 → string → bool
}.
Class RFC3339 := format_rfc3339 : Z → string.
(** What the server at an address presents to the n-th dial. *)
Class Peers := peer : nat → string → result net_error (list x509).

(** ** package crypto/tls *)

Record tls_config `{X509} := {
  tc_ServerName : string;
  tc_RootCAs : option CertPool;
  tc_InsecureSkipVerify : bool;
  tc_VerifyConnection : option (list x509 → option string)
}.

(** The verification in a client's handshake: the chain unless it is skipped, and then
    [VerifyConnection]. *)
Definition handshake `{X509} (config : tls_config) (chain : list x509) : option net_error :=
  let verified :=
    if tc_InsecureSkipVerify config then None
    else CertificateVerificationError <$> VerifyChain (tc_RootCAs config) (tc_ServerName config) chain in
  match verified with
  | Some e => Some e
  | None => match tc_VerifyConnection config with
            | Some f => PlainError <$> f chain
            | None => None
            end
  end.

(** ** Fingerprints and endpoints *)

Section tlstrust.
Context `{Unicode, NetURL, Sha256, X509, RFC3339, Peers}.

Definition NormalizeFingerprint (value : string) : result string string :=
  let value := ToLower (RemoveByte (TrimSpace value) 58) in
  if bool_decide (value = "") then Ok "" else
  if negb (slen value =? 64)
  then Err "certificate fingerprint must be a SHA-256 fingerprint" else
  match hex_DecodeString value with
  | None => Err "certificate fingerprint must contain only hexadecimal characters"
  | Some _ => Ok value
  end.

Record tlsEndpoint := { te_scheme : string; te_host : string; te_address : string }.

(** [net.JoinHostPort] *)
Definition JoinHostPort (host port : string) : string :=
  if bool_decide (58 ∈ bytes host) then "[" +:+ host +:+ "]:" +:+ port
  else host +:+ ":" +:+ port.

Definition parseEndpoint (rawURL : string) : result string tlsEndpoint :=
  let refused := Err "NAS URL must be an absolute http or https URL" in
  match url_Parse (TrimSpace rawURL) with
  | None => refused
  | Some parsed =>
      if bool_decide (u_Hostname parsed = "")
         || negb (bool_decide (u_Scheme parsed = "http"))
            && negb (bool_decide (u_Scheme parsed = "https"))
      then refused
      else
        let port := if bool_decide (u_Port parsed = "")
                    then (if bool_decide (u_Scheme parsed = "https") then "443" else "80")
                    else u_Port parsed in
        Ok {| te_scheme := u_Scheme parsed; te_host := u_Hostname parsed;
              te_address := JoinHostPort (u_Hostname parsed) port |}
  end.

(** ** What a person is shown *)

Record Certificate := {
  ct_Fingerprint : string;
  ct_Subject : string;
  ct_Issuer : string;
  ct_DNSNames : list string;
  ct_IPAddresses : list string;
  ct_NotBefore : Z;
  ct_NotAfter : Z;
  ct_SelfSigned : bool
}.

Definition CodeTrustRequired : string := "certificate_trust_required".
Definition CodePinMismatch : string := "certificate_pin_mismatch".

Record TrustError := {
  te_Code : string;
  te_Certificate : Certificate;
  te_ExpectedFingerprint : string;
  te_ValidationWarnings : list string;
  te_cause : option net_error
}.

Definition TrustError_Error (e : option TrustError) : string :=
  match e with
  | None => "TLS certificate trust is required"
  | Some e =>
      if bool_decide (te_Code e = CodePinMismatch)
      then "TLS server certificate does not match the pinned SHA-256 fingerprint"
      else "TLS certificate did not pass normal verification"
  end.

(** The error of [Probe]: a plain one, one around the error of a dial, or an offer to trust. *)
Inductive probe_error :=
| ErrPlain (text : string)
| ErrVerify (host : string) (cause : net_error)
| ErrObserve (host : string) (cause : net_error)
| ErrTrust (e : TrustError).

Record Options := { op_RootCAs : option CertPool; op_Now : option Z }.

(** [errors.As] with the types of certificate verification. *)
Fixpoint as_unknownAuthority (e : net_error) : bool :=
  match e with
  | UnknownAuthorityError => true
  | CertificateVerificationError e => as_unknownAuthority e
  | _ => false
  end.
Definition isCertificateVerificationError (e : net_error) : bool :=
  match e with PlainError _ => false | _ => true end.

(** [appendWarning]: no message twice. *)
Definition appendWarning (message : string) (warnings : list string) : list string :=
  if decide (message ∈ warnings) then warnings else warnings ++ [message].

Definition quote (s : string) : string := chr 34 +:+ s +:+ chr 34.

(** [wall] is [time.Now()], used when the options give no clock. *)
Definition certificateWarnings (wall : Z) (host : string) (leaf : x509) (opts : Options)
    (verificationErr : option net_error) : list string :=
  let now := default wall (op_Now opts) in
  let when (b : bool) message warnings :=
    if b then appendWarning message warnings else warnings in
  let warnings :=
    when (now >? xc_NotAfter leaf)
      ("certificate expired at " +:+ format_rfc3339 (xc_NotAfter leaf))
    (when (now <? xc_NotBefore leaf)
      ("certificate is not valid before " +:+ format_rfc3339 (xc_NotBefore leaf))
    (when (negb (VerifyHostname leaf host))
      ("certificate does not match NAS address " +:+ quote host)
    (when (match verificationErr with Some e => as_unknownAuthority e | None => false end)
      "issuer is not trusted by the system CA store" []))) in
  when (bool_decide (warnings = []) && bool_decide (is_Some verificationErr))
    "certificate failed normal Web PKI verification" warnings.

Definition certificate_of (leaf : x509) : Certificate := {|
  ct_Fingerprint := hex_EncodeToString (sha256 (xc_Raw leaf));
  ct_Subject := xc_Subject leaf; ct_Issuer := xc_Issuer leaf;
  ct_DNSNames := xc_DNSNames leaf; ct_IPAddresses := ip_String <$> xc_IPAddresses leaf;
  ct_NotBefore := xc_NotBefore leaf; ct_NotAfter := xc_NotAfter leaf;
  ct_SelfSigned := bool_decide (xc_RawSubject leaf = xc_RawIssuer leaf) && xc_self_signature leaf
|}.

(** ** The preflight *)

(** The number of dials made so far. *)
Abbreviation M := (ST nat probe_error).

Definition dial (endpoint : tlsEndpoint) (config : tls_config) : M (result net_error (list x509)) :=
  fun n =>
    (Ok (match peer n (te_address endpoint) with
         | Err e => Err e
         | Ok chain => match handshake config chain with Some e => Err e | None => Ok chain end
         end), S n).

Definition observe (endpoint : tlsEndpoint) : M (Certificate * x509) :=
  connection ← dial endpoint {| tc_ServerName := te_host endpoint; tc_RootCAs := None;
    tc_InsecureSkipVerify := true; tc_VerifyConnection := None |};
  match connection with
  | Err e => fail (ErrObserve (te_host endpoint) e)
  | Ok [] => fail (ErrPlain "TLS peer did not provide a certificate")
  | Ok (leaf :: _) => mret (certificate_of leaf, leaf)
  end.

Definition lift_text {A} (r : result string A) : M A :=
  match r with Ok a => mret a | Err e => fail (ErrPlain e) end.

Definition ProbeWithOptions (wall : Z) (rawURL pinnedFingerprint : string) (opts : Options) :
    M () :=
  endpoint ← lift_text (parseEndpoint rawURL);
  if bool_decide (te_scheme endpoint = "http") then mret () else
  pin ← lift_text (NormalizeFingerprint pinnedFingerprint);
  if negb (bool_decide (pin = "")) then
    '(observed, leaf) ← observe endpoint;
    if negb (bool_decide (ct_Fingerprint observed = pin)) then
      fail (ErrTrust {| te_Code := CodePinMismatch; te_Certificate := observed;
        te_ExpectedFingerprint := pin;
        te_ValidationWarnings := certificateWarnings wall (te_host endpoint) leaf opts None;
        te_cause := None |})
    else mret ()
  else
    connection ← dial endpoint {| tc_ServerName := te_host endpoint;
      tc_RootCAs := op_RootCAs opts; tc_InsecureSkipVerify := false;
      tc_VerifyConnection := None |};
    match connection with
    | Ok _ => mret ()
    | Err e =>
        if negb (isCertificateVerificationError e) then fail (ErrVerify (te_host endpoint) e) else
        '(observed, leaf) ← observe endpoint;
        fail (ErrTrust {| te_Code := CodeTrustRequired; te_Certificate := observed;
          te_ExpectedFingerprint := "";
          te_ValidationWarnings := certificateWarnings wall (te_host endpoint) leaf opts (Some e);
          te_cause := Some e |})
    end.

Definition Probe (wall : Z) (rawURL pinnedFingerprint : string) : M () :=
  ProbeWithOptions wall rawURL pinnedFingerprint {| op_RootCAs := None; op_Now := None |}.

Definition Observe (rawURL : string) : M Certificate :=
  endpoint ← lift_text (parseEndpoint rawURL);
  if negb (bool_decide (te_scheme endpoint = "https"))
  then fail (ErrPlain "certificate observation requires an https URL") else
  '(certificate, _) ← observe endpoint; mret certificate.

(** ** Trust before a login, internal/cli/auth.go and auth_password.go *)

Definition profile_pin (profile : NASProfile) : string :=
  if bool_decide (np_TLSMode profile = "pinned_fingerprint")
  then np_CertificateFingerprint profile else "".

Definition pin_profile (fingerprint : string) (p : NASProfile) : NASProfile := {|
  np_URL := np_URL p; np_Identity := np_Identity p; np_Endpoints := np_Endpoints p;
  np_Username := np_Username p; np_PasswordEnv := np_PasswordEnv p;
  np_InsecureSkipTLSVerify := false; np_TLSMode := "pinned_fingerprint";
  np_CertificateFingerprint := fingerprint; np_TimeoutSeconds := np_TimeoutSeconds p;
  np_Role := np_Role p; np_Revision := np_Revision p
|}.

(** [line] and [readErr] are what reading the person's answer gave, [save] tells whether a
    configuration can be stored.  The dials and the configuration are the state. *)
Definition prepareWebLoginTLS (wall : Z) (line : string) (readErr : bool) (save : Config → bool)
    (name : string) (profile : NASProfile) (n : nat) (cfg : Config) :
    result string NASProfile * nat * Config :=
  if np_InsecureSkipTLSVerify profile then (Ok profile, n, cfg) else
  match Probe wall (np_URL profile) (profile_pin profile) n with
  | (Ok _, n) => (Ok profile, n, cfg)
  | (Err (ErrTrust trustErr), n) =>
      let answer := ToLower (TrimSpace line) in
      if readErr && bool_decide (answer = "") then (Err "certificate was not trusted", n, cfg) else
      if negb (bool_decide (answer = "y")) && negb (bool_decide (answer = "yes"))
      then (Err "certificate was not trusted", n, cfg) else
      let profile := pin_profile (ct_Fingerprint (te_Certificate trustErr)) profile in
      let cfg := {| cf_DefaultNAS := cf_DefaultNAS cfg; cf_NAS := <[name := profile]> (cf_NAS cfg) |} in
      if save cfg then (Ok profile, n, cfg) else (Err "save pinned certificate", n, cfg)
  | (Err _, n) => (Err "verify TLS certificate", n, cfg)
  end.

Definition requireNonInteractiveTLS (wall : Z) (profile : NASProfile) (n : nat) :
    result string NASProfile * nat :=
  if np_InsecureSkipTLSVerify profile then (Ok profile, n) else
  match Probe wall (np_URL profile) (profile_pin profile) n with
  | (Ok _, n) => (Ok profile, n)
  | (Err (ErrTrust _), n) => (Err "the certificate is not trusted", n)
  | (Err _, n) => (Err "verify TLS certificate", n)
  end.

(** ** The HTTP client of a profile *)

Definition int64_wrap (x : Z) : Z := (x + 2 ^ 63) mod 2 ^ 64 - 2 ^ 63.

Record http_client := { hc_Timeout : Z; hc_TLS : tls_config }.

(** The name of the server is the host of the request, as package net/http sets it. *)
Definition httpClient (serverName : string) (profile : NASProfile) : http_client :=
  let timeout := if 0 <? np_TimeoutSeconds profile
                 then int64_wrap (np_TimeoutSeconds profile * Second) else 30 * Second in
  let config skip verify := {| tc_ServerName := serverName; tc_RootCAs := None;
    tc_InsecureSkipVerify := skip; tc_VerifyConnection := verify |} in
  {| hc_Timeout := timeout;
     hc_TLS :=
       if bool_decide (np_TLSMode profile = "pinned_fingerprint") then
         match hex_DecodeString (RemoveByte (np_CertificateFingerprint profile) 58) with
         | Some expected =>
             if slen expected =? 32 then
               config true (Some (fun peers =>
                 match peers with
                 | [] => Some "TLS peer did not provide a certificate"
                 | leaf :: _ =>
                     if negb (bool_decide (sha256 (xc_Raw leaf) = expected))
                     then Some
                       "TLS server certificate does not match the pinned SHA-256 fingerprint"
                     else None
                 end))
             else config false (Some (fun _ =>
               Some "pinned TLS profile has an invalid SHA-256 fingerprint"))
         | None => config false (Some (fun _ =>
             Some "pinned TLS profile has an invalid SHA-256 fingerprint"))
         end
       else config (np_InsecureSkipTLSVerify profile) None |}.
End tlstrust.
