(* ===== verification/TlsThms.v ===== *)
(** * Properties of TLS trust

    Hexadecimal texts, the agreement of the preflight with the connections that follow it,
    and what a person's confirmation pins. *)

From S2P Require Import Prelude.
From S2P Require Import GoStrings.
From S2P Require Import NetIP.
From S2P Require Import RemotePolicy.
From S2P Require Import Config.
From S2P Require Import Policy.
From S2P Require Import TlsTrust.

(** ** Hexadecimal texts *)

Create HintDb hex.

Lemma hex_digit_rune d : 0 ≤ d < 16 → hex_digit (hex_rune d) = Some d.
Proof.
  intros Hd. unfold hex_digit, hex_rune, in_range.
  repeat case_match; first [f_equal; lia|lia].
Qed.

Lemma hex_rune_digit c d : hex_digit c = Some d → hex_rune d = lower_byte c ∧ 0 ≤ d < 16.
Proof.
  unfold hex_digit, hex_rune, lower_byte, in_range. intros Hd.
  repeat case_match; simplify_eq; split; lia.
Qed.

Lemma hex_digit_lower c : hex_digit (lower_byte c) = hex_digit c.
Proof.
  unfold hex_digit, lower_byte, in_range. repeat case_match; first [done|f_equal; lia|lia].
Qed.

(** Induction by pairs. *)
Lemma pairs_ind {A} (P : list A → Prop) :
  P [] → (∀ a, P [a]) → (∀ a b l, P l → P (a :: b :: l)) → ∀ l, P l.
Proof.
  intros H0 H1 H2. assert (∀ l, P l ∧ ∀ a, P (a :: l)) as H; [|intros l; apply H].
  induction l as [|a l [IH IHa]]; auto.
Qed.

Lemma hex_values_bytes l : Forall is_byte l → hex_values (hex_bytes l) = Some l.
Proof.
  induction 1 as [|b l Hb _ IH]; [done|]. unfold is_byte in Hb. cbn [hex_bytes hex_values].
  pose proof (Z.mod_pos_bound b 16). pose proof (Z.div_mod b 16).
  assert (0 ≤ b / 16 < 16) by (split; [apply Z.div_pos|apply Z.div_lt_upper_bound]; lia).
  rewrite !hex_digit_rune, IH by lia. cbn. do 2 f_equal. lia.
Qed.

Lemma hex_values_spec l v : hex_values l = Some v →
  hex_bytes v = lower_byte <$> l ∧ Forall is_byte v ∧ length l = (2 * length v)%nat.
Proof.
  revert v. induction l as [| |a b l IH] using pairs_ind; intros v Hv; cbn in Hv; simplify_eq.
  - by repeat constructor.
  - destruct (hex_digit a) as [x|] eqn:Ea; [|done]. destruct (hex_digit b) as [y|] eqn:Eb; [|done].
    apply hex_rune_digit in Ea as [Ha ?], Eb as [Hb ?].
    destruct (hex_values l) as [w|]; [|done]. cbn in Hv. injection Hv as <-.
    destruct (IH w eq_refl) as (IHl & IHf & IHn). split; [|split].
    + cbn [hex_bytes fmap list_fmap].
      replace ((x * 16 + y) / 16) with x by (apply Z.div_unique with y; lia).
      replace ((x * 16 + y) mod 16) with y by (apply Z.mod_unique with x; lia).
      by rewrite Ha, Hb, IHl.
    + constructor; [|done]. unfold is_byte. lia.
    + cbn. lia.
Qed.

Lemma hex_values_lower l : hex_values (lower_byte <$> l) = hex_values l.
Proof.
  induction l as [| |a b l IH] using pairs_ind; [done|done|].
  cbn. by rewrite !hex_digit_lower, IH.
Qed.

Lemma hex_bytes_is_byte l : Forall is_byte l → Forall is_byte (hex_bytes l).
Proof.
  induction 1 as [|b l Hb _ IH]; [constructor|]. unfold is_byte in *.
  pose proof (Z.mod_pos_bound b 16).
  assert (0 ≤ b / 16 < 16) by (split; [apply Z.div_pos|apply Z.div_lt_upper_bound]; lia).
  repeat constructor; [..|done]; unfold hex_rune; case_match; lia.
Qed.

Lemma bytes_hex s : bytes (hex_EncodeToString s) = hex_bytes (bytes s).
Proof. apply bytes_of_bytes, hex_bytes_is_byte, bytes_is_byte. Qed.

Lemma length_hex s : slen (hex_EncodeToString s) = 2 * slen s.
Proof.
  unfold slen. rewrite <- !length_bytes, bytes_hex.
  assert (∀ l, length (hex_bytes l) = 2 * length l)%nat as -> by (intros l; induction l; cbn; lia).
  lia.
Qed.

Lemma decode_encode s : hex_DecodeString (hex_EncodeToString s) = Some s.
Proof.
  unfold hex_DecodeString. rewrite bytes_hex, hex_values_bytes by apply bytes_is_byte.
  cbn. by rewrite of_bytes_bytes.
Qed.

(** A text that decodes is, in lower case, the encoding of what it decodes to. *)
Lemma encode_decode s v : hex_DecodeString s = Some v → hex_EncodeToString v = lower_ascii s.
Proof.
  unfold hex_DecodeString. intros (w & Hw & ->)%fmap_Some.
  apply hex_values_spec in Hw as (Hb & Hf & _). unfold hex_EncodeToString, lower_ascii.
  by rewrite bytes_of_bytes, Hb.
Qed.

Lemma decode_lower s : hex_DecodeString (lower_ascii s) = hex_DecodeString s.
Proof. unfold hex_DecodeString. by rewrite bytes_lower_ascii, hex_values_lower. Qed.

(** The text of a digest is plain: what the cleaning of a fingerprint leaves alone. *)
Definition plain (a : Z) : Prop := 48 ≤ a ≤ 57 ∨ 97 ≤ a ≤ 102.

Lemma hex_bytes_plain l : Forall is_byte l → Forall plain (hex_bytes l).
Proof.
  induction 1 as [|b l Hb _ IH]; [constructor|]. unfold is_byte in *.
  pose proof (Z.mod_pos_bound b 16).
  assert (0 ≤ b / 16 < 16) by (split; [apply Z.div_pos|apply Z.div_lt_upper_bound]; lia).
  constructor; [|constructor; [|done]]; unfold hex_rune, plain; case_match; lia.
Qed.

Lemma encoded_plain s : Forall plain (bytes (hex_EncodeToString s)).
Proof. rewrite bytes_hex. apply hex_bytes_plain, bytes_is_byte. Qed.

Lemma plain_visible l : Forall plain l → Forall visible l.
Proof. intros Hl. eapply Forall_impl; [exact Hl|]. unfold plain, visible. lia. Qed.

Lemma TrimSpace_plain s : Forall plain (bytes s) → TrimSpace s = s.
Proof. intros Hs. by apply TrimSpace_visible, plain_visible. Qed.

Lemma RemoveByte_plain s : Forall plain (bytes s) → RemoveByte s 58 = s.
Proof.
  intros Hs. unfold RemoveByte. rewrite <- (of_bytes_bytes s) at 2. f_equal.
  induction Hs as [|a l Ha _ IH]; [done|].
  rewrite filter_cons_True, IH; [done|]. unfold plain in Ha. lia.
Qed.

Lemma ascii_plain s : Forall plain (bytes s) → is_ascii s = true.
Proof.
  unfold is_ascii. induction 1 as [|a l Ha _ IH]; [done|]. cbn. rewrite IH.
  unfold plain in Ha. lia.
Qed.

Lemma lower_plain s : Forall plain (bytes s) → lower_ascii s = s.
Proof.
  intros Hs. unfold lower_ascii. rewrite (list_fmap_ext _ id), list_fmap_id, of_bytes_bytes; [done|].
  intros i a Ha. apply (Forall_lookup_1 _ _ _ _ Hs) in Ha. unfold id.
  unfold plain, lower_byte, in_range in *. case_match; lia.
Qed.

(** ** Texts of hexadecimal digits *)

(** A text of which every character is one of [0-9a-f] has only such bytes: the encoding of
    any other character is not one of them. *)
Lemma runes_plain l : forallb is_hex_rune (runes l) = true → Forall plain l.
Proof.
  induction l as [|a l IH]; [constructor|]. cbn [runes].
  destruct (Z.ltb_spec a 128) as [Ha|Ha].
  - cbn [forallb]. intros [Hh Hl]%andb_true_iff. constructor; [|by apply IH].
    revert Hh. unfold is_hex_rune, in_range, plain. lia.
  - intros Hl. exfalso. revert Hl. clear IH.
    destruct l as [|b l]; [done|]. destruct (second2 a b) eqn:E2.
    { cbn [forallb]. revert E2. unfold second2, cont, is_hex_rune, in_range. lia. }
    destruct l as [|c l]; [done|]. destruct (second3 a b && cont c) eqn:E3.
    { cbn [forallb]. revert E3. unfold second3, cont, is_hex_rune, in_range.
      case_match; [lia|]. case_match; lia. }
    destruct l as [|d l]; [done|]. destruct (second4 a b && cont c && cont d) eqn:E4; [|done].
    cbn [forallb]. revert E4. unfold second4, cont, is_hex_rune, in_range.
    case_match; [lia|]. case_match; lia.
Qed.

Lemma hex_digit_plain a : plain (lower_byte a) → is_Some (hex_digit a).
Proof.
  unfold plain, lower_byte, hex_digit, in_range. intros Ha.
  repeat case_match; first [by eexists|lia].
Qed.

Lemma hex_values_total l :
  Forall plain (lower_byte <$> l) → Nat.Even (length l) → is_Some (hex_values l).
Proof.
  induction l as [| |a b l IH] using pairs_ind; intros Hp He; [by eexists| |].
  - destruct He as [k Hk]. cbn in Hk. lia.
  - rewrite !fmap_cons, !Forall_cons in Hp. destruct Hp as (Ha & Hb & Hl). cbn.
    apply hex_digit_plain in Ha as [x ->], Hb as [y ->].
    destruct IH as [v ->]; [done| |by eexists].
    destruct He as [k Hk]. exists (pred k). cbn in Hk. lia.
Qed.

(** Lower-casing never makes a hexadecimal digit of a character outside ASCII. *)
Definition no_foreign_hex `{Unicode} : Prop :=
  ∀ s, is_ascii s = false → all_hex (uni_lower s) = false.

(** What [validateProfileTLS] accepts as a fingerprint decodes. *)
Lemma accepted_decodes `{Unicode} s :
  no_foreign_hex → slen s = 64 → all_hex (ToLower s) = true →
  is_ascii s = true ∧ is_Some (hex_DecodeString s).
Proof.
  intros Hf Hl Hh. unfold ToLower in Hh. destruct (is_ascii s) eqn:Ea; [|by rewrite Hf in Hh].
  split; [done|]. unfold hex_DecodeString. apply fmap_is_Some, hex_values_total.
  - rewrite <- bytes_lower_ascii. by apply runes_plain.
  - exists 32%nat. revert Hl. unfold slen. rewrite <- length_bytes. lia.
Qed.

(** White space in a fingerprint keeps it from decoding. *)
Lemma decoded_trimmed s v : hex_DecodeString (RemoveByte s 58) = Some v → TrimSpace s = s.
Proof.
  unfold hex_DecodeString. intros (w & Hw & _)%fmap_Some.
  apply hex_values_spec in Hw as (Hb & Hf & _).
  apply hex_bytes_plain in Hf. rewrite Hb in Hf. apply TrimSpace_visible.
  assert (Forall is_byte (base.filter (λ a, a ≠ 58) (bytes s))) as Hby.
  { apply Forall_forall. intros a [_ Ha]%list_elem_of_filter. pose proof (bytes_is_byte s) as Hs.
    rewrite Forall_forall in Hs. auto. }
  unfold RemoveByte in Hf. rewrite bytes_of_bytes in Hf by done.
  apply Forall_forall. intros a Ha. destruct (decide (a = 58)) as [->|Hne]; [unfold visible; lia|].
  rewrite Forall_forall in Hf.
  assert (plain (lower_byte a)) as Hp.
  { apply Hf, list_elem_of_fmap. exists a. split; [done|]. by apply list_elem_of_filter. }
  revert Hp. unfold plain, lower_byte, in_range, visible. case_match; lia.
Qed.

(** ** Pins *)

#[local] Arguments dial : simpl never.
#[local] Arguments observe : simpl never.

Section tls.
Context `{Unicode, NetURL, Sha256, X509, RFC3339, Peers}.
Context (Hsize : ∀ s, slen (sha256 s) = 32).

Lemma length_encoded s : slen (hex_EncodeToString (sha256 s)) = 64.
Proof. by rewrite length_hex, Hsize. Qed.

(** Comparing decoded bytes is comparing lower-case texts. *)
Lemma pin_match s d : hex_DecodeString s = Some d ↔ hex_EncodeToString d = lower_ascii s.
Proof.
  split; [apply encode_decode|]. intros Hs. by rewrite <- decode_lower, <- Hs, decode_encode.
Qed.

Lemma NormalizeFingerprint_encoded s :
  NormalizeFingerprint (hex_EncodeToString (sha256 s)) = Ok (hex_EncodeToString (sha256 s)).
Proof.
  pose proof (encoded_plain (sha256 s)) as Hp. unfold NormalizeFingerprint, ToLower. cbv zeta.
  rewrite TrimSpace_plain, RemoveByte_plain, ascii_plain, lower_plain by done.
  pose proof (length_encoded s) as Hl. rewrite Hl, decode_encode. cbn.
  rewrite bool_decide_eq_false_2; [done|]. intros Hn. by rewrite Hn in Hl.
Qed.

(** The connection of a pinned profile is open to the owner of one certificate. *)
Lemma pinned_client serverName profile chain :
  np_TLSMode profile = "pinned_fingerprint" →
  handshake (hc_TLS (httpClient serverName profile)) chain = None ↔
  ∃ leaf rest, chain = leaf :: rest ∧
    hex_DecodeString (RemoveByte (np_CertificateFingerprint profile) 58)
    = Some (sha256 (xc_Raw leaf)).
Proof.
  intros Hm. unfold httpClient. cbn [hc_TLS]. rewrite bool_decide_eq_true_2 by done.
  destruct (hex_DecodeString _) as [expected|].
  - destruct (slen expected =? 32) eqn:El.
    + unfold handshake. cbn. destruct chain as [|leaf rest]; cbn.
      * split; [done|]. by intros (? & ? & ? & _).
      * case_bool_decide as Hd; cbn; [|split; [done|intros (? & ? & [= <- <-] & [= ?]); congruence]].
        rewrite <- Hd. split; [|done]. intros _. by exists leaf, rest.
    + assert (∀ leaf : x509, Some expected ≠ Some (sha256 (xc_Raw leaf))) as Hne.
      { intros leaf [= ->]. by rewrite Hsize in El. }
      unfold handshake. cbn. split; [|intros (? & ? & _ & ?); by edestruct Hne].
      by destruct (VerifyChain _ _ _).
  - unfold handshake. cbn. split; [|by intros (? & ? & _ & ?)]. by destruct (VerifyChain _ _ _).
Qed.

(** ** The preflight of a pin *)

Lemma dial_run endpoint config n chain : peer n (te_address endpoint) = Ok chain →
  dial endpoint config n
  = (Ok (match handshake config chain with Some e => Err e | None => Ok chain end), S n).
Proof. intros Hp. unfold dial. by rewrite Hp. Qed.

Lemma observe_run endpoint n chain : peer n (te_address endpoint) = Ok chain →
  observe endpoint n =
    match chain with
    | [] => (Err (ErrPlain "TLS peer did not provide a certificate"), S n)
    | leaf :: _ => (Ok (certificate_of leaf, leaf), S n)
    end.
Proof.
  intros Hp. unfold observe, mbind, ST_bind. rewrite (dial_run _ _ _ chain Hp). by destruct chain.
Qed.

Definition passes (r : result probe_error () * nat) : Prop := r.1 = Ok ().

Lemma probe_pinned wall url pin fp n endpoint chain :
  parseEndpoint url = Ok endpoint → te_scheme endpoint ≠ "http" →
  NormalizeFingerprint fp = Ok pin → pin ≠ "" → peer n (te_address endpoint) = Ok chain →
  passes (Probe wall url fp n) ↔
  ∃ leaf rest, chain = leaf :: rest ∧ hex_EncodeToString (sha256 (xc_Raw leaf)) = pin.
Proof.
  intros He Hs Hf Hpin Hp. unfold passes, Probe, ProbeWithOptions, mbind, ST_bind. rewrite He. cbn.
  rewrite bool_decide_eq_false_2 by done. rewrite Hf. cbn.
  rewrite bool_decide_eq_false_2 by done. cbn. rewrite (observe_run _ _ chain Hp).
  destruct chain as [|leaf rest]; [split; [done|by intros (? & ? & ? & _)]|]. cbn.
  case_bool_decide as Hd; cbn.
  - split; [|done]. intros _. by exists leaf, rest.
  - split; [done|]. intros (? & ? & [= <- <-] & ?). done.
Qed.

Lemma probe_bad_pin wall url fp n endpoint e :
  parseEndpoint url = Ok endpoint → te_scheme endpoint ≠ "http" →
  NormalizeFingerprint fp = Err e → ¬ passes (Probe wall url fp n).
Proof.
  intros He Hs Hf. unfold passes, Probe, ProbeWithOptions, mbind, ST_bind. rewrite He. cbn.
  rewrite bool_decide_eq_false_2 by done. by rewrite Hf.
Qed.

Lemma probe_system wall url n endpoint chain :
  parseEndpoint url = Ok endpoint → te_scheme endpoint ≠ "http" →
  peer n (te_address endpoint) = Ok chain →
  passes (Probe wall url "" n) ↔ VerifyChain None (te_host endpoint) chain = None.
Proof.
  intros He Hs Hp. unfold passes, Probe, ProbeWithOptions, mbind, ST_bind. rewrite He. cbn.
  rewrite bool_decide_eq_false_2 by done. replace (NormalizeFingerprint "") with (Ok (E:=string) "")
    by reflexivity. cbn. rewrite (bool_decide_eq_true_2 ("" = "")) by done. cbn.
  rewrite (dial_run _ _ _ chain Hp). unfold handshake. cbn.
  destruct (VerifyChain _ _ chain) as [e|]; cbn; [|done]. split; [|done].
  destruct (observe endpoint (S n)) as [[[c l]|e'] k]; by cbn.
Qed.

(** ** The preflight and the connection *)

(** The profile with the white space around its fingerprint gone. *)
Definition trim_pin (p : NASProfile) : NASProfile := {|
  np_URL := np_URL p; np_Identity := np_Identity p; np_Endpoints := np_Endpoints p;
  np_Username := np_Username p; np_PasswordEnv := np_PasswordEnv p;
  np_InsecureSkipTLSVerify := np_InsecureSkipTLSVerify p; np_TLSMode := np_TLSMode p;
  np_CertificateFingerprint := TrimSpace (np_CertificateFingerprint p);
  np_TimeoutSeconds := np_TimeoutSeconds p; np_Role := np_Role p; np_Revision := np_Revision p
|}.

Lemma validated_pin profile :
  no_foreign_hex → validateProfileTLS profile = Ok () →
  np_TLSMode profile = "pinned_fingerprint" →
  let s := RemoveByte (TrimSpace (np_CertificateFingerprint profile)) 58 in
  slen s = 64 ∧ is_Some (hex_DecodeString s) ∧
  NormalizeFingerprint (np_CertificateFingerprint profile) = Ok (lower_ascii s).
Proof.
  intros Hf Hv Hm. revert Hv. unfold validateProfileTLS. rewrite Hm.
  rewrite (bool_decide_eq_false_2 (_ = "")), (bool_decide_eq_false_2 (_ = "system_ca")) by done.
  rewrite (bool_decide_eq_true_2 ("pinned_fingerprint" = _)) by done. cbn [orb]. cbv zeta.
  set (s := RemoveByte _ 58). destruct (slen s =? 64) eqn:El; [|done]. apply Z.eqb_eq in El.
  destruct (all_hex (ToLower s)) eqn:Eh; [|done]. intros _. split; [done|].
  destruct (accepted_decodes s Hf El Eh) as [Ha Hd]. split; [done|].
  unfold NormalizeFingerprint. cbv zeta. fold s. unfold ToLower. rewrite Ha, decode_lower.
  assert (slen (lower_ascii s) = 64) as Hl.
  { unfold slen in *. rewrite <- length_bytes in *. by rewrite bytes_lower_ascii, length_fmap. }
  rewrite bool_decide_eq_false_2 by (intros Hn; by rewrite Hn in Hl). rewrite Hl.
  by destruct Hd as [d ->].
Qed.

Lemma system_client serverName profile chain :
  np_TLSMode profile ≠ "pinned_fingerprint" → np_InsecureSkipTLSVerify profile = false →
  handshake (hc_TLS (httpClient serverName profile)) chain = None ↔
  VerifyChain None serverName chain = None.
Proof.
  intros Hm Hs. unfold httpClient, handshake. cbn [hc_TLS].
  rewrite bool_decide_eq_false_2 by done. rewrite Hs. cbn.
  by destruct (VerifyChain None serverName chain).
Qed.

(** The preflight trims the pin; ... *)
Lemma preflight wall profile n endpoint chain :
  no_foreign_hex → validateProfileTLS profile = Ok () → np_InsecureSkipTLSVerify profile = false →
  parseEndpoint (np_URL profile) = Ok endpoint → te_scheme endpoint ≠ "http" →
  peer n (te_address endpoint) = Ok chain →
  passes (Probe wall (np_URL profile) (profile_pin profile) n) ↔
  handshake (hc_TLS (httpClient (te_host endpoint) (trim_pin profile))) chain = None.
Proof.
  intros Hfh Hv Hs He Hh Hp. unfold profile_pin. case_bool_decide as Hm.
  - destruct (validated_pin _ Hfh Hv Hm) as (Hl & [d Ed] & Hf). rewrite pinned_client by done.
    cbn [trim_pin np_CertificateFingerprint]. rewrite Ed.
    rewrite (probe_pinned _ _ _ _ _ _ _ He Hh Hf) by (try done; intros Hn;
      apply (f_equal slen) in Hn; revert Hn; unfold slen in *;
      rewrite <- length_bytes in *; rewrite bytes_lower_ascii, length_fmap, Hl; done).
    apply encode_decode in Ed as Hd. rewrite <- Hd. split; intros (leaf & rest & -> & Heq);
      exists leaf, rest; split; try done; [|congruence].
    apply (f_equal hex_DecodeString) in Heq. rewrite !decode_encode in Heq. congruence.
  - rewrite (probe_system _ _ _ _ _ He Hh Hp). by rewrite system_client.
Qed.

(** ... the client does not, and refuses every chain when there was something to trim. *)
Lemma client_trimmed serverName profile chain :
  handshake (hc_TLS (httpClient serverName profile)) chain = None ↔
  handshake (hc_TLS (httpClient serverName (trim_pin profile))) chain = None ∧
  (np_TLSMode profile = "pinned_fingerprint" →
   TrimSpace (np_CertificateFingerprint profile) = np_CertificateFingerprint profile).
Proof.
  destruct (decide (np_TLSMode profile = "pinned_fingerprint")) as [Hm|Hm].
  - rewrite !pinned_client by done. cbn [trim_pin np_CertificateFingerprint]. split.
    + intros (leaf & rest & -> & Hd). pose proof (decoded_trimmed _ _ Hd) as Ht.
      split; [|done]. exists leaf, rest. by rewrite Ht.
    + intros [(leaf & rest & -> & Hd) Ht]. exists leaf, rest. by rewrite <- (Ht Hm).
  - unfold httpClient. cbn [trim_pin np_TLSMode np_InsecureSkipTLSVerify np_TimeoutSeconds].
    rewrite !(bool_decide_eq_false_2 _ Hm). tauto.
Qed.

(** ** What a confirmation pins *)

Lemma observe_trust wall url fp n endpoint leaf rest e n' :
  parseEndpoint url = Ok endpoint → (∀ k, peer k (te_address endpoint) = Ok (leaf :: rest)) →
  Probe wall url fp n = (Err (ErrTrust e), n') → te_Certificate e = certificate_of leaf.
Proof.
  intros He Hp. unfold Probe, ProbeWithOptions, mbind, ST_bind. rewrite He. cbn.
  case_bool_decide; [done|]. destruct (NormalizeFingerprint fp) as [pin|]; [|done]. cbn.
  case_bool_decide; cbn.
  - rewrite (dial_run _ _ _ _ (Hp n)). destruct (handshake _ _) as [v|]; [|done].
    destruct (isCertificateVerificationError v); [|done]. cbn.
    rewrite (observe_run _ _ _ (Hp (S n))). cbn. by intros [= <- _].
  - rewrite (observe_run _ _ _ (Hp n)). cbn. case_bool_decide; [done|]. cbn. by intros [= <- _].
Qed.

Lemma pinned_accepts serverName profile leaf rest :
  handshake (hc_TLS (httpClient serverName
    (pin_profile (hex_EncodeToString (sha256 (xc_Raw leaf))) profile))) (leaf :: rest) = None.
Proof.
  apply pinned_client; [done|]. exists leaf, rest. split; [done|].
  cbn [pin_profile np_CertificateFingerprint]. by rewrite RemoveByte_plain, decode_encode by apply encoded_plain.
Qed.
End tls.

(** C35: the preflight promises what the connection keeps, up to white space around the pin.
    For every validated profile that does not switch verification off, in either TLS mode,
    [Probe] passes on what a server presents exactly when the HTTP client of the same profile
    with its fingerprint trimmed completes its handshake on it; the client of the profile
    itself completes it exactly when the preflight passes and, for a pinned profile, the
    stored fingerprint has no white space around it.  The two compare the pin in different
    forms (text and bytes); what is assumed of the Unicode tables is that lower-casing makes
    no hexadecimal digit of a character outside ASCII. *)
Theorem preflight_agrees `{Unicode, NetURL, Sha256, X509, RFC3339, Peers}
    wall profile n endpoint chain :
  no_foreign_hex → (∀ s, slen (sha256 s) = 32) →
  validateProfileTLS profile = Ok () → np_InsecureSkipTLSVerify profile = false →
  parseEndpoint (np_URL profile) = Ok endpoint → te_scheme endpoint ≠ "http" →
  peer n (te_address endpoint) = Ok chain →
  let passed := (Probe wall (np_URL profile) (profile_pin profile) n).1 = Ok () in
  let accepts p := handshake (hc_TLS (httpClient (te_host endpoint) p)) chain = None in
  (passed ↔ accepts (trim_pin profile)) ∧
  (accepts profile ↔ passed ∧
     (np_TLSMode profile = "pinned_fingerprint" →
      TrimSpace (np_CertificateFingerprint profile) = np_CertificateFingerprint profile)).
Proof.
  intros Hf Hsize Hv Hs He Hh Hp. cbv zeta.
  pose proof (preflight Hsize wall profile n endpoint chain Hf Hv Hs He Hh Hp) as Hpre.
  unfold passes in Hpre. split; [exact Hpre|]. rewrite client_trimmed by done. by rewrite Hpre.
Qed.

(** Trust on first use.  When the TLS step before a login succeeds against a server that
    presents one certificate, the connection of the resulting profile accepts that server;
    and either nothing was changed, or the person answered yes and the profile is stored
    with a pin, in place of any other policy, on the very certificate that was observed. *)
Theorem trust_on_first_use `{Unicode, NetURL, Sha256, X509, RFC3339, Peers}
    wall line readErr save name profile n cfg endpoint leaf rest profile' n' cfg' :
  no_foreign_hex → (∀ s, slen (sha256 s) = 32) → validateProfileTLS profile = Ok () →
  (np_TLSMode profile = "pinned_fingerprint" →
   TrimSpace (np_CertificateFingerprint profile) = np_CertificateFingerprint profile) →
  parseEndpoint (np_URL profile) = Ok endpoint → te_scheme endpoint ≠ "http" →
  (∀ k, peer k (te_address endpoint) = Ok (leaf :: rest)) →
  prepareWebLoginTLS wall line readErr save name profile n cfg = (Ok profile', n', cfg') →
  np_InsecureSkipTLSVerify profile = true ∧ profile' = profile ∧ cfg' = cfg ∨
  handshake (hc_TLS (httpClient (te_host endpoint) profile')) (leaf :: rest) = None ∧
  (profile' = profile ∧ cfg' = cfg ∨
   profile' = pin_profile (hex_EncodeToString (sha256 (xc_Raw leaf))) profile ∧
   cf_NAS cfg' = <[name := profile']> (cf_NAS cfg) ∧ save cfg' = true ∧
   ToLower (TrimSpace line) ∈ ["y"; "yes"]).
Proof.
  intros Hf Hsize Hv Hc He Hh Hp Hr. unfold prepareWebLoginTLS in Hr.
  destruct (np_InsecureSkipTLSVerify profile) eqn:Hs; [left; by simplify_eq|]. right.
  destruct (Probe wall (np_URL profile) (profile_pin profile) n) as [[[]|e] n1] eqn:Ep.
  - injection Hr as <- _ <-. split; [|by left].
    apply client_trimmed; [done|]. split; [|done].
    apply (preflight Hsize wall profile n endpoint); [done..|]. unfold passes. by rewrite Ep.
  - destruct e as [| | |e]; try done. apply (observe_trust _ _ _ _ _ _ _ _ _ He Hp) in Ep.
    revert Hr. rewrite Ep. cbv zeta. destruct (_ && _); [done|].
    destruct (negb _ && negb _) eqn:Ea; [done|]. destruct (save _) eqn:Esave; [|done].
    intros [= <- _ <-]. split; [apply pinned_accepts; done|]. right. cbn.
    split; [done|]. split; [done|]. split; [done|]. apply andb_false_iff in Ea.
    set_unfold. destruct Ea as [Ea|Ea]; split_bools; auto.
Qed.

(** ** Samples *)

Definition sample_sha : Sha256 := fun s => of_bytes (take 32 (bytes s ++ replicate 32 97)).
Definition untrusted : X509 := {|
  CertPool := (); VerifyChain := fun _ _ _ => Some UnknownAuthorityError;
  VerifyHostname := fun _ _ => true |}.
Definition no_dates : RFC3339 := fun _ => "".
Definition sample_leaf : x509 := {|
  xc_Raw := "leaf"; xc_Subject := "CN=nas1"; xc_Issuer := "CN=nas1"; xc_RawSubject := "s";
  xc_RawIssuer := "s"; xc_DNSNames := ["nas1"]; xc_IPAddresses := []; xc_NotBefore := 0;
  xc_NotAfter := 100; xc_self_signature := true |}.
Definition one_server : Peers := fun _ _ => Ok [sample_leaf].
Definition nas1_url : URL := {|
  u_Scheme := "https"; u_Host := "nas1:5001"; u_Hostname := "nas1"; u_Port := "5001";
  u_User := false; u_Path := ""; u_EscapedPath := "";
  u_RawQuery := ""; u_Fragment := "";
  u_String := "https://nas1:5001" |}.
Definition one_url : NetURL := {|
  url_Parse := fun _ => Some nas1_url; url_ParseRequestURI := fun _ => Some nas1_url |}.
Definition tls_profile (mode fingerprint : string) : NASProfile := {|
  np_URL := "https://nas1:5001"; np_Identity := zero_identity; np_Endpoints := [];
  np_Username := "admin"; np_PasswordEnv := ""; np_InsecureSkipTLSVerify := false;
  np_TLSMode := mode; np_CertificateFingerprint := fingerprint; np_TimeoutSeconds := 0;
  np_Role := ""; np_Revision := 1 |}.
Definition nas1_endpoint : tlsEndpoint :=
  {| te_scheme := "https"; te_host := "nas1"; te_address := "nas1:5001" |}.
Definition sample_fingerprint : string :=
  "6C:65:61:66:61:61:61:61:61:61:61:61:61:61:61:61:61:61:61:61:61:61:61:61:61:61:61:61:61:61:61:61".

Lemma sample_sha_size s : slen (sample_sha s) = 32.
Proof.
  unfold sample_sha, slen. rewrite <- length_bytes, bytes_of_bytes.
  - rewrite length_take, length_app, length_replicate. lia.
  - apply Forall_take, Forall_app. split; [apply bytes_is_byte|].
    apply Forall_replicate. unfold is_byte. lia.
Qed.

Lemma ascii_tables_foreign : @no_foreign_hex ascii_tables.
Proof.
  intros s Hs. cbn. destruct (all_hex (lower_ascii s)) eqn:Eh; [|done]. exfalso.
  apply runes_plain in Eh. rewrite bytes_lower_ascii in Eh. revert Hs.
  rewrite <- not_true_iff_false. intros Hn. apply Hn. apply forallb_forall.
  intros a Ha%list_elem_of_In. rewrite Forall_forall in Eh.
  assert (plain (lower_byte a)) as Hp by (apply Eh, list_elem_of_fmap; eauto).
  revert Hp. unfold plain, lower_byte, in_range. case_match; lia.
Qed.

(** A pin in capitals and with colons, as a person may have typed it. *)
Lemma preflight_agrees_witness :
  (@Probe ascii_tables one_url sample_sha untrusted no_dates one_server 10
     "https://nas1:5001" sample_fingerprint 0%nat).1 = Ok () ∧
  handshake (H := untrusted) (hc_TLS (httpClient (H1 := sample_sha) (H2 := untrusted) "nas1"
    (tls_profile "pinned_fingerprint" sample_fingerprint))) [sample_leaf] = None.
Proof.
  set (p := tls_profile "pinned_fingerprint" sample_fingerprint).
  assert ((@Probe ascii_tables one_url sample_sha untrusted no_dates one_server 10
     (np_URL p) (profile_pin p) 0%nat).1 = Ok ()) as Hp by (vm_compute; reflexivity).
  split; [exact Hp|].
  refine (proj2 (proj2 (@preflight_agrees ascii_tables one_url sample_sha untrusted no_dates
    one_server 10 p 0%nat nas1_endpoint [sample_leaf] ascii_tables_foreign sample_sha_size
    _ _ _ _ _)) (conj Hp _));
    [vm_compute; reflexivity|reflexivity|vm_compute; reflexivity|done|reflexivity|].
  intros _. vm_compute. reflexivity.
Defined.

Lemma trust_on_first_use_witness :
  (prepareWebLoginTLS (H := ascii_tables) (H0 := one_url) (H1 := sample_sha) (H2 := untrusted)
     (H3 := no_dates) (H4 := one_server) 10 "Y" false (fun _ => true) "nas1" (tls_profile "" "")
     0%nat new_config).1.1
    = Ok (pin_profile (hex_EncodeToString (sample_sha "leaf")) (tls_profile "" "")) ∧
  handshake (H := untrusted) (hc_TLS (httpClient (H1 := sample_sha) (H2 := untrusted) "nas1"
    (pin_profile (hex_EncodeToString (sample_sha "leaf")) (tls_profile "" "")))) [sample_leaf]
    = None.
Proof.
  set (p := tls_profile "" ""). set (q := pin_profile (hex_EncodeToString (sample_sha "leaf")) p).
  set (cfg := {| cf_DefaultNAS := ""; cf_NAS := {[ "nas1" := q ]} |}).
  assert (@prepareWebLoginTLS ascii_tables one_url sample_sha untrusted no_dates one_server
    10 "Y" false (fun _ => true) "nas1" p 0%nat new_config = (Ok q, 2%nat, cfg)) as Hr
    by (vm_compute; reflexivity).
  split; [exact (f_equal (fun r => r.1.1) Hr)|].
  destruct (@trust_on_first_use ascii_tables one_url sample_sha untrusted no_dates one_server
    10 "Y" false (fun _ => true) "nas1" p 0%nat new_config nas1_endpoint sample_leaf [] q 2%nat cfg
    ascii_tables_foreign sample_sha_size ltac:(vm_compute; reflexivity) ltac:(done)
    ltac:(vm_compute; reflexivity) ltac:(done) ltac:(done) Hr) as [(Hs & _)|[Hh _]]; [done|exact Hh].
Defined.

(** White space around a pin passes the validation of a profile and the preflight, and
    every connection is then refused. *)
Example spaced_pin_refused :
  let p := tls_profile "pinned_fingerprint" (" " +:+ sample_fingerprint) in
  validateProfileTLS (H := ascii_tables) (H0 := one_url) p = Ok () ∧
  (@Probe ascii_tables one_url sample_sha untrusted no_dates one_server 10
     (np_URL p) (profile_pin p) 0%nat).1 = Ok () ∧
  handshake (H := untrusted) (hc_TLS (httpClient (H1 := sample_sha) (H2 := untrusted) "nas1" p))
    [sample_leaf] ≠ None.
Proof. vm_compute. repeat split; congruence. Qed.
