(* ===== verification/PlatformAuth.v ===== *)
(** * Platform administrator assertions

    Source: internal/gateway/platformauth/assertion.go.  An assertion is a signed message
    that names a DSM administrator; the verifier remembers the assertions it has accepted
    until they expire.  HMAC-SHA256 is the class [HMAC]; the JSON text of a payload is the
    class [PayloadText], whose decoder refuses unknown fields and trailing data. *)

From S2P Require Import Prelude.
From S2P Require Import GoStrings.
From S2P Require Import NetIP.
From S2P Require Import RemotePolicy.
From S2P Require Import Password.
From S2P Require Import Json.
From S2P Require Import StateTypes.
From S2P Require Import Http.
From S2P Require Import TlsTrust.

Definition HeaderName : string := "X-Dsmctl-Platform-Assertion".

Definition MaxTTL : Z := 60 * Second.
Definition DefaultTTL : Z := 30 * Second.
Definition clockSkew : Z := 30 * Second.
Definition maxAssertion : Z := 4096.
Definition maxReplayEntries : Z := 4096.

Record payload := {
  pl_Subject : string;
  pl_Administrator : bool;
  pl_Audience : string;
  pl_IssuedAt : Z;
  pl_ExpiresAt : Z;
  pl_ID : string
}.

(** [hmac.New(sha256.New, key)] over one message. *)
Class HMAC := hmac : string → string → string.
Class PayloadText := {
  payload_marshal : payload → string;
  payload_decode : string → option payload
}.

Record Signer := { sg_key : string; sg_audience : string; sg_ttl : Z }.
(** The verifier without its [seen] map, which is the state of [Verify]. *)
Record Verifier := { vf_key : string; vf_audience : string }.

Definition newSigner (key audience : string) (ttl : Z) : result error Signer :=
  if negb (slen key =? 32)
  then Err (ErrNew "platform assertion key must be exactly 32 bytes") else
  let audience := TrimSpace audience in
  if bool_decide (audience = "") then Err (ErrNew "platform assertion audience is required") else
  if (ttl <=? 0) || (MaxTTL <? ttl)
  then Err (ErrNew "platform assertion TTL must be between one second and one minute") else
  Ok {| sg_key := key; sg_audience := audience; sg_ttl := ttl |}.

Definition NewSigner (key audience : string) : result error Signer :=
  newSigner key audience DefaultTTL.

Definition newVerifier (key audience : string) : result error Verifier :=
  if negb (slen key =? 32)
  then Err (ErrNew "platform assertion key must be exactly 32 bytes") else
  let audience := TrimSpace audience in
  if bool_decide (audience = "") then Err (ErrNew "platform assertion audience is required") else
  Ok {| vf_key := key; vf_audience := audience |}.

Definition ValidateSubject (subject : string) : result error () :=
  let subject := TrimSpace subject in
  if bool_decide (subject = "") || (256 <? slen subject) || ContainsAny subject [13; 10; 0]
  then Err (ErrNew "platform administrator subject is invalid") else Ok ().

(** What was accepted, with the time it expires. *)
Abbreviation seen := (gmap string Z).

(** The claims of a new assertion.  Clocks count nanoseconds, the times of a payload
    seconds; [idBytes] are sixteen random bytes. *)
Definition signed_claims (s : Signer) (subject : string) (now : Z) (idBytes : string) : payload := {|
  pl_Subject := TrimSpace subject; pl_Administrator := true; pl_Audience := sg_audience s;
  pl_IssuedAt := now / Second;
  pl_ExpiresAt := (now / Second * Second + sg_ttl s) / Second;
  pl_ID := hex_EncodeToString idBytes |}.

Section platformauth.
Context `{HMAC, PayloadText}.

(** [id] is [None] when there are no random bytes. *)
Definition Sign (s : Signer) (subject : string) (now : Z) (id : option string) :
    result error string :=
  ValidateSubject subject ≫= fun _ =>
  match id with
  | None => Err (ErrNew "create platform assertion ID")
  | Some idBytes =>
      let message := RawURLEncode (payload_marshal (signed_claims s subject now idBytes)) in
      Ok (message +:+ "." +:+ RawURLEncode (hmac (sg_key s) message))
  end.

(** The claims of a well-formed assertion with a valid signature. *)
Definition authentic (v : Verifier) (assertion : string) : option payload :=
  if bool_decide (assertion = "") || (maxAssertion <? slen assertion)
     || negb (bool_decide (TrimSpace assertion = assertion)) then None else
  match Split (bytes assertion) 46 with
  | [message; sig] =>
      signature ← RawURLDecode (of_bytes sig);
      if negb (slen signature =? 32)
         || negb (bool_decide (signature = hmac (vf_key v) (of_bytes message)))
      then None else
      encoded ← RawURLDecode (of_bytes message);
      payload_decode encoded
  | _ => None
  end.

Definition acceptable (v : Verifier) (claims : payload) (now : Z) : bool :=
  is_Ok (ValidateSubject (pl_Subject claims)) && pl_Administrator claims
  && bool_decide (pl_Audience claims = vf_audience v) && (slen (pl_ID claims) =? 32)
  && (0 <? pl_ExpiresAt claims - pl_IssuedAt claims)
  && ((pl_ExpiresAt claims - pl_IssuedAt claims) * Second <=? MaxTTL)
  && negb (now + clockSkew <? pl_IssuedAt claims * Second)
  && (now <? pl_ExpiresAt claims * Second)
  && bool_decide (is_Some (hex_DecodeString (pl_ID claims))).

Definition Verify (v : Verifier) (ctx : context) (assertion : string) (now : Z) (s : seen) :
    result error string * seen :=
  match ctx_Err ctx with
  | Some e => (Err e, s)
  | None =>
      match authentic v assertion with
      | None => (Err ErrUnauthorized, s)
      | Some claims =>
          if negb (acceptable v claims now) then (Err ErrUnauthorized, s) else
          let s := base.filter (fun p => now < p.2) s in
          if bool_decide (is_Some (s !! pl_ID claims))
             || (maxReplayEntries <=? Z.of_nat (size s))
          then (Err ErrUnauthorized, s)
          else (Ok (TrimSpace (pl_Subject claims)),
                <[pl_ID claims := pl_ExpiresAt claims * Second]> s)
      end
  end.
End platformauth.
