(* ===== verification/PlatformThms.v ===== *)
(** * Properties of platform administrator assertions *)

From S2P Require Import Prelude.
From S2P Require Import GoStrings.
From S2P Require Import NetIP.
From S2P Require Import RemotePolicy.
From S2P Require Import Password.
From S2P Require Import StateTypes.
From S2P Require Import Http.
From S2P Require Import TlsTrust.
From S2P Require Import TlsThms.
From S2P Require Import PlatformAuth.

(** ** Splitting at a dot *)

Lemma split_aux_no_sep sep cur l : sep ∉ l → split_aux sep cur l = [reverse cur ++ l].
Proof.
  revert cur. induction l as [|a l IH]; intros cur Hl; cbn; [by rewrite app_nil_r|].
  apply not_elem_of_cons in Hl as [Hne Hl]. destruct (a =? sep) eqn:E; [lia|].
  by rewrite IH, reverse_cons, <- app_assoc.
Qed.

Lemma split_aux_sep sep cur l k : sep ∉ l →
  split_aux sep cur (l ++ sep :: k) = (reverse cur ++ l) :: split_aux sep [] k.
Proof.
  revert cur. induction l as [|a l IH]; intros cur Hl; cbn.
  - by rewrite Z.eqb_refl, app_nil_r.
  - apply not_elem_of_cons in Hl as [Hne Hl]. destruct (a =? sep) eqn:E; [lia|].
    by rewrite IH, reverse_cons, <- app_assoc.
Qed.

Lemma Split_two sep l k : sep ∉ l → sep ∉ k → Split (l ++ sep :: k) sep = [l; k].
Proof. intros Hl Hk. unfold Split. by rewrite split_aux_sep, split_aux_no_sep. Qed.

Lemma sorted_lookup {A} (R : relation A) l i j x y :
  StronglySorted R l → l !! i = Some x → l !! j = Some y → (i < j)%nat → R x y.
Proof.
  intros Hs. revert i j. induction Hs as [|a l Hs IH Ha]; intros i j Hi Hj Hlt; [done|].
  destruct j as [|j]; [lia|]. destruct i as [|i]; [|by apply (IH i j); [..|lia]].
  injection Hi as ->. rewrite Forall_forall in Ha. by apply Ha, (list_elem_of_lookup_2 _ j).
Qed.

(** The calls of [Verify] on one verifier, in order, with their clock readings. *)
Abbreviation verify_call := (context * string * Z)%type.

Section platform.
Context `{HMAC, PayloadText}.

Fixpoint verify_run (v : Verifier) (s : seen) (calls : list verify_call) :
    list (result error string) :=
  match calls with
  | [] => []
  | (ctx, a, now) :: calls =>
      let '(r, s') := Verify v ctx a now s in r :: verify_run v s' calls
  end.

(** ** What is remembered *)

Lemma Verify_ok v ctx a now s subject s' : Verify v ctx a now s = (Ok subject, s') →
  ∃ p, authentic v a = Some p ∧ acceptable v p now = true ∧ now < pl_ExpiresAt p * Second ∧
    subject = TrimSpace (pl_Subject p) ∧
    s' = <[pl_ID p := pl_ExpiresAt p * Second]> (base.filter (λ q, now < q.2) s) ∧
    base.filter (λ q, now < q.2) s !! pl_ID p = None ∧
    Z.of_nat (size (base.filter (λ q, now < q.2) s)) < maxReplayEntries.
Proof.
  unfold Verify. destruct (ctx_Err ctx); [done|]. destruct (authentic v a) as [p|]; [|done].
  destruct (acceptable v p now) eqn:Ea; [|done]. cbn [negb]. cbv zeta.
  destruct (_ || _) eqn:Eb; [done|]. intros [= <- <-]. exists p.
  apply orb_false_elim in Eb as [Hn Hs]. apply bool_decide_eq_false in Hn.
  apply Z.leb_gt in Hs. rewrite eq_None_not_Some. split_and!; try done.
  unfold acceptable in Ea. split_bools. done.
Qed.

Lemma Verify_keeps v ctx a now s r s' id e :
  s !! id = Some e → now < e → Verify v ctx a now s = (r, s') →
  s' !! id = Some e ∧ ∀ subject p, r = Ok subject → authentic v a = Some p → pl_ID p ≠ id.
Proof.
  intros Hs He. assert (base.filter (λ q, now < q.2) s !! id = Some e) as Hf
    by by apply map_lookup_filter_Some.
  unfold Verify. destruct (ctx_Err ctx); [by intros [= <- <-]|].
  destruct (authentic v a) as [p|]; [|by intros [= <- <-]].
  destruct (acceptable v p now); [|by intros [= <- <-]]. cbn [negb]. cbv zeta.
  destruct (_ || _) eqn:Eb; [by intros [= <- <-]|]. intros [= <- <-].
  apply orb_false_elim in Eb as [Hn _]. apply bool_decide_eq_false in Hn.
  assert (pl_ID p ≠ id) as Hne by (intros <-; apply Hn; by eexists).
  split; [by rewrite lookup_insert_ne|]. intros ? q _ [= <-]. done.
Qed.

Lemma run_keeps v s calls j c subject p id e :
  s !! id = Some e → (∀ c', c' ∈ calls → c'.2 < e) →
  calls !! j = Some c → verify_run v s calls !! j = Some (Ok subject) →
  authentic v c.1.2 = Some p → pl_ID p ≠ id.
Proof.
  revert s j. induction calls as [|[[ctx a] now] calls IH]; intros s j Hs Ht Hj Hr Hp; [done|].
  cbn in Hr. destruct (Verify v ctx a now s) as [r s'] eqn:Ev.
  destruct (Verify_keeps v ctx a now s r s' id e Hs) as [Hs' Hne]; [|done|].
  { apply (Ht (ctx, a, now)). by left. }
  destruct j as [|j].
  - injection Hj as <-. injection Hr as ->. by apply (Hne subject).
  - apply (IH s' j); auto. intros c' Hc'. apply Ht. by right.
Qed.

(** What a run accepted was in order. *)
Lemma run_ok v s calls j c subject :
  calls !! j = Some c → verify_run v s calls !! j = Some (Ok subject) →
  ∃ p, authentic v c.1.2 = Some p ∧ c.2 < pl_ExpiresAt p * Second.
Proof.
  revert s j. induction calls as [|[[ctx a] now] calls IH]; intros s j Hj Hr; [done|].
  cbn in Hr. destruct (Verify v ctx a now s) as [r s'] eqn:Ev.
  destruct j as [|j]; [|by apply (IH s' j)]. injection Hj as <-. injection Hr as ->.
  apply Verify_ok in Ev as (p & ? & _ & ? & _). by exists p.
Qed.

Lemma run_take v s calls n j r : (j < n)%nat →
  verify_run v s calls !! j = Some r → verify_run v s (take n calls) !! j = Some r.
Proof.
  revert s n j. induction calls as [|[[ctx a] now] calls IH]; intros s n j Hn Hr; [done|].
  destruct n as [|n]; [lia|]. cbn in *. destruct (Verify v ctx a now s) as [q s'].
  destruct j as [|j]; [done|]. apply IH; [lia|done].
Qed.

Lemma run_single v s calls i j ci cj si sj :
  StronglySorted (λ c c' : verify_call, c.2 ≤ c'.2) calls →
  calls !! i = Some ci → calls !! j = Some cj → (i < j)%nat →
  verify_run v s calls !! i = Some (Ok si) → verify_run v s calls !! j = Some (Ok sj) →
  ∃ p q, authentic v ci.1.2 = Some p ∧ authentic v cj.1.2 = Some q ∧
    cj.2 < pl_ExpiresAt q * Second ∧
    (pl_ID p = pl_ID q → pl_ExpiresAt p * Second ≤ cj.2).
Proof.
  revert s i j. induction calls as [|[[ctx a] now] calls IH];
    intros s i j Hsort Hi Hj Hlt Hri Hrj; [done|].
  apply StronglySorted_inv in Hsort as [Hsort Hle]. destruct j as [|j]; [lia|]. cbn in Hri, Hrj.
  destruct (Verify v ctx a now s) as [r s'] eqn:Ev. destruct i as [|i].
  - injection Hi as <-. injection Hri as ->.
    change (calls !! j = Some cj) in Hj. change (verify_run v s' calls !! j = Some (Ok sj)) in Hrj.
    apply Verify_ok in Ev as (p & Hp & _ & _ & _ & -> & _). 
    set (s2 := <[pl_ID p := pl_ExpiresAt p * Second]> (base.filter (λ q, now < q.2) s)) in *.
    destruct (run_ok _ _ _ _ _ _ Hj Hrj) as (q & Hq & Hex).
    exists p, q. split; [done|]. split; [done|]. split; [done|]. intros Hid.
    destruct (decide (pl_ExpiresAt p * Second ≤ cj.2)) as [|Hgt]; [done|exfalso].
    apply (run_keeps v s2 (take (S j) calls) j cj sj q (pl_ID p) (pl_ExpiresAt p * Second)).
    + apply lookup_insert_eq.
    + intros c' (k & Hk)%list_elem_of_lookup. apply lookup_take_Some in Hk as [Hk Hkj].
      destruct (decide (k = j)) as [Heq|]; [assert (c' = cj) as -> by congruence; lia|].
      enough (c'.2 ≤ cj.2) by lia. apply (sorted_lookup _ calls k j _ _ Hsort Hk Hj). lia.
    + apply lookup_take_Some. split; [done|lia].
    + apply run_take; [lia|done].
    + done.
    + done.
  - cbn in Hi, Hj, Hri, Hrj. apply (IH s' i j); auto; lia.
Qed.
End platform.

(** C33: an assertion is accepted once.  Whatever is presented to a verifier whose clock does
    not run backwards, and whatever it remembers at first, two accepted assertions carry
    different claims; and an identifier is accepted again only when the earlier claims with
    it have expired. *)
Theorem assertion_single_use `{HMAC, PayloadText} v s calls i j ci cj si sj :
  StronglySorted (λ c c' : verify_call, c.2 ≤ c'.2) calls →
  calls !! i = Some ci → calls !! j = Some cj → (i < j)%nat →
  verify_run v s calls !! i = Some (Ok si) → verify_run v s calls !! j = Some (Ok sj) →
  ∃ p q, authentic v ci.1.2 = Some p ∧ authentic v cj.1.2 = Some q ∧ p ≠ q ∧
    (pl_ID p = pl_ID q → pl_ExpiresAt p * Second ≤ cj.2).
Proof.
  intros Hs Hi Hj Hlt Hri Hrj.
  destruct (run_single _ _ _ _ _ _ _ _ _ Hs Hi Hj Hlt Hri Hrj) as (p & q & Hp & Hq & Hex & Hid).
  exists p, q. split; [done|]. split; [done|]. split; [|done]. intros ->.
  specialize (Hid eq_refl). lia.
Qed.

(** ** What is signed verifies *)

Lemma signed_shape m k :
  let a := RawURLEncode m +:+ "." +:+ RawURLEncode k in
  a ≠ "" ∧ TrimSpace a = a ∧
  Split (bytes a) 46 = [bytes (RawURLEncode m); bytes (RawURLEncode k)].
Proof.
  intros a. destruct (RawURL_chars m) as [Hm _], (RawURL_chars k) as [Hk _].
  assert (bytes a = bytes (RawURLEncode m) ++ 46 :: bytes (RawURLEncode k)) as Hb
    by (unfold a; by rewrite !bytes_app).
  split_and!.
  - intros Ha. rewrite Ha in Hb. by destruct (bytes (RawURLEncode m)).
  - apply TrimSpace_visible. rewrite Hb. apply Forall_app. split; [|constructor; [|]].
    + eapply Forall_impl; [exact Hm|]. by intros ? (_ & ? & _).
    + unfold visible. lia.
    + eapply Forall_impl; [exact Hk|]. by intros ? (_ & ? & _).
  - rewrite Hb. apply Split_two; intros Hin.
    + rewrite Forall_forall in Hm. by apply Hm in Hin as (_ & _ & ?).
    + rewrite Forall_forall in Hk. by apply Hk in Hin as (_ & _ & ?).
Qed.

Section signed.
Context `{HMAC, PayloadText}.
Context (key audience : string) (claims : payload).
Let v := {| vf_key := key; vf_audience := audience |}.
Let m := RawURLEncode (payload_marshal claims).
Let a := m +:+ "." +:+ RawURLEncode (hmac key m).

Lemma authentic_signed : slen (hmac key m) = 32 →
  payload_decode (payload_marshal claims) = Some claims → slen a ≤ maxAssertion →
  authentic v a = Some claims.
Proof.
  intros Hmac Htext Hlen.
  destruct (signed_shape (payload_marshal claims) (hmac key m)) as (Hne & Htrim & Hsplit).
  fold m in Hne, Htrim, Hsplit. fold a in Hne, Htrim, Hsplit. unfold authentic.
  rewrite (bool_decide_eq_false_2 _ Hne), Hsplit, (bool_decide_eq_true_2 _ Htrim).
  replace (maxAssertion <? _) with false by lia. cbn [orb negb].
  rewrite !of_bytes_bytes, RawURL_roundtrip. cbn [mbind option_bind]. rewrite Hmac.
  rewrite (bool_decide_eq_true_2 (_ = _)) by done. cbn.
  unfold m. by rewrite RawURL_roundtrip.
Qed.
End signed.

Lemma acceptable_signed key audience subject ttl now t id :
  ValidateSubject subject = Ok () → slen id = 16 → Second ≤ ttl ≤ MaxTTL →
  now ≤ t < now / Second * Second + Second * (ttl / Second) →
  acceptable {| vf_key := key; vf_audience := audience |} {|
    pl_Subject := TrimSpace subject; pl_Administrator := true; pl_Audience := audience;
    pl_IssuedAt := now / Second; pl_ExpiresAt := (now / Second * Second + ttl) / Second;
    pl_ID := hex_EncodeToString id |} t = true.
Proof.
  intros Es Hid Httl Ht. unfold acceptable. cbn [pl_Subject pl_Administrator pl_Audience pl_IssuedAt
    pl_ExpiresAt pl_ID vf_audience].
  assert (ValidateSubject (TrimSpace subject) = Ok ()) as ->.
  { revert Es. unfold ValidateSubject. by rewrite TrimSpace_idem. }
  rewrite (bool_decide_eq_true_2 (audience = _)) by done.
  rewrite decode_encode, (bool_decide_eq_true_2 (is_Some _)) by by eexists.
  rewrite length_hex, Hid, Z.div_add_l by done. revert Httl Ht. unfold MaxTTL, clockSkew, Second.
  clear. intros Httl Ht. pose proof (Z.div_mod ttl 1000000000).
  pose proof (Z.mod_pos_bound ttl 1000000000). pose proof (Z.div_mod now 1000000000).
  pose proof (Z.mod_pos_bound now 1000000000). cbn [is_Ok andb]. lia.
Qed.

(** A remembered identifier is refused until the time stored for it. *)
Lemma Verify_seen `{HMAC, PayloadText} v ctx a claims t (sn : seen) e :
  authentic v a = Some claims → sn !! pl_ID claims = Some e → t < e →
  ∃ err, (Verify v ctx a t sn).1 = Err err.
Proof.
  intros Ha Hs Ht. unfold Verify. destruct (ctx_Err ctx) as [err|]; [by exists err|]. rewrite Ha.
  destruct (negb _); [by eexists|]. rewrite bool_decide_eq_true_2; [by eexists|].
  exists e. by apply map_lookup_filter_Some.
Qed.

(** C34: what the deployment adapter signs, the gateway accepts, once.  With the same key and
    audience, a lifetime of at least a second, a payload whose text parses back, and at a
    time within the lifetime (whole seconds from the second of signing), an assertion whose
    identifier is not among the unexpired ones remembered is verified for the trimmed subject,
    provided the memory has room.  Its identifier is then remembered with the end of its
    lifetime beside the unexpired ones, which are kept, and the same assertion is refused at
    every later time before that end. *)
Theorem signed_verifies `{HMAC, PayloadText} key audience ttl s v subject now id a t ctx sn :
  newSigner key audience ttl = Ok s → newVerifier key audience = Ok v →
  Second ≤ ttl → slen id = 16 → (∀ k m, slen (hmac k m) = 32) →
  payload_decode (payload_marshal (signed_claims s subject now id))
    = Some (signed_claims s subject now id) →
  Sign s subject now (Some id) = Ok a → slen a ≤ maxAssertion → ctx_Err ctx = None →
  now ≤ t < now / Second * Second + Second * (ttl / Second) →
  base.filter (λ p, t < p.2) sn !! hex_EncodeToString id = None →
  Z.of_nat (size (base.filter (λ p, t < p.2) sn)) < maxReplayEntries →
  let until := now / Second * Second + Second * (ttl / Second) in
  ∃ sn', Verify v ctx a t sn = (Ok (TrimSpace subject), sn') ∧
    sn' !! hex_EncodeToString id = Some until ∧
    (∀ i, i ≠ hex_EncodeToString id → sn' !! i = base.filter (λ p, t < p.2) sn !! i) ∧
    ∀ ctx' t', t ≤ t' < until → ∃ e, (Verify v ctx' a t' sn').1 = Err e.
Proof.
  intros Hs Hv Httl Hid Hmac Htext Ha Hlen Hctx Ht Hseen Hsize.
  unfold newSigner in Hs. destruct (negb _); [done|]. case_bool_decide; [done|].
  destruct (_ || _) eqn:Eb; [done|]. injection Hs as <-. apply orb_false_elim in Eb as [_ Eb].
  unfold newVerifier in Hv. destruct (negb _); [done|]. case_bool_decide; [done|].
  injection Hv as <-.
  unfold Sign in Ha. destruct (ValidateSubject subject) as [[]|] eqn:Es; [|done]. cbn in Ha.
  injection Ha as <-. cbv zeta.
  assert (authentic {| vf_key := key; vf_audience := TrimSpace audience |}
    (RawURLEncode (payload_marshal (signed_claims {| sg_key := key;
       sg_audience := TrimSpace audience; sg_ttl := ttl |} subject now id)) +:+ "." +:+
     RawURLEncode (hmac key (RawURLEncode (payload_marshal (signed_claims {| sg_key := key;
       sg_audience := TrimSpace audience; sg_ttl := ttl |} subject now id)))))
    = Some (signed_claims {| sg_key := key; sg_audience := TrimSpace audience; sg_ttl := ttl |}
       subject now id)) as Hauth by (apply authentic_signed; [apply Hmac|done|done]).
  assert (pl_ExpiresAt (signed_claims {| sg_key := key; sg_audience := TrimSpace audience;
      sg_ttl := ttl |} subject now id) * Second
    = now / Second * Second + Second * (ttl / Second)) as Hexp.
  { cbn. unfold Second. rewrite Z.div_add_l by done. lia. }
  eexists. split; [|split; [|split]].
  - unfold Verify. rewrite Hctx. cbn [sg_key]. rewrite Hauth.
    unfold signed_claims at 1. cbn [sg_audience sg_ttl].
    rewrite acceptable_signed by (try done; lia). cbn [negb]. cbv zeta.
    change (pl_ID (signed_claims _ subject now id)) with (hex_EncodeToString id).
    rewrite Hseen, bool_decide_eq_false_2 by (by intros [? ?]).
    replace (maxReplayEntries <=? _) with false by lia. cbn [orb].
    rewrite Hexp. cbn [pl_Subject signed_claims]. by rewrite TrimSpace_idem.
  - apply lookup_insert_eq.
  - intros i Hi. by apply lookup_insert_ne.
  - intros ctx' t' Ht'. eapply Verify_seen; [exact Hauth| |apply Ht']. apply lookup_insert_eq.
Qed.

(** ** Samples *)

Definition sample_hmac : HMAC := fun k m => sample_sha (k +:+ m).
Definition sample_key : string := of_bytes (replicate 32 107).
Definition sample_verifier : Verifier := {| vf_key := sample_key; vf_audience := "aud" |}.
Definition claims_of (c : Z) : payload := {|
  pl_Subject := "root"; pl_Administrator := true; pl_Audience := "aud"; pl_IssuedAt := 100;
  pl_ExpiresAt := 130; pl_ID := of_bytes (replicate 32 c) |}.
(** Two texts, of the claims with the identifiers aaa... and bbb... *)
Definition two_texts : PayloadText := {|
  payload_marshal := fun p => if bool_decide (p.(pl_ID) = of_bytes (replicate 32 97)) then "a" else "b";
  payload_decode := fun s => if bool_decide (s = "a") then Some (claims_of 97)
                             else if bool_decide (s = "b") then Some (claims_of 98) else None |}.
Definition signed_text (text : string) : string :=
  RawURLEncode text +:+ "." +:+ RawURLEncode (sample_hmac sample_key (RawURLEncode text)).
Definition sample_calls : list verify_call :=
  [(Background, signed_text "a", 110 * Second); (Background, signed_text "a", 111 * Second);
   (Background, signed_text "b", 112 * Second)].

Lemma assertion_single_use_witness :
  @verify_run sample_hmac two_texts sample_verifier ∅ sample_calls
  = [Ok "root"; Err ErrUnauthorized; Ok "root"] ∧
  ∃ p q, @authentic sample_hmac two_texts sample_verifier (signed_text "a") = Some p ∧
    @authentic sample_hmac two_texts sample_verifier (signed_text "b") = Some q ∧ p ≠ q.
Proof.
  assert (@verify_run sample_hmac two_texts sample_verifier ∅ sample_calls
    = [Ok "root"; Err ErrUnauthorized; Ok "root"]) as Hr by (vm_compute; reflexivity).
  split; [exact Hr|].
  destruct (@assertion_single_use sample_hmac two_texts sample_verifier ∅ sample_calls 0 2
    (Background, signed_text "a", 110 * Second) (Background, signed_text "b", 112 * Second)
    "root" "root" ltac:(repeat constructor; vm_compute; congruence) eq_refl eq_refl
    ltac:(lia) (f_equal (fun l => l !! 0%nat) Hr) (f_equal (fun l => l !! 2%nat) Hr))
    as (p & q & Hp & Hq & Hne & _).
  exists p, q. split; [exact Hp|]. split; [exact Hq|exact Hne].
Defined.

Definition sample_signer : Signer :=
  {| sg_key := sample_key; sg_audience := "aud"; sg_ttl := 30 * Second |}.
Definition sample_id : string := of_bytes (replicate 16 170).
(** The text of the claims that [sample_signer] signs at second 100. *)
Definition one_text : PayloadText := {|
  payload_marshal := fun _ => "claims";
  payload_decode := fun _ => Some (signed_claims sample_signer " root " (100 * Second) sample_id) |}.

Lemma sample_hmac_size k m : slen (sample_hmac k m) = 32.
Proof. apply sample_sha_size. Qed.

Lemma signed_verifies_witness :
  ∃ sn', @Verify sample_hmac one_text sample_verifier Background (signed_text "claims")
      (110 * Second) ∅ = (Ok (TrimSpace " root "), sn') ∧
    sn' !! hex_EncodeToString sample_id = Some (130 * Second) ∧
    ∃ e, (@Verify sample_hmac one_text sample_verifier Background (signed_text "claims")
      (129 * Second) sn').1 = Err e.
Proof.
  destruct (@signed_verifies sample_hmac one_text sample_key "aud" (30 * Second) sample_signer
    sample_verifier " root " (100 * Second) sample_id (signed_text "claims") (110 * Second)
    Background ∅) as (sn' & Hv & Hs & _ & Hagain); try exact sample_hmac_size;
    try (vm_compute; first [congruence|split; congruence]).
  exists sn'. split; [exact Hv|]. split; [exact Hs|].
  apply Hagain. vm_compute. split; congruence.
Defined.

(** The order of the lock is not the order of the readings: a request that read the clock
    before an assertion expired gets the lock after one that read it later, and the
    assertion is accepted a second time. *)
Definition late_texts : PayloadText := {|
  payload_marshal := fun _ => "";
  payload_decode := fun s => if bool_decide (s = "a") then Some (claims_of 97) else Some {|
    pl_Subject := "root"; pl_Administrator := true; pl_Audience := "aud"; pl_IssuedAt := 120;
    pl_ExpiresAt := 150; pl_ID := of_bytes (replicate 32 98) |} |}.
Example late_lock_replay :
  @verify_run sample_hmac late_texts sample_verifier ∅
    [(Background, signed_text "a", 110 * Second); (Background, signed_text "b", 130 * Second);
     (Background, signed_text "a", 129 * Second)]
  = [Ok "root"; Ok "root"; Ok "root"].
Proof. vm_compute. reflexivity. Qed.
