(* ===== verification/Traces.v ===== *)
(** * What bounded stores guarantee along a history

    Two interfaces, of limiters and of tickets, and what follows for whoever implements them.
    The limiters of the gateway count attempts of a key in windows: an attempt after the
    window of its key has ended starts a new one, and a window has room for so many.  The
    interface is what such a limiter does to the window of the key asked for and to the
    windows of other keys, which it may forget once they have ended. *)

From S2P Require Import Prelude.

(** A limiter on a store [M]: how it answers, and the window of a key in the store. *)
Record limiter := {
  lm_store : Type;
  lm_ask : string → Z → lm_store → bool * lm_store;
  lm_window : lm_store → string → option (Z * Z)   (** when it started, and the count *)
}.

(** The window in which an attempt counts. *)
Definition current (duration now : Z) (w : option (Z * Z)) : Z * Z :=
  match w with
  | Some (started, n) => if started + duration <=? now then (now, 0) else (started, n)
  | None => (now, 0)
  end.

Class FixedWindow (l : limiter) (limit duration : Z) : Prop := {
  fw_duration : 0 < duration;
  fw_limit : 0 ≤ limit;
  fw_asked key now m b m' : 0 < now → lm_ask l key now m = (b, m') →
    let '(started, n) := current duration now (lm_window l m key) in
    b = (n <? limit) ∧ lm_window l m' key = Some (started, if b then n + 1 else n);
  fw_other key key' now m b m' : 0 < now → lm_ask l key now m = (b, m') → key' ≠ key →
    lm_window l m' key' = lm_window l m key' ∨
    (lm_window l m' key' = None ∧
     ∃ started n, lm_window l m key' = Some (started, n) ∧ started + duration ≤ now)
}.

(** The answers to attempts, in order. *)
Fixpoint ask_all (l : limiter) (m : lm_store l) (calls : list (string * Z)) : list bool :=
  match calls with
  | [] => []
  | (key, now) :: calls => let '(b, m) := lm_ask l key now m in b :: ask_all l m calls
  end.

(** The attempts of [key] that were allowed from [t] on, within [duration]. *)
Definition within (key : string) (t duration : Z) (c : string * Z * bool) : bool :=
  bool_decide (c.1.1 = key) && (t <=? c.1.2) && (c.1.2 <? t + duration) && c.2.
Definition allowed (l : limiter) (m : lm_store l) (calls : list (string * Z)) (key : string)
    (t duration : Z) : Z :=
  Z.of_nat (length (base.filter (fun c => within key t duration c = true)
                      (zip calls (ask_all l m calls)))).

Section bound.
Context (l : limiter) (limit duration : Z) `{!FixedWindow l limit duration}.
Context (key : string) (t : Z).

(** The room left for [key] in the store until [t + duration]. *)
Definition room (m : lm_store l) : Z :=
  match lm_window l m key with
  | Some (started, n) => if t <=? started then limit - n else 2 * limit - n
  | None => limit
  end.

Definition counted (m : lm_store l) : Prop :=
  match lm_window l m key with Some (_, n) => 0 ≤ n ≤ limit | None => True end.

Lemma counted_room m : counted m → 0 ≤ room m ≤ 2 * limit.
Proof.
  pose proof fw_limit. unfold counted, room. destruct (lm_window l m key) as [[st n]|]; [|lia].
  destruct (t <=? st); lia.
Qed.

(** One attempt, of [key] or not. *)
Lemma ask_counted key' now m b m' :
  0 < now → counted m → lm_ask l key' now m = (b, m') → counted m'.
Proof.
  intros Hnow Hc Ha. pose proof fw_limit. destruct (decide (key' = key)) as [->|Hne].
  - pose proof (fw_asked _ _ _ _ _ Hnow Ha) as Hw. unfold counted in *.
    destruct (current _ _ _) as [st n] eqn:Ecur. destruct Hw as [-> ->].
    assert (0 ≤ n ≤ limit) as Hn.
    { unfold current in Ecur. destruct (lm_window l m key) as [[? ?]|];
        [destruct (_ <=? _)|]; simplify_eq; lia. }
    destruct (n <? limit) eqn:E; lia.
  - unfold counted in *. destruct (fw_other _ _ _ _ _ _ Hnow Ha (not_eq_sym Hne)) as [->|[-> _]]; done.
Qed.

Lemma ask_room key' now m b m' :
  0 < now → t ≤ now < t + duration → counted m → lm_ask l key' now m = (b, m') →
  room m' + (if within key t duration (key', now, b) then 1 else 0) ≤ room m.
Proof.
  intros Hnow Ht Hc Ha. pose proof fw_limit. pose proof fw_duration. unfold within. cbn [fst snd].
  replace (t <=? now) with true by lia. replace (now <? t + duration) with true by lia.
  destruct (decide (key' = key)) as [->|Hne].
  - rewrite bool_decide_eq_true_2 by done. cbn [andb]. pose proof (fw_asked _ _ _ _ _ Hnow Ha) as Hw.
    unfold room, counted in *. destruct (current _ _ _) as [st n] eqn:Ecur.
    destruct Hw as [-> ->]. unfold current in Ecur.
    destruct (lm_window l m key) as [[st0 n0]|];
      [destruct (st0 + duration <=? now) eqn:E|]; simplify_eq;
      repeat (case_match; simplify_eq; try lia).
  - rewrite bool_decide_eq_false_2 by done. cbn [andb].
    unfold room, counted in *. destruct (fw_other _ _ _ _ _ _ Hnow Ha (not_eq_sym Hne))
      as [->|(-> & st & n & Hm & Hst)]; [lia|]. rewrite Hm in Hc |- *.
    destruct (t <=? st) eqn:E; lia.
Qed.

Lemma allowed_cons m key' now calls :
  allowed l m ((key', now) :: calls) key t duration =
  let '(b, m') := lm_ask l key' now m in
  (if within key t duration (key', now, b) then 1 else 0) + allowed l m' calls key t duration.
Proof.
  unfold allowed. cbn [ask_all]. destruct (lm_ask l key' now m) as [b m']. cbn [zip].
  rewrite filter_cons. destruct (decide _) as [->|Hn]; cbn [length]; [lia|].
  by destruct (within _ _ _ _).
Qed.

Definition in_order (calls : list (string * Z)) : Prop :=
  StronglySorted (fun c c' => c.2 ≤ c'.2) calls ∧ Forall (fun c => 0 < c.2) calls.

Lemma allowed_late calls : ∀ m, Forall (λ c, t + duration ≤ c.2) calls →
  allowed l m calls key t duration = 0.
Proof.
  induction calls as [|[key' now] calls IH]; intros m Hf; [done|].
  apply Forall_cons in Hf as [Hn Hf]. cbn in Hn. rewrite allowed_cons.
  destruct (lm_ask l key' now m) as [b m']. rewrite IH by done. unfold within. cbn [fst snd].
  replace (now <? t + duration) with false by lia. by rewrite andb_false_r.
Qed.

Lemma allowed_room calls : ∀ m, in_order calls → Forall (λ c, t ≤ c.2) calls → counted m →
  allowed l m calls key t duration ≤ room m.
Proof.
  induction calls as [|[key' now] calls IH]; intros m [Hs Hp] Ht Hc;
    [unfold allowed; cbn; by apply counted_room|].
  pose proof Hs as Hs'. apply StronglySorted_inv in Hs' as [Hs' Hle].
  pose proof Hp as Hp'. apply Forall_cons in Hp' as [Hnow Hp'].
  pose proof Ht as Ht'. apply Forall_cons in Ht' as [Htn Ht']. cbn in Hnow, Htn, Hle.
  destruct (decide (now < t + duration)) as [Hin|Hout].
  - rewrite allowed_cons. destruct (lm_ask l key' now m) as [b m'] eqn:Ha.
    pose proof (ask_room _ _ _ _ _ Hnow (conj Htn Hin) Hc Ha).
    specialize (IH m' (conj Hs' Hp') Ht' (ask_counted _ _ _ _ _ Hnow Hc Ha)). lia.
  - rewrite allowed_late; [by apply counted_room|]. constructor; [cbn; lia|].
    eapply Forall_impl; [exact Hle|]. cbn. lia.
Qed.

(** No more than twice the limit within any one duration. *)
Lemma allowed_bounded calls : ∀ m, in_order calls → counted m →
  allowed l m calls key t duration ≤ 2 * limit.
Proof.
  induction calls as [|[key' now] calls IH]; intros m Ho Hc.
  { unfold allowed. cbn. pose proof fw_limit. lia. }
  pose proof Ho as [Hs Hp]. apply StronglySorted_inv in Hs as [Hs Hle].
  apply Forall_cons in Hp as [Hnow Hp]. cbn in Hnow, Hle.
  destruct (decide (t ≤ now)) as [Ht|Ht].
  - etrans; [apply allowed_room; [done| |done]|by apply counted_room].
    constructor; [done|]. eapply Forall_impl; [exact Hle|]. cbn. lia.
  - rewrite allowed_cons. destruct (lm_ask l key' now m) as [b m'] eqn:Ha.
    specialize (IH m' (conj Hs Hp) (ask_counted _ _ _ _ _ Hnow Hc Ha)).
    unfold within. cbn [fst snd]. replace (t <=? now) with false by lia.
    rewrite andb_false_r. cbn. lia.
Qed.
End bound.

(** * Tickets that are redeemed once

    The gateway hands out short-lived tickets — authorization codes, enrolments of a web
    login — that a later request redeems.  The interface says what one request may do to
    the pending tickets; the history of a server that keeps to it is then one in which every
    ticket that is redeemed was issued before, and redeemed at most once since. *)

(** A server: the answer to a request, and the pending tickets of a state. *)
Record server := {
  sv_request : Type;
  sv_response : Type;
  sv_state : Type;
  sv_ticket : Type;
  sv_serve : sv_request → sv_state → sv_response * sv_state;
  sv_pending : sv_state → gmap string sv_ticket
}.

Section run.
Context (v : server).

(** The state after requests served one after the other, and their responses. *)
Definition run_state (s : sv_state v) (l : list (sv_request v)) : sv_state v :=
  foldl (fun s x => (sv_serve v x s).2) s l.
Fixpoint run (s : sv_state v) (l : list (sv_request v)) : list (sv_response v) :=
  match l with
  | [] => []
  | x :: l => let '(r, s') := sv_serve v x s in r :: run s' l
  end.
End run.

(** [issues x r d g s]: in the state [s] the answer [r] to [x] hands out the ticket [g] under
    the name [d]; [redeems x r d]: it redeems the ticket of that name, and [honours x r g]
    that this ticket is [g]. *)
Class SingleUse (v : server)
    (issues : sv_request v → sv_response v → string → sv_ticket v → sv_state v → Prop)
    (redeems : sv_request v → sv_response v → string → Prop)
    (honours : sv_request v → sv_response v → sv_ticket v → Prop) : Prop := {
  su_pending x s r s' : sv_serve v x s = (r, s') →
    sv_pending v s' ⊆ sv_pending v s ∨
    ∃ d g, issues x r d g s ∧ sv_pending v s' ⊆ <[d := g]> (sv_pending v s);
  su_redeemed x s r s' d : sv_serve v x s = (r, s') → redeems x r d →
    ∃ g, sv_pending v s !! d = Some g ∧ honours x r g ∧ sv_pending v s' !! d = None
}.

Section history.
Context (v : server) issues redeems honours `{!SingleUse v issues redeems honours}.

(** The [k]-th request of a history redeems the ticket [d]. *)
Definition redeemed_at (s : sv_state v) (l : list (sv_request v)) (d : string) (k : nat) : Prop :=
  ∃ x r, l !! k = Some x ∧ run v s l !! k = Some r ∧ redeems x r d.

(** The ticket [d] is [g], which the [i]-th request handed out. *)
Definition issued_at (s : sv_state v) (l : list (sv_request v)) (d : string) (g : sv_ticket v)
    (i : nat) : Prop :=
  ∃ x r, l !! i = Some x ∧ run v s l !! i = Some r ∧ issues x r d g (run_state v s (take i l)).

(** Where a redeemed ticket came from. *)
Lemma redeemed_origin l : ∀ s j x r d,
  l !! j = Some x → run v s l !! j = Some r → redeems x r d →
  ∃ g, honours x r g ∧
    ((sv_pending v s !! d = Some g ∧ ∀ k, (k < j)%nat → ¬ redeemed_at s l d k) ∨
     ∃ i, (i < j)%nat ∧ issued_at s l d g i ∧ ∀ k, (i < k < j)%nat → ¬ redeemed_at s l d k).
Proof.
  induction l as [|x0 l IH]; intros s j x r d Hl Hr Hx; [done|].
  cbn [run] in Hr. destruct (sv_serve v x0 s) as [r0 s1] eqn:E0.
  assert (∀ k, redeemed_at s (x0 :: l) d (S k) → redeemed_at s1 l d k) as Hshift.
  { intros k (x' & r' & Hl' & Hr' & Hx'). exists x', r'. cbn [run] in Hr'. by rewrite E0 in Hr'. }
  destruct j as [|j].
  { injection Hl as ->. injection Hr as ->.
    destruct (su_redeemed _ _ _ _ _ E0 Hx) as (g & Hg & Hh & _). exists g.
    split; [done|]. left. split; [done|]. lia. }
  destruct (IH s1 j x r d Hl Hr Hx) as (g & Hh & [[Hg Hno]|(i & Hi & Hiss & Hno)]);
    exists g; (split; [done|]).
  2:{ right. exists (S i). split; [lia|]. split.
      - destruct Hiss as (x' & r' & ? & ? & Hs). exists x', r'. cbn [run]. rewrite E0.
        split_and!; [done..|]. cbn [take run_state foldl]. by rewrite E0.
      - intros [|k] Hk Hsuc; [lia|]. apply (Hno k); [lia|by apply Hshift]. }
  assert (¬ redeemed_at s (x0 :: l) d 0) as H0.
  { intros (x' & r' & [= <-] & Hr' & Hx'). cbn [run] in Hr'. rewrite E0 in Hr'.
    injection Hr' as <-. destruct (su_redeemed _ _ _ _ _ E0 Hx') as (_ & _ & _ & Hn). congruence. }
  destruct (su_pending _ _ _ _ E0) as [Hs|(d' & g' & Hiss & Hs)];
    apply (lookup_weaken _ _ _ _ Hg) in Hs.
  - left. split; [done|]. intros [|k] Hk Hsuc; [done|]. apply (Hno k); [lia|by apply Hshift].
  - apply lookup_insert_Some in Hs as [[-> ->]|[Hne Hs]].
    + right. exists 0%nat. split; [lia|]. split.
      * exists x0, r0. cbn [run]. by rewrite E0.
      * intros [|k] Hk Hsuc; [lia|]. apply (Hno k); [lia|by apply Hshift].
    + left. split; [done|]. intros [|k] Hk Hsuc; [done|]. apply (Hno k); [lia|by apply Hshift].
Qed.

(** From a state without pending tickets. *)
Lemma redeemed_once s l j x r d :
  sv_pending v s = ∅ → l !! j = Some x → run v s l !! j = Some r → redeems x r d →
  ∃ g i, honours x r g ∧ (i < j)%nat ∧ issued_at s l d g i ∧
    ∀ k, (i < k < j)%nat → ¬ redeemed_at s l d k.
Proof.
  intros Hs Hl Hr Hx. destruct (redeemed_origin l s j x r d Hl Hr Hx)
    as (g & Hh & [[Hg _]|(i & Hi & Hiss & Hno)]); [by rewrite Hs, lookup_empty in Hg|].
  by exists g, i.
Qed.
End history.
