(* ===== verification/OAuth.v ===== *)
(** * OAuth clients and token sets

    Source: internal/gateway/state/oauth.go.  Environment readings are arguments in the
    order the code makes them. *)

From S2P Require Import Prelude.
From S2P Require Import GoStrings.
From S2P Require Import Bolt.
From S2P Require Import NetIP.
From S2P Require Import RemotePolicy.
From S2P Require Import StateTypes.
From S2P Require Import Records.
From S2P Require Import Policy.

Definition oauthClientPrefix : string := "dsmctl_oauth_client_".
Definition oauthRefreshPrefix : string := "dsmctl_oauth_refresh_".

(** ** Input normalisation *)

Section normalize.
Context `{NetURL, Unicode}.

Definition err_redirect : error :=
  ErrNew "redirect_uri must be an absolute URI without credentials or fragment".

Definition validateOAuthRedirectURI (raw : string) : result error string :=
  match url_Parse (TrimSpace raw) with
  | None => Err err_redirect
  | Some p =>
      if bool_decide (u_Scheme p = "") || bool_decide (u_Host p = "") || u_User p
         || negb (bool_decide (u_Fragment p = ""))
      then Err err_redirect
      else if bool_decide (ToLower (u_Scheme p) = "https") then Ok (u_String p)
      else if bool_decide (ToLower (u_Scheme p) = "http") then
        let host := ToLower (u_Hostname p) in
        if negb (bool_decide (host = "localhost")) && negb (host_is_loopback host)
        then Err (ErrNew "http redirect_uri is allowed only for localhost or loopback IPs")
        else Ok (u_String p)
      else Err (ErrNew "redirect_uri must use https or loopback http")
  end.

Definition validateOAuthResource (raw : string) : result error string :=
  let bad := ErrNew "resource must be an absolute http or https URI without credentials, query, or fragment" in
  match url_Parse (TrimSpace raw) with
  | None => Err bad
  | Some p =>
      if bool_decide (u_Scheme p = "") || bool_decide (u_Host p = "") || u_User p
         || negb (bool_decide (u_Fragment p = "")) || negb (bool_decide (u_RawQuery p = ""))
      then Err bad
      else if negb (bool_decide (u_Scheme p = "http")) && negb (bool_decide (u_Scheme p = "https"))
      then Err (ErrNew "resource must use http or https")
      else Ok (u_String p)
  end.

(** Every trimmed value is allowed; duplicates are dropped; the result is sorted. *)
Definition normalizeOAuthValues (values allowed : list string) :
    result error (list string) :=
  let trimmed := TrimSpace <$> values in
  if forallb (fun v => bool_decide (v ∈ allowed)) trimmed
  then Ok (sort_strings (dedup trimmed))
  else Err (ErrNew "unsupported OAuth value").

(** The loop over the redirect URIs: the first invalid one is the error. *)
Fixpoint redirect_loop (raws : list string) : result error (list string) :=
  match raws with
  | [] => Ok []
  | raw :: raws =>
      redirect ← validateOAuthRedirectURI raw;
      rest ← redirect_loop raws;
      Ok (redirect :: rest)
  end.

Definition normalizeOAuthClientInput (input : OAuthClientInput) :
    result error OAuthClientInput :=
  let name0 := TrimSpace (oi_Name input) in
  let name := if bool_decide (name0 = "") then "MCP client" else name0 in
  if (128 <? slen name) || existsb IsControl (string_runes name)
  then Err (ErrNew "client_name must be 1 to 128 bytes without control characters") else
  let n := Z.of_nat (length (oi_RedirectURIs input)) in
  if (n =? 0) || (8 <? n)
  then Err (ErrNew "redirect_uris must contain 1 to 8 entries") else
  redirects ← redirect_loop (oi_RedirectURIs input);
  let grants0 := match oi_GrantTypes input with
                 | [] => ["authorization_code"; "refresh_token"] | l => l end in
  let bad_grants := ErrNew "grant_types must include authorization_code and may include refresh_token" in
  match normalizeOAuthValues grants0 ["authorization_code"; "refresh_token"] with
  | Err _ => Err bad_grants
  | Ok grants =>
      if negb (sliceContains grants "authorization_code") then Err bad_grants else
      let responses0 := match oi_ResponseTypes input with [] => ["code"] | l => l end in
      let bad_responses := ErrNew "response_types must contain only code" in
      match normalizeOAuthValues responses0 ["code"] with
      | Err _ => Err bad_responses
      | Ok responses =>
          if negb (sliceContains responses "code") then Err bad_responses else
          let method0 := TrimSpace (oi_TokenEndpointAuthMethod input) in
          let method := if bool_decide (method0 = "") then "none" else method0 in
          if negb (bool_decide (method = "none"))
          then Err (ErrNew "only public clients with token_endpoint_auth_method none are supported")
          else Ok {| oi_Name := name; oi_RedirectURIs := dedup redirects;
                     oi_GrantTypes := grants; oi_ResponseTypes := responses;
                     oi_TokenEndpointAuthMethod := method |}
      end
  end.
End normalize.

(** ** Operations *)

Section ops.
Context `{Sha256, NetURL, Unicode}.

(** The transaction has not touched the bucket when it reads [Stats().KeyN]. *)
Definition RegisterOAuthClient (ctx : context) (input : OAuthClientInput)
    (rid : string) (now : Z) : GW OAuthClient :=
  ctx_check ctx;;
  input ← lift (normalizeOAuthClientInput input);
  let client := {|
    oc_ID := oauthClientPrefix +:+ rid; oc_Name := oi_Name input;
    oc_RedirectURIs := oi_RedirectURIs input; oc_GrantTypes := oi_GrantTypes input;
    oc_ResponseTypes := oi_ResponseTypes input;
    oc_TokenEndpointAuthMethod := oi_TokenEndpointAuthMethod input;
    oc_CreatedAt := now |} in
  Update (
    d ← getDB;
    check (count (b_oauth_clients d) <? MaxOAuthClients)
      (ErrNew "at most 128 OAuth clients may be registered");;
    modifyDB (fun d => set_b_oauth_clients
      (<[oc_ID client := Json client]> (b_oauth_clients d)) d));;
  mret client.

(** [Repository.OAuthClient]; the record type keeps that name here. *)
Definition GetOAuthClient (ctx : context) (id : string) : GW OAuthClient :=
  ctx_check ctx;;
  View (fun d =>
    match b_oauth_clients d !! TrimSpace id with
    | Some (Json client) => Ok client
    | _ => Err (ErrNotFound "OAuth client")
    end).

Definition put_refresh (k : string) (r : oauthRefreshRecord) : GW () :=
  modifyDB (fun d => set_b_oauth_refresh (<[k := Json r]> (b_oauth_refresh d)) d).
Definition delete_refresh (k : string) : GW () :=
  modifyDB (fun d => set_b_oauth_refresh (delete k (b_oauth_refresh d)) d).

Definition access_expires_in : Z := OAuthAccessTokenTTL / Second.

Definition IssueOAuthTokenSet (ctx : context) (input : OAuthTokenInput) (now : Z)
    (rtok1 rid rtok2 : string) : GW OAuthTokenSet :=
  ctx_check ctx;;
  let clientID := TrimSpace (ot_ClientID input) in
  let resource := TrimSpace (ot_Resource input) in
  check (negb (bool_decide (clientID = "") || bool_decide (resource = "")))
    ErrOAuthUnauthorized;;
  lift (validateOAuthResource resource);;
  tokenInput ← lift (normalizeMCPTokenInput
    {| ti_Name := ot_Name input; ti_Scopes := ot_Scopes input;
       ti_NASAllowlist := ot_NASAllowlist input;
       ti_ExpiresAt := Some (now + OAuthAccessTokenTTL); ti_ApprovalMode := "" |} now);
  let '(accessRaw, record0) := newMCPTokenRecord tokenInput now rtok1 rid in
  let accessRecord :=
    upd_tr (fun t => set_tk_OAuthClientID clientID (set_tk_AuthMode "oauth" t)) record0 in
  let refreshRaw := oauthRefreshPrefix +:+ rtok2 in
  let refreshRecord := {|
    rf_TokenID := tr_ID accessRecord; rf_ClientID := clientID; rf_Resource := resource;
    rf_CreatedAt := now; rf_ExpiresAt := now + OAuthRefreshTokenTTL |} in
  Update (
    d ← getDB;
    check (bool_decide (is_Some (b_oauth_clients d !! clientID))) ErrOAuthUnauthorized;;
    putMCPTokenRecord accessRecord;;
    put_refresh (sha256 refreshRaw) refreshRecord);;
  mret {| os_AccessToken := accessRaw; os_RefreshToken := refreshRaw;
          os_Token := tr_MCPToken accessRecord; os_ExpiresIn := access_expires_in |}.

Definition RefreshOAuthTokenSet (ctx : context) (rawRefresh clientID resource : string)
    (rtok1 rtok2 : string) (now : Z) : GW OAuthTokenSet :=
  ctx_check ctx;;
  let clientID := TrimSpace clientID in
  let resource := TrimSpace resource in
  check (HasPrefix rawRefresh oauthRefreshPrefix && negb (bool_decide (clientID = ""))
         && negb (bool_decide (resource = ""))) ErrOAuthUnauthorized;;
  let oldRefreshDigest := sha256 rawRefresh in
  let newAccessRaw := mcpTokenPrefix +:+ rtok1 in
  let newRefreshRaw := oauthRefreshPrefix +:+ rtok2 in
  token ← mask ErrOAuthUnauthorized (Update (
    d ← getDB;
    match b_oauth_refresh d !! oldRefreshDigest with
    | Some (Json refresh) =>
        check (bool_decide (rf_ClientID refresh = clientID)
               && bool_decide (rf_Resource refresh = resource)
               && (now <? rf_ExpiresAt refresh)) ErrOAuthUnauthorized;;
        record ← mask ErrOAuthUnauthorized (lift (readMCPToken d (rf_TokenID refresh)));
        check (bool_decide (tk_RevokedAt (tr_MCPToken record) = None))
          ErrOAuthUnauthorized;;
        delete_digest (tr_Digest record);;
        let record := upd_tr (fun t =>
          set_tk_ExpiresAt (Some (now + OAuthAccessTokenTTL)) (set_tk_UpdatedAt now t))
          (set_tr_Digest (sha256 newAccessRaw) record) in
        putMCPTokenRecord record;;
        delete_refresh oldRefreshDigest;;
        put_refresh (sha256 newRefreshRaw) refresh;;
        mret (tr_MCPToken record)
    | _ => fail ErrOAuthUnauthorized
    end));
  mret {| os_AccessToken := newAccessRaw; os_RefreshToken := newRefreshRaw;
          os_Token := token; os_ExpiresIn := access_expires_in |}.
End ops.
