(* ===== verification/Gateway.v ===== *)
(** * The HTTP boundary of the gateway

    Source: internal/gateway/server.go, and the checks of config.go in the same directory.
    A handler is a function on a request and the state: the windows of the rate limiter, the
    bindings of MCP sessions, the count of running requests, and a state [W] of everything
    behind the boundary.  The authenticator, the auditor, the OAuth provider and the handlers
    behind are arguments, as they are interfaces in Go; so are the SDK's bearer middleware and
    its MCP handler, which may change the state while a request runs, as other requests do.

    Not here: log lines, and the start and stop of the process ([Serve]). *)

From S2P Require Import Prelude.
From S2P Require Import GoStrings.
From S2P Require Import NetIP.
From S2P Require Import RemotePolicy.
From S2P Require Import Password.
From S2P Require Import StateTypes.
From S2P Require Import McpPolicy.
From S2P Require Import Policy.
From S2P Require Import Http.
From S2P Require Import TlsTrust.

Definition defaultMaxBodyBytes : Z := 1048576.
Definition defaultMaxConcurrent : Z := 8.
Definition defaultMCPSessionTTL : Z := 30 * Minute.
Definition maxBoundMCPSessions : Z := 4096.
Definition MinTokenBytes : Z := 32.

(** ** Responses *)

Inductive http_body := TextBody (s : string) | ObjectBody (o : list (string * string)) | OtherBody.
Record http_response := {
  hr_Status : Z;
  hr_Header : list (string * string);
  hr_Body : http_body
}.

Definition header_of (k : string) (r : http_response) : string :=
  default "" (snd <$> head (base.filter (fun p => p.1 = k) (hr_Header r))).
Definition with_header (k v : string) (r : http_response) : http_response := {|
  hr_Status := hr_Status r; hr_Header := (k, v) :: hr_Header r; hr_Body := hr_Body r |}.

Definition http_Error (status : Z) (msg : string) : http_response :=
  {| hr_Status := status; hr_Header := []; hr_Body := TextBody msg |}.
Definition writeJSON (status : Z) (k v : string) : http_response := {|
  hr_Status := status;
  hr_Header := [("Content-Type", "application/json"); ("Cache-Control", "no-store")];
  hr_Body := ObjectBody [(k, v)] |}.
Definition methodNotAllowed (methods : string) : http_response :=
  with_header "Allow" methods (http_Error 405 "method not allowed").

(** ** Checks of the options *)

(** [unicode.IsSpace] *)
Definition IsSpace (r : Z) : bool :=
  in_range 9 13 r || bool_decide (r ∈ [32; 133; 160; 5760; 8232; 8233; 8239; 8287; 12288])
  || in_range 8192 8202 r.

Definition ValidateDevelopmentToken (token : string) : result error () :=
  if slen token <? MinTokenBytes
  then Err (ErrNew "development token must be at least 32 bytes") else
  if existsb IsSpace (string_runes token)
  then Err (ErrNew "development token must not contain whitespace") else Ok ().

Section hosts.
Context `{Unicode, NetURL}.

(** A trailing dot of a lower-case name is dropped. *)
Definition TrimSuffix_dot (s : string) : string :=
  match reverse (bytes s) with 46 :: l => of_bytes (reverse l) | _ => s end.

Definition normalizeHost (value : string) : result error string :=
  let value := TrimSpace value in
  if bool_decide (value = "") then Err (ErrNew "host is empty") else
  match ParseIP value with
  | Some ip => Ok (ip_String ip)
  | None =>
      let finish value :=
        let value := TrimSuffix_dot (ToLower value) in
        if bool_decide (value = "") || ContainsAny value [32; 47; 92]
        then Err (ErrNew "host is invalid") else Ok value in
      match SplitHostPort value with
      | Some host =>
          match ParseIP host with Some ip => Ok (ip_String ip) | None => finish host end
      | None =>
          if ContainsAny value [58] then Err (ErrNew "host has an invalid port")
          else finish value
      end
  end.

Definition normalizeOrigin (value : string) : result error string :=
  let absolute := Err (ErrNew "origin must be an absolute http or https origin") in
  match url_Parse (TrimSpace value) with
  | None => absolute
  | Some parsed =>
      if negb (bool_decide (u_Scheme parsed = "http")) && negb (bool_decide (u_Scheme parsed = "https"))
         || bool_decide (u_Host parsed = "")
      then absolute else
      if u_User parsed || negb (bool_decide (u_RawQuery parsed = ""))
         || negb (bool_decide (u_Fragment parsed = ""))
         || negb (bool_decide (u_Path parsed = "")) && negb (bool_decide (u_Path parsed = "/"))
      then Err (ErrNew "origin must not contain credentials, a path, query, or fragment") else
      host ← normalizeHost (u_Host parsed);
      let host := if ContainsAny host [58] then "[" +:+ host +:+ "]" else host in
      let host := if bool_decide (u_Port parsed = "") then host
                  else host +:+ ":" +:+ u_Port parsed in
      Ok (ToLower (u_Scheme parsed) +:+ "://" +:+ host)
  end.

(** Every value is normal, or the first that is not is the error. *)
Fixpoint normalize_all (f : string → result error string) (values : list string) :
    result error (gset string) :=
  match values with
  | [] => Ok ∅
  | value :: values => x ← f value; rest ← normalize_all f values; Ok ({[x]} ∪ rest)
  end.
Definition normalizeHosts : list string → result error (gset string) :=
  normalize_all normalizeHost.
Definition normalizeOrigins : list string → result error (gset string) :=
  normalize_all normalizeOrigin.
End hosts.

(** ** The rate of a token *)

Record identityWindow := { iw_Started : Z; iw_Count : Z }.
Definition maxIdentityCalls : Z := 120.
Definition maxIdentityWindows : Z := 1024.

Definition Allow (id : string) (now : Z) (windows : gmap string identityWindow) :
    bool * gmap string identityWindow :=
  let window := default {| iw_Started := zeroTime; iw_Count := 0 |} (windows !! id) in
  let window := if IsZero (iw_Started window) || (Minute <=? now - iw_Started window)
                then {| iw_Started := now; iw_Count := 0 |} else window in
  if maxIdentityCalls <=? iw_Count window then (false, <[id := window]> windows) else
  let windows :=
    <[id := {| iw_Started := iw_Started window; iw_Count := iw_Count window + 1 |}]> windows in
  (true,
   if maxIdentityWindows <? Z.of_nat (size windows)
   then base.filter (fun p => now - iw_Started p.2 < 2 * Minute) windows else windows).

(** ** Sessions and their tokens *)

Record mcpSessionTokenBinding := { sb_TokenID : string; sb_LastSeen : Z }.
Inductive mcpSessionAuthorization :=
| mcpSessionAuthorized | mcpSessionMissing | mcpSessionTokenMismatch.

Abbreviation bindings := (gmap string mcpSessionTokenBinding).

Definition prune (now : Z) (b : bindings) : bindings :=
  base.filter (fun p => now - sb_LastSeen p.2 < defaultMCPSessionTTL) b.

Definition Authorize (sessionID tokenID : string) (now : Z) (b : bindings) :
    mcpSessionAuthorization * bindings :=
  let b := prune now b in
  match b !! sessionID with
  | None => (mcpSessionMissing, b)
  | Some binding =>
      if negb (bool_decide (sb_TokenID binding = tokenID)) then (mcpSessionTokenMismatch, b) else
      (mcpSessionAuthorized,
       <[sessionID := {| sb_TokenID := sb_TokenID binding; sb_LastSeen := now |}]> b)
  end.

Definition CanCreate (now : Z) (b : bindings) : bool * bindings :=
  let b := prune now b in (Z.of_nat (size b) <? maxBoundMCPSessions, b).

Definition Bind (sessionID tokenID : string) (now : Z) (b : bindings) : bindings :=
  if bool_decide (sessionID = "") || bool_decide (tokenID = "") then b else
  let b := prune now b in
  let foreign := match b !! sessionID with
                 | Some existing => negb (bool_decide (sb_TokenID existing = tokenID))
                 | None => false
                 end in
  if foreign then b else
  if maxBoundMCPSessions <=? Z.of_nat (size b) then b else
  <[sessionID := {| sb_TokenID := tokenID; sb_LastSeen := now |}]> b.

Definition Delete (sessionID : string) (b : bindings) : bindings := delete sessionID b.

(** ** The state and the interfaces *)

Record gstate (W : Type) := {
  gs_limiter : gmap string identityWindow;
  gs_sessions : bindings;
  gs_running : Z;
  gs_rest : W
}.
Arguments gs_limiter {W} _.
Arguments gs_sessions {W} _.
Arguments gs_running {W} _.
Arguments gs_rest {W} _.

(** The readings the boundary makes for one request. *)
Record greadings := {
  gd_request_id : option string;   (** sixteen random bytes *)
  gd_nano : Z;
  gd_auth : Z;
  gd_limit : Z;
  gd_authorize : Z;
  gd_create : Z;
  gd_bind : Z
}.

Definition set_limiter {W} (l : gmap string identityWindow) (s : gstate W) : gstate W := {|
  gs_limiter := l; gs_sessions := gs_sessions s; gs_running := gs_running s;
  gs_rest := gs_rest s |}.
Definition set_sessions {W} (b : bindings) (s : gstate W) : gstate W := {|
  gs_limiter := gs_limiter s; gs_sessions := b; gs_running := gs_running s;
  gs_rest := gs_rest s |}.
Definition set_running {W} (n : Z) (s : gstate W) : gstate W := {|
  gs_limiter := gs_limiter s; gs_sessions := gs_sessions s; gs_running := n;
  gs_rest := gs_rest s |}.
Definition set_rest {W} (w : W) (s : gstate W) : gstate W := {|
  gs_limiter := gs_limiter s; gs_sessions := gs_sessions s; gs_running := gs_running s;
  gs_rest := w |}.

Abbreviation Handler W := (http_request → gstate W → http_response * gstate W).

Definition MCPAuthenticator (W : Type) : Type :=
  context → string → Z → W → result error Principal * W.
(** [AppendAudit] of an auditor; the boundary drops its error. *)
Definition MCPAuditor (W : Type) : Type := context → AuditEvent → W → W.
Record OAuthProvider (W : Type) := {
  op_ServeHTTP : Handler W;
  op_ResourceMetadataURL : http_request → string;
  op_ScopeChallenge : string
}.
Arguments op_ServeHTTP {W} _.
Arguments op_ResourceMetadataURL {W} _.
Arguments op_ScopeChallenge {W} _.

Record Options (W : Type) := {
  o_MCPServer : option (TokenInfo → Handler W);   (** the SDK's handler around the server *)
  o_MCPAuthenticator : option (MCPAuthenticator W);
  o_MCPAuditor : option (MCPAuditor W);
  o_AdminHandler : option (Handler W);
  o_OAuthProvider : option (OAuthProvider W);
  o_BearerToken : string;
  o_AllowedHosts : list string;
  o_AllowedOrigins : list string;
  o_MaxBodyBytes : Z;
  o_MaxConcurrent : Z;
  o_Ready : option (context → W → option error)
}.
Arguments o_MCPServer {W} _.
Arguments o_MCPAuthenticator {W} _.
Arguments o_MCPAuditor {W} _.
Arguments o_AdminHandler {W} _.
Arguments o_OAuthProvider {W} _.
Arguments o_BearerToken {W} _.
Arguments o_AllowedHosts {W} _.
Arguments o_AllowedOrigins {W} _.
Arguments o_MaxBodyBytes {W} _.
Arguments o_MaxConcurrent {W} _.
Arguments o_Ready {W} _.

(** The SDK's [auth.RequireBearerToken]: the token information of the verifier, which it
    puts into the request's context, or its refusal. *)
Class BearerMiddleware :=
  RequireBearerToken : (context → option TokenInfo) → http_request → result http_response TokenInfo.
(** The information is the verifier's. *)
Class BearerLaws `{BearerMiddleware} : Prop :=
  bearer_verified verify req ti :
    RequireBearerToken verify req = Ok ti → verify (rq_Context req) = Some ti.

(** ** Handlers *)

Section handlers.
Context `{Unicode, NetURL, Sha256, MIME, BearerMiddleware} {W : Type}.

Definition unauthorized : http_response :=
  with_header "WWW-Authenticate" ("Bearer realm=" +:+ quote "dsmctl-gateway")
    (writeJSON 401 "error" "unauthorized").
Definition unauthorizedWithOAuth (req : http_request) (provider : option (OAuthProvider W)) :
    http_response :=
  match provider with
  | None => unauthorized
  | Some p =>
      with_header "WWW-Authenticate"
        ("Bearer realm=" +:+ quote "dsmctl-gateway" +:+ ", resource_metadata=" +:+ quote (op_ResourceMetadataURL p req)
         +:+ ", scope=" +:+ quote (op_ScopeChallenge p))
        (writeJSON 401 "error" "unauthorized")
  end.

(** The token of an [Authorization] header of two fields, the first of them Bearer. *)
Definition bearer_token (req : http_request) : option string :=
  match Fields (rq_Header req "Authorization") with
  | [scheme; raw] => if EqualFold scheme "Bearer" then Some raw else None
  | _ => None
  end.

Definition requireBearer (expected : string) (next : Handler W) : Handler W := fun req s =>
  match bearer_token req with
  | Some raw => if bool_decide (sha256 raw = expected) then next req s else (unauthorized, s)
  | None => (unauthorized, s)
  end.

Definition auditMCPHTTP (auditor : option (MCPAuditor W)) (ctx : context)
    (actorID outcome reason : string) (s : gstate W) : gstate W :=
  match auditor with
  | None => s
  | Some append => set_rest (append ctx {|
      ev_ID := ""; ev_Time := zeroTime; ev_CorrelationID := CorrelationID ctx;
      ev_ActorType := "mcp_token"; ev_ActorID := actorID; ev_Action := "mcp.authenticate";
      ev_Tool := ""; ev_NAS := ""; ev_Outcome := outcome; ev_Reason := reason |} (gs_rest s)) s
  end.

(** The verifier given to the SDK. *)
Definition principal_info (ctx : context) : option TokenInfo :=
  principal ← PrincipalFromContext ctx;
  Some {| ti_UserID := pp_TokenID principal; ti_Principal := Some principal |}.

(** [mcpSessionBindingWriter.bind], once the response has its header. *)
Definition bind_response (rd : greadings) (tokenID : string) (r : http_response)
    (s : gstate W) : gstate W :=
  let sessionID := TrimSpace (header_of "Mcp-Session-Id" r) in
  if bool_decide (sessionID = "") then s
  else set_sessions (Bind sessionID tokenID (gd_bind rd) (gs_sessions s)) s.

(** The request to the server, in the session it names. *)
Definition serve_session (rd : greadings) (next : Handler W) (principal : Principal)
    (sessionID : string) : Handler W := fun req s =>
  let ctx := if bool_decide (sessionID = "") then rq_Context req
             else WithMCPSessionID (rq_Context req) sessionID in
  let '(r, s) := next (with_context ctx req) s in
  let s := bind_response rd (pp_TokenID principal) r s in
  (r, if bool_decide (rq_Method req = "DELETE") && negb (bool_decide (sessionID = ""))
      then set_sessions (Delete sessionID (gs_sessions s)) s else s).

(** The handler behind the bearer middleware. *)
Definition session_handler (rd : greadings) (auditor : option (MCPAuditor W))
    (next : TokenInfo → Handler W) (info : TokenInfo) : Handler W := fun req s =>
  match PrincipalFromContext (rq_Context req) with
  | None => (writeJSON 401 "error" "invalid_token", s)
  | Some principal =>
      let sessionID := TrimSpace (rq_Header req "Mcp-Session-Id") in
      if bool_decide (sessionID = "") then
        let '(ok, b) := CanCreate (gd_create rd) (gs_sessions s) in
        let s := set_sessions b s in
        if negb ok then (writeJSON 503 "error" "too_many_mcp_sessions", s)
        else serve_session rd (next info) principal sessionID req s
      else
        let '(verdict, b) :=
          Authorize sessionID (pp_TokenID principal) (gd_authorize rd) (gs_sessions s) in
        let s := set_sessions b s in
        let denied := auditMCPHTTP auditor (rq_Context req) (pp_TokenID principal) "denied" in
        match verdict with
        | mcpSessionMissing =>
            (writeJSON 404 "error" "session_not_found", denied "session_not_found" s)
        | mcpSessionTokenMismatch =>
            (writeJSON 403 "error" "session_token_mismatch", denied "session_token_mismatch" s)
        | mcpSessionAuthorized => serve_session rd (next info) principal sessionID req s
        end
  end.

Definition authenticateMCP (rd : greadings) (authenticator : MCPAuthenticator W)
    (auditor : option (MCPAuditor W)) (provider : option (OAuthProvider W))
    (next : TokenInfo → Handler W) : Handler W := fun req s =>
  let invalid s :=
    (unauthorizedWithOAuth req provider,
     auditMCPHTTP auditor (rq_Context req) "" "denied" "invalid_token" s) in
  match bearer_token req with
  | None => invalid s
  | Some raw =>
      let '(principal, w) := authenticator (rq_Context req) raw (gd_auth rd) (gs_rest s) in
      let s := set_rest w s in
      match principal with
      | Err _ => invalid s
      | Ok principal =>
          let '(allowed, l) := Allow (pp_TokenID principal) (gd_limit rd) (gs_limiter s) in
          let s := set_limiter l s in
          if negb allowed
          then (with_header "Retry-After" "60" (writeJSON 429 "error" "rate_limited"),
                auditMCPHTTP auditor (rq_Context req) (pp_TokenID principal) "denied"
                  "rate_limited" s)
          else
          let req := with_context (WithPrincipal (rq_Context req) principal) req in
          match RequireBearerToken principal_info req with
          | Err refusal => (refusal, s)
          | Ok info => session_handler rd auditor next info req s
          end
      end
  end.

(** The body that was read replaces the request's, so its length is the declared one. *)
Definition with_length (n : Z) (r : http_request) : http_request := {|
  rq_Method := rq_Method r; rq_Path := rq_Path r; rq_Header := rq_Header r;
  rq_Query := rq_Query r; rq_PostForm := rq_PostForm r; rq_Cookie := rq_Cookie r;
  rq_JSON := rq_JSON r; rq_BodyLength := rq_BodyLength r; rq_ContentLength := n;
  rq_Host := rq_Host r; rq_RemoteAddr := rq_RemoteAddr r; rq_TLS := rq_TLS r;
  rq_Context := rq_Context r |}.

Definition requireMCPRequest (maxBodyBytes : Z) (next : Handler W) : Handler W := fun req s =>
  if negb (bool_decide (rq_Method req ∈ ["POST"; "GET"; "DELETE"]))
  then (methodNotAllowed "GET, POST, DELETE", s) else
  if negb (bool_decide (rq_Method req = "POST")) then next req s else
  if negb (bool_decide (ParseMediaType (rq_Header req "Content-Type") = Some "application/json"))
  then (http_Error 415 "Content-Type must be application/json", s) else
  if maxBodyBytes <? rq_ContentLength req then (http_Error 413 "request body too large", s) else
  match rq_BodyLength req with
  | None => (http_Error 400 "read request body", s)
  | Some length =>
      if maxBodyBytes <? length then (http_Error 413 "request body too large", s)
      else next (with_length length req) s
  end.

(** A slot of the semaphore is taken for as long as the request runs. *)
Definition limitConcurrent (slots : Z) (next : Handler W) : Handler W := fun req s =>
  if slots <=? gs_running s
  then (with_header "Retry-After" "1" (writeJSON 429 "error" "concurrency_limit"), s) else
  let '(r, s) := next req (set_running (gs_running s + 1) s) in
  (r, set_running (gs_running s - 1) s).

Definition protectHostAndOrigin (allowedHosts allowedOrigins : gset string) (delegate : bool)
    (next : Handler W) : Handler W := fun req s =>
  match normalizeHost (rq_Host req) with
  | Err _ => (http_Error 400 "invalid Host", s)
  | Ok host =>
      if negb (bool_decide (host ∈ allowedHosts)) then (http_Error 403 "forbidden Host", s) else
      let rawOrigin := rq_Header req "Origin" in
      if bool_decide (rawOrigin = "") then next req s else
      match normalizeOrigin rawOrigin with
      | Err _ => (http_Error 403 "invalid Origin", s)
      | Ok origin =>
          let explicitlyAllowed := bool_decide (origin ∈ allowedOrigins) in
          let dynamicBrowserOrigin :=
            delegate && bool_decide (allowedOrigins = ∅)
            && (bool_decide (rq_Path req = "/admin") || HasPrefix (rq_Path req) "/admin/"
                || bool_decide (rq_Path req = "/oauth/authorize")) in
          if negb explicitlyAllowed && negb dynamicBrowserOrigin
          then (http_Error 403 "forbidden Origin", s) else next req s
      end
  end.

Definition adminRootRedirect : Handler W := fun req s =>
  if negb (bool_decide (rq_Path req = "/")) then (http_Error 404 "404 page not found", s) else
  if negb (bool_decide (rq_Method req = "GET")) && negb (bool_decide (rq_Method req = "HEAD"))
  then (methodNotAllowed "GET, HEAD", s) else
  let prefix := TrimRight1 (TrimSpace (rq_Header req "X-Forwarded-Prefix")) 47 in
  let prefix := if bool_decide (prefix = "") || negb (HasPrefix prefix "/")
                   || ContainsAny prefix [13; 10; 92; 63]
                then "" else prefix in
  (with_header "Location" (prefix +:+ "/admin/")
     {| hr_Status := 307; hr_Header := []; hr_Body := OtherBody |}, s).

Definition healthHandler : Handler W := fun req s =>
  if negb (bool_decide (rq_Method req = "GET")) && negb (bool_decide (rq_Method req = "HEAD"))
  then (methodNotAllowed "GET, HEAD", s) else (writeJSON 200 "status" "ok", s).

Definition readinessHandler (ready : context → W → option error) : Handler W := fun req s =>
  if negb (bool_decide (rq_Method req = "GET")) && negb (bool_decide (rq_Method req = "HEAD"))
  then (methodNotAllowed "GET, HEAD", s) else
  match ready (rq_Context req) (gs_rest s) with
  | Some _ => (writeJSON 503 "status" "not_ready", s)
  | None => (writeJSON 200 "status" "ok", s)
  end.

Definition newRequestID (rd : greadings) : string :=
  match gd_request_id rd with
  | None => "fallback-" +:+ Itoa (gd_nano rd)
  | Some value => hex_EncodeToString value
  end.

Definition correlateAndLog (rd : greadings) (next : Handler W) : Handler W := fun req s =>
  let requestID := newRequestID rd in
  let '(r, s) := next (with_context (WithCorrelationID (rq_Context req) requestID) req) s in
  (with_header "X-Request-ID" requestID r, s).
End handlers.

(** ** net/http: [ServeMux] *)

(** The elements of a rooted path, the last one first, after [path.Clean]. *)
Fixpoint clean_elements (acc : list (list Z)) (l : list (list Z)) : list (list Z) :=
  match l with
  | [] => acc
  | e :: l =>
      if bool_decide (e = []) || bool_decide (e = [46]) then clean_elements acc l
      else if bool_decide (e = [46; 46]) then clean_elements (tail acc) l
      else clean_elements (e :: acc) l
  end.
Definition cleanPath (path : string) : string :=
  let slashed := match reverse (bytes path) with 47 :: _ => true | _ => false end in
  match clean_elements [] (Split (bytes path) 47) with
  | [] => "/"
  | es => "/" +:+ of_bytes (join_bytes (reverse es) 47) +:+ (if slashed then "/" else "")
  end.

(** The pattern a path matches: the path itself, or the longest of the subtrees, which end
    in a slash, that it is in. *)
Definition match_pattern (patterns : list string) (path : string) : option string :=
  if bool_decide (path ∈ patterns) then Some path else
  let subtrees := base.filter (fun p => HasPrefix path p = true ∧
    match reverse (bytes p) with 47 :: _ => true | _ => false end = true) patterns in
  foldr (fun p best => match best with
         | Some q => if slen q <? slen p then Some p else Some q
         | None => Some p
         end) None subtrees.

(** The pattern to serve, a redirect to the proper spelling of the path, or neither. *)
Definition mux (patterns : list string) (method path : string) : result http_response string :=
  let redirect target := Err (with_header "Location" target
    {| hr_Status := 301; hr_Header := []; hr_Body := OtherBody |}) in
  let path' := if bool_decide (method = "CONNECT") then path else cleanPath path in
  let found := match_pattern patterns path' in
  if negb (bool_decide (found = Some path')) && bool_decide (path' +:+ "/" ∈ patterns)
  then redirect (path' +:+ "/")
  else if negb (bool_decide (path' = path)) then redirect path'
  else match found with
       | Some p => Ok p
       | None => Err (http_Error 404 "404 page not found")
       end.

(** ** The server *)

Record Server (W : Type) := {
  sv_mcp : TokenInfo → Handler W;
  sv_authenticator : option (MCPAuthenticator W);
  sv_auditor : option (MCPAuditor W);
  sv_admin : option (Handler W);
  sv_oauth : option (OAuthProvider W);
  sv_token_digest : string;
  sv_hosts : gset string;
  sv_origins : gset string;
  sv_max_body : Z;
  sv_slots : Z;
  sv_ready : context → W → option error
}.
Arguments sv_mcp {W} _.
Arguments sv_authenticator {W} _.
Arguments sv_auditor {W} _.
Arguments sv_admin {W} _.
Arguments sv_oauth {W} _.
Arguments sv_token_digest {W} _.
Arguments sv_hosts {W} _.
Arguments sv_origins {W} _.
Arguments sv_max_body {W} _.
Arguments sv_slots {W} _.
Arguments sv_ready {W} _.

Section server.
Context `{Unicode, NetURL, Sha256, MIME, BearerMiddleware} {W : Type}.

Definition New (options : Options W) : result error (Server W) :=
  match o_MCPServer options with
  | None => Err (ErrNew "MCP server is required")
  | Some mcp =>
      match o_MCPAuthenticator options with
      | None => ValidateDevelopmentToken (o_BearerToken options)
      | Some _ => Ok ()
      end;;
      allowedHosts ← normalizeHosts (o_AllowedHosts options);
      if bool_decide (allowedHosts = ∅) then Err (ErrNew "at least one allowed host is required")
      else
      allowedOrigins ← normalizeOrigins (o_AllowedOrigins options);
      Ok {|
        sv_mcp := mcp; sv_authenticator := o_MCPAuthenticator options;
        sv_auditor := o_MCPAuditor options; sv_admin := o_AdminHandler options;
        sv_oauth := o_OAuthProvider options; sv_token_digest := sha256 (o_BearerToken options);
        sv_hosts := allowedHosts; sv_origins := allowedOrigins;
        sv_max_body := if o_MaxBodyBytes options <=? 0 then defaultMaxBodyBytes
                       else o_MaxBodyBytes options;
        sv_slots := if o_MaxConcurrent options <=? 0 then defaultMaxConcurrent
                    else o_MaxConcurrent options;
        sv_ready := default (fun _ _ => None) (o_Ready options) |}
  end.

Definition patterns (v : Server W) : list string :=
  ["/mcp"; "/healthz"; "/readyz"]
  ++ (if bool_decide (is_Some (sv_admin v)) then ["/"; "/admin"; "/admin/"] else [])
  ++ (if bool_decide (is_Some (sv_oauth v)) then ["/.well-known/"; "/oauth/"] else []).

(** The protected path to the MCP server; without an authenticator the SDK sees no token. *)
Definition protectedMCP (v : Server W) (rd : greadings) : Handler W :=
  let inner info := limitConcurrent (sv_slots v) (requireMCPRequest (sv_max_body v) (sv_mcp v info)) in
  match sv_authenticator v with
  | Some a => authenticateMCP rd a (sv_auditor v) (sv_oauth v) inner
  | None => requireBearer (sv_token_digest v) (inner {| ti_UserID := ""; ti_Principal := None |})
  end.

(** The handler registered under a pattern. *)
Definition registered (v : Server W) (rd : greadings) (pattern : string) : Handler W :=
  let absent : Handler W := fun _ s => (http_Error 404 "404 page not found", s) in
  if bool_decide (pattern = "/mcp") then protectedMCP v rd
  else if bool_decide (pattern = "/healthz") then healthHandler
  else if bool_decide (pattern = "/readyz") then readinessHandler (sv_ready v)
  else if bool_decide (pattern = "/") then adminRootRedirect
  else if bool_decide (pattern ∈ ["/admin"; "/admin/"]) then default absent (sv_admin v)
  else match sv_oauth v with Some p => op_ServeHTTP p | None => absent end.

Definition mux_handler (v : Server W) (rd : greadings) : Handler W := fun req s =>
  match mux (patterns v) (rq_Method req) (rq_Path req) with
  | Err r => (r, s)
  | Ok pattern => registered v rd pattern req s
  end.

(** [Server.Handler] *)
Definition Serve (v : Server W) (rd : greadings) : Handler W :=
  correlateAndLog rd
    (protectHostAndOrigin (sv_hosts v) (sv_origins v)
       (bool_decide (is_Some (sv_admin v)) || bool_decide (is_Some (sv_oauth v)))
       (mux_handler v rd)).
End server.
