(* ===== verification/GatewayThms.v ===== *)
(** * Properties of the HTTP boundary

    The rate of a token, the tokens of MCP sessions under any interleaving, and what a
    request must have passed for the MCP server to see it. *)

From S2P Require Import Prelude.
From S2P Require Import GoStrings.
From S2P Require Import NetIP.
From S2P Require Import RemotePolicy.
From S2P Require Import StateTypes.
From S2P Require Import McpPolicy.
From S2P Require Import Policy.
From S2P Require Import Http.
From S2P Require Import TlsTrust.
From S2P Require Import Traces.
From S2P Require Import Gateway.

(** ** The rate of a token *)

Definition identity_limiter : limiter := {|
  lm_store := gmap string identityWindow;
  lm_ask := Allow;
  lm_window m key := w ← m !! key;
    if IsZero (iw_Started w) then None else Some (iw_Started w, iw_Count w) |}.

Lemma zero_time_past now : 0 < now → IsZero now = false.
Proof. intros. unfold IsZero, zeroTime. apply Z.eqb_neq. unfold Second. lia. Qed.

(** The window an attempt counts in. *)
Lemma identity_current (m : gmap string identityWindow) key now : 0 < now →
  let w0 := default {| iw_Started := zeroTime; iw_Count := 0 |} (m !! key) in
  let w := if IsZero (iw_Started w0) || (Minute <=? now - iw_Started w0)
           then {| iw_Started := now; iw_Count := 0 |} else w0 in
  current Minute now (lm_window identity_limiter m key) = (iw_Started w, iw_Count w) ∧
  IsZero (iw_Started w) = false ∧ now - iw_Started w < 2 * Minute.
Proof.
  intros Hnow. pose proof (zero_time_past now Hnow) as Hn.
  assert (IsZero zeroTime = true) as Hz by done. unfold current. cbn [lm_window identity_limiter].
  destruct (m !! key) as [w|]; cbn [from_option id mbind option_bind iw_Started iw_Count]; cbv zeta.
  - destruct (IsZero (iw_Started w)) eqn:E; cbn [orb iw_Started iw_Count];
      [split_and!; [done|done|unfold Minute, Second; lia]|].
    unfold Minute, Second in *.
    destruct (_ <=? now - _) eqn:E1; destruct (iw_Started w + _ <=? now) eqn:E2;
      cbn [iw_Started iw_Count]; try lia; (split_and!; [done|done|lia]).
  - rewrite Hz. cbn [orb iw_Started iw_Count]. split_and!; [done|done|unfold Minute, Second; lia].
Qed.

#[global] Instance identity_fixed_window : FixedWindow identity_limiter maxIdentityCalls Minute.
Proof.
  split; [done|done| |].
  - change (lm_store identity_limiter) with (gmap string identityWindow).
    intros key now m b m' Hnow Ha. cbn [lm_ask identity_limiter] in Ha. unfold Allow in Ha.
    set (w := if _ || _ then _ else _) in Ha.
    destruct (identity_current m key now Hnow) as (-> & Hz & Hrecent). fold w in Hz, Hrecent |- *.
    clearbody w. destruct (maxIdentityCalls <=? iw_Count w) eqn:E; injection Ha as <- <-.
    + split; [symmetry; apply Z.ltb_ge; lia|]. cbn. by rewrite lookup_insert_eq; cbn; rewrite Hz.
    + split; [symmetry; apply Z.ltb_lt; lia|]. cbn [lm_window identity_limiter].
      assert (∀ x : gmap string identityWindow, x !! key = Some {| iw_Started := iw_Started w;
        iw_Count := iw_Count w + 1 |} → (w0 ← x !! key; if IsZero (iw_Started w0) then None
          else Some (iw_Started w0, iw_Count w0)) = Some (iw_Started w, iw_Count w + 1)) as Hx
        by (intros x ->; cbn; by rewrite Hz).
      destruct (_ <? _); apply Hx; [|by rewrite lookup_insert_eq].
      apply map_lookup_filter_Some. split; [by rewrite lookup_insert_eq|]. done.
  - change (lm_store identity_limiter) with (gmap string identityWindow).
    intros key key' now m b m' Hnow Ha Hne. cbn [lm_ask lm_window identity_limiter] in *.
    unfold Allow in Ha. set (w := if _ || _ then _ else _) in Ha. clearbody w.
    destruct (_ <=? _); injection Ha as _ <-; [by left; rewrite lookup_insert_ne|].
    destruct (_ <? _); [|by left; rewrite lookup_insert_ne].
    set (x := <[key := _]> m). assert (x !! key' = m !! key') as <- by by apply lookup_insert_ne.
    destruct (x !! key') as [w'|] eqn:Ex.
    + destruct (decide (now - iw_Started w' < 2 * Minute)) as [Hr|Hr].
      * left. by rewrite (map_lookup_filter_Some_2 _ _ _ _ Ex).
      * assert (base.filter (λ p : string * identityWindow, now - iw_Started p.2 < 2 * Minute) x
          !! key' = None) as -> by (apply map_lookup_filter_None; right; intros ? [= <-]%(eq_trans (eq_sym Ex)); done).
        cbn. destruct (IsZero (iw_Started w')); [by left|]. right. split; [done|].
        eexists _, _. split; [done|]. unfold Minute, Second in *. lia.
    + left. assert (base.filter (λ p : string * identityWindow, now - iw_Started p.2 < 2 * Minute) x
        !! key' = None) as -> by (apply map_lookup_filter_None; by left). done.
Qed.

(** ** Sessions under any interleaving *)

(** What requests do to the bindings, one atomic operation at a time. *)
Inductive binder_op :=
| OpAuthorize (sessionID tokenID : string) (now : Z)
| OpCanCreate (now : Z)
| OpBind (sessionID tokenID : string) (now : Z)
| OpDelete (sessionID : string).

Definition binder_step (op : binder_op) (b : bindings) : option mcpSessionAuthorization * bindings :=
  match op with
  | OpAuthorize sid tok now => let '(v, b) := Authorize sid tok now b in (Some v, b)
  | OpCanCreate now => (None, (CanCreate now b).2)
  | OpBind sid tok now => (None, Bind sid tok now b)
  | OpDelete sid => (None, Delete sid b)
  end.

Fixpoint binder_run (b : bindings) (ops : list binder_op) : list (option mcpSessionAuthorization) :=
  match ops with
  | [] => []
  | op :: ops => let '(v, b) := binder_step op b in v :: binder_run b ops
  end.
Definition binder_state (b : bindings) (ops : list binder_op) : bindings :=
  foldl (fun b op => (binder_step op b).2) b ops.

Lemma prune_subseteq now b : prune now b ⊆ b.
Proof. apply map_filter_subseteq. Qed.

Lemma prune_lookup now b sid x : prune now b !! sid = Some x →
  b !! sid = Some x ∧ now - sb_LastSeen x < defaultMCPSessionTTL.
Proof. by intros [? ?]%map_lookup_filter_Some. Qed.

(** A binding of a session to a token is made by binding it, and by nothing else. *)
Lemma binder_step_token op b sid x : (binder_step op b).2 !! sid = Some x →
  (∃ now, op = OpBind sid (sb_TokenID x) now) ∨
  (op ≠ OpDelete sid ∧ ∃ y, b !! sid = Some y ∧ sb_TokenID y = sb_TokenID x).
Proof.
  destruct op as [sid' tok now|now|sid' tok now|sid']; cbn.
  - unfold Authorize. intros Hx. right. split; [done|].
    destruct (prune now b !! sid') as [y|] eqn:Ey; cbn in Hx.
    + destruct (negb _); cbn in Hx; [apply prune_lookup in Hx as [? _]; eauto|].
      apply lookup_insert_Some in Hx as [[<- <-]|[_ Hx]];
        [exists y; split; [by apply prune_lookup in Ey as [? _]|done]|].
      apply prune_lookup in Hx as [? _]; eauto.
    + apply prune_lookup in Hx as [? _]; eauto.
  - intros [? _]%prune_lookup. right. eauto.
  - unfold Bind. intros Hx.
    assert (∀ b', b' ⊆ b → b' !! sid = Some x → ∃ y, b !! sid = Some y ∧ sb_TokenID y = sb_TokenID x)
      as Hold by (intros b' Hs Hb; exists x; split; [by eapply lookup_weaken|done]).
    destruct (_ || _); [by right; eauto|]. cbv zeta in Hx.
    destruct (match _ with Some _ => _ | None => _ end).
    { right. split; [done|]. by eapply Hold; [apply prune_subseteq|]. }
    destruct (_ <=? _); [right; split; [done|]; by eapply Hold; [apply prune_subseteq|]|].
    apply lookup_insert_Some in Hx as [[<- <-]|[_ Hx]]; [left; by eexists|].
    right. split; [done|]. by eapply Hold; [apply prune_subseteq|].
  - unfold Delete. intros [Hne Hx]%lookup_delete_Some. right. split; [congruence|eauto].
Qed.

Lemma binder_run_cons b op ops k :
  binder_run b (op :: ops) !! S k = binder_run (binder_step op b).2 ops !! k.
Proof. cbn. by destruct (binder_step op b). Qed.

(** Where the binding behind an authorization came from. *)
Lemma binder_run_bound ops : ∀ b i sid tok now,
  ops !! i = Some (OpAuthorize sid tok now) →
  binder_run b ops !! i = Some (Some mcpSessionAuthorized) →
  let foreign k := ops !! k = Some (OpDelete sid) ∨
    ∃ tok' now', ops !! k = Some (OpAuthorize sid tok' now') ∧ tok' ≠ tok ∧
      binder_run b ops !! k = Some (Some mcpSessionAuthorized) in
  (∃ x, b !! sid = Some x ∧ sb_TokenID x = tok ∧ ∀ k, (k < i)%nat → ¬ foreign k) ∨
  ∃ k now', (k < i)%nat ∧ ops !! k = Some (OpBind sid tok now') ∧
    ∀ m, (k < m < i)%nat → ¬ foreign m.
Proof.
  induction ops as [|op ops IH]; intros b i sid tok now Hop Hrun; [done|].
  destruct i as [|i].
  - injection Hop as ->. cbn in Hrun. unfold Authorize in Hrun. left.
    destruct (prune now b !! sid) as [y|] eqn:Ey; [|done].
    case_bool_decide as Ht; cbn in Hrun; [|done].
    exists y. apply prune_lookup in Ey as [? _]. split; [done|]. split; [done|]. lia.
  - rewrite binder_run_cons in Hrun.
    destruct (IH (binder_step op b).2 i sid tok now Hop Hrun)
      as [(x & Hx & Ht & Hno)|(k & now' & Hk & Hb & Hno)].
    + apply binder_step_token in Hx as [[now' ->]|(Hnd & y & Hy & Hyt)].
      * right. exists 0%nat, now'. split; [lia|]. split; [by rewrite Ht|].
        intros [|m] Hm; [lia|]. rewrite binder_run_cons. apply Hno. lia.
      * left. exists y. split; [done|]. split; [congruence|]. intros [|m] Hm.
        -- intros [[= ->]|(tok' & now' & [= ->] & Hne & Hr)]; [done|].
           cbn in Hr. unfold Authorize in Hr. destruct (prune now' b !! sid) as [z|] eqn:Ez; [|done].
           case_bool_decide; cbn in Hr; [|done]. apply prune_lookup in Ez as [? _]. congruence.
        -- rewrite binder_run_cons. apply Hno. lia.
    + right. exists (S k), now'. split; [lia|]. split; [done|]. intros [|m] Hm; [lia|].
      rewrite binder_run_cons. apply Hno. lia.
Qed.

Lemma binder_bounded op b : Z.of_nat (size b) ≤ maxBoundMCPSessions →
  Z.of_nat (size (binder_step op b).2) ≤ maxBoundMCPSessions.
Proof.
  intros Hb. assert (∀ b' : bindings, b' ⊆ b → Z.of_nat (size b') ≤ maxBoundMCPSessions) as Hsub
    by (intros b' Hs; apply map_subseteq_size in Hs; lia).
  destruct op as [sid tok now|now|sid tok now|sid]; cbn.
  - unfold Authorize. pose proof (Hsub _ (prune_subseteq now b)).
    destruct (prune now b !! sid) eqn:E; [|done]. destruct (negb _); [done|]. cbn.
    by rewrite map_size_insert_Some by by rewrite E.
  - apply Hsub, prune_subseteq.
  - unfold Bind. destruct (_ || _); [done|]. cbv zeta. pose proof (Hsub _ (prune_subseteq now b)).
    destruct (match _ with Some _ => _ | None => _ end); [done|].
    destruct (_ <=? _) eqn:E; [done|]. apply Z.leb_gt in E.
    cbn. rewrite map_size_insert. destruct (prune now b !! sid); cbn; lia.
  - apply Hsub, delete_subseteq.
Qed.

Lemma binder_state_bounded ops : ∀ b, Z.of_nat (size b) ≤ maxBoundMCPSessions →
  Z.of_nat (size (binder_state b ops)) ≤ maxBoundMCPSessions.
Proof.
  induction ops as [|op ops IH]; intros b Hb; [done|]. by apply IH, binder_bounded.
Qed.

(** C28: a session belongs to one token.  However the operations of concurrent requests on
    the bindings interleave, when a token is authorized in a session, the session was bound
    to that token before, and since then the session was not deleted and no other token was
    authorized in it; and there are never more bindings than the bound. *)
Theorem session_single_token ops i sid tok now :
  ops !! i = Some (OpAuthorize sid tok now) →
  binder_run ∅ ops !! i = Some (Some mcpSessionAuthorized) →
  Z.of_nat (size (binder_state ∅ ops)) ≤ maxBoundMCPSessions ∧
  ∃ k now', (k < i)%nat ∧ ops !! k = Some (OpBind sid tok now') ∧
    ∀ m, (k < m < i)%nat → ops !! m ≠ Some (OpDelete sid) ∧
      ∀ tok' now2, ops !! m = Some (OpAuthorize sid tok' now2) → tok' ≠ tok →
        binder_run ∅ ops !! m ≠ Some (Some mcpSessionAuthorized).
Proof.
  intros Hop Hrun. split; [by apply binder_state_bounded|].
  destruct (binder_run_bound ops ∅ i sid tok now Hop Hrun)
    as [(x & Hx & _)|(k & now' & Hk & Hb & Hno)]; [by rewrite lookup_empty in Hx|].
  exists k, now'. split; [done|]. split; [done|]. intros m Hm. specialize (Hno m Hm).
  split; [intros Hd; apply Hno; by left|]. intros tok' now2 Hop' Hne Hr. apply Hno. right. eauto.
Qed.

(** One token binds a session, another one tries it, and after the deletion takes it over. *)
Definition sample_ops : list binder_op := [
  OpCanCreate 1; OpBind "s" "t1" 2; OpAuthorize "s" "t2" 3; OpBind "s" "t2" 4;
  OpAuthorize "s" "t1" 5; OpDelete "s"; OpAuthorize "s" "t1" 6; OpBind "s" "t2" 7;
  OpAuthorize "s" "t2" 8; OpAuthorize "s" "t2" (8 + 30 * Minute)].

Lemma session_single_token_witness :
  binder_run ∅ sample_ops = [None; None; Some mcpSessionTokenMismatch; None;
    Some mcpSessionAuthorized; None; Some mcpSessionMissing; None; Some mcpSessionAuthorized;
    Some mcpSessionMissing] ∧
  ∃ k now, (k < 8)%nat ∧ sample_ops !! k = Some (OpBind "s" "t2" now).
Proof.
  assert (binder_run ∅ sample_ops = [None; None; Some mcpSessionTokenMismatch; None;
    Some mcpSessionAuthorized; None; Some mcpSessionMissing; None; Some mcpSessionAuthorized;
    Some mcpSessionMissing]) as Hr by (vm_compute; reflexivity).
  split; [exact Hr|].
  destruct (session_single_token sample_ops 8 "s" "t2" 8 eq_refl
    (f_equal (fun l => l !! 8%nat) Hr)) as (_ & k & now & Hk & Hb & _).
  exists k, now. split; [exact Hk|exact Hb].
Defined.

(** C29: a token has at most 240 requests in any minute.  Whatever other tokens ask and
    whichever windows are forgotten, of the requests of one token with clock readings in an
    interval of a minute the limiter allows at most twice its 120. *)
Theorem token_rate_bounded calls id t :
  in_order calls →
  allowed identity_limiter ∅ calls id t Minute ≤ 240.
Proof.
  intros Ho. change 240 with (2 * maxIdentityCalls).
  by apply (allowed_bounded identity_limiter maxIdentityCalls Minute).
Qed.

(** A burst of requests a second before and a second after the start of a new window. *)
Definition sample_calls : list (string * Z) :=
  ("t1", Second) :: replicate 130 ("t1", 60 * Second) ++ replicate 130 ("t1", 61 * Second).

Lemma token_rate_bounded_witness :
  allowed identity_limiter ∅ sample_calls "t1" (2 * Second) Minute = 239 ∧
  allowed identity_limiter ∅ sample_calls "t1" (2 * Second) Minute ≤ 240.
Proof.
  split; [vm_compute; reflexivity|]. apply (token_rate_bounded sample_calls "t1" (2 * Second)).
  split.
  - apply Sorted_StronglySorted; [intros ???; apply Z.le_trans|].
    unfold sample_calls. repeat constructor; vm_compute; congruence.
  - unfold sample_calls. repeat constructor; vm_compute; congruence.
Defined.

(** ** What reaches the MCP server *)

Section reach.
Context `{Unicode, NetURL, Sha256, MIME, BearerMiddleware, !BearerLaws} {W : Type}.

(** The same gateway around another MCP server. *)
Definition with_mcp (m : TokenInfo → Handler W) (v : Server W) : Server W := {|
  sv_mcp := m; sv_authenticator := sv_authenticator v; sv_auditor := sv_auditor v;
  sv_admin := sv_admin v; sv_oauth := sv_oauth v; sv_token_digest := sv_token_digest v;
  sv_hosts := sv_hosts v; sv_origins := sv_origins v; sv_max_body := sv_max_body v;
  sv_slots := sv_slots v; sv_ready := sv_ready v |}.

(** A method of MCP, and for a POST a JSON body within the bound. *)
Definition mcp_shaped (v : Server W) (req req' : http_request) : Prop :=
  rq_Method req ∈ ["POST"; "GET"; "DELETE"] ∧
  if bool_decide (rq_Method req = "POST") then
    ParseMediaType (rq_Header req "Content-Type") = Some "application/json" ∧
    rq_ContentLength req ≤ sv_max_body v ∧
    ∃ n, rq_BodyLength req = Some n ∧ n ≤ sv_max_body v ∧ req' = with_length n req
  else req' = req.

Definition release (x : http_response * gstate W) : http_response * gstate W :=
  (x.1, set_running (gs_running x.2 - 1) x.2).

Lemma inner_called v info req s :
  let inner (m : TokenInfo → Handler W) :=
    limitConcurrent (sv_slots v) (requireMCPRequest (sv_max_body v) (m info)) req s in
  (∃ out, ∀ m, inner m = out) ∨
  ∃ req', mcp_shaped v req req' ∧ gs_running s < sv_slots v ∧
    ∀ m, inner m = release (m info req' (set_running (gs_running s + 1) s)).
Proof.
  cbv zeta. unfold limitConcurrent. destruct (_ <=? _) eqn:Es; [left; by eexists|].
  unfold requireMCPRequest, mcp_shaped.
  case_bool_decide as Hm; cbn [negb]; [|left; by eexists].
  assert (gs_running s < sv_slots v) as Hlt by lia.
  assert (∀ req' (m : TokenInfo → Handler W), (let '(r, s1) := m info req' (set_running (gs_running s + 1) s) in
    (r, set_running (gs_running s1 - 1) s1))
    = release (m info req' (set_running (gs_running s + 1) s))) as Hrel
    by (intros; unfold release; by destruct (m info _ _)).
  case_bool_decide as Hp; cbn [negb]; [|right; eexists; split; [done|]; split; [done|]; intros m; apply Hrel].
  case_bool_decide as Hc; cbn [negb]; [|left; by eexists].
  destruct (_ <? rq_ContentLength req) eqn:El; [left; by eexists|].
  destruct (rq_BodyLength req) as [n|]; [|left; by eexists].
  destruct (_ <? n) eqn:En; [left; by eexists|].
  right. exists (with_length n req). split; [|split; [done|intros m; apply Hrel]].
  split; [done|]. split; [done|]. split; [lia|]. exists n. split; [done|]. split; [lia|done].
Qed.

(** The session of the request, for the principal. *)
Definition in_session (rd : greadings) (principal : Principal) (req : http_request)
    (s : gstate W) : Prop :=
  let sid := TrimSpace (rq_Header req "Mcp-Session-Id") in
  if bool_decide (sid = "") then (CanCreate (gd_create rd) (gs_sessions s)).1 = true
  else (Authorize sid (pp_TokenID principal) (gd_authorize rd) (gs_sessions s)).1
       = mcpSessionAuthorized.

Lemma session_called v rd auditor info req s :
  let run (m : TokenInfo → Handler W) :=
    session_handler rd auditor
      (fun info => limitConcurrent (sv_slots v) (requireMCPRequest (sv_max_body v) (m info)))
      info req s in
  (∃ out, ∀ m, run m = out) ∨
  ∃ principal req0 req' s' k,
    PrincipalFromContext (rq_Context req) = Some principal ∧ in_session rd principal req s ∧
    req0 = (let sid := TrimSpace (rq_Header req "Mcp-Session-Id") in
            if bool_decide (sid = "") then req
            else with_context (WithMCPSessionID (rq_Context req) sid) req) ∧
    mcp_shaped v req0 req' ∧ gs_running s < sv_slots v ∧
    gs_running s' = gs_running s + 1 ∧ gs_rest s' = gs_rest s ∧
    (∀ x, (k x).1 = x.1) ∧ ∀ m, run m = k (m info req' s').
Proof.
  cbv zeta. unfold session_handler.
  destruct (PrincipalFromContext (rq_Context req)) as [principal|]; [|left; by eexists].
  set (sid := TrimSpace (rq_Header req "Mcp-Session-Id")).
  set (req0 := if bool_decide (sid = "") then req
            else with_context (WithMCPSessionID (rq_Context req) sid) req).
  assert (∀ b, let s1 := set_sessions b s in
    let run m := serve_session rd (limitConcurrent (sv_slots v)
      (requireMCPRequest (sv_max_body v) (m info))) principal sid req s1 in
    in_session rd principal req s → (∃ out, ∀ m : TokenInfo → Handler W, run m = out) ∨
    ∃ req' s' k, mcp_shaped v req0 req' ∧ gs_running s < sv_slots v ∧
      gs_running s' = gs_running s + 1 ∧ gs_rest s' = gs_rest s ∧
      (∀ x, (k x).1 = x.1) ∧ ∀ m, run m = k (m info req' s')) as Hserve.
  { intros b s1 run Hin.
    assert (with_context (if bool_decide (sid = "") then rq_Context req
      else WithMCPSessionID (rq_Context req) sid) req = req0) as Hreq
      by (unfold req0; destruct (bool_decide (sid = "")); [by destruct req|done]).
    set (finish := fun (x : http_response * gstate W) =>
      let s := bind_response rd (pp_TokenID principal) x.1 x.2 in
      (x.1, if bool_decide (rq_Method req = "DELETE") && negb (bool_decide (sid = ""))
            then set_sessions (Delete sid (gs_sessions s)) s else s)).
    assert (∀ m, run m = finish (limitConcurrent (sv_slots v)
      (requireMCPRequest (sv_max_body v) (m info)) req0 s1)) as Hfin
      by (intros m; unfold run, serve_session, finish; rewrite Hreq; by destruct (limitConcurrent _ _ _ _)).
    destruct (inner_called v info req0 s1) as [[out Hout]|(req' & Hsh & Hlt & Hcall)].
    - left. exists (finish out). intros m. by rewrite Hfin, Hout.
    - right. exists req', (set_running (gs_running s1 + 1) s1), (fun x => finish (release x)).
      split_and!; try done. intros m. by rewrite Hfin, Hcall. }
  unfold in_session in *. fold sid in Hserve |- *. destruct (bool_decide (sid = "")) eqn:Hsid.
  - destruct (CanCreate _ _) as [ok b] eqn:Ec. cbn [fst] in *. destruct ok; cbn [negb]; [|left; by eexists].
    destruct (Hserve b eq_refl) as [|(req' & s' & k & ? & ? & ? & ? & ? & ?)]; [by left|right].
    exists principal, req0, req', s', k. split_and!; done.
  - destruct (Authorize _ _ _ _) as [verdict b] eqn:Ea. cbn [fst] in *.
    destruct verdict; [|left; by eexists..].
    destruct (Hserve b eq_refl) as [|(req' & s' & k & ? & ? & ? & ? & ? & ?)]; [by left|right].
    exists principal, req0, req', s', k. split_and!; try done. by rewrite Ea.
Qed.

Lemma mux_mcp patterns method path : mux patterns method path = Ok "/mcp" → path = "/mcp".
Proof.
  unfold mux. cbv zeta. set (path' := if bool_decide (method = "CONNECT") then path else _).
  destruct (_ && _); [done|]. case_bool_decide as Hp; cbn [negb]; [|done]. rewrite <- Hp.
  destruct (match_pattern patterns path') as [p|] eqn:Em; [|done]. intros [= ->].
  unfold match_pattern in Em. case_bool_decide; [congruence|]. exfalso.
  assert (∀ l, foldr (λ p best, match best with
      | Some q => if slen q <? slen p then Some p else Some q | None => Some p end) None l
      = Some "/mcp" → "/mcp" ∈ l) as Hin.
  { induction l as [|x l IH]; [done|]. cbn.
    destruct (foldr _ None l) as [q|]; [|intros [= ->]; by left].
    destruct (_ <? _); intros [= ->]; [by left|]. right. by apply IH. }
  apply Hin in Em. apply list_elem_of_filter in Em as [[_ Hslash] _]. by vm_compute in Hslash.
Qed.

(** The request in the principal's context, as the MCP server gets it. *)
Definition bound_request (rd : greadings) (principal : Principal) (req : http_request) :
    http_request :=
  let ctx := WithPrincipal (WithCorrelationID (rq_Context req) (newRequestID rd)) principal in
  let sid := TrimSpace (rq_Header req "Mcp-Session-Id") in
  with_context (if bool_decide (sid = "") then ctx else WithMCPSessionID ctx sid) req.

Lemma authenticated_called (v : Server W) a rd req s :
  let ctx := WithCorrelationID (rq_Context req) (newRequestID rd) in
  let run (m : TokenInfo → Handler W) :=
    authenticateMCP rd a (sv_auditor v) (sv_oauth v)
      (fun info => limitConcurrent (sv_slots v) (requireMCPRequest (sv_max_body v) (m info)))
      (with_context ctx req) s in
  (∃ out, ∀ m, run m = out) ∨
  ∃ raw principal w req' s' k,
    bearer_token req = Some raw ∧ a ctx raw (gd_auth rd) (gs_rest s) = (Ok principal, w) ∧
    pp_TokenID principal ≠ "" ∧
    (Allow (pp_TokenID principal) (gd_limit rd) (gs_limiter s)).1 = true ∧
    in_session rd principal req s ∧ mcp_shaped v (bound_request rd principal req) req' ∧
    gs_running s < sv_slots v ∧ gs_running s' = gs_running s + 1 ∧ gs_rest s' = w ∧
    (∀ x, (k x).1 = x.1) ∧
    ∀ m, run m = k (m {| ti_UserID := pp_TokenID principal; ti_Principal := Some principal |}
                      req' s').
Proof.
  cbv zeta. unfold authenticateMCP.
  change (bearer_token (with_context ?c req)) with (bearer_token req).
  destruct (bearer_token req) as [raw|]; [|left; by eexists]. cbn [rq_Context with_context].
  destruct (a _ _ _ _) as [principal w] eqn:Ea.
  destruct principal as [principal|]; [|left; by eexists].
  destruct (Allow _ _ _) as [allowed l] eqn:El. cbn [gs_limiter set_rest] in El.
  destruct allowed; cbn [negb]; [|left; by eexists].
  set (req0 := with_context (WithPrincipal _ principal) _).
  destruct (RequireBearerToken principal_info req0) as [info|refusal] eqn:Eb;
    [|left; by eexists].
  apply bearer_verified in Eb. unfold principal_info, PrincipalFromContext in Eb.
  cbn [rq_Context with_context req0 ctx_principal WithPrincipal mbind option_bind] in Eb.
  case_bool_decide as Hid; [done|]. injection Eb as <-.
  destruct (session_called v rd (sv_auditor v)
    {| ti_UserID := pp_TokenID principal; ti_Principal := Some principal |} req0
    (set_limiter l (set_rest w s)))
    as [|(p & req1 & req' & s' & k & Hp & Hin & Hreq1 & Hsh & Hlt & Hrun & Hrest & Hk & Hcall)];
    [by left|right].
  unfold PrincipalFromContext in Hp.
  cbn [rq_Context with_context req0 ctx_principal WithPrincipal mbind option_bind] in Hp.
  rewrite bool_decide_eq_false_2 in Hp by done. injection Hp as <-.
  assert (req1 = bound_request rd principal req) as ->.
  { rewrite Hreq1. unfold bound_request. cbn [rq_Header with_context req0]. cbv zeta.
    by destruct (bool_decide _). }
  exists raw, principal, w, req', s', k. split_and!; try done. by rewrite El.
Qed.

Lemma protect_called (v : Server W) req s :
  let delegate := bool_decide (is_Some (sv_admin v)) || bool_decide (is_Some (sv_oauth v)) in
  let run (next : Handler W) :=
    protectHostAndOrigin (sv_hosts v) (sv_origins v) delegate next req s in
  (∃ out, ∀ next, run next = out) ∨
  (∃ host, normalizeHost (rq_Host req) = Ok host ∧ host ∈ sv_hosts v) ∧
  (rq_Path req = "/mcp" → rq_Header req "Origin" = "" ∨
    ∃ origin, normalizeOrigin (rq_Header req "Origin") = Ok origin ∧ origin ∈ sv_origins v) ∧
  ∀ next, run next = next req s.
Proof.
  cbv zeta. unfold protectHostAndOrigin.
  destruct (normalizeHost _) as [host|]; [|left; by eexists].
  case_bool_decide as Hh; cbn [negb]; [|left; by eexists].
  case_bool_decide as Ho; [right; split; [by exists host|by auto]|].
  destruct (normalizeOrigin _) as [origin|]; [|left; by eexists].
  destruct (_ && _) eqn:E; [left; by eexists|].
  right. split; [by exists host|]. split; [|done]. intros Hp. right. exists origin.
  split; [done|]. apply andb_false_iff in E as [E|E]; [by split_bools|].
  apply negb_false_iff in E. rewrite Hp in E. by rewrite andb_false_r in E.
Qed.

(** C27: the MCP server sees admitted requests only.  Of a gateway with an authenticator, the
    answer to a request does not depend on the MCP server at all, or the server is asked
    exactly once, and then: the request is for /mcp on an allowed host and from an allowed
    origin, if it names one; the authenticator accepted its bearer token for a principal,
    whose rate allows it; a session it names is bound to that very token; it is a POST of a
    JSON body within the bound, a GET or a DELETE; a slot was free; and the server gets the
    principal, and the session, of this request.  Its response is the gateway's, with the
    id of the request. *)
Theorem mcp_sees_admitted (v : Server W) a rd req s :
  sv_authenticator v = Some a →
  (∃ out, ∀ m, Serve (with_mcp m v) rd req s = out) ∨
  ∃ host raw principal w req' s' k,
    rq_Path req = "/mcp" ∧ normalizeHost (rq_Host req) = Ok host ∧ host ∈ sv_hosts v ∧
    (rq_Header req "Origin" = "" ∨
     ∃ origin, normalizeOrigin (rq_Header req "Origin") = Ok origin ∧ origin ∈ sv_origins v) ∧
    bearer_token req = Some raw ∧
    a (WithCorrelationID (rq_Context req) (newRequestID rd)) raw (gd_auth rd) (gs_rest s)
      = (Ok principal, w) ∧
    pp_TokenID principal ≠ "" ∧
    (Allow (pp_TokenID principal) (gd_limit rd) (gs_limiter s)).1 = true ∧
    in_session rd principal req s ∧ mcp_shaped v (bound_request rd principal req) req' ∧
    gs_running s < sv_slots v ∧ gs_running s' = gs_running s + 1 ∧ gs_rest s' = w ∧
    (∀ x, (k x).1 = with_header "X-Request-ID" (newRequestID rd) x.1) ∧
    ∀ m, Serve (with_mcp m v) rd req s =
      k (m {| ti_UserID := pp_TokenID principal; ti_Principal := Some principal |} req' s').
Proof.
  intros Hauth. set (ctx := WithCorrelationID (rq_Context req) (newRequestID rd)).
  set (tag := fun x : http_response * gstate W =>
    (with_header "X-Request-ID" (newRequestID rd) x.1, x.2)).
  assert (∀ m, Serve (with_mcp m v) rd req s = tag (protectHostAndOrigin (sv_hosts v)
    (sv_origins v) (bool_decide (is_Some (sv_admin v)) || bool_decide (is_Some (sv_oauth v)))
    (mux_handler (with_mcp m v) rd) (with_context ctx req) s)) as Htag
    by (intros m; unfold Serve, correlateAndLog, tag; by destruct (protectHostAndOrigin _ _ _ _ _ _)).
  destruct (protect_called v (with_context ctx req) s)
    as [[out Hout]|((host & Hhost & Hin) & Horigin & Hrun)];
    [left; exists (tag out); intros m; by rewrite Htag, Hout|].
  unfold mux_handler in Hrun. cbn [rq_Method rq_Path rq_Host rq_Header with_context] in *.
  destruct (mux (patterns v) (rq_Method req) (rq_Path req)) as [pattern|r] eqn:Emux.
  2:{ left. exists (tag (r, s)). intros m. rewrite Htag, Hrun. unfold mux_handler.
      change (patterns (with_mcp m v)) with (patterns v). cbn [rq_Method rq_Path with_context].
      by rewrite Emux. }
  assert (∀ m, Serve (with_mcp m v) rd req s
    = tag (registered (with_mcp m v) rd pattern (with_context ctx req) s)) as Hreg.
  { intros m. rewrite Htag, Hrun. unfold mux_handler.
    change (patterns (with_mcp m v)) with (patterns v). cbn [rq_Method rq_Path with_context].
    by rewrite Emux. }
  destruct (decide (pattern = "/mcp")) as [->|Hne].
  - apply mux_mcp in Emux as Hpath.
    destruct (authenticated_called v a rd req s) as [[out Hout]|(raw & principal & w & req' & s'
      & k & ? & ? & ? & ? & ? & ? & ? & ? & ? & Hk & Hcall)].
    + left. exists (tag out). intros m. rewrite Hreg. unfold registered.
      rewrite bool_decide_eq_true_2 by done. unfold protectedMCP. cbn [sv_authenticator with_mcp].
      rewrite Hauth. apply (f_equal tag), Hout.
    + right. exists host, raw, principal, w, req', s', (fun x => tag (k x)).
      split_and!; try done; [by apply Horigin| |].
      * intros x. unfold tag. cbn [fst]. by rewrite Hk.
      * intros m. rewrite Hreg. unfold registered. rewrite bool_decide_eq_true_2 by done.
        unfold protectedMCP. cbn [sv_authenticator with_mcp]. rewrite Hauth.
        f_equal. apply Hcall.
  - left. exists (tag (registered v rd pattern (with_context ctx req) s)). intros m.
    rewrite Hreg. unfold registered. by rewrite !(bool_decide_eq_false_2 _ Hne).
Qed.
End reach.

(** ** Samples *)

Definition sample_auth : MCPAuthenticator () := fun _ raw _ w =>
  (if bool_decide (raw = "secret") then Ok {|
     pp_TokenID := "t1"; pp_Name := "n"; pp_ApprovalMode := ApprovalModeInteractive;
     pp_Scopes := {[ ScopeRead ]}; pp_NAS := {[ "nas1" ]} |} else Err ErrTokenUnauthorized, w).
(** The SDK's middleware, when the header is in order. *)
Definition sample_bearer : BearerMiddleware := fun verify req =>
  match verify (rq_Context req) with Some info => Ok info | None => Err (http_Error 401 "") end.
Lemma sample_bearer_laws : @BearerLaws sample_bearer.
Proof. intros verify req ti. unfold RequireBearerToken, sample_bearer. destruct (verify _); congruence. Qed.
Definition sample_media : MIME := fun s => Some s.
Definition gateway_sha : Sha256 := fun s => s.

Definition session_server : TokenInfo → Handler () := fun _ _ s =>
  ({| hr_Status := 200; hr_Header := [("Mcp-Session-Id", "s1")]; hr_Body := OtherBody |}, s).
Definition sample_options : Options () := {|
  o_MCPServer := Some session_server; o_MCPAuthenticator := Some sample_auth;
  o_MCPAuditor := None; o_AdminHandler := None; o_OAuthProvider := None; o_BearerToken := "";
  o_AllowedHosts := ["GW.local."; "10.0.0.2"]; o_AllowedOrigins := []; o_MaxBodyBytes := 0;
  o_MaxConcurrent := 1; o_Ready := None |}.
Definition mcp_post (token session : string) : http_request := {|
  rq_Method := "POST"; rq_Path := "/mcp";
  rq_Header := fun k =>
    if bool_decide (k = "Authorization") then "bearer " +:+ token
    else if bool_decide (k = "Content-Type") then "application/json"
    else if bool_decide (k = "Mcp-Session-Id") then session else "";
  rq_Query := fun _ => ""; rq_PostForm := None; rq_Cookie := fun _ => None; rq_JSON := None;
  rq_BodyLength := Some 10; rq_ContentLength := 10; rq_Host := "gw.local:8443";
  rq_RemoteAddr := ""; rq_TLS := true; rq_Context := Background |}.
Definition sample_readings : greadings := {|
  gd_request_id := Some "id"; gd_nano := 0; gd_auth := 5; gd_limit := 5; gd_authorize := 5;
  gd_create := 5; gd_bind := 6 |}.
Definition gateway_start : gstate () :=
  {| gs_limiter := ∅; gs_sessions := ∅; gs_running := 0; gs_rest := () |}.

Definition no_origins : NetURL := {|
  url_Parse := fun _ => None; url_ParseRequestURI := fun _ => None |}.
Definition sample_server : Server () := {|
  sv_mcp := session_server; sv_authenticator := Some sample_auth; sv_auditor := None;
  sv_admin := None; sv_oauth := None; sv_token_digest := "";
  sv_hosts := {[ "gw.local"; "10.0.0.2" ]}; sv_origins := ∅; sv_max_body := 1048576;
  sv_slots := 1; sv_ready := fun _ _ => None |}.
Definition sample_serve (v : Server ()) : Handler () :=
  @Serve ascii_tables no_origins gateway_sha sample_media sample_bearer () v sample_readings.
Definition failing_server : TokenInfo → Handler () := fun _ _ s => (http_Error 500 "", s).

Example sample_new :
  (v ← @New ascii_tables no_origins gateway_sha () sample_options;
   Ok (elements (sv_hosts v), sv_slots v, sv_max_body v))
  = Ok (elements (sv_hosts sample_server), 1, 1048576).
Proof. vm_compute. reflexivity. Qed.

(** The first request gets a session, and the next one with another token is refused. *)
Example sample_session :
  let '(r, s) := sample_serve sample_server (mcp_post "secret" "") gateway_start in
  hr_Status r = 200 ∧ gs_sessions s = {[ "s1" := {| sb_TokenID := "t1"; sb_LastSeen := 6 |} ]} ∧
  hr_Status (sample_serve sample_server (mcp_post "secret" "s1") s).1 = 200 ∧
  hr_Status (sample_serve sample_server (mcp_post "wrong" "s1") s).1 = 401 ∧
  hr_Status (sample_serve sample_server (mcp_post "secret" "s2") s).1 = 404.
Proof. vm_compute. repeat split. Qed.

(** The answer depends on the server, so the request was admitted. *)
Lemma mcp_sees_admitted_witness :
  ∃ host, @normalizeHost ascii_tables "gw.local:8443" = Ok host ∧ host ∈ sv_hosts sample_server.
Proof.
  destruct (@mcp_sees_admitted ascii_tables no_origins gateway_sha sample_media sample_bearer
    sample_bearer_laws () sample_server sample_auth sample_readings (mcp_post "secret" "")
    gateway_start eq_refl) as [[out Hout]|(host & raw & principal & w & req' & s' & k & _ & Hh &
      Hin & _)].
  - pose proof (eq_trans (Hout session_server) (eq_sym (Hout failing_server))) as Heq.
    apply (f_equal (fun x => hr_Status x.1)) in Heq. vm_compute in Heq. discriminate Heq.
  - exists host. split; [exact Hh|exact Hin].
Defined.

(** A DELETE that is refused for want of a slot ends the session all the same. *)
Definition mcp_delete (token session : string) : http_request :=
  let r := mcp_post token session in {|
  rq_Method := "DELETE"; rq_Path := rq_Path r; rq_Header := rq_Header r; rq_Query := rq_Query r;
  rq_PostForm := None; rq_Cookie := rq_Cookie r; rq_JSON := None; rq_BodyLength := Some 0;
  rq_ContentLength := 0; rq_Host := rq_Host r; rq_RemoteAddr := ""; rq_TLS := true;
  rq_Context := Background |}.
Example refused_delete_unbinds :
  let busy := {| gs_limiter := ∅; gs_running := 1; gs_rest := ();
    gs_sessions := {[ "s1" := {| sb_TokenID := "t1"; sb_LastSeen := 0 |} ]} |} in
  let '(r, s) := sample_serve sample_server (mcp_delete "secret" "s1") busy in
  hr_Status r = 429 ∧ gs_sessions s = ∅.
Proof. vm_compute. by split. Qed.
