(* ===== verification/Repository.v ===== *)
(** * Opening the repository, profiles and readiness

    Source: internal/gateway/state/repository.go and normalizeProfileInput of types.go.
    A bucket that does not exist yet is an empty one.  The AEAD cipher is an interface,
    [AEAD]; RFC 3339 texts of times are the interface [TimeText].

    A method that commits a transaction and then reads the profile back makes two
    transactions; in the model nothing runs between them. *)

From S2P Require Import Prelude.
From S2P Require Import GoStrings.
From S2P Require Import Bolt.
From S2P Require Import NetIP.
From S2P Require Import RemotePolicy.
From S2P Require Import Password.
From S2P Require Import Config.
From S2P Require Import StateTypes.
From S2P Require Import Records.
From S2P Require Import Policy.

(** ** Interfaces *)

(** [cipher.AEAD]: [Open] returns [None] when authentication fails. *)
Class AEAD := {
  NonceSize : nat;
  Seal : string → string → string → string;
  Open : string → string → string → option string
}.
Class AEADLaws `{AEAD} : Prop := {
  open_seal nonce plaintext aad :
    Open nonce (Seal nonce plaintext aad) aad = Some plaintext
}.

(** [Time.Format] and [time.Parse] with [time.RFC3339Nano]. *)
Class TimeText := {
  FormatTime : Z → string;
  ParseTime : string → option Z
}.
(** A formatted time is not empty and parses back. *)
Class TimeTextLaws `{TimeText} : Prop := {
  format_nonempty t : FormatTime t ≠ "";
  parse_format t : ParseTime (FormatTime t) = Some t
}.

(** ** Envelopes *)

(** [secretType + "\x00" + profileID + "\x00" + id] *)
Definition aad (secretType profileID id : string) : string :=
  secretType +:+ chr 0 +:+ profileID +:+ chr 0 +:+ id.

Definition string_take (n : nat) (s : string) : string := String.substring 0 n s.
Definition string_drop (n : nat) (s : string) : string :=
  String.substring n (String.length s - n) s.

Section envelope.
Context `{AEAD}.

Definition openEnvelope (id secretType profileID ciphertext : string) : option string :=
  if (String.length ciphertext <? NonceSize)%nat then None else
  Open (string_take NonceSize ciphertext) (string_drop NonceSize ciphertext)
    (aad secretType profileID id).

Definition sealPrefixed (nonce id secretType profileID plaintext : string) : string :=
  nonce +:+ Seal nonce plaintext (aad secretType profileID id).
End envelope.

(** ** Profile inputs *)

Section profiles.
Context `{Unicode, NetURL, TimeText, KeyN}.

Definition normalizeFingerprint (value : string) : result error string :=
  let value := ToLower (RemoveByte (TrimSpace value) 58) in
  if negb (slen value =? 64)
  then Err (ErrNew "certificate fingerprint must be a SHA-256 fingerprint") else
  if negb (all_hex value)
  then Err (ErrNew "certificate fingerprint must contain only hexadecimal characters") else
  Ok value.

(** The switch on the TLS mode: the fingerprint to store. *)
Definition normalize_tls (mode scheme fingerprint : string) : result error string :=
  if bool_decide (mode = TLSSystemCA) then
    if negb (bool_decide (TrimSpace fingerprint = ""))
    then Err (ErrNew "certificate_fingerprint is valid only with pinned_fingerprint TLS mode")
    else Ok ""
  else if bool_decide (mode = TLSPinnedFingerprint) then
    if negb (bool_decide (scheme = "https"))
    then Err (ErrNew "pinned_fingerprint TLS mode requires an https URL")
    else normalizeFingerprint fingerprint
  else Err (ErrNew "TLS mode must be system_ca or pinned_fingerprint").

Definition normalizeProfileInput (input : ProfileInput) : result error ProfileInput :=
  let name := TrimSpace (pi_Name input) in
  let url := TrimRight1 (TrimSpace (pi_URL input)) 47 in
  let username := TrimSpace (pi_Username input) in
  role ← NormalizeRole (pi_Role input);
  let mode0 := TrimSpace (pi_TLSMode input) in
  let mode := if bool_decide (mode0 = "") then TLSSystemCA else mode0 in
  ValidateName name ≫= λ _,
  match url_Parse url with
  | None => Err (ErrNew "URL must be an absolute http or https URL")
  | Some p =>
      if bool_decide (u_Host p = "")
         || (negb (bool_decide (u_Scheme p = "http")) && negb (bool_decide (u_Scheme p = "https")))
      then Err (ErrNew "URL must be an absolute http or https URL") else
      if u_User p || negb (bool_decide (u_RawQuery p = ""))
         || negb (bool_decide (u_Fragment p = ""))
         || (negb (bool_decide (u_Path p = "")) && negb (bool_decide (u_Path p = "/")))
      then Err (ErrNew "URL must contain only scheme, host, and optional port") else
      if (pi_TimeoutSeconds input <? 0) || (120 <? pi_TimeoutSeconds input)
      then Err (ErrNew "timeout_seconds must be between 0 and 120") else
      fingerprint ← normalize_tls mode (u_Scheme p) (pi_CertificateFingerprint input);
      Ok {| pi_Name := name; pi_URL := u_Scheme p +:+ "://" +:+ u_Host p;
            pi_Username := username; pi_TLSMode := mode;
            pi_CertificateFingerprint := fingerprint;
            pi_TimeoutSeconds := pi_TimeoutSeconds input; pi_Role := role |}
  end.

(** ** Reading profiles *)

Definition profile_name_le (x y : Profile) : Prop := String.le (pf_Name x) (pf_Name y).
#[global] Instance profile_name_le_dec : RelDecision profile_name_le.
Proof. intros x y. unfold profile_name_le. apply _. Defined.

Definition Profiles_view (d : DB) : result error (list Profile) :=
  match ForEach (b_profiles d) with
  | None => Err ErrDecode
  | Some l =>
      Ok (merge_sort profile_name_le
        ((fun q => publicProfile q.2
            (bool_decide (pr_Name q.2 = meta_get d keyDefaultProfile))) <$> l))
  end.
Definition Profiles (ctx : context) : GW (list Profile) :=
  ctx_check ctx;; View Profiles_view.

Definition GetProfile (ctx : context) (name : string) : GW Profile :=
  ctx_check ctx;;
  View (fun d =>
    record ← readProfile d name;
    Ok (publicProfile record (bool_decide (meta_get d keyDefaultProfile = name)))).

(** ** Changing profiles *)

Definition new_profile (id : string) (now : Z) (input : ProfileInput) (revision : Z) :
    profileRecord := {|
  pr_ID := id; pr_Name := pi_Name input; pr_URL := pi_URL input;
  pr_Username := pi_Username input; pr_TLSMode := pi_TLSMode input;
  pr_CertificateFingerprint := pi_CertificateFingerprint input;
  pr_TimeoutSeconds := pi_TimeoutSeconds input; pr_Revision := revision;
  pr_Role := pi_Role input; pr_PasswordSecretID := ""; pr_TrustedDeviceSecretID := "";
  pr_SessionSecretID := ""; pr_CreatedAt := now; pr_UpdatedAt := now |}.

Definition create_profile_tx (input : ProfileInput) (now : Z) (rid : string) : GW () :=
  d ← getDB;
  check (bool_decide (b_profiles d !! pi_Name input = None))
    (ErrNew "NAS profile already exists");;
  check (count (b_profiles d) <? MaxProfiles)
    (ErrNew "gateway supports at most 32 NAS profiles");;
  revision ← nextProfileRevision;
  put_profile (pi_Name input) (new_profile rid now input revision);;
  d ← getDB;
  (if bool_decide (meta_get d keyDefaultProfile = "")
   then put_meta keyDefaultProfile (pi_Name input) else mret ()).

Definition CreateProfile (ctx : context) (input : ProfileInput) (now : Z) (rid : string) :
    GW Profile :=
  ctx_check ctx;;
  input ← lift (normalizeProfileInput input);
  Update (create_profile_tx input now rid);;
  GetProfile ctx (pi_Name input).

Definition check_revision (expected : Z) (record : profileRecord) : GW () :=
  check (negb ((expected =? 0) || negb (pr_Revision record =? expected)))
    (ErrRevisionConflict expected (pr_Revision record)).

Definition profile_changed (record : profileRecord) (input : ProfileInput) : bool :=
  negb (bool_decide (pr_URL record = pi_URL input))
  || negb (bool_decide (pr_Username record = pi_Username input))
  || negb (bool_decide (pr_TLSMode record = pi_TLSMode input))
  || negb (bool_decide (pr_CertificateFingerprint record = pi_CertificateFingerprint input))
  || negb (pr_TimeoutSeconds record =? pi_TimeoutSeconds input).

Definition apply_profile_input (input : ProfileInput) (revision now : Z)
    (record : profileRecord) : profileRecord :=
  set_pr_UpdatedAt now (set_pr_Revision revision
    (set_pr_TimeoutSeconds (pi_TimeoutSeconds input)
    (set_pr_CertificateFingerprint (pi_CertificateFingerprint input)
    (set_pr_TLSMode (pi_TLSMode input)
    (set_pr_Username (pi_Username input) (set_pr_URL (pi_URL input) record)))))).

Definition update_profile_tx (name : string) (expected : Z) (input : ProfileInput)
    (now : Z) : GW () :=
  d ← getDB;
  record ← lift (readProfile d name);
  check_revision expected record;;
  if negb (profile_changed record input) then mret () else
  revision ← nextProfileRevision;
  putProfile (apply_profile_input input revision now record).

Definition UpdateProfile (ctx : context) (name : string) (expected : Z)
    (input : ProfileInput) (now : Z) : GW Profile :=
  ctx_check ctx;;
  normalized ← lift (normalizeProfileInput
    {| pi_Name := name; pi_URL := pi_URL input; pi_Username := pi_Username input;
       pi_TLSMode := pi_TLSMode input;
       pi_CertificateFingerprint := pi_CertificateFingerprint input;
       pi_TimeoutSeconds := pi_TimeoutSeconds input; pi_Role := pi_Role input |});
  Update (update_profile_tx name expected normalized now);;
  GetProfile ctx name.

Definition SetDefault (ctx : context) (name : string) : GW () :=
  ctx_check ctx;;
  Update (
    d ← getDB;
    lift (readProfile d name);;
    put_meta keyDefaultProfile name).

Definition secrets_of (profileID : string) (s : sealedSecret) : bool :=
  bool_decide (sm_ProfileID (ss_Metadata s) = profileID).

(** The token without [name] on its allowlist; [None] when it was not on it. *)
Definition drop_allowed (name : string) (now : Z) (v : stored mcpTokenRecord) :
    option mcpTokenRecord :=
  match decodeMCPToken v with
  | Err _ => None
  | Ok token =>
      let allowed := tk_NASAllowlist (tr_MCPToken token) in
      if bool_decide (name ∈ allowed)
      then Some (upd_tr (fun t => set_tk_UpdatedAt now
             (set_tk_NASAllowlist (base.filter (fun a => a ≠ name) allowed) t)) token)
      else None
  end.

(** [nows k] is the clock reading for the token stored under [k].  The code puts the
    changed tokens while it iterates; the model rewrites the tokens of the bucket at the
    start. *)
Definition delete_profile_tx (name : string) (expected : Z) (retainSecrets : bool)
    (nows : string → Z) (now wall : Z) (rid : string) : GW Profile :=
  d ← getDB;
  let start := count (b_audit d) in
  record ← lift (readProfile d name);
  check_revision expected record;;
  let removed := publicProfile record (bool_decide (meta_get d keyDefaultProfile = name)) in
  (if retainSecrets then mret () else
     foreach (b_secrets d);;
     modifyDB (fun d => set_b_secrets
       (delete_keys (keys_where (secrets_of (pr_ID record)) (b_secrets d)) (b_secrets d)) d));;
  modifyDB (fun d => set_b_profiles (delete name (b_profiles d)) d);;
  tokens ← foreach (b_mcp_tokens d);
  modifyDB (fun d => set_b_mcp_tokens
    (map_imap (fun k v => Some (match drop_allowed name (nows k) v with
                                | Some r => Json r | None => v end)) (b_mcp_tokens d)) d);;
  (if existsb (fun q => bool_decide (name ∈ tk_NASAllowlist (tr_MCPToken q.2))) tokens
   then appendAuditTx start wall rid {|
     ev_ID := ""; ev_Time := now; ev_CorrelationID := ""; ev_ActorType := "gateway_admin";
     ev_ActorID := ""; ev_Action := "token.allowlist.cleanup"; ev_Tool := "";
     ev_NAS := name; ev_Outcome := "success"; ev_Reason := "" |}
   else mret ());;
  (if bool_decide (meta_get d keyDefaultProfile = name)
   then delete_meta keyDefaultProfile else mret ());;
  mret removed.

Definition DeleteProfile (ctx : context) (name : string) (expected : Z)
    (retainSecrets : bool) (nows : string → Z) (now wall : Z) (rid : string) :
    GW Profile :=
  ctx_check ctx;;
  Update (delete_profile_tx name expected retainSecrets nows now wall rid).

(** ** The configuration snapshot *)

Definition config_profile (p : Profile) : NASProfile := {|
  np_URL := pf_URL p; np_Identity := zero_identity; np_Endpoints := [];
  np_Username := pf_Username p; np_PasswordEnv := ""; np_InsecureSkipTLSVerify := false;
  np_TLSMode := pf_TLSMode p; np_CertificateFingerprint := pf_CertificateFingerprint p;
  np_TimeoutSeconds := pf_TimeoutSeconds p; np_Role := pf_Role p;
  np_Revision := pf_Revision p |}.

Definition snapshot_step (c : Config) (p : Profile) : Config := {|
  cf_DefaultNAS := if pf_Default p then pf_Name p else cf_DefaultNAS c;
  cf_NAS := <[pf_Name p := config_profile p]> (cf_NAS c) |}.

Definition Snapshot (ctx : context) : GW Config :=
  profiles ← Profiles ctx;
  mret (fold_left snapshot_step profiles new_config).

(** ** Administrator record and readiness *)

Definition administratorInitialized (d : DB) : bool :=
  negb (bool_decide (meta_get d keyAdminUsername = ""))
  && negb (bool_decide (meta_get d keyAdminPassword = ""))
  && negb (bool_decide (meta_get d keyAdminInitializedAt = "")).

Definition administratorConfigured (d : DB) : bool :=
  negb (bool_decide (meta_get d keyAdminUsername = ""))
  || negb (bool_decide (meta_get d keyAdminPassword = ""))
  || negb (bool_decide (meta_get d keyAdminInitializedAt = "")).

Definition validateAdministratorRecord (d : DB) : result error () :=
  match normalizeAdministratorUsername (meta_get d keyAdminUsername) with
  | Err _ => Err (ErrNew "gateway local administrator record is invalid")
  | Ok _ =>
      match parsePasswordVerifier (meta_get d keyAdminPassword) with
      | Err _ => Err (ErrNew "gateway local administrator password verifier is invalid")
      | Ok _ =>
          match ParseTime (meta_get d keyAdminInitializedAt) with
          | None => Err (ErrNew "gateway local administrator initialization time is invalid")
          | Some _ => Ok ()
          end
      end
  end.

Definition schema_version (d : DB) : Z := decodeUint64 (meta_get d keySchemaVersion).

Definition ReadyWithExternalAdministrator (ctx : context) (externalAdministrator : bool) :
    GW () :=
  ctx_check ctx;;
  View (fun d =>
    if negb (schema_version d =? SchemaVersion)
    then Err (ErrNew "gateway schema is not ready") else
    if negb (administratorConfigured d)
    then if externalAdministrator then Ok () else Err ErrAdministratorRequired
    else validateAdministratorRecord d).

Definition Ready (ctx : context) : GW () := ReadyWithExternalAdministrator ctx false.

(** The conversion [int(uint64)] wraps to the signed range. *)
Definition int_of_uint64 (x : Z) : Z := if x <? 2 ^ 63 then x else x - 2 ^ 64.

(** The [Health] method. *)
Definition health (ctx : context) : GW Health :=
  ctx_check ctx;;
  View (fun d =>
    let version := int_of_uint64 (schema_version d) in
    let initialized := administratorConfigured d in
    Ok {| he_SchemaVersion := version; he_ProfileCount := count (b_profiles d);
          he_Initialized := initialized;
          he_Ready := (version =? SchemaVersion) && initialized
                      && is_Ok (validateAdministratorRecord d);
          he_AdminMode := if initialized then AdminModeLocal else "" |}).
End profiles.

(** ** Opening the state file *)

Section initialize.
Context `{AEAD, TimeText}.

Definition keyCheckPlaintext : string := "dsmctl-gateway-master-key-v1".

(** [(legacyAdmin, managedData)] *)
Definition legacyAdministrationState (d : DB) : bool * bool :=
  let present k := negb (bool_decide (meta_get d k = "")) in
  (present keyAdminDigest || present keyBootstrapDigest || present keyBootstrapUsed
     || present keyAdminMode,
   (0 <? count (b_profiles d)) || (0 <? count (b_secrets d))
     || (0 <? count (b_mcp_tokens d)) || (0 <? count (b_token_digests d))
     || (0 <? count (b_approvals d)) || (0 <? count (b_approval_requests d))
     || (0 <? count (b_oauth_clients d)) || (0 <? count (b_oauth_refresh d))).

Definition highest_revision (l : list (string * profileRecord)) : Z :=
  fold_left (fun highest q => if highest <? pr_Revision q.2 then pr_Revision q.2 else highest)
    l 0.

Definition initialize_tx (version : Z) (beforeCommit : option error) (nonce : string)
    (now : Z) : GW () :=
  d ← getDB;
  (if bool_decide (meta_get d keyKeyCheck = "")
   then put_meta keyKeyCheck (sealPrefixed nonce "key-check" "key-check" "" keyCheckPlaintext)
   else mret ());;
  (if version <? SchemaVersion
   then match beforeCommit with Some e => fail e | None => mret () end else mret ());;
  put_meta keySchemaVersion (encodeUint64 SchemaVersion);;
  (if bool_decide (meta_get d keyRevisionCounter = "") then
     profiles ← foreach (b_profiles d);
     put_meta keyRevisionCounter (encodeUint64 (highest_revision profiles))
   else mret ());;
  (if (0 <? version) && (version <? 5) then migrateLANDiscoveryScope else mret ());;
  (if (0 <? version) && (version <? 7) then migrateMCPApprovalMode else mret ());;
  (if version <? SchemaVersion then
     delete_meta keyBootstrapDigest;; delete_meta keyBootstrapUsed;;
     delete_meta keyAdminDigest;; delete_meta keyAdminMode
   else mret ());;
  modifyDB (fun d => set_b_migrations
    (<[encodeUint64 SchemaVersion := FormatTime now]> (b_migrations d)) d).

(** The directory of the state file: the database, and the backups beside it by path;
    [None] is a copy that was left incomplete. *)
Record home := { h_world : gworld; h_files : gmap string (option DB) }.

Definition on_world {A} (m : GW A) : ST home error A := fun s =>
  let '(r, w') := m (h_world s) in (r, {| h_world := w'; h_files := h_files s |}).

(** [failure]: the error of the copy, and whether it leaves an incomplete file. *)
Definition copyFile (path : string) (failure : option (error * bool)) : ST home error () :=
  fun s =>
  let write c := {| h_world := h_world s; h_files := <[path := c]> (h_files s) |} in
  match failure with
  | None => (Ok (), write (Some (w_db (h_world s))))
  | Some (e, partial) => (Err e, if partial : bool then write None else s)
  end.

Definition backup_path (path : string) (version nanos : Z) : string :=
  path +:+ ".pre-v" +:+ Itoa version +:+ "-" +:+ Itoa nanos +:+ ".bak".

(** [existed]: the file was there; [nanos]: the clock at the backup; [backup], [chmod]:
    failures of the file system. *)
Definition initialize (path : string) (existed : bool) (nanos : Z)
    (backup : option (error * bool)) (beforeCommit chmod : option error)
    (nonce : string) (now : Z) : ST home error () :=
  d ← on_world getDB;
  let version := schema_version d in
  let keyCheck := meta_get d keyKeyCheck in
  check (version <=? SchemaVersion)
    (ErrNew "gateway state schema is newer than supported schema");;
  (if negb (bool_decide (keyCheck = "")) then
     check (bool_decide (openEnvelope "key-check" "key-check" "" keyCheck
                         = Some keyCheckPlaintext))
       (ErrNew "gateway master key does not match the existing encrypted state")
   else check (negb (existed && (0 <? version)))
          (ErrNew "gateway state is missing its encrypted master-key check"));;
  (if (version <? SchemaVersion) && existed
   then copyFile (backup_path path version nanos) backup else mret ());;
  (if (0 <? version) && (version <? SchemaVersion) then
     let '(legacyAdmin, managedData) := legacyAdministrationState d in
     check (negb (legacyAdmin && managedData))
       (ErrNew "legacy gateway administrator state contains managed data")
   else mret ());;
  on_world (Update (initialize_tx version beforeCommit nonce now));;
  match chmod with Some e => fail e | None => mret () end.
End initialize.
