(* ===== verification/Vault.v ===== *)
(** * The credential vault

    Source: internal/gateway/state/vault.go, and the data of
    internal/credentials/{secure_store,session}.go it stores.  A sealed secret is bound to
    its type, profile and id by the additional data of the AEAD.  JSON texts of trusted
    devices and sessions are the interface [Codec]; [lookup] is [os.LookupEnv].

    Every [putSecret] draws an id, a clock reading and a nonce: a [fresh_reads]. *)

From S2P Require Import Prelude.
From S2P Require Import GoStrings.
From S2P Require Import Bolt.
From S2P Require Import NetIP.
From S2P Require Import RemotePolicy.
From S2P Require Import Config.
From S2P Require Import StateTypes.
From S2P Require Import Records.
From S2P Require Import Policy.
From S2P Require Import Repository.

Definition secretPassword : string := "password".
Definition secretTrustedDevice : string := "trusted_device".
Definition secretSession : string := "web_login_session".
Definition secretApply : string := "apply_secret".

(** ** Credentials *)

Record TrustedDevice := { td_Name : string; td_ID : string }.

Record SessionCredential := {
  sc_SID : string;
  sc_SynoToken : string;
  sc_ServerPublicKey : string;
  sc_LocalPublicKey : string;
  sc_LocalPrivateKey : string;
  sc_DeviceID : string;
  sc_Account : string;
  sc_IssuedAt : Z;
  sc_ExpiresAt : Z;
  sc_LastVerified : Z
}.

Definition CanResume (c : SessionCredential) : bool :=
  (0 <? slen (sc_ServerPublicKey c)) && (0 <? slen (sc_LocalPrivateKey c)).

Record SessionMeta := {
  sn_Present : bool;
  sn_Account : string;
  sn_IssuedAt : Z;
  sn_ExpiresAt : Z;
  sn_LastVerified : Z;
  sn_CanResume : bool
}.

Definition zero_device : TrustedDevice := {| td_Name := ""; td_ID := "" |}.
Definition zero_session : SessionCredential := {|
  sc_SID := ""; sc_SynoToken := ""; sc_ServerPublicKey := ""; sc_LocalPublicKey := "";
  sc_LocalPrivateKey := ""; sc_DeviceID := ""; sc_Account := ""; sc_IssuedAt := zeroTime;
  sc_ExpiresAt := zeroTime; sc_LastVerified := zeroTime |}.
Definition zero_meta : SessionMeta := {|
  sn_Present := false; sn_Account := ""; sn_IssuedAt := zeroTime; sn_ExpiresAt := zeroTime;
  sn_LastVerified := zeroTime; sn_CanResume := false |}.

(** [json.Marshal] and [json.Unmarshal] of a credential. *)
Class Codec (A : Type) := { Marshal : A → string; Unmarshal : string → option A }.
(** An encoded credential is not empty and decodes to itself. *)
Class CodecLaws A `{Codec A} : Prop := {
  marshal_nonempty a : Marshal a ≠ "";
  unmarshal_marshal a : Unmarshal (Marshal a) = Some a
}.

Record fresh_reads := { fr_id : string; fr_wall : Z; fr_nonce : string }.

(** A field of the profile record that holds a secret id. *)
Record secret_field := {
  sf_get : profileRecord → string;
  sf_set : string → profileRecord → profileRecord
}.
Definition password_field : secret_field := Build_secret_field pr_PasswordSecretID set_pr_PasswordSecretID.
Definition device_field : secret_field :=
  Build_secret_field pr_TrustedDeviceSecretID set_pr_TrustedDeviceSecretID.
Definition session_field : secret_field := Build_secret_field pr_SessionSecretID set_pr_SessionSecretID.

Section vault.
Context `{AEAD, Unicode, Codec TrustedDevice, Codec SessionCredential}.

(** ** Sealing and opening *)

Definition putSecret (record : profileRecord) (secretType plaintext existingID account : string)
    (fr : fresh_reads) : GW string :=
  let id := if bool_decide (existingID = "") then fr_id fr else existingID in
  d ← getDB;
  created ← match b_secrets d !! id with
            | None => mret (fr_wall fr)
            | Some Garbled => fail ErrDecode
            | Some (Json old) => mret (sm_CreatedAt (ss_Metadata old))
            end;
  let metadata := {| sm_ID := id; sm_ProfileID := pr_ID record; sm_Type := secretType;
                     sm_Account := TrimSpace account; sm_CreatedAt := created;
                     sm_UpdatedAt := fr_wall fr |} in
  put_secret id {| ss_Metadata := metadata; ss_Nonce := Some (fr_nonce fr);
    ss_Ciphertext := Some (Seal (fr_nonce fr) plaintext (aad secretType (pr_ID record) id)) |};;
  mret id.

Definition secret (d : DB) (id expectedType expectedProfileID : string) :
    result error (string * SecretMetadata) :=
  match b_secrets d !! id with
  | None => Err (ErrNotFound "secret")
  | Some Garbled => Err ErrDecode
  | Some (Json sealed) =>
      let m := ss_Metadata sealed in
      if negb (bool_decide (expectedType = "")) && negb (bool_decide (sm_Type m = expectedType))
      then Err (ErrNew "vault secret type does not match") else
      if negb (bool_decide (expectedProfileID = ""))
         && negb (bool_decide (sm_ProfileID m = expectedProfileID))
      then Err (ErrNew "vault secret profile does not match") else
      match ss_Nonce sealed with
      | None => Err (ErrNew "encrypted secret nonce is malformed")
      | Some nonce =>
          if negb (bool_decide (String.length nonce = NonceSize))
          then Err (ErrNew "encrypted secret nonce is malformed") else
          match ss_Ciphertext sealed with
          | None => Err (ErrNew "encrypted secret payload is malformed")
          | Some ciphertext =>
              match Open nonce ciphertext (aad (sm_Type m) (sm_ProfileID m) (sm_ID m)) with
              | None => Err (ErrNew "decrypt vault secret: authentication failed")
              | Some plaintext => Ok (plaintext, m)
              end
          end
      end
  end.

(** ** Reading passwords *)

Definition is_not_found (e : error) : bool :=
  match e with ErrNotFound _ => true | _ => false end.

Definition primary_password (d : DB) (profileName : string) : result error string :=
  record ← readProfile d profileName;
  if bool_decide (pr_PasswordSecretID record = "") then Err (ErrNotFound "password") else
  p ← secret d (pr_PasswordSecretID record) secretPassword (pr_ID record);
  Ok p.1.

Definition Password (lookup : string → option string) (ctx : context)
    (profileName : string) (profile : NASProfile) : GW string :=
  ctx_check ctx;;
  d ← getDB;
  match primary_password d profileName with
  | Ok password => mret password
  | Err e => if is_not_found e then lift (env_Password lookup ctx profileName profile)
             else fail (ErrNew "read password from gateway vault")
  end.

(** The first password secret, in key order, of this profile and account. *)
Definition account_secret (profileID account : string) (s : sealedSecret) : bool :=
  bool_decide (sm_Type (ss_Metadata s) = secretPassword)
  && bool_decide (sm_ProfileID (ss_Metadata s) = profileID)
  && EqualFold (TrimSpace (sm_Account (ss_Metadata s))) account.

Definition passwordSecretIDForAccount (d : DB) (profileID account : string) :
    result error string :=
  let account := TrimSpace account in
  match scan (account_secret profileID account) (entries (b_secrets d)) with
  | None => Err ErrDecode
  | Some (Some (k, _)) => Ok k
  | Some None => Ok ""
  end.

Definition passwordSecretByAccount (d : DB) (record : profileRecord) (account : string) :
    result error (string * string) :=
  let account := TrimSpace account in
  let scan_labels :=
    id ← passwordSecretIDForAccount d (pr_ID record) account;
    if bool_decide (id = "") then Err (ErrNotFound "password") else
    p ← secret d id secretPassword (pr_ID record);
    Ok (p.1, id) in
  if bool_decide (account = "") || EqualFold account (pr_Username record) then
    if negb (bool_decide (pr_PasswordSecretID record = "")) then
      p ← secret d (pr_PasswordSecretID record) secretPassword (pr_ID record);
      Ok (p.1, pr_PasswordSecretID record)
    else if bool_decide (account = "") then Err (ErrNotFound "password")
    else scan_labels
  else scan_labels.

Definition password_of_account (profileName account : string) (d : DB) :
    result error string :=
  record ← readProfile d profileName;
  p ← passwordSecretByAccount d record account;
  Ok p.1.

Definition PasswordForAccount (lookup : string → option string) (ctx : context)
    (profileName : string) (profile : NASProfile) (account : string) : GW string :=
  ctx_check ctx;;
  let account := TrimSpace account in
  if bool_decide (account = "") then Password lookup ctx profileName profile else
  d ← getDB;
  match password_of_account profileName account d with
  | Ok password => mret password
  | Err e =>
      if is_not_found e && EqualFold account (np_Username profile)
      then lift (env_Password lookup ctx profileName profile) else fail e
  end.

Definition RevealPasswordForAccount (ctx : context) (profileName account : string) :
    GW string :=
  ctx_check ctx;; View (password_of_account profileName account).

Definition RevealPassword (ctx : context) (profileName : string) : GW string :=
  RevealPasswordForAccount ctx profileName "".
Definition StoredPassword (ctx : context) (profileName : string) : GW string :=
  RevealPasswordForAccount ctx profileName "".

(** Primary first, then by account label. *)
Definition account_le (x y : AccountCredentialInfo) : Prop :=
  if bool_decide (ac_Primary x = ac_Primary y)
  then String.le (ToLower (ac_Account x)) (ToLower (ac_Account y))
  else ac_Primary x = true.
#[global] Instance account_le_dec : RelDecision account_le.
Proof. intros x y. unfold account_le. destruct (bool_decide _); apply _. Defined.

Definition account_info (record : profileRecord) (s : sealedSecret) :
    option AccountCredentialInfo :=
  let m := ss_Metadata s in
  if bool_decide (sm_Type m = secretPassword) && bool_decide (sm_ProfileID m = pr_ID record)
  then
    let primary := bool_decide (sm_ID m = pr_PasswordSecretID record) in
    let account := TrimSpace (sm_Account m) in
    Some {| ac_Account := if bool_decide (account = "") && primary
                          then pr_Username record else account;
            ac_Primary := primary; ac_CreatedAt := sm_CreatedAt m;
            ac_UpdatedAt := sm_UpdatedAt m |}
  else None.

Definition PasswordAccounts (ctx : context) (profileName : string) :
    GW (list AccountCredentialInfo) :=
  ctx_check ctx;;
  View (fun d =>
    record ← readProfile d profileName;
    match ForEach (b_secrets d) with
    | None => Err ErrDecode
    | Some l => Ok (merge_sort account_le (omap (fun q => account_info record q.2) l))
    end).

(** ** Writing passwords *)

(** The last steps of every credential change: a new revision, then the record. *)
Definition commit_profile (record : profileRecord) (wall : Z) : GW Z :=
  revision ← nextProfileRevision;
  let record := set_pr_UpdatedAt wall (set_pr_Revision revision record) in
  putProfile record;;
  mret revision.

Definition SavePassword (ctx : context) (profileName password : string)
    (fr : fresh_reads) (wall : Z) : GW Z :=
  ctx_check ctx;;
  check (negb (bool_decide (password = ""))) (ErrNew "password cannot be empty");;
  Update (
    d ← getDB;
    record ← lift (readProfile d profileName);
    id ← putSecret record secretPassword password (pr_PasswordSecretID record)
           (pr_Username record) fr;
    commit_profile (set_pr_PasswordSecretID id record) wall).

Definition device_pair (device : TrustedDevice) : bool :=
  eqb (bool_decide (td_Name device = "")) (bool_decide (td_ID device = "")).

(** Store the device when there is one. *)
Definition put_device (device : TrustedDevice) (fr : fresh_reads) (record : profileRecord) :
    GW profileRecord :=
  if bool_decide (td_ID device = "") then mret record else
  id ← putSecret record secretTrustedDevice (Marshal device)
         (pr_TrustedDeviceSecretID record) "" fr;
  mret (set_pr_TrustedDeviceSecretID id record).

Definition enrollPassword (ctx : context) (profileName : string) (expectedRevision : Z)
    (account password : string) (device : TrustedDevice) (fr1 fr2 : fresh_reads) (wall : Z) :
    GW Z :=
  ctx_check ctx;;
  check (negb (bool_decide (password = ""))) (ErrNew "password cannot be empty");;
  check (device_pair device)
    (ErrNew "trusted device name and ID must be supplied together");;
  Update (
    d ← getDB;
    record ← lift (readProfile d profileName);
    check ((expectedRevision =? 0) || (pr_Revision record =? expectedRevision))
      (ErrRevisionConflict expectedRevision (pr_Revision record));;
    id ← putSecret record secretPassword password (pr_PasswordSecretID record) account fr1;
    let record := set_pr_PasswordSecretID id record in
    let record := if bool_decide (account = "") then record
                  else set_pr_Username account record in
    record ← put_device device fr2 record;
    commit_profile record wall).

Definition EnrollPassword (ctx : context) (profileName password : string)
    (device : TrustedDevice) (fr1 fr2 : fresh_reads) (wall : Z) : GW Z :=
  enrollPassword ctx profileName 0 "" password device fr1 fr2 wall.

Definition EnrollPasswordForAccount (ctx : context) (profileName : string)
    (expectedRevision : Z) (account password : string) (device : TrustedDevice)
    (fr1 fr2 : fresh_reads) (wall : Z) : GW Z :=
  let account := TrimSpace account in
  check (negb (bool_decide (account = ""))) (ErrNew "DSM account is required");;
  check (negb (expectedRevision =? 0)) (ErrNew "expected profile revision is required");;
  enrollPassword ctx profileName expectedRevision account password device fr1 fr2 wall.

Definition session_usable (s : SessionCredential) : bool :=
  negb (bool_decide (sc_SID s = "")) || CanResume s.

Definition put_session_of (session : option SessionCredential) (fr : fresh_reads)
    (record : profileRecord) : GW profileRecord :=
  match session with
  | None => mret record
  | Some s =>
      id ← putSecret record secretSession (Marshal s) (pr_SessionSecretID record) "" fr;
      mret (set_pr_SessionSecretID id record)
  end.

Definition is_primary (record : profileRecord) (account : string) : bool :=
  bool_decide (pr_PasswordSecretID record = "") || EqualFold (pr_Username record) account.

Definition savePasswordForAccount (ctx : context) (profileName : string)
    (expectedRevision : Z) (account password : string) (device : TrustedDevice)
    (session : option SessionCredential) (fr1 fr2 fr3 : fresh_reads) (wall : Z) : GW Z :=
  ctx_check ctx;;
  let account := TrimSpace account in
  check (negb (bool_decide (account = ""))) (ErrNew "DSM account is required");;
  check (negb (expectedRevision =? 0)) (ErrNew "expected profile revision is required");;
  check (negb (bool_decide (password = ""))) (ErrNew "password cannot be empty");;
  check (device_pair device)
    (ErrNew "trusted device name and ID must be supplied together");;
  check (match session with Some s => session_usable s | None => true end)
    (ErrNew "session must carry a session ID or resume key material");;
  Update (
    d ← getDB;
    record ← lift (readProfile d profileName);
    check (pr_Revision record =? expectedRevision)
      (ErrRevisionConflict expectedRevision (pr_Revision record));;
    let primary := is_primary record account in
    check (negb (bool_decide (is_Some session) && negb primary))
      (ErrNew "a runtime session can only be stored for the primary DSM account");;
    record ← (if primary then
        id ← putSecret record secretPassword password (pr_PasswordSecretID record) account fr1;
        let record := set_pr_Username account (set_pr_PasswordSecretID id record) in
        record ← put_device device fr2 record;
        put_session_of session fr3 record
      else
        d ← getDB;
        existingID ← lift (passwordSecretIDForAccount d (pr_ID record) account);
        putSecret record secretPassword password existingID account fr1;;
        mret record);
    commit_profile record wall).

Definition SavePasswordForAccount (ctx : context) (profileName : string)
    (expectedRevision : Z) (account password : string) (device : TrustedDevice)
    (fr1 fr2 fr3 : fresh_reads) (wall : Z) : GW Z :=
  savePasswordForAccount ctx profileName expectedRevision account password device None
    fr1 fr2 fr3 wall.

Definition SavePasswordForAccountWithSession (ctx : context) (profileName : string)
    (expectedRevision : Z) (account password : string) (device : TrustedDevice)
    (session : SessionCredential) (fr1 fr2 fr3 : fresh_reads) (wall : Z) : GW Z :=
  savePasswordForAccount ctx profileName expectedRevision account password device
    (Some session) fr1 fr2 fr3 wall.

(** [(removed, revision)] *)
Definition DeletePasswordForAccount (ctx : context) (profileName account : string)
    (wall : Z) : GW (bool * Z) :=
  ctx_check ctx;;
  let account := TrimSpace account in
  Update (
    d ← getDB;
    record ← lift (readProfile d profileName);
    let primary := bool_decide (account = "") || EqualFold (pr_Username record) account in
    '(record', removed) ← (if primary then
        if negb (bool_decide (pr_PasswordSecretID record = "")) then
          delete_secret (pr_PasswordSecretID record);;
          mret (set_pr_PasswordSecretID "" record, true)
        else mret (record, false)
      else
        id ← lift (passwordSecretIDForAccount d (pr_ID record) account);
        if bool_decide (id = "") then mret (record, false)
        else delete_secret id;; mret (record, true));
    if negb removed then mret (false, pr_Revision record)
    else revision ← commit_profile record' wall; mret (true, revision)).
End vault.

Section credentials.
Context `{AEAD, Unicode, Codec TrustedDevice, Codec SessionCredential}.

(** ** Any secret a profile points at *)

Definition hasProfileSecret (f : secret_field) (ctx : context) (profileName : string) :
    GW bool :=
  ctx_check ctx;;
  View (fun d =>
    record ← readProfile d profileName;
    let id := sf_get f record in
    Ok (negb (bool_decide (id = "")) && bool_decide (is_Some (b_secrets d !! id)))).

(** [(removed, revision)]; every caller advances the revision. *)
Definition deleteProfileSecret (f : secret_field) (ctx : context) (profileName : string)
    (wall : Z) : GW (bool * Z) :=
  ctx_check ctx;;
  Update (
    d ← getDB;
    record ← lift (readProfile d profileName);
    let id := sf_get f record in
    if bool_decide (id = "") then mret (false, pr_Revision record) else
    delete_secret id;;
    revision ← commit_profile (sf_set f "" record) wall;
    mret (true, revision)).

Definition HasPassword := hasProfileSecret password_field.
Definition DeletePassword := deleteProfileSecret password_field.
Definition HasTrustedDevice := hasProfileSecret device_field.
Definition DeleteTrustedDevice := deleteProfileSecret device_field.
Definition DeleteSession (ctx : context) (profileName : string) (wall : Z) : GW bool :=
  r ← deleteProfileSecret session_field ctx profileName wall; mret r.1.

(** ** Trusted devices and sessions *)

(** The decoded credential, [zero] when the profile has none. *)
Definition read_credential {A} `{Codec A} (zero : A) (f : secret_field) (secretType : string)
    (ctx : context) (profileName : string) : GW A :=
  ctx_check ctx;;
  View (fun d =>
    record ← readProfile d profileName;
    if bool_decide (sf_get f record = "") then Ok zero else
    p ← secret d (sf_get f record) secretType (pr_ID record);
    match Unmarshal p.1 with Some a => Ok a | None => Err ErrDecode end).

Definition GetTrustedDevice := read_credential zero_device device_field secretTrustedDevice.
Definition Session := read_credential zero_session session_field secretSession.

Definition saveTrustedDevice (ctx : context) (profileName : string) (device : TrustedDevice)
    (advanceRevision : bool) (fr : fresh_reads) (wall : Z) : GW Z :=
  ctx_check ctx;;
  check (negb (bool_decide (td_Name device = "") || bool_decide (td_ID device = "")))
    (ErrNew "trusted device name and ID are required");;
  Update (
    d ← getDB;
    record ← lift (readProfile d profileName);
    id ← putSecret record secretTrustedDevice (Marshal device)
           (pr_TrustedDeviceSecretID record) "" fr;
    let record := set_pr_TrustedDeviceSecretID id record in
    if advanceRevision then commit_profile record wall
    else putProfile record;; mret (pr_Revision record)).

Definition SaveTrustedDevice (ctx : context) (profileName : string) (device : TrustedDevice)
    (fr : fresh_reads) (wall : Z) : GW () :=
  saveTrustedDevice ctx profileName device false fr wall;; mret ().
Definition SaveTrustedDeviceRevision (ctx : context) (profileName : string)
    (device : TrustedDevice) (fr : fresh_reads) (wall : Z) : GW Z :=
  saveTrustedDevice ctx profileName device true fr wall.

Definition saveSession (ctx : context) (profileName : string) (session : SessionCredential)
    (advanceRevision : bool) (expectedRevision : Z) (fr : fresh_reads) (wall : Z) : GW () :=
  ctx_check ctx;;
  check (session_usable session)
    (ErrNew "session must carry a session ID or resume key material");;
  Update (
    d ← getDB;
    record ← lift (readProfile d profileName);
    check ((expectedRevision =? 0) || (pr_Revision record =? expectedRevision))
      (ErrRevisionConflict expectedRevision (pr_Revision record));;
    id ← putSecret record secretSession (Marshal session) (pr_SessionSecretID record) "" fr;
    let record := set_pr_SessionSecretID id record in
    if advanceRevision then
      let account := TrimSpace (sc_Account session) in
      let record := if bool_decide (account = "") then record
                    else set_pr_Username account record in
      commit_profile record wall;; mret ()
    else putProfile record).

Definition SaveSession (ctx : context) (profileName : string) (session : SessionCredential)
    (fr : fresh_reads) (wall : Z) : GW () :=
  saveSession ctx profileName session false 0 fr wall.

Definition EnrollSession (ctx : context) (profileName : string)
    (session : SessionCredential) (fr : fresh_reads) (wall : Z) : GW Z :=
  saveSession ctx profileName session true 0 fr wall;;
  profile ← GetProfile ctx profileName;
  mret (pf_Revision profile).

Definition EnrollSessionAtRevision (ctx : context) (profileName : string)
    (expectedRevision : Z) (session : SessionCredential) (fr : fresh_reads) (wall : Z) :
    GW Z :=
  check (negb (expectedRevision =? 0)) (ErrNew "expected profile revision is required");;
  saveSession ctx profileName session true expectedRevision fr wall;;
  profile ← GetProfile ctx profileName;
  mret (pf_Revision profile).

(** The [SessionMeta] method. *)
Definition session_meta (ctx : context) (profileName : string) : GW SessionMeta :=
  session ← Session ctx profileName;
  if negb (session_usable session) then mret zero_meta else
  mret {| sn_Present := true; sn_Account := sc_Account session;
          sn_IssuedAt := sc_IssuedAt session; sn_ExpiresAt := sc_ExpiresAt session;
          sn_LastVerified := sc_LastVerified session; sn_CanResume := CanResume session |}.

(** ** Apply secrets *)

Definition ResolveSecret (ctx : context) (reference : string) : GW string :=
  ctx_check ctx;;
  let reference := TrimSpace reference in
  check (HasPrefix reference "vault:"
         && negb (bool_decide (TrimPrefix reference "vault:" = "")))
    (ErrNew "credential reference must use vault:<id>");;
  View (fun d => p ← secret d (TrimPrefix reference "vault:") secretApply ""; Ok p.1).

Definition StoreApplySecret (ctx : context) (profileName value : string) (fr : fresh_reads) :
    GW SecretMetadata :=
  ctx_check ctx;;
  check (negb (bool_decide (value = ""))) (ErrNew "apply secret cannot be empty");;
  Update (
    d ← getDB;
    record ← lift (readProfile d profileName);
    id ← putSecret record secretApply value "" "" fr;
    d ← getDB;
    match b_secrets d !! id with
    | Some (Json sealed) => mret (ss_Metadata sealed)
    | _ => fail ErrDecode
    end).

Definition DeleteApplySecret (ctx : context) (profileID id : string) : GW bool :=
  ctx_check ctx;;
  Update (
    d ← getDB;
    match b_secrets d !! id with
    | None => mret false
    | Some Garbled => fail ErrDecode
    | Some (Json sealed) =>
        check (bool_decide (sm_ProfileID (ss_Metadata sealed) = profileID)
               && bool_decide (sm_Type (ss_Metadata sealed) = secretApply))
          (ErrNew "vault reference is not an apply secret for this NAS profile");;
        delete_secret id;; mret true
    end).

(** ** Metadata and orphans *)

Definition metadata_le (x y : SecretMetadata) : Prop := String.le (sm_ID x) (sm_ID y).
#[global] Instance metadata_le_dec : RelDecision metadata_le.
Proof. intros x y. unfold metadata_le. apply _. Defined.

Definition SecretMetadataForProfile (ctx : context) (profileID : string) :
    GW (list SecretMetadata) :=
  ctx_check ctx;;
  View (fun d =>
    match ForEach (b_secrets d) with
    | None => Err ErrDecode
    | Some l =>
        Ok (merge_sort metadata_le
          (base.filter (fun m => sm_ProfileID m = profileID) ((fun q => ss_Metadata q.2) <$> l)))
    end).

Definition profile_ids (d : DB) : result error (list string) :=
  match ForEach (b_profiles d) with
  | None => Err ErrDecode
  | Some l => Ok ((fun q => pr_ID q.2) <$> l)
  end.

Definition OrphanedSecrets (ctx : context) : GW (list SecretMetadata) :=
  ctx_check ctx;;
  View (fun d =>
    ids ← profile_ids d;
    match ForEach (b_secrets d) with
    | None => Err ErrDecode
    | Some l =>
        Ok (merge_sort metadata_le
          (base.filter (fun m => sm_ProfileID m ∉ ids) ((fun q => ss_Metadata q.2) <$> l)))
    end).

Definition DeleteOrphanedSecret (ctx : context) (id : string) : GW bool :=
  ctx_check ctx;;
  Update (
    d ← getDB;
    match b_secrets d !! id with
    | None => mret false
    | Some Garbled => fail ErrDecode
    | Some (Json sealed) =>
        ids ← lift (profile_ids d);
        check (negb (bool_decide (sm_ProfileID (ss_Metadata sealed) ∈ ids)))
          (ErrNew "secret is still bound to a configured NAS profile");;
        delete_secret id;; mret true
    end).
End credentials.
