(* ===== verification/Provision.v ===== *)
(** * Connecting with a stored password, and provisioning a new NAS

    Source: internal/runtime/manager.go [ConnectWithStoredPassword],
    internal/credentials/generate.go, internal/application/provision.go
    [ProvisionFirstAdmin] and the vault's sink of internal/gateway/admin/provision.go.

    Both operations talk to a NAS and then store a credential.  The steps of the NAS come
    from arguments: [Provisioner] is the interface of the source, and a sign-in is the reply
    to one login.  Evicting a cached client, and closing or logging out the client of a
    failed connection, are outside the repository and change nothing of it. *)

From S2P Require Import Prelude.
From S2P Require Import GoStrings.
From S2P Require Import Bolt.
From S2P Require Import NetIP.
From S2P Require Import RemotePolicy.
From S2P Require Import DsmErrors.
From S2P Require Import Config.
From S2P Require Import StateTypes.
From S2P Require Import Records.
From S2P Require Import Repository.
From S2P Require Import Vault.

(** ** Generated passwords *)

Definition DefaultGeneratedPasswordLength : Z := 24.
Definition genLower : list Z := bytes "abcdefghijkmnpqrstuvwxyz".
Definition genUpper : list Z := bytes "ABCDEFGHJKLMNPQRSTUVWXYZ".
Definition genDigits : list Z := bytes "23456789".
Definition genSymbols : list Z := bytes "!@#$%^&*()-_=+[]{}".
Definition gen_classes : list (list Z) := [genLower; genUpper; genDigits; genSymbols].
Definition gen_all : list Z := genLower ++ genUpper ++ genDigits ++ genSymbols.

(** [b[i], b[j] = b[j], b[i]] *)
Definition swap (i j : nat) (b : list Z) : list Z :=
  <[i := default 0 (b !! j)]> (<[j := default 0 (b !! i)]> b).

Section generate.
(** The draws of the random source, in order; the state is how many were made. *)
Context (draw : nat → option Z).

(** [rand.Int]: below [max]. *)
Definition rand_Int (max : Z) : ST nat error Z := fun k =>
  (match draw k with Some z => Ok (z mod max) | None => Err (ErrNew "random source") end, S k).

Definition randomChar (alphabet : list Z) : ST nat error Z :=
  n ← rand_Int (Z.of_nat (length alphabet)); mret (default 0 (alphabet !! Z.to_nat n)).

(** One character of each alphabet. *)
Fixpoint randomChars (alphabets : list (list Z)) : ST nat error (list Z) :=
  match alphabets with
  | [] => mret []
  | alphabet :: alphabets =>
      c ← randomChar alphabet; out ← randomChars alphabets; mret (c :: out)
  end.

(** The shuffle from position [i] down. *)
Fixpoint shuffle (i : nat) (b : list Z) : ST nat error (list Z) :=
  match i with
  | O => mret b
  | S i' => j ← rand_Int (Z.of_nat i + 1); shuffle i' (swap i (Z.to_nat j) b)
  end.

Definition GeneratePassword (length' : Z) : ST nat error string :=
  if length' <? 16 then fail (ErrNew "generated password length must be at least 16") else
  out ← randomChars (gen_classes ++ replicate (Z.to_nat length' - 4) gen_all);
  out ← shuffle (length out - 1) out;
  mret (of_bytes out).
End generate.

(** ** What a generated password is *)

Lemma swap_permutation i j b : (i < length b)%nat → (j < length b)%nat → swap i j b ≡ₚ b.
Proof.
  intros Hi Hj. unfold swap.
  destruct (lookup_lt_is_Some_2 b i Hi) as [x Hx]. destruct (lookup_lt_is_Some_2 b j Hj) as [y Hy].
  rewrite Hx, Hy. cbn [default]. destruct (decide (i = j)) as [->|Hne].
  { assert (x = y) as -> by congruence. by rewrite list_insert_insert_eq, list_insert_id. }
  apply Permutation_inj. split; [by rewrite !length_insert|].
  exists (λ k, if decide (k = i) then j else if decide (k = j) then i else k). split.
  - intros k k' He. repeat case_decide; congruence.
  - intros k. repeat case_decide; subst.
    + by rewrite list_lookup_insert_eq by by rewrite length_insert.
    + by rewrite list_lookup_insert_ne, list_lookup_insert_eq by done.
    + by rewrite !list_lookup_insert_ne by done.
Qed.

Lemma shuffle_permutation draw i b k r k' :
  (i < length b)%nat ∨ b = [] ∧ i = 0%nat → shuffle draw i b k = (Ok r, k') → r ≡ₚ b.
Proof.
  revert b k. induction i as [|i IH]; intros b k Hi; cbn [shuffle]; [by intros [= <- _]|].
  destruct Hi as [Hi|[_ ?]]; [|done].
  intros (j & k1 & Hj & Hr)%bind_ok_inv. unfold rand_Int in Hj. destruct (draw k); [|done].
  injection Hj as <- _.
  assert (Z.to_nat (z mod (Z.of_nat (S i) + 1)) < length b)%nat as Hj.
  { pose proof (Z.mod_pos_bound z (Z.of_nat (S i) + 1)). lia. }
  apply IH in Hr; [|left; unfold swap; rewrite !length_insert; lia].
  etransitivity; [exact Hr|]. by apply swap_permutation.
Qed.

Lemma randomChars_drawn draw alphabets k out k' :
  Forall (λ l, l ≠ []) alphabets → randomChars draw alphabets k = (Ok out, k') →
  Forall2 (λ c l, c ∈ l) out alphabets.
Proof.
  intros Hne. revert k out k'. induction Hne as [|l alphabets Hl Hne IH]; intros k out k'; cbn [randomChars].
  { by intros [= <- _]. }
  intros (c & k1 & Hc & (out' & k2 & Ho & Hr)%bind_ok_inv)%bind_ok_inv. injection Hr as <- _.
  constructor; [|by eapply IH]. unfold randomChar in Hc.
  apply bind_ok_inv in Hc as (n & k3 & Hn & Hc). injection Hc as <- _. unfold rand_Int in Hn.
  destruct (draw k); [|done]. injection Hn as <- _. destruct l as [|x l]; [done|].
  pose proof (Z.mod_pos_bound z (Z.of_nat (length (x :: l)))) as Hb. cbn [length] in *.
  destruct (lookup_lt_is_Some_2 (x :: l) (Z.to_nat (z mod Z.of_nat (S (length l))))) as [y Hy];
    [cbn; lia|]. rewrite Hy. by eapply list_elem_of_lookup_2.
Qed.

Lemma alphabet_all n l c : l ∈ gen_classes ++ replicate n gen_all → c ∈ l → c ∈ gen_all.
Proof.
  intros [Hl|[-> _]%elem_of_replicate]%elem_of_app; [|done]. unfold gen_classes in Hl. unfold gen_all.
  rewrite !elem_of_app. repeat (apply elem_of_cons in Hl as [->|Hl]; [tauto|]).
  by apply elem_of_nil in Hl.
Qed.

(** A generated password has the length asked for, a character of each class, and no
    character outside the alphabet. *)
Lemma GeneratePassword_strong draw n k p k' :
  GeneratePassword draw n k = (Ok p, k') →
  16 ≤ n ∧ slen p = n ∧ Forall (λ l, Exists (λ c, c ∈ l) (bytes p)) gen_classes ∧
  Forall (λ c, c ∈ gen_all) (bytes p).
Proof.
  unfold GeneratePassword. destruct (n <? 16) eqn:En; [done|].
  intros (out & k1 & Ho & (out' & k2 & Hs & Hr)%bind_ok_inv)%bind_ok_inv. injection Hr as <- _.
  apply randomChars_drawn in Ho.
  2:{ repeat constructor; try done. apply Forall_replicate. done. }
  assert (length out = Z.to_nat n) as Hlen.
  { rewrite (Forall2_length _ _ _ Ho), length_app, length_replicate. cbn. lia. }
  apply shuffle_permutation in Hs; [|left; lia].
  assert (Forall (λ c, c ∈ gen_all) out) as Hall.
  { apply Forall_forall. intros c Hc. apply list_elem_of_lookup in Hc as [i Hc].
    destruct (Forall2_lookup_l _ _ _ _ _ Ho Hc) as (l & Hl & Hin).
    apply (alphabet_all (Z.to_nat n - 4) l); [by eapply list_elem_of_lookup_2|done]. }
  assert (∀ c, c ∈ gen_all → is_byte c) as Hbyte.
  { apply Forall_forall. unfold gen_all, genLower, genUpper, genDigits, genSymbols.
    repeat apply Forall_app_2; apply bytes_is_byte. }
  assert (bytes (of_bytes out') = out') as Hb.
  { apply bytes_of_bytes. rewrite Hs. by eapply Forall_impl. }
  unfold slen. rewrite Hb. split; [lia|]. split.
  { rewrite <- (length_bytes (of_bytes out')), Hb, Hs. lia. }
  split; [|by rewrite Hs]. apply Forall_forall. intros l Hl.
  apply list_elem_of_lookup in Hl as [i Hl].
  assert ((gen_classes ++ replicate (Z.to_nat n - 4) gen_all) !! i = Some l) as Hl'
    by by apply lookup_app_l_Some.
  destruct (Forall2_lookup_r _ _ _ _ _ Ho Hl') as (c & Hc & Hin).
  apply Exists_exists. exists c. split; [|done]. rewrite Hs. by eapply list_elem_of_lookup_2.
Qed.

(** The text of an error, and the error whose text follows it. *)
Record wrapped := { wp_text : string; wp_cause : option error }.
Definition plain (text : string) : wrapped := {| wp_text := text; wp_cause := None |}.

(** ** Provisioning *)

(** The client of a target follows the TLS policy of the profile. *)
Record Target := { tg_BaseURL : string; tg_HTTPClient : NASProfile }.
Record AdminRequest := {
  aq_Username : string; aq_Password : string; aq_DeviceName : string; aq_ShareLocation : bool
}.
Record SetupOptions := { so_AutoUpdate : string; so_Analytics : bool }.

(** The steps of the setup window: the text of an error, or success. *)
Record Provisioner := {
  EstablishSetupSession : Target → option string;
  CreateFirstAdmin : Target → AdminRequest → option string;
  DisableBuiltinAdmin : Target → string → option string;
  Login : Target → string → string → option string;
  CompleteSetup : Target → SetupOptions → option string;
  Harden : Target → AdminRequest → option string
}.

Record ProvisionRequest := {
  vq_Name : string; vq_URL : string; vq_AdminUser : string; vq_DeviceName : string;
  vq_AutoUpdate : string; vq_Analytics : bool; vq_PasswordLength : Z
}.
Record ProvisionResult := {
  pt_NAS : string; pt_AdminUser : string; pt_URL : string; pt_AdministratorCreated : bool;
  pt_PasswordStored : bool; pt_WizardFinished : bool; pt_BuiltinAdminDisabled : bool;
  pt_Hardened : bool; pt_Warnings : list string
}.

(** A step of the repository, its error wrapped. *)
Definition wrapping {A E} (wrap : error → E) (m : GW A) : ST gworld E A := fun w =>
  match m w with
  | (Ok a, w) => (Ok a, w)
  | (Err e, w) => (Err (wrap e), w)
  end.

Section provision.
Context `{AEAD, Unicode, Codec TrustedDevice, Codec SessionCredential}.
(** The readings of the vault's sink. *)
Context (fr1 fr2 : fresh_reads) (wall : Z).

(** The sink of the vault: under the lock of the profiles, so in one step. *)
Definition PersistProvisioned (ctx : context) (name username password : string) : GW () :=
  profile ← GetProfile ctx name;
  EnrollPasswordForAccount ctx name (pf_Revision profile) username password zero_device
    fr1 fr2 wall;;
  mret ().

(** A best-effort step: its warning when it fails. *)
Definition warning (text : string) (e : option string) : list string :=
  match e with Some e => [text +:+ e] | None => [] end.

Definition ProvisionFirstAdmin (p : Provisioner) (draw : nat → option Z) (ctx : context)
    (target : Target) (req : ProvisionRequest) : ST gworld wrapped ProvisionResult :=
  let as_is e := {| wp_text := ""; wp_cause := Some e |} in
  wrapping as_is (lift (ValidateName (vq_Name req)));;
  let AdminUser := TrimSpace (vq_AdminUser req) in
  if bool_decide (AdminUser = "")
  then fail (plain "provision requires an administrator username") else
  if negb (HasPrefix (ToLower (TrimSpace (tg_BaseURL target))) "https://")
  then fail (plain ("provision requires an https target so the administrator password is not sent in cleartext, got "
                    +:+ Quote (tg_BaseURL target))) else
  let length' := if vq_PasswordLength req =? 0 then DefaultGeneratedPasswordLength
                 else vq_PasswordLength req in
  match EstablishSetupSession p target with
  | Some e => fail (plain ("could not start the DSM setup session; is the NAS in its first-run setup window? " +:+ e))
  | None =>
  match GeneratePassword draw length' 0%nat with
  | (Err e, _) => fail (as_is e)
  | (Ok password, k) =>
  match GeneratePassword draw length' k with
  | (Err e, _) => fail (as_is e)
  | (Ok scramble, _) =>
  let adminReq := {| aq_Username := AdminUser; aq_Password := password;
                     aq_DeviceName := vq_DeviceName req; aq_ShareLocation := vq_Analytics req |} in
  match CreateFirstAdmin p target adminReq with
  | Some e => fail (plain ("no administrator was created (you can retry): " +:+ e))
  | None =>
  let disabled := DisableBuiltinAdmin p target scramble in
  match Login p target AdminUser password with
  | Some e => fail (plain ("administrator " +:+ Quote AdminUser
                    +:+ " was created but the verification login failed: " +:+ e))
  | None =>
  wrapping (fun e => {| wp_text := "administrator created, but persisting its credential failed; rotate it: ";
                        wp_cause := Some e |})
    (PersistProvisioned ctx (vq_Name req) AdminUser password);;
  let finished := CompleteSetup p target {| so_AutoUpdate := vq_AutoUpdate req;
                                            so_Analytics := vq_Analytics req |} in
  let hardened := Harden p target adminReq in
  mret {| pt_NAS := vq_Name req; pt_AdminUser := AdminUser; pt_URL := tg_BaseURL target;
          pt_AdministratorCreated := true; pt_PasswordStored := true;
          pt_WizardFinished := bool_decide (finished = None);
          pt_BuiltinAdminDisabled := bool_decide (disabled = None);
          pt_Hardened := bool_decide (hardened = None);
          pt_Warnings :=
            warning "built-in admin not disabled (DSM may keep showing the welcome wizard): " disabled
            ++ warning "setup wizard not fully finished: " finished
            ++ warning "post-setup hardening incomplete: " hardened |}
  end end end end end.
End provision.

(** ** Connecting with the stored password *)

(** What signing in to DSM established. *)
Record dsm_login := { dl_DeviceID : string; dl_SID : string; dl_SynoToken : string }.

(** The credentials a sign-in established, at time [now]; [device] is kept in the session of
    the primary account. *)
Definition established (account device : string) (now : Z) (l : dsm_login) : SessionCredential := {|
  sc_SID := dl_SID l; sc_SynoToken := dl_SynoToken l; sc_ServerPublicKey := "";
  sc_LocalPublicKey := ""; sc_LocalPrivateKey := ""; sc_DeviceID := device;
  sc_Account := account; sc_IssuedAt := now; sc_ExpiresAt := zeroTime; sc_LastVerified := now |}.

Section connect.
Context `{AEAD, Unicode, NetURL, TimeText, KeyN, Codec TrustedDevice, Codec SessionCredential}.
(** The environment, and the manager's name of this device. *)
Context (environment : string → option string) (deviceName : string).
(** [NewClient] and the reply of DSM to the login of [Authenticate]. *)
Context (sign_in : NASProfile → string → TrustedDevice → result dsm_error dsm_login).

Definition refusing {A} (text : string) : GW A → ST gworld dsm_error A :=
  wrapping (fun _ => EMsg text).

(** [acceptLoginLocked], as the client of the connection is set up: the device is stored,
    and the session is kept for the caller. *)
Definition accept_login (ctx : context) (name : string) (device : TrustedDevice) (l : dsm_login)
    (fr : fresh_reads) (wall : Z) : ST gworld dsm_error () :=
  if bool_decide (dl_SID l = "")
  then fail (EWrap "log in to DSM" (EMsg "DSM login response did not contain a session ID")) else
  if bool_decide (dl_DeviceID l = "") then mret () else
  refusing "save DSM trusted device" (SaveTrustedDevice ctx name
    {| td_Name := td_Name device; td_ID := dl_DeviceID l |} fr wall).

Definition ConnectWithStoredPassword (ctx : context) (requested : string)
    (fr1 fr2 : fresh_reads) (wall1 wall2 now : Z) : ST gworld dsm_error (string * string) :=
  cfg ← refusing "snapshot" (Snapshot ctx);
  '(name, profile) ← refusing "resolve" (lift (Resolve (Some cfg) requested));
  password ← refusing "resolve the stored password" (Password environment ctx name profile);
  device ← refusing "read trusted device" (GetTrustedDevice ctx name);
  let device := if bool_decide (td_Name device = "")
                then {| td_Name := deviceName; td_ID := td_ID device |} else device in
  l ← lift (match sign_in profile password device with
            | Ok l => Ok l
            | Err e => Err (EWrap "authenticate with the stored password" e)
            end);
  accept_login ctx name device l fr1 wall1;;
  refusing "store the password session"
    (SaveSession ctx name (established (np_Username profile) "" now l) fr2 wall2);;
  mret (name, np_Username profile).
End connect.
