(* ===== verification/Admin.v ===== *)
(** * The local administrator and browser sessions

    Source: internal/gateway/state/admin.go, the operations on the database.  A session is
    stored under the digest of its token.  Verifying a password takes long and happens
    between two transactions: [other] is what concurrent requests do to the world in
    between.  [slot] is the outcome of waiting for a hashing slot; [nows k] is the clock
    reading made for the session stored under [k]. *)

From S2P Require Import Prelude.
From S2P Require Import GoStrings.
From S2P Require Import Bolt.
From S2P Require Import NetIP.
From S2P Require Import RemotePolicy.
From S2P Require Import Password.
From S2P Require Import Config.
From S2P Require Import StateTypes.
From S2P Require Import Records.
From S2P Require Import Policy.
From S2P Require Import Repository.

Record AdministratorStatus := {
  as_Initialized : bool;
  as_Username : string;
  as_InitializedAt : Z
}.

Record AdministratorSession := {
  an_ID : string;
  an_Username : string;
  an_Provider : string;
  an_CreatedAt : Z;
  an_ExpiresAt : Z
}.

Definition zero_status : AdministratorStatus :=
  {| as_Initialized := false; as_Username := ""; as_InitializedAt := zeroTime |}.

Definition publicAdministratorSession (r : administratorSessionRecord) :
    AdministratorSession := {|
  an_ID := se_ID r; an_Username := se_Username r;
  an_Provider := normalizedAdministratorProvider (se_Provider r);
  an_CreatedAt := se_CreatedAt r; an_ExpiresAt := se_ExpiresAt r |}.

(** ** Sessions *)

Definition put_session (digest : string) (s : administratorSessionRecord) : GW () :=
  modifyDB (fun d => set_b_admin_sessions (<[digest := Json s]> (b_admin_sessions d)) d).
Definition delete_session (digest : string) : GW () :=
  modifyDB (fun d => set_b_admin_sessions (delete digest (b_admin_sessions d)) d).

Definition session_record (rid username provider : string) (now : Z) :
    administratorSessionRecord := {|
  se_ID := rid; se_Username := username; se_Provider := provider; se_CreatedAt := now;
  se_ExpiresAt := now + AdminSessionTTL |}.

(** Live sessions in key order, with their creation times. *)
Definition session_live (nows : string → Z) (p : string * stored administratorSessionRecord) :
    option (string * Z) :=
  r ← unmarshal p.2;
  if nows p.1 <? se_ExpiresAt r then Some (p.1, se_CreatedAt r) else None.

Definition older_session (acc : option (string * Z)) (p : string * Z) : option (string * Z) :=
  match acc with
  | None => Some p
  | Some q => if p.2 <? q.2 then Some p else Some q
  end.

(** Evict the oldest live session until fewer than the maximum are left; each round
    removes one, so as many rounds as sessions are enough. *)
Fixpoint evict_sessions (fuel : nat) (active : list (string * Z)) : list string :=
  match fuel with
  | O => []
  | S fuel =>
      if Z.of_nat (length active) <? MaxAdminSessions then [] else
      match fold_left older_session active None with
      | None => []
      | Some oldest =>
          oldest.1 :: evict_sessions fuel (base.filter (fun q => q.1 ≠ oldest.1) active)
      end
  end.

Definition putBoundedAdministratorSession (nows : string → Z) (digest : string)
    (s : administratorSessionRecord) : GW () :=
  d ← getDB;
  let l := entries (b_admin_sessions d) in
  let active := omap (session_live nows) l in
  let expired := (base.filter (fun p => session_live nows p = None) l).*1 in
  let evicted := evict_sessions (length active) active in
  modifyDB (fun d => set_b_admin_sessions
    (delete_keys (expired ++ evicted) (b_admin_sessions d)) d);;
  put_session digest s.

Definition deleteOtherAdministratorSessions (keep : string) : GW () :=
  modifyDB (fun d => set_b_admin_sessions
    (base.filter (fun p => p.1 = keep) (b_admin_sessions d)) d).

Section admin.
Context `{Unicode, Sha256, Argon2, TimeText}.

(** ** Setup *)

(** The [AdministratorStatus] method. *)
Definition GetAdministratorStatus (ctx : context) : GW AdministratorStatus :=
  ctx_check ctx;;
  View (fun d =>
    if negb (administratorConfigured d) then Ok zero_status else
    validateAdministratorRecord d ≫= λ _,
    let value := meta_get d keyAdminInitializedAt in
    initializedAt ← (if bool_decide (value = "") then Ok zeroTime else
                     match ParseTime value with Some t => Ok t | None => Err ErrDecode end);
    Ok {| as_Initialized := true; as_Username := meta_get d keyAdminUsername;
          as_InitializedAt := initializedAt |}).

(** First writer wins. *)
Definition put_administrator (username verifier : string) (initializedAt : Z) : GW () :=
  d ← getDB;
  check (negb (administratorConfigured d)) ErrAlreadyInitialized;;
  put_meta keyAdminUsername username;;
  put_meta keyAdminPassword verifier;;
  put_meta keyAdminInitializedAt (FormatTime initializedAt).

Definition CreateAdministrator (parameters : PasswordHashParameters) (ctx : context)
    (username password : string) (salt : list Z) (slot : option error)
    (rtok rid : string) (now : Z) : GW (string * AdministratorSession) :=
  ctx_check ctx;;
  username ← lift (normalizeAdministratorUsername username);
  lift (validateNewAdministratorPassword password);;
  verifier ← lift (hashPasswordWithSalt slot password salt parameters);
  let session := session_record rid username AdminProviderLocal now in
  Update (put_administrator username verifier (se_CreatedAt session);;
          put_session (sha256 rtok) session);;
  mret (rtok, publicAdministratorSession session).

Definition ConfigureAdministrator (parameters : PasswordHashParameters) (ctx : context)
    (username password : string) (salt : list Z) (slot : option error) (now : Z) :
    GW AdministratorStatus :=
  ctx_check ctx;;
  username ← lift (normalizeAdministratorUsername username);
  lift (validateNewAdministratorPassword password);;
  verifier ← lift (hashPasswordWithSalt slot password salt parameters);
  Update (put_administrator username verifier now);;
  mret {| as_Initialized := true; as_Username := username; as_InitializedAt := now |}.

(** ** Logging in *)

(** The comparison of the supplied credentials with the stored ones; a dummy verifier
    is checked when they cannot match. *)
Definition credentials_valid (parameters : PasswordHashParameters) (slot : option error)
    (username password storedUsername verifier : string) : bool :=
  let normalized := normalizeAdministratorUsername username in
  let mismatch := match normalized with
                  | Err _ => true
                  | Ok u => negb (is_Ok (validateLoginPassword password))
                            || negb (bool_decide (u = storedUsername))
                  end in
  let target := if mismatch || bool_decide (verifier = "")
                then dummyPasswordVerifier parameters else verifier in
  let valid := verifyPassword slot password target in
  negb (mismatch || bool_decide (verifier = "") || negb valid).

(** Username and verifier are still the ones the password was checked against. *)
Definition credentials_current (storedUsername verifier : string) (d : DB) : bool :=
  bool_decide (meta_get d keyAdminUsername = storedUsername)
  && bool_decide (meta_get d keyAdminPassword = verifier).

Definition interfere (other : gworld → gworld) : GW () := fun w => (Ok (), other w).

Definition LoginAdministrator (parameters : PasswordHashParameters) (ctx : context)
    (username password : string) (slot : option error) (other : gworld → gworld)
    (rtok rid : string) (now : Z) (nows : string → Z) :
    GW (string * AdministratorSession) :=
  ctx_check ctx;;
  d ← getDB;
  let storedUsername := meta_get d keyAdminUsername in
  let verifier := meta_get d keyAdminPassword in
  check (credentials_valid parameters slot username password storedUsername verifier)
    ErrUnauthorized;;
  interfere other;;
  let session := session_record rid storedUsername AdminProviderLocal now in
  Update (
    d ← getDB;
    check (credentials_current storedUsername verifier d) ErrUnauthorized;;
    putBoundedAdministratorSession nows (sha256 rtok) session);;
  mret (rtok, publicAdministratorSession session).

Definition VerifyAdministratorCredentials (parameters : PasswordHashParameters)
    (ctx : context) (username password : string) (slot : option error)
    (other : gworld → gworld) : GW string :=
  ctx_check ctx;;
  d ← getDB;
  let storedUsername := meta_get d keyAdminUsername in
  let verifier := meta_get d keyAdminPassword in
  check (credentials_valid parameters slot username password storedUsername verifier)
    ErrUnauthorized;;
  interfere other;;
  View (fun d => if credentials_current storedUsername verifier d
                 then Ok storedUsername else Err ErrUnauthorized).

Definition CreateDSMAdministratorSession (ctx : context) (subject rtok rid : string)
    (now : Z) (nows : string → Z) : GW (string * AdministratorSession) :=
  ctx_check ctx;;
  lift (validateExternalAdministratorSubject subject);;
  let session := session_record rid (TrimSpace subject) AdminProviderDSM now in
  Update (putBoundedAdministratorSession nows (sha256 rtok) session);;
  mret (rtok, publicAdministratorSession session).

(** ** Using a session *)

Definition session_authentic (d : DB) (r : administratorSessionRecord) (now : Z) : bool :=
  (now <? se_ExpiresAt r) &&
  (let provider := normalizedAdministratorProvider (se_Provider r) in
   if bool_decide (provider = AdminProviderLocal) then
     is_Ok (validateAdministratorRecord d)
     && bool_decide (se_Username r = meta_get d keyAdminUsername)
   else if bool_decide (provider = AdminProviderDSM) then
     is_Ok (validateExternalAdministratorSubject (se_Username r))
   else false).

(** A refused token's session is deleted in a second transaction. *)
Definition AuthenticateAdministratorSession (ctx : context) (token : string) (now : Z) :
    GW AdministratorSession :=
  ctx_check ctx;;
  d ← getDB;
  match b_admin_sessions d !! sha256 token with
  | Some (Json record) =>
      if session_authentic d record now then mret (publicAdministratorSession record)
      else Update (delete_session (sha256 token));; fail ErrUnauthorized
  | _ => Update (delete_session (sha256 token));; fail ErrUnauthorized
  end.

Definition LogoutAdministrator (ctx : context) (token : string) : GW () :=
  ctx_check ctx;; Update (delete_session (sha256 token)).

Definition RevokeOtherAdministratorSessions (ctx : context) (sessionToken : string)
    (now : Z) : GW () :=
  AuthenticateAdministratorSession ctx sessionToken now;;
  Update (deleteOtherAdministratorSessions (sha256 sessionToken)).

(** [other] runs between reading the old verifier and the final transaction. *)
Definition ChangeAdministratorPassword (parameters : PasswordHashParameters)
    (ctx : context) (sessionToken currentPassword newPassword : string) (now1 : Z)
    (slot1 : option error) (salt : list Z) (slot2 : option error)
    (other : gworld → gworld) (now2 : Z) : GW () :=
  lift (validateNewAdministratorPassword newPassword);;
  session ← AuthenticateAdministratorSession ctx sessionToken now1;
  d ← getDB;
  let oldVerifier := meta_get d keyAdminPassword in
  check (is_Ok (validateLoginPassword currentPassword)
         && verifyPassword slot1 currentPassword oldVerifier) ErrUnauthorized;;
  newVerifier ← lift (hashPasswordWithSalt slot2 newPassword salt parameters);
  interfere other;;
  Update (
    d ← getDB;
    check (bool_decide (meta_get d keyAdminPassword = oldVerifier)) ErrUnauthorized;;
    match b_admin_sessions d !! sha256 sessionToken with
    | Some (Json current) =>
        check (bool_decide (se_ID current = an_ID session) && (now2 <? se_ExpiresAt current))
          ErrUnauthorized;;
        put_meta keyAdminPassword newVerifier;;
        deleteOtherAdministratorSessions (sha256 sessionToken)
    | _ => fail ErrUnauthorized
    end).
End admin.
