(* ===== verification/OAuthHandler.v ===== *)
(** * The embedded OAuth authorization server

    Source: internal/gateway/oauth/handler.go.  A handler method is a function of the
    request and of the [readings] of clocks and randomness it makes, in a monad over the
    repository, the pending authorization codes, the attempt windows and the memory of the
    platform verifier.  Writing a response and returning is the failure of the monad, so
    that a method reads as the Go code does.

    What a page shows is the data its template gets.  A redirect is its target with the
    query parameters that are set on it. *)

From S2P Require Import Prelude.
From S2P Require Import GoStrings.
From S2P Require Import Bolt.
From S2P Require Import NetIP.
From S2P Require Import RemotePolicy.
From S2P Require Import Password.
From S2P Require Import Json.
From S2P Require Import StateTypes.
From S2P Require Import Records.
From S2P Require Import Policy.
From S2P Require Import Http.
From S2P Require Import PlatformAuth.
From S2P Require Import OAuth.
From S2P Require Import Repository.
From S2P Require Import Admin.

Definition authorizationTTL : Z := 5 * Minute.
Definition maxPendingCodes : Z := 256.
Definition defaultScopeString : string := "nas.read nas.plan nas.apply lan.discover".
Definition administratorCookie : string := "dsmctl_admin_session".
Definition oauthCodePrefix : string := "dsmctl_oauth_code_".
Definition supportedScopes : list string := [ScopeRead; ScopePlan; ScopeApply; ScopeLANDiscover].

(** ** Data *)

Record authorizationGrant := {
  ag_ClientID : string;
  ag_ClientName : string;
  ag_RedirectURI : string;
  ag_Resource : string;
  ag_Scopes : list string;
  ag_NASAllowlist : list string;
  ag_Challenge : string;
  ag_Administrator : string;
  ag_ExpiresAt : Z
}.

Record attemptWindow := { aw_Started : Z; aw_Count : Z }.

Record authorizationRequest := {
  ar_ResponseType : string;
  ar_ClientID : string;
  ar_RedirectURI : string;
  ar_State : string;
  ar_Scope : string;
  ar_Resource : string;
  ar_CodeChallenge : string;
  ar_CodeChallengeMethod : string;
  ar_Client : OAuthClient;
  ar_Scopes : list string;
  ar_NASAllowlist : list string
}.

Record handler := {
  h_publicURL : string;
  h_platformVerifier : option Verifier;
  h_passwordHash : PasswordHashParameters  (** of the repository *)
}.

Abbreviation codes := (gmap string authorizationGrant).
Abbreviation limits := (gmap string attemptWindow).

Record hstate := {
  hs_repository : gworld;
  hs_codes : codes;
  hs_limits : limits;
  hs_seen : seen
}.

(** The readings of one request; [rd_audit n] is for the n-th audit event. *)
Record readings := {
  rd_audit : nat → option error * Z * string;
  rd_now : Z;                       (** [h.now] when a code is stored or consumed *)
  rd_attempt : Z;                   (** [h.now] of the attempt limiter *)
  rd_code : option string;          (** thirty-two random bytes *)
  rd_nonce : option string;
  rd_session : Z;
  rd_page_session : Z;
  rd_platform : Z;
  rd_slot : option error;           (** waiting for a hashing slot *)
  rd_others : gworld → gworld;      (** other requests, while a password is hashed *)
  rd_client : string * Z;
  rd_issue : Z * string * string * string;
  rd_refresh : string * string * Z
}.

Inductive message := Text (s : string) | ErrorText (e : error).

Inductive response :=
| OAuthError (status : Z) (code : string) (description : message)
| MethodNotAllowed (methods : list string)
| JSONBody (status : Z) (body : object)
| TokenSet (s : OAuthTokenSet) (scopes : list string) (resource : string)
| ConsentPage (a : authorizationRequest) (msg : string) (dsm local : bool)
    (session : option AdministratorSession)
| ErrorPage (status : Z) (msg : message)
| RedirectTo (uri : string) (params : list (string * string))
| HTTPNotFound
| Favicon.

(** ** The monad *)

Abbreviation H A := (ST hstate response A).

Definition set_repository (w : gworld) (s : hstate) : hstate := {|
  hs_repository := w; hs_codes := hs_codes s; hs_limits := hs_limits s; hs_seen := hs_seen s |}.
Definition set_codes (c : codes) (s : hstate) : hstate := {|
  hs_repository := hs_repository s; hs_codes := c; hs_limits := hs_limits s;
  hs_seen := hs_seen s |}.
Definition set_limits (l : limits) (s : hstate) : hstate := {|
  hs_repository := hs_repository s; hs_codes := hs_codes s; hs_limits := l;
  hs_seen := hs_seen s |}.
Definition set_seen (m : seen) (s : hstate) : hstate := {|
  hs_repository := hs_repository s; hs_codes := hs_codes s; hs_limits := hs_limits s;
  hs_seen := m |}.

(** An operation of the repository, with its error as a value. *)
Definition on_repository {A} (m : GW A) : H (result error A) := fun s =>
  let '(r, w) := m (hs_repository s) in (Ok r, set_repository w s).

(** ** Codes and attempts, under [mu] *)

Definition cleanupCodesLocked (now : Z) (c : codes) : codes :=
  base.filter (fun p => now < ag_ExpiresAt p.2) c.

Definition allow (key : string) (limit duration now : Z) (l : limits) : bool * limits :=
  let window := default {| aw_Started := zeroTime; aw_Count := 0 |} (l !! key) in
  let window := if IsZero (aw_Started window) || (aw_Started window + duration <=? now)
                then {| aw_Started := now; aw_Count := 0 |} else window in
  if limit <=? aw_Count window then (false, <[key := window]> l) else
  let l := <[key := {| aw_Started := aw_Started window; aw_Count := aw_Count window + 1 |}]> l in
  (true,
   if 2048 <? Z.of_nat (size l) then base.filter (fun p => now < aw_Started p.2 + duration) l
   else l).

Definition allowAttempt (rd : readings) (key : string) (limit duration : Z) : H bool := fun s =>
  let '(b, l) := allow key limit duration (rd_attempt rd) (hs_limits s) in (Ok b, set_limits l s).
Definition resetAttempt (key : string) : H () :=
  modifyS (fun s => set_limits (delete key (hs_limits s)) s).

(** ** Texts *)

Section texts.
Context `{Unicode, NetURL, Sha256}.

Definition externalBase (h : handler) (req : http_request) : string :=
  let origin :=
    if negb (bool_decide (h_publicURL h = "")) then h_publicURL h else
    let scheme := if rq_TLS req then "https" else "http" in
    let forwarded := TrimSpace (rq_Header req "X-Forwarded-Proto") in
    let scheme := if bool_decide (forwarded = "http") || bool_decide (forwarded = "https")
                  then forwarded else scheme in
    let forwarded := TrimSpace (rq_Header req "X-Forwarded-Host") in
    let host := if negb (bool_decide (forwarded = ""))
                   && negb (ContainsAny forwarded [13; 10; 47; 92])
                then forwarded else rq_Host req in
    scheme +:+ "://" +:+ host in
  let prefix := TrimRight1 (TrimSpace (rq_Header req "X-Forwarded-Prefix")) 47 in
  let prefix := if bool_decide (prefix = "") || negb (HasPrefix prefix "/")
                   || ContainsAny prefix [13; 10; 92; 63]
                then "" else prefix in
  origin +:+ prefix.

Definition issuer (h : handler) (req : http_request) : string := externalBase h req +:+ "/oauth".
Definition resource (h : handler) (req : http_request) : string := externalBase h req +:+ "/mcp".
Definition ResourceMetadataURL (h : handler) (req : http_request) : string :=
  externalBase h req +:+ "/.well-known/oauth-protected-resource".

Definition sameOriginAuthorization (h : handler) (req : http_request) : bool :=
  let origin := TrimRight1 (TrimSpace (rq_Header req "Origin")) 47 in
  match url_Parse (externalBase h req) with
  | None => false
  | Some parsed =>
      negb (bool_decide (u_Scheme parsed = "")) && negb (bool_decide (u_Host parsed = ""))
      && bool_decide (origin = u_Scheme parsed +:+ "://" +:+ u_Host parsed)
  end.

(** The loop over the requested scopes: the first unsupported one is the error. *)
Fixpoint scopes_loop (l seen : list string) : result string (list string) :=
  match l with
  | [] => Ok []
  | scope :: l =>
      if negb (bool_decide (scope ∈ supportedScopes)) 
      then Err ("Unsupported scope " +:+ Quote scope +:+ ".") else
      if bool_decide (scope ∈ seen) then scopes_loop l seen
      else cons scope <$> scopes_loop l (scope :: seen)
  end.
Definition normalizeScopes (raw : string) : result string (list string) :=
  let raw := if bool_decide (TrimSpace raw = "") then defaultScopeString else raw in
  result ← scopes_loop (Fields raw) [];
  if bool_decide (result = []) then Err "At least one scope is required."
  else Ok (sort_strings result).

Definition includesNASScope (scopes : list string) : bool :=
  existsb (fun s => HasPrefix s "nas.") scopes.

Definition sameCanonicalResource (left right : string) : bool :=
  match url_Parse (TrimSpace left), url_Parse (TrimSpace right) with
  | Some a, Some b =>
      negb (bool_decide (u_Host a = "") || bool_decide (u_Host b = ""))
      && EqualFold (u_Scheme a) (u_Scheme b) && EqualFold (u_Host a) (u_Host b)
      && bool_decide (u_EscapedPath a = u_EscapedPath b)
      && bool_decide (u_RawQuery a = "") && bool_decide (u_RawQuery b = "")
      && bool_decide (u_Fragment a = "") && bool_decide (u_Fragment b = "")
  | _, _ => false
  end.

Definition pkce_rune (r : Z) : bool :=
  in_range 97 122 r || in_range 65 90 r || in_range 48 57 r || bool_decide (r ∈ [45; 46; 95; 126]).
Definition validPKCEValue (value : string) : bool :=
  negb ((slen value <? 43) || (128 <? slen value)) && forallb pkce_rune (string_runes value).

Definition verifyPKCE (verifier expectedChallenge : string) : bool :=
  validPKCEValue verifier && bool_decide (RawURLEncode (sha256 verifier) = expectedChallenge).

(** [string] of a valid rune. *)
Definition rune_bytes (r : Z) : list Z :=
  if r <? 128 then [r]
  else if r <? 2048 then [192 + r / 64; 128 + r mod 64]
  else if r <? 65536 then [224 + r / 4096; 128 + r / 64 mod 64; 128 + r mod 64]
  else [240 + r / 262144; 128 + r / 4096 mod 64; 128 + r / 64 mod 64; 128 + r mod 64].
Definition text_of (rs : list Z) : string := of_bytes (concat (rune_bytes <$> rs)).

(** Drop last runes, here first ones of the reversed text, until the rest is short enough. *)
Fixpoint shorten (rs : list Z) : string :=
  match rs with
  | [] => ""
  | _ :: rs =>
      if slen (text_of (reverse rs)) <=? MaxMCPTokenNameBytes then text_of (reverse rs)
      else shorten rs
  end.
Definition oauthTokenName (clientName : string) : string :=
  let name := "OAuth: " +:+ TrimSpace clientName in
  if slen name <=? MaxMCPTokenNameBytes then name else shorten (reverse (string_runes name)).

Definition remoteKey (req : http_request) (suffix : string) : string :=
  let host := default (rq_RemoteAddr req) (SplitHostPort (rq_RemoteAddr req)) in
  TrimSpace host +:+ chr 0 +:+ ToLower (TrimSpace suffix).

Definition correlationID (req : http_request) : string :=
  let value := TrimSpace (rq_Header req "X-Request-ID") in
  let value := if bool_decide (value = "")
               then TrimSpace (rq_Header req "X-DSMCTL-Correlation-ID") else value in
  if 128 <? slen value then of_bytes (take 128 (bytes value)) else value.
End texts.

(** [New]: the public URL is an origin. *)
Definition NewHandler `{NetURL} (public : string) (platform : option Verifier)
    (parameters : PasswordHashParameters) : result error handler :=
  let publicURL := TrimRight1 (TrimSpace public) 47 in
  let make u := Ok {| h_publicURL := u; h_platformVerifier := platform;
                      h_passwordHash := parameters |} in
  if bool_decide (publicURL = "") then make "" else
  let refused := Err (ErrNew "OAuth public URL must be an absolute http or https origin") in
  match url_Parse publicURL with
  | None => refused
  | Some parsed =>
      if bool_decide (u_Host parsed = "")
         || negb (bool_decide (u_Scheme parsed = "http"))
            && negb (bool_decide (u_Scheme parsed = "https"))
         || u_User parsed || negb (bool_decide (u_RawQuery parsed = ""))
         || negb (bool_decide (u_Fragment parsed = ""))
         || negb (bool_decide (u_Path parsed = "")) && negb (bool_decide (u_Path parsed = "/"))
      then refused else make (u_Scheme parsed +:+ "://" +:+ u_Host parsed)
  end.

(** ** The methods *)

Section handler.
Context `{Unicode, NetURL, Sha256, Argon2, TimeText, KeyN, MIME, HMAC, PayloadText}.
Context (h : handler).

(** [AppendAudit], its error as a value. *)
Definition audit (rd : readings) (n : nat) (req : http_request)
    (actorType actorID action outcome reason : string) : H (result error ()) :=
  let '(auditFailure, wall, rid) := rd_audit rd n in
  on_repository (AppendAudit (rq_Context req) auditFailure wall rid {|
    ev_ID := ""; ev_Time := zeroTime; ev_CorrelationID := correlationID req;
    ev_ActorType := actorType; ev_ActorID := actorID; ev_Action := action; ev_Tool := "";
    ev_NAS := ""; ev_Outcome := outcome; ev_Reason := reason |}).

Definition protectedResourceMetadata (req : http_request) : H response :=
  if negb (bool_decide (rq_Method req = "GET")) && negb (bool_decide (rq_Method req = "HEAD"))
  then fail (MethodNotAllowed ["GET"; "HEAD"]) else
  mret (JSONBody 200 [
    ("resource", JString (resource h req)); ("resource_name", JString "dsmctl MCP Server");
    ("authorization_servers", JArray [JString (issuer h req)]);
    ("scopes_supported", JArray (JString <$> supportedScopes));
    ("bearer_methods_supported", JArray [JString "header"])]).

Definition authorizationServerMetadata (req : http_request) : H response :=
  if negb (bool_decide (rq_Method req = "GET")) && negb (bool_decide (rq_Method req = "HEAD"))
  then fail (MethodNotAllowed ["GET"; "HEAD"]) else
  let issuer := issuer h req in
  mret (JSONBody 200 [
    ("issuer", JString issuer);
    ("authorization_endpoint", JString (issuer +:+ "/authorize"));
    ("token_endpoint", JString (issuer +:+ "/token"));
    ("registration_endpoint", JString (issuer +:+ "/register"));
    ("response_types_supported", JArray [JString "code"]);
    ("grant_types_supported", JArray [JString "authorization_code"; JString "refresh_token"]);
    ("code_challenge_methods_supported", JArray [JString "S256"]);
    ("token_endpoint_auth_methods_supported", JArray [JString "none"]);
    ("scopes_supported", JArray (JString <$> supportedScopes))]).

(** [decodeJSON] into an [OAuthClientInput]. *)
Definition media_type (req : http_request) : string :=
  ToLower (TrimSpace (of_bytes (default [] (head (Split (bytes (rq_Header req "Content-Type")) 59))))).
Definition decode_client (v : json) : option OAuthClientInput :=
  m ← match v with JObject m => Some m | JNull => Some [] | _ => None end;
  name ← string_field m "client_name";
  redirects ← strings_field m "redirect_uris";
  grants ← strings_field m "grant_types";
  responses ← strings_field m "response_types";
  method ← string_field m "token_endpoint_auth_method";
  Some {| oi_Name := name; oi_RedirectURIs := redirects; oi_GrantTypes := grants;
          oi_ResponseTypes := responses; oi_TokenEndpointAuthMethod := method |}.
Definition decodeJSON (req : http_request) : result string OAuthClientInput :=
  if negb (bool_decide (media_type req = "application/json"))
  then Err "Content-Type must be application/json" else
  match rq_JSON req with
  | None => Err "invalid JSON body"
  | Some (v, alone) =>
      match decode_client v with
      | None => Err "invalid JSON body"
      | Some input =>
          if alone then Ok input else Err "request body must contain one JSON object"
      end
  end.

Definition client_json (client : OAuthClient) : object := [
  ("client_id", JString (oc_ID client));
  ("client_id_issued_at", JNumber (Itoa (oc_CreatedAt client / Second)));
  ("client_name", JString (oc_Name client));
  ("redirect_uris", JArray (JString <$> oc_RedirectURIs client));
  ("grant_types", JArray (JString <$> oc_GrantTypes client));
  ("response_types", JArray (JString <$> oc_ResponseTypes client));
  ("token_endpoint_auth_method", JString (oc_TokenEndpointAuthMethod client))].

Definition register (rd : readings) (req : http_request) : H response :=
  if negb (bool_decide (rq_Method req = "POST")) then fail (MethodNotAllowed ["POST"]) else
  allowed ← allowAttempt rd (remoteKey req "register") 30 Minute;
  if negb allowed
  then fail (OAuthError 429 "temporarily_unavailable" (Text "too many client registrations")) else
  match decodeJSON req with
  | Err e => fail (OAuthError 400 "invalid_client_metadata" (Text e))
  | Ok input =>
      started ← audit rd 0 req "oauth_client" "" "oauth.client.register" "started" "";
      if negb (is_Ok started)
      then fail (OAuthError 503 "temporarily_unavailable" (Text "audit storage unavailable")) else
      client ← on_repository (RegisterOAuthClient (rq_Context req) input
                                (fst (rd_client rd)) (snd (rd_client rd)));
      match client with
      | Err e =>
          audit rd 1 req "oauth_client" "" "oauth.client.register" "failure" "";;
          fail (OAuthError 400 "invalid_client_metadata" (ErrorText e))
      | Ok client =>
          audit rd 1 req "oauth_client" (oc_ID client) "oauth.client.register" "success" "";;
          mret (JSONBody 201 (client_json client))
      end
  end.

(** ** Authorization *)

Definition validateAuthorizationRequest (req : http_request) (values : string → string) :
    H (result message authorizationRequest) :=
  let refused s := mret (Err (Text s)) in
  let clientID := TrimSpace (values "client_id") in
  let redirectURI := TrimSpace (values "redirect_uri") in
  let challenge := TrimSpace (values "code_challenge") in
  if negb (bool_decide (values "response_type" = "code"))
  then refused "Only authorization code response_type is supported." else
  client ← on_repository (GetOAuthClient (rq_Context req) clientID);
  match client with
  | Err _ => refused "Unknown OAuth client."
  | Ok client =>
      if negb (sliceContains (oc_RedirectURIs client) redirectURI)
      then refused "The redirect URI is not registered for this client." else
      if negb (sameCanonicalResource (TrimSpace (values "resource")) (resource h req))
      then refused "The requested MCP resource does not match this server." else
      if negb (bool_decide (values "code_challenge_method" = "S256"))
         || negb (validPKCEValue challenge)
      then refused "S256 PKCE is required." else
      match normalizeScopes (TrimSpace (values "scope")) with
      | Err e => refused e
      | Ok scopes =>
          profiles ← on_repository (Profiles (rq_Context req));
          match profiles with
          | Err _ => refused "Could not load NAS access."
          | Ok profiles =>
              let nas := pf_Name <$> profiles in
              if includesNASScope scopes && bool_decide (nas = [])
              then refused "Add at least one NAS profile before authorizing this client." else
              mret (Ok {|
                ar_ResponseType := values "response_type"; ar_ClientID := clientID;
                ar_RedirectURI := redirectURI; ar_State := values "state";
                ar_Scope := TrimSpace (values "scope"); ar_Resource := resource h req;
                ar_CodeChallenge := challenge;
                ar_CodeChallengeMethod := values "code_challenge_method";
                ar_Client := client; ar_Scopes := scopes; ar_NASAllowlist := nas |})
          end
      end
  end.

Definition gatewaySession (req : http_request) (now : Z) : H (result error AdministratorSession) :=
  match rq_Cookie req administratorCookie with
  | None => mret (Err (ErrNew "no gateway administrator session"))
  | Some value =>
      if bool_decide (TrimSpace value = "")
      then mret (Err (ErrNew "no gateway administrator session")) else
      on_repository (AuthenticateAdministratorSession (rq_Context req) value now)
  end.

Definition renderAuthorization (rd : readings) (req : http_request) (a : authorizationRequest)
    (msg : string) : H response :=
  administrator ← on_repository (GetAdministratorStatus (rq_Context req));
  match administrator with
  | Err _ => mret (ErrorPage 503 (Text "Could not read administrator login methods."))
  | Ok administrator =>
      match rd_nonce rd with
      | None => mret (ErrorPage 503 (Text "Could not render the authorization page."))
      | Some _ =>
          session ← gatewaySession req (rd_page_session rd);
          mret (ConsentPage a msg (bool_decide (is_Some (h_platformVerifier h)))
                  (as_Initialized administrator)
                  (match session with Ok s => Some s | Err _ => None end))
      end
  end.

Definition denyAuthorization {A} (rd : readings) (req : http_request) (a : authorizationRequest)
    (msg : string) : H A :=
  audit rd 1 req "gateway_admin" "" "oauth.authorize" "denied" "denied";;
  page ← renderAuthorization rd req a msg;
  fail page.

Definition grant_of (request : authorizationRequest) (administrator : string) (now : Z) :
    authorizationGrant := {|
  ag_ClientID := ar_ClientID request; ag_ClientName := oc_Name (ar_Client request);
  ag_RedirectURI := ar_RedirectURI request; ag_Resource := ar_Resource request;
  ag_Scopes := ar_Scopes request; ag_NASAllowlist := ar_NASAllowlist request;
  ag_Challenge := ar_CodeChallenge request; ag_Administrator := administrator;
  ag_ExpiresAt := now + authorizationTTL |}.

Definition storeAuthorizationCode (rd : readings) (request : authorizationRequest)
    (administrator : string) : H (option string) := fun s =>
  match rd_code rd with
  | None => (Ok None, s)
  | Some raw =>
      let code := oauthCodePrefix +:+ RawURLEncode raw in
      let c := cleanupCodesLocked (rd_now rd) (hs_codes s) in
      if maxPendingCodes <=? Z.of_nat (size c) then (Ok None, set_codes c s) else
      (Ok (Some code),
       set_codes (<[sha256 code := grant_of request administrator (rd_now rd)]> c) s)
  end.

Definition consumeAuthorizationCode (rd : readings) (raw : string) :
    H (option authorizationGrant) := fun s =>
  if negb (HasPrefix raw oauthCodePrefix) then (Ok None, s) else
  let c := cleanupCodesLocked (rd_now rd) (hs_codes s) in
  (Ok (match c !! sha256 raw with
       | Some grant => if rd_now rd <? ag_ExpiresAt grant then Some grant else None
       | None => None
       end),
   set_codes (delete (sha256 raw) c) s).

(** The administrator behind an approval, by the method of the form. *)
Definition approve_as (rd : readings) (req : http_request) (form : string → string)
    (a : authorizationRequest) : H string :=
  let authMethod := TrimSpace (form "auth_method") in
  let authMethod := if bool_decide (authMethod = "") then AdminProviderLocal else authMethod in
  if bool_decide (authMethod = "session") then
    session ← gatewaySession req (rd_session rd);
    match session with
    | Err _ => denyAuthorization rd req a
                 "The Gateway session has expired. Sign in and approve again."
    | Ok session => mret (an_Provider session +:+ ":" +:+ an_Username session)
    end
  else if bool_decide (authMethod = AdminProviderDSM) then
    match h_platformVerifier h with
    | None => denyAuthorization rd req a "DSM Web Login is unavailable."
    | Some v =>
        identity ← (fun s =>
          let '(r, m) := Verify v (rq_Context req) (rq_Header req HeaderName) (rd_platform rd)
                           (hs_seen s) in
          (Ok r, set_seen m s));
        match identity with
        | Err _ => denyAuthorization rd req a
                     "A current DSM administrator Web Login is required."
        | Ok subject => mret ("dsm:" +:+ subject)
        end
    end
  else if bool_decide (authMethod = AdminProviderLocal) then
    let username := form "username" in
    let key := remoteKey req ("authorize:" +:+ username) in
    allowed ← allowAttempt rd key 5 Minute;
    if negb allowed then
      page ← renderAuthorization rd req a "Too many login attempts. Try again later.";
      fail page
    else
      administrator ← on_repository (VerifyAdministratorCredentials (h_passwordHash h)
        (rq_Context req) username (form "password") (rd_slot rd) (rd_others rd));
      match administrator with
      | Err _ => denyAuthorization rd req a "Invalid administrator credentials."
      | Ok administrator => resetAttempt key;; mret ("local:" +:+ administrator)
      end
  else denyAuthorization rd req a "Unsupported administrator login method.".

(** The values of the request: the query, or the form of a page of this gateway. *)
Definition request_values (req : http_request) : H (string → string) :=
  if negb (bool_decide (rq_Method req = "POST")) then mret (rq_Query req) else
  if negb (sameOriginAuthorization h req)
  then fail (ErrorPage 403 (Text "Authorization form origin does not match this Gateway.")) else
  match rq_PostForm req with
  | None => fail (ErrorPage 400 (Text "Invalid authorization request."))
  | Some form => mret form
  end.

(** The decision of the administrator on a valid request. *)
Definition decide_authorization (rd : readings) (req : http_request) (form : string → string)
    (a : authorizationRequest) : H response :=
  let state_param := if bool_decide (ar_State a = "") then [] else [("state", ar_State a)] in
  if bool_decide (form "decision" = "deny") then
    fail (RedirectTo (ar_RedirectURI a) ([("error", "access_denied");
      ("error_description", "The administrator denied access.")] ++ state_param))
  else
  started ← audit rd 0 req "gateway_admin" "" "oauth.authorize" "started" "";
  if negb (is_Ok started)
  then fail (ErrorPage 503 (Text "Audit storage is unavailable.")) else
  actor ← approve_as rd req form a;
  code ← storeAuthorizationCode rd a actor;
  match code with
  | None => fail (ErrorPage 503 (Text "Could not create authorization code."))
  | Some code =>
      audit rd 1 req "gateway_admin" actor "oauth.authorize" "success" "";;
      mret (RedirectTo (ar_RedirectURI a) (("code", code) :: state_param))
  end.

Definition authorize (rd : readings) (req : http_request) : H response :=
  if negb (bool_decide (rq_Method req = "GET")) && negb (bool_decide (rq_Method req = "POST"))
  then fail (MethodNotAllowed ["GET"; "POST"]) else
  values ← request_values req;
  authorization ← validateAuthorizationRequest req values;
  match authorization with
  | Err e => fail (ErrorPage 400 e)
  | Ok a =>
      if bool_decide (rq_Method req = "GET") then renderAuthorization rd req a ""
      else decide_authorization rd req values a
  end.

(** ** Tokens *)

Definition code_bound (form : string → string) (grant : authorizationGrant) : bool :=
  bool_decide (TrimSpace (form "client_id") = ag_ClientID grant)
  && bool_decide (TrimSpace (form "redirect_uri") = ag_RedirectURI grant)
  && sameCanonicalResource (TrimSpace (form "resource")) (ag_Resource grant)
  && verifyPKCE (TrimSpace (form "code_verifier")) (ag_Challenge grant).

Definition exchangeAuthorizationCode (rd : readings) (req : http_request)
    (form : string → string) : H response :=
  grant ← consumeAuthorizationCode rd (form "code");
  match grant with
  | None => fail (OAuthError 400 "invalid_grant" (Text "authorization code is invalid or expired"))
  | Some grant =>
      if negb (code_bound form grant)
      then fail (OAuthError 400 "invalid_grant" (Text "authorization code binding is invalid"))
      else
      let clientID := TrimSpace (form "client_id") in
      started ← audit rd 0 req "oauth_client" clientID "oauth.token.issue" "started" "";
      if negb (is_Ok started)
      then fail (OAuthError 503 "temporarily_unavailable" (Text "audit storage unavailable")) else
      let '(now, rtok1, rid, rtok2) := rd_issue rd in
      tokenSet ← on_repository (IssueOAuthTokenSet (rq_Context req) {|
        ot_Name := oauthTokenName (ag_ClientName grant); ot_Scopes := ag_Scopes grant;
        ot_NASAllowlist := ag_NASAllowlist grant; ot_ClientID := clientID;
        ot_Resource := ag_Resource grant |} now rtok1 rid rtok2);
      match tokenSet with
      | Err _ =>
          audit rd 1 req "oauth_client" clientID "oauth.token.issue" "failure" "";;
          fail (OAuthError 400 "invalid_grant" (Text "could not issue token"))
      | Ok tokenSet =>
          audit rd 1 req "oauth_client" (tk_ID (os_Token tokenSet)) "oauth.token.issue" "success" "";;
          mret (TokenSet tokenSet (ag_Scopes grant) (ag_Resource grant))
      end
  end.

Definition exchangeRefreshToken (rd : readings) (req : http_request) (form : string → string) :
    H response :=
  let clientID := TrimSpace (form "client_id") in
  let requested := TrimSpace (form "resource") in
  let resource := if bool_decide (requested = "") then resource h req else requested in
  let refresh := form "refresh_token" in
  if bool_decide (clientID = "") || bool_decide (refresh = "")
  then fail (OAuthError 400 "invalid_request"
               (Text "client_id, resource, and refresh_token are required")) else
  started ← audit rd 0 req "oauth_client" clientID "oauth.token.refresh" "started" "";
  if negb (is_Ok started)
  then fail (OAuthError 503 "temporarily_unavailable" (Text "audit storage unavailable")) else
  let '(rtok1, rtok2, now) := rd_refresh rd in
  tokenSet ← on_repository
    (RefreshOAuthTokenSet (rq_Context req) refresh clientID resource rtok1 rtok2 now);
  match tokenSet with
  | Err _ =>
      audit rd 1 req "oauth_client" clientID "oauth.token.refresh" "denied" "invalid_grant";;
      fail (OAuthError 400 "invalid_grant" (Text "refresh token is invalid or expired"))
  | Ok tokenSet =>
      audit rd 1 req "oauth_client" (tk_ID (os_Token tokenSet)) "oauth.token.refresh" "success" "";;
      mret (TokenSet tokenSet (tk_Scopes (os_Token tokenSet)) resource)
  end.

Definition token (rd : readings) (req : http_request) : H response :=
  if negb (bool_decide (rq_Method req = "POST")) then fail (MethodNotAllowed ["POST"]) else
  if negb (bool_decide (ParseMediaType (rq_Header req "Content-Type")
                        = Some "application/x-www-form-urlencoded"))
  then fail (OAuthError 400 "invalid_request"
               (Text "Content-Type must be application/x-www-form-urlencoded")) else
  match rq_PostForm req with
  | None => fail (OAuthError 400 "invalid_request" (Text "invalid form body"))
  | Some form =>
      if negb (bool_decide (rq_Header req "Authorization" = ""))
      then fail (OAuthError 401 "invalid_client" (Text "only public clients are supported")) else
      if bool_decide (form "grant_type" = "authorization_code")
      then exchangeAuthorizationCode rd req form
      else if bool_decide (form "grant_type" = "refresh_token")
      then exchangeRefreshToken rd req form
      else fail (OAuthError 400 "unsupported_grant_type"
                   (Text "supported grants are authorization_code and refresh_token"))
  end.

Definition route (rd : readings) (req : http_request) : H response :=
  let path := rq_Path req in
  if bool_decide (path ∈ ["/.well-known/oauth-protected-resource";
                          "/.well-known/oauth-protected-resource/mcp"])
  then protectedResourceMetadata req
  else if bool_decide (path ∈ ["/.well-known/oauth-authorization-server/oauth";
    "/.well-known/openid-configuration/oauth"; "/oauth/.well-known/oauth-authorization-server";
    "/oauth/.well-known/openid-configuration"])
  then authorizationServerMetadata req
  else if bool_decide (path = "/oauth/register") then register rd req
  else if bool_decide (path = "/oauth/authorize") then authorize rd req
  else if bool_decide (path = "/oauth/token") then token rd req
  else if bool_decide (path = "/oauth/favicon.svg") then mret Favicon
  else mret HTTPNotFound.

(** One response per request, whichever way the method ended. *)
Definition ServeHTTP (rd : readings) (req : http_request) (s : hstate) : response * hstate :=
  match route rd req s with
  | (Ok r, s) => (r, s)
  | (Err r, s) => (r, s)
  end.
End handler.
