(* ===== verification/AdminHttp.v ===== *)
(** * The administration API: requests, logins and sessions

    Source: internal/gateway/admin/auth_http.go, and from handler.go the decoding of inputs,
    the responses, the setup and the names of audited actions.  A handler is a function of
    the request and of the [areadings] of clocks and randomness it makes, in a monad over
    the repository, the three attempt limiters and the memory of the platform verifier;
    writing a response and returning is the failure of the monad.  The second part holds the
    setup, the logins and the session.

    A JSON response is the value that is encoded.  The text of a decoding error stands for
    all the texts that begin with it. *)

From S2P Require Import Prelude.
From S2P Require Import GoStrings.
From S2P Require Import Bolt.
From S2P Require Import NetIP.
From S2P Require Import RemotePolicy.
From S2P Require Import Password.
From S2P Require Import Json.
From S2P Require Import StateTypes.
From S2P Require Import Records.
From S2P Require Import Policy.
From S2P Require Import Http.
From S2P Require Import TlsTrust.
From S2P Require Import PlatformAuth.
From S2P Require Import OAuth.
From S2P Require Import Repository.
From S2P Require Import Vault.
From S2P Require Import Admin.
From S2P Require Import Provision.

Definition maxAdminBody : Z := 1048576.
Definition administratorCookie : string := "dsmctl_admin_session".
Definition requestHeader : string := "X-DSMCTL-Request".
Definition maxAttemptWindows : Z := 4096.

(** ** Data *)

Record attemptWindow := { started : Z; attempts : Z }.
Abbreviation windows := (gmap string attemptWindow).

(** A web login that waits for its code; the enrolment is the handle of its object. *)
Record pendingEnrollment := {
  pe_ProfileName : string;
  pe_Enrollment : nat;
  pe_ExpiresAt : Z
}.

Record Handler := {
  ah_publicURL : string;
  ah_platformVerifier : option Verifier;
  ah_passwordHash : PasswordHashParameters  (** of the repository *)
}.

Record astate := {
  ast_repository : gworld;
  ast_setup : windows;
  ast_login : windows;
  ast_export : windows;
  ast_seen : seen;
  ast_pending : gmap string pendingEnrollment;
  (** the file of a scheduled restore: the name of the backup *)
  ast_restore : option (stored string)
}.

Inductive value :=
| VText (s : string)
| VError (e : error)
| VBool (b : bool)
| VTime (t : Z)
| VNumber (n : Z)
| VObject (l : list (string * value))
| VSession (s : AdministratorSession)
| VAdministrator (s : AdministratorStatus)
| VHealth (h : Health)
| VTokens (l : list MCPToken)
| VToken (t : MCPToken)
| VIssued (t : IssuedMCPToken)
| VApprovals (l : list Approval)
| VApproval (a : Approval)
| VRequests (l : list PendingApproval)
| VEvents (l : list AuditEvent)
| VProfiles (l : list Profile)
| VProfile (p : Profile)
| VSecrets (l : list SecretMetadata)
| VSecret (m : SecretMetadata)
| VAccounts (l : list AccountCredentialInfo)
| VSessionMeta (m : SessionMeta)
| VRows (l : list (list string))
| VStages (l : list (string * bool * value))
| VTexts (l : list string)
| VWrapped (prefix : string) (e : wrapped)   (** the prefix, and the text of the error *)
| VCertificate (c : Certificate)
| VProbe (e : probe_error)
(** nothing: the handler panicked *)
| VPanic.

(** A cookie of the administrator session, [HttpOnly] and of the strict same-site mode. *)
Record cookie := {
  ck_Value : string;
  ck_Path : string;
  ck_Expires : Z;
  ck_MaxAge : Z;
  ck_Secure : bool
}.

Record aresponse := {
  ar_status : Z;
  ar_body : value;
  ar_cookies : list cookie
}.

Definition writeJSON (status : Z) (body : value) : aresponse :=
  {| ar_status := status; ar_body := body; ar_cookies := [] |}.
Definition writeError (status : Z) (message : string) : aresponse :=
  writeJSON status (VObject [("error", VText message)]).
(** [writeError] with the text of an error. *)
Definition writeErr (status : Z) (e : error) : aresponse :=
  writeJSON status (VObject [("error", VError e)]).
Definition methodNotAllowed : aresponse := writeError 405 "method not allowed".
Definition NotFound : aresponse := writeJSON 404 (VText "404 page not found").
Definition writeRepositoryError (e : error) : aresponse :=
  match e with
  | ErrNotFound _ => writeError 404 "profile not found"
  | ErrRevisionConflict _ _ => writeError 409 "profile revision conflict"
  | e => writeErr 400 e
  end.

(** The readings of one request; [ad_audit n] is for the n-th audit event. *)
Record areadings := {
  ad_audit : nat → option error * Z * string;
  ad_authenticate : Z;              (** the session of the cookie *)
  ad_session : Z;                   (** the session again, in a handler *)
  ad_attempt : Z;
  ad_victim : string;               (** the window a full limiter drops *)
  ad_cookie : Z;
  ad_platform : Z;
  ad_slot : option error;           (** waiting for a hashing slot *)
  ad_slot2 : option error;
  ad_salt : list Z;
  ad_others : gworld → gworld;      (** other requests, while a password is hashed *)
  ad_token : string;                (** a new session token *)
  ad_id : string;
  ad_now : Z;
  ad_now2 : Z;
  ad_nows : string → Z;
  ad_secret : fresh_reads;
  ad_secret2 : fresh_reads;
  ad_secret3 : fresh_reads;
  ad_wall : Z;
  ad_wall2 : Z;
  ad_dial : nat;                    (** dials made before *)
  ad_draw : nat → option Z          (** the random source of generated passwords *)
}.

(** ** The monad *)

Abbreviation AH A := (ST astate aresponse A).

Definition on_repository {E A} (m : ST gworld E A) : AH (result E A) := fun s =>
  let '(r, w) := m (ast_repository s) in
  (Ok r, {| ast_repository := w; ast_setup := ast_setup s; ast_login := ast_login s;
            ast_export := ast_export s; ast_seen := ast_seen s; ast_pending := ast_pending s;
            ast_restore := ast_restore s |}).

(** ** attemptLimiter *)

(** A full limiter drops the windows that have ended, and when none has any one. *)
Definition evict (victim : string) (now duration : Z) (w : windows) : windows :=
  if negb (maxAttemptWindows <=? Z.of_nat (size w)) then w else
  let w := base.filter (fun p => now < started p.2 + duration) w in
  if negb (maxAttemptWindows <=? Z.of_nat (size w)) then w else
  match w !! victim with
  | Some _ => delete victim w
  | None => match map_to_list w with [] => w | (k, _) :: _ => delete k w end
  end.

Definition attempt_Allow (limit duration : Z) (victim key : string) (now : Z) (w : windows) :
    bool * windows :=
  let w := evict victim now duration w in
  let window := default {| started := zeroTime; attempts := 0 |} (w !! key) in
  if IsZero (started window) || negb (now <? started window + duration)
  then (true, <[key := {| started := now; attempts := 1 |}]> w) else
  if limit <=? attempts window then (false, w) else
  (true, <[key := {| started := started window; attempts := attempts window + 1 |}]> w).

(** The limiters of [New]: attempts in a minute. *)
Inductive limiter_name := setupAttempts | loginAttempts | exportAttempts.
#[global] Instance limiter_name_eq_dec : EqDecision limiter_name.
Proof. solve_decision. Defined.

Definition windows_of (l : limiter_name) (s : astate) : windows :=
  match l with
  | setupAttempts => ast_setup s | loginAttempts => ast_login s | exportAttempts => ast_export s
  end.
Definition set_windows (l : limiter_name) (w : windows) (s : astate) : astate := {|
  ast_repository := ast_repository s;
  ast_setup := if decide (l = setupAttempts) then w else ast_setup s;
  ast_login := if decide (l = loginAttempts) then w else ast_login s;
  ast_export := if decide (l = exportAttempts) then w else ast_export s;
  ast_seen := ast_seen s; ast_pending := ast_pending s; ast_restore := ast_restore s |}.
Definition set_pending (m : gmap string pendingEnrollment) (s : astate) : astate := {|
  ast_repository := ast_repository s; ast_setup := ast_setup s; ast_login := ast_login s;
  ast_export := ast_export s; ast_seen := ast_seen s; ast_pending := m; ast_restore := ast_restore s |}.
Definition set_restore (m : option (stored string)) (s : astate) : astate := {|
  ast_repository := ast_repository s; ast_setup := ast_setup s; ast_login := ast_login s;
  ast_export := ast_export s; ast_seen := ast_seen s; ast_pending := ast_pending s;
  ast_restore := m |}.
Definition attempt_limit (l : limiter_name) : Z :=
  match l with setupAttempts => 10 | loginAttempts => 5 | exportAttempts => 5 end.

Definition allow_attempt (rd : areadings) (l : limiter_name) (key : string) : AH bool := fun s =>
  let '(b, w) := attempt_Allow (attempt_limit l) Minute (ad_victim rd) key (ad_attempt rd)
                   (windows_of l s) in
  (Ok b, set_windows l w s).
Definition Reset (l : limiter_name) (key : string) : AH () :=
  modifyS (fun s => set_windows l (delete key (windows_of l s)) s).

(** ** Texts of a request *)

Section texts.
Context `{Unicode, NetURL}.

Definition remoteAttemptKey (req : http_request) (suffix : string) : string :=
  let host := default (rq_RemoteAddr req) (SplitHostPort (rq_RemoteAddr req)) in
  TrimSpace host +:+ chr 0 +:+ ToLower (TrimSpace suffix).

Definition externalOrigin (h : Handler) (req : http_request) : string :=
  if negb (bool_decide (ah_publicURL h = "")) then ah_publicURL h else
  let scheme := if rq_TLS req then "https" else "http" in
  let forwarded := TrimSpace (rq_Header req "X-Forwarded-Proto") in
  let scheme := if bool_decide (forwarded = "http") || bool_decide (forwarded = "https")
                then forwarded else scheme in
  let forwarded := TrimSpace (rq_Header req "X-Forwarded-Host") in
  let host := if negb (bool_decide (forwarded = "")) && negb (ContainsAny forwarded [13; 10; 47; 92])
              then forwarded else rq_Host req in
  scheme +:+ "://" +:+ host.

Definition media_type (req : http_request) : string :=
  ToLower (TrimSpace (of_bytes (default [] (head (Split (bytes (rq_Header req "Content-Type")) 59))))).

Definition validateBrowserMutation (h : Handler) (req : http_request) : result error () :=
  if negb (bool_decide (rq_Header req requestHeader = "1"))
  then Err (ErrNew "missing browser request header") else
  if negb (bool_decide (media_type req = "application/json"))
  then Err (ErrNew "administrator mutations require application/json") else
  let origin := TrimRight1 (TrimSpace (rq_Header req "Origin")) 47 in
  if bool_decide (origin = "") || negb (bool_decide (origin = externalOrigin h req))
  then Err (ErrNew "administrator mutation origin does not match") else Ok ().

Definition secureCookie (h : Handler) (req : http_request) : bool :=
  match url_Parse (externalOrigin h req) with
  | Some parsed => bool_decide (u_Scheme parsed = "https")
  | None => false
  end.

Definition forwardedPrefix (req : http_request) : string :=
  let prefix := TrimRight1 (TrimSpace (rq_Header req "X-Forwarded-Prefix")) 47 in
  if negb (bool_decide (prefix = "")) && HasPrefix prefix "/"
     && negb (ContainsAny prefix [13; 10; 92; 63])
  then prefix else "".

Definition administratorCookiePath (req : http_request) : string :=
  if bool_decide (forwardedPrefix req = "") then "/" else forwardedPrefix req.
Definition legacyAdministratorCookiePath (req : http_request) : string :=
  if bool_decide (forwardedPrefix req = "") then "/admin" else forwardedPrefix req +:+ "/admin".

Definition expireAdministratorCookieAt (h : Handler) (req : http_request) (path : string) :
    cookie := {|
  ck_Value := ""; ck_Path := path; ck_Expires := Second; ck_MaxAge := -1;
  ck_Secure := secureCookie h req |}.

Definition setAdministratorCookie (h : Handler) (req : http_request) (token : string)
    (expiresAt now : Z) : list cookie :=
  let maxAge := Z.quot (expiresAt - now) Second in
  [{| ck_Value := token; ck_Path := administratorCookiePath req; ck_Expires := expiresAt;
      ck_MaxAge := if maxAge <? 1 then 1 else maxAge; ck_Secure := secureCookie h req |};
   expireAdministratorCookieAt h req (legacyAdministratorCookiePath req)].
Definition clearAdministratorCookie (h : Handler) (req : http_request) : list cookie :=
  [expireAdministratorCookieAt h req (administratorCookiePath req);
   expireAdministratorCookieAt h req (legacyAdministratorCookiePath req)].
Definition with_cookies (l : list cookie) (r : aresponse) : aresponse :=
  {| ar_status := ar_status r; ar_body := ar_body r; ar_cookies := l |}.

(** [decodeJSON] into a struct with the fields [names], which [f] reads. *)
Definition decodeJSON {A} (names : list string) (f : object → option A) (req : http_request) :
    result string A :=
  if negb (bool_decide (media_type req = "application/json"))
  then Err "Content-Type must be application/json" else
  let invalid := Err "invalid JSON request" in
  match rq_JSON req with
  | None => invalid
  | Some (v, alone) =>
      match match v with JObject m => Some m | JNull => Some [] | _ => None end with
      | None => invalid
      | Some m =>
          if negb (forallb (fun p => existsb (EqualFold p.1) names) m) then invalid else
          match f m with
          | None => invalid
          | Some input =>
              if alone then Ok input else Err "request must contain one JSON object"
          end
      end
  end.
End texts.

(** [New]: the public URL is an origin. *)
Definition NewHandler `{NetURL} (public : string) (platform : option Verifier)
    (parameters : PasswordHashParameters) : result error Handler :=
  let publicURL := TrimRight1 (TrimSpace public) 47 in
  let make u := Ok {| ah_publicURL := u; ah_platformVerifier := platform;
                      ah_passwordHash := parameters |} in
  if bool_decide (publicURL = "") then make "" else
  let refused := Err (ErrNew "admin public URL must be an absolute http or https origin") in
  match url_Parse publicURL with
  | None => refused
  | Some parsed =>
      if bool_decide (u_Host parsed = "")
         || negb (bool_decide (u_Scheme parsed = "http"))
            && negb (bool_decide (u_Scheme parsed = "https"))
         || u_User parsed || negb (bool_decide (u_RawQuery parsed = ""))
         || negb (bool_decide (u_Fragment parsed = ""))
         || negb (bool_decide (u_Path parsed = "")) && negb (bool_decide (u_Path parsed = "/"))
      then refused else make (u_Scheme parsed +:+ "://" +:+ u_Host parsed)
  end.

(** * The administration API: setup, logins and the session

    Source: internal/gateway/admin/auth_http.go, and from handler.go the endpoints of the
    setup, [authenticate] and the audit of the API. *)

Section login.
Context `{Unicode, NetURL, Sha256, Argon2, TimeText, KeyN, HMAC, PayloadText}.
Context (h : Handler).

(** [AppendAudit], its error as a value. *)
Definition append_audit (rd : areadings) (n : nat) (req : http_request)
    (actorType actorID action nas outcome reason : string) : AH (result error ()) :=
  let '(auditFailure, wall, rid) := ad_audit rd n in
  on_repository (AppendAudit (rq_Context req) auditFailure wall rid {|
    ev_ID := ""; ev_Time := zeroTime; ev_CorrelationID := CorrelationID (rq_Context req);
    ev_ActorType := actorType; ev_ActorID := actorID; ev_Action := action; ev_Tool := "";
    ev_NAS := nas; ev_Outcome := outcome; ev_Reason := reason |}).

(** The input of a handler, or the response that refuses it. *)
Definition decoded {A} (r : result string A) : AH A :=
  match r with Ok a => mret a | Err e => fail (writeError 400 e) end.
Definition method_is (req : http_request) (method : string) : AH () :=
  if bool_decide (rq_Method req = method) then mret () else fail methodNotAllowed.

Definition credentials_fields (m : object) : option (string * string) :=
  username ← string_field m "username"; password ← string_field m "password";
  Some (username, password).

(** ** Authentication *)

Definition authenticate (rd : areadings) (req : http_request) :
    AH (result error (string * string)) :=
  match rq_Cookie req administratorCookie with
  | None => mret (Err ErrUnauthorized)
  | Some value =>
      if bool_decide (TrimSpace value = "") then mret (Err ErrUnauthorized) else
      session ← on_repository
        (AuthenticateAdministratorSession (rq_Context req) value (ad_authenticate rd));
      mret (session ← session;
            if bool_decide (an_Provider session = AdminProviderLocal)
            then Ok ("local:" +:+ an_Username session, value)
            else if bool_decide (an_Provider session = AdminProviderDSM)
            then Ok ("dsm:" +:+ an_Username session, value)
            else Err ErrUnauthorized)
  end.

(** ** Setup *)

Definition setupStatus (req : http_request) : AH aresponse :=
  method_is req "GET";;
  status ← on_repository (GetAdministratorStatus (rq_Context req));
  let dsm := bool_decide (is_Some (ah_platformVerifier h)) in
  match status with
  | Err _ => mret (writeError 500 "read administrator status")
  | Ok status =>
      mret (writeJSON 200 (VObject
        (if as_Initialized status
         then [("state", VText "initialized"); ("initialized_at", VTime (as_InitializedAt status));
               ("local_login_available", VBool true); ("dsm_weblogin_available", VBool dsm)]
         else if dsm
         then [("state", VText "dsm_login_only"); ("local_login_available", VBool false);
               ("dsm_weblogin_available", VBool true)]
         else [("state", VText "setup_available")])))
  end.

Definition setup (rd : areadings) (req : http_request) : AH aresponse :=
  method_is req "POST";;
  if bool_decide (is_Some (ah_platformVerifier h)) then fail NotFound else
  status ← on_repository (GetAdministratorStatus (rq_Context req));
  match status with
  | Err _ => fail (writeError 500 "read administrator status")
  | Ok status =>
      if as_Initialized status then fail (writeError 409 "gateway is already initialized") else
      allowed ← allow_attempt rd setupAttempts (remoteAttemptKey req "setup");
      if negb allowed then fail (writeError 429 "too many setup attempts") else
      started ← append_audit rd 0 req "gateway_setup" "" "admin.setup" "" "started" "";
      if negb (is_Ok started) then fail (writeError 503 "audit storage unavailable") else
      match decodeJSON ["username"; "password"] credentials_fields req with
      | Err e =>
          append_audit rd 1 req "gateway_setup" "" "admin.setup" "" "failure" "";;
          mret (writeError 400 e)
      | Ok (username, password) =>
          created ← on_repository (CreateAdministrator (ah_passwordHash h) (rq_Context req)
            username password (ad_salt rd) (ad_slot rd) (ad_token rd) (ad_id rd) (ad_now rd));
          match created with
          | Err e =>
              append_audit rd 1 req "gateway_setup" "" "admin.setup" "" "failure" "";;
              mret (writeErr (if bool_decide (e = ErrAlreadyInitialized) then 409 else 400) e)
          | Ok (token, session) =>
              append_audit rd 1 req "gateway_admin" ("local:" +:+ an_Username session)
                "admin.setup" "" "success" "";;
              mret (with_cookies
                (setAdministratorCookie h req token (an_ExpiresAt session) (ad_cookie rd))
                (writeJSON 201 (VObject [("session", VSession session)])))
          end
      end
  end.

(** ** Logging in *)

(** A session was made: its cookie, and the attempts of the client start over. *)
Definition logged_in (rd : areadings) (req : http_request) (key actor action token : string)
    (session : AdministratorSession) : AH aresponse :=
  Reset loginAttempts key;;
  append_audit rd 1 req "gateway_admin" actor action "" "success" "";;
  mret (with_cookies
    (setAdministratorCookie h req token (an_ExpiresAt session) (ad_cookie rd))
    (writeJSON 200 (VObject [("session", VSession session)]))).

Definition login (rd : areadings) (req : http_request) : AH aresponse :=
  method_is req "POST";;
  '(username, password) ← decoded (decodeJSON ["username"; "password"] credentials_fields req);
  let key := remoteAttemptKey req "login" in
  allowed ← allow_attempt rd loginAttempts key;
  if negb allowed then fail (writeError 429 "too many login attempts") else
  started ← append_audit rd 0 req "gateway_admin" "" "admin.login" "" "started" "";
  if negb (is_Ok started) then fail (writeError 503 "audit storage unavailable") else
  session ← on_repository (LoginAdministrator (ah_passwordHash h) (rq_Context req) username
    password (ad_slot rd) (ad_others rd) (ad_token rd) (ad_id rd) (ad_now rd) (ad_nows rd));
  match session with
  | Err _ =>
      append_audit rd 1 req "gateway_admin" "" "admin.login" "" "denied" "denied";;
      mret (writeError 401 "invalid administrator credentials")
  | Ok (token, session) =>
      logged_in rd req key ("local:" +:+ an_Username session) "admin.login" token session
  end.

Definition dsmLogin (rd : areadings) (req : http_request) : AH aresponse :=
  method_is req "POST";;
  match ah_platformVerifier h with
  | None => fail NotFound
  | Some v =>
      identity ← (fun s =>
        let '(r, m) := Verify v (rq_Context req) (rq_Header req HeaderName) (ad_platform rd)
                         (ast_seen s) in
        (Ok r, {| ast_repository := ast_repository s; ast_setup := ast_setup s;
                  ast_login := ast_login s; ast_export := ast_export s; ast_seen := m;
                  ast_pending := ast_pending s; ast_restore := ast_restore s |}));
      match identity with
      | Err _ =>
          append_audit rd 0 req "gateway_admin" "" "admin.dsm_login" "" "denied" "denied";;
          mret (writeError 401 "DSM administrator Web Login is required")
      | Ok subject =>
          let key := remoteAttemptKey req "dsm-login" in
          allowed ← allow_attempt rd loginAttempts key;
          if negb allowed then fail (writeError 429 "too many login attempts") else
          let actor := "dsm:" +:+ subject in
          started ← append_audit rd 0 req "gateway_admin" actor "admin.dsm_login" "" "started" "";
          if negb (is_Ok started) then fail (writeError 503 "audit storage unavailable") else
          session ← on_repository (CreateDSMAdministratorSession (rq_Context req) subject
            (ad_token rd) (ad_id rd) (ad_now rd) (ad_nows rd));
          match session with
          | Err _ =>
              append_audit rd 1 req "gateway_admin" actor "admin.dsm_login" "" "failure" "";;
              mret (writeError 503 "DSM administrator session could not be created")
          | Ok (token, session) => logged_in rd req key actor "admin.dsm_login" token session
          end
      end
  end.

(** ** The session of the request *)

Definition session (rd : areadings) (req : http_request) (token : string) : AH aresponse :=
  method_is req "GET";;
  session ← on_repository
    (AuthenticateAdministratorSession (rq_Context req) token (ad_session rd));
  mret (match session with
        | Err _ => writeError 401 "unauthorized"
        | Ok session => writeJSON 200 (VObject [("session", VSession session)])
        end).

Definition logout (req : http_request) (token : string) : AH aresponse :=
  method_is req "POST";;
  r ← on_repository (LogoutAdministrator (rq_Context req) token);
  mret (match r with
        | Err _ => writeError 500 "logout failed"
        | Ok _ => with_cookies (clearAdministratorCookie h req)
                    (writeJSON 200 (VObject [("logged_out", VBool true)]))
        end).

Definition changePassword (rd : areadings) (req : http_request) (token : string) : AH aresponse :=
  method_is req "PUT";;
  '(current, new, confirm) ← decoded (decodeJSON
    ["current_password"; "new_password"; "confirm_new_password"]
    (fun m => current ← string_field m "current_password"; new ← string_field m "new_password";
              confirm ← string_field m "confirm_new_password"; Some (current, new, confirm)) req);
  if negb (bool_decide (new = confirm)) then fail (writeError 400 "new passwords do not match")
  else
  r ← on_repository (ChangeAdministratorPassword (ah_passwordHash h) (rq_Context req) token
    current new (ad_session rd) (ad_slot rd) (ad_salt rd) (ad_slot2 rd) (ad_others rd) (ad_now2 rd));
  mret (match r with
        | Err ErrUnauthorized => writeError 401 "current password is invalid"
        | Err e => writeErr 400 e
        | Ok _ => writeJSON 200 (VObject [("password_changed", VBool true);
                                          ("other_sessions_revoked", VBool true)])
        end).

Definition configureLocalAdministrator (rd : areadings) (req : http_request) : AH aresponse :=
  method_is req "POST";;
  '(username, password, confirm) ← decoded (decodeJSON ["username"; "password"; "confirm_password"]
    (fun m => username ← string_field m "username"; password ← string_field m "password";
              confirm ← string_field m "confirm_password"; Some (username, password, confirm)) req);
  if negb (bool_decide (password = confirm)) then fail (writeError 400 "passwords do not match")
  else
  status ← on_repository (ConfigureAdministrator (ah_passwordHash h) (rq_Context req) username
    password (ad_salt rd) (ad_slot rd) (ad_now rd));
  mret (match status with
        | Err ErrAlreadyInitialized => writeError 409 "local administrator is already configured"
        | Err e => writeErr 400 e
        | Ok status => writeJSON 201 (VObject [("administrator", VAdministrator status);
                                               ("local_login_available", VBool true)])
        end).

Definition revokeOtherSessions (rd : areadings) (req : http_request) (token : string) :
    AH aresponse :=
  method_is req "POST";;
  r ← on_repository (RevokeOtherAdministratorSessions (rq_Context req) token (ad_session rd));
  mret (match r with
        | Err _ => writeError 401 "unauthorized"
        | Ok _ => writeJSON 200 (VObject [("other_sessions_revoked", VBool true)])
        end).
End login.
