(* ===== verification/AdminApi.v ===== *)
(** * The administration API: tokens, approvals, audit, profiles and the vault

    Source: internal/gateway/admin/handler.go.  A commit inside [MutateProfile] of the
    runtime manager is the commit: what the manager does around it is in [Manager].

    The endpoints of the vault and the whole API are in [AdminServe]. *)

From S2P Require Import Prelude.
From S2P Require Import GoStrings.
From S2P Require Import Bolt.
From S2P Require Import NetIP.
From S2P Require Import RemotePolicy.
From S2P Require Import Password.
From S2P Require Import Json.
From S2P Require Import StateTypes.
From S2P Require Import Records.
From S2P Require Import Policy.
From S2P Require Import Http.
From S2P Require Import TlsTrust.
From S2P Require Import PlatformAuth.
From S2P Require Import Repository.
From S2P Require Import Vault.
From S2P Require Import Admin.
From S2P Require Import AdminHttp.

(** ** Package net/url and paths *)

(** [url.PathUnescape] *)
Fixpoint unescape (l : list Z) : option (list Z) :=
  match l with
  | [] => Some []
  | 37 :: a :: b :: l =>
      a ← hex_digit a; b ← hex_digit b; rest ← unescape l; Some (a * 16 + b :: rest)
  | 37 :: _ => None
  | c :: l => rest ← unescape l; Some (c :: rest)
  end.
Definition PathUnescape (s : string) : option string := of_bytes <$> unescape (bytes s).

(** [strings.Split(s, "/")] *)
Definition path_parts (s : string) : list string := of_bytes <$> Split (bytes s) 47.
Definition HasSuffix (s suffix : string) : bool :=
  HasPrefix (of_bytes (reverse (bytes s))) (of_bytes (reverse (bytes suffix))).
Fixpoint contains_bytes (s sub : list Z) : bool :=
  bool_decide (take (length sub) s = sub) ||
  match s with [] => false | _ :: s => contains_bytes s sub end.
Definition Contains (s sub : string) : bool := contains_bytes (bytes s) (bytes sub).

Definition administratorActor (actor : string) : string :=
  if bool_decide (actor = "") then "unknown-admin" else actor.

Definition adminAuditAction (path : string) : string :=
  if bool_decide (path = "/admin/api/status") then "admin.status"
  else if bool_decide (path = "/admin/api/session") then "admin.session"
  else if bool_decide (path = "/admin/api/logout") then "admin.logout"
  else if bool_decide (path = "/admin/api/password") then "admin.password"
  else if bool_decide (path = "/admin/api/local-administrator")
  then "admin.local_administrator.configure"
  else if bool_decide (path = "/admin/api/sessions/revoke-others") then "admin.sessions.revoke"
  else if HasPrefix path "/admin/api/mcp-tokens" then "token.lifecycle"
  else if HasPrefix path "/admin/api/approval-requests" then "approval.request"
  else if bool_decide (path = "/admin/api/approvals") then "approval.lifecycle"
  else if HasPrefix path "/admin/api/audit" then "audit.query"
  else if bool_decide (path = "/admin/api/credentials/export") then "credential.export"
  else if bool_decide (path = "/admin/api/recovery/restore") then "recovery.restore"
  else if bool_decide (path = "/admin/api/recovery") then "recovery.query"
  else if HasSuffix path "/credentials/password/connect" then "credential.connect"
  else if HasSuffix path "/credentials/password/reveal" then "credential.reveal"
  else if HasSuffix path "/provision" then "profile.provision"
  else if Contains path "/credentials/" || Contains path "/weblogin/" then "credential.manage"
  else if Contains path "/secrets" || HasPrefix path "/admin/api/orphan-secrets"
  then "secret.manage"
  else if HasPrefix path "/admin/api/profiles" then "profile.manage"
  else "admin.request".

Section api.
Context `{Unicode, NetURL, Sha256, Argon2, TimeText, KeyN, HMAC, PayloadText, AEAD,
  Codec TrustedDevice, Codec SessionCredential, X509, RFC3339, Peers}.
Context (h : Handler).

(** The response to an operation of the repository. *)
Definition answer {A} (r : result error A) (status : Z) (f : A → value) : AH aresponse :=
  match r with
  | Err e => mret (writeRepositoryError e)
  | Ok a => mret (writeJSON status (f a))
  end.
Definition listing {A} (r : result error A) (failure name : string) (f : A → value) :
    AH aresponse :=
  match r with
  | Err _ => mret (writeError 500 failure)
  | Ok a => mret (writeJSON 200 (VObject [(name, f a)]))
  end.

(** A time field: the zero time when it is absent. *)
Definition as_time (v : json) : option Z :=
  match v with JString s => ParseTime s | _ => None end.
Definition time_field (m : object) (field : string) : option Z :=
  assign as_time zeroTime (field_values m field).
(** A field of pointer type: [null] makes it nil. *)
Fixpoint assign_pointer {A} (f : json → option A) (cur : option A) (l : list json) :
    option (option A) :=
  match l with
  | [] => Some cur
  | JNull :: l => assign_pointer f None l
  | v :: l => a ← f v; assign_pointer f (Some a) l
  end.

(** ** Tokens *)

Definition token_input (m : object) : option MCPTokenInput :=
  name ← string_field m "name"; scopes ← strings_field m "scopes";
  nas ← strings_field m "nas_allowlist";
  expires ← assign_pointer as_time None (field_values m "expires_at");
  mode ← string_field m "approval_mode";
  Some {| ti_Name := name; ti_Scopes := scopes; ti_NASAllowlist := nas;
          ti_ExpiresAt := expires; ti_ApprovalMode := mode |}.

Definition mcpTokens (rd : areadings) (req : http_request) : AH aresponse :=
  let ctx := rq_Context req in
  let relative := TrimPrefix (rq_Path req) "/admin/api/mcp-tokens" in
  if bool_decide (relative = "") || bool_decide (relative = "/") then
    if bool_decide (rq_Method req = "GET") then
      tokens ← on_repository (MCPTokens ctx);
      listing tokens "list MCP tokens" "tokens" VTokens
    else if bool_decide (rq_Method req = "POST") then
      input ← decoded (decodeJSON
        ["name"; "scopes"; "nas_allowlist"; "expires_at"; "approval_mode"] token_input req);
      issued ← on_repository
        (CreateMCPToken ctx input (ad_now rd) (ad_now2 rd) (ad_token rd) (ad_id rd));
      answer issued 201 VIssued
    else fail methodNotAllowed
  else
  let parts := path_parts (TrimPrefix relative "/") in
  match PathUnescape (default "" (head parts)) with
  | None => fail (writeError 400 "invalid token identifier")
  | Some id =>
      if bool_decide (id = "") then fail (writeError 400 "invalid token identifier") else
      let action := default "" (parts !! 1%nat) in
      if bool_decide (action = "") then
        if bool_decide (rq_Method req = "GET") then
          token ← on_repository (GetMCPToken ctx id); answer token 200 VToken
        else if bool_decide (rq_Method req = "DELETE") then
          token ← on_repository (RevokeMCPToken ctx id (ad_now rd)); answer token 200 VToken
        else fail methodNotAllowed
      else if bool_decide (action = "rotate") then
        method_is req "POST";;
        issued ← on_repository (RotateMCPToken ctx id (ad_now rd) (ad_token rd));
        answer issued 200 VIssued
      else if bool_decide (action = "expire") then
        method_is req "POST";;
        expires ← decoded (decodeJSON ["expires_at"] (fun m => time_field m "expires_at") req);
        token ← on_repository (ExpireMCPToken ctx id expires (ad_now rd));
        answer token 200 VToken
      else fail NotFound
  end.

(** ** Approvals *)

Definition approval_input (m : object) : option ApprovalInput :=
  hash ← string_field m "plan_hash"; nas ← string_field m "nas";
  token ← string_field m "requesting_token_id"; ttl ← int_field m "ttl_seconds";
  Some {| ai_PlanHash := hash; ai_NAS := nas; ai_ProfileRevision := 0;
          ai_RequestingTokenID := token; ai_TTL := int64_wrap (ttl * Second) |}.

Definition approvals (rd : areadings) (req : http_request) (actor : string) : AH aresponse :=
  let ctx := rq_Context req in
  if bool_decide (rq_Method req = "GET") then
    items ← on_repository (Approvals ctx (bool_decide (rq_Query req "include_consumed" = "true")));
    listing items "list approvals" "approvals" VApprovals
  else if bool_decide (rq_Method req = "POST") then
    input ← decoded (decodeJSON ["plan_hash"; "nas"; "requesting_token_id"; "ttl_seconds"]
      approval_input req);
    approval ← on_repository
      (CreateApproval ctx input (administratorActor actor) (ad_now rd) (ad_id rd));
    answer approval 201 VApproval
  else fail methodNotAllowed.

Definition approvalRequests (rd : areadings) (req : http_request) (actor : string) :
    AH aresponse :=
  let ctx := rq_Context req in
  let relative := TrimPrefix (rq_Path req) "/admin/api/approval-requests" in
  if bool_decide (relative = "") || bool_decide (relative = "/") then
    method_is req "GET";;
    items ← on_repository (PendingApprovals ctx (ad_now rd));
    listing items "list pending approvals" "requests" VRequests
  else
  let parts := path_parts (TrimPrefix relative "/") in
  match PathUnescape (default "" (head parts)) with
  | None => fail (writeError 400 "invalid approval request identifier")
  | Some id =>
      if bool_decide (id = "") then fail (writeError 400 "invalid approval request identifier")
      else
      let action := default "" (parts !! 1%nat) in
      if bool_decide (action = "approve") && bool_decide (rq_Method req = "POST") then
        approval ← on_repository (ApprovePendingApproval ctx id (administratorActor actor)
          (ad_now rd) (ad_wall rd) (ad_token rd) (ad_id rd));
        answer approval 201 VApproval
      else if bool_decide (action = "") && bool_decide (rq_Method req = "DELETE") then
        dismissed ← on_repository (DismissPendingApproval ctx id);
        answer dismissed 200 (fun _ => VObject [("dismissed", VBool true)])
      else fail methodNotAllowed
  end.

(** ** The audit log *)

Definition audit (req : http_request) : AH aresponse :=
  method_is req "GET";;
  let limit := default 0 (Atoi (rq_Query req "limit")) in
  let value := rq_Query req "after" in
  after ← (if bool_decide (value = "") then mret zeroTime else
           match ParseTime value with
           | Some t => mret t
           | None => fail (writeError 400 "after must be RFC3339")
           end);
  if bool_decide (rq_Path req = "/admin/api/audit/export") then
    events ← on_repository (AuditExport (rq_Context req));
    mret (match events with
          | Err _ => writeError 500 "export audit events"
          | Ok events => writeJSON 200 (VEvents events)
          end)
  else
  events ← on_repository (AuditEvents (rq_Context req) {|
    aq_After := after; aq_Limit := limit; aq_ActorID := rq_Query req "actor_id";
    aq_Action := rq_Query req "action" |});
  listing events "read audit events" "events" VEvents.

(** ** Secrets *)

Definition orphanSecrets (req : http_request) : AH aresponse :=
  let ctx := rq_Context req in
  let id := if bool_decide (rq_Path req = "/admin/api/orphan-secrets") then ""
            else TrimPrefix (rq_Path req) "/admin/api/orphan-secrets/" in
  if bool_decide (id = "") then
    method_is req "GET";;
    secrets ← on_repository (OrphanedSecrets ctx);
    listing secrets "list retained secrets" "secrets" VSecrets
  else
  method_is req "DELETE";;
  match PathUnescape id with
  | None => fail (writeError 400 "invalid secret identifier")
  | Some decodedID =>
      removed ← on_repository (DeleteOrphanedSecret ctx decodedID);
      mret (match removed with
            | Err e => writeErr 400 e
            | Ok removed => writeJSON 200 (VObject [("removed", VBool removed)])
            end)
  end.

Definition applySecrets (rd : areadings) (req : http_request) (name id : string) :
    AH aresponse :=
  let ctx := rq_Context req in
  profile ← on_repository (GetProfile ctx name);
  match profile with
  | Err e => fail (writeRepositoryError e)
  | Ok profile =>
      if bool_decide (id = "") then
        if bool_decide (rq_Method req = "GET") then
          metadata ← on_repository (SecretMetadataForProfile ctx (pf_ID profile));
          listing metadata "list vault references" "secrets" VSecrets
        else if bool_decide (rq_Method req = "POST") then
          value ← decoded (decodeJSON ["value"] (fun m => string_field m "value") req);
          metadata ← on_repository (StoreApplySecret ctx name value (ad_secret rd));
          answer metadata 201 (fun m => VObject [("secret", VSecret m);
                                                 ("reference", VText ("vault:" +:+ sm_ID m))])
        else fail methodNotAllowed
      else
      method_is req "DELETE";;
      removed ← on_repository (DeleteApplySecret ctx (pf_ID profile) id);
      answer removed 200 (fun removed => VObject [("removed", VBool removed)])
  end.

(** ** Profiles *)

(** The members of [state.ProfileInput], and the confirmation. *)
Definition profile_input (m : object) : option (ProfileInput * bool) :=
  name ← string_field m "name"; url ← string_field m "url"; username ← string_field m "username";
  mode ← string_field m "tls_mode"; fingerprint ← string_field m "certificate_fingerprint";
  timeout ← int_field m "timeout_seconds"; role ← string_field m "role";
  confirmed ← bool_field m "confirm_certificate_fingerprint";
  Some ({| pi_Name := name; pi_URL := url; pi_Username := username; pi_TLSMode := mode;
           pi_CertificateFingerprint := fingerprint; pi_TimeoutSeconds := timeout;
           pi_Role := role |}, confirmed).
Definition profile_input_names : list string :=
  ["name"; "url"; "username"; "tls_mode"; "certificate_fingerprint"; "timeout_seconds"; "role";
   "confirm_certificate_fingerprint"].

Definition validateFingerprintConfirmation (input : ProfileInput) (confirmed : bool) :
    result error () :=
  if bool_decide (pi_TLSMode input = TLSPinnedFingerprint) && negb confirmed
  then Err (ErrNew
    "pinned_fingerprint TLS mode requires explicit certificate fingerprint confirmation")
  else Ok ().

Definition profiles (rd : areadings) (req : http_request) : AH aresponse :=
  let ctx := rq_Context req in
  if bool_decide (rq_Method req = "GET") then
    profiles ← on_repository (Profiles ctx);
    listing profiles "list profiles" "profiles" VProfiles
  else if bool_decide (rq_Method req = "POST") then
    '(input, confirmed) ← decoded (decodeJSON profile_input_names profile_input req);
    match validateFingerprintConfirmation input confirmed with
    | Err e => fail (writeErr 400 e)
    | Ok _ =>
        let input := {| pi_Name := pi_Name input; pi_URL := pi_URL input; pi_Username := "";
                        pi_TLSMode := pi_TLSMode input;
                        pi_CertificateFingerprint := pi_CertificateFingerprint input;
                        pi_TimeoutSeconds := 0; pi_Role := pi_Role input |} in
        created ← on_repository (CreateProfile ctx input (ad_now rd) (ad_id rd));
        answer created 201 VProfile
    end
  else fail methodNotAllowed.

(** An edit that moves the profile to another URL starts again with system trust; the
    username is the stored one. *)
Definition edited_input (input : ProfileInput) (current : Profile) : ProfileInput :=
  let moved := negb (bool_decide (TrimRight1 (TrimSpace (pi_URL input)) 47 = pf_URL current)) in
  {| pi_Name := pi_Name input; pi_URL := pi_URL input; pi_Username := pf_Username current;
     pi_TLSMode := if moved then TLSSystemCA else pi_TLSMode input;
     pi_CertificateFingerprint := if moved then "" else pi_CertificateFingerprint input;
     pi_TimeoutSeconds := pi_TimeoutSeconds input; pi_Role := pi_Role input |}.

(** [revoke] is the manager's [RevokeStoredSession], which reads the repository and asks the
    NAS to end the session. *)
Definition profileRecord (revoke : string → result error bool) (rd : areadings) (req : http_request)
    (name : string) : AH aresponse :=
  let ctx := rq_Context req in
  if bool_decide (rq_Method req = "GET") then
    profile ← on_repository (GetProfile ctx name); answer profile 200 VProfile
  else if bool_decide (rq_Method req = "PUT") then
    '(input, confirmed, expected) ← decoded (decodeJSON (profile_input_names ++ ["expected_revision"])
      (fun m => p ← profile_input m; expected ← uint_field m "expected_revision";
                Some (p, expected)) req);
    match validateFingerprintConfirmation input confirmed with
    | Err e => fail (writeErr 400 e)
    | Ok _ =>
        current ← on_repository (GetProfile ctx name);
        match current with
        | Err e => fail (writeRepositoryError e)
        | Ok current =>
            updated ← on_repository
              (UpdateProfile ctx name expected (edited_input input current) (ad_now rd));
            answer updated 200 VProfile
        end
    end
  else if bool_decide (rq_Method req = "DELETE") then
    let revision := default 0 (number_uint (rq_Query req "revision")) in
    if revision =? 0 then fail (writeError 400 "revision query parameter is required") else
    let retain := bool_decide (rq_Query req "retain_credentials" = "true") in
    let revocation := if retain then None else
                      match revoke name with Err e => Some e | Ok _ => None end in
    removed ← on_repository (DeleteProfile ctx name revision retain (ad_nows rd) (ad_now rd)
      (ad_wall rd) (ad_id rd));
    match removed with
    | Err e => fail (writeRepositoryError e)
    | Ok removed =>
        retained ← (if retain then
          metadata ← on_repository (SecretMetadataForProfile ctx (pf_ID removed));
          mret [("retained_secrets", VSecrets (match metadata with Ok l => l | Err _ => [] end))]
          else mret []);
        mret (writeJSON 200 (VObject (
          [("removed", VText (pf_Name removed)); ("credentials_retained", VBool retain)]
          ++ match revocation with
             | Some e => [("session_revocation_error", VError e)] | None => [] end
          ++ retained)))
    end
  else fail methodNotAllowed.

(** The preflight of a profile, with the dials made before. *)
Definition probeTLS (rd : areadings) (profile : Profile) : result probe_error () :=
  let pin := if bool_decide (pf_TLSMode profile = TLSPinnedFingerprint)
             then pf_CertificateFingerprint profile else "" in
  (Probe (ad_wall rd) (pf_URL profile) pin (ad_dial rd)).1.

Definition tls_error_body (profile : Profile) (e : TrustError) (extra : list (string * value)) :
    value :=
  VObject ([("error", VText (TrustError_Error (Some e))); ("code", VText (te_Code e));
            ("nas", VText (pf_Name profile)); ("profile_revision", VNumber (pf_Revision profile));
            ("certificate", VCertificate (te_Certificate e))]
    ++ (if bool_decide (te_ExpectedFingerprint e = "") then []
        else [("expected_fingerprint", VText (te_ExpectedFingerprint e))])
    ++ (if bool_decide (te_ValidationWarnings e = []) then []
        else [("validation_warnings", VRows [te_ValidationWarnings e])]) ++ extra).

Definition requireProfileTLS (rd : areadings) (req : http_request) (name : string) : AH Profile :=
  profile ← on_repository (GetProfile (rq_Context req) name);
  match profile with
  | Err e => fail (writeRepositoryError e)
  | Ok profile =>
      match probeTLS rd profile with
      | Ok _ => mret profile
      | Err (ErrTrust e) => fail (writeJSON 409 (tls_error_body profile e []))
      | Err e => fail (writeJSON 502 (VObject [("error", VProbe e)]))
      end
  end.

Definition probeProfileTLS (rd : areadings) (req : http_request) (name : string) : AH aresponse :=
  method_is req "POST";;
  profile ← requireProfileTLS rd req name;
  mret (writeJSON 200 (VObject [("nas", VText name);
    ("profile_revision", VNumber (pf_Revision profile)); ("verified", VBool true);
    ("tls_mode", VText (pf_TLSMode profile))])).

Definition trustProfileCertificate (rd : areadings) (req : http_request) (name : string) :
    AH aresponse :=
  let ctx := rq_Context req in
  method_is req "PUT";;
  '(expected, fingerprint) ← decoded (decodeJSON ["expected_revision"; "fingerprint"]
    (fun m => expected ← uint_field m "expected_revision"; fp ← string_field m "fingerprint";
              Some (expected, fp)) req);
  match NormalizeFingerprint fingerprint with
  | Err _ => fail (writeError 400 "expected_revision and a SHA-256 fingerprint are required")
  | Ok confirmed =>
      if bool_decide (confirmed = "") || (expected =? 0)
      then fail (writeError 400 "expected_revision and a SHA-256 fingerprint are required") else
      profile ← on_repository (GetProfile ctx name);
      match profile with
      | Err e => fail (writeRepositoryError e)
      | Ok profile =>
          if negb (pf_Revision profile =? expected)
          then fail (writeRepositoryError (ErrRevisionConflict expected (pf_Revision profile))) else
          match probeTLS rd profile with
          | Ok _ => fail (writeError 409
              "the current TLS certificate does not require trust confirmation")
          | Err (ErrTrust e) =>
              if negb (bool_decide (confirmed = ct_Fingerprint (te_Certificate e)))
              then fail (writeError 409
                "the observed TLS certificate changed before confirmation") else
              updated ← on_repository (UpdateProfile ctx name expected {|
                pi_Name := ""; pi_URL := pf_URL profile; pi_Username := pf_Username profile;
                pi_TLSMode := TLSPinnedFingerprint; pi_CertificateFingerprint := confirmed;
                pi_TimeoutSeconds := pf_TimeoutSeconds profile; pi_Role := "" |} (ad_now rd));
              answer updated 200 VProfile
          | Err e => fail (writeJSON 502 (VObject [("error", VProbe e)]))
          end
      end
  end.
End api.
