(* ===== verification/AdminServe.v ===== *)
(** * The administration API: credentials, connections, web login, and the routes

    Source: internal/gateway/admin/handler.go, [provisionProfile] of provision.go, and
    [Queue] of internal/gateway/recovery/recovery.go.  What a NAS, the network and the files
    of the recovery sets answer, and the objects of the web login package, come from the
    record [outside]; the pending web logins and the file of a scheduled restore are parts of
    the handler's state. *)

From S2P Require Import Prelude.
From S2P Require Import GoStrings.
From S2P Require Import Bolt.
From S2P Require Import NetIP.
From S2P Require Import RemotePolicy.
From S2P Require Import Password.
From S2P Require Import Json.
From S2P Require Import Config.
From S2P Require Import StateTypes.
From S2P Require Import Records.
From S2P Require Import Policy.
From S2P Require Import Http.
From S2P Require Import TlsTrust.
From S2P Require Import PlatformAuth.
From S2P Require Import Repository.
From S2P Require Import Vault.
From S2P Require Import DsmErrors.
From S2P Require Import Provision.
From S2P Require Import Admin.
From S2P Require Import AdminHttp.
From S2P Require Import AdminApi.

Definition enrollmentTTL : Z := 5 * Minute.

(** What the exchange of a web login returned. *)
Record web_result := {
  wr_SID : string; wr_SynoToken : string; wr_DeviceID : string; wr_ServerPublicKey : string;
  wr_LocalPublicKey : string; wr_LocalPrivateKey : string; wr_Account : string
}.

(** The zero value of a profile, as a lookup in a map without it gives. *)
Definition zero_NASProfile : NASProfile := {|
  np_URL := ""; np_Identity := zero_identity; np_Endpoints := []; np_Username := "";
  np_PasswordEnv := ""; np_InsecureSkipTLSVerify := false; np_TLSMode := "";
  np_CertificateFingerprint := ""; np_TimeoutSeconds := 0; np_Role := ""; np_Revision := 0 |}.

(** The recovery sets: the inventory, given the file of a scheduled restore; why a set cannot
    be restored; and whether that file could be written. *)
Record Recovery := {
  rc_Status : option (stored string) → option value;
  rc_inspect : string → option string;
  rc_written : bool
}.

Record outside := {
  (** [RevokeStoredSession] of the manager *)
  ou_revoke : string → result error bool;
  (** [NewClient] and [Authenticate] with an account, a password and a one-time password *)
  ou_sign_in : NASProfile → string → string → string → option dsm_login;
  (** [BeginEnrollment]: the enrolment, the login URL and the state *)
  ou_begin : NASProfile → string → string → result string (nat * string * string);
  (** [Enrollment.Complete] *)
  ou_complete : nat → string → string → string → option web_result;
  (** the stages of the connection test: an error text, or success *)
  ou_lookup : string → result string (list string);
  ou_connect : string → option string;
  ou_query : NASProfile → option string;
  ou_dsm : string → option string;
  (** [NewClient], with the stored password, and the reply to the login of [Authenticate] *)
  ou_sign_in_stored : NASProfile → string → TrustedDevice → result dsm_error dsm_login;
  (** [DiscoverDevices], for so many seconds *)
  ou_discover : Z → option value;
  (** the setup window of a new NAS *)
  ou_provisioner : Provisioner;
  (** the recovery manager, when there is one, and whether the process can be restarted *)
  ou_recovery : option Recovery;
  ou_restart : bool;
  (** the environment, and the name of this device *)
  ou_environment : string → option string;
  ou_deviceName : string
}.

(** The end of a handler that a nil pointer stops: no response is written. *)
Definition panic : aresponse := {| ar_status := 0; ar_body := VPanic; ar_cookies := [] |}.

Section vault_api.
Context `{Unicode, NetURL, Sha256, Argon2, TimeText, KeyN, HMAC, PayloadText, AEAD,
  Codec TrustedDevice, Codec SessionCredential, X509, RFC3339, Peers}.
Context (h : Handler) (net : outside).

(** ** Reading credentials *)

Definition credentialStatus (req : http_request) (name : string) : AH aresponse :=
  let ctx := rq_Context req in
  method_is req "GET";;
  profile ← on_repository (GetProfile ctx name);
  match profile with
  | Err e => fail (writeRepositoryError e)
  | Ok profile =>
      meta ← on_repository (session_meta ctx name);
      mret (match meta with
            | Err _ => writeError 500 "read credential status"
            | Ok meta => writeJSON 200 (VObject [
                ("nas", VText (pf_Name profile)); ("revision", VNumber (pf_Revision profile));
                ("password_stored", VBool (pf_PasswordStored profile));
                ("trusted_device_stored", VBool (pf_TrustedDeviceStored profile));
                ("session", VSessionMeta meta)])
            end)
  end.

Definition passwordAccounts (req : http_request) (name : string) : AH aresponse :=
  method_is req "GET";;
  accounts ← on_repository (PasswordAccounts (rq_Context req) name);
  answer accounts 200 (fun l => VObject [("nas", VText name); ("accounts", VAccounts l)]).

Definition reveal_reason (account : string) : string :=
  if bool_decide (account = "") then "account=(primary)" else "account=" +:+ account.

Definition revealPassword (rd : areadings) (req : http_request) (name actor : string) :
    AH aresponse :=
  method_is req "POST";;
  account ← decoded (decodeJSON ["account"] (fun m => string_field m "account") req);
  let account := TrimSpace account in
  password ← on_repository (RevealPasswordForAccount (rq_Context req) name account);
  match password with
  | Err (ErrNotFound _) => fail (writeError 404 "no password stored for this NAS")
  | Err e => fail (writeRepositoryError e)
  | Ok password =>
      append_audit rd 2 req "gateway_admin" (administratorActor actor) "credential.reveal" name
        "success" (reveal_reason account);;
      mret (writeJSON 200 (VObject [("nas", VText name); ("account", VText account);
                                    ("password", VText password)]))
  end.

(** The rows of the export, and how many hold a password. *)
Fixpoint export_rows (ctx : context) (profiles : list Profile) :
    AH (list (list string) * Z) :=
  match profiles with
  | [] => mret ([], 0)
  | profile :: profiles =>
      stored ← (if pf_PasswordStored profile
                then on_repository (StoredPassword ctx (pf_Name profile)) else mret (Ok ""));
      password ← match stored with
                 | Ok stored => mret stored
                 | Err (ErrNotFound _) => mret ""
                 | Err _ => fail (writeError 500 "read stored password")
                 end;
      let host := match url_Parse (pf_URL profile) with
                  | Some parsed => if bool_decide (u_Host parsed = "") then pf_URL profile
                                   else u_Hostname parsed
                  | None => pf_URL profile
                  end in
      '(rows, withPassword) ← export_rows ctx profiles;
      mret ([pf_Name profile; host; pf_URL profile; pf_Username profile; password] :: rows,
            if bool_decide (password = "") then withPassword else withPassword + 1)
  end.

Definition exportCredentials (rd : areadings) (req : http_request) (actor : string) :
    AH aresponse :=
  let ctx := rq_Context req in
  method_is req "POST";;
  password ← decoded (decodeJSON ["password"] (fun m => string_field m "password") req);
  let attemptKey := remoteAttemptKey req "export" in
  allowed ← allow_attempt rd exportAttempts attemptKey;
  if negb allowed then fail (writeError 429 "too many export attempts") else
  let actor := administratorActor actor in
  let username := TrimPrefix actor "local:" in
  verified ← on_repository (VerifyAdministratorCredentials (ah_passwordHash h) ctx username
    password (ad_slot rd) (ad_others rd));
  match verified with
  | Err _ =>
      append_audit rd 2 req "gateway_admin" actor "credential.export" "" "denied"
        "administrator reauthentication denied";;
      mret (writeError 401 "administrator password verification failed")
  | Ok _ =>
      profiles ← on_repository (Profiles ctx);
      match profiles with
      | Err _ => fail (writeError 500 "list profiles")
      | Ok profiles =>
          Reset exportAttempts attemptKey;;
          '(rows, withPassword) ← export_rows ctx profiles;
          append_audit rd 2 req "gateway_admin" actor "credential.export" "" "success"
            ("exported " +:+ Itoa (Z.of_nat (length profiles)) +:+ " profiles, "
             +:+ Itoa withPassword +:+ " with stored passwords");;
          mret (writeJSON 200 (VRows (["name"; "host"; "url"; "account"; "password"] :: rows)))
      end
  end.

(** ** Changing credentials *)

Record enrollment_input := {
  ei_Account : string; ei_ExpectedRevision : Z; ei_Password : string; ei_OTP : string;
  ei_Store : option bool; ei_Connect : bool
}.
Definition enrollment_fields (m : object) : option enrollment_input :=
  account ← string_field m "account"; expected ← uint_field m "expected_revision";
  password ← string_field m "password"; otp ← string_field m "otp";
  store ← assign_pointer as_bool None (field_values m "store"); connect ← bool_field m "connect";
  Some {| ei_Account := account; ei_ExpectedRevision := expected; ei_Password := password;
          ei_OTP := otp; ei_Store := store; ei_Connect := connect |}.

Definition enrolled (name account : string) (password device session : bool) : aresponse :=
  writeJSON 200 (VObject [("nas", VText name); ("account", VText account);
    ("validated", VBool true); ("password_stored", VBool password);
    ("trusted_device_stored", VBool device); ("session_stored", VBool session)]).

(** What follows a successful sign-in. *)
Definition enroll (rd : areadings) (ctx : context) (name : string) (stored : Profile)
    (input : enrollment_input) (l : dsm_login) : AH aresponse :=
  let store := default true (ei_Store input) in
  let account := TrimSpace (ei_Account input) in
  if negb store && negb (ei_Connect input)
  then fail (enrolled name account false false false) else
  if bool_decide (dl_SID l = "")
  then fail (writeError 502 "DSM did not return a reusable password session") else
  if negb store then
    revision ← on_repository (EnrollSessionAtRevision ctx name (ei_ExpectedRevision input)
      (established account "" (ad_now rd) l) (ad_secret rd) (ad_wall rd));
    mret (match revision with
          | Err e => writeRepositoryError e
          | Ok _ => enrolled name account (pf_PasswordStored stored)
                      (pf_TrustedDeviceStored stored) true
          end)
  else
  let device := if bool_decide (dl_DeviceID l = "") then zero_device
                else {| td_Name := "dsmctl-gateway"; td_ID := dl_DeviceID l |} in
  let primary := negb (pf_PasswordStored stored) || EqualFold (pf_Username stored) account in
  revision ← on_repository (
    if primary
    then SavePasswordForAccountWithSession ctx name (ei_ExpectedRevision input) account
           (ei_Password input) device (established account (td_ID device) (ad_now rd) l)
           (ad_secret rd) (ad_secret2 rd) (ad_secret3 rd) (ad_wall rd)
    else SavePasswordForAccount ctx name (ei_ExpectedRevision input) account
           (ei_Password input) device (ad_secret rd) (ad_secret2 rd) (ad_secret3 rd) (ad_wall rd));
  mret (match revision with
        | Err e => writeRepositoryError e
        | Ok _ => enrolled name account true (negb (bool_decide (td_ID device = ""))) primary
        end).

Definition passwordEnrollment (rd : areadings) (req : http_request) (name : string) :
    AH aresponse :=
  let ctx := rq_Context req in
  if bool_decide (rq_Method req = "DELETE") then
    let account := TrimSpace (rq_Query req "account") in
    removed ← on_repository (DeletePasswordForAccount ctx name account (ad_wall rd));
    answer removed 200 (fun removed => VObject [("removed", VBool removed.1)])
  else
  method_is req "POST";;
  storedProfile ← requireProfileTLS rd req name;
  input ← decoded (decodeJSON
    ["account"; "expected_revision"; "password"; "otp"; "store"; "connect"] enrollment_fields req);
  if bool_decide (TrimSpace (ei_Account input) = "") || (ei_ExpectedRevision input =? 0)
     || bool_decide (ei_Password input = "")
  then fail (writeError 400 "account, expected_revision, and password are required") else
  cfg ← on_repository (Snapshot ctx);
  match cfg with
  | Err _ => fail (writeError 500 "load profile")
  | Ok cfg =>
      match cf_NAS cfg !! name with
      | None => fail (writeError 404 "profile not found")
      | Some profile =>
          match ou_sign_in net profile (TrimSpace (ei_Account input)) (ei_Password input)
                  (ei_OTP input) with
          | None => fail (writeError 502 "DSM rejected password enrollment")
          | Some l => enroll rd ctx name storedProfile input l
          end
      end
  end.

Definition removeSession (rd : areadings) (req : http_request) (name : string) : AH aresponse :=
  method_is req "DELETE";;
  let revocation := ou_revoke net name in
  removed ← on_repository (DeleteSession (rq_Context req) name (ad_wall rd));
  answer removed 200 (fun removed => VObject (
    [("removed", VBool removed);
     ("revoked", VBool (match revocation with Ok b => b | Err _ => false end))]
    ++ match revocation with Err e => [("revocation_error", VError e)] | Ok _ => [] end)).

Definition removeTrustedDevice (rd : areadings) (req : http_request) (name : string) :
    AH aresponse :=
  method_is req "DELETE";;
  removed ← on_repository (DeleteTrustedDevice (rq_Context req) name (ad_wall rd));
  answer removed 200 (fun removed => VObject [("removed", VBool removed.1)]).

(** ** Connecting with the stored password *)

Definition coded (status : Z) (code message : string) : aresponse :=
  writeJSON status (VObject [("code", VText code); ("error", VText message)]).

Definition writeStoredPasswordConnectError (e : dsm_error) : aresponse :=
  if IsOTPRequired e
  then coded 409 "stored_password_otp_required" "DSM requires a one-time password; re-enter the password and OTP to refresh this NAS trusted device"
  else match as_api_error e with
  | Some apiErr =>
      if ae_Code apiErr =? 401
      then coded 409 "stored_password_account_disabled" "DSM reports that this account is disabled"
      else if ae_Code apiErr =? 407
      then coded 409 "stored_password_ip_blocked" "DSM has blocked this client IP after failed sign-in attempts"
      else coded 409 "stored_password_rejected" "DSM rejected the stored account or password; re-enter it to reconnect"
  | None => coded 502 "stored_password_connection_failed" "DSM could not establish a session with the stored credential"
  end.

Definition connectStoredPassword (rd : areadings) (req : http_request) (name : string) :
    AH aresponse :=
  let ctx := rq_Context req in
  method_is req "POST";;
  profile ← requireProfileTLS rd req name;
  if negb (pf_PasswordStored profile)
  then fail (writeError 409 "no primary password is stored for this NAS") else
  connected ← on_repository (ConnectWithStoredPassword (ou_environment net) (ou_deviceName net)
    (ou_sign_in_stored net) ctx name (ad_secret rd) (ad_secret2 rd) (ad_wall rd) (ad_wall2 rd)
    (ad_now rd));
  match connected with
  | Err e => fail (writeStoredPasswordConnectError e)
  | Ok (connectedName, account) =>
      meta ← on_repository (session_meta ctx connectedName);
      mret (match meta with
            | Err _ => writeError 500 "read connected session status"
            | Ok meta => writeJSON 200 (VObject [("nas", VText connectedName);
                ("account", VText account); ("session_stored", VBool true);
                ("session", VSessionMeta meta)])
            end)
  end.

(** ** Provisioning *)

Record provision_input := {
  pv_AdminUser : string; pv_DeviceName : string; pv_AutoUpdate : string; pv_Analytics : bool;
  pv_PasswordLength : Z
}.
Definition provision_fields (m : object) : option provision_input :=
  user ← string_field m "admin_user"; device ← string_field m "device_name";
  update ← string_field m "auto_update"; analytics ← bool_field m "analytics";
  length' ← int_field m "password_length";
  Some {| pv_AdminUser := user; pv_DeviceName := device; pv_AutoUpdate := update;
          pv_Analytics := analytics; pv_PasswordLength := length' |}.

Definition provision_body (r : ProvisionResult) : value := VObject (
  [("nas", VText (pt_NAS r)); ("admin_user", VText (pt_AdminUser r)); ("url", VText (pt_URL r));
   ("administrator_created", VBool (pt_AdministratorCreated r));
   ("password_stored", VBool (pt_PasswordStored r));
   ("wizard_finished", VBool (pt_WizardFinished r));
   ("builtin_admin_disabled", VBool (pt_BuiltinAdminDisabled r));
   ("hardened", VBool (pt_Hardened r))]
  ++ match pt_Warnings r with [] => [] | l => [("warnings", VTexts l)] end).

Definition provisionProfile (rd : areadings) (req : http_request) (name : string) :
    AH aresponse :=
  let ctx := rq_Context req in
  method_is req "POST";;
  input ← decoded (decodeJSON
    ["admin_user"; "device_name"; "auto_update"; "analytics"; "password_length"]
    provision_fields req);
  if bool_decide (TrimSpace (pv_AdminUser input) = "")
  then fail (writeError 400 "admin_user is required") else
  requireProfileTLS rd req name;;
  cfg ← on_repository (Snapshot ctx);
  match cfg with
  | Err _ => fail (writeError 500 "load profile")
  | Ok cfg =>
      match cf_NAS cfg !! name with
      | None => fail (writeError 404 "profile not found")
      | Some runtimeProfile =>
          if negb (HasPrefix (ToLower (TrimSpace (np_URL runtimeProfile))) "https://")
          then fail (writeError 400 "provisioning requires an https NAS URL so the administrator password is not sent in cleartext") else
          result ← on_repository (ProvisionFirstAdmin (ad_secret rd) (ad_secret2 rd) (ad_wall rd)
            (ou_provisioner net) (ad_draw rd) ctx
            {| tg_BaseURL := np_URL runtimeProfile; tg_HTTPClient := runtimeProfile |}
            {| vq_Name := name; vq_URL := np_URL runtimeProfile; vq_AdminUser := pv_AdminUser input;
               vq_DeviceName := pv_DeviceName input; vq_AutoUpdate := pv_AutoUpdate input;
               vq_Analytics := pv_Analytics input;
               vq_PasswordLength := pv_PasswordLength input |});
          mret (match result with
                | Err e => writeJSON 502 (VObject [("error", VWrapped "provision failed: " e)])
                | Ok result => writeJSON 200 (provision_body result)
                end)
      end
  end.

(** ** Recovery and discovery *)

Inductive recovery_error := ErrConfirmation | ErrNotRestorable (reason : string) | ErrPending
  | ErrRecovery.

(** The inventory of the recovery manager. *)
Definition Status (m : Recovery) (ctx : context) : AH (option value) := fun s =>
  (Ok (match ctx_Err ctx with Some _ => None | None => rc_Status m (ast_restore s) end), s).

(** [Queue]: a restore is scheduled by a file, which the next start of the process reads. *)
Definition Queue (m : Recovery) (ctx : context) (name confirmation : string) :
    AH (result recovery_error ()) := fun s =>
  let refused e := (Ok (Err e), s) in
  match ctx_Err ctx with
  | Some _ => refused ErrRecovery
  | None =>
      if negb (bool_decide (confirmation = "RESTORE " +:+ name)) then refused ErrConfirmation else
      match ast_restore s with
      | Some (Json _) => refused ErrPending
      | Some Garbled => refused ErrRecovery
      | None =>
          match rc_inspect m name with
          | Some reason => refused (ErrNotRestorable reason)
          | None => if rc_written m then (Ok (Ok ()), set_restore (Some (Json name)) s)
                    else refused ErrRecovery
          end
      end
  end.

Definition recovery_text (e : recovery_error) : value :=
  match e with
  | ErrConfirmation => VText "restore confirmation does not match"
  | ErrPending => VText "a recovery restore is already pending"
  | ErrNotRestorable reason =>
      if bool_decide (reason = "") then VText "recovery set is not restorable"
      else VText ("recovery set is not restorable: " +:+ reason)
  | ErrRecovery => VText "schedule recovery restore"
  end.
Definition recovery_status (e : recovery_error) : Z :=
  match e with ErrConfirmation | ErrNotRestorable _ => 400 | ErrPending => 409
             | ErrRecovery => 500 end.

Definition recoveryAPI (req : http_request) : AH aresponse :=
  let ctx := rq_Context req in
  match ou_recovery net with
  | None => fail NotFound
  | Some m =>
      if bool_decide (rq_Path req = "/admin/api/recovery") then
        method_is req "GET";;
        status ← Status m ctx;
        mret (match status with
              | None => writeError 500 "read recovery inventory"
              | Some status => writeJSON 200 status
              end)
      else if bool_decide (rq_Path req = "/admin/api/recovery/restore") then
        method_is req "POST";;
        if negb (ou_restart net) then fail (writeError 503 "recovery restart is unavailable") else
        '(backup, confirmation) ← decoded (decodeJSON ["backup"; "confirmation"]
          (fun m => backup ← string_field m "backup"; confirmation ← string_field m "confirmation";
                    Some (backup, confirmation)) req);
        queued ← Queue m ctx backup confirmation;
        mret (match queued with
              | Err e => writeJSON (recovery_status e) (VObject [("error", recovery_text e)])
              | Ok _ => writeJSON 202 (VObject [("status", VText "scheduled");
                          ("backup", VText backup); ("restart", VBool true)])
              end)
      else fail NotFound
  end.

Definition discoverLAN (req : http_request) : AH aresponse :=
  method_is req "POST";;
  seconds ← decoded (decodeJSON ["timeout_seconds"] (fun m => int_field m "timeout_seconds") req);
  if (seconds <? 0) || (60 <? seconds)
  then fail (writeError 400 "timeout_seconds must be between 0 and 60") else
  mret (match ou_discover net seconds with
        | None => writeError 502 "LAN discovery failed"
        | Some found => writeJSON 200 found
        end).

(** ** The connection test *)

Definition stages_body (name : string) (stages : list (string * bool * value)) :
    list (string * value) := [("nas", VText name); ("stages", VStages stages)].
Definition failedStage (name : string) (e : option value) : string * bool * value :=
  (name, false, default (VText "no result") e).
Definition passedStage (name : string) : string * bool * value := (name, true, VText "").

Definition testProfile (rd : areadings) (req : http_request) (name : string) : AH aresponse :=
  let ctx := rq_Context req in
  method_is req "POST";;
  profile ← on_repository (GetProfile ctx name);
  match profile with
  | Err e => fail (writeRepositoryError e)
  | Ok profile =>
  match url_Parse (pf_URL profile) with
  | None => fail panic
  | Some parsed =>
      let failed stages := fail (writeJSON 502 (VObject (stages_body name stages))) in
      match ou_lookup net (u_Hostname parsed) with
      | Err e => failed [failedStage "dns" (Some (VText e))]
      | Ok [] => failed [failedStage "dns" None]
      | Ok _ =>
      let stages := [passedStage "dns"] in
      let port := if bool_decide (u_Port parsed = "")
                  then (if bool_decide (u_Scheme parsed = "https") then "443" else "80")
                  else u_Port parsed in
      match ou_connect net (JoinHostPort (u_Hostname parsed) port) with
      | Some e => failed (stages ++ [failedStage "tcp" (Some (VText e))])
      | None =>
      let stages := stages ++ [passedStage "tcp"] in
      match probeTLS rd profile with
      | Err (ErrTrust e) => fail (writeJSON 409 (tls_error_body profile e
          (stages_body name (stages ++ [failedStage "tls_http" (Some (VText (TrustError_Error (Some e))))]))))
      | Err e => failed (stages ++ [failedStage "tls_http" (Some (VProbe e))])
      | Ok _ =>
      cfg ← on_repository (Snapshot ctx);
      let runtimeProfile := default zero_NASProfile
        (match cfg with Ok cfg => cf_NAS cfg !! name | Err _ => None end) in
      match ou_query net runtimeProfile with
      | Some e => failed (stages ++ [failedStage "tls_http" (Some (VText e))])
      | None =>
      let stages := stages ++ [passedStage "tls_http"] in
      match ou_dsm net name with
      | Some e => failed (stages ++ [failedStage "dsm" (Some (VText e))])
      | None => mret (writeJSON 200 (VObject (stages_body name (stages ++ [passedStage "dsm"]))))
      end end end end end end end.

(** ** Web login *)

Definition prunePending (now : Z) (m : gmap string pendingEnrollment) :
    gmap string pendingEnrollment :=
  base.filter (fun p => ¬ pe_ExpiresAt p.2 < now) m.

(** The address of this page, as the browser sees it. *)
Definition opener (req : http_request) : option string :=
  if negb (bool_decide (ah_publicURL h = "")) then Some (ah_publicURL h) else
  external ← url_Parse (externalOrigin h req);
  let forwarded := TrimSpace (rq_Header req "X-Forwarded-Prefix") in
  let prefix := if negb (bool_decide (forwarded = "")) && HasPrefix forwarded "/"
                   && negb (ContainsAny forwarded [13; 10; 92; 63])
                then TrimRight1 forwarded 47 else "" in
  Some (u_Scheme external +:+ "://" +:+ u_Host external +:+ prefix).

Definition startWebLogin (rd : areadings) (req : http_request) (name : string) : AH aresponse :=
  method_is req "POST";;
  profile ← requireProfileTLS rd req name;
  cfg ← on_repository (Snapshot (rq_Context req));
  let nas := default zero_NASProfile
    (match cfg with Ok cfg => cf_NAS cfg !! name | Err _ => None end) in
  match opener req with
  | None => fail panic
  | Some opener =>
      match ou_begin net nas (pf_URL profile) (opener +:+ "/admin/") with
      | Err e => fail (writeError 400 e)
      | Ok (enrollment, loginURL, state) =>
          let id := ad_token rd in
          let expires := ad_now rd + enrollmentTTL in
          modifyS (fun s => set_pending (<[id := {| pe_ProfileName := name;
              pe_Enrollment := enrollment; pe_ExpiresAt := expires |}]>
            (prunePending (ad_now2 rd) (ast_pending s))) s);;
          mret (match url_Parse (pf_URL profile) with
                | None => panic
                | Some parsed => writeJSON 201 (VObject [
                    ("enrollment_id", VText id); ("login_url", VText loginURL);
                    ("state", VText state);
                    ("nas_origin", VText (u_Scheme parsed +:+ "://" +:+ u_Host parsed));
                    ("expires_at", VTime expires)])
                end)
      end
  end.

(** The pending enrolment of an id is taken out whatever comes of it. *)
Definition take_pending (id : string) : AH (option pendingEnrollment) := fun s =>
  (Ok (ast_pending s !! id), set_pending (delete id (ast_pending s)) s).

Definition web_session (now : Z) (r : web_result) : SessionCredential := {|
  sc_SID := wr_SID r; sc_SynoToken := wr_SynoToken r; sc_ServerPublicKey := wr_ServerPublicKey r;
  sc_LocalPublicKey := wr_LocalPublicKey r; sc_LocalPrivateKey := wr_LocalPrivateKey r;
  sc_DeviceID := wr_DeviceID r; sc_Account := wr_Account r; sc_IssuedAt := now;
  sc_ExpiresAt := zeroTime; sc_LastVerified := now |}.

Definition completeWebLogin (rd : areadings) (req : http_request) (name : string) :
    AH aresponse :=
  method_is req "POST";;
  '(id, code, rs, state) ← decoded (decodeJSON ["enrollment_id"; "code"; "rs"; "state"]
    (fun m => id ← string_field m "enrollment_id"; code ← string_field m "code";
              rs ← string_field m "rs"; state ← string_field m "state";
              Some (id, code, rs, state)) req);
  pending ← take_pending id;
  let gone := fail (writeError 410 "web-login enrollment expired or was already used") in
  match pending with
  | None => gone
  | Some pending =>
      if negb (bool_decide (pe_ProfileName pending = name)) || (pe_ExpiresAt pending <? ad_now rd)
      then gone else
      match ou_complete net (pe_Enrollment pending) code rs state with
      | None => fail (writeError 502 "DSM web-login exchange failed")
      | Some result =>
          let session := web_session (ad_wall rd) result in
          revision ← on_repository
            (EnrollSession (rq_Context req) name session (ad_secret rd) (ad_wall2 rd));
          answer revision 200 (fun _ => VObject [("nas", VText name);
            ("account", VText (wr_Account result)); ("session_stored", VBool true);
            ("renewable", VBool (CanResume session))])
      end
  end.
End vault_api.

(** * The administration API: the routes

    Source: internal/gateway/admin/handler.go: [ServeHTTP], [serveAuthenticated], [profile]
    and [status].  A request under [/admin/api/] is refused when it is too long or a
    mutation no page of the console sent; all but the setup and the logins then need a
    session; and a mutation is audited before and after it. *)

Definition AdminModeDSM : string := "dsm".
Definition is_mutation (req : http_request) : bool :=
  negb (bool_decide (rq_Method req = "GET")) && negb (bool_decide (rq_Method req = "HEAD")).
Definition outcome_of (r : aresponse) : string :=
  if 400 <=? ar_status r then "failure" else "success".

Section serve.
Context `{Unicode, NetURL, Sha256, Argon2, TimeText, KeyN, HMAC, PayloadText, AEAD,
  Codec TrustedDevice, Codec SessionCredential, X509, RFC3339, Peers}.
Context (h : Handler) (net : outside).

Definition status (req : http_request) : AH aresponse :=
  method_is req "GET";;
  health ← on_repository (health (rq_Context req));
  mret (match health with
        | Err _ => writeError 500 "read gateway status"
        | Ok health =>
            writeJSON 200 (VHealth
              (if bool_decide (is_Some (ah_platformVerifier h)) && negb (he_Initialized health)
               then {| he_SchemaVersion := he_SchemaVersion health;
                       he_ProfileCount := he_ProfileCount health;
                       he_Initialized := he_Initialized health; he_Ready := true;
                       he_AdminMode := AdminModeDSM |}
               else health))
        end).

Definition profile (rd : areadings) (req : http_request) (actor : string) : AH aresponse :=
  let parts := path_parts (TrimPrefix (rq_Path req) "/admin/api/profiles/") in
  match PathUnescape (default "" (head parts)) with
  | None => fail (writeError 400 "invalid profile name")
  | Some name =>
      if bool_decide (name = "") then fail (writeError 400 "invalid profile name") else
      let action := Join (tail parts) "/" in
      if bool_decide (action = "") then profileRecord (ou_revoke net) rd req name
      else if bool_decide (action = "test") then testProfile net rd req name
      else if bool_decide (action = "tls") then probeProfileTLS rd req name
      else if bool_decide (action = "tls/trust") then trustProfileCertificate rd req name
      else if bool_decide (action = "credentials/status") then credentialStatus req name
      else if bool_decide (action = "credentials/accounts") then passwordAccounts req name
      else if bool_decide (action = "credentials/password")
      then passwordEnrollment net rd req name
      else if bool_decide (action = "credentials/password/connect")
      then connectStoredPassword net rd req name
      else if bool_decide (action = "credentials/password/reveal")
      then revealPassword rd req name actor
      else if bool_decide (action = "provision") then provisionProfile net rd req name
      else if bool_decide (action = "credentials/session") then removeSession net rd req name
      else if bool_decide (action = "credentials/trusted-device")
      then removeTrustedDevice rd req name
      else if bool_decide (action = "weblogin/start") then startWebLogin h net rd req name
      else if bool_decide (action = "weblogin/complete") then completeWebLogin net rd req name
      else if bool_decide (action = "secrets") then applySecrets rd req name ""
      else if HasPrefix action "secrets/"
      then applySecrets rd req name
             (default "" (PathUnescape (TrimPrefix action "secrets/")))
      else fail NotFound
  end.

Definition serveAuthenticated (rd : areadings) (req : http_request) (actor token : string) :
    AH aresponse :=
  let path := rq_Path req in
  if bool_decide (path = "/admin/api/status") then status req
  else if bool_decide (path = "/admin/api/session") then session rd req token
  else if bool_decide (path = "/admin/api/logout") then logout h req token
  else if bool_decide (path = "/admin/api/password") then changePassword h rd req token
  else if bool_decide (path = "/admin/api/local-administrator")
  then configureLocalAdministrator h rd req
  else if bool_decide (path = "/admin/api/sessions/revoke-others")
  then revokeOtherSessions rd req token
  else if bool_decide (path = "/admin/api/mcp-tokens") || HasPrefix path "/admin/api/mcp-tokens/"
  then mcpTokens rd req
  else if bool_decide (path = "/admin/api/approvals") then approvals rd req actor
  else if bool_decide (path = "/admin/api/approval-requests")
          || HasPrefix path "/admin/api/approval-requests/"
  then approvalRequests rd req actor
  else if bool_decide (path = "/admin/api/audit") || bool_decide (path = "/admin/api/audit/export")
  then audit req
  else if bool_decide (path = "/admin/api/credentials/export")
  then exportCredentials h rd req actor
  else if bool_decide (path = "/admin/api/orphan-secrets")
          || HasPrefix path "/admin/api/orphan-secrets/"
  then orphanSecrets req
  else if bool_decide (path = "/admin/api/recovery")
          || bool_decide (path = "/admin/api/recovery/restore")
  then recoveryAPI net req
  else if bool_decide (path = "/admin/api/discovery") then discoverLAN net req
  else if bool_decide (path = "/admin/api/profiles") then profiles rd req
  else if HasPrefix path "/admin/api/profiles/" then profile rd req actor
  else fail NotFound.

(** What a handler writes, whichever way it ends. *)
Definition caught (m : AH aresponse) : AH aresponse := fun s =>
  match m s with
  | (Ok r, s) => (Ok r, s)
  | (Err r, s) => (Ok r, s)
  end.

(** The part of [ServeHTTP] behind the session; [inner] serves the request. *)
Definition authenticated (inner : areadings → http_request → string → string → AH aresponse)
    (rd : areadings) (req : http_request) : AH aresponse :=
  let action := adminAuditAction (rq_Path req) in
  identity ← authenticate rd req;
  match identity with
  | Err _ =>
      append_audit rd 0 req "gateway_admin" "" action "" "denied" "denied";;
      fail (writeError 401 "unauthorized")
  | Ok (actorID, sessionToken) =>
      (if is_mutation req then
         started ← append_audit rd 0 req "gateway_admin" actorID action "" "started" "";
         if is_Ok started then mret () else fail (writeError 503 "audit storage unavailable")
       else mret ());;
      response ← caught (inner rd req actorID sessionToken);
      if bool_decide (ar_status response = 0) then mret response else
      append_audit rd 1 req "gateway_admin" actorID action "" (outcome_of response) "";;
      mret response
  end.

(** The favicon and the console itself. *)
Definition page (body : string) : aresponse := writeJSON 200 (VText body).

Definition dispatch (inner : areadings → http_request → string → string → AH aresponse)
    (rd : areadings) (req : http_request) : AH aresponse :=
  let path := rq_Path req in
  let api := HasPrefix path "/admin/api/" in
  if api && (maxAdminBody <? rq_ContentLength req)
  then fail (writeError 413 "request body too large") else
  if api && is_mutation req && negb (is_Ok (validateBrowserMutation h req))
  then fail (writeError 403 "forbidden browser request") else
  if bool_decide (path = "/admin/favicon.svg") 
  then (if is_mutation req then fail methodNotAllowed else mret (page "favicon"))
  else if bool_decide (path = "/admin") || bool_decide (path = "/admin/")
  then (if bool_decide (rq_Method req = "GET") then mret (page "console")
        else fail methodNotAllowed)
  else if bool_decide (path = "/admin/api/setup/status") then setupStatus h req
  else if bool_decide (path = "/admin/api/setup") then setup h rd req
  else if bool_decide (path = "/admin/api/login") then login h rd req
  else if bool_decide (path = "/admin/api/dsm-login") then dsmLogin h rd req
  else if negb api then fail NotFound
  else authenticated inner rd req.

Definition ServeHTTP (rd : areadings) (req : http_request) (s : astate) : aresponse * astate :=
  match dispatch serveAuthenticated rd req s with
  | (Ok r, s) => (r, s)
  | (Err r, s) => (r, s)
  end.
End serve.
