(* ===== verification/Samples.v ===== *)
(** * Sample worlds

    Concrete parameters and databases on which the theorems are instantiated: one NAS
    profile, one administrator-mode token, one interactive-mode token and one approval.
    [sha256] is the identity, the Unicode tables are the ASCII ones. *)

From S2P Require Import Prelude.
From S2P Require Import GoStrings.
From S2P Require Import Bolt.
From S2P Require Import NetIP.
From S2P Require Import RemotePolicy.
From S2P Require Import Password.
From S2P Require Import StateTypes.
From S2P Require Import Records.
From S2P Require Import Policy.
From S2P Require Import Http.
From S2P Require Import PlatformAuth.
From S2P Require Import Repository.
From S2P Require Import Vault.

Definition id_sha256 : Sha256 := fun s => s.

Definition empty_db : DB := {|
  b_meta := ∅; b_profiles := ∅; b_secrets := ∅; b_migrations := ∅; b_mcp_tokens := ∅;
  b_token_digests := ∅; b_approvals := ∅; b_approval_requests := ∅; b_audit := ∅;
  b_admin_sessions := ∅; b_oauth_clients := ∅; b_oauth_refresh := ∅
|}.

Definition sample_profile : profileRecord := {|
  pr_ID := "p1"; pr_Name := "nas1"; pr_URL := "https://nas1:5001"; pr_Username := "admin";
  pr_TLSMode := "system_ca"; pr_CertificateFingerprint := ""; pr_TimeoutSeconds := 0;
  pr_Revision := 3; pr_Role := ""; pr_PasswordSecretID := "";
  pr_TrustedDeviceSecretID := ""; pr_SessionSecretID := "";
  pr_CreatedAt := 0; pr_UpdatedAt := 0
|}.

Definition sample_token (id mode : string) : MCPToken := {|
  tk_ID := id; tk_Name := "client"; tk_AuthMode := ""; tk_ApprovalMode := mode;
  tk_OAuthClientID := ""; tk_Scopes := [ScopeApply; ScopePlan; ScopeRead];
  tk_NASAllowlist := ["nas1"]; tk_CreatedAt := 0; tk_UpdatedAt := 0;
  tk_ExpiresAt := Some (1000 * Hour); tk_RevokedAt := None; tk_LastUsedAt := None
|}.

Definition sample_raw : string :=
  "dsmctl_mcp_AAAAAAAAAAAAAAAAAAAAAAAAAAAAAAAAAAAAAAAAAAA".
Definition sample_rtok : string := "BBBBBBBBBBBBBBBBBBBBBBBBBBBBBBBBBBBBBBBBBBB".
Definition sample_hash : string :=
  "0123456789abcdef0123456789abcdef0123456789abcdef0123456789abcdef".

Definition sample_record : mcpTokenRecord :=
  {| tr_MCPToken := sample_token "t1" ApprovalModeAdministrator; tr_Digest := sample_raw |}.
Definition sample_record2 : mcpTokenRecord :=
  {| tr_MCPToken := sample_token "t2" ApprovalModeInteractive; tr_Digest := "d2" |}.

Definition sample_approval : Approval := {|
  ap_ID := "a1"; ap_PlanHash := sample_hash; ap_NAS := "nas1"; ap_ProfileRevision := 3;
  ap_RequestingTokenID := "t1"; ap_Administrator := "root"; ap_CreatedAt := 0;
  ap_ExpiresAt := 10 * Minute; ap_ConsumedAt := None
|}.

Definition sample_request (id token : string) (created : Z) : PendingApproval := {|
  pa_ID := id; pa_PlanHash := sample_hash; pa_NAS := "nas1"; pa_ProfileRevision := 3;
  pa_RequestingTokenID := token; pa_RequestingToken := ""; pa_Tool := "plan_x";
  pa_Risk := "high"; pa_ResourceID := ""; pa_Summary := "delete a pool";
  pa_CreatedAt := created; pa_ExpiresAt := created + PendingApprovalTTL
|}.

Definition sample_db : DB := {|
  b_meta := {[ keyRevisionCounter := encodeUint64 3; keyDefaultProfile := "nas1" ]};
  b_profiles := {[ "nas1" := Json sample_profile ]};
  b_secrets := ∅; b_migrations := ∅;
  b_mcp_tokens := {[ "t1" := Json sample_record; "t2" := Json sample_record2 ]};
  b_token_digests := {[ sample_raw := "t1"; "d2" := "t2" ]};
  b_approvals := {[ "a1" := Json sample_approval ]};
  b_approval_requests := {[ "q1" := Json (sample_request "q1" "t1" 0) ]};
  b_audit := ∅; b_admin_sessions := ∅; b_oauth_clients := ∅; b_oauth_refresh := ∅
|}.

Definition sample_world : gworld := World sample_db ∅.

(** ** Plain parameters: encodings, hashes and the addresses of one gateway *)

Definition plain_aead : AEAD := {|
  NonceSize := 12; Seal := fun _ p _ => p; Open := fun _ c _ => Some c |}.
Definition no_device : Codec TrustedDevice := {|
  Marshal := td_ID; Unmarshal := fun s => Some {| td_Name := s; td_ID := s |} |}.
Definition no_session : Codec SessionCredential := {|
  Marshal := sc_SID; Unmarshal := fun _ => None |}.

Definition gw_url (path : string) : URL := {|
  u_Scheme := "https"; u_Host := "gw"; u_Hostname := "gw"; u_Port := ""; u_User := false;
  u_Path := path; u_EscapedPath := path; u_RawQuery := ""; u_Fragment := "";
  u_String := "https://gw" +:+ path |}.
Definition parse_gw (s : string) : option URL :=
  if bool_decide (s = "https://gw") then Some (gw_url "")
  else if bool_decide (s = "https://gw/mcp") then Some (gw_url "/mcp") else None.
Definition gw_urls : NetURL := {| url_Parse := parse_gw; url_ParseRequestURI := parse_gw |}.
Definition no_hash : Argon2 := fun _ _ _ _ _ _ => [].
Definition one_time : TimeText := {| FormatTime := fun _ => "t"; ParseTime := fun _ => Some 0 |}.
Definition whole_type : MIME := fun s => Some s.
Definition plain_mac : HMAC := fun _ m => m.
Definition no_payload : PayloadText :=
  {| payload_marshal := fun _ => ""; payload_decode := fun _ => None |}.

(** A client of the gateway, and a session of the administrator. *)
Definition gw_client : OAuthClient := {|
  oc_ID := "c1"; oc_Name := "Editor"; oc_RedirectURIs := ["https://app/cb"];
  oc_GrantTypes := ["authorization_code"]; oc_ResponseTypes := ["code"];
  oc_TokenEndpointAuthMethod := "none"; oc_CreatedAt := 0 |}.
Definition gw_db : DB :=
  set_b_oauth_clients {[ "c1" := Json gw_client ]}
  (set_b_admin_sessions {[ "cookie" := Json {|
     se_ID := "s1"; se_Username := "root"; se_Provider := "dsm"; se_CreatedAt := 0;
     se_ExpiresAt := Hour |} ]} sample_db).
