(* ===== verification/OAuthThms.v ===== *)
(** * Properties of the authorization server

    Which requests touch the pending codes, what an exchanged code stands for, and the rate
    of attempts. *)

From S2P Require Import Prelude.
From S2P Require Import GoStrings.
From S2P Require Import Bolt.
From S2P Require Import NetIP.
From S2P Require Import RemotePolicy.
From S2P Require Import Password.
From S2P Require Import StateTypes.
From S2P Require Import Records.
From S2P Require Import Policy.
From S2P Require Import Http.
From S2P Require Import PlatformAuth.
From S2P Require Import Traces.
From S2P Require Import OAuth.
From S2P Require Import Repository.
From S2P Require Import Admin.
From S2P Require Import OAuthHandler.
From S2P Require Import Samples.

(** ** Methods that leave the codes alone *)

Definition codes_eq : relation hstate := fun s s' => hs_codes s' = hs_codes s.
#[global] Instance codes_eq_preorder : PreOrder codes_eq.
Proof. split; unfold codes_eq; [done|]. intros ????. congruence. Qed.

(** Read through a step of a method whose codes are known not to change. *)
Ltac quiet_step Hr s1 x :=
  apply bind_inv in Hr as [(e & Hq & ->)|(x & s1 & Hq & Hr)].

Section quiet.
Context `{Unicode, NetURL, Sha256, Argon2, TimeText, KeyN, MIME, HMAC, PayloadText}.
Context (h : handler).

#[global] Instance quiet_repository {A} (m : GW A) : Steps codes_eq (on_repository m).
Proof. intros s r s'. unfold on_repository. destruct (m _). by intros [= <- <-]. Qed.
#[global] Instance quiet_attempt rd key limit duration :
  Steps codes_eq (allowAttempt rd key limit duration).
Proof. intros s r s'. unfold allowAttempt. destruct (allow _ _ _ _ _). by intros [= <- <-]. Qed.
#[global] Instance quiet_reset key : Steps codes_eq (resetAttempt key).
Proof. intros s r s'. unfold resetAttempt, modifyS. by intros [= <- <-]. Qed.
#[global] Instance quiet_audit rd n req a b c d e : Steps codes_eq (audit rd n req a b c d e).
Proof. unfold audit. destruct (rd_audit rd n) as [[? ?] ?]. apply _. Qed.

Ltac quiet_walk := repeat first [apply _ | steps_step | progress (cbv zeta)].

#[global] Instance quiet_register rd req : Steps codes_eq (register rd req).
Proof. unfold register. quiet_walk. Qed.
#[global] Instance quiet_protected req : Steps codes_eq (protectedResourceMetadata h req).
Proof. unfold protectedResourceMetadata. quiet_walk. Qed.
#[global] Instance quiet_server req : Steps codes_eq (authorizationServerMetadata h req).
Proof. unfold authorizationServerMetadata. quiet_walk. Qed.
#[global] Instance quiet_validate req values :
  Steps codes_eq (validateAuthorizationRequest h req values).
Proof. unfold validateAuthorizationRequest. quiet_walk. Qed.
#[global] Instance quiet_session req now : Steps codes_eq (gatewaySession req now).
Proof. unfold gatewaySession. quiet_walk. Qed.
#[global] Instance quiet_render rd req a msg : Steps codes_eq (renderAuthorization h rd req a msg).
Proof. unfold renderAuthorization. quiet_walk. Qed.
#[global] Instance quiet_deny {A} rd req a msg :
  Steps codes_eq (denyAuthorization h rd req a msg : H A).
Proof. unfold denyAuthorization. quiet_walk. Qed.
#[global] Instance quiet_values req : Steps codes_eq (request_values h req).
Proof. unfold request_values. quiet_walk. Qed.
#[global] Instance quiet_refresh rd req form : Steps codes_eq (exchangeRefreshToken h rd req form).
Proof. unfold exchangeRefreshToken. quiet_walk. Qed.
#[global] Instance quiet_approve rd req form a : Steps codes_eq (approve_as h rd req form a).
Proof.
  unfold approve_as. quiet_walk. intros s r s'. destruct (Verify _ _ _ _ _).
  by intros [= <- <-].
Qed.
End quiet.

(** ** What happens to the codes *)

Lemma cleanup_subseteq now c : cleanupCodesLocked now c ⊆ c.
Proof. apply map_filter_subseteq. Qed.

Section codes.
Context `{Unicode, NetURL, Sha256, Argon2, TimeText, KeyN, MIME, HMAC, PayloadText}.
Context (h : handler).

(** What a validated request says of the values it was made from. *)
Record request_of (req : http_request) (values : string → string) (a : authorizationRequest) :
    Prop := {
  ro_client : ar_ClientID a = TrimSpace (values "client_id");
  ro_redirect : ar_RedirectURI a = TrimSpace (values "redirect_uri");
  ro_registered : ar_RedirectURI a ∈ oc_RedirectURIs (ar_Client a);
  ro_challenge : ar_CodeChallenge a = TrimSpace (values "code_challenge");
  ro_method : values "code_challenge_method" = "S256";
  ro_scopes : normalizeScopes (TrimSpace (values "scope")) = Ok (ar_Scopes a);
  ro_resource : ar_Resource a = resource h req
}.

Lemma validated req values s a s' :
  validateAuthorizationRequest h req values s = (Ok (Ok a), s') → request_of req values a.
Proof.
  unfold validateAuthorizationRequest. cbv zeta.
  destruct (negb _); [done|]. intros (client & s1 & _ & Hr)%bind_ok_inv.
  destruct client as [client|]; [|done].
  destruct (negb (sliceContains _ _)) eqn:Er; [done|].
  destruct (negb (sameCanonicalResource _ _)); [done|].
  destruct (negb _ || negb _) eqn:Em; [done|].
  destruct (normalizeScopes _) as [scopes|] eqn:Es; [|done].
  apply bind_ok_inv in Hr as (profiles & s2 & _ & Hr).
  destruct profiles; [|done]. destruct (_ && _); [done|]. injection Hr as <- _.
  apply orb_false_elim in Em as [Em _]. apply negb_false_iff, sliceContains_true in Er. split_bools. by split.
Qed.

(** The administrator [actor] approved, in the state [s], the request [a] of the form. *)
Definition approved (rd : readings) (req : http_request) (form : string → string)
    (a : authorizationRequest) (actor : string) (s : hstate) : Prop :=
  ∃ s0 s1 s2,
    validateAuthorizationRequest h req form s = (Ok (Ok a), s0) ∧
    audit rd 0 req "gateway_admin" "" "oauth.authorize" "started" "" s0 = (Ok (Ok ()), s1) ∧
    approve_as h rd req form a s1 = (Ok actor, s2).

(** In the state [s] a code was issued by [req] under the digest [d], for the grant [g]. *)
Definition issued (rd : readings) (req : http_request) (r : response) (d : string)
    (g : authorizationGrant) (s : hstate) : Prop :=
  ∃ form a actor code params,
    rq_Method req = "POST" ∧ rq_PostForm req = Some form ∧
    sameOriginAuthorization h req = true ∧ form "decision" ≠ "deny" ∧
    approved rd req form a actor s ∧
    r = RedirectTo (ar_RedirectURI a) (("code", code) :: params) ∧ d = sha256 code ∧
    g = grant_of a actor (rd_now rd).

(** What a request may do to the codes. *)
Definition codes_step (rd : readings) (req : http_request) (r : result response response)
    (s s' : hstate) : Prop :=
  hs_codes s' ⊆ hs_codes s ∨
  ∃ p d g, r = Ok p ∧ issued rd req p d g s ∧ hs_codes s' ⊆ <[d := g]> (hs_codes s).

Lemma codes_step_eq rd req r s s' : codes_eq s s' → codes_step rd req r s s'.
Proof. intros E. left. by rewrite E. Qed.

Lemma values_post req s form s' :
  request_values h req s = (Ok form, s') → rq_Method req = "POST" →
  rq_PostForm req = Some form ∧ sameOriginAuthorization h req = true ∧ s' = s.
Proof.
  unfold request_values. intros Hr Hm. rewrite bool_decide_eq_true_2 in Hr by done. cbn in Hr.
  destruct (sameOriginAuthorization h req); [|done]. cbn in Hr.
  destruct (rq_PostForm req); [|done]. by injection Hr as <- <-.
Qed.

Lemma decide_codes rd req form a s0 s r s' :
  rq_Method req = "POST" → rq_PostForm req = Some form →
  sameOriginAuthorization h req = true → hs_codes s = hs_codes s0 →
  validateAuthorizationRequest h req form s0 = (Ok (Ok a), s) →
  decide_authorization h rd req form a s = (r, s') → codes_step rd req r s0 s'.
Proof.
  intros Hm Hf Ho E0 Ha. unfold decide_authorization. cbv zeta.
  case_bool_decide as Hd; [intros [= _ <-]; left; by rewrite E0|].
  intros Hr. apply bind_inv in Hr as [(e & Hq & _)|(started & s1 & Hq & Hr)];
    pose proof (quiet_audit _ _ _ _ _ _ _ _ _ _ _ Hq) as E1; unfold codes_eq in E1;
    rewrite E0 in E1; [by apply codes_step_eq|].
  destruct started as [[]|]; cbn [is_Ok negb] in Hr; [|injection Hr as _ <-; by apply codes_step_eq].
  apply bind_inv in Hr as [(e & Hq2 & _)|(actor & s2 & Happ & Hr)].
  { apply codes_step_eq. transitivity s1; [done|by eapply (quiet_approve h)]. }
  assert (approved rd req form a actor s0) as Happroved by (by exists s, s1, s2).
  pose proof (quiet_approve h _ _ _ _ _ _ _ Happ) as E2.
  assert (hs_codes s2 = hs_codes s0) as E by (unfold codes_eq in *; congruence).
  clear E1 E2 Hq. unfold storeAuthorizationCode in Hr.
  apply bind_inv in Hr as [(e & Hst & _)|(code & s3 & Hst & Hr)].
  { destruct (rd_code rd); [|done]. cbv zeta in Hst. by destruct (_ <=? _). }
  destruct (rd_code rd) as [raw|]; [|injection Hst as <- <-; injection Hr as _ <-; left; by rewrite E].
  cbv zeta in Hst. destruct (_ <=? _); injection Hst as <- <-.
  { injection Hr as _ <-. left. cbn. rewrite <- E. apply cleanup_subseteq. }
  apply bind_inv in Hr as [(e & Hq & _)|(u & s4 & Hq & Hr)].
  { exfalso. revert Hq. unfold audit. by destruct (rd_audit rd 1) as [[? ?] ?];
      unfold on_repository; destruct (AppendAudit _ _ _ _ _ _). }
  pose proof (quiet_audit _ _ _ _ _ _ _ _ _ _ _ Hq) as E4. injection Hr as <- <-.
  right. eexists _, (sha256 _), _. split; [done|]. split.
  - eexists form, a, actor, _, _. split_and!; done.
  - rewrite E4. cbn. rewrite <- E. by apply insert_mono, cleanup_subseteq.
Qed.

Lemma authorize_codes rd req s r s' :
  authorize h rd req s = (r, s') → codes_step rd req r s s'.
Proof.
  unfold authorize. destruct (_ && _) eqn:Em; [intros [= _ <-]; by left|]. intros Hr.
  apply bind_inv in Hr as [(e & Hv & _)|(form & s1 & Hv & Hr)];
    [apply codes_step_eq, (quiet_values h _ _ _ _ Hv)|].
  pose proof (quiet_values h _ _ _ _ Hv) as E1.
  apply bind_inv in Hr as [(e & Ha & _)|(a & s2 & Ha & Hr)].
  { apply codes_step_eq. transitivity s1; [done|by eapply (quiet_validate h)]. }
  pose proof (quiet_validate h _ _ _ _ _ Ha) as E2.
  assert (hs_codes s2 = hs_codes s) as E by (unfold codes_eq in *; congruence).
  destruct a as [a|e]; [|injection Hr as _ <-; left; by rewrite E].
  case_bool_decide as Hg.
  { apply codes_step_eq. unfold codes_eq. rewrite <- E. by eapply (quiet_render h). }
  assert (rq_Method req = "POST") as Hm
    by (apply andb_false_iff in Em as [Em|Em]; by split_bools).
  destruct (values_post _ _ _ _ Hv Hm) as (Hf & Ho & ->).
  by apply (decide_codes rd req form a s s2).
Qed.
End codes.

(** ** Exchanging a code *)

Section exchange.
Context `{Unicode, NetURL, Sha256, Argon2, TimeText, KeyN, MIME, HMAC, PayloadText}.
Context (h : handler).

Lemma audit_ok rd n req a b c d e s : ∃ r s', audit rd n req a b c d e s = (Ok r, s') ∧
  hs_codes s' = hs_codes s.
Proof.
  unfold audit, on_repository. destruct (rd_audit rd n) as [[? ?] ?].
  destruct (AppendAudit _ _ _ _ _ _). eauto.
Qed.

Lemma issued_token ctx input now rtok1 rid rtok2 (w w' : gworld) ts :
  IssueOAuthTokenSet ctx input now rtok1 rid rtok2 w = (Ok ts, w') → ot_Scopes input ≠ [] →
  tk_OAuthClientID (os_Token ts) = TrimSpace (ot_ClientID input) ∧
  tk_ExpiresAt (os_Token ts) = Some (now + OAuthAccessTokenTTL) ∧
  tk_Scopes (os_Token ts) = uniqueSorted (ot_Scopes input) ∧
  tk_NASAllowlist (os_Token ts) = uniqueSorted (ot_NASAllowlist input).
Proof.
  unfold IssueOAuthTokenSet, putMCPTokenRecord, newMCPTokenRecord. intros Hrun Hne. tx_inv.
  match goal with Hn : normalizeMCPTokenInput _ _ = Ok ?x |- _ =>
    assert (ti_ExpiresAt x = Some (now + OAuthAccessTokenTTL) ∧
      ti_Scopes x = uniqueSorted (ot_Scopes input) ∧
      ti_NASAllowlist x = uniqueSorted (ot_NASAllowlist input)) as (? & ? & ?);
    [|by split_and!] end.
  match goal with Hn : normalizeMCPTokenInput _ _ = Ok _ |- _ => revert Hn end.
  unfold normalizeMCPTokenInput. cbn [ti_Name ti_Scopes ti_NASAllowlist ti_ExpiresAt ti_ApprovalMode].
  cbv zeta. repeat match goal with |- (if ?b then _ else _) = _ → _ => destruct b; [done|] end.
  intros [= <-]. cbn. by destruct (ot_Scopes input).
Qed.

(** The method ended without a token. *)
Ltac refused Hr := injection Hr as <- <-; split; [done|by intros ??? [?|?]].

Lemma exchange_codes rd req form s r s' :
  exchangeAuthorizationCode rd req form s = (r, s') →
  hs_codes s' ⊆ hs_codes s ∧
  ∀ ts scopes res, r = Ok (TokenSet ts scopes res) ∨ r = Err (TokenSet ts scopes res) →
    ∃ g, hs_codes s !! sha256 (form "code") = Some g ∧ rd_now rd < ag_ExpiresAt g ∧
      code_bound form g = true ∧ scopes = ag_Scopes g ∧ res = ag_Resource g ∧
      hs_codes s' !! sha256 (form "code") = None ∧
      (ag_Scopes g ≠ [] → tk_OAuthClientID (os_Token ts) = TrimSpace (ag_ClientID g) ∧
        tk_Scopes (os_Token ts) = uniqueSorted (ag_Scopes g) ∧
        tk_NASAllowlist (os_Token ts) = uniqueSorted (ag_NASAllowlist g)).
Proof.
  unfold exchangeAuthorizationCode. intros Hr.
  apply bind_inv in Hr as [(e & Hc & _)|(grant & s1 & Hc & Hr)];
    unfold consumeAuthorizationCode in Hc; [by destruct (negb _)|].
  destruct (negb (HasPrefix _ _)); injection Hc as <- <-; [refused Hr|].
  set (c := cleanupCodesLocked (rd_now rd) (hs_codes s)) in *.
  set (d := sha256 (form "code")) in *.
  assert (delete d c ⊆ hs_codes s) as Hsub
    by (etrans; [apply delete_subseteq|apply cleanup_subseteq]).
  destruct (c !! d) as [g|] eqn:Ec; [|refused Hr].
  destruct (rd_now rd <? ag_ExpiresAt g) eqn:Et; [|refused Hr].
  destruct (code_bound form g) eqn:Eb; [|refused Hr]. cbn [negb] in Hr. cbv zeta in Hr.
  edestruct audit_ok as (started & s2 & Ha & E2).
  unfold mbind at 1, ST_bind at 1 in Hr. rewrite Ha in Hr. cbn in E2.
  destruct (negb (is_Ok started));
    [rewrite <- E2 in Hsub; refused Hr|].
  destruct (rd_issue rd) as [[[now rtok1] rid] rtok2].
  unfold mbind at 1, ST_bind at 1, on_repository at 1 in Hr.
  destruct (IssueOAuthTokenSet _ _ _ _ _ _ _) as [tokens w] eqn:Ei.
  set (s3 := set_repository w s2) in *. destruct tokens as [ts|e].
  - edestruct (audit_ok rd 1 req) as (v & s4 & Hv & E4).
    unfold mbind at 1, ST_bind at 1 in Hr. rewrite Hv in Hr. injection Hr as <- <-.
    rewrite E4. cbn [s3 hs_codes set_repository]. rewrite E2. split; [done|].
    intros ts' scopes res [[= <- <- <-]|?]; [|done]. exists g. apply Z.ltb_lt in Et.
    split_and!; try done.
    + eapply lookup_weaken; [exact Ec|apply cleanup_subseteq].
    + apply lookup_delete_eq.
    + intros Hne. destruct (issued_token _ _ _ _ _ _ _ _ _ Ei Hne) as (Hcl & _ & ? & ?).
      split; [|by split]. rewrite Hcl. cbn [ot_ClientID]. f_equal.
      unfold code_bound in Eb. by split_bools.
  - edestruct (audit_ok rd 1 req) as (v & s4 & Hv & E4).
    unfold mbind at 1, ST_bind at 1 in Hr. rewrite Hv in Hr. injection Hr as <- <-.
    rewrite E4. cbn [s3 hs_codes set_repository]. rewrite E2. split; [done|by intros ??? [?|?]].
Qed.
End exchange.

(** ** Histories *)

Section history.
Context `{Unicode, NetURL, Sha256, Argon2, TimeText, KeyN, MIME, HMAC, PayloadText}.
Context (h : handler).

(** The server of a handler, with the pending codes as its tickets. *)
Definition oauth_server : server := {|
  sv_serve := fun x s => ServeHTTP h x.1 x.2 s; sv_pending := hs_codes |}.
(** The state after requests served one after the other, and their responses. *)
Definition serve_state (s : hstate) (l : list (readings * http_request)) : hstate :=
  run_state oauth_server s l.
Definition serve_run (s : hstate) (l : list (readings * http_request)) : list response :=
  run oauth_server s l.

(** The request presents a code for exchange. *)
Definition exchanges (req : http_request) (form : string → string) : Prop :=
  rq_Path req = "/oauth/token" ∧ rq_PostForm req = Some form ∧
  form "grant_type" = "authorization_code".

(** The tokens of a grant went to whoever proved to be its client, in time. *)
Definition honours (rd : readings) (form : string → string) (ts : OAuthTokenSet)
    (scopes : list string) (res : string) (g : authorizationGrant) : Prop :=
  rd_now rd < ag_ExpiresAt g ∧ code_bound form g = true ∧ scopes = ag_Scopes g ∧
  res = ag_Resource g ∧
  (ag_Scopes g ≠ [] → tk_OAuthClientID (os_Token ts) = TrimSpace (ag_ClientID g) ∧
    tk_Scopes (os_Token ts) = uniqueSorted (ag_Scopes g) ∧
    tk_NASAllowlist (os_Token ts) = uniqueSorted (ag_NASAllowlist g)).

Lemma route_codes rd req s r s' : route h rd req s = (r, s') → codes_step h rd req r s s'.
Proof.
  unfold route. cbv zeta. intros Hr.
  case_bool_decide; [apply codes_step_eq; by eapply (quiet_protected h)|].
  case_bool_decide; [apply codes_step_eq; by eapply (quiet_server h)|].
  case_bool_decide; [apply codes_step_eq; by eapply quiet_register|].
  case_bool_decide; [by apply authorize_codes|].
  case_bool_decide.
  { unfold token in Hr. destruct (negb _); [injection Hr as _ <-; by left|].
    destruct (negb _); [injection Hr as _ <-; by left|].
    destruct (rq_PostForm req) as [form|]; [|injection Hr as _ <-; by left].
    destruct (negb _); [injection Hr as _ <-; by left|].
    case_bool_decide; [by left; eapply (exchange_codes rd req form)|].
    case_bool_decide; [apply codes_step_eq; by eapply (quiet_refresh h)|].
    injection Hr as _ <-; by left. }
  case_bool_decide; injection Hr as _ <-; by left.
Qed.

Lemma serve_codes rd req s r s' : ServeHTTP h rd req s = (r, s') →
  hs_codes s' ⊆ hs_codes s ∨
  ∃ d g, issued h rd req r d g s ∧ hs_codes s' ⊆ <[d := g]> (hs_codes s).
Proof.
  unfold ServeHTTP. destruct (route h rd req s) as [res s1] eqn:Hr. apply route_codes in Hr.
  destruct Hr as [Hs|(p & d & g & -> & Hi & Hs)].
  - destruct res; intros [= <- <-]; by left.
  - intros [= <- <-]. right. eauto.
Qed.

Lemma serve_exchange rd req form s ts scopes res s' :
  ServeHTTP h rd req s = (TokenSet ts scopes res, s') → exchanges req form →
  ∃ g, hs_codes s !! sha256 (form "code") = Some g ∧ honours rd form ts scopes res g ∧
    hs_codes s' !! sha256 (form "code") = None.
Proof.
  intros Hs (Hp & Hf & Hg). unfold ServeHTTP, route, token in Hs. rewrite Hp, Hf, Hg in Hs.
  cbv zeta in Hs. repeat (rewrite bool_decide_eq_false_2 in Hs by (intros Hx; set_solver)).
  rewrite (bool_decide_eq_true_2 ("/oauth/token" = _)) in Hs by done.
  rewrite (bool_decide_eq_true_2 ("authorization_code" = _)) in Hs by done.
  destruct (negb (bool_decide (rq_Method req = _))); [done|]. destruct (negb _); [done|].
  destruct (negb _); [done|].
  destruct (exchangeAuthorizationCode rd req form s) as [r s1] eqn:He.
  destruct (exchange_codes _ _ _ _ _ _ He) as [_ Hx].
  assert ((r = Ok (TokenSet ts scopes res) ∨ r = Err (TokenSet ts scopes res)) ∧ s1 = s')
    as [Hr ->] by (destruct r; simplify_eq; auto).
  destruct (Hx _ _ _ Hr) as (g & ? & ? & ? & ? & ? & ? & ?). by exists g.
Qed.

(** The answer to an exchange of the code with the digest [d] is a set of tokens. *)
Definition exchanged (x : readings * http_request) (r : response) (d : string) : Prop :=
  ∃ form ts scopes res, exchanges x.2 form ∧ r = TokenSet ts scopes res ∧ d = sha256 (form "code").
Definition honoured (x : readings * http_request) (r : response) (g : authorizationGrant) : Prop :=
  ∀ form ts scopes res, exchanges x.2 form → r = TokenSet ts scopes res →
    honours x.1 form ts scopes res g.

#[global] Instance codes_single_use : SingleUse oauth_server
  (fun x r d g s => issued h x.1 x.2 r d g s) exchanged honoured.
Proof.
  split.
  - intros [rd req] s r s' Hs. by apply (serve_codes rd req).
  - intros [rd req] s r s' d Hs (form & ts & scopes & res & Hx & -> & ->).
    destruct (serve_exchange rd req form s ts scopes res s' Hs Hx) as (g & Hg & Hh & Hn).
    exists g. split; [done|]. split; [|done].
    intros form' ts' scopes' res' (_ & Hf & _) [= <- <- <-]. destruct Hx as (_ & Hf' & _).
    cbn in Hf, Hf'. rewrite Hf in Hf'. by injection Hf' as ->.
Qed.
End history.

(** *** The scopes of a request are never empty *)

Lemma normalize_nonempty `{Unicode} raw scopes : normalizeScopes raw = Ok scopes → scopes ≠ [].
Proof.
  unfold normalizeScopes. cbv zeta.
  destruct (scopes_loop _ _) as [l|]; [|done]. cbn. case_bool_decide as Hl; [done|].
  intros [= <-] Hs. apply Hl, Permutation_nil. rewrite <- Hs. unfold sort_strings.
  by rewrite merge_sort_Permutation.
Qed.

(** C30: an authorization code is exchanged at most once, for what an administrator approved
    and by the client it was issued to.  In every history that starts without pending codes,
    an exchange that is answered with tokens follows a request, from a page of this gateway,
    in which an administrator was authenticated and that was redirected to the client's
    registered URI with that very code; at most five minutes lie between them; the exchange
    named the client and the URI of that request and its verifier hashes to the challenge;
    the token belongs to the client and has the scopes and devices of the request; and in
    between no exchange of the code was answered with tokens. *)
Theorem code_exchanged_once
    `{Unicode, NetURL, Sha256, Argon2, TimeText, KeyN, MIME, HMAC, PayloadText}
    h s l j rd req form ts scopes res :
  hs_codes s = ∅ → l !! j = Some (rd, req) →
  serve_run h s l !! j = Some (TokenSet ts scopes res) → exchanges req form →
  ∃ i rd' req' form' a actor code params, (i < j)%nat ∧ l !! i = Some (rd', req') ∧
    rq_Method req' = "POST" ∧ rq_PostForm req' = Some form' ∧
    sameOriginAuthorization h req' = true ∧
    approved h rd' req' form' a actor (serve_state h s (take i l)) ∧
    serve_run h s l !! i = Some (RedirectTo (ar_RedirectURI a) (("code", code) :: params)) ∧
    sha256 (form "code") = sha256 code ∧ ar_RedirectURI a ∈ oc_RedirectURIs (ar_Client a) ∧
    rd_now rd < rd_now rd' + authorizationTTL ∧
    TrimSpace (form "client_id") = ar_ClientID a ∧
    TrimSpace (form "redirect_uri") = ar_RedirectURI a ∧
    verifyPKCE (TrimSpace (form "code_verifier")) (TrimSpace (form' "code_challenge")) = true ∧
    tk_OAuthClientID (os_Token ts) = ar_ClientID a ∧
    tk_Scopes (os_Token ts) = uniqueSorted (ar_Scopes a) ∧
    tk_NASAllowlist (os_Token ts) = uniqueSorted (ar_NASAllowlist a) ∧
    ∀ k rd2 req2 form2 ts2 scopes2 res2, (i < k < j)%nat → l !! k = Some (rd2, req2) →
      exchanges req2 form2 → sha256 (form2 "code") = sha256 code →
      serve_run h s l !! k ≠ Some (TokenSet ts2 scopes2 res2).
Proof.
  intros Hs Hl Hr Hx.
  destruct (redeemed_once (oauth_server h) _ _ _ s l j (rd, req) (TokenSet ts scopes res)
    (sha256 (form "code")) Hs Hl Hr) as (g & i & Hh & Hi & ([rd' req'] & r' & Hli & Hri & Hiss) & Hno);
    [by exists form, ts, scopes, res|].
  destruct (Hh form ts scopes res Hx eq_refl) as (Ht & Hb & -> & -> & Htok). cbn [fst snd] in *.
  destruct Hiss as (form' & a & actor & code & params & Hm & Hf & Ho & _ & Ha & -> & Hd & ->).
  pose proof Ha as (s0 & _ & _ & Hv & _). apply validated in Hv.
  destruct Hv as [Hv1 Hv2 Hreg Hv4 _ Hsc _]. unfold code_bound in Hb. cbn in Hb, Ht, Htok.
  split_bools. destruct Htok as (Hc & ? & ?); [by eapply normalize_nonempty|].
  exists i, rd', req', form', a, actor, code, params. split_and!; try done.
  - by rewrite <- Hv4.
  - rewrite Hc, Hv1. apply TrimSpace_idem.
  - intros k rd2 req2 form2 ts2 scopes2 res2 Hk Hlk Hxk Hdk Hrk. apply (Hno k Hk).
    exists (rd2, req2), (TokenSet ts2 scopes2 res2). split_and!; [done..|].
    exists form2, ts2, scopes2, res2. by rewrite Hdk, Hd.
Qed.

(** ** A history: approval, exchange, and the same code again *)

Definition gw_handler : handler := {|
  h_publicURL := "https://gw"; h_platformVerifier := None;
  h_passwordHash := DefaultPasswordHashParameters |}.
Definition gw_state : hstate := {|
  hs_repository := World gw_db ∅; hs_codes := ∅; hs_limits := ∅; hs_seen := ∅ |}.

Definition lookup_field (l : list (string * string)) (k : string) : string :=
  default "" (snd <$> head (base.filter (fun p => p.1 = k) l)).
Definition post (path : string) (headers form : list (string * string)) : http_request := {|
  rq_Method := "POST"; rq_Path := path; rq_Header := lookup_field headers;
  rq_Query := fun _ => ""; rq_PostForm := Some (lookup_field form);
  rq_Cookie := fun k => if bool_decide (k = administratorCookie) then Some "cookie" else None;
  rq_JSON := None; rq_BodyLength := Some 0; rq_ContentLength := 0; rq_Host := "gw";
  rq_RemoteAddr := "10.0.0.9:1000"; rq_TLS := true; rq_Context := Background |}.
Definition reading (now : Z) (rid : string) : readings := {|
  rd_audit := fun n => (None, now, rid +:+ (if decide (n = 0%nat) then "-a" else "-b"));
  rd_now := now; rd_attempt := now; rd_code := Some "codecode"; rd_nonce := Some "n";
  rd_session := now; rd_page_session := now; rd_platform := now; rd_slot := None;
  rd_others := fun w => w; rd_client := ("c2", now); rd_issue := (now, "r1", rid, "r2");
  rd_refresh := ("r3", "r4", now) |}.

Definition pkce_verifier : string := of_bytes (replicate 43 97).
Definition approve_form : list (string * string) := [
  ("response_type", "code"); ("client_id", "c1"); ("redirect_uri", "https://app/cb");
  ("resource", "https://gw/mcp"); ("code_challenge", RawURLEncode pkce_verifier);
  ("code_challenge_method", "S256"); ("scope", "nas.read"); ("state", "xyz");
  ("decision", "approve"); ("auth_method", "session")].
Definition gw_code : string := oauthCodePrefix +:+ RawURLEncode "codecode".
Definition exchange_form : list (string * string) := [
  ("grant_type", "authorization_code"); ("code", gw_code); ("client_id", "c1");
  ("redirect_uri", "https://app/cb"); ("resource", "https://gw/mcp");
  ("code_verifier", pkce_verifier)].
Definition exchange_request : http_request :=
  post "/oauth/token" [("Content-Type", "application/x-www-form-urlencoded")] exchange_form.
Definition gw_history : list (readings * http_request) := [
  (reading 1000 "x1", post "/oauth/authorize" [("Origin", "https://gw")] approve_form);
  (reading 2000 "x2", exchange_request); (reading 3000 "x3", exchange_request)].
Definition gw_run : list response :=
  @serve_run ascii_tables gw_urls id_sha256 no_hash one_time keyN_committed whole_type plain_mac
    no_payload gw_handler gw_state gw_history.

Lemma code_exchanged_once_witness :
  ∃ ts, gw_run = [
    RedirectTo "https://app/cb" [("code", gw_code); ("state", "xyz")];
    TokenSet ts [ScopeRead] "https://gw/mcp";
    OAuthError 400 "invalid_grant" (Text "authorization code is invalid or expired")] ∧
    tk_OAuthClientID (os_Token ts) = "c1" ∧ ∃ i, (i < 1)%nat.
Proof.
  assert (∃ ts, gw_run = [
    RedirectTo "https://app/cb" [("code", gw_code); ("state", "xyz")];
    TokenSet ts [ScopeRead] "https://gw/mcp";
    OAuthError 400 "invalid_grant" (Text "authorization code is invalid or expired")])
    as [ts Hr] by (eexists; vm_compute; reflexivity).
  exists ts. split; [exact Hr|].
  destruct (@code_exchanged_once ascii_tables gw_urls id_sha256 no_hash one_time keyN_committed
    whole_type plain_mac no_payload gw_handler gw_state gw_history 1 (reading 2000 "x2")
    exchange_request (lookup_field exchange_form) ts [ScopeRead] "https://gw/mcp" eq_refl
    eq_refl (f_equal (fun l => l !! 1%nat) Hr) (conj eq_refl (conj eq_refl eq_refl)))
    as (i & rd' & req' & form' & a & actor & code & params & Hi & _ & _ & _ & _ & _ & _ & _ & _ &
        _ & Hc & _ & _ & Ht & _).
  split; [|exists i; exact Hi]. rewrite Ht, <- Hc. vm_compute. reflexivity.
Defined.
