(* ===== verification/PolicyThms.v ===== *)
(** * Properties of tokens, approvals and admission

    What package state promises to the remote gateway: an admitted apply was authorised
    by the current token, profile revision and, at high risk, by one unused approval;
    approvals and interactive grants are single-use over any sequence of admissions. *)

From S2P Require Import Prelude.
From S2P Require Import GoStrings.
From S2P Require Import Bolt.
From S2P Require Import RemotePolicy.
From S2P Require Import StateTypes.
From S2P Require Import Records.
From S2P Require Import Policy.
From S2P Require Import Samples.

(** ** Specification vocabulary *)

(** The current credential allows an apply on [nas] at [revision]. *)
Definition apply_authorised (d : DB) (tokenID nas : string) (revision now : Z)
    (token : mcpTokenRecord) : Prop :=
  readMCPToken d tokenID = Ok token ∧
  token_active (tr_MCPToken token) now = true ∧
  ScopeApply ∈ tk_Scopes (tr_MCPToken token) ∧
  nas ∈ tk_NASAllowlist (tr_MCPToken token) ∧
  ∃ profile, readProfile d nas = Ok profile ∧ pr_Revision profile = revision.

(** How a high-risk admission was authorised: an administrator approval, now consumed... *)
Definition admitted_by_approval (w w' : gworld) (tokenID nas : string) (revision : Z)
    (hash : string) (now : Z) : Prop :=
  ∃ k a, b_approvals (w_db w) !! k = Some (Json a) ∧
    approval_usable tokenID nas revision hash now a = true ∧
    ap_Administrator a ≠ "" ∧
    b_approvals (w_db w') =
      <[ap_ID a := Json (set_ap_ConsumedAt (Some now) a)]> (b_approvals (w_db w)) ∧
    w_rest w' = w_rest w.

(** ... or the grant of the request, for exactly this plan and session, now used. *)
Definition admitted_by_grant (w w' : gworld) (ctx : context) (tokenID nas : string)
    (revision : Z) (hash : string) : Prop :=
  ∃ g sid l, ctx_grant ctx = Some g ∧ MCPSessionID ctx = Some sid ∧
    gr_TokenID g = tokenID ∧ gr_SessionID g = sid ∧ gr_NAS g = nas ∧
    gr_ProfileRevision g = revision ∧ gr_PlanHash g = hash ∧
    gr_used g = Some l ∧ w_rest w !! l = Some false ∧
    w_rest w' = <[l := true]> (w_rest w) ∧
    b_approvals (w_db w') = b_approvals (w_db w).

(** One admission request as the gateway issues it. *)
Record admission := {
  ad_ctx : context;
  ad_auditFailure : option error;
  ad_tokenID : string;
  ad_nas : string;
  ad_revision : Z;
  ad_hash : string;
  ad_risk : string;
  ad_now : Z;
  ad_wall : Z;
  ad_rid1 : string;
  ad_rid2 : string
}.

(** [db.Update] serialises admissions: a history is a sequence of them. *)
Definition run_admission `{Unicode, KeyN} (r : admission) : GW () :=
  AdmitRemoteApply (ad_ctx r) (ad_auditFailure r) (ad_tokenID r) (ad_nas r)
    (ad_revision r) (ad_hash r) (ad_risk r) (ad_now r) (ad_wall r) (ad_rid1 r) (ad_rid2 r).

(** High-risk admissions of the plan [hash] by [tokenID] on [nas] at [revision]. *)
Definition is_high_for `{Unicode} (tokenID nas : string) (revision : Z) (hash : string)
    (r : admission) : bool :=
  bool_decide (ad_tokenID r = tokenID) && bool_decide (ad_nas r = nas)
  && (ad_revision r =? revision) && bool_decide (ad_hash r = hash)
  && EqualFold (ad_risk r) "high".

(** Number of requests of the history that are such admissions and succeed. *)
Fixpoint successes `{Unicode, KeyN} (f : admission → bool) (rs : list admission)
    (w : gworld) : Z :=
  match rs with
  | [] => 0
  | r :: rs =>
      let '(res, w') := run_admission r w in
      (if f r && is_Ok res then 1 else 0) + successes f rs w'
  end.

(** Unconsumed approvals for the plan, and grants not used yet. *)
Definition open_for (tokenID nas : string) (revision : Z) (hash : string)
    (v : stored Approval) : bool :=
  match v with
  | Json a => bool_decide (ap_ConsumedAt a = None) && bool_decide (ap_PlanHash a = hash)
      && bool_decide (ap_NAS a = nas) && (ap_ProfileRevision a =? revision)
      && bool_decide (ap_RequestingTokenID a = tokenID)
  | Garbled => false
  end.
Definition open_approvals (tokenID nas : string) (revision : Z) (hash : string)
    (b : bucket Approval) : gmap string (stored Approval) :=
  base.filter (fun p => open_for tokenID nas revision hash p.2 = true) b.
Definition clear_flags (fl : flags) : gmap nat bool := base.filter (fun p => p.2 = false) fl.

Definition budget (tokenID nas : string) (revision : Z) (hash : string) (w : gworld) : Z :=
  count (open_approvals tokenID nas revision hash (b_approvals (w_db w)))
  + Z.of_nat (size (clear_flags (w_rest w))).

(** Approvals are stored under their id, as [createApprovalTx] writes them. *)
Definition approvals_keyed (b : bucket Approval) : Prop :=
  ∀ k a, b !! k = Some (Json a) → ap_ID a = k.

(** ** Lemmas *)

Lemma scan_approvals_Some f d a :
  scan_approvals f d = Ok (Some a) →
  ∃ k, b_approvals d !! k = Some (Json a) ∧ f a = true ∧ ap_ID a ≠ "".
Proof.
  unfold scan_approvals. destruct (scan f _) as [[[k a']|]|] eqn:E; [|done|done].
  case_bool_decide; intros; simplify_eq.
  apply scan_Some_Some in E as [E ?]. apply elem_of_entries in E. eauto.
Qed.

(** Every case of a run of [AppendAudit]'s transaction step: only the log changes. *)
Lemma appendAuditTx_run `{KeyN} start wall rid e (w : gworld) r w' :
  appendAuditTx start wall rid e w = (r, w') →
  r = Ok () ∧
  w' = World (set_b_audit (audit_append start wall rid e (b_audit (w_db w))) (w_db w))
             (w_rest w).
Proof. unfold appendAuditTx. by intros [-> ->]%modifyDB_ok. Qed.

Section admission.
Context `{Unicode, KeyN}.

Lemma admit_interactive_ok ctx start mode tokenID nas revision hash now wall rid
    (w w' : gworld) u :
  admit_interactive ctx start mode tokenID nas revision hash now wall rid w = (Ok u, w') →
  mode = ApprovalModeInteractive ∧
  admitted_by_grant w w' ctx tokenID nas revision hash.
Proof.
  unfold admit_interactive. intros Hrun. tx_inv. split_bools. split; [done|].
  destruct (InteractiveApprovalFromContext ctx) as [g|] eqn:Eg; [|discriminate].
  apply InteractiveApprovalFromContext_Some in Eg.
  destruct (MCPSessionID ctx) as [sid|] eqn:Es; [|discriminate].
  tx_inv. unfold consume_grant in *.
  destruct (ConsumeMatches g tokenID sid nas revision hash (w_rest w)) as [b fl] eqn:Ec.
  simplify_eq.
  apply ConsumeMatches_true in Ec as (?&?&?&?&?&l&?&?&->).
  match goal with Ha : appendAuditTx _ _ _ _ _ = _ |- _ =>
    apply appendAuditTx_run in Ha as [_ ->] end.
  exists g, sid, l. simpl. by repeat split.
Qed.

Lemma findApproval_Some d tokenID nas revision hash now a :
  findApproval d tokenID nas revision hash now = Ok (Some a) →
  ∃ k, b_approvals d !! k = Some (Json a) ∧
    approval_usable tokenID nas revision hash now a = true ∧ ap_Administrator a ≠ "".
Proof.
  intros (k & Hk & Hu & _)%scan_approvals_Some. split_bools. eauto.
Qed.

(** What a successful admission establishes, everything the theorems below use. *)
Lemma admit_inv ctx af tokenID nas revision hash risk now wall rid1 rid2 (w w' : gworld) u :
  AdmitRemoteApply ctx af tokenID nas revision hash risk now wall rid1 rid2 w = (Ok u, w') →
  ctx_Err ctx = None ∧ af = None ∧
  ∃ token, apply_authorised (w_db w) tokenID nas revision now token ∧
  (if EqualFold risk "high"
   then admitted_by_approval w w' tokenID nas revision hash now
        ∨ tk_ApprovalMode (tr_MCPToken token) = ApprovalModeInteractive
          ∧ admitted_by_grant w w' ctx tokenID nas revision hash
   else b_approvals (w_db w') = b_approvals (w_db w) ∧ w_rest w' = w_rest w).
Proof.
  unfold AdmitRemoteApply. intros Hrun. tx_inv.
  match goal with Hc : ctx_check _ _ = _ |- _ => apply ctx_check_ok in Hc as [Hc ->] end.
  split; [done|]. destruct af as [e|]; [discriminate|]. split; [done|]. tx_inv.
  destruct (readProfile _ nas) as [profile|] eqn:Ep; [|done]. split_bools.
  match goal with Ha : appendAuditTx _ _ _ _ _ = _ |- _ =>
    apply appendAuditTx_run in Ha as [_ ->] end.
  match goal with Hr : readMCPToken _ _ = Ok ?t |- _ => exists t end.
  split.
  { repeat split; eauto using validateActiveToken_Ok; by apply sliceContains_true. }
  destruct (EqualFold risk "high"); [|tx_inv; done].
  tx_inv. match goal with Hc : findApproval _ _ _ _ _ _ = Ok ?x |- _ =>
    destruct x as [a|]; [left|right] end.
  - match goal with Hc : findApproval _ _ _ _ _ _ = _ |- _ =>
      apply findApproval_Some in Hc as (k & ? & ? & ?) end.
    unfold put_approval in *. tx_inv. by exists k, a.
  - match goal with Hc : admit_interactive _ _ _ _ _ _ _ _ _ _ _ = _ |- _ =>
      apply admit_interactive_ok in Hc as [? Hg] end.
    split; [done|]. destruct Hg as (g & sid & l & Hg). exists g, sid, l. exact Hg.
Qed.

(** Failed runs that leave the flags alone. *)
Definition err_rest {A} (m : GW A) : Prop :=
  ∀ w e w', m w = (Err e, w') → w_rest w' = w_rest w.

Lemma err_rest_steps {A} (m : GW A) : Steps rest_eq m → err_rest m.
Proof. intros Hm w e w' Hw. exact (Hm _ _ _ Hw). Qed.

Lemma err_rest_bind {A B} (m : GW A) (k : A → GW B) :
  Steps rest_eq m → (∀ a, err_rest (k a)) → err_rest (m ≫= k).
Proof.
  intros Hm Hk w e w' [Hw|(a & w1 & Hw & Hk')]%bind_err_inv.
  - exact (Hm _ _ _ Hw).
  - rewrite (Hk _ _ _ _ Hk'). exact (Hm _ _ _ Hw).
Qed.

Lemma err_rest_last {A} (m : GW A) start wall rid ev :
  err_rest m → err_rest (m;; appendAuditTx start wall rid ev).
Proof.
  intros Hm w e w' [Hw|(a & w1 & Hw & Hk)]%bind_err_inv; [by eapply Hm|].
  by apply appendAuditTx_run in Hk as [? _].
Qed.

Lemma admit_interactive_err ctx start mode tokenID nas revision hash now wall rid :
  err_rest (admit_interactive ctx start mode tokenID nas revision hash now wall rid).
Proof.
  unfold admit_interactive. apply err_rest_bind; [steps_walk|intros _].
  destruct (InteractiveApprovalFromContext ctx) as [g|]; [|apply err_rest_steps; steps_walk].
  destruct (MCPSessionID ctx) as [sid|]; [|apply err_rest_steps; steps_walk].
  intros w e w' [Hw|(b & w1 & Hw & Hk)]%bind_err_inv.
  { unfold consume_grant in Hw. by destruct (ConsumeMatches _ _ _ _ _ _ _). }
  apply bind_err_inv in Hk as [Hk|(? & ? & _ & Hk)].
  2:{ by apply appendAuditTx_run in Hk as [? _]. }
  apply check_err_inv in Hk as (-> & _ & ->).
  unfold consume_grant, ConsumeMatches, cas_used in Hw.
  repeat case_match; by simplify_eq.
Qed.

(** A refused admission changes nothing. *)
Lemma admit_err_inv r e (w w' : gworld) : run_admission r w = (Err e, w') → w' = w.
Proof.
  unfold run_admission, AdmitRemoteApply. intros Hrun.
  assert (w_db w' = w_db w ∧ w_rest w' = w_rest w) as [? ?];
    [|destruct w, w'; simpl in *; congruence].
  apply bind_err_inv in Hrun as [Hrun|(u1 & w1 & Hc & Hrun)].
  { unfold ctx_check in Hrun. destruct (ctx_Err _); st_unfold; by simplify_eq. }
  apply ctx_check_ok in Hc as [_ ->].
  apply bind_err_inv in Hrun as [Hrun|(u2 & w2 & Hc & Hrun)].
  { destruct (ad_auditFailure r); st_unfold; by simplify_eq. }
  assert (w2 = w) as -> by (destruct (ad_auditFailure r); st_unfold; by simplify_eq).
  split; [by eapply Update_err_db|].
  apply Update_err_inv in Hrun as (w3 & Hrun & ->).
  match type of Hrun with ?body _ = _ => assert (err_rest body) as Hb end;
    [|exact (Hb _ _ _ Hrun)].
  apply err_rest_bind; [steps_walk|intros d]. cbv zeta.
  do 4 (apply err_rest_bind; [steps_walk|intros ?]).
  apply err_rest_last. destruct (EqualFold _ _); [|apply err_rest_steps; steps_walk].
  apply err_rest_bind; [steps_walk|intros [?|]].
  - apply err_rest_steps. unfold put_approval. steps_walk.
  - apply admit_interactive_err.
Qed.

(** *** The admission budget *)

Lemma open_approvals_insert_consumed tokenID nas revision hash now a k
    (b : bucket Approval) :
  ap_ID a = k → b !! k = Some (Json a) →
  let b' := <[k := Json (set_ap_ConsumedAt (Some now) a)]> b in
  open_approvals tokenID nas revision hash b' =
    delete k (open_approvals tokenID nas revision hash b).
Proof.
  intros Hk Hb. unfold open_approvals. rewrite map_filter_insert_False.
  - by rewrite map_filter_delete.
  - done.
Qed.

Lemma clear_flags_set fl l :
  fl !! l = Some false →
  Z.of_nat (size (clear_flags (<[l := true]> fl))) = Z.of_nat (size (clear_flags fl)) - 1.
Proof.
  intros Hl. unfold clear_flags. rewrite map_filter_insert_False by done.
  rewrite map_filter_delete.
  rewrite map_size_delete_Some by (exists false; by apply map_lookup_filter_Some).
  assert (size (base.filter (λ p, p.2 = false) fl) ≠ 0%nat); [|lia].
  intros Hz%map_size_empty_iff.
  assert (base.filter (λ p, p.2 = false) fl !! l = Some false) as Hf
    by (by apply map_lookup_filter_Some).
  by rewrite Hz, lookup_empty in Hf.
Qed.

Lemma open_for_usable tokenID nas revision hash now a :
  approval_usable tokenID nas revision hash now a = true →
  open_for tokenID nas revision hash (Json a) = true.
Proof.
  unfold approval_usable, open_for. intros. split_bools.
  rewrite !bool_decide_true, Z.eqb_refl by done. done.
Qed.

(** One admission: a success for the plan costs one unit, anything else costs none. *)
Lemma admit_budget tokenID nas revision hash r (w w' : gworld) res :
  approvals_keyed (b_approvals (w_db w)) → run_admission r w = (res, w') →
  approvals_keyed (b_approvals (w_db w')) ∧
  (if is_high_for tokenID nas revision hash r && is_Ok res then 1 else 0)
    + budget tokenID nas revision hash w' ≤ budget tokenID nas revision hash w.
Proof.
  intros Hk Hrun. destruct res as [u|e].
  2:{ apply admit_err_inv in Hrun as ->. split; [done|].
      rewrite andb_false_r. lia. }
  unfold run_admission in Hrun. apply admit_inv in Hrun as (_ & _ & token & _ & Hr).
  simpl. rewrite andb_true_r. unfold budget, is_high_for.
  destruct (EqualFold (ad_risk r) "high").
  2:{ destruct Hr as [-> ->]. rewrite andb_false_r. split; [done|lia]. }
  rewrite andb_true_r. destruct Hr as [Hr|[_ Hr]].
  - destruct Hr as (k & a & Ha & Hu & _ & -> & ->). pose proof (Hk _ _ Ha) as Hid.
    rewrite Hid. split.
    + intros k' a'. destruct (decide (k' = k)) as [->|Hne].
      * rewrite lookup_insert_eq. intros [= <-]. done.
      * rewrite lookup_insert_ne by done. apply Hk.
    + rewrite open_approvals_insert_consumed by done.
      set (o := open_approvals _ _ _ _ _).
      assert (count (delete k o) ≤ count o) as Hle
        by apply count_subseteq, delete_subseteq.
      destruct (_ && _) eqn:Ef; [|lia]. split_bools.
      rewrite count_delete_Some; [lia|]. exists (Json a).
      unfold o, open_approvals. apply map_lookup_filter_Some.
      split; [done|]. simpl. by eapply open_for_usable.
  - destruct Hr as (g & sid & l & _ & _ & _ & _ & _ & _ & _ & _ & Hl & -> & ->).
    split; [done|]. rewrite clear_flags_set by done. destruct (_ && _); lia.
Qed.

Lemma budget_nonneg tokenID nas revision hash w : 0 ≤ budget tokenID nas revision hash w.
Proof. unfold budget. pose proof (count_nonneg (open_approvals tokenID nas revision hash
  (b_approvals (w_db w)))). lia. Qed.

(** Over any history, high-risk admissions of a plan never outnumber its budget. *)
Lemma successes_budget tokenID nas revision hash rs (w : gworld) :
  approvals_keyed (b_approvals (w_db w)) →
  successes (is_high_for tokenID nas revision hash) rs w
    ≤ budget tokenID nas revision hash w.
Proof.
  revert w. induction rs as [|r rs IH]; intros w Hk; simpl; [apply budget_nonneg|].
  destruct (run_admission r w) as [res w'] eqn:Er.
  destruct (admit_budget tokenID nas revision hash _ _ _ _ Hk Er) as [Hk' Hb].
  specialize (IH _ Hk'). lia.
Qed.
End admission.

(** ** Admission theorems *)

Definition sample_admission : admission := {|
  ad_ctx := Background; ad_auditFailure := None; ad_tokenID := "t1"; ad_nas := "nas1";
  ad_revision := 3; ad_hash := sample_hash; ad_risk := "HIGH"; ad_now := Minute;
  ad_wall := Minute; ad_rid1 := "e1"; ad_rid2 := "e2"
|}.

(** A request by the interactive-mode token that carries no grant. *)
Definition sample_admission2 : admission := {|
  ad_ctx := Background; ad_auditFailure := None; ad_tokenID := "t2"; ad_nas := "nas1";
  ad_revision := 3; ad_hash := sample_hash; ad_risk := "high"; ad_now := Minute;
  ad_wall := Minute; ad_rid1 := "e1"; ad_rid2 := "e2"
|}.

(** C12: An admitted remote apply was authorised at that moment: the token is active, has
    the nas.apply scope and the NAS on its allowlist, the profile is at exactly the
    planned revision, and a high-risk plan either consumed an administrator approval for
    exactly this plan or, for an interactive-mode token only, the unused grant that the
    session's user gave to exactly this plan. *)
Theorem admission_sound `{Unicode, KeyN} r (w w' : gworld) u :
  run_admission r w = (Ok u, w') →
  ctx_Err (ad_ctx r) = None ∧ ad_auditFailure r = None ∧
  ∃ token,
    apply_authorised (w_db w) (ad_tokenID r) (ad_nas r) (ad_revision r) (ad_now r) token ∧
    (EqualFold (ad_risk r) "high" = true →
       admitted_by_approval w w' (ad_tokenID r) (ad_nas r) (ad_revision r)
         (ad_hash r) (ad_now r)
       ∨ tk_ApprovalMode (tr_MCPToken token) = ApprovalModeInteractive
         ∧ admitted_by_grant w w' (ad_ctx r) (ad_tokenID r) (ad_nas r)
             (ad_revision r) (ad_hash r)).
Proof.
  intros (? & ? & token & ? & Hr)%admit_inv. repeat (split; [done|]).
  exists token. split; [done|]. intros Eh. by rewrite Eh in Hr.
Qed.

Lemma admission_sound_witness :
  let w' := (@run_admission ascii_tables keyN_committed sample_admission sample_world).2 in
  admitted_by_approval sample_world w' "t1" "nas1" 3 sample_hash Minute
  ∨ admitted_by_grant sample_world w' Background "t1" "nas1" 3 sample_hash.
Proof.
  destruct (@admission_sound ascii_tables keyN_committed sample_admission sample_world
    (@run_admission ascii_tables keyN_committed sample_admission sample_world).2 ())
    as (_ & _ & token & _ & Hr).
  { vm_compute. reflexivity. }
  destruct Hr as [Hr|[_ Hr]]; [reflexivity|by left|by right].
Defined.

(** A refused admission changes neither the database nor any grant: no approval is
    consumed and no audit record is written by a request that is not admitted. *)
Theorem admission_refused_unchanged `{Unicode, KeyN} r e (w w' : gworld) :
  run_admission r w = (Err e, w') → w' = w.
Proof. apply admit_err_inv. Qed.

Lemma admission_refused_unchanged_witness :
  (@run_admission ascii_tables keyN_committed sample_admission2 sample_world).2 = sample_world.
Proof.
  apply (@admission_refused_unchanged ascii_tables keyN_committed sample_admission2
    ErrInteractiveApprovalRequired).
  vm_compute. reflexivity.
Defined.

(** C13: Approvals and interactive grants are single-use: over any sequence of admissions,
    with any risks, contexts and times, the high-risk admissions of one plan by one token
    never outnumber the unconsumed approvals for exactly that plan plus the grants not
    used yet. *)
Theorem approvals_single_use `{Unicode, KeyN} tokenID nas revision hash rs (w : gworld) :
  approvals_keyed (b_approvals (w_db w)) →
  successes (is_high_for tokenID nas revision hash) rs w
    ≤ budget tokenID nas revision hash w.
Proof. apply successes_budget. Qed.

(** One approval, two attempts: the second is refused. *)
Lemma approvals_single_use_witness :
  @successes ascii_tables keyN_committed (@is_high_for ascii_tables "t1" "nas1" 3 sample_hash)
    [sample_admission; sample_admission] sample_world ≤ 1.
Proof.
  apply (@approvals_single_use ascii_tables keyN_committed "t1" "nas1" 3 sample_hash).
  intros k a. simpl. unfold sample_approval.
  intros [[= <-] [= <-]]%lookup_singleton_Some. reflexivity.
Defined.
