(* ===== verification/McpThms.v ===== *)
(** * Properties of the remote policy

    What reaches the handlers of the MCP server, what is audited, and what a confirmation
    is worth.  That a handler is not reached is stated by independence: the middleware
    answers alike for any two handlers that agree where it may call them. *)

From S2P Require Import Prelude.
From S2P Require Import GoStrings.
From S2P Require Import Bolt.
From S2P Require Import NetIP.
From S2P Require Import RemotePolicy.
From S2P Require Import Json.
From S2P Require Import DsmErrors.
From S2P Require Import DsmClient.
From S2P Require Import Config.
From S2P Require Import Service.
From S2P Require Import StateTypes.
From S2P Require Import Records.
From S2P Require Import McpPolicy.
From S2P Require Import Policy.
From S2P Require Import Samples.
From S2P Require Import PolicyThms.

(** ** Steps that agree *)

Section agree.
Context {W : Type}.

Lemma hm_bind_ext {A B} (m m' : HM W A) (k k' : A → HM W B) s :
  m s = m' s → (∀ a s', m s = (a, s') → k a s' = k' a s') → (m ≫= k) s = (m' ≫= k') s.
Proof.
  unfold mbind, HM_bind. intros Hm Hk. rewrite <- Hm. destruct (m s) as [a s'] eqn:E. auto.
Qed.

Lemma hm_bind_inv {A B} (m : HM W A) (k : A → HM W B) s b s' :
  (m ≫= k) s = (b, s') → ∃ a s1, m s = (a, s1) ∧ k a s1 = (b, s').
Proof. unfold mbind, HM_bind. destruct (m s) as [a s1]. eauto. Qed.
End agree.

Section policy.
Context `{Unicode, NetURL} {W : Type} `{SDK W}.
Context (srv : Service gworld W) (auditor : option Auditor).

Abbreviation M := (HM W).

(** ** Where the handler may be called *)

(** The NAS that a request names is configured and on the caller's allowlist. *)
Definition nas_allowed (ctx : context) (principal : Principal) (nas : string) : Prop :=
  ∃ g cfg g' resolved p,
    sv_configSource srv ctx g = (Ok cfg, g') ∧ Resolve (Some cfg) nas = Ok (resolved, p) ∧
    AllowsNAS principal resolved = true.

Definition target_allowed (ctx : context) (principal : Principal) (name : string)
    (target : remoteToolTarget) : Prop :=
  unenrolled name = true ∨
  let '(nas, secondary) := call_target name target in
  if needs_target name nas
  then nas_allowed ctx principal nas ∧
       (TrimSpace secondary = "" ∨ nas_allowed ctx principal secondary)
  else nas = "" ∨ AllowsNAS principal nas = true.

(** The context carries the grant that the session's user gave to exactly this plan. *)
Definition grant_confirmed (ctx : context) (principal : Principal) (request : mcp_request)
    (plan : planTarget) (ctx' : context) : Prop :=
  ∃ session g s response s',
    mq_Session request = Some session ∧ TrimSpace session ≠ "" ∧
    sdk_Elicit ctx session
      (highRiskApprovalMessage (approval_binding plan).1 (pt_Hash plan) (pt_Summary plan)) s
    = (Ok (Some response), s') ∧ accepted response = true ∧
    ctx_principal ctx' = ctx_principal ctx ∧ ctx_session ctx' = Some session ∧
    ctx_grant ctx' = Some g ∧ gr_TokenID g = pp_TokenID principal ∧ gr_SessionID g = session ∧
    (gr_NAS g, gr_ProfileRevision g) = approval_binding plan ∧ gr_PlanHash g = pt_Hash plan.

(** The contexts under which the middleware may hand a request on. *)
Definition may_reach (ctx0 : context) (method : string) (request : mcp_request)
    (ctx' : context) : Prop :=
  ∃ ctx principal, currentRemotePrincipal ctx0 request = (ctx, Some principal) ∧
  if bool_decide (method = "tools/call") then
    ∃ name arguments, mq_Params request = CallToolParams name arguments ∧
      scope_held principal name = true ∧
      match decode_target arguments with
      | None => ctx' = ctx
      | Some target =>
          target_allowed ctx principal name target ∧
          (ctx' = ctx ∨ grant_confirmed ctx principal request (tt_Plan target) ctx')
      end
  else ctx' = ctx.

(** ** Lemmas *)

Lemma reach_other ctx0 method request ctx principal :
  method ≠ "tools/call" → currentRemotePrincipal ctx0 request = (ctx, Some principal) →
  may_reach ctx0 method request ctx.
Proof. intros Hm Hc. exists ctx, principal. split; [done|]. by rewrite bool_decide_false. Qed.

Lemma reach_call ctx0 request ctx principal name arguments ctx' :
  currentRemotePrincipal ctx0 request = (ctx, Some principal) →
  mq_Params request = CallToolParams name arguments → scope_held principal name = true →
  match decode_target arguments with
  | None => ctx' = ctx
  | Some target =>
      target_allowed ctx principal name target ∧
      (ctx' = ctx ∨ grant_confirmed ctx principal request (tt_Plan target) ctx')
  end → may_reach ctx0 "tools/call" request ctx'.
Proof. intros. exists ctx, principal. split; [done|]. eexists _, _. eauto. Qed.

Lemma currentRemotePrincipal_context ctx0 request ctx principal :
  currentRemotePrincipal ctx0 request = (ctx, Some principal) →
  PrincipalFromContext ctx = Some principal.
Proof.
  unfold currentRemotePrincipal. destruct (mq_TokenInfo request) as [[user [p|]]|]; cbn;
    [|discriminate|by intros [= <- ?]].
  case_bool_decide as Hid; cbn; [discriminate|]. case_bool_decide; [|discriminate].
  intros [= <- <-]. unfold PrincipalFromContext. cbn. by rewrite bool_decide_false.
Qed.

Lemma AuthorizeRemoteTarget_ok ctx principal nas s name s' :
  PrincipalFromContext ctx = Some principal →
  AuthorizeRemoteTarget srv ctx nas s = (Ok name, s') → nas_allowed ctx principal nas.
Proof.
  unfold AuthorizeRemoteTarget. intros ->. intros Hr.
  apply bind_ok_inv in Hr as (u & s1 & Hc & Hr). apply check_ok_inv in Hc as [_ ->].
  apply bind_ok_inv in Hr as (cfg & s2 & Hcfg & Hr). apply mask_ok_inv in Hcfg.
  apply bind_ok_inv in Hr as ([resolved p] & s3 & Hres & Hr). apply mask_ok_inv in Hres.
  apply lift_ok_inv in Hres as [Hres ->].
  apply bind_ok_inv in Hr as (u' & s4 & Hc & Hr). apply check_ok_inv in Hc as [Hal ->].
  unfold configSnapshot, on_gateway in Hcfg. destruct s as [g d].
  destruct (sv_configSource srv ctx g) as [[c|e] g1] eqn:Eg; [|discriminate].
  injection Hcfg as -> <-. destruct (Resolve (Some cfg) nas) as [[n q]|e] eqn:Er; [|discriminate].
  injection Hres as -> ->. by exists g, cfg, g1, resolved, p.
Qed.

(** A call that is let through names an allowed target. *)
Lemma authorize_call_ok ctx principal name target nas s s' :
  PrincipalFromContext ctx = Some principal → unenrolled name = false →
  let t := call_target name target in
  authorize_call srv auditor ctx principal name t.1 t.2 s = (Ok nas, s') →
  target_allowed ctx principal name target.
Proof.
  intros Hp Hu t. unfold target_allowed. destruct (call_target name target) as [n2 n3] eqn:Et.
  subst t. cbn. intros Ha. right. unfold authorize_call in Ha.
  destruct (needs_target name n2).
  - case_bool_decide; [by apply hm_bind_inv in Ha as (? & ? & _ & [=])|].
    apply hm_bind_inv in Ha as ([r|e] & s1 & Hr & Ha);
      [|by apply hm_bind_inv in Ha as (? & ? & _ & [=])].
    split; [by eapply AuthorizeRemoteTarget_ok|].
    case_bool_decide; [by left|right].
    apply hm_bind_inv in Ha as ([r'|e] & s2 & Hr' & Ha);
      [|by apply hm_bind_inv in Ha as (? & ? & _ & [=])].
    by eapply AuthorizeRemoteTarget_ok.
  - case_bool_decide; [by left|]. cbn in Ha.
    destruct (AllowsNAS principal n2); [by right|].
    by apply hm_bind_inv in Ha as (? & ? & _ & [=]).
Qed.

(** Every refusal carries an error. *)
Lemma authorize_call_refused ctx principal name nas secondary s r s' :
  authorize_call srv auditor ctx principal name nas secondary s = (Err r, s') →
  outcome_of r = "failure" ∧ ∃ nas' s1, auditRemote auditor ctx principal name nas'
    "denied" "denied" s1 = ((), s').
Proof.
  unfold authorize_call. destruct (needs_target name nas).
  - case_bool_decide.
    { intros (u & s1 & Ha & [= <- <-])%hm_bind_inv. destruct u. eauto. }
    intros ([n|e] & s1 & _ & Hr)%hm_bind_inv.
    2:{ apply hm_bind_inv in Hr as (u & s2 & Ha & [= <- <-]). destruct u. eauto. }
    case_bool_decide; [discriminate|].
    apply hm_bind_inv in Hr as ([n'|e] & s2 & _ & Hr); [discriminate|].
    apply hm_bind_inv in Hr as (u & s3 & Ha & [= <- <-]). destruct u. eauto.
  - destruct (_ && _); [|discriminate].
    intros (u & s1 & Ha & [= <- <-])%hm_bind_inv. destruct u. eauto.
Qed.

Lemma with_grant_spec ctx session g s ctx' s' :
  @with_grant W ctx session g s = (ctx', s') →
  ctx_principal ctx' = ctx_principal ctx ∧ ctx_session ctx' = Some session ∧
  ∃ l, ctx_grant ctx' = Some {| gr_TokenID := gr_TokenID g; gr_SessionID := gr_SessionID g;
    gr_NAS := gr_NAS g; gr_ProfileRevision := gr_ProfileRevision g;
    gr_PlanHash := gr_PlanHash g; gr_used := Some l |} ∧
    w_rest s.1 !! l = None ∧ s'.1 = World (w_db s.1) (<[l := false]> (w_rest s.1)) ∧
    s'.2 = s.2.
Proof.
  unfold with_grant. destruct s as [[db fl] d]. cbn. intros [= <- <-]. cbn.
  do 2 (split; [done|]). eexists. split; [done|]. split; [|done].
  apply not_elem_of_dom, is_fresh.
Qed.

(** Two handlers that agree on the received context and on every confirmed one. *)
Lemma elicit_agree next next' ctx method request principal target s :
  (∀ ctx' s', grant_confirmed ctx principal request (tt_Plan target) ctx' →
     next ctx' method request s' = next' ctx' method request s') →
  elicitHighRiskApproval next ctx method request principal target s =
  elicitHighRiskApproval next' ctx method request principal target s.
Proof.
  intros Hn. unfold elicitHighRiskApproval. destruct (mq_Session request) as [session|] eqn:Es; [|done].
  case_bool_decide as Hb; [done|].
  destruct (approval_binding (tt_Plan target)) as [nas revision] eqn:Eb.
  destruct (_ || _); [done|]. apply hm_bind_ext; [done|].
  intros [[response|]|e] s1 He; [|done..]. destruct (accepted response) eqn:Ea; [|done]. cbn [negb].
  apply hm_bind_ext; [done|]. intros ctx' s2 Hw. apply Hn.
  apply with_grant_spec in Hw as (Hp & Hs & l & Hg & _).
  eexists session, _, s, response, s1. rewrite Eb. do 6 (split; [done|]).
  split; [exact Hg|]. by repeat split.
Qed.

Lemma dispatch_agree next next' ctx method request principal name nas target s :
  (∀ s', next ctx method request s' = next' ctx method request s') →
  (∀ ctx' s', grant_confirmed ctx principal request (tt_Plan target) ctx' →
     next ctx' method request s' = next' ctx' method request s') →
  dispatch auditor next ctx method request principal name nas target s =
  dispatch auditor next' ctx method request principal name nas target s.
Proof.
  intros Hn Hg. unfold dispatch. apply hm_bind_ext; [done|]. intros r s1 _.
  apply hm_bind_ext; [|done].
  destruct r.1; [done| |done]. destruct (interactiveApprovalRequired _); [|done].
  by apply elicit_agree.
Qed.
End policy.

(** C10: nothing passes the remote policy but what it authorises: the answer and the state
    after a request are the same for any two handlers that agree on the contexts under
    which the policy may call one.  Those need the principal of a verified token; a tool
    call also needs the scope of the tool, and, its arguments once decoded, a configured
    NAS on the token's allowlist for every NAS it names; a context with a grant further
    needs an accepted dialog, in this session, about exactly this plan. *)
Theorem policy_gate `{Unicode, NetURL} {W : Type} `{SDK W} (srv : Service gworld W) auditor
    (next next' : handler W) ctx method request :
  (∀ ctx' s, may_reach srv ctx method request ctx' →
     next ctx' method request s = next' ctx' method request s) →
  ∀ s, remotePolicyMiddleware srv auditor next ctx method request s =
       remotePolicyMiddleware srv auditor next' ctx method request s.
Proof.
  intros Hn s. unfold remotePolicyMiddleware.
  destruct (currentRemotePrincipal ctx request) as [ctx1 [principal|]] eqn:Ec; [|done].
  pose proof (currentRemotePrincipal_context _ _ _ _ Ec) as Hp.
  case_bool_decide as Hl.
  { apply hm_bind_ext; [|done]. apply Hn. eapply reach_other; [by subst|done]. }
  case_bool_decide as Hm; cbn [negb]; [|by eapply Hn, reach_other].
  destruct (mq_Params request) as [name arguments|] eqn:Er; [|done]. subst.
  unfold call_tool. destruct (scope_held principal name) eqn:Es; cbn [negb]; [|done].
  destruct (decode_target arguments) as [target|] eqn:Ed.
  2:{ eapply Hn, reach_call; [done..|]. by rewrite Ed. }
  assert (∀ ctx' s', target_allowed srv ctx1 principal name target →
    (ctx' = ctx1 ∨ grant_confirmed ctx1 principal request (tt_Plan target) ctx') →
    next ctx' "tools/call" request s' = next' ctx' "tools/call" request s') as Hreach.
  { intros ctx' s' Ht Hc. eapply Hn, reach_call; [done..|]. by rewrite Ed. }
  destruct (call_target name target) as [nas secondary] eqn:Et.
  destruct (unenrolled name) eqn:Eu.
  { apply hm_bind_ext; [|done]. apply Hreach; [|by left]. by left. }
  apply hm_bind_ext; [done|]. intros [nas'|r] s1 Ha; [|done].
  assert (target_allowed srv ctx1 principal name target) as Ht.
  { eapply (authorize_call_ok srv auditor); [done|done|]. by rewrite Et. }
  apply dispatch_agree; auto.
Qed.

(** ** Samples *)

(** No dialog can be shown; [SetError] sets the flag and the error. *)
Definition mute_sdk : SDK () := {|
  sdk_SetError := fun r e => {| cr_IsError := true; cr_GetError := Some e;
    cr_Content := cr_Content r; cr_Structured := cr_Structured r |};
  sdk_Elicit := fun _ _ _ s => (Err (MText "no form"), s) |}.

Definition sample_caller : Principal := {|
  pp_TokenID := "t1"; pp_Name := "client"; pp_ApprovalMode := ApprovalModeAdministrator;
  pp_Scopes := {[ ScopeRead ]}; pp_NAS := {[ "nas1" ]} |}.
Definition tool_call (name : string) (arguments : object) : mcp_request := {|
  mq_Params := CallToolParams name (Some (JObject arguments));
  mq_TokenInfo := Some {| ti_UserID := "t1"; ti_Principal := Some sample_caller |};
  mq_Session := None |}.
Definition no_url : NetURL :=
  {| url_Parse := fun _ => None; url_ParseRequestURI := fun _ => None |}.
Definition offline_service : Service gworld () := {|
  sv_configSource := fun _ => fail ErrDenied; sv_remoteApply := None;
  sv_secretReferences := fun _ _ => fail ErrDenied; sv_Client := fun _ name => mret name |}.
Definition sample_state : gworld * dstate () := (sample_world,
  {| dc_client := {| cl_Scheme := "https"; cl_Port := ""; cl_username := ""; cl_password := "";
       cl_deviceName := ""; cl_deviceID := ""; cl_preserveSession := false;
       cl_retry := defaultRetryPolicy; cl_target := Compat.NewTarget; cl_apiChecked := ∅;
       cl_sid := ""; cl_synoToken := "" |};
     dc_world := (); dc_log := [] |}).

(** A caller with the read scope never reaches an apply: a handler that would wipe the
    database makes no difference. *)
Lemma policy_gate_witness :
  let U := ascii_tables in let R := no_url in let D := mute_sdk in
  let request := tool_call "apply_share_plan" [("plan", JObject [("nas", JString "nas1")])] in
  remotePolicyMiddleware offline_service None
    (fun _ _ _ s => ((OtherResult, None), s)) Background "tools/call" request sample_state =
  remotePolicyMiddleware offline_service None
    (fun _ _ _ s => ((OtherResult, None), (World empty_db ∅, s.2))) Background
    "tools/call" request sample_state.
Proof.
  cbv zeta. apply (@policy_gate ascii_tables no_url () mute_sdk offline_service None).
  intros ctx' s (ctx & principal & Hc & Hr). rewrite bool_decide_true in Hr by done.
  destruct Hr as (name & arguments & Hp & Hs & _).
  injection Hp as <- <-. injection Hc as _ <-.
  vm_compute in Hs. discriminate Hs.
Defined.

(** Arguments that do not decode skip the check of the target: the handler is called. *)
Example undecoded_reaches :
  let U := ascii_tables in let R := no_url in let D := mute_sdk in
  (remotePolicyMiddleware offline_service None (fun _ _ _ s => ((OtherResult, None), s))
     Background "tools/call"
     (tool_call "get_system_info" [("nas", JString "other"); ("url", JNumber "5")]) sample_state).1
  = (OtherResult, None) ∧
  (remotePolicyMiddleware offline_service None (fun _ _ _ s => ((OtherResult, None), s))
     Background "tools/call"
     (tool_call "get_system_info" [("nas", JString "other")]) sample_state).1 = denied.
Proof. vm_compute. by split. Qed.

(** ** Audit *)

(** The last step of a call is its audit event. *)
Definition audits (a : Auditor) (ctx : context) (principal : Principal) (tool : string)
    {W} (r : answered) (s' : gworld * dstate W) : Prop :=
  ∃ ev g d, s' = ((au_AppendAudit a ctx ev g).2, d) ∧
    ev_ActorID ev = pp_TokenID principal ∧ ev_Action ev = "mcp.tool" ∧ ev_Tool ev = tool ∧
    ev_CorrelationID ev = CorrelationID ctx ∧
    (ev_Outcome ev = "success" ↔ outcome_of r = "success").

Lemma auditRemote_audits {W} a ctx principal tool nas outcome reason r
    (s s' : gworld * dstate W) u :
  auditRemote (Some a) ctx principal tool nas outcome reason s = (u, s') →
  (outcome = "success" ↔ outcome_of r = "success") → audits a ctx principal tool r s'.
Proof. destruct s as [g d]. intros [= _ <-] Ho. by eexists _, g, d. Qed.

(** C25: no tool call of a remote caller goes unrecorded: whatever the handler, the dialog
    and the auditor do, the last step of a call whose arguments decode, and of every call
    without the scope, is the audit event with the caller, the tool and the correlation
    id; it says success exactly when the caller is given a success. *)
Theorem calls_audited `{Unicode, NetURL} {W : Type} `{SDK W} (srv : Service gworld W) a
    (next : handler W) ctx0 request ctx principal name arguments s r s' :
  currentRemotePrincipal ctx0 request = (ctx, Some principal) →
  mq_Params request = CallToolParams name arguments →
  (scope_held principal name = true → is_Some (decode_target arguments)) →
  remotePolicyMiddleware srv (Some a) next ctx0 "tools/call" request s = (r, s') →
  audits a ctx principal name r s'.
Proof.
  intros Hc Hp Hd. unfold remotePolicyMiddleware. rewrite Hc, Hp. cbn [bool_decide negb].
  rewrite (bool_decide_false ("tools/call" = "tools/list")) by done.
  rewrite (bool_decide_true ("tools/call" = "tools/call")) by done. cbn [negb].
  unfold call_tool. destruct (scope_held principal name); cbn [negb].
  2:{ intros (u & s1 & Ha & [= <- <-])%hm_bind_inv. by eapply auditRemote_audits. }
  destruct Hd as [target ->]; [done|]. destruct (call_target name target) as [nas secondary].
  destruct (unenrolled name).
  { intros (r1 & s1 & _ & (u & s2 & Ha & [= <- <-])%hm_bind_inv)%hm_bind_inv.
    by eapply auditRemote_audits. }
  intros ([nas'|refusal] & s1 & Ha & Hr)%hm_bind_inv.
  - unfold dispatch in Hr. apply hm_bind_inv in Hr as (r1 & s2 & _ & Hr).
    apply hm_bind_inv in Hr as (r2 & s3 & _ & Hr). apply hm_bind_inv in Hr as (u & s4 & _ & Hr).
    apply hm_bind_inv in Hr as (u' & s5 & Hau & [= <- <-]). by eapply auditRemote_audits.
  - injection Hr as <- <-. apply authorize_call_refused in Ha as (Ho & n & s2 & Hau).
    eapply auditRemote_audits; [exact Hau|]. by rewrite Ho.
Qed.

(** The repository's audit log, with the clock and the random ids fixed. *)
Definition repository_auditor `{KeyN, Unicode} (now wall : Z) (rid : string) : Auditor := {|
  au_AppendAudit := fun ctx ev => AppendAudit ctx None wall rid ev;
  au_Record := Some (fun ctx request => RecordPendingApproval ctx request now rid) |}.

(** A denied call leaves its event in the log. *)
Lemma calls_audited_witness :
  let U := ascii_tables in let R := no_url in let D := mute_sdk in let K := keyN_committed in
  let a := repository_auditor Minute Minute "e1" in
  let request := tool_call "apply_share_plan" [("plan", JObject [("nas", JString "nas1")])] in
  let run := remotePolicyMiddleware offline_service (Some a)
    (fun _ _ _ s => ((OtherResult, None), s)) Background "tools/call" request sample_state in
  size (b_audit (w_db run.2.1)) = 1%nat ∧
  audits a (WithPrincipal Background sample_caller) sample_caller "apply_share_plan" run.1 run.2.
Proof.
  cbv zeta. split; [vm_compute; reflexivity|].
  eapply (@calls_audited ascii_tables no_url () mute_sdk offline_service _ _ Background
    (tool_call "apply_share_plan" [("plan", JObject [("nas", JString "nas1")])])).
  - reflexivity.
  - reflexivity.
  - intros Hs. vm_compute in Hs. discriminate Hs.
  - apply surjective_pairing.
Defined.

(** ** What a confirmation is worth *)

(** Nothing stored is an approval of this plan. *)
Definition no_approval (d : DB) (hash : string) : Prop :=
  ∀ k v, b_approvals d !! k = Some v → ∃ a, v = Json a ∧ ap_PlanHash a ≠ hash.

Lemma findApproval_none d tokenID nas revision hash now :
  no_approval d hash → findApproval d tokenID nas revision hash now = Ok None.
Proof.
  intros Hn. unfold findApproval, scan_approvals.
  assert (∀ k, b_approvals d !! k ≠ Some Garbled) as Hg.
  { intros k Hk. by destruct (Hn _ _ Hk) as (a & ? & _). }
  match goal with |- context [scan ?f _] =>
    destruct (scan_total f (b_approvals d) Hg) as [[[k a]|] Hs] end; rewrite Hs; [|done].
  apply scan_Some_Some in Hs as [Hin Hf]. apply elem_of_entries, Hn in Hin as (a' & [= <-] & Hh).
  unfold approval_usable in Hf. by split_bools.
Qed.

Section confirmed.
Context `{Unicode, KeyN} {W : Type}.

(** An admission under a fresh grant for exactly this plan succeeds and uses the grant. *)
Lemma admit_granted ctx tokenID session nas revision hash risk now wall rid1 rid2 token g l
    (w : gworld) :
  ctx_Err ctx = None → ctx_session ctx = Some session → ctx_grant ctx = Some g →
  gr_TokenID g = tokenID → gr_SessionID g = session → gr_NAS g = nas →
  gr_ProfileRevision g = revision → gr_PlanHash g = hash → gr_used g = Some l →
  tokenID ≠ "" → session ≠ "" → nas ≠ "" → revision ≠ 0 → hash ≠ "" →
  w_rest w !! l = Some false → EqualFold risk "high" = true →
  apply_authorised (w_db w) tokenID nas revision now token →
  tk_ApprovalMode (tr_MCPToken token) = ApprovalModeInteractive →
  no_approval (w_db w) hash →
  ∃ w', AdmitRemoteApply ctx None tokenID nas revision hash risk now wall rid1 rid2 w = (Ok (), w') ∧
    b_approvals (w_db w') = b_approvals (w_db w) ∧ w_rest w' !! l = Some true.
Proof.
  intros Hc Hs Hg Et Es En Er Eh Eu Ht Hsid Hn Hr Hh Hl Hrisk
    (Htok & Hact & Hsc & Hnas & profile & Hp & Hrev) Hmode Hna.
  unfold AdmitRemoteApply, ctx_check. rewrite Hc.
  unfold Update, mask, appendAuditTx. st_unfold. cbn beta iota.
  destruct w as [d fl]. cbn [w_db w_rest] in *. rewrite Htok. simpl.
  unfold validateActiveToken. rewrite Hact. simpl.
  rewrite !(proj2 (sliceContains_true _ _)) by done. simpl.
  rewrite Hp, Hrev, Z.eqb_refl. simpl. rewrite Hrisk, findApproval_none by done. simpl.
  unfold admit_interactive. st_unfold. rewrite Hmode, bool_decide_true by done. simpl.
  assert (InteractiveApprovalFromContext ctx = Some g) as ->.
  { unfold InteractiveApprovalFromContext. rewrite Hg. simpl. subst.
    rewrite !bool_decide_false by done. by rewrite (proj2 (Z.eqb_neq _ _)). }
  assert (MCPSessionID ctx = Some session) as ->.
  { unfold MCPSessionID. rewrite Hs. simpl. by rewrite bool_decide_false. }
  unfold consume_grant, ConsumeMatches, cas_used. subst. simpl.
  rewrite !bool_decide_true by done. rewrite Z.eqb_refl, Eu. simpl. rewrite Hl. simpl.
  eexists. split; [reflexivity|]. simpl. by rewrite lookup_insert_eq.
Qed.

(** A used grant admits nothing, when nothing stored approves the plan. *)
Lemma admit_used ctx af tokenID nas revision hash risk now wall rid1 rid2 g l (w : gworld) :
  ctx_grant ctx = Some g → gr_used g = Some l → w_rest w !! l = Some true →
  EqualFold risk "high" = true → no_approval (w_db w) hash →
  ∃ e, AdmitRemoteApply ctx af tokenID nas revision hash risk now wall rid1 rid2 w = (Err e, w).
Proof.
  intros Hg Hu Hl Hrisk Hna.
  set (r := {| ad_ctx := ctx; ad_auditFailure := af; ad_tokenID := tokenID; ad_nas := nas;
    ad_revision := revision; ad_hash := hash; ad_risk := risk; ad_now := now; ad_wall := wall;
    ad_rid1 := rid1; ad_rid2 := rid2 |}).
  change (∃ e, run_admission r w = (Err e, w)).
  destruct (run_admission r w) as [[u|e] w'] eqn:E.
  - exfalso. unfold run_admission in E. apply admit_inv in E as (_ & _ & token & _ & Hr).
    cbn in Hr. rewrite Hrisk in Hr.
    destruct Hr as [(k & a & Ha & Hus & _)|(_ & g' & sid & l' & Hg' & _ & _ & _ & _ & _ & _ & Hu' & Hl' & _)].
    + apply Hna in Ha as (a' & [= <-] & Hne). unfold approval_usable in Hus. by split_bools.
    + congruence.
  - exists e. by rewrite (admit_err_inv _ _ _ _ E).
Qed.
End confirmed.

(** C11: an accepted dialog is worth one apply: the context it yields admits exactly the
    high-risk plan it was about, for an interactive-mode token that may apply on the NAS at
    the plan's revision and without any stored approval; every later admission under that
    context is refused and changes nothing, at any time and for any plan with that hash. *)
Theorem confirmation_admits_once `{Unicode, KeyN} {W : Type} (ctx : context) tokenID session
    nas revision hash risk now wall rid1 rid2 token (s : gworld * dstate W) ctx' s' :
  ctx_Err ctx = None →
  tokenID ≠ "" → session ≠ "" → nas ≠ "" → revision ≠ 0 → hash ≠ "" →
  EqualFold risk "high" = true →
  apply_authorised (w_db s.1) tokenID nas revision now token →
  tk_ApprovalMode (tr_MCPToken token) = ApprovalModeInteractive →
  no_approval (w_db s.1) hash →
  with_grant ctx session {| gr_TokenID := tokenID; gr_SessionID := session; gr_NAS := nas;
    gr_ProfileRevision := revision; gr_PlanHash := hash; gr_used := None |} s = (ctx', s') →
  ∃ w, AdmitRemoteApply ctx' None tokenID nas revision hash risk now wall rid1 rid2 s'.1
         = (Ok (), w) ∧
    ∀ af tokenID' nas' revision' now' wall' rid1' rid2', ∃ e,
      AdmitRemoteApply ctx' af tokenID' nas' revision' hash risk now' wall' rid1' rid2' w
      = (Err e, w).
Proof.
  intros Hc Ht Hsid Hn Hr Hh Hrisk Hauth Hmode Hna Hw.
  assert (ctx_Err ctx' = None) as Hc'.
  { unfold with_grant in Hw. destruct s as [[] ?]. by injection Hw as <- _. }
  apply with_grant_spec in Hw as (_ & Hs' & l & Hg & _ & Hw1 & _).
  destruct (admit_granted ctx' tokenID session nas revision hash risk now wall rid1 rid2 token
    _ l s'.1 Hc' Hs' Hg) as (w & Hok & Hb & Hl); try done; rewrite ?Hw1; try done.
  { cbn. by rewrite lookup_insert_eq. }
  exists w. rewrite Hw1 in Hok, Hb. split; [done|]. intros.
  apply (admit_used _ _ _ _ _ _ _ _ _ _ _ _ l _ Hg); [done|done|done|].
  intros k v. rewrite Hb. apply Hna.
Qed.

Lemma confirmation_admits_once_witness :
  let U := ascii_tables in let K := keyN_committed in
  let run := with_grant Background "s1" {| gr_TokenID := "t2"; gr_SessionID := "s1";
    gr_NAS := "nas1"; gr_ProfileRevision := 3; gr_PlanHash := "other"; gr_used := None |}
    sample_state in
  ∃ w, AdmitRemoteApply run.1 None "t2" "nas1" 3 "other" "High" Minute Minute "e1" "e2" run.2.1
         = (Ok (), w) ∧
    ∀ af tokenID' nas' revision' now' wall' rid1' rid2', ∃ e,
      AdmitRemoteApply run.1 af tokenID' nas' revision' "other" "High" now' wall' rid1' rid2' w
      = (Err e, w).
Proof.
  cbv zeta.
  apply (@confirmation_admits_once ascii_tables keyN_committed () Background "t2" "s1" "nas1" 3
    "other" "High" Minute Minute "e1" "e2" sample_record2 sample_state);
    [reflexivity|discriminate..|reflexivity| |reflexivity| |apply surjective_pairing].
  - split; [reflexivity|]. split; [reflexivity|]. split; [by left|]. split; [by left|].
    exists sample_profile. by split.
  - intros k v Hk. cbn in Hk. apply lookup_singleton_Some in Hk as [_ <-].
    exists sample_approval. split; [reflexivity|discriminate].
Defined.
