(* ===== verification/ManagerThms.v ===== *)
(** * Properties of the runtime manager

    The invariant of the transition system by rule induction, and what it gives: whatever
    requests, profile changes and shutdowns run at the same time, a request is handed a
    client of the profile that is committed at that moment, and one that nobody closes. *)

From S2P Require Import Prelude.
From S2P Require Import GoStrings.
From S2P Require Import NetIP.
From S2P Require Import RemotePolicy.
From S2P Require Import Config.
From S2P Require Import Manager.

(** ** The cache *)

Lemma lookup_client_Some c name revision h :
  lookup_client c name revision = Some h →
  c !! name = Some {| ce_client := h; ce_revision := revision |}.
Proof.
  unfold lookup_client. destruct (c !! name) as [[h' r]|] eqn:E; [|done]. cbn.
  destruct (Z.eqb_spec r revision); [|done]. intros [= ->]. by subst.
Qed.

Lemma lookup_client_None c name revision e :
  lookup_client c name revision = None → c !! name = Some e → ce_revision e ≠ revision.
Proof.
  unfold lookup_client. intros Hl He. rewrite He in Hl.
  by destruct (Z.eqb_spec (ce_revision e) revision).
Qed.

Lemma evict_spec c name stale c' :
  evict c name = (stale, c') →
  c' = delete name c ∧
  ∀ h, stale = Some h → ∃ e, c !! name = Some e ∧ ce_client e = h.
Proof.
  intros [= <- <-]. split; [done|]. intros h (e & -> & He)%fmap_Some. by exists e.
Qed.

Lemma evict_named_spec c name stale c' :
  evict_named c name = (stale, c') →
  (∀ n e, c' !! n = Some e → c !! n = Some e) ∧
  ∀ h, stale = Some h → ∃ e, c !! name = Some e ∧ ce_client e = h ∧ c' = delete name c.
Proof.
  unfold evict_named. case_bool_decide; [by intros [= <- <-]|].
  intros [-> Hs]%evict_spec. split.
  - by intros n e [_ ?]%lookup_delete_Some.
  - intros h (e & ? & ?)%Hs. eauto.
Qed.

Section inv.
Context `{Unicode, NetURL}.

Lemma thread_cases (ths : gmap nat pc) t p t1 p1 :
  <[t := p]> ths !! t1 = Some p1 → (t1 = t ∧ p1 = p) ∨ (t1 ≠ t ∧ ths !! t1 = Some p1).
Proof. intros [[-> ->]|[? ?]]%lookup_insert_Some; auto. Qed.

(** ** What one step may do *)

(** The effect of a step on the shared state, as far as the invariant is concerned. *)
Record effect (s : shared) (p p' : pc) (s' : shared) : Prop := {
  ef_config : sh_config s' = sh_config s;
  ef_counter : sh_counter s' = sh_counter s;
  ef_grows h : is_Some (sh_heap s !! h) → is_Some (sh_heap s' !! h);
  ef_heap h b' : sh_heap s' !! h = Some b' →
    (∃ b, sh_heap s !! h = Some b ∧ bt_name b' = bt_name b ∧ bt_profile b' = bt_profile b ∧
       (b' = b ∨ doomed p = Some h ∨ writes p = true ∧ uncached s' h)) ∨
    (sh_heap s !! h = None ∧ bt_open b' = true ∧
     current (sh_config s) (bt_name b') = Some (bt_profile b'));
  ef_cache n e : sh_clients s' !! n = Some e →
    sh_clients s !! n = Some e ∨
    (owned p = Some (ce_client e) ∧ owned p' = None ∧
     ∃ q, profile_of p = Some (n, q) ∧ ce_revision e = np_Revision q);
  ef_profile n q : profile_of p' = Some (n, q) → current (sh_config s) n = Some q;
  ef_live h : live p' = Some h →
    ∃ n q, profile_of p' = Some (n, q) ∧
      sh_heap s' !! h = Some {| bt_name := n; bt_profile := q; bt_open := true |} ∧
      (live p = Some h ∨ sh_heap s !! h = None ∨
       ∃ e, sh_clients s !! n = Some e ∧ ce_client e = h);
  ef_owned h : owned p' = Some h →
    sh_heap s !! h = None ∨ owned p = Some h;
  ef_doomed h : doomed p' = Some h →
    live p' ≠ Some h ∧ uncached s' h ∧
    (doomed p = Some h ∨ owned p = Some h ∨
     ∃ e n, sh_clients s !! n = Some e ∧ ce_client e = h ∧
       (writes p = true ∨
        ∃ q, current (sh_config s) n = Some q ∧ np_Revision q ≠ ce_revision e))
}.

(** Nothing cached is about to be closed or has another owner. *)
Lemma cached_handle y n e : inv y → sh_clients (sy_shared y) !! n = Some e →
  (∀ t p, sy_threads y !! t = Some p → owned p ≠ Some (ce_client e)) ∧
  (∀ t p, sy_threads y !! t = Some p → doomed p ≠ Some (ce_client e)).
Proof.
  intros Hi He. split; intros t p Ht Hh.
  - destruct (inv_owned _ Hi _ _ _ Ht Hh) as [Hu _]. by apply (Hu _ _ He).
  - destruct (inv_doomed _ Hi _ _ _ Ht Hh) as (_ & Hu & _). by apply (Hu _ _ He).
Qed.

(** Two cached entries with one handle are one entry. *)
Lemma cached_inj y n n' e e' : inv y →
  sh_clients (sy_shared y) !! n = Some e → sh_clients (sy_shared y) !! n' = Some e' →
  ce_client e = ce_client e' → n = n'.
Proof.
  intros Hi He He' Heq. destruct (inv_cache _ Hi _ _ He) as (b & Hb & <- & _).
  destruct (inv_cache _ Hi _ _ He') as (b' & Hb' & <- & _).
  rewrite Heq, Hb' in Hb. by injection Hb as ->.
Qed.

Lemma live_in_gate p h : live p = Some h → reads p = true ∨ writes p = true.
Proof. destruct p; cbn; intros; simplify_eq; auto. Qed.

(** A client somebody works with is left alone when another goroutine steps. *)
Lemma live_untouched y t p p' s' t1 p1 h b :
  inv y → sy_threads y !! t = Some p → effect (sy_shared y) p p' s' → t1 ≠ t →
  sy_threads y !! t1 = Some p1 → live p1 = Some h →
  sh_heap (sy_shared y) !! h = Some b → sh_heap s' !! h = Some b.
Proof.
  intros Hi Ht He Hne Ht1 Hl Hb.
  destruct (ef_grows _ _ _ _ He h) as [b' Hb']; [by eauto|].
  destruct (ef_heap _ _ _ _ He _ _ Hb') as [(b0 & Hb0 & _ & _ & Hc)|(Hn & _)]; [|congruence].
  rewrite Hb in Hb0. injection Hb0 as <-. destruct Hc as [->|[Hd|[Hw _]]]; [done| |].
  - destruct (inv_doomed _ Hi _ _ _ Ht Hd) as (_ & _ & Hnl). by destruct (Hnl _ _ Ht1).
  - destruct (inv_gate _ Hi _ _ _ _ Ht Ht1) as [Hr Hw']; [done|done|].
    destruct (live_in_gate _ _ Hl); congruence.
Qed.

Section effect.
Context (y : system) (t : nat) (p p' : pc) (s' : shared).
Context (Hi : inv y) (Ht : sy_threads y !! t = Some p).
Context (He : effect (sy_shared y) p p' s').

(** A handle that is not cached and not published by this step stays uncached. *)
Lemma uncached_step h :
  uncached (sy_shared y) h → owned p ≠ Some h ∨ owned p' = Some h → uncached s' h.
Proof.
  intros Hu Ho n e Hn Heq. destruct (ef_cache _ _ _ _ He _ _ Hn) as [Hc|(Hw & Hnone & _)].
  - by apply (Hu _ _ Hc).
  - destruct Ho; congruence.
Qed.

Lemma cache_step n e : sh_clients s' !! n = Some e →
  ∃ b, sh_heap s' !! ce_client e = Some b ∧ bt_name b = n ∧
    np_Revision (bt_profile b) = ce_revision e ∧ bt_open b = true.
Proof.
  intros Hn. destruct (ef_cache _ _ _ _ He _ _ Hn) as [Hc|(Ho & _ & q & Hq & Hrev)].
  - destruct (inv_cache _ Hi _ _ Hc) as (b & Hb & Hname & Hrev & Hopen).
    destruct (ef_grows _ _ _ _ He (ce_client e)) as [b' Hb']; [by eauto|].
    destruct (ef_heap _ _ _ _ He _ _ Hb') as [(b0 & Hb0 & _ & _ & Hcl)|(Hnone & _)]; [|congruence].
    rewrite Hb in Hb0. injection Hb0 as <-.
    destruct Hcl as [->|[Hd|[_ Hu]]]; [by exists b| |by destruct (Hu _ _ Hn)].
    destruct (cached_handle _ _ _ Hi Hc) as [_ Hnd]. by destruct (Hnd _ _ Ht).
  - assert (live p = Some (ce_client e)) as Hl by (destruct p; cbn in *; congruence).
    destruct (inv_live _ Hi _ _ _ Ht Hl) as (n0 & q0 & Hq0 & Hb).
    rewrite Hq in Hq0. injection Hq0 as <- <-.
    destruct (ef_grows _ _ _ _ He (ce_client e)) as [b' Hb']; [by eauto|].
    destruct (ef_heap _ _ _ _ He _ _ Hb') as [(b0 & Hb0 & _ & _ & Hcl)|(Hnone & _)]; [|congruence].
    rewrite Hb in Hb0. injection Hb0 as <-.
    destruct Hcl as [->|[Hd|[_ Hu]]]; [by eexists| |by destruct (Hu _ _ Hn)].
    destruct (inv_doomed _ Hi _ _ _ Ht Hd) as (_ & _ & Hnl). by destruct (Hnl _ _ Ht).
Qed.

Lemma heap_step h b : sh_heap s' !! h = Some b →
  np_Revision (bt_profile b) ≤ sh_counter s' ∧
  ∀ q, current (sh_config s') (bt_name b) = Some q →
    np_Revision q = np_Revision (bt_profile b) → q = bt_profile b.
Proof.
  intros Hb. rewrite (ef_config _ _ _ _ He), (ef_counter _ _ _ _ He).
  destruct (ef_heap _ _ _ _ He _ _ Hb) as [(b0 & Hb0 & -> & -> & _)|(_ & _ & Hc)].
  - by apply (inv_heap _ Hi h).
  - split; [by apply (inv_counter _ Hi _ _ Hc)|]. intros q Hq. congruence.
Qed.

Lemma owned_live q h : owned q = Some h → live q = Some h.
Proof. destruct q; cbn; congruence. Qed.

Lemma live_step t1 p1 h : <[t := p']> (sy_threads y) !! t1 = Some p1 → live p1 = Some h →
  ∃ n q, profile_of p1 = Some (n, q) ∧
    sh_heap s' !! h = Some {| bt_name := n; bt_profile := q; bt_open := true |}.
Proof.
  intros [[-> ->]|[Hne Ht1]]%thread_cases Hl.
  - destruct (ef_live _ _ _ _ He _ Hl) as (n & q & ? & ? & _). eauto.
  - destruct (inv_live _ Hi _ _ _ Ht1 Hl) as (n & q & Hp & Hb). exists n, q.
    split; [done|]. exact (live_untouched y t p p' s' t1 p1 h _ Hi Ht He Hne Ht1 Hl Hb).
Qed.

(** A client that becomes one's own to work with was so before, is new, or is cached. *)
Lemma new_live h : live p' = Some h →
  live p = Some h ∨ sh_heap (sy_shared y) !! h = None ∨ ¬ uncached (sy_shared y) h.
Proof.
  intros (n & q & _ & _ & [?|[?|(e & Hc & Heq)]])%(ef_live _ _ _ _ He); [by auto..|].
  right. right. intros Hu. by apply (Hu _ _ Hc).
Qed.

Lemma owned_step t1 p1 h : <[t := p']> (sy_threads y) !! t1 = Some p1 → owned p1 = Some h →
  uncached s' h ∧
  ∀ t2 p2, <[t := p']> (sy_threads y) !! t2 = Some p2 → t2 ≠ t1 → live p2 ≠ Some h.
Proof.
  intros [[-> ->]|[Hne Ht1]]%thread_cases Ho.
  - destruct (ef_owned _ _ _ _ He _ Ho) as [Hn|Hp].
    + split.
      * apply uncached_step; [|by right]. intros n e Hc <-.
        destruct (inv_cache _ Hi _ _ Hc) as (b & Hb & _). congruence.
      * intros t2 p2 [[-> _]|[_ Ht2]]%thread_cases Hne Hl; [done|].
        destruct (inv_live _ Hi _ _ _ Ht2 Hl) as (n & q & _ & Hb). congruence.
    + destruct (inv_owned _ Hi _ _ _ Ht Hp) as [Hu Hno].
      split; [by apply uncached_step; [|right]|].
      intros t2 p2 [[-> _]|[_ Ht2]]%thread_cases Hne; [done|]. by eapply Hno.
  - destruct (inv_owned _ Hi _ _ _ Ht1 Ho) as [Hu Hno]. split.
    + apply uncached_step; [done|left]. intros Hp%owned_live. by apply (Hno _ _ Ht).
    + intros t2 p2 [[-> ->]|[Hne2 Ht2]]%thread_cases Hd Hl; [|by eapply Hno].
      destruct (new_live _ Hl) as [Hp|[Hn|Hc]]; [by apply (Hno _ _ Ht)| |done].
      destruct (inv_live _ Hi _ _ _ Ht1 (owned_live _ _ Ho)) as (n & q & _ & Hb). congruence.
Qed.

(** Nobody works with a cached client that a step evicts. *)
Lemma evicted_not_live e n t2 p2 :
  sh_clients (sy_shared y) !! n = Some e →
  (writes p = true ∨
   ∃ q, current (sh_config (sy_shared y)) n = Some q ∧ np_Revision q ≠ ce_revision e) →
  t2 ≠ t → sy_threads y !! t2 = Some p2 → live p2 ≠ Some (ce_client e).
Proof.
  intros Hc Hev Hne Ht2 Hl. destruct Hev as [Hw|(q & Hq & Hrev)].
  - destruct (inv_gate _ Hi _ _ _ _ Ht Ht2) as [? ?]; [done|done|].
    destruct (live_in_gate _ _ Hl); congruence.
  - destruct (inv_live _ Hi _ _ _ Ht2 Hl) as (n2 & q2 & Hp2 & Hb2).
    destruct (inv_cache _ Hi _ _ Hc) as (b & Hb & Hname & Hr & _).
    rewrite Hb2 in Hb. injection Hb as <-. cbn in *. subst n2.
    pose proof (inv_profile _ Hi _ _ _ _ Ht2 Hp2). congruence.
Qed.

Lemma doomed_step t1 p1 h : <[t := p']> (sy_threads y) !! t1 = Some p1 → doomed p1 = Some h →
  is_Some (sh_heap s' !! h) ∧ uncached s' h ∧
  ∀ t2 p2, <[t := p']> (sy_threads y) !! t2 = Some p2 → live p2 ≠ Some h.
Proof.
  intros [[-> ->]|[Hne Ht1]]%thread_cases Hd.
  - destruct (ef_doomed _ _ _ _ He _ Hd) as (Hnl & Hu & Hc).
    assert (is_Some (sh_heap (sy_shared y) !! h) ∧
      ∀ t2 p2, sy_threads y !! t2 = Some p2 → t2 ≠ t → live p2 ≠ Some h) as [Hs Hno].
    { destruct Hc as [Hp|[Hp|(e & n & Hc & <- & Hev)]].
      - destruct (inv_doomed _ Hi _ _ _ Ht Hp) as (? & _ & ?). eauto.
      - destruct (inv_live _ Hi _ _ _ Ht (owned_live _ _ Hp)) as (? & ? & _ & ?).
        destruct (inv_owned _ Hi _ _ _ Ht Hp). eauto.
      - destruct (inv_cache _ Hi _ _ Hc) as (b & ? & _). split; [by eauto|].
        intros. by eapply evicted_not_live. }
    split; [by apply (ef_grows _ _ _ _ He)|]. split; [done|].
    intros t2 p2 [[-> ->]|[? ?]]%thread_cases; eauto.
  - destruct (inv_doomed _ Hi _ _ _ Ht1 Hd) as (Hs & Hu & Hno).
    split; [by apply (ef_grows _ _ _ _ He)|]. split.
    + apply uncached_step; [done|left]. intros Hp%owned_live. by apply (Hno _ _ Ht).
    + intros t2 p2 [[-> ->]|[_ Ht2]]%thread_cases Hl; [|by eapply Hno].
      destruct (new_live _ Hl) as [Hp|[Hn|Hc]]; [by apply (Hno _ _ Ht)| |done].
      destruct Hs. congruence.
Qed.
End effect.

Lemma gate_step (ths : gmap nat pc) t p p' :
  ths !! t = Some p → gate_ok (delete t ths) p p' →
  (∀ t1 t2 p1 p2, ths !! t1 = Some p1 → ths !! t2 = Some p2 → t1 ≠ t2 →
     writes p1 = true → reads p2 = false ∧ writes p2 = false) →
  ∀ t1 t2 p1 p2, <[t := p']> ths !! t1 = Some p1 → <[t := p']> ths !! t2 = Some p2 → t1 ≠ t2 →
    writes p1 = true → reads p2 = false ∧ writes p2 = false.
Proof.
  intros Ht [Hr Hw] Hg t1 t2 p1 p2 [[-> ->]|[Hn1 H1]]%thread_cases
    [[-> ->]|[Hn2 H2]]%thread_cases Hne Hp1; [done| | |by eapply (Hg t1 t2)].
  - destruct (writes p) eqn:Ew; [by eapply (Hg t t2)|].
    apply (Hw Hp1 eq_refl t2). by rewrite lookup_delete_ne.
  - destruct (Hg t1 t p1 p H1 Ht Hne Hp1) as [Hpr Hpw].
    assert (delete t ths !! t1 = Some p1) as Hd by (by rewrite lookup_delete_ne).
    split; apply not_true_is_false; intros Hx.
    + by rewrite (Hr Hx Hpr _ _ Hd) in Hp1.
    + destruct (Hw Hx Hpw _ _ Hd) as [_ Hf]. congruence.
Qed.

Lemma inv_effect y t p p' s' :
  inv y → sy_threads y !! t = Some p → gate_ok (delete t (sy_threads y)) p p' →
  effect (sy_shared y) p p' s' →
  inv {| sy_threads := <[t := p']> (sy_threads y); sy_shared := s' |}.
Proof.
  intros Hi Ht Hg He. split; cbn [sy_threads sy_shared].
  - eapply gate_step; [done..|]. apply (inv_gate _ Hi).
  - rewrite (ef_config _ _ _ _ He), (ef_counter _ _ _ _ He). apply (inv_counter _ Hi).
  - by eapply heap_step.
  - by eapply cache_step.
  - rewrite (ef_config _ _ _ _ He). intros t1 p1 n q [[-> ->]|[_ H1]]%thread_cases Hp.
    + by apply (ef_profile _ _ _ _ He).
    + by eapply (inv_profile _ Hi).
  - by eapply live_step.
  - by eapply owned_step.
  - by eapply doomed_step.
Qed.

(** ** Every step but a commit has such an effect *)

(** A step that leaves the shared state alone. *)
Lemma effect_same s p p' :
  (∀ n q, profile_of p' = Some (n, q) → current (sh_config s) n = Some q) →
  (∀ h, live p' = Some h → ∃ n q, profile_of p' = Some (n, q) ∧
     sh_heap s !! h = Some {| bt_name := n; bt_profile := q; bt_open := true |} ∧
     (live p = Some h ∨ ∃ e, sh_clients s !! n = Some e ∧ ce_client e = h)) →
  owned p' = None →
  (∀ h, doomed p' = Some h → live p' ≠ Some h ∧ uncached s h ∧
     (doomed p = Some h ∨ owned p = Some h)) →
  effect s p p' s.
Proof.
  intros Hp Hl Ho Hd. split; try done.
  - intros h b Hb. left. exists b. auto 10.
  - auto.
  - intros h Hh. destruct (Hl h Hh) as (n & q & ? & ? & [?|?]); exists n, q; auto.
  - congruence.
  - intros h Hh. destruct (Hd h Hh) as (? & ? & [?|?]); auto.
Qed.

(** Nothing is at stake in a state outside the critical sections. *)
Lemma effect_plain s p p' :
  profile_of p' = None → live p' = None → owned p' = None → doomed p' = None →
  effect s p p' s.
Proof. intros Hp Hl Ho Hd. apply effect_same; congruence. Qed.

(** A step that closes the client it has to. *)
Lemma effect_close s p p' h :
  doomed p = Some h ∨ (writes p = true ∧ uncached s h) →
  doomed p' = None → owned p' = None ∨ owned p' = owned p →
  (∀ n q, profile_of p' = Some (n, q) → current (sh_config s) n = Some q) →
  (∀ h', live p' = Some h' → h' ≠ h ∧ live p = Some h' ∧ ∃ n q, profile_of p' = Some (n, q) ∧
     sh_heap s !! h' = Some {| bt_name := n; bt_profile := q; bt_open := true |}) →
  effect s p p' (close_client h s).
Proof.
  intros Hh Hd Ho Hp Hl. split; cbn; try done; [|..|congruence].
  - intros h' Hs. destruct (decide (h' = h)) as [->|];
      [by rewrite lookup_alter_eq, fmap_is_Some|by rewrite lookup_alter_ne].
  - intros h' b' Hb. left. destruct (decide (h' = h)) as [->|].
    + rewrite lookup_alter_eq in Hb. apply fmap_Some in Hb as (b & Hb & ->). exists b.
      repeat (split; [done|]). destruct Hh as [?|[? ?]]; auto.
    + rewrite lookup_alter_ne in Hb by done. exists b'. auto.
  - auto.
  - intros h' Hh'. destruct (Hl h' Hh') as (Hne & ? & n & q & ? & ?). exists n, q.
    split; [done|]. split; [by rewrite lookup_alter_ne|]. by left.
  - intros h' Hh'. right. destruct Ho; congruence.
Qed.

(** A step that publishes the client it owns. *)
Lemma effect_publish s p p' n q h :
  profile_of p = Some (n, q) → owned p = Some h → live p = Some h →
  current (sh_config s) n = Some q →
  sh_heap s !! h = Some {| bt_name := n; bt_profile := q; bt_open := true |} →
  owned p' = None → doomed p' = None →
  (profile_of p' = None ∧ live p' = None ∨ profile_of p' = Some (n, q) ∧ live p' = Some h) →
  effect s p p' (set_clients (publish (sh_clients s) n h (np_Revision q)) s).
Proof.
  intros Hp Ho Hl Hc Hb Ho' Hd Hc'. split; cbn; try done; [..|congruence|congruence].
  - intros h' b' Hb'. left. exists b'. auto 10.
  - unfold publish. intros n' e [[<- <-]|[_ ?]]%lookup_insert_Some; [right|by left]. cbn. eauto.
  - intros n' q' Hp'. destruct Hc' as [[]|[]]; congruence.
  - intros h' Hl'. destruct Hc' as [[]|[? ?]]; [congruence|]. exists n, q.
    replace h' with h by congruence. auto.
Qed.

(** A step that makes a new client. *)
Lemma effect_new s p n q h st c :
  sh_heap s !! h = None → current (sh_config s) n = Some q →
  (∀ m e, c !! m = Some e → sh_clients s !! m = Some e) →
  (∀ g, st = Some g → uncached (set_clients c s) g ∧ g ≠ h ∧
    ∃ e m, sh_clients s !! m = Some e ∧ ce_client e = g ∧ writes p = true) →
  ∀ p', (p' = Built n q h ∧ st = None) ∨ p' = Replacing n q h st →
  effect s p p' (set_clients c (new_client h n q s)).
Proof.
  intros Hh Hc Hcache Hst p' Hp'.
  assert (profile_of p' = Some (n, q) ∧ live p' = Some h ∧ owned p' = Some h ∧
    doomed p' = st) as (Ep & El & Eo & Ed) by (destruct Hp' as [[-> ->]| ->]; done).
  split; cbn; try done.
  - intros g Hg. apply lookup_insert_is_Some'. by right.
  - intros g b [[<- <-]|[Hne Hb]]%lookup_insert_Some; [by right|]. left. exists b. auto 10.
  - intros m e He. left. auto.
  - intros m r Hr. congruence.
  - intros g Hg. exists n, q. replace g with h by congruence. rewrite lookup_insert_eq. auto.
  - intros g Hg. left. congruence.
  - intros g Hg. rewrite Ed in Hg. destruct (Hst _ Hg) as (Hu & Hne & e & m & ? & ? & ?).
    split; [congruence|]. split; [done|]. right. right. exists e, m. auto.
Qed.

(** ** The steps *)

(** What [Resolve] finds is what the name resolves to. *)
Lemma Resolve_current cfg requested name profile :
  Resolve (Some cfg) requested = Ok (name, profile) → current cfg name = Some profile.
Proof.
  unfold Resolve, current. intros Hr. cbv zeta in Hr.
  match type of Hr with (if bool_decide (?n = _) then _ else _) = _ =>
    destruct (bool_decide (n = "")); [by destruct (bool_decide _)|];
    destruct (cf_NAS (Normalize cfg) !! n) as [q|] eqn:E; [|done]
  end. by injection Hr as <- <-.
Qed.

(** Closing every cached client and dropping them all. *)
Lemma effect_drain s : effect s Draining Finished
  (set_clients ∅ (foldr (fun e => close_client (ce_client e.2)) s
                    (map_to_list (sh_clients s)))).
Proof.
  set (l := map_to_list (sh_clients s)).
  assert (∀ l, let s' := foldr (fun e : string * clientEntry => close_client (ce_client e.2)) s l in
    sh_config s' = sh_config s ∧ sh_counter s' = sh_counter s ∧
    (∀ h, is_Some (sh_heap s !! h) → is_Some (sh_heap s' !! h)) ∧
    (∀ h b', sh_heap s' !! h = Some b' → ∃ b, sh_heap s !! h = Some b ∧
       bt_name b' = bt_name b ∧ bt_profile b' = bt_profile b)) as Hl.
  { clear l. intros l s'. subst s'. induction l as [|e l (Hc & Hk & Hs & Hb)]; cbn; [by split_and!; eauto|].
    split; [done|]. split; [done|]. split.
    - intros h Hh. destruct (decide (h = ce_client e.2)) as [->|Hne].
      + rewrite lookup_alter_eq, fmap_is_Some. auto.
      + rewrite lookup_alter_ne by done. auto.
    - intros h b' Hh. destruct (decide (h = ce_client e.2)) as [->|Hne].
      + rewrite lookup_alter_eq in Hh. apply fmap_Some in Hh as (b & Hh & ->). by destruct (Hb _ _ Hh) as (b0 & ? & ? & ?); exists b0.
      + rewrite lookup_alter_ne in Hh by done. auto. }
  destruct (Hl l) as (Hc & Hk & Hs & Hb). split; cbn; try done.
  - intros h b' Hh. left. destruct (Hb _ _ Hh) as (b & ? & ? & ?). exists b.
    repeat (split; [done|]). right. right. split; [done|]. intros n e He. cbn in He. by rewrite lookup_empty in He.
Qed.

Lemma resolve_profile_current cfg requested allow name profile :
  resolve_profile cfg requested allow = Ok (name, profile) → current cfg name = Some profile.
Proof.
  unfold resolve_profile. destruct (Resolve (Some cfg) requested) as [[n q]|] eqn:E; [|done].
  cbn. destruct (_ && _); [done|]. intros [= -> ->]. by apply Resolve_current in E.
Qed.

Lemma cached_profile y n q h : inv y → current (sh_config (sy_shared y)) n = Some q →
  sh_clients (sy_shared y) !! n = Some {| ce_client := h; ce_revision := np_Revision q |} →
  sh_heap (sy_shared y) !! h = Some {| bt_name := n; bt_profile := q; bt_open := true |}.
Proof.
  intros Hi Hc He. destruct (inv_cache _ Hi _ _ He) as ([m r o] & Hb & <- & Hrev & Ho).
  cbn in *. subst o. rewrite Hb. f_equal. destruct (inv_heap _ Hi _ _ Hb) as [_ Hq].
  by rewrite (Hq _ Hc (eq_sym Hrev)).
Qed.

(** A cached client that an eviction removes is cached no more. *)
Lemma evicted_uncached y n e c : inv y → sh_clients (sy_shared y) !! n = Some e →
  (∀ m f, c !! m = Some f → m ≠ n ∧ sh_clients (sy_shared y) !! m = Some f) →
  ∀ s', sh_clients s' = c → uncached s' (ce_client e).
Proof.
  intros Hi He Hc s' <- m f Hm Heq. destruct (Hc _ _ Hm) as [Hne Hf].
  by apply Hne, (cached_inj _ _ _ _ _ Hi Hf He).
Qed.

(** A step that only evicts. *)
Lemma effect_evict s p p' c st :
  doomed p' = st → live p' = None → owned p' = None →
  (∀ n q, profile_of p' = Some (n, q) → current (sh_config s) n = Some q) →
  (∀ m e, c !! m = Some e → sh_clients s !! m = Some e) →
  (∀ h, st = Some h → uncached (set_clients c s) h ∧ ∃ e n, sh_clients s !! n = Some e ∧
     ce_client e = h ∧ (writes p = true ∨
       ∃ q, current (sh_config s) n = Some q ∧ np_Revision q ≠ ce_revision e)) →
  effect s p p' (set_clients c s).
Proof.
  intros Hd Hl Ho Hp Hc Hst. split; cbn; try done; try congruence.
  - intros h b Hb. left. exists b. auto 10.
  - intros n e He. left. auto.
  - intros h Hh. rewrite Hd in Hh. destruct (Hst _ Hh) as (Hu & e & n & ?).
    split; [congruence|]. split; [done|]. right. right. by exists e, n.
Qed.

Section steps.
Context (y : system) (t : nat) (p p' : pc) (s' : shared).
Context (Hi : inv y) (Ht : sy_threads y !! t = Some p).

(** The eviction of one name. *)
Lemma evicts n st c h : evict (sh_clients (sy_shared y)) n = (st, c) → st = Some h →
  uncached (set_clients c (sy_shared y)) h ∧
  ∃ e, sh_clients (sy_shared y) !! n = Some e ∧ ce_client e = h.
Proof.
  intros [-> Hs]%evict_spec Hh. destruct (Hs _ Hh) as (e & He & <-). split; [|by exists e].
  apply (evicted_uncached y n e (delete n (sh_clients (sy_shared y)))); [done|done| |done].
  by intros m f [? ?]%lookup_delete_Some.
Qed.

Lemma evict_sub (c c' : cache) n st m e : evict c n = (st, c') → c' !! m = Some e → c !! m = Some e.
Proof. intros [-> _]%evict_spec [_ ?]%lookup_delete_Some. done. Qed.

(** The steps of a request. *)
Lemma reader_effect : reads p = true ∨ reads p' = true →
  local p (sy_shared y) p' s' → effect (sy_shared y) p p' s'.
Proof.
  intros Hr Hl. pose proof (fun n q => inv_profile _ Hi _ _ n q Ht) as Hp.
  pose proof (fun h => inv_live _ Hi _ _ h Ht) as Hlive.
  inversion Hl; subst; try (by destruct Hr); try (apply effect_plain; reflexivity); cbn in Hp, Hlive.
  - apply effect_same; cbn; [|congruence..]. intros n q [= <- <-].
    by eapply resolve_profile_current.
  - match goal with Hc : lookup_client _ _ _ = Some _ |- _ => apply lookup_client_Some in Hc as He end.
    apply effect_same; cbn; [|  |done|congruence]; [intros n q [= <- <-]; by apply Hp|].
    intros h' [= <-]. exists name, profile. split; [done|]. split; [|right; by eexists].
    apply (cached_profile y); auto.
  - match goal with Hc : evict _ _ = _ |- _ => rename Hc into Hev end.
    apply (effect_evict _ _ _ _ stale); cbn; try done.
    + intros m e. by eapply evict_sub.
    + intros h Hh. destruct (evicts _ _ _ _ Hev Hh) as [Hu (e & He & Heq)].
      split; [done|]. exists e, name. split; [done|]. split; [done|]. right. exists profile.
      split; [by apply Hp|]. intros Hx. by eapply lookup_client_None.
  - apply effect_close; cbn; [by left|done|by left| |done]. intros n q [= <- <-]. by apply Hp.
  - apply (effect_new _ _ _ _ _ None (sh_clients (sy_shared y))); try done; [by apply Hp|by left; split].
  - match goal with Hc : lookup_client _ _ _ = Some _ |- _ => apply lookup_client_Some in Hc as He end.
    apply effect_same; cbn; [intros n q [= <- <-]; by apply Hp| |done|].
    + intros h' [= <-]. exists name, profile. split; [done|]. split; [|right; by eexists].
      apply (cached_profile y); auto.
    + intros h' [= <-]. destruct (inv_owned _ Hi _ _ _ Ht eq_refl) as [Hu _].
      split; [intros [= ->]; by apply (Hu _ _ He)|]. auto.
  - apply effect_close; cbn; [by left|done|by left|intros n q [= <- <-]; by apply Hp|].
    intros h' [= <-]. destruct (inv_doomed _ Hi _ _ _ Ht eq_refl) as (_ & _ & Hn).
    split; [intros ->; by apply (Hn _ _ Ht)|]. split; [done|].
    destruct (Hlive _ eq_refl) as (n & q & Hnq & Hb). exists n, q. by split.
  - destruct (Hlive _ eq_refl) as (n & q & [= <- <-] & Hb).
    apply effect_publish; cbn; auto.
Qed.

(** The steps of the others, a commit aside. *)
Lemma writer_effect : reads p = false → reads p' = false →
  local p (sy_shared y) p' s' → effect (sy_shared y) p p' s' ∨
  ∃ name cfg counter, p = Mutating name ∧ p' = Evicting name ∧
    commit_ok (sy_shared y) cfg counter ∧ s' = commit cfg counter (sy_shared y).
Proof.
  intros Hr Hr' Hl. pose proof (fun n q => inv_profile _ Hi _ _ n q Ht) as Hp.
  pose proof (fun h => inv_live _ Hi _ _ h Ht) as Hlive.
  inversion Hl; subst; try discriminate; try (left; apply effect_plain; reflexivity); cbn in Hp, Hlive.
  - right. by eexists _, _, _.
  - left. match goal with Hc : evict_named _ _ = _ |- _ => rename Hc into Hev end.
    apply (effect_evict _ _ _ _ stale); cbn; try done.
    + by apply evict_named_spec in Hev as [? _].
    + intros h Hh. apply evict_named_spec in Hev as [_ Hs].
      destruct (Hs _ Hh) as (e & He & <- & ->). split.
      * apply (evicted_uncached y name e (delete name (sh_clients (sy_shared y)))); [done|done| |done].
        by intros m f [? ?]%lookup_delete_Some.
      * exists e, name. auto.
  - left. apply effect_close; cbn; [by left|done|by left|done|done].
  - left. match goal with Hc : evict _ _ = _ |- _ => rename Hc into Hev end.
    match goal with Hc : Resolve _ _ = Ok _ |- _ => apply Resolve_current in Hc end.
    apply (effect_new _ _ _ _ _ stale c); try done; [by intros m e; eapply evict_sub| |by right].
    intros g Hg. destruct (evicts _ _ _ _ Hev Hg) as [Hu (e & He & <-)]. split; [done|].
    destruct (inv_cache _ Hi _ _ He) as (b & Hb & _). split; [congruence|]. by exists e, name.
  - left. destruct (inv_doomed _ Hi _ _ _ Ht eq_refl) as (_ & _ & Hn).
    apply effect_close; cbn; [by left|done|by right|intros n q [= <- <-]; by apply Hp|].
    intros h' [= <-]. split; [intros ->; by apply (Hn _ _ Ht)|]. split; [done|].
    destruct (Hlive _ eq_refl) as (n & q & Hnq & Hb). exists n, q. by split.
  - left. destruct (inv_owned _ Hi _ _ _ Ht eq_refl) as [Hu _].
    apply effect_close; cbn; [by right|done|by left|done|done].
  - left. destruct (Hlive _ eq_refl) as (n & q & [= <- <-] & Hb).
    apply effect_publish; cbn; auto.
  - left. by apply effect_drain.
Qed.
End steps.

Lemma profile_in_gate p n q : profile_of p = Some (n, q) → reads p = true ∨ writes p = true.
Proof. destruct p; cbn; intros; simplify_eq; auto. Qed.

(** A commit runs alone, and gives changed profiles revisions that no client has. *)
Lemma inv_commit y t name cfg counter :
  inv y → sy_threads y !! t = Some (Mutating name) → commit_ok (sy_shared y) cfg counter →
  inv {| sy_threads := <[t := Evicting name]> (sy_threads y);
         sy_shared := commit cfg counter (sy_shared y) |}.
Proof.
  intros Hi Ht [Hk Hc].
  assert (∀ t1 p1, t1 ≠ t → sy_threads y !! t1 = Some p1 → reads p1 = false ∧ writes p1 = false)
    as Halone by (intros; eapply (inv_gate _ Hi t t1); eauto).
  split; cbn [sy_threads sy_shared commit sh_config sh_counter sh_clients sh_heap].
  - eapply gate_step; [done| |by apply (inv_gate _ Hi)]. by split.
  - intros n q [Hq|?]%Hc; [|lia]. pose proof (inv_counter _ Hi _ _ Hq). lia.
  - intros h b Hb. destruct (inv_heap _ Hi _ _ Hb) as [Hr Hq]. split; [lia|].
    intros q [Hold|?]%Hc Heq; [by apply Hq|lia].
  - apply (inv_cache _ Hi).
  - intros t1 p1 n q [[-> ->]|[Hne H1]]%thread_cases Hp; [done|].
    destruct (Halone _ _ Hne H1), (profile_in_gate _ _ _ Hp); congruence.
  - intros t1 p1 h [[-> ->]|[Hne H1]]%thread_cases Hl; [done|]. by eapply (inv_live _ Hi).
  - intros t1 p1 h [[-> ->]|[Hne H1]]%thread_cases Ho; [done|].
    destruct (inv_owned _ Hi _ _ _ H1 Ho) as [Hu Hn]. split; [done|].
    intros t2 p2 [[-> ->]|[_ H2]]%thread_cases Hd; [done|by eapply Hn].
  - intros t1 p1 h [[-> ->]|[Hne H1]]%thread_cases Hd; [done|].
    destruct (inv_doomed _ Hi _ _ _ H1 Hd) as (Hs & Hu & Hn). split; [done|]. split; [done|].
    intros t2 p2 [[-> ->]|[_ H2]]%thread_cases; [done|by eapply Hn].
Qed.

Lemma inv_starts y : starts y → inv y.
Proof.
  intros (Hc & Hh & Hk & Hi). destruct y as [ths [cfg k cl hp]]. cbn in *. subst.
  split; cbn.
  - intros t t' p p' Ht _ _ Hw. by destruct (Hi _ _ Ht) as [? ->].
  - done.
  - intros h b Hb. by rewrite lookup_empty in Hb.
  - intros n e He. by rewrite lookup_empty in He.
  - intros t p n q Ht Hq. by destruct (Hi _ _ Ht) as [? ->].
  - intros t p h Ht Hl. by destruct (Hi _ _ Ht) as [? ->].
  - intros t p h Ht Ho. by destruct (Hi _ _ Ht) as [? ->].
  - intros t p h Ht Hd. by destruct (Hi _ _ Ht) as [? ->].
Qed.

Lemma inv_step y y' : inv y → step y y' → inv y'.
Proof.
  intros Hi Hs. destruct Hs as [ths s t p p' s' Ht Hl Hg].
  set (y := {| sy_threads := ths; sy_shared := s |}) in *.
  destruct (reads p || reads p') eqn:Er.
  - apply orb_prop in Er. apply (inv_effect y t p); [done..|]. by apply (reader_effect y t).
  - apply orb_false_elim in Er as [Er Er'].
    destruct (writer_effect y t p p' s' Hi Ht Er Er' Hl) as [He|(n & cfg & k & -> & -> & Hc & ->)].
    + by apply (inv_effect y t p).
    + by apply (inv_commit y).
Qed.
End inv.

(** C26: no request works with a stale or a dying client.  Whatever requests, profile and
    credential changes, saved-password connections and shutdowns interleave, a request that
    is handed a client gets one built from exactly the profile that is committed under its
    name at that moment, still open, and that no goroutine is about to close. *)
Theorem handed_out_current `{Unicode, NetURL} y0 y t name profile h :
  starts y0 → rtc step y0 y → sy_threads y !! t = Some (Holding name profile h) →
  current (sh_config (sy_shared y)) name = Some profile ∧
  sh_heap (sy_shared y) !! h
    = Some {| bt_name := name; bt_profile := profile; bt_open := true |} ∧
  ∀ t' p', sy_threads y !! t' = Some p' → doomed p' ≠ Some h.
Proof.
  intros Hs Hr Ht. assert (inv y) as Hi.
  { eapply (rtc_keeps step); [exact inv_step|exact Hr|by apply inv_starts]. }
  split; [by apply (inv_profile _ Hi _ _ _ _ Ht)|]. split.
  - by destruct (inv_live _ Hi _ _ _ Ht eq_refl) as (n & q & [= <- <-] & ?).
  - intros t' p' Ht' Hd. destruct (inv_doomed _ Hi _ _ _ Ht' Hd) as (_ & _ & Hn).
    by apply (Hn _ _ Ht).
Qed.

(** ** A run *)

Definition sample_nas (revision : Z) : NASProfile := {|
  np_URL := ""; np_Identity := zero_identity; np_Endpoints := []; np_Username := "admin";
  np_PasswordEnv := ""; np_InsecureSkipTLSVerify := false; np_TLSMode := "";
  np_CertificateFingerprint := ""; np_TimeoutSeconds := 0; np_Role := "";
  np_Revision := revision |}.
Definition sample_config (revision : Z) : Config :=
  {| cf_DefaultNAS := "nas1"; cf_NAS := {[ "nas1" := sample_nas revision ]} |}.
Definition no_parse : NetURL :=
  {| url_Parse := fun _ => None; url_ParseRequestURI := fun _ => None |}.

(** A cache left from revision 3, and the commit of revision 4. *)
Definition sample_shared (revision : Z) (c : cache) (hp : gmap nat built) : shared := {|
  sh_config := sample_config revision; sh_counter := revision; sh_clients := c;
  sh_heap := hp |}.
Definition two_threads (p q : pc) (s : shared) : system :=
  {| sy_threads := {[ 0%nat := p; 1%nat := q ]}; sy_shared := s |}.

Section runs.
Context `{Unicode, NetURL}.

Lemma first_step p p' q s s' : reads q = false → writes q = false → local p s p' s' →
  step (two_threads p q s) (two_threads p' q s').
Proof.
  intros Hr Hw Hl. unfold two_threads.
  replace ({[0%nat := p'; 1%nat := q]} : gmap nat pc)
    with (<[0%nat := p']> {[0%nat := p; 1%nat := q]} : gmap nat pc) by by rewrite insert_insert_eq.
  apply (step_thread _ _ 0%nat p); [by rewrite lookup_insert_eq|done|].
  split; intros _ _ t r [? Hx]%lookup_delete_Some;
    apply lookup_insert_Some in Hx as [[? <-]|[_ [? <-]%lookup_singleton_Some]];
    first [done|split; done|congruence].
Qed.

Lemma second_step p q q' s s' : reads p = false → writes p = false → local q s q' s' →
  step (two_threads p q s) (two_threads p q' s').
Proof.
  intros Hr Hw Hl. unfold two_threads.
  replace ({[0%nat := p; 1%nat := q']} : gmap nat pc)
    with (<[1%nat := q']> {[0%nat := p; 1%nat := q]} : gmap nat pc)
    by (rewrite insert_insert_ne by done; by rewrite insert_singleton_eq).
  apply (step_thread _ _ 1%nat q); [by rewrite lookup_insert_ne, lookup_singleton_eq|done|].
  split; intros _ _ t r [? Hx]%lookup_delete_Some;
    apply lookup_insert_Some in Hx as [[? <-]|[_ [? <-]%lookup_singleton_Some]];
    first [done|split; done|congruence].
Qed.

Lemma sample_current r n p : current (sample_config r) n = Some p ↔ n = "nas1" ∧ p = sample_nas r.
Proof.
  unfold current, Normalize. cbn. rewrite map_fmap_singleton, lookup_singleton_Some.
  unfold normalize_profile. cbn. naive_solver.
Qed.

Lemma sample_commit : commit_ok (sample_shared 3 ∅ ∅) (sample_config 4) 4.
Proof. split; [cbn; lia|]. intros n p [-> ->]%sample_current. right. cbn. lia. Qed.

Lemma sample_starts p q : starts (two_threads (Idle p) (Idle q) (sample_shared 3 ∅ ∅)).
Proof.
  split; [done|]. split; [done|]. split.
  - intros n r [-> ->]%sample_current. cbn. lia.
  - cbn. intros t r [[_ <-]|[_ [_ <-]%lookup_singleton_Some]]%lookup_insert_Some; by eexists.
Qed.
End runs.

(** One thread commits revision 4 and closes what was cached, the other then asks for a
    client and is handed a new one. *)
Lemma handed_out_current_witness :
  ∃ s, rtc (@step ascii_tables no_parse)
    (two_threads (Idle (OpClient "nas1" false)) (Idle (OpMutate "nas1")) (sample_shared 3 ∅ ∅))
    (two_threads (Holding "nas1" (sample_nas 4) 0) Finished s) ∧
  current (H0 := no_parse) (sh_config s) "nas1" = Some (sample_nas 4) ∧
  sh_heap s !! 0%nat
    = Some {| bt_name := "nas1"; bt_profile := sample_nas 4; bt_open := true |}.
Proof.
  pose (t1 := ascii_tables). pose (t2 := no_parse).
  pose (s4 := sample_shared 4 ∅ ∅).
  pose (s5 := new_client 0 "nas1" (sample_nas 4) s4).
  exists (set_clients (publish ∅ "nas1" 0%nat 4) s5).
  match goal with |- ?G ∧ _ => assert G as Hrun end.
  { eapply rtc_l; [by apply second_step; [..|apply l_lock]|].
    eapply rtc_l; [by apply second_step; [..|apply l_commit, sample_commit]|].
    eapply rtc_l; [by apply (second_step _ _ (Closing None) _ s4); [..|apply l_evict]|].
    eapply rtc_l; [by apply second_step; [..|apply l_closed]|].
    eapply rtc_l; [by apply first_step; [..|apply l_start]|].
    eapply rtc_l; [by apply first_step; [..|apply l_resolved]|].
    eapply rtc_l; [by apply first_step; [..|apply (l_miss _ _ _ None ∅)]|].
    eapply rtc_l; [by apply first_step; [..|apply l_built]|].
    eapply rtc_l; [by apply first_step; [..|apply l_publish]|].
    apply rtc_refl. }
  split; [exact Hrun|].
  destruct (handed_out_current _ _ 0%nat "nas1" (sample_nas 4) 0%nat
    (sample_starts _ _) Hrun eq_refl) as (Hc & Hb & _).
  by split.
Defined.
