(* ===== verification/TokenThms.v ===== *)
(** * Properties of MCP bearer tokens

    Authentication accepts exactly the current secret of an active token; creating,
    rotating and revoking a token change what authentication accepts as documented. *)

From S2P Require Import Prelude.
From S2P Require Import GoStrings.
From S2P Require Import Bolt.
From S2P Require Import RemotePolicy.
From S2P Require Import StateTypes.
From S2P Require Import Records.
From S2P Require Import Policy.
From S2P Require Import Samples.
From S2P Require Import PolicyThms.

(** ** Specification vocabulary *)

(** [raw] is the current secret of the active token [token]. *)
Definition credential `{Sha256} (d : DB) (raw : string) (now : Z) (token : mcpTokenRecord) :
    Prop :=
  HasPrefix raw mcpTokenPrefix = true ∧ slen mcpTokenPrefix + 32 ≤ slen raw ∧
  ∃ id, b_token_digests d !! sha256 raw = Some id ∧ id ≠ "" ∧
    readMCPToken d id = Ok token ∧ token_active (tr_MCPToken token) now = true.

(** The state after a successful authentication: the token's last use is recorded. *)
Definition touch (now : Z) (token : mcpTokenRecord) (w : gworld) : gworld :=
  World (set_b_mcp_tokens
    (<[tr_ID token := Json (upd_tr (set_tk_LastUsedAt (Some now)) token)]>
       (b_mcp_tokens (w_db w))) (w_db w)) (w_rest w).

(** Token records are stored under their id. *)
Definition tokens_keyed (d : DB) : Prop :=
  ∀ k r, b_mcp_tokens d !! k = Some (Json r) → tr_ID r = k.

(** ** Runs of the operations *)

Section runs.
Context `{Sha256}.

Lemma authenticate_run ctx raw now (w : gworld) :
  ctx_Err ctx = None →
  (∃ token, credential (w_db w) raw now token ∧
     AuthenticateMCPToken ctx raw now w =
       (Ok (principalFor (tr_MCPToken token)), touch now token w))
  ∨ (¬ ∃ token, credential (w_db w) raw now token) ∧
     AuthenticateMCPToken ctx raw now w = (Err ErrTokenUnauthorized, w).
Proof.
  intros Hctx. unfold AuthenticateMCPToken, ctx_check, credential. rewrite Hctx.
  destruct w as [d fl].
  destruct (HasPrefix raw mcpTokenPrefix) eqn:Hp;
    [|right; split; [intros (?&?&_); congruence|done]].
  destruct (Z.leb_spec (slen mcpTokenPrefix + 32) (slen raw)) as [Hl|Hl];
    [|right; split; [intros (?&_&?&_); lia|done]].
  unfold mask, Update, put_token, touch. st_unfold. simpl.
  destruct (b_token_digests d !! sha256 raw) as [id|] eqn:Hd; simpl;
    [|right; split; [intros (?&_&_&?&?&_); congruence|done]].
  case_bool_decide as Hid; simpl;
    [right; split; [intros (?&_&_&?&?&?&_); congruence|done]|].
  destruct (readMCPToken d id) as [token|] eqn:Ht; simpl;
    [|right; split; [intros (?&_&_&?&?&_&?&_); congruence|done]].
  unfold validateActiveToken.
  destruct (token_active (tr_MCPToken token) now) eqn:Ha; simpl.
  - left. exists token. split; [|done]. repeat (split; [done|]). eauto.
  - right. split; [|done]. intros (t & _ & _ & id' & ? & _ & ? & ?). simplify_eq.
    congruence.
Qed.

Lemma create_run ctx input now1 now2 rtok rid (w w' : gworld) i :
  CreateMCPToken ctx input now1 now2 rtok rid w = (Ok i, w') →
  ∃ input', normalizeMCPTokenInput input now1 = Ok input' ∧
    let record := (newMCPTokenRecord input' now2 rtok rid).2 in
    is_BearerToken i = mcpTokenPrefix +:+ rtok ∧ is_Token i = tr_MCPToken record ∧
    b_mcp_tokens (w_db w') = <[rid := Json record]> (b_mcp_tokens (w_db w)) ∧
    b_token_digests (w_db w') =
      <[sha256 (mcpTokenPrefix +:+ rtok) := rid]> (b_token_digests (w_db w)) ∧
    (∀ n, n ∈ ti_NASAllowlist input' → is_Ok (readProfile (w_db w) n) = true).
Proof.
  unfold CreateMCPToken. intros Hrun. tx_inv.
  match goal with Hc : ctx_check _ _ = _ |- _ => apply ctx_check_ok in Hc as [_ ->] end.
  match goal with Hn : normalizeMCPTokenInput _ _ = Ok ?x |- _ => exists x end.
  split; [done|]. unfold newMCPTokenRecord in *. tx_inv.
  unfold putMCPTokenRecord, validateTokenNAS, put_token, put_digest in *. tx_inv.
  repeat (split; [done|]).
  match goal with Hv : (if ?b then _ else _) = Ok _ |- _ => destruct b eqn:Hb; [|done] end.
  rewrite forallb_forall in Hb. intros n Hn. apply Hb. by apply list_elem_of_In.
Qed.

Lemma rotate_run ctx id now rtok (w w' : gworld) i :
  RotateMCPToken ctx id now rtok w = (Ok i, w') →
  ∃ record, readMCPToken (w_db w) id = Ok record ∧
    tk_RevokedAt (tr_MCPToken record) = None ∧
    let raw := mcpTokenPrefix +:+ rtok in
    let record' := upd_tr (set_tk_UpdatedAt now) (set_tr_Digest (sha256 raw) record) in
    is_BearerToken i = raw ∧
    b_mcp_tokens (w_db w') = <[id := Json record']> (b_mcp_tokens (w_db w)) ∧
    b_token_digests (w_db w') =
      <[sha256 raw := id]> (delete (tr_Digest record) (b_token_digests (w_db w))) ∧
    b_oauth_refresh (w_db w') =
      delete_keys (refresh_keys_of (w_db w) (tr_ID record)) (b_oauth_refresh (w_db w)) ∧
    is_Token i = tr_MCPToken record'.
Proof.
  unfold RotateMCPToken. intros Hrun. tx_inv.
  match goal with Hc : ctx_check _ _ = _ |- _ => apply ctx_check_ok in Hc as [_ ->] end.
  match goal with Hr : readMCPToken _ _ = Ok ?x |- _ => exists x end.
  unfold delete_digest, deleteOAuthRefreshTokensForMCPToken, put_token, put_digest in *.
  tx_inv. split_bools. split; [done|]. by repeat split.
Qed.

Lemma delete_requests_run f (w w' : gworld) u :
  delete_requests f w = (Ok u, w') →
  w' = World (set_b_approval_requests
    (delete_keys (keys_where f (b_approval_requests (w_db w)))
       (b_approval_requests (w_db w))) (w_db w)) (w_rest w).
Proof.
  unfold delete_requests. intros Hrun. tx_inv.
  match goal with Hc : foreach _ _ = _ |- _ => apply foreach_ok in Hc as [_ ->] end.
  done.
Qed.

Lemma change_run ctx id change now (w w' : gworld) t :
  changeMCPToken ctx id change now w = (Ok t, w') →
  ∃ record, readMCPToken (w_db w) id = Ok record ∧
    let record' := upd_tr (fun t => set_tk_UpdatedAt now (change t now)) record in
    t = tr_MCPToken record' ∧ w_rest w' = w_rest w ∧
    b_mcp_tokens (w_db w') = <[id := Json record']> (b_mcp_tokens (w_db w)) ∧
    b_token_digests (w_db w') = b_token_digests (w_db w) ∧
    b_approval_requests (w_db w') =
      match tk_RevokedAt t with
      | Some _ => delete_keys (keys_where (requests_of_token (tk_ID t))
                    (b_approval_requests (w_db w))) (b_approval_requests (w_db w))
      | None => b_approval_requests (w_db w)
      end ∧
    b_oauth_refresh (w_db w') =
      delete_keys (refresh_keys_of (w_db w) (tk_ID t)) (b_oauth_refresh (w_db w)).
Proof.
  unfold changeMCPToken. intros Hrun. tx_inv.
  match goal with Hc : ctx_check _ _ = _ |- _ => apply ctx_check_ok in Hc as [_ ->] end.
  match goal with Hr : readMCPToken _ _ = Ok ?x |- _ => exists x; rename x into rec end.
  unfold put_token, deleteOAuthRefreshTokensForMCPToken in *. tx_inv.
  split; [done|]. simpl in *.
  destruct (tk_RevokedAt (change _ now)); simpl in *.
  - match goal with Hd : deletePendingApprovalsForToken _ _ = _ |- _ =>
      apply delete_requests_run in Hd as -> end. by repeat split.
  - tx_inv. by repeat split.
Qed.
End runs.

(** A credential authenticates as its token, and only one token has it. *)
Lemma authenticate_credential `{Sha256} ctx raw now (w : gworld) token :
  ctx_Err ctx = None → credential (w_db w) raw now token →
  AuthenticateMCPToken ctx raw now w = (Ok (principalFor (tr_MCPToken token)), touch now token w).
Proof.
  intros Hctx Hc'. destruct (authenticate_run ctx raw now w Hctx) as [(token' & Hc & ->)|[Hn _]].
  - destruct Hc as (_ & _ & id & Hd & _ & Hr & _).
    destruct Hc' as (_ & _ & id' & Hd' & _ & Hr' & _).
    assert (id' = id) as -> by congruence. by assert (token' = token) as -> by congruence.
  - destruct Hn. eauto.
Qed.

(** ** Property theorems *)

(** The record a run of [CreateMCPToken] stores. *)
Definition created_record `{Sha256} (input : MCPTokenInput) (now : Z) (rtok rid : string) :
    mcpTokenRecord := (newMCPTokenRecord input now rtok rid).2.

(** C16: Authentication is exact.  A bearer secret is accepted if and only if it has the
    token prefix and length, its digest is indexed to a readable token, and that token is
    neither revoked nor expired; the principal returned is that token's, the only write is
    the token's last use, and every refusal is the same error and changes nothing. *)
Theorem authenticate_exact `{Sha256} ctx raw now (w : gworld) :
  ctx_Err ctx = None →
  let out := AuthenticateMCPToken ctx raw now w in
  (is_Ok out.1 = true ↔ ∃ token, credential (w_db w) raw now token) ∧
  (∀ token, credential (w_db w) raw now token →
     out = (Ok (principalFor (tr_MCPToken token)), touch now token w)) ∧
  (is_Ok out.1 = false → out = (Err ErrTokenUnauthorized, w)).
Proof.
  intros Hctx out. unfold out.
  assert (∀ token, credential (w_db w) raw now token → _) as Hcr
    by exact (λ token, authenticate_credential ctx raw now w token Hctx).
  destruct (authenticate_run ctx raw now w Hctx) as [(token & Hc & Hrun)|[Hn Hrun]];
    (split; [|split; [done|by rewrite Hrun]]); rewrite Hrun; simpl.
  - split; [by exists token|done].
  - split; [done|by intros Hc; destruct Hn].
Qed.

Lemma authenticate_exact_witness :
  is_Ok (@AuthenticateMCPToken id_sha256 Background sample_raw Minute sample_world).1 = true
  ∧ ∃ token, @credential id_sha256 sample_db sample_raw Minute token.
Proof.
  assert (is_Ok (@AuthenticateMCPToken id_sha256 Background sample_raw Minute
    sample_world).1 = true) as Hok by (vm_compute; reflexivity).
  split; [exact Hok|].
  apply (@authenticate_exact id_sha256 Background sample_raw Minute sample_world eq_refl),
    Hok.
Defined.

Section roundtrip.
Context `{Sha256}.

Lemma credential_of d raw now id r :
  HasPrefix raw mcpTokenPrefix = true → slen mcpTokenPrefix + 32 ≤ slen raw →
  b_token_digests d !! sha256 raw = Some id → id ≠ "" → readMCPToken d id = Ok r →
  token_active (tr_MCPToken r) now = true → credential d raw now r.
Proof. intros. split; [done|]. split; [done|]. exists id. auto. Qed.

Lemma normalize_mode input now input' :
  normalizeMCPTokenInput input now = Ok input' →
  ti_ApprovalMode input' = ApprovalModeInteractive
  ∨ ti_ApprovalMode input' = ApprovalModeAdministrator.
Proof.
  unfold normalizeMCPTokenInput. intros Hn.
  destruct (_ || _) in Hn; [done|]. destruct (has_control _) in Hn; [done|].
  set (mode := if bool_decide _ then _ else _) in Hn.
  destruct (negb (_ || _)) eqn:Em in Hn; [done|].
  assert (mode = ApprovalModeInteractive ∨ mode = ApprovalModeAdministrator) as Hm.
  { apply negb_false_iff, orb_true_iff in Em as [Em|Em]; apply bool_decide_eq_true in Em;
      auto. }
  destruct (negb _) in Hn; [done|].
  destruct (ti_ExpiresAt input); [destruct (negb _) in Hn; [done|]|]; by simplify_eq.
Qed.

Lemma normalized_mode_nonblank input now input' :
  normalizeMCPTokenInput input now = Ok input' → TrimSpace (ti_ApprovalMode input') ≠ "".
Proof. intros [->| ->]%normalize_mode; vm_compute; discriminate. Qed.

(** A freshly issued secret is a credential for its token while that is active. *)
Lemma create_credential ctx input now1 now2 now3 rtok rid (w w' : gworld) i :
  CreateMCPToken ctx input now1 now2 rtok rid w = (Ok i, w') →
  rid ≠ "" → 32 ≤ slen rtok → token_active (is_Token i) now3 = true →
  ∃ record, tr_MCPToken record = is_Token i ∧
    credential (w_db w') (is_BearerToken i) now3 record.
Proof.
  intros (input' & Hn & Hb & Ht & Htok & Hdig & _)%create_run Hrid Hlen Hact.
  set (record := (newMCPTokenRecord input' now2 rtok rid).2) in *.
  exists record. split; [done|]. rewrite Hb. apply (credential_of _ _ _ rid).
  - apply HasPrefix_app.
  - rewrite slen_app. lia.
  - rewrite Hdig. apply lookup_insert_eq.
  - done.
  - apply readMCPToken_put; [rewrite Htok; apply lookup_insert_eq|].
    simpl. by eapply normalized_mode_nonblank.
  - by rewrite <- Ht.
Qed.

Lemma rotate_credential ctx id now now3 rtok (w w' : gworld) i record :
  RotateMCPToken ctx id now rtok w = (Ok i, w') →
  readMCPToken (w_db w) id = Ok record → id ≠ "" → 32 ≤ slen rtok →
  token_active (tr_MCPToken record) now3 = true →
  credential (w_db w') (is_BearerToken i) now3
    (upd_tr (set_tk_UpdatedAt now)
       (set_tr_Digest (sha256 (is_BearerToken i)) record)).
Proof.
  intros (record' & Hr' & _ & Hb & Htok & Hdig & _)%rotate_run Hr Hid Hlen Hact.
  assert (record' = record) as -> by congruence. rewrite Hb.
  apply (credential_of _ _ _ id); [apply HasPrefix_app|rewrite slen_app; lia| |done| |done].
  - rewrite Hdig. apply lookup_insert_eq.
  - apply readMCPToken_put; [rewrite Htok; apply lookup_insert_eq|].
    simpl. by eapply readMCPToken_mode.
Qed.
End roundtrip.

(** A created token authenticates.  The bearer secret returned by [CreateMCPToken] is
    accepted in the state it leaves, as long as the token has not expired, and yields
    exactly the principal of the created token. *)
Theorem create_then_authenticate `{Sha256} ctx ctx' input now1 now2 now3 rtok rid
    (w w' : gworld) i :
  CreateMCPToken ctx input now1 now2 rtok rid w = (Ok i, w') →
  rid ≠ "" → 32 ≤ slen rtok → ctx_Err ctx' = None →
  token_active (is_Token i) now3 = true →
  (AuthenticateMCPToken ctx' (is_BearerToken i) now3 w').1 = Ok (principalFor (is_Token i)).
Proof.
  intros Hc Hrid Hlen Hctx Hact.
  destruct (create_credential _ _ _ _ now3 _ _ _ _ _ Hc Hrid Hlen Hact) as (rec & <- & Hcr).
  by rewrite (authenticate_credential _ _ _ _ _ Hctx Hcr).
Qed.

Definition sample_input : MCPTokenInput := {|
  ti_Name := " agent "; ti_Scopes := ["nas.plan"; "nas.read"; "nas.plan"];
  ti_NASAllowlist := ["nas1"]; ti_ExpiresAt := None; ti_ApprovalMode := "" |}.

Definition sample_issued := @CreateMCPToken id_sha256 Background sample_input 0 0
  sample_rtok "t9" sample_world.

Lemma create_then_authenticate_witness :
  ∃ i w', sample_issued = (Ok i, w') ∧
  (@AuthenticateMCPToken id_sha256 Background (is_BearerToken i) Minute w').1 =
    Ok (principalFor (is_Token i)).
Proof.
  destruct sample_issued as [[i|e] w'] eqn:E; [|vm_compute in E; discriminate].
  exists i, w'. split; [reflexivity|].
  apply (@create_then_authenticate id_sha256 Background Background sample_input 0 0 Minute
    sample_rtok "t9" sample_world w' i); [exact E|discriminate|vm_compute; discriminate
    |reflexivity|].
  vm_compute in E. injection E as <- <-. vm_compute. reflexivity.
Defined.
