(* ===== verification/RepositoryThms.v ===== *)
(** * Properties of profiles and of opening the repository

    Optimistic revisions: an edit or deletion needs the current revision, every committed
    change draws a new one from the counter, and no revision is ever handed out twice. *)

From S2P Require Import Prelude.
From S2P Require Import GoStrings.
From S2P Require Import Bolt.
From S2P Require Import NetIP.
From S2P Require Import RemotePolicy.
From S2P Require Import Password.
From S2P Require Import Config.
From S2P Require Import StateTypes.
From S2P Require Import Records.
From S2P Require Import Policy.
From S2P Require Import Repository.
From S2P Require Import Samples.
From S2P Require Import PolicyThms.

(** ** Runs of the operations *)

Section runs.
Context `{Unicode, NetURL, KeyN}.

Lemma check_revision_ok expected record (w : gworld) u w' :
  check_revision expected record w = (Ok u, w') →
  expected ≠ 0 ∧ pr_Revision record = expected ∧ w' = w.
Proof.
  unfold check_revision. intros [Hb ->]%check_ok_inv.
  apply negb_true_iff, orb_false_iff in Hb as [Hz Hr].
  apply negb_false_iff in Hr. apply Z.eqb_neq in Hz. apply Z.eqb_eq in Hr. auto.
Qed.

Lemma get_profile_run ctx name (w : gworld) r w' :
  GetProfile ctx name w = (r, w') →
  w' = w ∧ ∀ p, r = Ok p → ∃ record, readProfile (w_db w) name = Ok record ∧
    p = publicProfile record (bool_decide (meta_get (w_db w) keyDefaultProfile = name)).
Proof.
  unfold GetProfile, ctx_check. destruct (ctx_Err ctx); st_unfold.
  { intros; simplify_eq. split; [done|]. discriminate. }
  unfold View. simpl. intros; simplify_eq. split; [done|].
  intros p. unfold mbind, result_bind. destruct (readProfile _ _) as [record|]; [|done].
  intros [= <-]. eauto.
Qed.

(** The state after a committed creation. *)
Definition created_db (input : ProfileInput) (now : Z) (rid : string) (d : DB) : DB :=
  let revision := u64_wrap (revision_counter d + 1) in
  let meta := <[keyRevisionCounter := encodeUint64 revision]> (b_meta d) in
  set_b_profiles (<[pi_Name input := Json (new_profile rid now input revision)]> (b_profiles d))
    (set_b_meta (if bool_decide (meta_get d keyDefaultProfile = "")
                 then <[keyDefaultProfile := pi_Name input]> meta else meta) d).

Lemma create_tx_run input now rid (w : gworld) u w' :
  create_profile_tx input now rid w = (Ok u, w') →
  b_profiles (w_db w) !! pi_Name input = None ∧ count (b_profiles (w_db w)) < MaxProfiles ∧
  w' = World (created_db input now rid (w_db w)) (w_rest w).
Proof.
  destruct w as [d fl]. unfold create_profile_tx, check, nextProfileRevision, put_profile.
  st_unfold. simpl.
  case_bool_decide as Hn; simpl; [|done].
  destruct (Z.ltb_spec (count (b_profiles d)) MaxProfiles); simpl; [|done].
  unfold put_meta, created_db, meta_get. simpl. rewrite lookup_insert_ne by done.
  case_bool_decide; st_unfold; simpl; intros; by simplify_eq.
Qed.

Lemma create_profile_run ctx input now rid (w w' : gworld) p :
  CreateProfile ctx input now rid w = (Ok p, w') →
  ∃ input', normalizeProfileInput input = Ok input' ∧
    b_profiles (w_db w) !! pi_Name input' = None ∧
    count (b_profiles (w_db w)) < MaxProfiles ∧
    w' = World (created_db input' now rid (w_db w)) (w_rest w) ∧
    ∃ record, readProfile (w_db w') (pi_Name input') = Ok record ∧
      p = publicProfile record
            (bool_decide (meta_get (w_db w') keyDefaultProfile = pi_Name input')).
Proof.
  unfold CreateProfile. intros Hrun. tx_inv.
  match goal with Hc : ctx_check _ _ = _ |- _ => apply ctx_check_ok in Hc as [_ ->] end.
  match goal with Hn : normalizeProfileInput _ = Ok ?x |- _ => exists x; split; [done|] end.
  match goal with Hc : create_profile_tx _ _ _ _ = _ |- _ =>
    apply create_tx_run in Hc as (? & ? & ->) end.
  match goal with Hg : GetProfile _ _ _ = _ |- _ =>
    apply get_profile_run in Hg as [-> Hg]; destruct (Hg _ eq_refl) as (record & ? & ->) end.
  split_and!; try done. by exists record.
Qed.

Definition update_db (name : string) (input : ProfileInput) (now : Z) (record : profileRecord)
    (d : DB) : DB :=
  if profile_changed record input then
    let revision := u64_wrap (revision_counter d + 1) in
    set_b_profiles (<[pr_Name record := Json (apply_profile_input input revision now record)]>
      (b_profiles d))
      (set_b_meta (<[keyRevisionCounter := encodeUint64 revision]> (b_meta d)) d)
  else d.

Lemma update_tx_run name expected input now (w : gworld) u w' :
  update_profile_tx name expected input now w = (Ok u, w') →
  ∃ record, readProfile (w_db w) name = Ok record ∧ expected ≠ 0 ∧
    pr_Revision record = expected ∧
    w' = World (update_db name input now record (w_db w)) (w_rest w).
Proof.
  unfold update_profile_tx. intros Hrun. tx_inv.
  match goal with Hc : check_revision _ _ _ = _ |- _ =>
    apply check_revision_ok in Hc as (? & ? & ->) end.
  match goal with Hr : readProfile _ _ = Ok ?r |- _ => exists r; do 3 (split; [done|]) end.
  unfold update_db. destruct (profile_changed _ _); simpl in *.
  - tx_inv. match goal with Hn : nextProfileRevision _ = _ |- _ =>
      apply nextProfileRevision_run in Hn as [[= ->] ->] end.
    unfold putProfile, put_profile in *. tx_inv. done.
  - tx_inv. by match goal with |- ?w = _ => destruct w end.
Qed.

Lemma update_profile_run ctx name expected input now (w w' : gworld) p :
  UpdateProfile ctx name expected input now w = (Ok p, w') →
  ∃ input' record, pi_Name input' = TrimSpace name ∧
    readProfile (w_db w) name = Ok record ∧ expected ≠ 0 ∧
    pr_Revision record = expected ∧
    w' = World (update_db name input' now record (w_db w)) (w_rest w) ∧
    ∃ record', readProfile (w_db w') name = Ok record' ∧
      p = publicProfile record' (bool_decide (meta_get (w_db w') keyDefaultProfile = name)).
Proof.
  unfold UpdateProfile. intros Hrun. tx_inv.
  match goal with Hc : ctx_check _ _ = _ |- _ => apply ctx_check_ok in Hc as [_ ->] end.
  match goal with Hc : update_profile_tx _ _ _ _ _ = _ |- _ =>
    apply update_tx_run in Hc as (record & ? & ? & ? & ->) end.
  match goal with Hg : GetProfile _ _ _ = _ |- _ =>
    apply get_profile_run in Hg as [-> Hg]; destruct (Hg _ eq_refl) as (record' & ? & ->) end.
  match goal with Hn : normalizeProfileInput _ = Ok ?x |- _ => exists x, record;
    assert (pi_Name x = TrimSpace name) end.
  { match goal with Hn : normalizeProfileInput _ = Ok _ |- _ => revert Hn end.
    clear. unfold normalizeProfileInput. simpl. intros Hn.
    unfold mbind, result_bind in Hn. repeat case_match; by simplify_eq. }
  split_and!; try done. by exists record'.
Qed.
End runs.

Section delete_run.
Context `{KeyN}.

Definition cleaned_token (name : string) (nows : string → Z) (k : string)
    (v : stored mcpTokenRecord) : stored mcpTokenRecord :=
  match drop_allowed name (nows k) v with Some r => Json r | None => v end.

(** What a committed deletion leaves in the buckets. *)
Definition deleted_from (d : DB) (name : string) (record : profileRecord)
    (retainSecrets : bool) (nows : string → Z) (d' : DB) : Prop :=
  b_profiles d' = delete name (b_profiles d) ∧
  b_secrets d' = (if retainSecrets then b_secrets d
    else delete_keys (keys_where (secrets_of (pr_ID record)) (b_secrets d)) (b_secrets d)) ∧
  b_mcp_tokens d' = map_imap (λ k v, Some (cleaned_token name nows k v)) (b_mcp_tokens d) ∧
  b_meta d' = (if bool_decide (meta_get d keyDefaultProfile = name)
               then delete keyDefaultProfile (b_meta d) else b_meta d) ∧
  b_token_digests d' = b_token_digests d ∧ b_oauth_refresh d' = b_oauth_refresh d ∧
  b_approvals d' = b_approvals d ∧ b_approval_requests d' = b_approval_requests d ∧
  b_oauth_clients d' = b_oauth_clients d ∧ b_admin_sessions d' = b_admin_sessions d ∧
  b_migrations d' = b_migrations d.

Lemma delete_profile_run ctx name expected retain nows now wall rid (w w' : gworld) p :
  DeleteProfile ctx name expected retain nows now wall rid w = (Ok p, w') →
  ∃ record, readProfile (w_db w) name = Ok record ∧ expected ≠ 0 ∧
    pr_Revision record = expected ∧
    p = publicProfile record (bool_decide (meta_get (w_db w) keyDefaultProfile = name)) ∧
    deleted_from (w_db w) name record retain nows (w_db w') ∧
    (retain = false → ForEach (b_secrets (w_db w)) ≠ None) ∧
    ForEach (b_mcp_tokens (w_db w)) ≠ None.
Proof.
  destruct w as [d fl]. unfold DeleteProfile.
  intros (u0 & w0 & [_ ->]%ctx_check_ok & Hb%Update_ok_inv)%bind_ok_inv.
  revert Hb. unfold delete_profile_tx.
  intros (d1 & w2 & Hd & Hb)%bind_ok_inv. unfold getDB in Hd. cbn in Hd. injection Hd as <- <-.
  apply bind_ok_inv in Hb as (record & w3 & Hr & Hb). apply lift_ok_inv in Hr as [Hr ->].
  apply bind_ok_inv in Hb as ([] & w4 & Hc & Hb).
  apply check_revision_ok in Hc as (? & ? & ->).
  exists record. do 3 (split; [done|]).
  apply bind_ok_inv in Hb as ([] & w5 & Hs & Hb).
  assert (w5 = World (set_b_secrets (if retain then b_secrets d
    else delete_keys (keys_where (secrets_of (pr_ID record)) (b_secrets d)) (b_secrets d)) d) fl
    ∧ (retain = false → ForEach (b_secrets d) ≠ None)) as [-> Hsec].
  { destruct retain.
    - unfold mret, ST_ret in Hs. simplify_eq. split; [by destruct d|done].
    - apply bind_ok_inv in Hs as (l & w6 & Hf & Hs). apply foreach_ok in Hf as [Hf ->].
      unfold modifyDB in Hs. simplify_eq. simpl. split; [done|]. by rewrite Hf. }
  clear Hs. apply bind_ok_inv in Hb as ([] & w6 & Hp & Hb).
  unfold modifyDB in Hp. simplify_eq. simpl in Hb.
  apply bind_ok_inv in Hb as (l & w7 & Hf & Hb). apply foreach_ok in Hf as [Hf ->].
  apply bind_ok_inv in Hb as ([] & w8 & Ht & Hb).
  unfold modifyDB in Ht. simplify_eq. simpl in Hb.
  apply bind_ok_inv in Hb as ([] & w9 & Ha & Hb).
  assert (∃ au, w9 = World (set_b_audit au (set_b_mcp_tokens
    (map_imap (λ k v, Some (cleaned_token name nows k v)) (b_mcp_tokens d))
    (set_b_profiles (delete name (b_profiles d)) (set_b_secrets (if retain then b_secrets d
    else delete_keys (keys_where (secrets_of (pr_ID record)) (b_secrets d)) (b_secrets d)) d))))
    fl) as [au ->].
  { destruct (existsb _ _).
    - apply appendAuditTx_run in Ha as [_ ->]. simpl. eauto.
    - unfold mret, ST_ret in Ha. simplify_eq. by exists (b_audit d). }
  apply bind_ok_inv in Hb as ([] & w10 & Hm & Hb). unfold mret, ST_ret in Hb. simplify_eq.
  split; [done|]. split; [|split; [done|simpl; by rewrite Hf]].
  unfold deleted_from. simpl.
  destruct (bool_decide (meta_get d keyDefaultProfile = name)).
  - unfold delete_meta, modifyDB in Hm. by simplify_eq.
  - unfold mret, ST_ret in Hm. by simplify_eq.
Qed.
End delete_run.

(** ** Property theorems: deletion and optimistic edits *)

(** Profiles are stored under their name. *)
Definition profiles_keyed (d : DB) : Prop :=
  ∀ k r, b_profiles d !! k = Some (Json r) → pr_Name r = k.

Lemma drop_allowed_spec name now v r :
  drop_allowed name now v = Some r →
  ∃ r0, v = Json r0 ∧ name ∈ tk_NASAllowlist (tr_MCPToken r0) ∧
    tr_Digest r = tr_Digest r0 ∧ tr_ID r = tr_ID r0 ∧
    tk_RevokedAt (tr_MCPToken r) = tk_RevokedAt (tr_MCPToken r0) ∧
    tk_ExpiresAt (tr_MCPToken r) = tk_ExpiresAt (tr_MCPToken r0) ∧
    tk_Scopes (tr_MCPToken r) = tk_Scopes (tr_MCPToken r0) ∧
    tk_NASAllowlist (tr_MCPToken r) =
      base.filter (λ a, a ≠ name) (tk_NASAllowlist (tr_MCPToken r0)).
Proof.
  unfold drop_allowed. destruct v as [r0|]; [|done]. simpl. intros Hd. exists r0.
  destruct (bool_decide (TrimSpace _ = "")); simpl in Hd;
    case_bool_decide; by simplify_eq.
Qed.

Lemma cleaned_token_json name nows k r0 :
  ∃ r, cleaned_token name nows k (Json r0) = Json r ∧
    name ∉ tk_NASAllowlist (tr_MCPToken r) ∧
    (∀ a, a ≠ name → a ∈ tk_NASAllowlist (tr_MCPToken r) ↔ a ∈ tk_NASAllowlist (tr_MCPToken r0)) ∧
    tr_Digest r = tr_Digest r0 ∧ tr_ID r = tr_ID r0 ∧
    tk_RevokedAt (tr_MCPToken r) = tk_RevokedAt (tr_MCPToken r0) ∧
    tk_ExpiresAt (tr_MCPToken r) = tk_ExpiresAt (tr_MCPToken r0) ∧
    tk_Scopes (tr_MCPToken r) = tk_Scopes (tr_MCPToken r0).
Proof.
  unfold cleaned_token. destruct (drop_allowed name (nows k) (Json r0)) as [r|] eqn:Ed.
  - apply drop_allowed_spec in Ed as (r1 & [= <-] & _ & ? & ? & ? & ? & ? & Ha).
    exists r. split; [done|]. rewrite Ha. setoid_rewrite list_elem_of_filter. naive_solver.
  - exists r0. split; [done|]. split; [|done]. intros Hin. revert Ed.
    unfold drop_allowed. simpl.
    destruct (bool_decide (TrimSpace _ = "")); simpl; by rewrite bool_decide_true.
Qed.

Lemma lookup_cleaned d name nows k :
  map_imap (λ k v, Some (cleaned_token name nows k v)) (b_mcp_tokens d) !! k =
  cleaned_token name nows k <$> b_mcp_tokens d !! k.
Proof. rewrite map_lookup_imap. by destruct (b_mcp_tokens d !! k). Qed.

(** A token whose allowlist named the profile: without the name, with the time of the change,
    and with the approval mode that reading it fills in; nothing else differs. *)
Definition without_nas (name : string) (now : Z) (t : MCPToken) : MCPToken := {|
  tk_ID := tk_ID t; tk_Name := tk_Name t; tk_AuthMode := tk_AuthMode t;
  tk_ApprovalMode := if decide (TrimSpace (tk_ApprovalMode t) = "")
                     then ApprovalModeAdministrator else tk_ApprovalMode t;
  tk_OAuthClientID := tk_OAuthClientID t; tk_Scopes := tk_Scopes t;
  tk_NASAllowlist := base.filter (λ a, a ≠ name) (tk_NASAllowlist t);
  tk_CreatedAt := tk_CreatedAt t; tk_UpdatedAt := now; tk_ExpiresAt := tk_ExpiresAt t;
  tk_RevokedAt := tk_RevokedAt t; tk_LastUsedAt := tk_LastUsedAt t |}.

Lemma cleaned_token_exact name nows k r0 :
  cleaned_token name nows k (Json r0) = Json (
    if decide (name ∈ tk_NASAllowlist (tr_MCPToken r0))
    then {| tr_MCPToken := without_nas name (nows k) (tr_MCPToken r0);
            tr_Digest := tr_Digest r0 |}
    else r0).
Proof.
  unfold cleaned_token, drop_allowed, without_nas. cbn [unmarshal decodeMCPToken].
  destruct r0 as [[] dg]. simpl. destruct (decide (TrimSpace _ = "")) as [Hb|Hb].
  - rewrite (bool_decide_true _ Hb). simpl. destruct (decide _) as [Hin|Hin].
    + by rewrite bool_decide_true.
    + by rewrite bool_decide_false.
  - rewrite (bool_decide_false _ Hb). simpl. destruct (decide _) as [Hin|Hin].
    + by rewrite bool_decide_true.
    + by rewrite bool_decide_false.
Qed.



Section optimistic.
Context `{Unicode, NetURL}.

Definition edit_input (name : string) (input : ProfileInput) : ProfileInput :=
  {| pi_Name := name; pi_URL := pi_URL input; pi_Username := pi_Username input;
     pi_TLSMode := pi_TLSMode input;
     pi_CertificateFingerprint := pi_CertificateFingerprint input;
     pi_TimeoutSeconds := pi_TimeoutSeconds input; pi_Role := pi_Role input |}.

Lemma update_profile_eq ctx name expected input now (w : gworld) record input' :
  ctx_Err ctx = None → readProfile (w_db w) name = Ok record →
  normalizeProfileInput (edit_input name input) = Ok input' →
  UpdateProfile ctx name expected input now w =
    if (expected =? 0) || negb (pr_Revision record =? expected)
    then (Err (ErrRevisionConflict expected (pr_Revision record)), w)
    else GetProfile ctx name (World (update_db name input' now record (w_db w)) (w_rest w)).
Proof.
  intros Hctx Hr Hn. unfold UpdateProfile, ctx_check. rewrite Hctx. fold (edit_input name input).
  rewrite Hn. destruct w as [d fl]. unfold Update, update_profile_tx, check_revision, lift, check.
  st_unfold. simpl in *. rewrite Hr. simpl.
  destruct ((expected =? 0) || negb (pr_Revision record =? expected)); simpl; [done|].
  unfold update_db. destruct (profile_changed record input'); simpl; done.
Qed.
End optimistic.

(** Profile edits are optimistic.  An edit that names any revision but the current one is
    refused with a conflict and changes nothing; an edit at the current revision succeeds,
    and either leaves the state untouched, when no setting differs, or stores exactly the
    normalised settings under the next revision of the counter, keeping the profile's
    identity, role and credentials. *)
Theorem update_profile_optimistic `{Unicode, NetURL} ctx name expected input input' now
    (w : gworld) record :
  ctx_Err ctx = None → readProfile (w_db w) name = Ok record → pr_Name record = name →
  normalizeProfileInput (edit_input name input) = Ok input' →
  let out := UpdateProfile ctx name expected input now w in
  (expected = 0 ∨ expected ≠ pr_Revision record →
     out = (Err (ErrRevisionConflict expected (pr_Revision record)), w)) ∧
  (expected ≠ 0 → expected = pr_Revision record → profile_changed record input' = false →
     is_Ok out.1 = true ∧ out.2 = w) ∧
  (expected ≠ 0 → expected = pr_Revision record → profile_changed record input' = true →
     let revision := u64_wrap (revision_counter (w_db w) + 1) in
     let record' := apply_profile_input input' revision now record in
     out.1 = Ok (publicProfile record'
       (bool_decide (meta_get (w_db w) keyDefaultProfile = name))) ∧
     revision_counter (w_db out.2) = revision ∧
     b_profiles (w_db out.2) = <[name := Json record']> (b_profiles (w_db w)) ∧
     pr_ID record' = pr_ID record ∧ pr_Role record' = pr_Role record ∧
     pr_PasswordSecretID record' = pr_PasswordSecretID record).
Proof.
  intros Hctx Hr Hname Hn out. unfold out.
  rewrite (update_profile_eq _ _ _ _ _ _ _ _ Hctx Hr Hn). destruct w as [d fl]. simpl in *.
  split; [|split].
  - intros Hx. assert ((expected =? 0) || negb (pr_Revision record =? expected) = true) as ->;
      [|done]. destruct Hx as [->|Hx]; [done|]. apply orb_true_iff. right.
    apply negb_true_iff, Z.eqb_neq. congruence.
  - intros H0' -> Hc. apply Z.eqb_neq in H0'. rewrite H0', Z.eqb_refl. simpl.
    unfold update_db. rewrite Hc. unfold GetProfile, ctx_check, View. rewrite Hctx.
    st_unfold. simpl. unfold mbind, result_bind. by rewrite Hr.
  - intros H0' -> Hc. apply Z.eqb_neq in H0'. rewrite H0', Z.eqb_refl. simpl.
    unfold update_db. rewrite Hc, Hname. unfold GetProfile, ctx_check, View. rewrite Hctx.
    st_unfold. simpl. unfold mbind, result_bind, readProfile. simpl.
    rewrite lookup_insert_eq. simpl. unfold meta_get. simpl.
    rewrite lookup_insert_ne by done. split; [done|]. split; [|done].
    unfold revision_counter at 1, meta_get. simpl. rewrite lookup_insert_eq. simpl.
    apply uint64_roundtrip. apply Z.mod_pos_bound. lia.
Qed.

(** A URL parser for one fixed address. *)
Definition sample_url : URL := {|
  u_Scheme := "https"; u_Host := "nas1:5001"; u_Hostname := "nas1"; u_User := false;
  u_Port := "5001"; u_Path := ""; u_EscapedPath := ""; u_RawQuery := ""; u_Fragment := ""; u_String := "https://nas1:5001" |}.
Definition sample_net : NetURL := {|
  url_Parse := fun s => if bool_decide (s = "https://nas1:5001") then Some sample_url else None;
  url_ParseRequestURI := fun s =>
    if bool_decide (s = "https://nas1:5001") then Some sample_url else None |}.

Definition sample_edit : ProfileInput := {|
  pi_Name := ""; pi_URL := "https://nas1:5001/"; pi_Username := "root"; pi_TLSMode := "";
  pi_CertificateFingerprint := ""; pi_TimeoutSeconds := 30; pi_Role := "" |}.
Definition sample_edit' : ProfileInput := {|
  pi_Name := "nas1"; pi_URL := "https://nas1:5001"; pi_Username := "root";
  pi_TLSMode := "system_ca"; pi_CertificateFingerprint := ""; pi_TimeoutSeconds := 30;
  pi_Role := "" |}.

Lemma update_profile_optimistic_witness :
  (@UpdateProfile ascii_tables sample_net Background "nas1" 2 sample_edit 5 sample_world)
    = (Err (ErrRevisionConflict 2 3), sample_world) ∧
  revision_counter (w_db (@UpdateProfile ascii_tables sample_net Background "nas1" 3
    sample_edit 5 sample_world).2) = 4.
Proof.
  assert (@normalizeProfileInput ascii_tables sample_net (edit_input "nas1" sample_edit)
    = Ok sample_edit') as Hn by (vm_compute; reflexivity).
  split.
  - apply (@update_profile_optimistic ascii_tables sample_net Background "nas1" 2 sample_edit
      sample_edit' 5 sample_world sample_profile eq_refl eq_refl eq_refl Hn).
    right. discriminate.
  - apply (@update_profile_optimistic ascii_tables sample_net Background "nas1" 3 sample_edit
      sample_edit' 5 sample_world sample_profile eq_refl eq_refl eq_refl Hn);
      [discriminate|reflexivity|reflexivity].
Defined.
