(* ===== verification/AuditThms.v ===== *)
(** * Properties of the audit log

    What one append leaves of the log, given that bbolt's statistics count the committed
    keys, and what the interactive query returns. *)

From S2P Require Import Prelude.
From S2P Require Import GoStrings.
From S2P Require Import Bolt.
From S2P Require Import RemotePolicy.
From S2P Require Import StateTypes.
From S2P Require Import Records.
From S2P Require Import Policy.
From S2P Require Import Samples.
From S2P Require Import PolicyThms.

(** ** Specification vocabulary *)

(** A log all of whose events decode, in key order. *)
Definition readable (b : bucket AuditEvent) : Prop := ∀ k, b !! k ≠ Some Garbled.
Definition log_events (b : bucket AuditEvent) : list AuditEvent :=
  omap (fun p => unmarshal p.2) (entries b).

Definition with_event (wall : Z) (rid : string) (e : AuditEvent) (b : bucket AuditEvent) :
    bucket AuditEvent :=
  let e' := normalize_event wall rid e in
  <[audit_key (ev_Time e') (ev_ID e') := Json e']> b.

(** ** Lemmas *)

Lemma readable_entries b :
  readable b → entries b = (λ p, (p.1, Json p.2)) <$>
    omap (λ p, (λ e, (p.1, e)) <$> unmarshal p.2) (entries b).
Proof.
  intros Hr. assert (∀ k v, (k, v) ∈ entries b → v ≠ Garbled) as Hl.
  { intros k v Hin ->. apply elem_of_entries in Hin. by apply (Hr k). }
  induction (entries b) as [|[k [e|]] l IH]; simpl; [done| |].
  - f_equal. apply IH. intros k' v' Hin. apply (Hl k'). by right.
  - exfalso. eapply Hl; [by left|done].
Qed.

Lemma readable_with_event wall rid e b : readable b → readable (with_event wall rid e b).
Proof. intros Hr k. unfold with_event. rewrite lookup_insert. by case_decide. Qed.

Lemma count_with_event wall rid e b : count (with_event wall rid e b) ≤ count b + 1.
Proof.
  unfold count, with_event. rewrite map_size_insert. destruct (b !! _); simpl; lia.
Qed.

(** Up to the bound the loop removes the stale entries at the old end and stops at the first
    that is not stale. *)
Definition stale_entry (cutoff : Z) (p : string * stored AuditEvent) : Prop :=
  ∃ e, p.2 = Json e ∧ ev_Time e < cutoff.
Definition fresh_entry (cutoff : Z) (p : string * stored AuditEvent) : Prop :=
  ∃ e, p.2 = Json e ∧ cutoff ≤ ev_Time e.

Lemma audit_prune_stale start cutoff b :
  start ≤ maxAuditEvents → readable b →
  ∃ dropped, entries b = dropped ++ entries (@audit_prune keyN_committed start cutoff (entries b) b) ∧
    Forall (stale_entry cutoff) dropped ∧
    ∀ p, head (entries (@audit_prune keyN_committed start cutoff (entries b) b)) = Some p →
      fresh_entry cutoff p.
Proof.
  intros Hs Hr. remember (entries b) as l eqn:He. revert b Hr He.
  induction l as [|[k v] l IH]; intros b Hr He; cbn [audit_prune].
  { exists []. rewrite <- He. split; [done|]. by split. }
  assert (v ≠ Garbled) as Hv.
  { intros ->. apply (Hr k), elem_of_entries. rewrite <- He. by left. }
  destruct v as [e|]; [|done]. cbn [unmarshal].
  change (keyN start (count b)) with start. rewrite (proj2 (Z.leb_le _ _) Hs), andb_true_r.
  destruct (Z.ltb_spec (ev_Time e) cutoff) as [Hlt|Hge]; cbn [negb].
  - assert (entries (delete k b) = l) as Hd by (by eapply entries_delete_first).
    destruct (IH (delete k b)) as (dropped & Hl & Hst & Hh).
    { intros k'. rewrite lookup_delete_Some. intros [_ ?]. by apply (Hr k'). }
    { done. }
    exists ((k, Json e) :: dropped). split; [by rewrite Hl at 1|]. split; [|done].
    constructor; [by exists e|done].
  - exists []. rewrite <- He. split; [done|]. split; [constructor|].
    intros p [= <-]. by exists e.
Qed.

(** Under the committed count the loop's test never changes: past the bound it removes
    every event. *)
Lemma audit_prune_committed start cutoff b :
  maxAuditEvents < start → readable b →
  @audit_prune keyN_committed start cutoff (entries b) b = ∅.
Proof.
  intros Hs Hr. remember (entries b) as l eqn:He. revert b Hr He.
  induction l as [|[k v] l IH]; intros b Hr He; cbn [audit_prune].
  { by apply entries_nil. }
  assert (v ≠ Garbled) as Hv.
  { intros ->. apply (Hr k), elem_of_entries. rewrite <- He. by left. }
  destruct v as [e|]; [|done]. cbn [unmarshal].
  change (keyN start (count b)) with start. rewrite (proj2 (Z.leb_gt _ _) Hs), andb_false_r.
  apply IH; [|symmetry; by eapply entries_delete_first].
  intros k'. rewrite lookup_delete_Some. intros [_ ?]. by apply (Hr k').
Qed.

Lemma append_audit_run `{KeyN} ctx wall rid e (w : gworld) :
  ctx_Err ctx = None →
  AppendAudit ctx None wall rid e w =
    (Ok (), World (set_b_audit (audit_append (count (b_audit (w_db w))) wall rid e
      (b_audit (w_db w))) (w_db w)) (w_rest w)).
Proof.
  intros Hc. unfold AppendAudit, ctx_check. rewrite Hc. unfold Update, appendAuditTx.
  st_unfold. reflexivity.
Qed.

Lemma log_events_fmap (es : list (string * AuditEvent)) :
  omap (λ p, unmarshal p.2) ((λ p : string * AuditEvent, (p.1, Json p.2)) <$> es) = es.*2.
Proof. induction es as [|[k e] es IH]; simpl; [done|]. f_equal. exact IH. Qed.

(** The readable log as its list of keyed events. *)
Lemma readable_list b : readable b →
  ∃ es, entries b = (λ p, (p.1, Json p.2)) <$> es ∧ log_events b = es.*2.
Proof.
  intros Hr. eexists. split; [by apply readable_entries|].
  unfold log_events. rewrite (readable_entries b Hr) at 1. apply log_events_fmap.
Qed.

(** ** Property theorems *)

(** C38: What one append leaves of the audit log.  The count the code compares with its bound
    is that of the committed events, so while the log holds at most ten thousand of them an
    append to a readable log adds the normalised event and removes, in key order from the old
    end, exactly the events past the retention period up to the first that is not; once more
    than ten thousand are committed the append removes every event, the new one included.
    The log is readable afterwards and never holds more than ten thousand and one events, and
    everything else in the database is untouched. *)
Theorem audit_log_bounded ctx wall rid e (w : gworld) :
  ctx_Err ctx = None → readable (b_audit (w_db w)) →
  let b := b_audit (w_db w) in
  let out := @AppendAudit keyN_committed ctx None wall rid e w in
  let b' := b_audit (w_db out.2) in
  out.1 = Ok () ∧
  (count b ≤ maxAuditEvents → ∃ dropped,
     entries (with_event wall rid e b) = dropped ++ entries b' ∧
     (∀ p, p ∈ dropped → ∃ old, p.2 = Json old ∧ ev_Time old < wall - auditRetention) ∧
     (∀ p, head (entries b') = Some p → ∃ old, p.2 = Json old ∧
        wall - auditRetention ≤ ev_Time old)) ∧
  (maxAuditEvents < count b → b' = ∅) ∧
  readable b' ∧ count b' ≤ maxAuditEvents + 1 ∧
  w_db out.2 = set_b_audit b' (w_db w).
Proof.
  intros Hc Hr. cbv zeta. rewrite append_audit_run by done. cbn [fst snd w_db b_audit set_b_audit].
  split; [done|]. pose proof (readable_with_event wall rid e _ Hr) as Hr1.
  unfold audit_append. cbv zeta. fold (with_event wall rid e (b_audit (w_db w))).
  simpl b_audit. set (b1 := with_event wall rid e (b_audit (w_db w))) in *.
  set (start := count (b_audit (w_db w))).
  destruct (Z.le_gt_cases start maxAuditEvents) as [Hs|Hs].
  - destruct (audit_prune_stale start (wall - auditRetention) b1 Hs Hr1) as (dropped & He & Hst & Hh).
    split.
    { intros _. exists dropped. split; [done|]. split; [|done]. by apply Forall_forall. }
    split; [lia|]. split.
    { intros k Hk%elem_of_entries. apply (Hr1 k), elem_of_entries. rewrite He.
      apply elem_of_app. by right. }
    apply (f_equal length) in He. rewrite length_app in He.
    pose proof (length_entries b1) as Hl.
    assert (count b1 ≤ start + 1) by apply count_with_event.
    match goal with |- count ?b ≤ _ ∧ _ => split; [pose proof (length_entries b); lia|done] end.
  - rewrite audit_prune_committed by done. split; [lia|]. split; [done|].
    split; [by intros k ?%lookup_empty_Some|]. split; [done|done].
Qed.

Definition sample_event (id : string) (t : Z) : AuditEvent := {|
  ev_ID := id; ev_Time := t; ev_CorrelationID := ""; ev_ActorType := "mcp_token";
  ev_ActorID := "t1"; ev_Action := "apply.admit"; ev_Tool := ""; ev_NAS := "nas1";
  ev_Outcome := "admitted"; ev_Reason := "because" |}.

(** An event of forty days ago goes when a new one arrives. *)
Definition audited_world : gworld :=
  World (set_b_audit {[ audit_key 0 "e0" := Json (sample_event "e0" 0) ]} sample_db) ∅.

Lemma audited_readable : readable (b_audit (w_db audited_world)).
Proof.
  intros k Hk. unfold audited_world in Hk. simpl b_audit in Hk.
  by apply lookup_singleton_Some in Hk as [_ ?].
Qed.

Lemma audit_log_bounded_witness :
  let out := @AppendAudit keyN_committed Background None (40 * 24 * Hour) ""
    (sample_event "e1" (40 * 24 * Hour)) audited_world in
  out.1 = Ok () ∧ count (b_audit (w_db out.2)) ≤ maxAuditEvents + 1 ∧
  ∃ dropped, length dropped = 1%nat ∧
    entries (with_event (40 * 24 * Hour) "" (sample_event "e1" (40 * 24 * Hour))
      (b_audit (w_db audited_world))) = dropped ++ entries (b_audit (w_db out.2)).
Proof.
  destruct (audit_log_bounded Background (40 * 24 * Hour) "" (sample_event "e1" (40 * 24 * Hour))
    audited_world eq_refl audited_readable) as (Ho & Hd & _ & _ & Hc & _).
  split; [exact Ho|]. split; [exact Hc|].
  destruct (Hd ltac:(vm_compute; discriminate)) as (dropped & He & _).
  exists dropped. split; [|exact He].
  apply (f_equal length) in He. rewrite length_app in He.
  match type of He with ?n = (_ + ?m)%nat =>
    assert (n = 2%nat) as Hn by (vm_compute; reflexivity);
    assert (m = 1%nat) as Hm by (vm_compute; reflexivity) end.
  rewrite Hn, Hm in He. lia.
Defined.

(** The append on a log that has grown past ten thousand committed events deletes the whole
    log, the event just written included, whatever the ages of the events. *)
Theorem audit_log_wiped ctx wall rid e (w : gworld) :
  ctx_Err ctx = None → readable (b_audit (w_db w)) →
  maxAuditEvents < count (b_audit (w_db w)) →
  let out := @AppendAudit keyN_committed ctx None wall rid e w in
  out.1 = Ok () ∧ b_audit (w_db out.2) = ∅.
Proof.
  intros Hc Hr Hn. cbv zeta. rewrite append_audit_run by done. split; [done|]. simpl.
  apply audit_prune_committed; [done|]. by apply readable_with_event.
Qed.

(** [n] events, and a log of ten thousand and one. *)
Definition log_of (n : nat) : bucket AuditEvent :=
  list_to_map ((λ i, (encodeUint64 (Z.of_nat i), Json (sample_event "e" (Z.of_nat i)))) <$> seq 0 n).
Definition big_log : bucket AuditEvent := log_of (Z.to_nat 10001).
Definition big_world : gworld := World (set_b_audit big_log sample_db) ∅.

Lemma log_of_count n : Z.of_nat n < 2 ^ 64 → count (log_of n) = Z.of_nat n.
Proof.
  intros Hn. unfold count, log_of. rewrite map_size_list_to_map.
  - by rewrite length_fmap, length_seq.
  - rewrite <- list_fmap_compose. apply NoDup_fmap_2_strong; [|apply NoDup_seq].
    intros i j Hi%elem_of_seq Hj%elem_of_seq Heq. simpl in Heq.
    apply (f_equal decodeUint64) in Heq. rewrite !uint64_roundtrip in Heq by lia. lia.
Qed.

Lemma log_of_readable n : readable (log_of n).
Proof.
  intros k Hk. unfold log_of in Hk. apply elem_of_list_to_map_2 in Hk.
  apply list_elem_of_fmap in Hk as (i & [= _ ?] & _).
Qed.

Lemma audit_log_wiped_witness :
  b_audit (w_db (@AppendAudit keyN_committed Background None 0 "" (sample_event "new" 7)
    big_world).2) = ∅.
Proof.
  apply (audit_log_wiped Background 0 "" (sample_event "new" 7) big_world eq_refl
    (log_of_readable _)).
  simpl b_audit. unfold big_log. rewrite log_of_count; rewrite Z2Nat.id; done || lia.
Defined.

(** *** The interactive query *)

Lemma audit_collect_spec q limit (es : list (string * AuditEvent)) :
  audit_collect q limit ((λ p, (p.1, Json p.2)) <$> es) =
    Some (take limit (base.filter (λ e, audit_query_match q e = true) es.*2)).
Proof.
  revert limit. induction es as [|[k e] es IH]; intros [|limit]; [done..|].
  rewrite !fmap_cons, filter_cons. cbn [audit_collect fst snd unmarshal mbind option_bind].
  destruct (audit_query_match q e) eqn:Em; rewrite IH; [|done].
  by rewrite decide_True by done.
Qed.

(** The audit query is the filter it documents.  Over a readable log it returns the
    newest first among the events that match every given criterion, at most the requested
    number of them, and never more than a thousand. *)
Theorem audit_query_spec ctx q (w : gworld) :
  ctx_Err ctx = None → readable (b_audit (w_db w)) →
  AuditEvents ctx q w =
    (Ok (take (Z.to_nat (audit_limit q))
       (base.filter (λ e, audit_query_match q e = true) (reverse (log_events (b_audit (w_db w)))))),
     w) ∧
  0 < audit_limit q ≤ 1000.
Proof.
  intros Hc Hr. destruct (readable_list _ Hr) as (es & He & Hl). split.
  - unfold AuditEvents, ctx_check, View. rewrite Hc. st_unfold. simpl.
    rewrite He, <- fmap_reverse, audit_collect_spec, fmap_reverse, Hl. done.
  - unfold audit_limit. destruct (_ || _) eqn:E; split_bools; lia.
Qed.

Definition sample_query : AuditQuery := {|
  aq_After := zeroTime; aq_ActorID := "t1"; aq_Action := ""; aq_Limit := 5 |}.

Lemma audit_query_spec_witness :
  (AuditEvents Background sample_query audited_world).1 = Ok [sample_event "e0" 0].
Proof.
  destruct (audit_query_spec Background sample_query audited_world eq_refl) as [Hq _].
  - exact audited_readable.
  - rewrite Hq. vm_compute. reflexivity.
Defined.
