(* ===== verification/ApprovalThms.v ===== *)
(** * Properties of approvals and approval requests

    An approval is given for exactly one plan of an entitled token, once; the queue of
    pending requests is bounded and holds one request per plan and token; approving a
    request is what the admission of its plan needs. *)

From S2P Require Import Prelude.
From S2P Require Import GoStrings.
From S2P Require Import Bolt.
From S2P Require Import RemotePolicy.
From S2P Require Import StateTypes.
From S2P Require Import Records.
From S2P Require Import Policy.
From S2P Require Import Samples.
From S2P Require Import PolicyThms.
From S2P Require Import TokenThms.

(** ** Specification vocabulary *)

(** The input with the current revision filled in when it names none. *)
Definition at_revision (input : ApprovalInput) (profile : profileRecord) : ApprovalInput :=
  if ai_ProfileRevision input =? 0 then set_ai_ProfileRevision (pr_Revision profile) input
  else input.

(** The plan an input asks for, as the usability test of approvals. *)
Definition plan_test (input : ApprovalInput) (now : Z) (a : Approval) : bool :=
  approval_usable (ai_RequestingTokenID input) (ai_NAS input) (ai_ProfileRevision input)
    (ai_PlanHash input) now a.

Definition new_approval (input : ApprovalInput) (administrator : string) (now : Z)
    (rid : string) : Approval := {|
  ap_ID := rid; ap_PlanHash := ai_PlanHash input; ap_NAS := ai_NAS input;
  ap_ProfileRevision := ai_ProfileRevision input;
  ap_RequestingTokenID := ai_RequestingTokenID input; ap_Administrator := administrator;
  ap_CreatedAt := now;
  ap_ExpiresAt := now + (if ai_TTL input =? 0 then DefaultApprovalTTL else ai_TTL input);
  ap_ConsumedAt := None |}.

(** The requests left when those of a plan and token are resolved. *)
Definition without_plan (input : ApprovalInput) (b : bucket PendingApproval) :
    bucket PendingApproval :=
  delete_keys (keys_where (requests_of_plan (ai_PlanHash input) (ai_RequestingTokenID input)) b) b.

(** At most one pending request per plan and token. *)
Definition plans_unique (b : bucket PendingApproval) : Prop := ∀ k1 k2 q1 q2,
  b !! k1 = Some (Json q1) → b !! k2 = Some (Json q2) →
  pa_PlanHash q1 = pa_PlanHash q2 → pa_RequestingTokenID q1 = pa_RequestingTokenID q2 → k1 = k2.
(** Requests are stored under their id. *)
Definition requests_keyed (b : bucket PendingApproval) : Prop :=
  ∀ k q, b !! k = Some (Json q) → pa_ID q = k.

(** ** Runs *)

Lemma create_approval_run input administrator now rid (w w' : gworld) a created :
  createApprovalTx input administrator now rid w = (Ok (a, created), w') →
  ∃ profile token, readProfile (w_db w) (ai_NAS input) = Ok profile ∧
    let input' := at_revision input profile in
    pr_Revision profile = ai_ProfileRevision input' ∧
    apply_authorised (w_db w) (ai_RequestingTokenID input) (ai_NAS input)
      (ai_ProfileRevision input') now token ∧
    (if created
     then existingApproval (w_db w) input' now = Ok None ∧
          a = new_approval input' administrator now rid ∧
          b_approvals (w_db w') = <[rid := Json a]> (b_approvals (w_db w))
     else existingApproval (w_db w) input' now = Ok (Some a) ∧
          b_approvals (w_db w') = b_approvals (w_db w)) ∧
    w' = World (set_b_approval_requests (without_plan input' (b_approval_requests (w_db w)))
      (set_b_approvals (b_approvals (w_db w')) (w_db w))) (w_rest w).
Proof.
  unfold createApprovalTx. intros (d & w1 & Hd & Hrun)%bind_ok_inv.
  unfold getDB in Hd. cbn in Hd. injection Hd as <- <-.
  apply bind_ok_inv in Hrun as (profile & w2 & [Hp ->]%lift_ok_inv & Hrun).
  cbv zeta in Hrun. fold (at_revision input profile) in Hrun.
  set (input' := at_revision input profile) in *.
  assert (ai_RequestingTokenID input' = ai_RequestingTokenID input
    ∧ ai_NAS input' = ai_NAS input) as [Ht Hn].
  { unfold input', at_revision. destruct (ai_ProfileRevision input =? 0); by split. }
  apply bind_ok_inv in Hrun as (u1 & w3 & [Hrev ->]%check_ok_inv & Hrun).
  apply bind_ok_inv in Hrun as (token & w4 & [Htok ->]%lift_ok_inv & Hrun).
  apply bind_ok_inv in Hrun as (u2 & w5 & [Hact ->]%lift_ok_inv & Hrun).
  apply bind_ok_inv in Hrun as (u3 & w6 & [Hs ->]%check_ok_inv & Hrun).
  apply bind_ok_inv in Hrun as (existing & w7 & [He ->]%lift_ok_inv & Hrun).
  exists profile, token. split; [done|]. cbv zeta. fold input'. split_bools.
  rewrite Ht, Hn in *. split; [done|]. split.
  { split; [done|]. split; [by eapply validateActiveToken_Ok|].
    split; [by apply sliceContains_true|]. split; [by apply sliceContains_true|]. eauto. }
  destruct existing as [a'|].
  - apply bind_ok_inv in Hrun as ([] & w8 & Hdel & Hrun).
    apply delete_requests_run in Hdel as ->. unfold mret, ST_ret in Hrun.
    injection Hrun as <- <- <-. simpl. split; [done|].
    unfold without_plan. rewrite Ht. by destruct w as [[] fl].
  - apply bind_ok_inv in Hrun as ([] & w8 & Hput & Hrun).
    unfold put_approval, modifyDB in Hput. injection Hput as <-.
    apply bind_ok_inv in Hrun as ([] & w9 & Hdel & Hrun).
    apply delete_requests_run in Hdel as ->. unfold mret, ST_ret in Hrun.
    injection Hrun as <- <- <-. simpl. unfold without_plan, new_approval. rewrite Ht, Hn.
    by repeat (split; [done|]).
Qed.

Lemma without_plan_spec input b k q :
  without_plan input b !! k = Some (Json q) ↔ b !! k = Some (Json q) ∧
    ¬ (pa_PlanHash q = ai_PlanHash input ∧ pa_RequestingTokenID q = ai_RequestingTokenID input).
Proof.
  unfold without_plan. rewrite lookup_delete_keys_Some, elem_of_keys_where.
  unfold requests_of_plan. split; intros [Hk Hn]; split; try done.
  - intros [H1 H2]. apply Hn. exists q. split; [done|]. by rewrite !bool_decide_true.
  - intros (q' & Hq' & Hb). split_bools. by apply Hn.
Qed.

Lemma delete_requests_ok f (w w' : gworld) u :
  delete_requests f w = (Ok u, w') → ForEach (b_approval_requests (w_db w)) ≠ None.
Proof.
  unfold delete_requests, foreach. intros (d & w1 & Hd & Hrun)%bind_ok_inv.
  unfold getDB in Hd. injection Hd as <- <-. apply bind_ok_inv in Hrun as (l & w2 & Hf & _).
  destruct (ForEach _); [done|]. by st_unfold.
Qed.

Lemma delete_requests_eq f (w : gworld) :
  ForEach (b_approval_requests (w_db w)) ≠ None →
  delete_requests f w = (Ok (), World (set_b_approval_requests
    (delete_keys (keys_where f (b_approval_requests (w_db w))) (b_approval_requests (w_db w)))
    (w_db w)) (w_rest w)).
Proof.
  intros Hf. unfold delete_requests, foreach. st_unfold. destruct w as [d fl]. simpl in *.
  by destruct (ForEach (b_approval_requests d)).
Qed.

Lemma create_approval_ok input administrator now rid (w w' : gworld) r :
  createApprovalTx input administrator now rid w = (Ok r, w') →
  ForEach (b_approval_requests (w_db w)) ≠ None.
Proof.
  unfold createApprovalTx. intros (d & w1 & Hd & Hrun)%bind_ok_inv.
  unfold getDB in Hd. cbn in Hd. injection Hd as <- <-.
  apply bind_ok_inv in Hrun as (profile & w2 & [_ ->]%lift_ok_inv & Hrun). cbv zeta in Hrun.
  apply bind_ok_inv in Hrun as (u1 & w3 & [_ ->]%check_ok_inv & Hrun).
  apply bind_ok_inv in Hrun as (token & w4 & [_ ->]%lift_ok_inv & Hrun).
  apply bind_ok_inv in Hrun as (u2 & w5 & [_ ->]%lift_ok_inv & Hrun).
  apply bind_ok_inv in Hrun as (u3 & w6 & [_ ->]%check_ok_inv & Hrun).
  apply bind_ok_inv in Hrun as (existing & w7 & [_ ->]%lift_ok_inv & Hrun).
  destruct existing as [a'|].
  - apply bind_ok_inv in Hrun as ([] & w8 & Hdel & _). by eapply delete_requests_ok.
  - apply bind_ok_inv in Hrun as ([] & w8 & Hput & Hrun).
    unfold put_approval, modifyDB in Hput. injection Hput as <-.
    apply bind_ok_inv in Hrun as ([] & w9 & Hdel & _). exact (delete_requests_ok _ _ _ _ Hdel).
Qed.

(** The transaction, forwards, when a usable approval exists already. *)
Lemma create_existing_eq input administrator now rid (w : gworld) profile token a :
  readProfile (w_db w) (ai_NAS input) = Ok profile →
  pr_Revision profile = ai_ProfileRevision (at_revision input profile) →
  apply_authorised (w_db w) (ai_RequestingTokenID input) (ai_NAS input)
    (ai_ProfileRevision (at_revision input profile)) now token →
  existingApproval (w_db w) (at_revision input profile) now = Ok (Some a) →
  ForEach (b_approval_requests (w_db w)) ≠ None →
  ∃ w', createApprovalTx input administrator now rid w = (Ok (a, false), w') ∧
    b_approvals (w_db w') = b_approvals (w_db w).
Proof.
  intros Hp Hrev (Ht & Hact & Hs & Hn & _) He Hf.
  assert (ai_RequestingTokenID (at_revision input profile) = ai_RequestingTokenID input
    ∧ ai_NAS (at_revision input profile) = ai_NAS input) as [Hti Hni].
  { unfold at_revision. destruct (ai_ProfileRevision input =? 0); by split. }
  unfold createApprovalTx. unfold mbind, ST_bind, getDB, lift at 1. cbn beta iota.
  rewrite Hp. cbn [mret ST_ret]. cbv zeta. fold (at_revision input profile).
  rewrite Hti, Hni, Ht. rewrite (proj2 (Z.eqb_eq _ _) Hrev). cbn [check lift mret ST_ret].
  unfold validateActiveToken. rewrite Hact. cbn [lift mret ST_ret].
  rewrite !(proj2 (sliceContains_true _ _)) by done. cbn [andb check mret ST_ret].
  rewrite He. cbn [lift mret ST_ret]. unfold deleteMatchingApprovalRequests.
  rewrite delete_requests_eq by done. eexists. split; [reflexivity|done].
Qed.

Section approvals.
Context `{Unicode}.

(** The input as [CreateApproval] reads it. *)
Definition trimmed_approval (input : ApprovalInput) : ApprovalInput := {|
  ai_PlanHash := ToLower (TrimSpace (ai_PlanHash input));
  ai_NAS := TrimSpace (ai_NAS input); ai_ProfileRevision := ai_ProfileRevision input;
  ai_RequestingTokenID := TrimSpace (ai_RequestingTokenID input); ai_TTL := ai_TTL input |}.

Lemma create_approval_inv ctx input administrator now rid (w w' : gworld) a :
  CreateApproval ctx input administrator now rid w = (Ok a, w') →
  validateApprovalInput (trimmed_approval input) (TrimSpace administrator) = Ok () ∧
  ∃ created, createApprovalTx (trimmed_approval input) (TrimSpace administrator) now rid w
    = (Ok (a, created), w').
Proof.
  unfold CreateApproval. intros (u & w1 & [_ ->]%ctx_check_ok & Hrun)%bind_ok_inv.
  cbv zeta in Hrun. fold (trimmed_approval input) in Hrun.
  apply bind_ok_inv in Hrun as ([] & w2 & [Hv ->]%lift_ok_inv & Hrun).
  apply bind_ok_inv in Hrun as ([a' created] & w3 & Htx%Update_ok_inv & Hrun).
  unfold mret, ST_ret in Hrun. injection Hrun as <- <-. eauto.
Qed.

Lemma validated_ttl input administrator u :
  validateApprovalInput input administrator = Ok u →
  0 ≤ ai_TTL input ≤ DefaultApprovalTTL ∧ administrator ≠ "".
Proof.
  unfold validateApprovalInput. intros Hv.
  destruct (_ || _) in Hv; [done|]. destruct (_ || _) in Hv; [done|].
  case_bool_decide; [done|]. destruct (_ || _) eqn:E in Hv; [done|].
  split_bools. split; [lia|done].
Qed.

Lemma at_revision_ttl input profile : ai_TTL (at_revision input profile) = ai_TTL input.
Proof. unfold at_revision. by destruct (ai_ProfileRevision input =? 0). Qed.

(** A fresh approval is usable for its plan. *)
Lemma new_approval_usable input administrator now rid :
  0 ≤ ai_TTL input → plan_test input now (new_approval input administrator now rid) = true.
Proof.
  intros Ht. unfold plan_test, approval_usable. simpl. rewrite !bool_decide_true by done.
  rewrite Z.eqb_refl, !andb_true_r. simpl. apply Z.ltb_lt.
  destruct (Z.eqb_spec (ai_TTL input) 0); [|lia].
  assert (0 < DefaultApprovalTTL) by done. lia.
Qed.

Lemma plan_test_later input now now2 a :
  plan_test input now a = true → now2 < ap_ExpiresAt a → plan_test input now2 a = true.
Proof.
  unfold plan_test, approval_usable. intros Hp Hx. split_bools.
  rewrite !bool_decide_true by done. rewrite (proj2 (Z.ltb_lt _ _) Hx).
  by rewrite (proj2 (Z.eqb_eq (ap_ProfileRevision a) _)).
Qed.

Lemma plan_test_earlier input now now2 a :
  now ≤ now2 → plan_test input now2 a = true → plan_test input now a = true.
Proof.
  intros Hle Hp. apply (plan_test_later _ now2); [done|].
  unfold plan_test, approval_usable in Hp. split_bools. lia.
Qed.

(** After a committed creation the approval is the one a later creation finds. *)
Lemma created_is_found input administrator now now2 rid (w w' : gworld) a created profile :
  createApprovalTx input administrator now rid w = (Ok (a, created), w') →
  approvals_keyed (b_approvals (w_db w)) → b_approvals (w_db w) !! "" = None →
  readProfile (w_db w) (ai_NAS input) = Ok profile → 0 ≤ ai_TTL input → rid ≠ "" →
  now ≤ now2 → now2 < ap_ExpiresAt a →
  plan_test (at_revision input profile) now a = true ∧
  existingApproval (w_db w') (at_revision input profile) now2 = Ok (Some a).
Proof.
  intros Hrun Hkeyed Hempty Hp Httl Hrid Hle Hx.
  apply create_approval_run in Hrun as (profile' & token & Hp' & _ & _ & Hc & _).
  assert (profile' = profile) as -> by congruence.
  unfold existingApproval, scan_approvals in *. fold (plan_test (at_revision input profile) now) in Hc.
  fold (plan_test (at_revision input profile) now2). destruct created.
  - destruct Hc as (He & -> & ->).
    assert (scan (plan_test (at_revision input profile) now) (entries (b_approvals (w_db w)))
      = Some None) as Es.
    { destruct (scan _ _) as [[[k a']|]|] eqn:Es; [|done..]. exfalso.
      apply scan_Some_Some in Es as [Hin%elem_of_entries _].
      case_bool_decide as Hid; [|done]. rewrite (Hkeyed _ _ Hin) in Hid. congruence. }
    assert (plan_test (at_revision input profile) now
      (new_approval (at_revision input profile) administrator now rid) = true) as Ht.
    { apply new_approval_usable. by rewrite at_revision_ttl. }
    split; [done|]. erewrite scan_stronger; [|by apply scan_inserted|by eapply plan_test_later|
      intros x; by apply plan_test_earlier].
    by rewrite bool_decide_false.
  - destruct Hc as (He & ->).
    destruct (scan _ _) as [[[k a']|]|] eqn:Es in He; [|done..].
    case_bool_decide as Hid; [done|]. injection He as ->.
    pose proof (scan_Some_Some _ _ _ _ Es) as [_ Ht]. split; [done|].
    erewrite scan_stronger; [|exact Es|by eapply plan_test_later|
      intros x; by apply plan_test_earlier].
    by rewrite bool_decide_false.
Qed.
End approvals.

(** ** Property theorems *)

(** What an approval store keeps true. *)
Definition approvals_wf (b : bucket Approval) : Prop := approvals_keyed b ∧ b !! "" = None.

(** An approval is given once, to an entitled token, for one plan.  A successful
    [CreateApproval] means the requesting token was active, scoped for apply and allowed
    on the NAS at exactly its current revision, and returns a stored, unconsumed, unexpired
    approval for that plan; the plan's pending requests are gone.
    Asking again before it expires, by whichever administrator, returns the same approval
    and stores nothing. *)
Theorem create_approval_once `{Unicode} ctx ctx' input administrator administrator' now now2 rid
    rid' (w w1 : gworld) a :
  CreateApproval ctx input administrator now rid w = (Ok a, w1) →
  approvals_wf (b_approvals (w_db w)) → rid ≠ "" →
  let plan := trimmed_approval input in
  (∃ profile token,
     readProfile (w_db w) (ai_NAS plan) = Ok profile ∧
     apply_authorised (w_db w) (ai_RequestingTokenID plan) (ai_NAS plan) (pr_Revision profile)
       now token ∧
     (ai_ProfileRevision input ≠ 0 → ai_ProfileRevision input = pr_Revision profile) ∧
     approval_usable (ai_RequestingTokenID plan) (ai_NAS plan) (pr_Revision profile)
       (ai_PlanHash plan) now a = true ∧
     b_approvals (w_db w1) !! ap_ID a = Some (Json a) ∧
     (∀ k q, b_approval_requests (w_db w1) !! k = Some (Json q) →
        ¬ (pa_PlanHash q = ai_PlanHash plan ∧
           pa_RequestingTokenID q = ai_RequestingTokenID plan)) ∧
     (ctx_Err ctx' = None → TrimSpace administrator' ≠ "" → now ≤ now2 →
      now2 < ap_ExpiresAt a → token_active (tr_MCPToken token) now2 = true →
      ∃ w2, CreateApproval ctx' input administrator' now2 rid' w1 = (Ok a, w2) ∧
        b_approvals (w_db w2) = b_approvals (w_db w1))).
Proof.
  intros Hrun [Hkeyed Hempty] Hrid plan.
  apply create_approval_inv in Hrun as [Hv (created & Htx)]. fold plan in Hv, Htx.
  pose proof (validated_ttl _ _ _ Hv) as [Httl _].
  pose proof (create_approval_ok _ _ _ _ _ _ _ Htx) as Hreq.
  pose proof Htx as (profile & token & Hp & Hrev & Hauth & Hc & Hw)%create_approval_run.
  cbv zeta in *. set (plan' := at_revision plan profile) in *.
  assert (∀ x, x < ap_ExpiresAt a → now ≤ x → plan_test plan' now a = true ∧
    existingApproval (w_db w1) plan' x = Ok (Some a)) as Hfound.
  { intros x Hx Hle. eapply created_is_found; [exact Htx|..]; done || lia. }
  assert (plan_test plan' now a = true) as Ht.
  { destruct created.
    - destruct Hc as (_ & -> & _). apply new_approval_usable. unfold plan'.
      rewrite at_revision_ttl. lia.
    - destruct Hc as [He _]. unfold existingApproval, scan_approvals in He.
      destruct (scan _ _) as [[[k x]|]|] eqn:Es; [|done..]. case_bool_decide; [done|].
      injection He as ->. by apply scan_Some_Some in Es as [_ ?]. }
  assert (ai_RequestingTokenID plan' = ai_RequestingTokenID plan ∧ ai_NAS plan' = ai_NAS plan
    ∧ ai_PlanHash plan' = ai_PlanHash plan) as (Hti & Hni & Hhi).
  { unfold plan', at_revision. destruct (ai_ProfileRevision plan =? 0); by repeat split. }
  exists profile, token. split; [done|]. rewrite Hrev. split; [done|]. split.
  { intros Hnz. unfold plan', at_revision. apply Z.eqb_neq in Hnz.
    change (ai_ProfileRevision plan) with (ai_ProfileRevision input). by rewrite Hnz. }
  split; [by unfold plan_test in Ht; rewrite Hti, Hni, Hhi in Ht|]. split.
  { destruct created.
    - destruct Hc as (_ & -> & ->). by rewrite lookup_insert_eq.
    - destruct Hc as [He ->]. unfold existingApproval, scan_approvals in He.
      destruct (scan _ _) as [[[k x]|]|] eqn:Es; [|done..]. case_bool_decide; [done|].
      injection He as ->. apply scan_Some_Some in Es as [Hin%elem_of_entries _].
      by rewrite (Hkeyed _ _ Hin). }
  split.
  { intros k q. rewrite Hw. simpl. rewrite without_plan_spec, Hti, Hhi. tauto. }
  intros Hctx Had Hle Hx Hact.
  destruct (create_existing_eq plan (TrimSpace administrator') now2 rid' w1 profile token a)
    as (w2 & Htx2 & Happ).
  - by rewrite Hw.
  - done.
  - destruct Hauth as (Htok & _ & Hs & Hn & Hpr). rewrite Hw. by repeat (split; [done|]).
  - by apply Hfound.
  - rewrite Hw. simpl. by apply ForEach_delete_keys.
  - exists w2. split; [|done]. unfold CreateApproval, ctx_check. rewrite Hctx. cbv zeta.
    fold (trimmed_approval input). fold plan.
    assert (validateApprovalInput plan (TrimSpace administrator') = Ok ()) as ->.
    { revert Hv. unfold validateApprovalInput. rewrite (bool_decide_false _ Had).
      destruct (_ || _); [done|]. destruct (_ || _); [done|]. case_bool_decide; done. }
    unfold Update. st_unfold. simpl. by rewrite Htx2.
Qed.

Definition sample_approval_input : ApprovalInput := {|
  ai_PlanHash := "  " +:+ sample_hash; ai_NAS := "nas1"; ai_ProfileRevision := 0;
  ai_RequestingTokenID := "t2"; ai_TTL := 0 |}.
Definition sample_create := @CreateApproval ascii_tables Background sample_approval_input "root"
  Minute "a7" sample_world.

Lemma sample_approvals_wf : approvals_wf (b_approvals sample_db).
Proof.
  split; [|reflexivity]. intros k a Hk. simpl in Hk. unfold sample_approval in Hk.
  by apply lookup_singleton_Some in Hk as [<- [= <-]].
Qed.

(** Approved by one administrator, asked again by another. *)
Lemma create_approval_once_witness :
  ∃ a w1, sample_create = (Ok a, w1) ∧ ∃ w2,
    @CreateApproval ascii_tables Background sample_approval_input "eve" (2 * Minute) "a8" w1
      = (Ok a, w2) ∧ b_approvals (w_db w2) = b_approvals (w_db w1).
Proof.
  destruct sample_create as [[a|e] w1] eqn:E; [|vm_compute in E; discriminate].
  exists a, w1. split; [reflexivity|].
  destruct (@create_approval_once ascii_tables Background Background sample_approval_input "root"
    "eve" Minute (2 * Minute) "a7" "a8" sample_world w1 a E sample_approvals_wf)
    as (profile & token & _ & (Ht & _) & _ & _ & _ & _ & Hagain); [discriminate|].
  apply Hagain; [reflexivity|discriminate|discriminate| |].
  - vm_compute in E. injection E as <- _. reflexivity.
  - vm_compute in Ht. injection Ht as <-. reflexivity.
Defined.

(** *** Approving a request *)

Section approve.
Context `{Unicode, KeyN}.

(** The approval a pending request asks for. *)
Definition asked (q : PendingApproval) : ApprovalInput := {|
  ai_PlanHash := pa_PlanHash q; ai_NAS := pa_NAS q;
  ai_ProfileRevision := pa_ProfileRevision q;
  ai_RequestingTokenID := pa_RequestingTokenID q; ai_TTL := 0 |}.

Lemma approve_run ctx id administrator now wall rid aid (w w' : gworld) a :
  ApprovePendingApproval ctx id administrator now wall rid aid w = (Ok a, w') →
  ∃ q created w1 log, b_approval_requests (w_db w) !! TrimSpace id = Some (Json q) ∧
    now < pa_ExpiresAt q ∧ TrimSpace administrator ≠ "" ∧
    createApprovalTx (asked q) (TrimSpace administrator) now rid w = (Ok (a, created), w1) ∧
    w' = World (set_b_audit log (w_db w1)) (w_rest w1).
Proof.
  unfold ApprovePendingApproval. intros (u & w0 & [_ ->]%ctx_check_ok & Hrun)%bind_ok_inv.
  cbv zeta in Hrun. apply bind_ok_inv in Hrun as ([] & w1 & [Hc ->]%check_ok_inv & Hrun).
  apply Update_ok_inv in Hrun. apply bind_ok_inv in Hrun as (d & w2 & Hd & Hrun).
  unfold getDB in Hd. injection Hd as <- <-.
  destruct (b_approval_requests (w_db w) !! TrimSpace id) as [[q|]|] eqn:Hq; [|done..].
  destruct (Z.ltb_spec now (pa_ExpiresAt q)) as [Hx|Hx]; simpl negb in Hrun.
  2:{ by apply bind_ok_inv in Hrun as (? & ? & _ & ?). }
  apply bind_ok_inv in Hrun as ([a' created] & w3 & Htx & Hrun).
  apply bind_ok_inv in Hrun as ([] & w4 & Ha & Hrun).
  apply appendAuditTx_run in Ha as [_ ->]. unfold mret, ST_ret in Hrun.
  injection Hrun as <- <-. exists q, created, w3. eexists.
  apply negb_true_iff in Hc. split_bools. by repeat (split; [done|]).
Qed.

(** Everything an admission needs, forwards. *)
Lemma admit_forward r (w : gworld) token a :
  ctx_Err (ad_ctx r) = None → ad_auditFailure r = None →
  apply_authorised (w_db w) (ad_tokenID r) (ad_nas r) (ad_revision r) (ad_now r) token →
  findApproval (w_db w) (ad_tokenID r) (ad_nas r) (ad_revision r) (ad_hash r) (ad_now r)
    = Ok (Some a) →
  is_Ok (run_admission r w).1 = true.
Proof.
  intros Hc Ha (Ht & Hact & Hs & Hn & profile & Hp & Hrev) Hf.
  unfold run_admission, AdmitRemoteApply, ctx_check. rewrite Hc, Ha.
  unfold Update, mask, appendAuditTx, put_approval. st_unfold. cbn beta iota.
  destruct w as [d fl]. cbn [w_db w_rest] in *. rewrite Ht. simpl.
  unfold validateActiveToken. rewrite Hact. simpl.
  rewrite !(proj2 (sliceContains_true _ _)) by done. simpl.
  rewrite Hp, Hrev, Z.eqb_refl. simpl.
  destruct (EqualFold (ad_risk r) "high"); [|done]. rewrite Hf. done.
Qed.

Lemma find_approval_total d tokenID nas revision hash now k a :
  approvals_wf (b_approvals d) → (∀ k, b_approvals d !! k ≠ Some Garbled) →
  b_approvals d !! k = Some (Json a) → approval_usable tokenID nas revision hash now a = true →
  ap_Administrator a ≠ "" → ∃ a', findApproval d tokenID nas revision hash now = Ok (Some a').
Proof.
  intros [Hk Hempty] Hg Ha Hu Had. unfold findApproval, scan_approvals.
  destruct (scan_match (λ a, approval_usable tokenID nas revision hash now a
    && negb (bool_decide (ap_Administrator a = ""))) (b_approvals d) k a)
    as (k' & a' & -> & Hk' & _); [done..| |].
  { rewrite Hu. by rewrite bool_decide_false. }
  exists a'. rewrite bool_decide_false; [done|]. rewrite (Hk _ _ Hk'). congruence.
Qed.
End approve.

(** The store after a committed creation: still well formed, and holding the approval. *)
Lemma approvals_after input administrator now rid (w w' : gworld) a created :
  createApprovalTx input administrator now rid w = (Ok (a, created), w') →
  approvals_wf (b_approvals (w_db w)) → rid ≠ "" →
  (∀ k, b_approvals (w_db w) !! k ≠ Some Garbled) →
  approvals_wf (b_approvals (w_db w')) ∧ (∀ k, b_approvals (w_db w') !! k ≠ Some Garbled) ∧
  b_approvals (w_db w') !! ap_ID a = Some (Json a).
Proof.
  intros (profile & token & _ & _ & _ & Hc & _)%create_approval_run [Hk He] Hrid Hg.
  destruct created.
  - destruct Hc as (_ & -> & ->). cbn [ap_ID new_approval]. split; [split|split].
    + intros k a'. rewrite lookup_insert_Some. intros [[<- [= <-]]|[_ ?]]; [done|eauto].
    + by rewrite lookup_insert_ne.
    + intros k. rewrite lookup_insert. by case_decide.
    + apply lookup_insert_eq.
  - destruct Hc as [Hx ->]. do 2 (split; [done|]).
    unfold existingApproval, scan_approvals in Hx.
    destruct (scan _ _) as [[[k x]|]|] eqn:Es; [|done..]. case_bool_decide; [done|].
    injection Hx as ->. apply scan_Some_Some in Es as [Hin%elem_of_entries _].
    by rewrite (Hk _ _ Hin).
Qed.

(** C37: Approving a pending request makes its apply go through.  After an approval, and until
    it expires, the admission of exactly that plan by the requesting token succeeds, at high
    risk as at any other, provided the token is still active; the request has left the
    queue. *)
Theorem approve_then_admit `{Unicode, KeyN} ctx id administrator now wall rid aid
    (w w1 : gworld) a r :
  ApprovePendingApproval ctx id administrator now wall rid aid w = (Ok a, w1) →
  approvals_wf (b_approvals (w_db w)) → rid ≠ "" →
  (∀ k, b_approvals (w_db w) !! k ≠ Some Garbled) →
  (∀ k x, b_approvals (w_db w) !! k = Some (Json x) → ap_Administrator x ≠ "") →
  ctx_Err (ad_ctx r) = None → ad_auditFailure r = None →
  ad_tokenID r = ap_RequestingTokenID a → ad_nas r = ap_NAS a →
  ad_revision r = ap_ProfileRevision a → ad_hash r = ap_PlanHash a →
  now ≤ ad_now r < ap_ExpiresAt a →
  (∀ token, readMCPToken (w_db w) (ad_tokenID r) = Ok token →
     token_active (tr_MCPToken token) (ad_now r) = true) →
  is_Ok (run_admission r w1).1 = true ∧ b_approval_requests (w_db w1) !! TrimSpace id = None.
Proof.
  intros Hrun Hwf Hrid Hg Hadm Hctx Haf Hrt Hrn Hrr Hrh Hrx Hact.
  apply approve_run in Hrun as (q & created & w2 & log & Hq & Hx & Had & Htx & ->).
  pose proof (approvals_after _ _ _ _ _ _ _ _ Htx Hwf Hrid Hg) as (Hwf2 & Hg2 & Hin).
  pose proof Htx as (profile & token & Hp & Hrev & Hauth & Hc & Hw)%create_approval_run.
  cbv zeta in *. simpl in Hp, Hauth. set (plan := at_revision (asked q) profile) in *.
  destruct Hwf as [Hkeyed Hempty].
  destruct (created_is_found _ _ _ (ad_now r) _ _ _ _ _ _ Htx Hkeyed Hempty Hp) as [Ht _];
    [done|done|lia|lia|]. fold plan in Ht.
  pose proof (plan_test_later _ _ (ad_now r) _ Ht ltac:(lia)) as Ht2.
  assert (ad_tokenID r = ai_RequestingTokenID plan ∧ ad_nas r = ai_NAS plan ∧
    ad_revision r = ai_ProfileRevision plan ∧ ad_hash r = ai_PlanHash plan) as (Et & En & Er & Eh).
  { unfold plan_test, approval_usable in Ht. split_bools. split_and!; congruence. }
  assert (ai_RequestingTokenID plan = pa_RequestingTokenID q ∧ ai_NAS plan = pa_NAS q
    ∧ ai_PlanHash plan = pa_PlanHash q) as (Pt & Pn & Ph).
  { unfold plan, at_revision. destruct (ai_ProfileRevision (asked q) =? 0); by repeat split. }
  destruct (find_approval_total (set_b_audit log (w_db w2)) (ad_tokenID r) (ad_nas r)
    (ad_revision r) (ad_hash r) (ad_now r) (ap_ID a) a) as [a' Hf].
  - exact Hwf2.
  - exact Hg2.
  - exact Hin.
  - rewrite Et, En, Er, Eh. exact Ht2.
  - destruct created; [destruct Hc as (_ & -> & _); exact Had|].
    destruct Hc as [_ Hb]. rewrite Hb in Hin. by eapply Hadm.
  - split; [|rewrite Hw; simpl].
    + apply (admit_forward r _ token a'); [done..| |exact Hf].
      destruct Hauth as (Htok & _ & Hs & Hn & Hpr).
      rewrite Et, En, Er, Pt, Pn. rewrite Hw. split; [exact Htok|].
      split; [apply Hact; by rewrite Et, Pt|]. by repeat (split; [done|]).
    + destruct (without_plan plan (b_approval_requests (w_db w)) !! TrimSpace id) as [v|] eqn:Ev;
        [|done]. pose proof Ev as Ev'. unfold without_plan in Ev'.
      apply lookup_delete_keys_Some in Ev' as [Hv _]. rewrite Hq in Hv. injection Hv as <-.
      apply without_plan_spec in Ev as [_ Hn]. destruct Hn. by rewrite Pt, Ph.
Qed.

Definition sample_approve := @ApprovePendingApproval keyN_committed Background "q1" "root" Minute
  Minute "a9" "e9" sample_world.

Lemma approve_then_admit_witness :
  ∃ a w1, sample_approve = (Ok a, w1) ∧
    is_Ok (@run_admission ascii_tables keyN_committed sample_admission w1).1 = true.
Proof.
  destruct sample_approve as [[a|e] w1] eqn:E; [|vm_compute in E; discriminate].
  exists a, w1. split; [reflexivity|]. pose proof E as E'. vm_compute in E'.
  injection E' as <- _.
  refine (proj1 (@approve_then_admit ascii_tables keyN_committed Background "q1" "root" Minute Minute
    "a9" "e9" sample_world w1 _ sample_admission E sample_approvals_wf _ _ _ eq_refl eq_refl
    eq_refl eq_refl eq_refl eq_refl _ _)).
  - discriminate.
  - intros k Hk. simpl in Hk. by apply lookup_singleton_Some in Hk as [_ ?].
  - intros k x Hk. simpl in Hk. apply lookup_singleton_Some in Hk as [_ Hk]. injection Hk as <-.
    discriminate.
  - split; [discriminate|reflexivity].
  - intros token Ht. vm_compute in Ht. injection Ht as <-. reflexivity.
Defined.

(** An expired request stays in the queue.  Approving it deletes it, but reports the
    expiry as the error of the same transaction, which undoes the deletion: the database is
    unchanged. *)
Theorem approve_expired_kept `{KeyN} ctx id administrator now wall rid aid (w : gworld) q :
  ctx_Err ctx = None → TrimSpace id ≠ "" → TrimSpace administrator ≠ "" →
  b_approval_requests (w_db w) !! TrimSpace id = Some (Json q) → pa_ExpiresAt q ≤ now →
  ApprovePendingApproval ctx id administrator now wall rid aid w
    = (Err (ErrNotFound "pending approval expired"), w).
Proof.
  intros Hctx Hid Had Hq Hx. destruct w as [d fl]. simpl in Hq.
  unfold ApprovePendingApproval, ctx_check. rewrite Hctx.
  rewrite !bool_decide_false by done. unfold Update. st_unfold. simpl.
  rewrite Hq. rewrite (proj2 (Z.ltb_ge _ _) Hx). done.
Qed.

Lemma approve_expired_kept_witness :
  (@ApprovePendingApproval keyN_committed Background "q1" "root" (25 * Hour) 0 "a9" "e9" sample_world).2
    = sample_world.
Proof.
  rewrite (@approve_expired_kept keyN_committed Background "q1" "root" (25 * Hour) 0 "a9" "e9"
    sample_world (sample_request "q1" "t1" 0)); [reflexivity|reflexivity|discriminate
    |discriminate|reflexivity|discriminate].
Defined.

(** ** The queue of pending requests *)

Definition requests_wf (b : bucket PendingApproval) : Prop :=
  requests_keyed b ∧ plans_unique b ∧ b !! "" = None.

Lemma requests_wf_subseteq b b' : b' ⊆ b → requests_wf b → requests_wf b'.
Proof.
  intros Hs (Hk & Hu & He). assert (∀ k v, b' !! k = Some v → b !! k = Some v) as Hl
    by (intros k v Hv; by eapply lookup_weaken).
  split; [|split].
  - intros k q Hq. by apply Hk, Hl.
  - intros k1 k2 q1 q2 H1 H2. apply Hu; by apply Hl.
  - destruct (b' !! "") as [v|] eqn:Hv; [|done]. apply Hl in Hv. congruence.
Qed.

Section oldest.
Abbreviation created p := (pa_CreatedAt (snd p)).

Lemma older_fold l (acc : option (string * PendingApproval)) q :
  fold_left older l acc = Some q →
  (q ∈ l ∨ acc = Some q) ∧ (∀ p, p ∈ l ∨ acc = Some p → created q ≤ created p).
Proof.
  revert acc. induction l as [|p l IH]; intros acc; cbn [fold_left].
  { intros ->. split; [by right|]. intros p [[]%elem_of_nil|[= ->]]. lia. }
  intros Hf. destruct (IH _ Hf) as [Hin Hmin]. setoid_rewrite elem_of_cons.
  destruct acc as [p0|]; cbn [older] in *.
  - destruct (Z.ltb_spec (created p) (created p0)) as [Hlt|Hge].
    + split; [destruct Hin as [?|[= ->]]; auto|].
      pose proof (Hmin p (or_intror eq_refl)) as Hp.
      intros x [[->|Hx]|[= ->]]; [done|apply Hmin; auto|lia].
    + split; [destruct Hin as [?|[= ->]]; auto|].
      pose proof (Hmin p0 (or_intror eq_refl)) as Hp.
      intros x [[->|Hx]|[= ->]]; [lia|apply Hmin; auto|done].
  - split; [destruct Hin as [?|[= ->]]; auto|]. intros x [[->|Hx]|?]; [| |done]; auto.
Qed.

Lemma oldest_request_Some l q :
  oldest_request l = Some q → q ∈ l ∧ ∀ p, p ∈ l → created q ≤ created p.
Proof.
  intros [[Hin|?] Hmin]%older_fold; [|done]. split; [done|]. intros p Hp. auto.
Qed.

Lemma oldest_request_None l : oldest_request l = None → l = [].
Proof.
  unfold oldest_request. destruct l as [|p l]; [done|]. cbn [fold_left older].
  intros Hf. exfalso. revert p Hf. induction l as [|p' l IH]; intros p; cbn [fold_left older].
  - done.
  - destruct (_ <? _); apply IH.
Qed.

(** What the bounding loop promises: enough rounds, the oldest requests first. *)
Lemma bound_loop_spec fuel b b' :
  bound_loop fuel b = Ok b' → (size b ≤ fuel)%nat →
  b' ⊆ b ∧ count b' ≤ MaxPendingApprovals ∧ (count b ≤ MaxPendingApprovals → b' = b) ∧
  ∀ k q k' q', b' !! k = Some (Json q) → b !! k' = Some (Json q') → b' !! k' = None →
    pa_CreatedAt q' ≤ pa_CreatedAt q.
Proof.
  revert b. induction fuel as [|fuel IH]; intros b; cbn [bound_loop];
    (destruct (ForEach b) as [l|] eqn:Hl; [|done]); pose proof (ForEach_count _ _ Hl) as Hc;
    (destruct (oldest_request l) as [[k q]|] eqn:Ho; [|
      apply oldest_request_None in Ho as ->; simpl in Hc; intros [= <-] _;
      split; [done|]; split; [unfold MaxPendingApprovals; lia|]; split; [done|]; congruence]);
    rewrite Hc; (destruct (Z.leb_spec (count b) MaxPendingApprovals) as [Hle|Hgt];
      [intros [= <-] _; split; [done|]; split; [done|]; split; [done|]; congruence|]).
  { intros _ Hf. unfold count, MaxPendingApprovals in Hgt. lia. }
  intros Hb Hf. apply oldest_request_Some in Ho as [Hin Hmin].
  pose proof (ForEach_Some _ _ Hl) as Hlk. apply Hlk in Hin.
  assert (is_Some (b !! k)) as Hk by eauto.
  destruct (IH _ Hb) as (Hs & Hn & _ & Hold).
  { rewrite map_size_delete_Some by done. lia. }
  assert (b' ⊆ b) as Hs' by (etrans; [exact Hs|apply delete_subseteq]).
  split; [done|]. split; [done|]. split; [lia|]. intros k1 q1 k2 q2 H1 H2 H3.
  destruct (decide (k2 = k)) as [->|Hne].
  - rewrite Hin in H2. injection H2 as <-. apply (Hmin (k1, q1)), Hlk.
    by eapply lookup_weaken.
  - apply (Hold k1 q1 k2 q2); [done| |done]. by rewrite lookup_delete_ne.
Qed.

(** The loop stops long before the queue is empty. *)
Lemma bound_loop_nonempty fuel b b' :
  bound_loop fuel b = Ok b' → b ≠ ∅ → b' ≠ ∅.
Proof.
  revert b. induction fuel as [|fuel IH]; intros b; cbn [bound_loop];
    (destruct (ForEach b) as [l|] eqn:Hl; [|done]);
    (destruct (oldest_request l) as [[k q]|]; [|by intros [= <-]]);
    (destruct (Z.leb_spec (Z.of_nat (length l)) MaxPendingApprovals) as [Hle|Hgt];
      [by intros [= <-]|]); [by intros [= <-]|].
  intros Hb _. apply (IH _ Hb). intros Hz. rewrite (ForEach_count _ _ Hl) in Hgt.
  assert (count b ≤ count (delete k b) + 1) as Hc.
  { destruct (b !! k) as [v|] eqn:Hk.
    - rewrite <- (insert_delete_id b k v Hk) at 1. apply count_insert_le.
    - rewrite delete_id by done. lia. }
  rewrite Hz in Hc. unfold count at 2 in Hc. rewrite map_size_empty in Hc.
  unfold MaxPendingApprovals in Hgt. lia.
Qed.
End oldest.

Section record.
Context `{Unicode}.

(** The request [RecordPendingApproval] stores. *)
Definition recorded (input : PendingApprovalRequest) (id name : string) (now : Z) :
    PendingApproval := {|
  pa_ID := id; pa_PlanHash := pq_PlanHash input; pa_NAS := pq_NAS input;
  pa_ProfileRevision := pq_ProfileRevision input;
  pa_RequestingTokenID := pq_RequestingTokenID input; pa_RequestingToken := name;
  pa_Tool := pq_Tool input; pa_Risk := pq_Risk input;
  pa_ResourceID := pq_ResourceID input; pa_Summary := pq_Summary input;
  pa_CreatedAt := now; pa_ExpiresAt := now + PendingApprovalTTL |}.

Definition live_requests (now : Z) (b : bucket PendingApproval) : bucket PendingApproval :=
  delete_keys (keys_where (request_expired now) b) b.

Lemma live_requests_spec now b k q :
  live_requests now b !! k = Some (Json q) ↔ b !! k = Some (Json q) ∧ now < pa_ExpiresAt q.
Proof.
  unfold live_requests. rewrite lookup_delete_keys_Some, elem_of_keys_where.
  unfold request_expired. split; intros [Hk Hn]; split; try done.
  - destruct (Z.ltb_spec now (pa_ExpiresAt q)); [done|]. destruct Hn. exists q.
    split; [done|]. apply negb_true_iff. by apply Z.ltb_ge.
  - intros (q' & Hq' & Hb). rewrite Hk in Hq'. injection Hq' as <-. split_bools. lia.
Qed.

Lemma record_run ctx input now rid (w w' : gworld) u :
  RecordPendingApproval ctx input now rid w = (Ok u, w') →
  let input' := normalize_request input in
  let live := live_requests now (b_approval_requests (w_db w)) in
  ∃ id name b, w' = World (set_b_approval_requests b (w_db w)) (w_rest w) ∧
    bound_loop (size (<[id := Json (recorded input' id name now)]> live))
      (<[id := Json (recorded input' id name now)]> live) = Ok b ∧
    match scan (requests_of_plan (pq_PlanHash input') (pq_RequestingTokenID input'))
            (entries live) with
    | Some (Some (_, p)) => id = (if bool_decide (pa_ID p = "") then rid else pa_ID p)
    | Some None => id = rid
    | None => False
    end.
Proof.
  unfold RecordPendingApproval. intros (u0 & w0 & [_ ->]%ctx_check_ok & Hrun)%bind_ok_inv.
  cbv zeta in *. set (input' := normalize_request input) in *.
  apply bind_ok_inv in Hrun as ([] & w1 & [Hv ->]%lift_ok_inv & Hrun).
  apply Update_ok_inv in Hrun. apply bind_ok_inv in Hrun as ([] & w2 & Hp & Hrun).
  apply delete_requests_run in Hp as ->.
  fold (live_requests now (b_approval_requests (w_db w))) in Hrun.
  set (live := live_requests now (b_approval_requests (w_db w))) in *.
  apply bind_ok_inv in Hrun as (d & w3 & Hd & Hrun). unfold getDB in Hd. injection Hd as <- <-.
  change (b_approval_requests (set_b_approval_requests live (w_db w))) with live in Hrun.
  destruct (scan _ (entries live)) as [current|]; [|done].
  set (id := if bool_decide (match current with Some (_, p) => pa_ID p | None => "" end = "")
    then rid else _) in Hrun.
  exists id, (match current with Some (_, p) => pa_RequestingToken p | None => "" end).
  apply bind_ok_inv in Hrun as ([] & w4 & Hm & Hrun). unfold modifyDB in Hm. injection Hm as <-.
  unfold boundPendingApprovals in Hrun.
  apply bind_ok_inv in Hrun as (d & w5 & Hd & Hrun). unfold getDB in Hd. injection Hd as <- <-.
  apply bind_ok_inv in Hrun as (b & w6 & [Hb ->]%lift_ok_inv & Hrun).
  unfold modifyDB in Hrun. injection Hrun as _ <-. exists b. split; [done|]. split; [exact Hb|].
  by destruct current as [[k p]|].
Qed.
End record.

(** Inserting the request of a plan over the one that held it keeps the queue well formed. *)
Lemma requests_wf_insert b id r :
  requests_wf b → pa_ID r = id → id ≠ "" →
  (∀ k q, b !! k = Some (Json q) → pa_PlanHash q = pa_PlanHash r →
     pa_RequestingTokenID q = pa_RequestingTokenID r → k = id) →
  requests_wf (<[id := Json r]> b).
Proof.
  intros (Hk & Hu & He) Hid Hne Hsame. split; [|split].
  - intros k q. rewrite lookup_insert_Some. intros [[<- [= <-]]|[_ ?]]; [done|by apply Hk].
  - intros k1 k2 q1 q2. rewrite !lookup_insert_Some.
    intros [[<- [= <-]]|[H1 H1']] [[<- [= <-]]|[H2 H2']]; [done| | |by apply Hu].
    + intros E1 E2. symmetry. by apply (Hsame k2 q2).
    + intros E1 E2. by apply (Hsame k1 q1).
  - by rewrite lookup_insert_ne.
Qed.

(** The queue of approval requests is bounded, current and free of duplicates.  After a
    recorded request the queue holds at most fifty requests, none expired, at most one per
    plan and token; what the bound evicts of other plans is never younger than what it
    keeps, and as long as the clock moves on, the request just recorded is in the queue for
    a full day. *)
Theorem pending_queue_bounded `{Unicode} ctx input now rid (w w' : gworld) u :
  RecordPendingApproval ctx input now rid w = (Ok u, w') →
  requests_wf (b_approval_requests (w_db w)) → rid ≠ "" →
  b_approval_requests (w_db w) !! rid = None →
  let b := b_approval_requests (w_db w) in let b' := b_approval_requests (w_db w') in
  count b' ≤ MaxPendingApprovals ∧ requests_wf b' ∧
  (∀ k q, b' !! k = Some (Json q) → now < pa_ExpiresAt q) ∧
  (∀ k q k' q', b' !! k = Some (Json q) → b !! k' = Some (Json q') → now < pa_ExpiresAt q' →
     ¬ (pa_PlanHash q' = pq_PlanHash (normalize_request input) ∧
        pa_RequestingTokenID q' = pq_RequestingTokenID (normalize_request input)) →
     b' !! k' = None → pa_CreatedAt q' ≤ pa_CreatedAt q) ∧
  ((∀ k q, b !! k = Some (Json q) → pa_CreatedAt q < now) →
   ∃ k q, b' !! k = Some (Json q) ∧ pa_PlanHash q = pq_PlanHash (normalize_request input) ∧
     pa_RequestingTokenID q = pq_RequestingTokenID (normalize_request input) ∧
     pa_ExpiresAt q = now + PendingApprovalTTL).
Proof.
  intros Hrun Hwf Hrid Hfresh b b'. apply record_run in Hrun as (id & name & b1 & -> & Hb & Hscan).
  simpl in b'. subst b'. fold b in Hb, Hscan. set (live := live_requests now b) in *.
  set (r := recorded (normalize_request input) id name now) in *.
  assert (live ⊆ b) as Hlive by apply delete_keys_subseteq.
  pose proof (requests_wf_subseteq _ _ Hlive Hwf) as Hlwf. pose proof Hlwf as (Hk & Hu & He).
  assert (id ≠ "" ∧ ∀ k q, live !! k = Some (Json q) → pa_PlanHash q = pa_PlanHash r →
    pa_RequestingTokenID q = pa_RequestingTokenID r → k = id) as [Hid Hsame].
  { destruct (scan _ _) as [[[k p]|]|] eqn:Es; [| |done].
    - apply scan_Some_Some in Es as [Hin%elem_of_entries Hf]. unfold requests_of_plan in Hf.
      rewrite (Hk _ _ Hin) in Hscan. case_bool_decide as Hne; [congruence|].
      split_bools. split; [done|]. intros k' q Hq E1 E2. apply (Hu k' k q p); simpl in *; congruence.
    - subst id. split; [done|]. intros k q Hq E1 E2. exfalso.
      apply elem_of_entries in Hq. destruct (scan_Some_None _ _ Es _ _ Hq) as (a & [= <-] & Hf).
      unfold requests_of_plan in Hf. simpl in E1, E2. rewrite !bool_decide_true in Hf by done.
      done. }
  destruct (bound_loop_spec _ _ _ Hb ltac:(done)) as (Hs & Hn & _ & Hold).
  pose proof (requests_wf_insert live id r Hlwf eq_refl Hid Hsame) as Hiwf.
  split; [done|]. split; [by eapply requests_wf_subseteq|].
  assert (∀ k q, <[id := Json r]> live !! k = Some (Json q) → now < pa_ExpiresAt q) as Hexp.
  { intros k q. rewrite lookup_insert_Some. intros [[_ [= <-]]|[_ Hq]].
    - simpl. assert (0 < PendingApprovalTTL) by done. lia.
    - by apply live_requests_spec in Hq as [_ ?]. }
  split; [intros k q Hq; eapply Hexp; by eapply lookup_weaken|]. split.
  - intros k q k' q' Hq Hq' Hx Hother Hgone. destruct (decide (k' = id)) as [->|Hne].
    + destruct (scan _ _) as [[[k0 p]|]|] eqn:Es; [| |done].
      * apply scan_Some_Some in Es as [Hin%elem_of_entries Hf].
        rewrite (Hk _ _ Hin) in Hscan. case_bool_decide as Hne; [congruence|].
        assert (b !! k0 = Some (Json p)) as Hb0 by by eapply lookup_weaken.
        unfold requests_of_plan in Hf. subst id. rewrite Hb0 in Hq'. injection Hq' as <-.
        split_bools. destruct Hother. done.
      * subst id. unfold b in Hq'. congruence.
    + apply (Hold k q k' q'); [done| |done]. rewrite lookup_insert_ne by done.
      by apply live_requests_spec.
  - intros Hpast. assert (is_Some (b1 !! id)) as [v Hv].
    { destruct (b1 !! id) as [v|] eqn:Hv; [eauto|]. exfalso.
      assert (b1 = ∅) as ->.
      { apply map_empty. intros k. destruct (b1 !! k) as [[q|]|] eqn:Hq; [| |done].
        - assert (<[id := Json r]> live !! k = Some (Json q)) as Hl by by eapply lookup_weaken.
          apply lookup_insert_Some in Hl as [[-> _]|[_ Hl]]; [congruence|].
          pose proof (Hold k q id r Hq (lookup_insert_eq _ _ _) Hv) as Hc. simpl in Hc.
          assert (b !! k = Some (Json q)) as Hbk by by eapply lookup_weaken.
          specialize (Hpast _ _ Hbk). lia.
        - exfalso. assert (ForEach (<[id := Json r]> live) ≠ None) as Hf.
          { intros Hf. by destruct (size _) in Hb; cbn [bound_loop] in Hb; rewrite Hf in Hb. }
          apply Hf, ForEach_None. exists k. by eapply lookup_weaken. }
      pose proof (bound_loop_nonempty _ _ _ Hb) as Hne. apply Hne; [|done].
      intros Hz. assert ((<[id := Json r]> live) !! id = Some (Json r)) as Hl
        by apply lookup_insert_eq. by rewrite Hz, lookup_empty in Hl. }
    assert (<[id := Json r]> live !! id = Some v) as Hl by by eapply lookup_weaken.
    rewrite lookup_insert_eq in Hl. injection Hl as <-. by exists id, r.
Qed.

Definition sample_ask : PendingApprovalRequest := {|
  pq_PlanHash := sample_hash; pq_NAS := "nas1"; pq_ProfileRevision := 3;
  pq_RequestingTokenID := "t2"; pq_Tool := "plan_x"; pq_Risk := " HIGH";
  pq_ResourceID := ""; pq_Summary := "delete a pool" |}.

Lemma sample_requests_wf : requests_wf (b_approval_requests sample_db).
Proof.
  split; [|split; [|reflexivity]].
  - intros k q Hk. simpl in Hk. by apply lookup_singleton_Some in Hk as [<- [= <-]].
  - intros k1 k2 q1 q2 H1 H2 _ _. simpl in H1, H2.
    apply lookup_singleton_Some in H1 as [<- _]. by apply lookup_singleton_Some in H2 as [<- _].
Qed.

Lemma pending_queue_bounded_witness :
  ∃ w', @RecordPendingApproval ascii_tables Background sample_ask Minute "q7" sample_world
    = (Ok (), w') ∧ count (b_approval_requests (w_db w')) ≤ MaxPendingApprovals ∧
    ∃ k q, b_approval_requests (w_db w') !! k = Some (Json q) ∧
      pa_ExpiresAt q = Minute + PendingApprovalTTL.
Proof.
  destruct (@RecordPendingApproval ascii_tables Background sample_ask Minute "q7" sample_world)
    as [[[]|e] w'] eqn:E; [|vm_compute in E; discriminate].
  exists w'. split; [reflexivity|].
  destruct (@pending_queue_bounded ascii_tables Background sample_ask Minute "q7" sample_world w'
    () E sample_requests_wf) as (Hc & _ & _ & _ & Hin); [discriminate|reflexivity|].
  split; [exact Hc|]. destruct Hin as (k & q & Hq & _ & _ & Hx).
  - intros k q Hk. simpl in Hk. apply lookup_singleton_Some in Hk as [_ Hk]. injection Hk as <-.
    reflexivity.
  - exists k, q. split; [exact Hq|exact Hx].
Defined.
