(* ===== verification/RevisionThms.v ===== *)
(** * Properties of the credential vault and of profile revisions

    First the vault.  What is stored is what is read back, under the same binding; the password book's
    secondary entries leave the runtime login alone when account labels are in step with
    the profile, and two ways in which they do not. *)

From S2P Require Import Prelude.
From S2P Require Import GoStrings.
From S2P Require Import Bolt.
From S2P Require Import NetIP.
From S2P Require Import RemotePolicy.
From S2P Require Import Config.
From S2P Require Import StateTypes.
From S2P Require Import Records.
From S2P Require Import Policy.
From S2P Require Import Repository.
From S2P Require Import Vault.
From S2P Require Import Samples.
From S2P Require Import PolicyThms.
From S2P Require Import RepositoryThms.

(** ** Runs *)

Definition secret_id (existingID : string) (fr : fresh_reads) : string :=
  if bool_decide (existingID = "") then fr_id fr else existingID.

Section runs.
Context `{AEAD}.

Definition sealed_as (record : profileRecord) (secretType plaintext id account : string)
    (fr : fresh_reads) (s : sealedSecret) : Prop :=
  sm_ID (ss_Metadata s) = id ∧ sm_ProfileID (ss_Metadata s) = pr_ID record ∧
  sm_Type (ss_Metadata s) = secretType ∧ sm_Account (ss_Metadata s) = TrimSpace account ∧
  ss_Nonce s = Some (fr_nonce fr) ∧
  ss_Ciphertext s = Some (Seal (fr_nonce fr) plaintext (aad secretType (pr_ID record) id)).

Lemma putSecret_run record secretType plaintext existingID account fr (w : gworld) id w' :
  putSecret record secretType plaintext existingID account fr w = (Ok id, w') →
  id = secret_id existingID fr ∧ ∃ s,
    sealed_as record secretType plaintext id account fr s ∧
    w' = World (set_b_secrets (<[id := Json s]> (b_secrets (w_db w))) (w_db w)) (w_rest w).
Proof.
  unfold putSecret. fold (secret_id existingID fr). intros Hrun.
  apply bind_ok_inv in Hrun as (d & w1 & Hd & Hrun). unfold getDB in Hd.
  injection Hd as <- <-. apply bind_ok_inv in Hrun as (created & w2 & Hc & Hrun).
  assert (w2 = w) as ->.
  { destruct (b_secrets (w_db w) !! secret_id existingID fr) as [[s|]|];
      st_unfold; by simplify_eq. }
  apply bind_ok_inv in Hrun as ([] & w3 & Hp & Hrun).
  unfold put_secret, modifyDB in Hp. injection Hp as <-.
  unfold mret, ST_ret in Hrun. injection Hrun as <- <-.
  split; [done|]. eexists. split; [|reflexivity]. by repeat split.
Qed.

(** A sealed secret opens to its plaintext, for the right type and profile only. *)
Lemma secret_sealed `{!AEADLaws} d record secretType plaintext id account fr s :
  b_secrets d !! id = Some (Json s) →
  sealed_as record secretType plaintext id account fr s →
  String.length (fr_nonce fr) = NonceSize →
  secret d id secretType (pr_ID record) = Ok (plaintext, ss_Metadata s).
Proof.
  intros Hs (Hid & Hp & Ht & _ & Hn & Hc) Hl. unfold secret. rewrite Hs. cbv zeta.
  rewrite Hp, Ht, Hn, Hc, Hid.
  rewrite (bool_decide_true (secretType = secretType)) by done.
  rewrite (bool_decide_true (pr_ID record = pr_ID record)) by done.
  rewrite (bool_decide_true (_ = NonceSize)) by done.
  rewrite !andb_false_r. simpl. by rewrite open_seal.
Qed.

(** What [secret] returns was sealed under the type, profile and id it is asked for. *)
Lemma secret_binding d id ty profile pt m :
  ty ≠ "" → profile ≠ "" → secret d id ty profile = Ok (pt, m) →
  ∃ s, b_secrets d !! id = Some (Json s) ∧ m = ss_Metadata s ∧ sm_Type m = ty ∧
    sm_ProfileID m = profile.
Proof.
  unfold secret. intros Ht Hp Hs.
  destruct (b_secrets d !! id) as [[s|]|]; [|done..].
  rewrite (bool_decide_false (ty = "")), (bool_decide_false (profile = "")) in Hs by done.
  simpl in Hs. case_bool_decide; simpl in Hs; [|done].
  case_bool_decide; simpl in Hs; [|done].
  destruct (ss_Nonce s); [|done]. case_bool_decide; simpl in Hs; [|done].
  destruct (ss_Ciphertext s); [|done]. destruct (Open _ _ _); [|done].
  simplify_eq. eauto.
Qed.
End runs.

(** [commit_profile] draws a revision and stores the record under it. *)
Lemma commit_profile_run record wall (w : gworld) n w' :
  commit_profile record wall w = (Ok n, w') →
  n = u64_wrap (revision_counter (w_db w) + 1) ∧
  w' = World (set_b_profiles
    (<[pr_Name record := Json (set_pr_UpdatedAt wall (set_pr_Revision n record))]>
       (b_profiles (w_db w)))
    (set_b_meta (<[keyRevisionCounter := encodeUint64 n]> (b_meta (w_db w))) (w_db w)))
    (w_rest w).
Proof.
  unfold commit_profile. intros (r & w1 & Hn & Hrun)%bind_ok_inv.
  apply nextProfileRevision_run in Hn as [[= ->] ->].
  apply bind_ok_inv in Hrun as ([] & w2 & Hp & Hrun).
  unfold putProfile, put_profile, modifyDB in Hp. injection Hp as <-.
  unfold mret, ST_ret in Hrun. by injection Hrun as <- <-.
Qed.

Section ops.
Context `{AEAD, Unicode, Codec TrustedDevice, Codec SessionCredential}.

Lemma save_password_run ctx name password fr wall (w : gworld) n w' :
  SavePassword ctx name password fr wall w = (Ok n, w') →
  ∃ record s, readProfile (w_db w) name = Ok record ∧ password ≠ "" ∧
    let id := secret_id (pr_PasswordSecretID record) fr in
    let record' := set_pr_UpdatedAt wall (set_pr_Revision n (set_pr_PasswordSecretID id record)) in
    n = u64_wrap (revision_counter (w_db w) + 1) ∧
    sealed_as record secretPassword password id (pr_Username record) fr s ∧
    b_secrets (w_db w') = <[id := Json s]> (b_secrets (w_db w)) ∧
    b_profiles (w_db w') = <[pr_Name record := Json record']> (b_profiles (w_db w)) ∧
    b_meta (w_db w') = <[keyRevisionCounter := encodeUint64 n]> (b_meta (w_db w)).
Proof.
  unfold SavePassword. intros (u & w0 & [_ ->]%ctx_check_ok & Hrun)%bind_ok_inv.
  apply bind_ok_inv in Hrun as (u1 & w1 & [Hpw ->]%check_ok_inv & Hrun).
  apply Update_ok_inv in Hrun. apply bind_ok_inv in Hrun as (d & w2 & Hd & Hrun).
  unfold getDB in Hd. injection Hd as <- <-.
  apply bind_ok_inv in Hrun as (record & w3 & [Hr ->]%lift_ok_inv & Hrun).
  apply bind_ok_inv in Hrun as (id & w4 & Hput & Hrun).
  apply putSecret_run in Hput as (-> & s & Hs & ->).
  apply commit_profile_run in Hrun as [-> ->]. simpl.
  exists record, s. split_bools. by repeat (split; [done|]).
Qed.
End ops.

Section reads.
Context `{AEAD, !AEADLaws, Unicode}.

(** A stored primary password is what every vault reader returns. *)
Lemma stored_password_reads d name record s password account fr :
  readProfile d name = Ok record → pr_PasswordSecretID record ≠ "" →
  b_secrets d !! pr_PasswordSecretID record = Some (Json s) →
  sealed_as record secretPassword password (pr_PasswordSecretID record) account fr s →
  String.length (fr_nonce fr) = NonceSize →
  primary_password d name = Ok password ∧ password_of_account name "" d = Ok password.
Proof.
  intros Hr Hid Hs Hseal Hl.
  pose proof (secret_sealed d _ _ _ _ _ _ _ Hs Hseal Hl) as Hsec.
  unfold primary_password, password_of_account, passwordSecretByAccount, mbind, result_bind.
  rewrite Hr. simpl. rewrite !(bool_decide_false (pr_PasswordSecretID record = "")) by done.
  simpl. by rewrite Hsec.
Qed.
End reads.

(** * Profile revisions

    A revision names one state of one profile's settings: whatever sequence of profile and
    credential operations runs, the counter only grows, every committed change of settings
    draws a revision above it, and two readings under the same revision show the same
    settings.  This is what plans and approvals that quote a revision rely on. *)

(** ** Specification vocabulary *)

(** What a revision pins down: connection, trust and login of a profile. *)
Record settings := {
  st_ID : string; st_Name : string; st_URL : string; st_Username : string;
  st_TLSMode : string; st_Fingerprint : string; st_Timeout : Z; st_Role : string;
  st_PasswordSecretID : string
}.
Definition settings_of (r : profileRecord) : settings := {|
  st_ID := pr_ID r; st_Name := pr_Name r; st_URL := pr_URL r; st_Username := pr_Username r;
  st_TLSMode := pr_TLSMode r; st_Fingerprint := pr_CertificateFingerprint r;
  st_Timeout := pr_TimeoutSeconds r; st_Role := pr_Role r;
  st_PasswordSecretID := pr_PasswordSecretID r |}.

(** Profiles are stored under their name, their revisions are below the counter, and no
    two share one. *)
Definition revisions_wf (d : DB) : Prop :=
  profiles_keyed d ∧
  (∀ k r, b_profiles d !! k = Some (Json r) → pr_Revision r ≤ revision_counter d) ∧
  (∀ k1 k2 r1 r2, b_profiles d !! k1 = Some (Json r1) → b_profiles d !! k2 = Some (Json r2) →
     pr_Revision r1 = pr_Revision r2 → k1 = k2).

(** [d'] is a later state: each profile is one of [d], with the same revision and settings
    under the same name, or has a revision drawn since. *)
Definition later (d d' : DB) : Prop :=
  revision_counter d ≤ revision_counter d' ∧
  ∀ k r', b_profiles d' !! k = Some (Json r') →
    (∃ r, b_profiles d !! k = Some (Json r) ∧ pr_Revision r = pr_Revision r' ∧
       settings_of r = settings_of r') ∨
    revision_counter d < pr_Revision r'.

(** One operation: it keeps the invariant and leads to a later state.  The counter is a
    64-bit number; it would take more than 10^19 changes to exhaust it. *)
Definition revises : relation gworld := fun w w' =>
  revision_counter (w_db w) < 2 ^ 64 - 1 → revisions_wf (w_db w) →
  revisions_wf (w_db w') ∧ later (w_db w) (w_db w').

(** Steps that draw no revision: profiles are at most removed. *)
Definition shrinks : relation gworld := fun w w' =>
  b_profiles (w_db w') ⊆ b_profiles (w_db w) ∧
  revision_counter (w_db w') = revision_counter (w_db w).
#[global] Instance shrinks_preorder : PreOrder shrinks.
Proof.
  split; unfold shrinks; [done|]. intros w1 w2 w3 [H1 E1] [H2 E2].
  split; [by etrans|congruence].
Qed.
#[global] Instance shrinks_rollback : RollbackOk shrinks.
Proof. done. Qed.

(** Every run of [m] is such a step. *)
Definition revising {A} (m : GW A) : Prop := ∀ w r w', m w = (r, w') → revises w w'.

(** ** Lemmas *)

Lemma later_refl d : later d d.
Proof. split; [lia|]. intros k r Hr. left. eauto. Qed.

Lemma later_trans d1 d2 d3 : later d1 d2 → later d2 d3 → later d1 d3.
Proof.
  intros [Hc1 H1] [Hc2 H2]. split; [lia|]. intros k r Hr.
  destruct (H2 k r Hr) as [(r2 & Hr2 & E2 & S2)|Hnew]; [|right; lia].
  destruct (H1 k r2 Hr2) as [(r1 & Hr1 & E1 & S1)|Hnew]; [|right; congruence].
  left. exists r1. split; [done|]. split; congruence.
Qed.

Lemma shrink_later d d' :
  b_profiles d' ⊆ b_profiles d → revision_counter d' = revision_counter d → later d d'.
Proof.
  intros Hs Hc. split; [lia|]. intros k r Hr. left. exists r.
  split; [by eapply lookup_weaken|done].
Qed.

Lemma shrink_wf d d' :
  b_profiles d' ⊆ b_profiles d → revision_counter d' = revision_counter d →
  revisions_wf d → revisions_wf d'.
Proof.
  intros Hs Hc (Hn & Hb & Hu). split; [|split].
  - intros k r Hr. apply Hn. by eapply lookup_weaken.
  - intros k r Hr. rewrite Hc. eapply Hb. by eapply lookup_weaken.
  - intros k1 k2 r1 r2 H1 H2. by apply Hu; eapply lookup_weaken.
Qed.

Lemma shrinks_same w w' :
  b_profiles (w_db w') = b_profiles (w_db w) → b_meta (w_db w') = b_meta (w_db w) → shrinks w w'.
Proof. intros Hp Hm. unfold shrinks, revision_counter, meta_get. by rewrite Hp, Hm. Qed.

Lemma shrinks_revises w w' : shrinks w w' → revises w w'.
Proof. intros [Hs Hc] _ Hwf. split; [by eapply shrink_wf|by apply shrink_later]. Qed.

Lemma revises_refl w w' : w_db w' = w_db w → revises w w'.
Proof. intros E. apply shrinks_revises. unfold shrinks. by rewrite E. Qed.

Lemma revises_shrink_l w1 w2 w3 : shrinks w1 w2 → revises w2 w3 → revises w1 w3.
Proof.
  intros [Hs Hc] Hr Hb Hwf.
  destruct Hr as [Hwf' Hl]; [by rewrite Hc|by eapply shrink_wf|].
  split; [done|]. eapply later_trans; [by apply shrink_later|done].
Qed.

Lemma revises_shrink_r w1 w2 w3 : revises w1 w2 → shrinks w2 w3 → revises w1 w3.
Proof.
  intros Hr [Hs Hc] Hb Hwf. destruct (Hr Hb Hwf) as [Hwf' Hl].
  split; [by eapply shrink_wf|]. eapply later_trans; [done|by apply shrink_later].
Qed.

(** Storing a record under the next revision. *)
Lemma revises_commit (w w' : gworld) k r :
  b_profiles (w_db w') = <[k := Json r]> (b_profiles (w_db w)) →
  pr_Name r = k → pr_Revision r = u64_wrap (revision_counter (w_db w) + 1) →
  revision_counter (w_db w') = u64_wrap (revision_counter (w_db w) + 1) → revises w w'.
Proof.
  intros Hp Hname Hr Hc Hb (Hn & Hle & Hu).
  pose proof (decodeUint64_bound (meta_get (w_db w) keyRevisionCounter)) as Hd.
  fold (revision_counter (w_db w)) in Hd.
  assert (u64_wrap (revision_counter (w_db w) + 1) = revision_counter (w_db w) + 1) as E
    by (apply Z.mod_small; lia).
  rewrite E in Hr, Hc. split; [split; [|split]|split].
  - intros k' r'. rewrite Hp, lookup_insert_Some. intros [[<- [= <-]]|[_ H]]; [done|by apply Hn].
  - intros k' r'. rewrite Hp, lookup_insert_Some, Hc. intros [[_ [= <-]]|[_ H]]; [lia|].
    specialize (Hle _ _ H). lia.
  - intros k1 k2 r1 r2. rewrite Hp, !lookup_insert_Some.
    intros [[<- [= <-]]|[_ H1]] [[<- [= <-]]|[_ H2]] Heq; [done| | |by eapply Hu].
    + specialize (Hle _ _ H2). lia.
    + specialize (Hle _ _ H1). lia.
  - lia.
  - intros k' r'. rewrite Hp, lookup_insert_Some. intros [[_ [= <-]]|[_ H]]; [right; lia|].
    left. eauto.
Qed.

(** Storing a record whose revision and settings are those already there. *)
Lemma revises_keep (w w' : gworld) k r r' :
  b_profiles (w_db w) !! k = Some (Json r) →
  b_profiles (w_db w') = <[pr_Name r' := Json r']> (b_profiles (w_db w)) →
  pr_Revision r' = pr_Revision r → settings_of r' = settings_of r →
  revision_counter (w_db w') = revision_counter (w_db w) → revises w w'.
Proof.
  intros Hk Hp Hr Hs Hc Hb (Hn & Hle & Hu).
  assert (pr_Name r' = k) as Hname.
  { rewrite <- (Hn _ _ Hk). by injection Hs. }
  rewrite Hname in Hp. clear Hname.
  assert (∀ k' x, b_profiles (w_db w') !! k' = Some (Json x) → ∃ x0,
    b_profiles (w_db w) !! k' = Some (Json x0) ∧ pr_Revision x0 = pr_Revision x ∧
    settings_of x0 = settings_of x) as Hx.
  { intros k' x. rewrite Hp, lookup_insert_Some.
    intros [[<- [= <-]]|[_ H]]; [exists r|exists x]; by repeat split. }
  split; [split; [|split]|split; [lia|]].
  - intros k' x Hx'. destruct (Hx _ _ Hx') as (x0 & H0 & _ & Hset). apply Hn in H0.
    injection Hset as _ Hname. congruence.
  - intros k' x Hx'. destruct (Hx _ _ Hx') as (x0 & H0 & <- & _). rewrite Hc. by eapply Hle.
  - intros k1 k2 r1 r2 H1 H2 Heq. destruct (Hx _ _ H1) as (x1 & H1' & E1 & _).
    destruct (Hx _ _ H2) as (x2 & H2' & E2 & _). apply (Hu k1 k2 x1 x2); congruence.
  - intros k' x Hx'. left. by apply Hx.
Qed.

(** ** Walking through the operations *)

Section rules.
Context {A B : Type}.

Lemma rev_shrink (m : GW A) : Steps shrinks m → revising m.
Proof. intros Hm w r w' Hw. apply shrinks_revises. exact (Hm _ _ _ Hw). Qed.

Lemma rev_bind (m : GW A) (k : A → GW B) :
  Steps shrinks m → (∀ a, revising (k a)) → revising (m ≫= k).
Proof.
  intros Hm Hk w r w'. unfold mbind, ST_bind. destruct (m w) as [[a|e] w1] eqn:Em; intros Hw.
  - eapply revises_shrink_l; [exact (Hm _ _ _ Em)|by eapply Hk].
  - simplify_eq. apply shrinks_revises. exact (Hm _ _ _ Em).
Qed.

Lemma rev_bind_r (m : GW A) (k : A → GW B) :
  revising m → (∀ a, Steps shrinks (k a)) → revising (m ≫= k).
Proof.
  intros Hm Hk w r w'. unfold mbind, ST_bind. destruct (m w) as [[a|e] w1] eqn:Em; intros Hw.
  - eapply revises_shrink_r; [by eapply Hm|exact (Hk a _ _ _ Hw)].
  - simplify_eq. by eapply Hm.
Qed.

Lemma rev_update_ok (m : GW A) :
  (∀ w a w', m w = (Ok a, w') → revises w w') → revising (Update m).
Proof.
  intros Hm w r w' Hw. destruct r as [a|e]; [apply Update_ok_inv in Hw; by eapply Hm|].
  apply revises_refl. by eapply Update_err_db.
Qed.

Lemma rev_update (m : GW A) : revising m → revising (Update m).
Proof. intros Hm. apply rev_update_ok. intros w a w'. apply Hm. Qed.
End rules.

Lemma counter_put n d : 0 ≤ n < 2 ^ 64 →
  revision_counter (set_b_meta (<[keyRevisionCounter := encodeUint64 n]> (b_meta d)) d) = n.
Proof.
  intros Hn. unfold revision_counter, meta_get. simpl. rewrite lookup_insert_eq. simpl.
  by apply uint64_roundtrip.
Qed.

Lemma counter_put_other k v d : k ≠ keyRevisionCounter →
  revision_counter (set_b_meta (<[k := v]> (b_meta d)) d) = revision_counter d.
Proof. intros Hk. unfold revision_counter, meta_get. simpl. by rewrite lookup_insert_ne. Qed.

Lemma counter_delete_other k d : k ≠ keyRevisionCounter →
  revision_counter (set_b_meta (delete k (b_meta d)) d) = revision_counter d.
Proof. intros Hk. unfold revision_counter, meta_get. simpl. by rewrite lookup_delete_ne. Qed.

Lemma u64_wrap_bound n : 0 ≤ u64_wrap n < 2 ^ 64.
Proof. apply Z.mod_pos_bound. lia. Qed.

Lemma rev_commit record wall : revising (commit_profile record wall).
Proof.
  intros w r w' Hw. destruct r as [n|e].
  - apply commit_profile_run in Hw as [-> ->].
    eapply (revises_commit _ _ (pr_Name record)); [reflexivity|done|done|].
    apply counter_put, u64_wrap_bound.
  - exfalso. revert Hw. unfold commit_profile, nextProfileRevision, put_meta, putProfile, put_profile.
    st_unfold. done.
Qed.

Ltac shrink_walk :=
  unfold put_device, put_session_of, ctx_check, putSecret, put_secret, delete_secret, foreach,
    check_revision, delete_meta, put_meta, appendAuditTx in *;
  steps_walk;
  try (split; [first [done | apply delete_subseteq]
              |first [done | by apply counter_put_other | by apply counter_delete_other]]).

Ltac rev_walk :=
  cbv zeta; repeat lazymatch goal with
  | |- revising (Update (create_profile_tx _ _ _)) => apply rev_update_ok
  | |- revising (Update (update_profile_tx _ _ _ _)) => apply rev_update_ok
  | |- revising (Update _) => apply rev_update
  | |- revising (commit_profile _ _) => apply rev_commit
  | |- revising (Update _ ≫= _) => apply rev_bind_r; [|intros ?; solve [shrink_walk]]
  | |- revising (commit_profile _ _ ≫= _) =>
      apply rev_bind_r; [apply rev_commit|intros ?; solve [shrink_walk]]
  | |- revising (_ ≫= _) => apply rev_bind; [solve [shrink_walk]|intros ?]
  | |- revising (match ?x with _ => _ end) => destruct x
  | |- revising _ => apply rev_shrink; solve [shrink_walk]
  end.

Section operations.
Context `{AEAD, Unicode, NetURL, KeyN, Codec TrustedDevice, Codec SessionCredential}.

Lemma rev_SavePassword ctx name password fr wall : revising (SavePassword ctx name password fr wall).
Proof. unfold SavePassword. rev_walk. Qed.

Lemma rev_enrollPassword ctx name expected account password device fr1 fr2 wall :
  revising (enrollPassword ctx name expected account password device fr1 fr2 wall).
Proof. unfold enrollPassword. rev_walk. Qed.

Lemma rev_savePasswordForAccount ctx name expected account password device session fr1 fr2 fr3 wall :
  revising (savePasswordForAccount ctx name expected account password device session fr1 fr2 fr3 wall).
Proof. unfold savePasswordForAccount. rev_walk. Qed.

Lemma rev_DeletePasswordForAccount ctx name account wall :
  revising (DeletePasswordForAccount ctx name account wall).
Proof. unfold DeletePasswordForAccount. rev_walk. Qed.

Lemma rev_deleteProfileSecret f ctx name wall : revising (deleteProfileSecret f ctx name wall).
Proof. unfold deleteProfileSecret. rev_walk. Qed.

Lemma rev_SetDefault ctx name : revising (SetDefault ctx name).
Proof. unfold SetDefault. rev_walk. Qed.

Lemma rev_DeleteProfile ctx name expected retain nows now wall rid :
  revising (DeleteProfile ctx name expected retain nows now wall rid).
Proof. unfold DeleteProfile, delete_profile_tx. rev_walk. Qed.

Lemma rev_CreateProfile ctx input now rid : revising (CreateProfile ctx input now rid).
Proof.
  unfold CreateProfile, GetProfile. rev_walk.
  intros w u w' (Hnew & _ & ->)%create_tx_run.
  eapply (revises_commit _ _ (pi_Name a0)); [reflexivity|done|done|].
  unfold revision_counter at 1, meta_get, created_db. simpl.
  case_bool_decide; rewrite ?lookup_insert_ne by done; rewrite lookup_insert_eq; simpl;
    apply uint64_roundtrip, u64_wrap_bound.
Qed.

Lemma rev_UpdateProfile ctx name expected input now :
  revising (UpdateProfile ctx name expected input now).
Proof.
  unfold UpdateProfile, GetProfile. rev_walk.
  intros w u w' (record & _ & _ & _ & ->)%update_tx_run. unfold update_db.
  destruct (profile_changed record a0); [|by apply revises_refl].
  eapply (revises_commit _ _ (pr_Name record)); [reflexivity|done|done|].
  apply counter_put, u64_wrap_bound.
Qed.

(** The credential writers that keep the revision store the same settings. *)
Lemma revises_put_secret f record ty pt existing acct fr name (w w1 w2 : gworld) id u :
  (∀ r, settings_of (sf_set f id r) = settings_of r ∧
        pr_Revision (sf_set f id r) = pr_Revision r) →
  readProfile (w_db w) name = Ok record →
  putSecret record ty pt existing acct fr w = (Ok id, w1) →
  putProfile (sf_set f id record) w1 = (Ok u, w2) → revises w w2.
Proof.
  intros Hset Hr%readProfile_Ok (_ & s & _ & ->)%putSecret_run Hput.
  unfold putProfile, put_profile, modifyDB in Hput. injection Hput as _ <-.
  destruct (Hset record) as [Hs Hrev].
  by eapply (revises_keep _ _ name record (sf_set f id record)).
Qed.

Lemma rev_saveTrustedDevice ctx name device advance fr wall :
  revising (saveTrustedDevice ctx name device advance fr wall).
Proof.
  unfold saveTrustedDevice. destruct advance; [rev_walk|].
  apply rev_bind; [shrink_walk|intros _]. apply rev_bind; [shrink_walk|intros _].
  apply rev_update_ok. intros w n w' Hrun.
  apply bind_ok_inv in Hrun as (d & w1 & Hd & Hrun). unfold getDB in Hd. injection Hd as <- <-.
  apply bind_ok_inv in Hrun as (r & w2 & [Hr ->]%lift_ok_inv & Hrun).
  apply bind_ok_inv in Hrun as (id & w3 & Hput & Hrun). cbv zeta in Hrun.
  apply bind_ok_inv in Hrun as (u & w4 & Hp & Hrun). unfold mret, ST_ret in Hrun.
  injection Hrun as _ <-. by eapply (revises_put_secret device_field).
Qed.

Lemma rev_saveSession ctx name session advance expected fr wall :
  revising (saveSession ctx name session advance expected fr wall).
Proof.
  unfold saveSession. destruct advance; [rev_walk|].
  apply rev_bind; [shrink_walk|intros _]. apply rev_bind; [shrink_walk|intros _].
  apply rev_update_ok. intros w n w' Hrun.
  apply bind_ok_inv in Hrun as (d & w1 & Hd & Hrun). unfold getDB in Hd. injection Hd as <- <-.
  apply bind_ok_inv in Hrun as (r & w2 & [Hr ->]%lift_ok_inv & Hrun).
  apply bind_ok_inv in Hrun as (u0 & w5 & [_ ->]%check_ok_inv & Hrun).
  apply bind_ok_inv in Hrun as (id & w3 & Hput & Hrun). cbv zeta in Hrun.
  by eapply (revises_put_secret session_field).
Qed.

Lemma rev_EnrollSession ctx name session fr wall : revising (EnrollSession ctx name session fr wall).
Proof.
  unfold EnrollSession, GetProfile. apply rev_bind_r; [apply rev_saveSession|intros _; shrink_walk].
Qed.

Lemma rev_EnrollSessionAtRevision ctx name expected session fr wall :
  revising (EnrollSessionAtRevision ctx name expected session fr wall).
Proof.
  unfold EnrollSessionAtRevision, GetProfile. apply rev_bind; [shrink_walk|intros _].
  apply rev_bind_r; [apply rev_saveSession|intros _; shrink_walk].
Qed.
End operations.

(** ** Histories *)

(** One call, successful or refused, of any operation on profiles and their credentials, or
    of one that touches neither the profiles nor the meta bucket. *)
Inductive profile_step `{AEAD, Unicode, NetURL, KeyN, Codec TrustedDevice,
    Codec SessionCredential} (w w' : gworld) : Prop :=
| pstep_create ctx input now rid r :
    CreateProfile ctx input now rid w = (r, w') → profile_step w w'
| pstep_update ctx name expected input now r :
    UpdateProfile ctx name expected input now w = (r, w') → profile_step w w'
| pstep_delete ctx name expected retain nows now wall rid r :
    DeleteProfile ctx name expected retain nows now wall rid w = (r, w') → profile_step w w'
| pstep_default ctx name r : SetDefault ctx name w = (r, w') → profile_step w w'
| pstep_password ctx name password fr wall r :
    SavePassword ctx name password fr wall w = (r, w') → profile_step w w'
| pstep_enroll ctx name expected account password device fr1 fr2 wall r :
    enrollPassword ctx name expected account password device fr1 fr2 wall w = (r, w') →
    profile_step w w'
| pstep_account ctx name expected account password device session fr1 fr2 fr3 wall r :
    savePasswordForAccount ctx name expected account password device session fr1 fr2 fr3 wall w
      = (r, w') → profile_step w w'
| pstep_delete_account ctx name account wall r :
    DeletePasswordForAccount ctx name account wall w = (r, w') → profile_step w w'
| pstep_delete_secret f ctx name wall r :
    f = password_field ∨ f = device_field ∨ f = session_field →
    deleteProfileSecret f ctx name wall w = (r, w') → profile_step w w'
| pstep_device ctx name device advance fr wall r :
    saveTrustedDevice ctx name device advance fr wall w = (r, w') → profile_step w w'
| pstep_session ctx name session advance expected fr wall r :
    saveSession ctx name session advance expected fr wall w = (r, w') → profile_step w w'
| pstep_other :
    b_profiles (w_db w') = b_profiles (w_db w) → b_meta (w_db w') = b_meta (w_db w) →
    profile_step w w'.

(** Steps while the counter is below its last value. *)
Definition counted_step `{AEAD, Unicode, NetURL, KeyN, Codec TrustedDevice,
    Codec SessionCredential} (w w' : gworld) : Prop :=
  revision_counter (w_db w) < 2 ^ 64 - 1 ∧ profile_step w w'.

Section histories.
Context `{AEAD, Unicode, NetURL, KeyN, Codec TrustedDevice, Codec SessionCredential}.

Lemma profile_step_revises w w' : profile_step w w' → revises w w'.
Proof.
  intros [].
  - by eapply rev_CreateProfile.
  - by eapply rev_UpdateProfile.
  - by eapply rev_DeleteProfile.
  - by eapply rev_SetDefault.
  - by eapply rev_SavePassword.
  - by eapply rev_enrollPassword.
  - by eapply rev_savePasswordForAccount.
  - by eapply rev_DeletePasswordForAccount.
  - by eapply rev_deleteProfileSecret.
  - by eapply rev_saveTrustedDevice.
  - by eapply rev_saveSession.
  - apply shrinks_revises. by apply shrinks_same.
Qed.

Lemma counted_history w w' :
  revisions_wf (w_db w) → rtc counted_step w w' →
  revisions_wf (w_db w') ∧ later (w_db w) (w_db w').
Proof.
  intros Hwf Hh. revert Hwf.
  induction Hh as [w|w w1 w' [Hc Hs] _ IH]; intros Hwf; [split; [done|apply later_refl]|].
  destruct (profile_step_revises _ _ Hs Hc Hwf) as [Hwf1 Hl].
  destruct (IH Hwf1) as [Hwf2 Hl2]. split; [done|]. by eapply later_trans.
Qed.
End histories.

(** ** Property theorems *)

(** C39: A revision identifies the settings.  Along any sequence of profile and credential
    operations, refused ones included, the counter never decreases, and whenever two
    readings at different times show the same revision, of whatever profiles, they show the
    same profile with the same URL, account, trust settings, timeout, role and password
    record: deleting and recreating a profile, or editing it and editing it back, never
    brings an old revision back. *)
Theorem revision_identifies_settings `{AEAD, Unicode, NetURL, KeyN, Codec TrustedDevice,
    Codec SessionCredential} (w w1 w2 : gworld) :
  revisions_wf (w_db w) → rtc counted_step w w1 → rtc counted_step w1 w2 →
  revision_counter (w_db w1) ≤ revision_counter (w_db w2) ∧
  ∀ k1 k2 r1 r2, b_profiles (w_db w1) !! k1 = Some (Json r1) →
    b_profiles (w_db w2) !! k2 = Some (Json r2) → pr_Revision r1 = pr_Revision r2 →
    k1 = k2 ∧ settings_of r1 = settings_of r2.
Proof.
  intros Hwf H01 H12. destruct (counted_history _ _ Hwf H01) as [Hwf1 _].
  destruct (counted_history _ _ Hwf1 H12) as [_ [Hc Hl]]. split; [done|].
  intros k1 k2 r1 r2 Hr1 Hr2 Heq. destruct Hwf1 as (_ & Hb & Hu).
  destruct (Hl _ _ Hr2) as [(r & Hr & Er & Es)|Hnew].
  - assert (k1 = k2) as -> by (apply (Hu _ _ _ _ Hr1 Hr); congruence). split; [done|]. congruence.
  - specialize (Hb _ _ Hr1). lia.
Qed.

Definition second_profile : ProfileInput := {|
  pi_Name := "nas2"; pi_URL := "https://nas1:5001"; pi_Username := "root"; pi_TLSMode := "";
  pi_CertificateFingerprint := ""; pi_TimeoutSeconds := 30; pi_Role := "" |}.
Definition sample_create_run :=
  @CreateProfile ascii_tables sample_net Background second_profile 5 "p2" sample_world.

Lemma sample_revisions_wf : revisions_wf sample_db.
Proof.
  split; [|split].
  - intros k r Hk. simpl in Hk. by apply lookup_singleton_Some in Hk as [<- [= <-]].
  - intros k r Hk. simpl in Hk. apply lookup_singleton_Some in Hk as [_ [= <-]].
    vm_compute. discriminate.
  - intros k1 k2 r1 r2 H1 H2 _. simpl in H1, H2.
    apply lookup_singleton_Some in H1 as [<- _]. by apply lookup_singleton_Some in H2 as [<- _].
Qed.

(** Creating a second profile leaves the settings under revision 3 alone. *)
Lemma revision_identifies_settings_witness :
  is_Ok sample_create_run.1 = true ∧
  ∀ k r, b_profiles (w_db sample_create_run.2) !! k = Some (Json r) → pr_Revision r = 3 →
    "nas1" = k ∧ settings_of sample_profile = settings_of r.
Proof.
  split; [vm_compute; reflexivity|]. intros k r Hr Hrev.
  destruct (@revision_identifies_settings plain_aead ascii_tables sample_net keyN_committed no_device
    no_session sample_world sample_world sample_create_run.2 sample_revisions_wf
    (rtc_refl _ _)) as [_ Hs].
  - apply rtc_once. split; [vm_compute; reflexivity|].
    apply (@pstep_create plain_aead ascii_tables sample_net keyN_committed no_device no_session _ _
      Background second_profile 5 "p2" sample_create_run.1).
    unfold sample_create_run. by destruct (CreateProfile _ _ _ _ _).
  - apply (Hs "nas1" k sample_profile r); [reflexivity|exact Hr|]. symmetry. exact Hrev.
Defined.
