(* ===== verification/OpenThms.v ===== *)
(** * Opening the repository

    What [Open] promises about an existing state file: the wrong master key and a newer
    schema are refused without a write, a state that an old administrator manages is refused
    with nothing but its backup written, a committed opening brings the file to the current
    schema and keeps its data, and opening again changes nothing but the migration stamp. *)

From S2P Require Import Prelude.
From S2P Require Import GoStrings.
From S2P Require Import Bolt.
From S2P Require Import RemotePolicy.
From S2P Require Import StateTypes.
From S2P Require Import Records.
From S2P Require Import Policy.
From S2P Require Import Repository.
From S2P Require Import Samples.
From S2P Require Import TokenThms.

(** ** What an opening writes *)

Section writes.
Context `{AEAD, TimeText}.

Definition opened_meta (version : Z) (nonce : string) (d : DB) : gmap string string :=
  let m1 := if bool_decide (meta_get d keyKeyCheck = "")
            then <[keyKeyCheck := sealPrefixed nonce "key-check" "key-check" "" keyCheckPlaintext]>
                   (b_meta d) else b_meta d in
  let m2 := <[keySchemaVersion := encodeUint64 SchemaVersion]> m1 in
  let m3 := if bool_decide (meta_get d keyRevisionCounter = "")
            then <[keyRevisionCounter := encodeUint64 (highest_revision
                   (default [] (ForEach (b_profiles d))))]> m2 else m2 in
  if version <? SchemaVersion
  then delete keyAdminMode (delete keyAdminDigest (delete keyBootstrapUsed
         (delete keyBootstrapDigest m3))) else m3.

(** The two token migrations, on one record. *)
Definition with_scopes (r : mcpTokenRecord) : mcpTokenRecord :=
  default r (match decodeMCPToken (Json r) with Ok r' => migrate_scopes r' | Err _ => None end).
Definition with_mode (r : mcpTokenRecord) : mcpTokenRecord := default r (migrate_mode r).
Definition migrated_record (version : Z) (r : mcpTokenRecord) : mcpTokenRecord :=
  let r1 := if (0 <? version) && (version <? 5) then with_scopes r else r in
  if (0 <? version) && (version <? 7) then with_mode r1 else r1.

Definition on_record (f : mcpTokenRecord → mcpTokenRecord) (v : stored mcpTokenRecord) :
    stored mcpTokenRecord := match v with Json r => Json (f r) | Garbled => Garbled end.

Definition opened_db (version : Z) (nonce : string) (now : Z) (d : DB) : DB :=
  set_b_migrations (<[encodeUint64 SchemaVersion := FormatTime now]> (b_migrations d))
    (set_b_mcp_tokens (on_record (migrated_record version) <$> b_mcp_tokens d)
      (set_b_meta (opened_meta version nonce d) d)).

Lemma rewrite_tokens_run f (w w' : gworld) u :
  rewrite_tokens f w = (Ok u, w') →
  w' = World (set_b_mcp_tokens (on_record (λ r, default r (f r)) <$> b_mcp_tokens (w_db w))
    (w_db w)) (w_rest w).
Proof.
  unfold rewrite_tokens. intros (d & w1 & Hd & Hrun)%bind_ok_inv.
  unfold getDB in Hd. injection Hd as <- <-.
  apply bind_ok_inv in Hrun as (l & w2 & [_ ->]%foreach_ok & Hrun).
  unfold modifyDB in Hrun. by injection Hrun as _ <-.
Qed.

Lemma on_record_compose f g (b : bucket mcpTokenRecord) :
  on_record g <$> (on_record f <$> b) = on_record (λ r, g (f r)) <$> b.
Proof. rewrite <- map_fmap_compose. apply map_fmap_ext. by intros k [r|] _. Qed.

Lemma on_record_id (b : bucket mcpTokenRecord) : on_record (λ r, r) <$> b = b.
Proof. rewrite <- (map_fmap_id b) at 2. apply map_fmap_ext. by intros k [r|] _. Qed.

Lemma initialize_tx_run version bc nonce now (w w' : gworld) u :
  initialize_tx version bc nonce now w = (Ok u, w') →
  w' = World (opened_db version nonce now (w_db w)) (w_rest w) ∧
  (meta_get (w_db w) keyRevisionCounter = "" → ForEach (b_profiles (w_db w)) ≠ None).
Proof.
  destruct w as [d fl]. unfold initialize_tx, opened_db, opened_meta. cbn [w_db w_rest]. cbv zeta.
  intros (d1 & w1 & Hd & Hrun)%bind_ok_inv. unfold getDB in Hd. cbn in Hd. injection Hd as <- <-.
  apply bind_ok_inv in Hrun as (u1 & w1 & Hk & Hrun).
  set (m1 := if bool_decide (meta_get d keyKeyCheck = "") then _ else b_meta d).
  assert (w1 = World (set_b_meta m1 d) fl) as ->.
  { unfold m1, put_meta, modifyDB in *. destruct (bool_decide _).
    - by injection Hk as _ <-.
    - unfold mret, ST_ret in Hk. injection Hk as _ <-. by destruct d. }
  apply bind_ok_inv in Hrun as (u2 & w2 & Hb & Hrun).
  assert (w2 = World (set_b_meta m1 d) fl) as ->.
  { destruct (version <? SchemaVersion); [destruct bc|]; st_unfold; by simplify_eq. }
  apply bind_ok_inv in Hrun as (u3 & w3 & Hs & Hrun).
  unfold put_meta, modifyDB in Hs. injection Hs as _ <-. cbn [w_db w_rest b_meta set_b_meta] in Hrun.
  apply bind_ok_inv in Hrun as (u4 & w4 & Hc & Hrun).
  set (m2 := <[keySchemaVersion := encodeUint64 SchemaVersion]> m1) in *.
  set (m3 := if bool_decide (meta_get d keyRevisionCounter = "") then _ else m2).
  assert (w4 = World (set_b_meta m3 d) fl ∧
    (meta_get d keyRevisionCounter = "" → ForEach (b_profiles d) ≠ None)) as [-> Hfe].
  { unfold m3. destruct (bool_decide_reflect (meta_get d keyRevisionCounter = "")) as [Hm|Hm].
    - apply bind_ok_inv in Hc as (l & w5 & [Hl ->]%foreach_ok & Hc).
      unfold put_meta, modifyDB in Hc. injection Hc as _ <-. rewrite Hl. by split.
    - unfold mret, ST_ret in Hc. injection Hc as _ <-. by split. }
  apply bind_ok_inv in Hrun as (u5 & w5 & Hl & Hrun).
  set (r1 := λ r, if (0 <? version) && (version <? 5) then with_scopes r else r).
  assert (w5 = World (set_b_mcp_tokens (on_record r1 <$> b_mcp_tokens d) (set_b_meta m3 d)) fl) as ->.
  { unfold r1. destruct ((0 <? version) && (version <? 5)).
    - by apply rewrite_tokens_run in Hl as ->.
    - unfold mret, ST_ret in Hl. injection Hl as _ <-. rewrite on_record_id. by destruct d. }
  apply bind_ok_inv in Hrun as (u6 & w6 & Hl6 & Hrun).
  set (r2 := λ r, if (0 <? version) && (version <? 7) then with_mode r else r).
  assert (w6 = World (set_b_mcp_tokens (on_record (λ r, r2 (r1 r)) <$> b_mcp_tokens d)
    (set_b_meta m3 d)) fl) as ->.
  { rewrite <- on_record_compose. unfold r2. destruct ((0 <? version) && (version <? 7)).
    - by apply rewrite_tokens_run in Hl6 as ->.
    - unfold mret, ST_ret in Hl6. injection Hl6 as _ <-. by rewrite on_record_id. }
  apply bind_ok_inv in Hrun as (u7 & w7 & Hdel & Hrun).
  unfold modifyDB in Hrun. injection Hrun as _ <-. split; [|done].
  change (migrated_record version) with (λ r, r2 (r1 r)).
  destruct (version <? SchemaVersion).
  - unfold delete_meta, modifyDB in Hdel. st_unfold. by injection Hdel as _ <-.
  - unfold mret, ST_ret in Hdel. by injection Hdel as _ <-.
Qed.
End writes.

Section opening.
Context `{AEAD, TimeText}.

(** The stored key check is what the configured master key opens. *)
Definition key_matches (d : DB) : Prop :=
  openEnvelope "key-check" "key-check" "" (meta_get d keyKeyCheck) = Some keyCheckPlaintext.

(** The copy is due, and what is on disk after its attempt. *)
Definition backup_due (existed : bool) (d : DB) : bool :=
  (schema_version d <? SchemaVersion) && existed.
Definition with_backup (path : string) (existed : bool) (nanos : Z)
    (backup : option (error * bool)) (d : DB) (files : gmap string (option DB)) :
    gmap string (option DB) :=
  let file := backup_path path (schema_version d) nanos in
  if backup_due existed d then
    match backup with
    | None => <[file := Some d]> files
    | Some (_, partial) => if partial then <[file := None]> files else files
    end
  else files.

Lemma on_world_ok {A} (m : GW A) (s s' : home) a :
  on_world m s = (Ok a, s') →
  m (h_world s) = (Ok a, h_world s') ∧ h_files s' = h_files s.
Proof. unfold on_world. destruct (m (h_world s)) as [r w]. intros Hr. by simplify_eq. Qed.

(** The step of the backup: it fails, or the copy is there; the database is as it was. *)
Lemma backup_step path existed nanos backup (s : home) :
  let m := (if (schema_version (w_db (h_world s)) <? SchemaVersion) && existed
            then copyFile (backup_path path (schema_version (w_db (h_world s))) nanos) backup
            else mret ()) : ST home error () in
  (m s).2 = {| h_world := h_world s;
    h_files := with_backup path existed nanos backup (w_db (h_world s)) (h_files s) |} ∧
  ∀ u, (m s).1 = Ok u → backup_due existed (w_db (h_world s)) = true → backup = None.
Proof.
  cbv zeta. unfold with_backup, backup_due, copyFile. destruct (_ && existed).
  - destruct backup as [[e []]|]; by destruct s.
  - by destruct s.
Qed.

Lemma initialize_run path existed nanos backup bc chmod nonce now (s s' : home) u :
  initialize path existed nanos backup bc chmod nonce now s = (Ok u, s') →
  let w := h_world s in
  schema_version (w_db w) ≤ SchemaVersion ∧
  (meta_get (w_db w) keyKeyCheck ≠ "" → key_matches (w_db w)) ∧
  h_world s' = World (opened_db (schema_version (w_db w)) nonce now (w_db w)) (w_rest w) ∧
  h_files s' = with_backup path existed nanos backup (w_db w) (h_files s) ∧
  (backup_due existed (w_db w) = true → backup = None) ∧
  (meta_get (w_db w) keyRevisionCounter = "" → ForEach (b_profiles (w_db w)) ≠ None).
Proof.
  cbv zeta. unfold initialize. intros (d1 & s1 & Hd & Hrun)%bind_ok_inv.
  unfold on_world, getDB in Hd. injection Hd as <- <-. cbv zeta in Hrun.
  assert ({| h_world := h_world s; h_files := h_files s |} = s) as Eeta by (by destruct s).
  rewrite ?Eeta in Hrun. set (w := h_world s) in *.
  apply bind_ok_inv in Hrun as (u1 & s1 & [Hv ->]%check_ok_inv & Hrun).
  apply bind_ok_inv in Hrun as (u2 & s2 & Hk & Hrun).
  assert (s2 = s ∧ (meta_get (w_db w) keyKeyCheck ≠ "" → key_matches (w_db w))) as [-> Hkey].
  { destruct (bool_decide_reflect (meta_get (w_db w) keyKeyCheck = "")) as [Hm|Hm]; simpl negb in Hk;
      apply check_ok_inv in Hk as [Hk ->]; split; try done. intros _. by split_bools. }
  apply bind_ok_inv in Hrun as (u3 & s3 & Hb & Hrun).
  destruct (backup_step path existed nanos backup s) as [Hs3 Hdue]. fold w in Hs3, Hdue.
  rewrite Hb in Hs3, Hdue. cbn [fst snd] in Hs3, Hdue. subst s3. specialize (Hdue _ eq_refl).
  apply bind_ok_inv in Hrun as (u4 & s4 & Hl & Hrun).
  match type of Hl with _ ?s = _ => assert (s4 = s) as -> end.
  { destruct (_ && _) in Hl; [|st_unfold; by simplify_eq].
    destruct (legacyAdministrationState (w_db w)). by apply check_ok_inv in Hl as [_ ->]. }
  apply bind_ok_inv in Hrun as (u5 & s5 & [Htx Hf]%on_world_ok & Hrun).
  cbn [h_world h_files] in Htx, Hf.
  apply Update_ok_inv, initialize_tx_run in Htx as [Hw Hfe].
  assert (s' = s5) as -> by (destruct chmod; st_unfold; by simplify_eq).
  split_bools. done.
Qed.

Lemma take_app (s t : string) : string_take (String.length s) (s +:+ t) = s.
Proof.
  unfold string_take. induction s as [|c s IH]; simpl; [by destruct t|]. by rewrite IH.
Qed.

Lemma substring_full (t : string) : String.substring 0 (String.length t) t = t.
Proof. induction t as [|c t IH]; simpl; [done|]. by rewrite IH. Qed.

Lemma string_length_app (s t : string) :
  String.length (s +:+ t) = (String.length s + String.length t)%nat.
Proof. induction s as [|c s IH]; simpl; [done|]. by rewrite IH. Qed.

Lemma drop_app' (s t : string) : string_drop (String.length s) (s +:+ t) = t.
Proof.
  unfold string_drop. rewrite string_length_app, Nat.add_sub_swap, Nat.sub_diag by done.
  simpl. induction s as [|c s IH]; simpl; [apply substring_full|exact IH].
Qed.

(** A prefixed envelope opens to its plaintext. *)
Lemma open_prefixed `{!AEADLaws} nonce id ty profile plaintext :
  String.length nonce = NonceSize →
  openEnvelope id ty profile (sealPrefixed nonce id ty profile plaintext) = Some plaintext.
Proof.
  intros Hl. unfold openEnvelope, sealPrefixed. rewrite string_length_app, <- Hl.
  destruct (Nat.ltb_spec (String.length nonce + String.length (Seal nonce plaintext
    (aad ty profile id))) (String.length nonce)); [lia|].
  by rewrite take_app, drop_app', open_seal.
Qed.

Lemma opened_meta_get version nonce d k :
  k ≠ keyKeyCheck → k ≠ keySchemaVersion → k ≠ keyRevisionCounter →
  (version < SchemaVersion →
     k ≠ keyBootstrapDigest ∧ k ≠ keyBootstrapUsed ∧ k ≠ keyAdminDigest ∧ k ≠ keyAdminMode) →
  opened_meta version nonce d !! k = b_meta d !! k.
Proof.
  intros H1 H2 H3 H4. unfold opened_meta.
  destruct (Z.ltb_spec version SchemaVersion) as [Hv|Hv].
  - destruct (H4 Hv) as (? & ? & ? & ?). rewrite !lookup_delete_ne by done.
    repeat case_bool_decide; by rewrite ?lookup_insert_ne by done.
  - repeat case_bool_decide; by rewrite ?lookup_insert_ne by done.
Qed.

(** The keys an opening writes, looked up through its other writes. *)
Lemma opened_meta_key version nonce d :
  opened_meta version nonce d !! keySchemaVersion = Some (encodeUint64 SchemaVersion) ∧
  opened_meta version nonce d !! keyKeyCheck =
    (if bool_decide (meta_get d keyKeyCheck = "")
     then Some (sealPrefixed nonce "key-check" "key-check" "" keyCheckPlaintext)
     else b_meta d !! keyKeyCheck) ∧
  opened_meta version nonce d !! keyRevisionCounter =
    (if bool_decide (meta_get d keyRevisionCounter = "")
     then Some (encodeUint64 (highest_revision (default [] (ForEach (b_profiles d)))))
     else b_meta d !! keyRevisionCounter).
Proof.
  unfold opened_meta. destruct (version <? SchemaVersion);
    repeat case_bool_decide; split_and!;
    rewrite ?lookup_delete_ne by done; repeat first
      [done | rewrite lookup_insert_eq; done | rewrite lookup_insert_ne by done].
Qed.
End opening.

(** ** What the migrations do to a record *)

Definition effective_mode (r : mcpTokenRecord) : string :=
  if bool_decide (TrimSpace (tk_ApprovalMode (tr_MCPToken r)) = "")
  then ApprovalModeAdministrator else tk_ApprovalMode (tr_MCPToken r).

(** Everything but scopes and approval mode. *)
Definition same_token (r r' : mcpTokenRecord) : Prop :=
  tr_Digest r' = tr_Digest r ∧ tr_ID r' = tr_ID r ∧
  tk_RevokedAt (tr_MCPToken r') = tk_RevokedAt (tr_MCPToken r) ∧
  tk_ExpiresAt (tr_MCPToken r') = tk_ExpiresAt (tr_MCPToken r) ∧
  tk_NASAllowlist (tr_MCPToken r') = tk_NASAllowlist (tr_MCPToken r).

(** Scopes as the repository stores them. *)
Definition scopes_normal (r : mcpTokenRecord) : Prop :=
  ∀ s, s ∈ tk_Scopes (tr_MCPToken r) → s ≠ "" ∧ TrimSpace s = s.

Lemma with_mode_spec r :
  same_token r (with_mode r) ∧ tk_Scopes (tr_MCPToken (with_mode r)) = tk_Scopes (tr_MCPToken r) ∧
  tk_ApprovalMode (tr_MCPToken (with_mode r)) = effective_mode r.
Proof. unfold with_mode, migrate_mode, effective_mode. by case_bool_decide. Qed.

Lemma effective_mode_nonblank r : TrimSpace (effective_mode r) ≠ "".
Proof. unfold effective_mode. case_bool_decide; [vm_compute; discriminate|done]. Qed.

Lemma effective_mode_id r :
  TrimSpace (tk_ApprovalMode (tr_MCPToken r)) ≠ "" →
  effective_mode r = tk_ApprovalMode (tr_MCPToken r).
Proof. intros Hn. unfold effective_mode. by rewrite bool_decide_false. Qed.

Lemma with_scopes_spec r :
  same_token r (with_scopes r) ∧ effective_mode (with_scopes r) = effective_mode r ∧
  (scopes_normal r → ∀ s, s ∈ tk_Scopes (tr_MCPToken (with_scopes r)) ↔
     s ∈ tk_Scopes (tr_MCPToken r) ∧ s ≠ "nas.admin" ∨
     s = ScopeLANDiscover ∧ "nas.admin" ∈ tk_Scopes (tr_MCPToken r)).
Proof.
  unfold with_scopes, decodeMCPToken. cbn [unmarshal].
  set (r0 := if bool_decide (TrimSpace (tk_ApprovalMode (tr_MCPToken r)) = "") then _ else r).
  assert (same_token r r0 ∧ tk_Scopes (tr_MCPToken r0) = tk_Scopes (tr_MCPToken r) ∧
    effective_mode r0 = effective_mode r) as (Hs & Hsc & Hm).
  { unfold r0, effective_mode. case_bool_decide as Hb; [by repeat split|].
    split; [done|]. split; [done|]. by rewrite bool_decide_false. }
  unfold migrate_scopes. rewrite Hsc. set (l := tk_Scopes (tr_MCPToken r)) in *.
  destruct (existsb (λ s, bool_decide (s = "nas.admin")) l) eqn:Ex; simpl default.
  - apply existsb_exists in Ex as (s0 & Hin & Heq). apply bool_decide_eq_true in Heq as ->.
    apply list_elem_of_In in Hin. split; [exact Hs|]. split; [exact Hm|].
    intros Hn s. simpl. rewrite elem_of_uniqueSorted. split.
    + intros (Hne & y & Hy & ->). apply list_elem_of_fmap in Hy as (z & -> & Hz).
      case_bool_decide; [right|left]; [by split|].
      destruct (Hn _ Hz) as [_ ->]. by split.
    + intros [[Hs1 Hs2]|[-> _]].
      * destruct (Hn _ Hs1) as [Hne Ht]. split; [done|]. exists s. split; [|done].
        apply list_elem_of_fmap. exists s. by rewrite bool_decide_false.
      * split; [done|]. exists ScopeLANDiscover. split; [|done].
        apply list_elem_of_fmap. exists "nas.admin". done.
  - split; [by repeat split|]. split; [done|]. intros Hn s.
    assert ("nas.admin" ∉ l) as Hna.
    { intros Hin%list_elem_of_In. assert (existsb (λ s, bool_decide (s = "nas.admin")) l = true)
        as Ht; [|congruence]. apply existsb_exists. by exists "nas.admin". }
    split; [|by intros [[? _]|[_ ?]]]. intros Hin. left. split; [done|]. by intros ->.
Qed.

Lemma migrated_record_spec version r :
  same_token r (migrated_record version r) ∧
  (0 < version < 7 → tk_ApprovalMode (tr_MCPToken (migrated_record version r)) = effective_mode r) ∧
  (0 < version < 5 → scopes_normal r →
   ∀ s, s ∈ tk_Scopes (tr_MCPToken (migrated_record version r)) ↔
     s ∈ tk_Scopes (tr_MCPToken r) ∧ s ≠ "nas.admin" ∨
     s = ScopeLANDiscover ∧ "nas.admin" ∈ tk_Scopes (tr_MCPToken r)) ∧
  (version = 0 ∨ 7 ≤ version → migrated_record version r = r).
Proof.
  unfold migrated_record. cbv zeta.
  set (r1 := if (0 <? version) && (version <? 5) then with_scopes r else r).
  assert (same_token r r1 ∧ effective_mode r1 = effective_mode r) as (Hs & Hm).
  { unfold r1. destruct (_ && _); [|by repeat split].
    destruct (with_scopes_spec r) as (? & ? & _). done. }
  destruct (with_mode_spec r1) as (Hs2 & Hsc2 & Hm2).
  destruct (Z.ltb_spec 0 version) as [H0|H0], (Z.ltb_spec version 7) as [H7|H7];
    cbn [andb]; (split; [|split; [intros ?; try lia|split; [intros ?; try lia|intros ?; try lia]]]).
  - unfold same_token in *. intuition congruence.
  - congruence.
  - rewrite Hsc2. unfold r1. rewrite (proj2 (Z.ltb_lt version 5)) by lia.
    rewrite ?(proj2 (Z.ltb_lt 0 version)) by lia. by apply with_scopes_spec.
  - done.
  - unfold r1. rewrite (proj2 (Z.ltb_ge version 5)) by lia. by rewrite andb_false_r.
  - done.
  - unfold r1. by rewrite ?(proj2 (Z.ltb_ge 0 version)) by lia.
  - done.
Qed.

Lemma highest_revision_spec l : ∀ h0 : Z, 0 ≤ h0 →
  let h := fold_left (fun highest q => if highest <? pr_Revision q.2 then pr_Revision q.2 else highest)
    (l : list (string * profileRecord)) h0 in
  h0 ≤ h ∧ (∀ q, q ∈ l → pr_Revision q.2 ≤ h) ∧
  (h0 < 2 ^ 64 → (∀ q, q ∈ l → pr_Revision q.2 < 2 ^ 64) → h < 2 ^ 64).
Proof.
  induction l as [|q l IH]; intros h0 H0; cbn [fold_left].
  { split; [lia|]. split; [by intros q []%elem_of_nil|done]. }
  assert (0 ≤ if h0 <? pr_Revision q.2 then pr_Revision q.2 else h0) as H1
    by (destruct (Z.ltb_spec h0 (pr_Revision q.2)); lia).
  destruct (IH _ H1) as (Ha & Hb & Hc). cbv zeta in *.
  set (h := fold_left _ l _) in *. setoid_rewrite elem_of_cons.
  destruct (Z.ltb_spec h0 (pr_Revision q.2)) as [Hlt|Hge];
    (split; [lia|]; split; [intros x [->|Hx]; [lia|by apply Hb]|]);
    intros Hb0 Hbl; apply Hc; auto.
Qed.

(** Opening a file of the current schema writes the migration stamp and nothing else. *)
Lemma initialize_current `{AEAD, TimeText} path nanos backup bc nonce now (s : home) :
  let w := h_world s in
  b_meta (w_db w) !! keySchemaVersion = Some (encodeUint64 SchemaVersion) →
  meta_get (w_db w) keyKeyCheck ≠ "" → key_matches (w_db w) →
  meta_get (w_db w) keyRevisionCounter ≠ "" →
  initialize path true nanos backup bc None nonce now s =
    (Ok (), {| h_world := World (set_b_migrations (<[encodeUint64 SchemaVersion :=
        FormatTime now]> (b_migrations (w_db w))) (w_db w)) (w_rest w);
      h_files := h_files s |}).
Proof.
  destruct s as [[d fl] files]. cbn [h_world h_files w_db w_rest]. intros Hs Hne Hk Hc.
  assert (schema_version d = SchemaVersion) as Hv
    by (unfold schema_version, meta_get; rewrite Hs; by apply uint64_roundtrip).
  unfold initialize, initialize_tx, put_meta, on_world. st_unfold. cbv zeta.
  cbn [h_world h_files]. rewrite Hv. simpl.
  unfold Update. rewrite !(bool_decide_false (meta_get d keyKeyCheck = "")) by done. simpl.
  rewrite (bool_decide_true _ Hk). simpl.
  rewrite (bool_decide_false (meta_get d keyRevisionCounter = "")) by done. simpl.
  rewrite ?(bool_decide_false (meta_get d keyKeyCheck = "")) by done. simpl.
  rewrite (insert_id _ _ _ Hs). by destruct d.
Qed.

(** An opened file is of the current schema. *)
Lemma opened_current `{AEAD, !AEADLaws, TimeText} version nonce now d :
  String.length nonce = NonceSize → (0 < NonceSize)%nat →
  (meta_get d keyKeyCheck ≠ "" → key_matches d) →
  let d' := opened_db version nonce now d in
  b_meta d' !! keySchemaVersion = Some (encodeUint64 SchemaVersion) ∧
  meta_get d' keyKeyCheck ≠ "" ∧ key_matches d' ∧ meta_get d' keyRevisionCounter ≠ "".
Proof.
  intros Hn Hpos Hk. destruct (opened_meta_key version nonce d) as (Ms & Mk & Mr).
  unfold key_matches, meta_get. simpl b_meta. rewrite Ms, Mk, Mr. split; [done|].
  destruct (bool_decide_reflect (meta_get d keyKeyCheck = "")) as [Hm|Hm]; simpl default.
  - split; [|split; [by apply open_prefixed|]].
    + intros He%(f_equal String.length). unfold sealPrefixed in He.
      rewrite string_length_app in He. simpl in He. lia.
    + destruct (bool_decide_reflect (meta_get d keyRevisionCounter = "")); [|done].
      simpl. intros He. by apply (f_equal String.length) in He.
  - split; [done|]. split; [by apply Hk|].
    destruct (bool_decide_reflect (meta_get d keyRevisionCounter = "")); [|done].
    simpl. intros He. by apply (f_equal String.length) in He.
Qed.

(** ** Property theorems *)

(** The checks that come before the backup. *)
Definition refused_early `{AEAD} (existed : bool) (d : DB) : Prop :=
  SchemaVersion < schema_version d ∨ (meta_get d keyKeyCheck ≠ "" ∧ ¬ key_matches d)
  ∨ (meta_get d keyKeyCheck = "" ∧ existed = true ∧ 0 < schema_version d).

Lemma initialize_early `{AEAD, TimeText} path existed nanos backup bc chmod nonce now (s : home) :
  refused_early existed (w_db (h_world s)) →
  ∃ e, initialize path existed nanos backup bc chmod nonce now s = (Err e, s).
Proof.
  destruct s as [[d fl] files]. cbn [h_world w_db]. unfold refused_early, initialize. intros Hbad.
  unfold mbind at 1, ST_bind at 1, on_world at 1, getDB. cbn [h_world h_files w_db].
  destruct (Z.leb_spec (schema_version d) SchemaVersion) as [Hv|Hv]; [|by eexists].
  rewrite (bind_ok _ _ _ _ _ (check_true _ _ _ eq_refl)).
  destruct Hbad as [?|[[Hm Hk]|(Hm & -> & Hpos)]]; [lia| |].
  - rewrite (bool_decide_false _ Hm). cbn [negb]. unfold key_matches in Hk.
    rewrite (bool_decide_false _ Hk). by eexists.
  - rewrite (bool_decide_true _ Hm), (proj2 (Z.ltb_lt 0 _) Hpos). by eexists.
Qed.

(** Past them the copy is made, and then the legacy check refuses. *)
Lemma initialize_legacy `{AEAD, TimeText} path existed nanos backup bc chmod nonce now (s : home) :
  let d := w_db (h_world s) in
  ¬ refused_early existed d → 0 < schema_version d < SchemaVersion →
  legacyAdministrationState d = (true, true) →
  ∃ e, initialize path existed nanos backup bc chmod nonce now s =
    (Err e, {| h_world := h_world s;
               h_files := with_backup path existed nanos backup d (h_files s) |}).
Proof.
  cbv zeta. intros Hok [Hpos Hv] Hl. unfold refused_early, key_matches in Hok.
  pose proof (backup_step path existed nanos backup s) as [Hb _]. revert Hok Hpos Hv Hl Hb.
  destruct s as [[d fl] files]. cbn [h_world h_files w_db]. intros Hok Hpos Hv Hl Hb.
  unfold initialize. unfold mbind at 1, ST_bind at 1, on_world at 1, getDB.
  cbn [h_world h_files w_db]. cbv zeta.
  rewrite (bind_ok _ _ _ _ _ (check_true _ _ _ (proj2 (Z.leb_le _ _) (Z.lt_le_incl _ _ Hv)))).
  match goal with |- ∃ e, (mbind ?k ?m) ?s = _ => assert (m s = (Ok (), s)) as Hkey end.
  { destruct (bool_decide_reflect (meta_get d keyKeyCheck = "")) as [Hm|Hm]; cbn [negb].
    - destruct existed; [destruct Hok; tauto|]. by apply check_true.
    - apply check_true, bool_decide_eq_true.
      destruct (decide (openEnvelope "key-check" "key-check" "" (meta_get d keyKeyCheck)
        = Some keyCheckPlaintext)); [done|]. destruct Hok. tauto. }
  rewrite (bind_ok _ _ _ _ _ Hkey). clear Hkey.
  rewrite (proj2 (Z.ltb_lt 0 _) Hpos), (proj2 (Z.ltb_lt _ SchemaVersion) Hv), Hl in *.
  cbn [andb] in *. unfold mbind at 1, ST_bind at 1.
  match goal with |- context [match ?m ?s with _ => _ end] =>
    change (m s).2 with (m s).2 in Hb; destruct (m s) as [[u|e] s1] end;
    cbn [snd] in Hb; subst s1; by eexists.
Qed.

(** C40: Opening refuses what it must not touch.  A state file sealed under another master
    key, one of a newer schema and one without its key check are refused before anything is
    written: the database and the files beside it are as they were.  A legacy file that
    already holds managed data is refused with its database unchanged too; the only file that
    may be written is the backup named after the state file, its schema and the time, and when
    its copy succeeded that file holds the database as it was. *)
Theorem open_refused `{AEAD, TimeText} path existed nanos backup bc chmod nonce now (s : home) :
  let d := w_db (h_world s) in let v := schema_version d in
  let file := backup_path path v nanos in
  (SchemaVersion < v ∨ (meta_get d keyKeyCheck ≠ "" ∧ ¬ key_matches d)
     ∨ (meta_get d keyKeyCheck = "" ∧ existed = true ∧ 0 < v) →
   ∃ e, initialize path existed nanos backup bc chmod nonce now s = (Err e, s)) ∧
  (0 < v < SchemaVersion ∧ legacyAdministrationState d = (true, true) →
   ∃ e s', initialize path existed nanos backup bc chmod nonce now s = (Err e, s') ∧
     h_world s' = h_world s ∧
     (∀ p, p ≠ file → h_files s' !! p = h_files s !! p) ∧
     (existed = true → meta_get d keyKeyCheck ≠ "" → key_matches d → backup = None →
        h_files s' !! file = Some (Some d))).
Proof.
  cbv zeta. split; [apply initialize_early|]. intros [Hv Hl].
  assert (Decision (refused_early existed (w_db (h_world s)))) as Hdec
    by (unfold refused_early, key_matches; apply _).
  destruct (decide (refused_early existed (w_db (h_world s)))) as [He|He].
  - destruct (initialize_early path existed nanos backup bc chmod nonce now s He) as [e Hi].
    exists e, s. do 3 (split; [done|]). intros -> Hm Hk _.
    destruct He as [?|[[_ ?]|(? & _)]]; [lia|done|done].
  - destruct (initialize_legacy path existed nanos backup bc chmod nonce now s He Hv Hl) as [e Hi].
    eexists e, _. split; [exact Hi|]. cbn [h_world h_files]. split; [done|]. unfold with_backup.
    split.
    + intros p Hp. destruct (backup_due _ _); [|done].
      destruct backup as [[? []]|]; by rewrite ?lookup_insert_ne by done.
    + intros -> _ _ ->. unfold backup_due. rewrite (proj2 (Z.ltb_lt _ _)) by lia.
      apply lookup_insert_eq.
Qed.

(** Opening brings the file to the current schema and keeps its data.  After a committed
    opening the schema is the current one, the stored key check opens under the master key,
    the revision counter is above every profile's revision when it had to be rebuilt and
    unchanged otherwise, profiles, secrets, digests, approvals and sessions are as before,
    and every token keeps its secret, owner, expiry, revocation and allowlist while the
    migrations replace the old administration scope and fill in a missing approval mode
    with administrator. *)
Theorem open_upgrades `{AEAD, !AEADLaws, TimeText} path existed nanos backup bc chmod nonce now
    (s s' : home) u :
  initialize path existed nanos backup bc chmod nonce now s = (Ok u, s') →
  String.length nonce = NonceSize →
  let d := w_db (h_world s) in let d' := w_db (h_world s') in let v := schema_version d in
  (existed = true → v < SchemaVersion →
     h_files s' !! backup_path path v nanos = Some (Some d)) ∧
  schema_version d' = SchemaVersion ∧ key_matches d' ∧
  (meta_get d keyRevisionCounter ≠ "" → revision_counter d' = revision_counter d) ∧
  (meta_get d keyRevisionCounter = "" → ∀ k r, b_profiles d !! k = Some (Json r) →
     (∀ k r, b_profiles d !! k = Some (Json r) → pr_Revision r < 2 ^ 64) →
     pr_Revision r ≤ revision_counter d') ∧
  b_profiles d' = b_profiles d ∧ b_secrets d' = b_secrets d ∧
  b_token_digests d' = b_token_digests d ∧ b_approvals d' = b_approvals d ∧
  b_admin_sessions d' = b_admin_sessions d ∧ b_oauth_refresh d' = b_oauth_refresh d ∧
  ∀ k r, b_mcp_tokens d !! k = Some (Json r) → ∃ r', b_mcp_tokens d' !! k = Some (Json r') ∧
    same_token r r' ∧
    (0 < v < 7 → tk_ApprovalMode (tr_MCPToken r') = effective_mode r) ∧
    (0 < v < 5 → scopes_normal r → ∀ s, s ∈ tk_Scopes (tr_MCPToken r') ↔
       s ∈ tk_Scopes (tr_MCPToken r) ∧ s ≠ "nas.admin" ∨
       s = ScopeLANDiscover ∧ "nas.admin" ∈ tk_Scopes (tr_MCPToken r)).
Proof.
  intros (Hv & Hk & Hw & Hfs & Hdue & Hfe)%initialize_run Hn. cbv zeta. rewrite Hw, Hfs.
  clear Hw Hfs. split.
  { intros -> Hlt. unfold with_backup, backup_due in *. rewrite (proj2 (Z.ltb_lt _ _) Hlt) in *.
    rewrite (Hdue eq_refl). apply lookup_insert_eq. }
  clear Hdue. set (w := h_world s) in *.
  destruct (opened_meta_key (schema_version (w_db w)) nonce (w_db w)) as (Ms & Mk & Mr).
  unfold schema_version at 1, key_matches, revision_counter, meta_get. cbn [w_db opened_db].
  simpl b_meta. rewrite Ms, Mk, Mr.
  split; [done|]. split.
  { destruct (bool_decide_reflect (meta_get (w_db w) keyKeyCheck = "")) as [Hm|Hm];
      [by apply open_prefixed|by apply Hk]. }
  split; [intros Hm; rewrite bool_decide_false by done; done|]. split.
  { intros Hm k r Hr Hall. rewrite bool_decide_true by done. simpl default.
    destruct (ForEach (b_profiles (w_db w))) as [l|] eqn:Hl; [|by destruct (Hfe Hm)].
    pose proof (ForEach_Some _ _ Hl) as Hlk. simpl default.
    destruct (highest_revision_spec l 0 ltac:(lia)) as (H0' & Hmax & Hbound).
    fold (highest_revision l) in *. rewrite uint64_roundtrip.
    - by apply (Hmax (k, r)), Hlk.
    - split; [done|]. apply Hbound; [lia|]. intros [k' r'] Hin. by eapply Hall, Hlk. }
  do 6 (split; [done|]). intros k r Hr.
  exists (migrated_record (schema_version (w_db w)) r).
  destruct (migrated_record_spec (schema_version (w_db w)) r) as (? & ? & ? & _).
  split; [|done]. simpl. by rewrite lookup_fmap, Hr.
Qed.

(** Opening is idempotent.  A file that was opened once opens again under the same key,
    whatever the file-system helpers and random bytes do, and only the time stamp of the
    migration record changes. *)
Theorem open_idempotent `{AEAD, !AEADLaws, TimeText} path existed nanos backup bc chmod nonce
    now path' nanos' backup' bc' nonce' now' (s s' : home) u :
  initialize path existed nanos backup bc chmod nonce now s = (Ok u, s') →
  String.length nonce = NonceSize → (0 < NonceSize)%nat →
  let w' := h_world s' in
  initialize path' true nanos' backup' bc' None nonce' now' s' =
    (Ok (), {| h_world := World (set_b_migrations (<[encodeUint64 SchemaVersion :=
        FormatTime now']> (b_migrations (w_db w'))) (w_db w')) (w_rest w');
      h_files := h_files s' |}).
Proof.
  intros (_ & Hk & Hw & _)%initialize_run Hn Hpos.
  destruct (opened_current (schema_version (w_db (h_world s))) nonce now (w_db (h_world s))
    Hn Hpos Hk) as (Hc1 & Hc2 & Hc3 & Hc4).
  apply initialize_current; by rewrite Hw.
Qed.

(** A sealed state file at schema 4: its key check, no counter, one token with the old scope. *)
Definition old_token : mcpTokenRecord := {|
  tr_MCPToken := set_tk_Scopes ["nas.admin"; "nas.read"] (sample_token "t1" "");
  tr_Digest := "d1" |}.
Definition stamp_time : TimeText := {| FormatTime := fun _ => "t"; ParseTime := fun _ => Some 0 |}.
Definition byte_aead : AEAD := {|
  NonceSize := 1; Seal := fun _ p _ => p; Open := fun _ c _ => Some c |}.
#[global] Instance byte_aead_laws : @AEADLaws byte_aead.
Proof. by split. Qed.
Definition old_db : DB :=
  set_b_mcp_tokens {[ "t1" := Json old_token ]}
    (set_b_meta {[ keySchemaVersion := encodeUint64 4; keyKeyCheck := "n" +:+ keyCheckPlaintext ]}
       sample_db).
Definition at_home (d : DB) : home := {| h_world := World d ∅; h_files := ∅ |}.
Definition old_home : home := at_home old_db.
Definition sample_open :=
  @initialize byte_aead stamp_time "/g.db" true 5 None None None "n" 7 old_home.

(** A legacy file: an old administrator digest beside a profile. *)
Definition legacy_home : home := at_home
  (set_b_meta (<[keyAdminDigest := "old"]> (b_meta old_db)) old_db).

(** The master key does not match; and the legacy file is refused with its backup written. *)
Lemma open_refused_witness :
  let other := at_home (set_b_meta {[ keyKeyCheck := "nother" ]} sample_db) in
  (∃ e, @initialize byte_aead stamp_time "/g.db" true 5 None None None "n" 7 other
        = (Err e, other)) ∧
  ∃ e s', @initialize byte_aead stamp_time "/g.db" true 5 None None None "n" 7 legacy_home
          = (Err e, s') ∧ h_world s' = h_world legacy_home ∧
    h_files s' !! "/g.db.pre-v4-5.bak" = Some (Some (w_db (h_world legacy_home))).
Proof.
  cbv zeta. split.
  - apply (@open_refused byte_aead stamp_time "/g.db" true 5 None None None "n" 7).
    right. left. split; vm_compute; discriminate.
  - destruct (proj2 (@open_refused byte_aead stamp_time "/g.db" true 5 None None None "n" 7
      legacy_home)) as (e & s' & Hi & Hw & _ & Hf); [split; [split|]; vm_compute; reflexivity|].
    exists e, s'. split; [exact Hi|]. split; [exact Hw|].
    apply Hf; [reflexivity|vm_compute; discriminate|vm_compute; reflexivity|reflexivity].
Defined.

Lemma open_upgrades_witness :
  is_Ok sample_open.1 = true ∧ schema_version (w_db (h_world sample_open.2)) = SchemaVersion ∧
  revision_counter (w_db (h_world sample_open.2)) = 3.
Proof.
  destruct sample_open as [[u|e] s'] eqn:E; [|vm_compute in E; discriminate].
  destruct (@open_upgrades byte_aead _ stamp_time "/g.db" true 5 None None None "n" 7 old_home
    s' u E eq_refl) as (_ & Hs & _).
  split; [reflexivity|]. split; [exact Hs|].
  vm_compute in E. injection E as _ <-. vm_compute. reflexivity.
Defined.

Lemma open_idempotent_witness :
  is_Ok (@initialize byte_aead stamp_time "/g.db" true 6 None None None "m" 8
    sample_open.2).1 = true.
Proof.
  destruct sample_open as [[u|e] s'] eqn:E; [|vm_compute in E; discriminate].
  simpl snd. rewrite (@open_idempotent byte_aead _ stamp_time "/g.db" true 5 None None None "n" 7
    "/g.db" 6 None None "m" 8 old_home s' u E eq_refl); [reflexivity|]. simpl. lia.
Defined.
