(* ===== verification/TokenHistory.v ===== *)
(** * Token histories

    The life of MCP tokens over any sequence of repository operations: the digest index
    stays exact, rotation and refresh replace the secret, and revocation is permanent. *)

From S2P Require Import Prelude.
From S2P Require Import GoStrings.
From S2P Require Import Bolt.
From S2P Require Import NetIP.
From S2P Require Import RemotePolicy.
From S2P Require Import StateTypes.
From S2P Require Import Records.
From S2P Require Import Policy.
From S2P Require Import OAuth.
From S2P Require Import Repository.
From S2P Require Import Samples.
From S2P Require Import PolicyThms.
From S2P Require Import TokenThms.
From S2P Require Import RepositoryThms.

(** ** The abstract token book

    What the repository keeps about bearer secrets, without the records: the current
    digest of each token and whether it is revoked, the index that authentication reads,
    and the live refresh tokens. *)

Record book := {
  bk_tokens : gmap string (string * bool);
  bk_index : gmap string string;
  bk_refresh : gmap string oauthRefreshRecord
}.

(** Drop the refresh tokens of one token. *)
Definition drop_refresh (id : string) (m : gmap string oauthRefreshRecord) :
    gmap string oauthRefreshRecord := base.filter (fun p => rf_TokenID p.2 ≠ id) m.

Definition replace_secret (id k old : string) (b : book) (m : gmap string oauthRefreshRecord) :
    book := {|
  bk_tokens := <[id := (k, false)]> (bk_tokens b);
  bk_index := <[k := id]> (delete old (bk_index b));
  bk_refresh := m |}.

(** One step of the book; [avoid] are the digests no newly drawn secret has. *)
Inductive book_step (avoid : string → Prop) (b : book) : book → Prop :=
| book_same : book_step avoid b b
| book_create id k : ¬ avoid k → bk_tokens b !! id = None →
    book_step avoid b {| bk_tokens := <[id := (k, false)]> (bk_tokens b);
      bk_index := <[k := id]> (bk_index b); bk_refresh := bk_refresh b |}
| book_issue id k rk r : ¬ avoid k → ¬ avoid rk → bk_tokens b !! id = None →
    rf_TokenID r = id →
    book_step avoid b {| bk_tokens := <[id := (k, false)]> (bk_tokens b);
      bk_index := <[k := id]> (bk_index b); bk_refresh := <[rk := r]> (bk_refresh b) |}
| book_rotate id old k : ¬ avoid k → bk_tokens b !! id = Some (old, false) →
    book_step avoid b (replace_secret id k old b (drop_refresh id (bk_refresh b)))
| book_refresh id old k rk rk' r : ¬ avoid k → ¬ avoid rk' →
    bk_refresh b !! rk = Some r → rf_TokenID r = id → bk_tokens b !! id = Some (old, false) →
    book_step avoid b (replace_secret id k old b (<[rk' := r]> (delete rk (bk_refresh b))))
| book_change id k rev rev' : bk_tokens b !! id = Some (k, rev) → (rev = true → rev' = true) →
    book_step avoid b {| bk_tokens := <[id := (k, rev')]> (bk_tokens b);
      bk_index := bk_index b; bk_refresh := drop_refresh id (bk_refresh b) |}.

(** Every indexed digest is the current digest of its token. *)
Definition index_exact (b : book) : Prop := ∀ k id,
  bk_index b !! k = Some id → ∃ rev, bk_tokens b !! id = Some (k, rev).
Definition is_revoked (id : string) (b : book) : Prop :=
  ∃ k, bk_tokens b !! id = Some (k, true).

(** *** The book of a database *)

Definition token_entry (v : stored mcpTokenRecord) : option (string * bool) :=
  match v with
  | Json r => Some (tr_Digest r, negb (bool_decide (tk_RevokedAt (tr_MCPToken r) = None)))
  | Garbled => None
  end.
Definition book_of (d : DB) : book := {|
  bk_tokens := omap token_entry (b_mcp_tokens d);
  bk_index := b_token_digests d;
  bk_refresh := omap unmarshal (b_oauth_refresh d)
|}.

(** The invariant that makes the book a faithful picture: records are stored under their
    own id, and the index is exact. *)
Definition token_inv (d : DB) : Prop := tokens_keyed d ∧ index_exact (book_of d).
Definition revoked (d : DB) (id : string) : Prop := is_revoked id (book_of d).

Section book.
Context (avoid : string → Prop).

Lemma book_step_exact b b' : index_exact b → book_step avoid b b' → index_exact b'.
Proof.
  intros Hx Hs k' id'. pose proof (Hx k' id') as Hk. destruct Hs; simpl.
  1: done.
  1,2: rewrite lookup_insert_Some, lookup_insert; intros [[-> ->]|[Hne Hi]];
    [rewrite decide_True by done; eauto|];
    destruct (Hk Hi) as [rev ?]; case_decide; [congruence|eauto].
  1,2: rewrite lookup_insert_Some, lookup_delete_Some, lookup_insert;
    intros [[-> ->]|(Hne & Ho & Hi)]; [rewrite decide_True by done; eauto|];
    destruct (Hk Hi) as [rev ?]; case_decide; [congruence|eauto].
  intros Hi. destruct (Hk Hi) as [r0 ?]. rewrite lookup_insert.
  case_decide; [|eauto]. subst. simplify_eq. eauto.
Qed.

Lemma book_step_revoked id b b' : is_revoked id b → book_step avoid b b' → is_revoked id b'.
Proof.
  intros [k' Hk] Hs. unfold is_revoked.
  destruct Hs; simpl; rewrite ?lookup_insert; try case_decide; subst; simplify_eq; eauto.
  match goal with Hr : true = true → _ |- _ => rewrite (Hr eq_refl) end. eauto.
Qed.

(** A digest that left the index, or a refresh token that was used, never comes back. *)
Lemma book_step_dead k b b' :
  avoid k → bk_index b !! k = None → book_step avoid b b' → bk_index b' !! k = None.
Proof.
  intros Ha Hi Hs. destruct Hs; simpl; try done;
    rewrite lookup_insert_ne by congruence; [done|done|..];
    by rewrite lookup_delete_None; right.
Qed.

Lemma drop_refresh_None id m k : m !! k = None → drop_refresh id m !! k = None.
Proof. intros Hm. apply map_lookup_filter_None. by left. Qed.

Lemma book_step_used k b b' :
  avoid k → bk_refresh b !! k = None → book_step avoid b b' → bk_refresh b' !! k = None.
Proof.
  intros Ha Hi Hs. destruct Hs; simpl; try done; try by apply drop_refresh_None.
  - by rewrite lookup_insert_ne by congruence.
  - rewrite lookup_insert_ne by congruence. rewrite lookup_delete_None. by right.
Qed.
End book.

(** ** Runs of the OAuth operations *)

Section oauth_runs.
Context `{Sha256, NetURL, Unicode}.

Lemma issue_run ctx input now rtok1 rid rtok2 (w w' : gworld) s :
  IssueOAuthTokenSet ctx input now rtok1 rid rtok2 w = (Ok s, w') →
  ∃ record, os_Token s = tr_MCPToken record ∧ tr_ID record = rid ∧
    os_AccessToken s = mcpTokenPrefix +:+ rtok1 ∧
    os_RefreshToken s = oauthRefreshPrefix +:+ rtok2 ∧
    tr_Digest record = sha256 (os_AccessToken s) ∧
    tk_RevokedAt (tr_MCPToken record) = None ∧
    tk_ExpiresAt (tr_MCPToken record) = Some (now + OAuthAccessTokenTTL) ∧
    TrimSpace (tk_ApprovalMode (tr_MCPToken record)) ≠ "" ∧
    is_Some (b_oauth_clients (w_db w) !! TrimSpace (ot_ClientID input)) ∧
    b_mcp_tokens (w_db w') = <[rid := Json record]> (b_mcp_tokens (w_db w)) ∧
    b_token_digests (w_db w') =
      <[sha256 (os_AccessToken s) := rid]> (b_token_digests (w_db w)) ∧
    b_oauth_refresh (w_db w') = <[sha256 (os_RefreshToken s) := Json {|
      rf_TokenID := rid; rf_ClientID := TrimSpace (ot_ClientID input);
      rf_Resource := TrimSpace (ot_Resource input); rf_CreatedAt := now;
      rf_ExpiresAt := now + OAuthRefreshTokenTTL |}]> (b_oauth_refresh (w_db w)) ∧
    b_profiles (w_db w') = b_profiles (w_db w).
Proof.
  unfold IssueOAuthTokenSet. intros Hrun. tx_inv.
  match goal with Hc : ctx_check _ _ = _ |- _ => apply ctx_check_ok in Hc as [_ ->] end.
  match goal with Hn : normalizeMCPTokenInput _ _ = Ok ?x |- _ =>
    pose proof (normalized_mode_nonblank _ _ _ Hn) as Hmode;
    assert (ti_ExpiresAt x = Some (now + OAuthAccessTokenTTL)) as Hexp end.
  { match goal with Hn : normalizeMCPTokenInput _ _ = Ok _ |- _ => revert Hn end.
    clear. unfold normalizeMCPTokenInput. simpl. intros Hn.
    repeat case_match; by simplify_eq. }
  unfold newMCPTokenRecord, putMCPTokenRecord, put_token, put_digest, put_refresh in *.
  tx_inv. split_bools.
  match goal with Hn : normalizeMCPTokenInput _ _ = Ok ?x |- _ =>
    exists (upd_tr (fun t => set_tk_OAuthClientID (TrimSpace (ot_ClientID input))
      (set_tk_AuthMode "oauth" t)) (newMCPTokenRecord x now rtok1 rid).2) end.
  by repeat split.
Qed.

Lemma refresh_run ctx raw clientID resource rtok1 rtok2 now (w w' : gworld) s :
  RefreshOAuthTokenSet ctx raw clientID resource rtok1 rtok2 now w = (Ok s, w') →
  ∃ refresh record record',
    b_oauth_refresh (w_db w) !! sha256 raw = Some (Json refresh) ∧
    rf_ClientID refresh = TrimSpace clientID ∧ rf_Resource refresh = TrimSpace resource ∧
    now < rf_ExpiresAt refresh ∧
    readMCPToken (w_db w) (rf_TokenID refresh) = Ok record ∧
    tk_RevokedAt (tr_MCPToken record) = None ∧
    record' = upd_tr (fun t =>
      set_tk_ExpiresAt (Some (now + OAuthAccessTokenTTL)) (set_tk_UpdatedAt now t))
      (set_tr_Digest (sha256 (os_AccessToken s)) record) ∧
    os_AccessToken s = mcpTokenPrefix +:+ rtok1 ∧
    os_RefreshToken s = oauthRefreshPrefix +:+ rtok2 ∧
    os_Token s = tr_MCPToken record' ∧
    b_mcp_tokens (w_db w') = <[tr_ID record := Json record']> (b_mcp_tokens (w_db w)) ∧
    b_token_digests (w_db w') = <[sha256 (os_AccessToken s) := tr_ID record]>
      (delete (tr_Digest record) (b_token_digests (w_db w))) ∧
    b_oauth_refresh (w_db w') = <[sha256 (os_RefreshToken s) := Json refresh]>
      (delete (sha256 raw) (b_oauth_refresh (w_db w))).
Proof.
  unfold RefreshOAuthTokenSet. intros Hrun. tx_inv.
  match goal with Hc : ctx_check _ _ = _ |- _ => apply ctx_check_ok in Hc as [_ ->] end.
  match goal with Hm : match ?o with _ => _ end _ = _ |- _ =>
    destruct o as [[refresh|]|] eqn:Er; [|discriminate Hm..] end.
  tx_inv. split_bools.
  match goal with Hr : readMCPToken _ _ = Ok ?r |- _ =>
    exists refresh, r; eexists end.
  unfold putMCPTokenRecord, put_token, put_digest, delete_digest, put_refresh,
    delete_refresh in *. tx_inv. simpl in *.
  split_and!; try reflexivity; done || lia.
Qed.
End oauth_runs.

(** ** The repository refines the book *)

(** The parts of the database the book reads. *)
Definition tokens_frame : relation gworld := fun w w' =>
  b_mcp_tokens (w_db w') = b_mcp_tokens (w_db w) ∧
  b_token_digests (w_db w') = b_token_digests (w_db w) ∧
  b_oauth_refresh (w_db w') = b_oauth_refresh (w_db w).
#[global] Instance tokens_frame_preorder : PreOrder tokens_frame.
Proof. split; unfold tokens_frame; [done|]. intros ???. intuition congruence. Qed.
#[global] Instance tokens_frame_rollback : RollbackOk tokens_frame.
Proof. done. Qed.

(** One call on the repository, successful or refused.  Token ids are fresh; the secrets
    drawn have no digest in [avoid]. *)
Inductive token_step `{Sha256, NetURL, Unicode, KeyN} (avoid : string → Prop) : relation gworld :=
| step_create ctx input now1 now2 rtok rid w r w' :
    b_mcp_tokens (w_db w) !! rid = None → ¬ avoid (sha256 (mcpTokenPrefix +:+ rtok)) →
    CreateMCPToken ctx input now1 now2 rtok rid w = (r, w') → token_step avoid w w'
| step_rotate ctx id now rtok w r w' :
    ¬ avoid (sha256 (mcpTokenPrefix +:+ rtok)) →
    RotateMCPToken ctx id now rtok w = (r, w') → token_step avoid w w'
| step_revoke ctx id now w r w' :
    RevokeMCPToken ctx id now w = (r, w') → token_step avoid w w'
| step_expire ctx id expires now w r w' :
    ExpireMCPToken ctx id expires now w = (r, w') → token_step avoid w w'
| step_authenticate ctx raw now w r w' :
    AuthenticateMCPToken ctx raw now w = (r, w') → token_step avoid w w'
| step_issue ctx input now rtok1 rid rtok2 w r w' :
    b_mcp_tokens (w_db w) !! rid = None → ¬ avoid (sha256 (mcpTokenPrefix +:+ rtok1)) →
    ¬ avoid (sha256 (oauthRefreshPrefix +:+ rtok2)) →
    IssueOAuthTokenSet ctx input now rtok1 rid rtok2 w = (r, w') → token_step avoid w w'
| step_refresh ctx raw clientID resource rtok1 rtok2 now w r w' :
    ¬ avoid (sha256 (mcpTokenPrefix +:+ rtok1)) →
    ¬ avoid (sha256 (oauthRefreshPrefix +:+ rtok2)) →
    RefreshOAuthTokenSet ctx raw clientID resource rtok1 rtok2 now w = (r, w') →
    token_step avoid w w'
| step_delete_profile ctx name expected retain nows now wall rid w r w' :
    DeleteProfile ctx name expected retain nows now wall rid w = (r, w') →
    token_step avoid w w'
| step_frame w w' : tokens_frame w w' → token_step avoid w w'.

Section errors.
Context `{Sha256, NetURL, Unicode, KeyN}.

Lemma create_token_err ctx input now1 now2 rtok rid :
  err_db (CreateMCPToken ctx input now1 now2 rtok rid).
Proof. unfold CreateMCPToken, ctx_check. err_db_walk. Qed.
Lemma rotate_token_err ctx id now rtok : err_db (RotateMCPToken ctx id now rtok).
Proof. unfold RotateMCPToken, ctx_check. err_db_walk. Qed.
Lemma change_token_err ctx id change now : err_db (changeMCPToken ctx id change now).
Proof. unfold changeMCPToken, ctx_check. err_db_walk. Qed.
Lemma expire_token_err ctx id expires now : err_db (ExpireMCPToken ctx id expires now).
Proof. unfold ExpireMCPToken, changeMCPToken, ctx_check. err_db_walk. Qed.
Lemma authenticate_token_err ctx raw now : err_db (AuthenticateMCPToken ctx raw now).
Proof. unfold AuthenticateMCPToken, ctx_check. err_db_walk. Qed.
Lemma issue_tokens_err ctx input now rtok1 rid rtok2 :
  err_db (IssueOAuthTokenSet ctx input now rtok1 rid rtok2).
Proof. unfold IssueOAuthTokenSet, ctx_check. err_db_walk. Qed.
Lemma refresh_tokens_err ctx raw clientID resource rtok1 rtok2 now :
  err_db (RefreshOAuthTokenSet ctx raw clientID resource rtok1 rtok2 now).
Proof. unfold RefreshOAuthTokenSet, ctx_check. err_db_walk. Qed.
Lemma delete_profile_err ctx name expected retain nows now wall rid :
  err_db (DeleteProfile ctx name expected retain nows now wall rid).
Proof. unfold DeleteProfile, ctx_check. err_db_walk. Qed.
End errors.

Section book_of.
Lemma book_of_eq d ts ix rf :
  omap token_entry (b_mcp_tokens d) = ts → b_token_digests d = ix →
  omap unmarshal (b_oauth_refresh d) = rf → book_of d = Build_book ts ix rf.
Proof. unfold book_of. congruence. Qed.

Lemma book_frame (w w' : gworld) :
  tokens_frame w w' → book_of (w_db w') = book_of (w_db w).
Proof. unfold book_of. by intros (-> & -> & ->). Qed.

Lemma book_token d id r :
  readMCPToken d id = Ok r →
  bk_tokens (book_of d) !! id =
    Some (tr_Digest r, negb (bool_decide (tk_RevokedAt (tr_MCPToken r) = None))).
Proof.
  intros (r0 & Hr & -> & _ & _ & _ & -> & _)%readMCPToken_Ok. simpl.
  by rewrite lookup_omap, Hr.
Qed.

Lemma book_token_unrevoked d id r :
  readMCPToken d id = Ok r → tk_RevokedAt (tr_MCPToken r) = None →
  bk_tokens (book_of d) !! id = Some (tr_Digest r, false).
Proof. intros Hr Hn. rewrite (book_token _ _ _ Hr). by rewrite Hn. Qed.

Lemma book_no_token d id :
  b_mcp_tokens d !! id = None → bk_tokens (book_of d) !! id = None.
Proof. intros Hn. simpl. by rewrite lookup_omap, Hn. Qed.

Lemma token_entry_put (b : bucket mcpTokenRecord) id r :
  omap token_entry (<[id := Json r]> b) =
  <[id := (tr_Digest r, negb (bool_decide (tk_RevokedAt (tr_MCPToken r) = None)))]>
    (omap token_entry b).
Proof. by apply omap_insert_Some. Qed.

Lemma refresh_drop d id :
  omap unmarshal (delete_keys (refresh_keys_of d id) (b_oauth_refresh d)) =
  drop_refresh id (omap unmarshal (b_oauth_refresh d)).
Proof.
  apply map_eq. intros k. unfold drop_refresh.
  rewrite map_lookup_filter, !lookup_omap, lookup_delete_keys.
  destruct (b_oauth_refresh d !! k) as [[r|]|] eqn:Hk; simpl;
    case_decide as Hin; simpl; try done.
  - apply refresh_keys_of_spec in Hin as (r' & Hr' & Hid). simplify_eq.
    by rewrite option_guard_False by auto.
  - rewrite option_guard_True; [done|]. intros Hid. destruct Hin.
    apply refresh_keys_of_spec. eauto.
Qed.

Lemma keyed_read d id r : tokens_keyed d → readMCPToken d id = Ok r → tr_ID r = id.
Proof. intros Hk (r0 & Hr & _ & -> & _)%readMCPToken_Ok. by apply Hk. Qed.

Lemma keyed_put d d' id r :
  tokens_keyed d → b_mcp_tokens d' = <[id := Json r]> (b_mcp_tokens d) → tr_ID r = id →
  tokens_keyed d'.
Proof.
  intros Hk Hd Hid k r'. rewrite Hd, lookup_insert_Some.
  intros [[<- [= <-]]|[_ Hr]]; [done|by apply Hk].
Qed.
End book_of.

Section refine.
Context `{Sha256, NetURL, Unicode, KeyN}.
Variable avoid : string → Prop.

(** What one call owes: the keys stay right and the book makes one step. *)
Definition refines (w w' : gworld) : Prop :=
  tokens_keyed (w_db w) →
  tokens_keyed (w_db w') ∧ book_step avoid (book_of (w_db w)) (book_of (w_db w')).

Lemma refines_same w w' : w_db w' = w_db w → refines w w'.
Proof. unfold refines. intros -> Hk. split; [done|constructor]. Qed.

Lemma refines_err {A} (m : GW A) e w w' : err_db m → m w = (Err e, w') → refines w w'.
Proof. intros Hm Hw. apply refines_same. by eapply Hm. Qed.

Lemma create_refines ctx input now1 now2 rtok rid (w w' : gworld) i :
  b_mcp_tokens (w_db w) !! rid = None → ¬ avoid (sha256 (mcpTokenPrefix +:+ rtok)) →
  CreateMCPToken ctx input now1 now2 rtok rid w = (Ok i, w') → refines w w'.
Proof.
  intros Hn Ha Hrun Hk. pose proof Hrun as Hrf. apply create_run in Hrun as (input' & _ & _ & _ & Ht & Hd & _).
  split; [by eapply keyed_put|].
  assert (b_oauth_refresh (w_db w') = b_oauth_refresh (w_db w)) as Hr.
  { revert Hrf. unfold CreateMCPToken, newMCPTokenRecord, putMCPTokenRecord, put_token,
      put_digest. intros Hrf. tx_inv.
    match goal with Hc : ctx_check _ _ = _ |- _ => apply ctx_check_ok in Hc as [_ ->] end.
    done. }
  erewrite (book_of_eq (w_db w')); [| |exact Hd|by rewrite Hr].
  2:{ rewrite Ht. apply token_entry_put. }
  by apply (book_create avoid (book_of (w_db w)) rid); [|apply book_no_token].
Qed.

Lemma rotate_refines ctx id now rtok (w w' : gworld) i :
  ¬ avoid (sha256 (mcpTokenPrefix +:+ rtok)) →
  RotateMCPToken ctx id now rtok w = (Ok i, w') → refines w w'.
Proof.
  intros Ha (record & Hr & Hrev & _ & Ht & Hd & Hrf & _)%rotate_run Hk.
  pose proof (keyed_read _ _ _ Hk Hr) as Hid.
  split; [by eapply keyed_put|]. rewrite Hid in Hrf.
  erewrite (book_of_eq (w_db w')); [| |exact Hd|by rewrite Hrf, refresh_drop].
  2:{ rewrite Ht, token_entry_put. simpl. by rewrite Hrev. }
  apply (book_rotate avoid (book_of (w_db w)) id (tr_Digest record)); [done|].
  by apply book_token_unrevoked.
Qed.

Lemma change_refines ctx id change now (w w' : gworld) t :
  (∀ t, tk_ID (change t now) = tk_ID t) →
  (∀ t, tk_RevokedAt t ≠ None → tk_RevokedAt (change t now) ≠ None) →
  changeMCPToken ctx id change now w = (Ok t, w') → refines w w'.
Proof.
  intros Hcid Hcr (record & Hr & -> & _ & Ht & Hd & _ & Hrf)%change_run Hk.
  pose proof (keyed_read _ _ _ Hk Hr) as Hid. simpl in *.
  split; [eapply keyed_put; [done..|simpl; by rewrite Hcid]|]. rewrite Hcid, Hid in Hrf.
  erewrite (book_of_eq (w_db w')); [| |exact Hd|by rewrite Hrf, refresh_drop].
  2:{ rewrite Ht. apply token_entry_put. }
  apply (book_change avoid (book_of (w_db w)) id (tr_Digest record)
    (negb (bool_decide (tk_RevokedAt (tr_MCPToken record) = None)))).
  { by apply book_token. }
  simpl. rewrite !negb_true_iff, !bool_decide_eq_false. auto.
Qed.

Lemma issue_refines ctx input now rtok1 rid rtok2 (w w' : gworld) s :
  b_mcp_tokens (w_db w) !! rid = None → ¬ avoid (sha256 (mcpTokenPrefix +:+ rtok1)) →
  ¬ avoid (sha256 (oauthRefreshPrefix +:+ rtok2)) →
  IssueOAuthTokenSet ctx input now rtok1 rid rtok2 w = (Ok s, w') → refines w w'.
Proof.
  intros Hn Ha1 Ha2 (record & _ & Hid & Hs1 & Hs2 & Hdg & Hrev & _ & _ & _ & Ht & Hd & Hrf & _)%issue_run Hk.
  split; [by eapply keyed_put|]. rewrite Hs1 in *. rewrite Hs2 in *.
  erewrite (book_of_eq (w_db w')); [| |exact Hd|rewrite Hrf; by apply omap_insert_Some].
  2:{ rewrite Ht, token_entry_put, Hrev, Hdg. simpl. done. }
  apply (book_issue avoid (book_of (w_db w)) rid); [done..|by apply book_no_token|done].
Qed.

Lemma refresh_refines ctx raw clientID resource rtok1 rtok2 now (w w' : gworld) s :
  ¬ avoid (sha256 (mcpTokenPrefix +:+ rtok1)) →
  ¬ avoid (sha256 (oauthRefreshPrefix +:+ rtok2)) →
  RefreshOAuthTokenSet ctx raw clientID resource rtok1 rtok2 now w = (Ok s, w') →
  refines w w'.
Proof.
  intros Ha1 Ha2 (refresh & record & record' & Hf & _ & _ & _ & Hr & Hrev & -> & Hs1 & Hs2 & _ &
    Ht & Hd & Hrf)%refresh_run Hk.
  pose proof (keyed_read _ _ _ Hk Hr) as Hid. rewrite Hid, Hs1 in *. rewrite Hs2 in *.
  split; [by eapply keyed_put|].
  erewrite (book_of_eq (w_db w')); [| |exact Hd|].
  3:{ rewrite Hrf. erewrite omap_insert_Some by done. by rewrite omap_delete. }
  2:{ rewrite Ht, token_entry_put. simpl. by rewrite Hrev. }
  apply (book_refresh avoid (book_of (w_db w)) (rf_TokenID refresh) (tr_Digest record) _
    (sha256 raw)); [done..| |done|by apply book_token_unrevoked].
  simpl. by rewrite lookup_omap, Hf.
Qed.

Lemma authenticate_refines ctx raw now (w w' : gworld) r :
  AuthenticateMCPToken ctx raw now w = (r, w') → refines w w'.
Proof.
  intros Hrun. destruct (ctx_Err ctx) as [e|] eqn:Hc.
  { apply refines_same. unfold AuthenticateMCPToken, ctx_check in Hrun. rewrite Hc in Hrun.
    st_unfold. by simplify_eq. }
  destruct (authenticate_run ctx raw now w Hc) as [(token & Hcr & Hrun')|[_ Hrun']];
    rewrite Hrun' in Hrun; simplify_eq; [|by apply refines_same].
  destruct Hcr as (_ & _ & id & _ & _ & Hr & _). intros Hk.
  pose proof (keyed_read _ _ _ Hk Hr) as Hid. unfold touch. rewrite Hid.
  split; [by eapply keyed_put|].
  match goal with |- book_step _ _ ?b => assert (b = book_of (w_db w)) as -> end; [|constructor].
  unfold book_of. simpl. f_equal. rewrite token_entry_put.
  apply insert_id. rewrite <- Hid in *. exact (book_token _ _ _ Hr).
Qed.

Lemma delete_profile_refines ctx name expected retain nows now wall rid (w w' : gworld) p :
  DeleteProfile ctx name expected retain nows now wall rid w = (Ok p, w') → refines w w'.
Proof.
  intros (record & _ & _ & _ & _ & (_ & _ & Ht & _ & Hd & Hrf & _) & _)%delete_profile_run Hk.
  split.
  - intros k r. rewrite Ht, lookup_cleaned.
    destruct (b_mcp_tokens (w_db w) !! k) as [[r0|]|] eqn:Hb; simpl; [|done..].
    destruct (cleaned_token_json name nows k r0) as (r1 & -> & _ & _ & _ & Hid & _).
    intros [= <-]. rewrite Hid. by apply Hk.
  - assert (book_of (w_db w') = book_of (w_db w)) as ->; [|constructor].
    apply book_of_eq; [|done|by rewrite Hrf]. simpl. rewrite Ht. apply map_eq. intros k.
    rewrite !lookup_omap, lookup_cleaned.
    destruct (b_mcp_tokens (w_db w) !! k) as [[r0|]|]; simpl; [|done..].
    destruct (cleaned_token_json name nows k r0) as (r1 & -> & _ & _ & Hdg & _ & Hrev & _).
    simpl. by rewrite Hdg, Hrev.
Qed.

Lemma token_step_refines w w' : token_step avoid w w' → refines w w'.
Proof.
  intros Hs. destruct Hs as [ctx input now1 now2 rtok rid w r w' Hn Ha Hrun
    |ctx id now rtok w r w' Ha Hrun|ctx id now w r w' Hrun|ctx id ex now w r w' Hrun
    |ctx raw now w r w' Hrun|ctx input now rtok1 rid rtok2 w r w' Hn Ha1 Ha2 Hrun
    |ctx raw c rs rtok1 rtok2 now w r w' Ha1 Ha2 Hrun
    |ctx name ex rt nows now wall rid w r w' Hrun|w w' Hf].
  - destruct r; [by eapply create_refines|]. eapply refines_err, Hrun. apply create_token_err.
  - destruct r; [by eapply rotate_refines|]. eapply refines_err, Hrun. apply rotate_token_err.
  - destruct r; [|eapply refines_err, Hrun; apply change_token_err].
    eapply change_refines, Hrun; intros t; unfold revoke_change; by destruct (tk_RevokedAt t) eqn:E;
      rewrite ?E.
  - destruct r; [|eapply refines_err, Hrun; apply expire_token_err].
    apply bind_ok_inv in Hrun as (u & w1 & [_ ->]%check_ok_inv & Hrun).
    by eapply change_refines, Hrun.
  - by eapply authenticate_refines.
  - destruct r; [by eapply issue_refines|]. eapply refines_err, Hrun. apply issue_tokens_err.
  - destruct r; [by eapply refresh_refines|]. eapply refines_err, Hrun. apply refresh_tokens_err.
  - destruct r; [by eapply delete_profile_refines|].
    eapply refines_err, Hrun. apply delete_profile_err.
  - intros Hk. rewrite (book_frame _ _ Hf). split; [|constructor].
    unfold tokens_keyed. by destruct Hf as (-> & _).
Qed.
End refine.

(** ** Histories *)

Section history.
Context `{Sha256, NetURL, Unicode, KeyN}.
Variable avoid : string → Prop.
Abbreviation history := (rtc (token_step avoid)).

Lemma step_inv w w' : token_inv (w_db w) → token_step avoid w w' → token_inv (w_db w').
Proof.
  intros [Hk Hx] Hs. destruct (token_step_refines avoid w w' Hs Hk) as [Hk' Hb].
  split; [done|]. by eapply book_step_exact.
Qed.

Lemma history_inv w w' : token_inv (w_db w) → history w w' → token_inv (w_db w').
Proof. intros Hi Hh. revert Hi. by apply (rtc_keeps (token_step avoid) (λ w, token_inv (w_db w)) step_inv). Qed.

Lemma history_book w w' :
  token_inv (w_db w) → history w w' →
  rtc (book_step avoid) (book_of (w_db w)) (book_of (w_db w')).
Proof.
  intros Hi Hh. revert Hi. induction Hh as [w|w w1 w' Hs Hh IH]; intros Hi; [reflexivity|].
  eapply rtc_l; [|apply IH; by eapply step_inv].
  by apply (token_step_refines avoid w w1 Hs), Hi.
Qed.

Lemma history_revoked w w' id :
  token_inv (w_db w) → history w w' → revoked (w_db w) id → revoked (w_db w') id.
Proof.
  intros Hi Hh. apply (rtc_keeps (book_step avoid)); [|by apply history_book].
  intros b b'. apply book_step_revoked.
Qed.

Lemma history_dead w w' k :
  token_inv (w_db w) → history w w' → avoid k →
  b_token_digests (w_db w) !! k = None → b_token_digests (w_db w') !! k = None.
Proof.
  intros Hi Hh Ha.
  apply (rtc_keeps (book_step avoid) (λ b, bk_index b !! k = None)
    (λ b b', book_step_dead avoid k b b' Ha) _ _ (history_book _ _ Hi Hh)).
Qed.

Lemma history_used w w' k :
  token_inv (w_db w) → history w w' → avoid k →
  bk_refresh (book_of (w_db w)) !! k = None → bk_refresh (book_of (w_db w')) !! k = None.
Proof.
  intros Hi Hh Ha.
  apply (rtc_keeps (book_step avoid) (λ b, bk_refresh b !! k = None)
    (λ b b', book_step_used avoid k b b' Ha) _ _ (history_book _ _ Hi Hh)).
Qed.

(** *** What the operations do in a state with a given book *)

Lemma authenticate_err ctx raw now (w : gworld) :
  ¬ (∃ token, credential (w_db w) raw now token) →
  is_Ok (AuthenticateMCPToken ctx raw now w).1 = false.
Proof.
  intros Hn. destruct (ctx_Err ctx) as [e|] eqn:Hc.
  - unfold AuthenticateMCPToken, ctx_check. by rewrite Hc.
  - destruct (authenticate_run ctx raw now w Hc) as [(token & Hcr & _)|[_ ->]]; [|done].
    destruct Hn. eauto.
Qed.

Lemma unindexed_refused ctx raw now (w : gworld) :
  b_token_digests (w_db w) !! sha256 raw = None →
  is_Ok (AuthenticateMCPToken ctx raw now w).1 = false.
Proof.
  intros Hn. apply authenticate_err. intros (token & _ & _ & id & Hd & _). congruence.
Qed.

(** An accepted secret is the current, unrevoked secret of the principal's token. *)
Lemma accepted_in_book ctx raw now (w w' : gworld) p :
  token_inv (w_db w) → AuthenticateMCPToken ctx raw now w = (Ok p, w') →
  bk_tokens (book_of (w_db w)) !! pp_TokenID p = Some (sha256 raw, false).
Proof.
  intros [Hk Hx] Hrun. destruct (ctx_Err ctx) as [e|] eqn:Hc.
  { unfold AuthenticateMCPToken, ctx_check in Hrun. by rewrite Hc in Hrun. }
  destruct (authenticate_run ctx raw now w Hc) as [(token & Hcr & Hrun')|[_ Hrun']];
    rewrite Hrun' in Hrun; simplify_eq.
  destruct Hcr as (_ & _ & id & Hd & _ & Hr & Ha). simpl.
  rewrite (keyed_read _ _ _ Hk Hr). destruct (Hx _ _ Hd) as [rev Hb].
  assert (rev = false) as ->; [|done]. rewrite (book_token _ _ _ Hr) in Hb.
  unfold token_active in Ha. split_bools. by apply negb_false_iff, bool_decide_eq_true.
Qed.

Lemma revoked_read d id r :
  revoked d id → readMCPToken d id = Ok r → tk_RevokedAt (tr_MCPToken r) ≠ None.
Proof.
  intros [k Hb] Hr. rewrite (book_token _ _ _ Hr) in Hb. simplify_eq.
  match goal with Hn : negb _ = true |- _ => by apply negb_true_iff, bool_decide_eq_false in Hn end.
Qed.

Lemma revoked_inactive d id r now :
  revoked d id → readMCPToken d id = Ok r → token_active (tr_MCPToken r) now = false.
Proof.
  intros Hv Hr. unfold token_active.
  rewrite bool_decide_false; [done|]. by eapply revoked_read.
Qed.
End history.

Lemma revoke_change_id t now : tk_ID (revoke_change t now) = tk_ID t.
Proof. unfold revoke_change. by destruct (tk_RevokedAt t). Qed.

Lemma revoke_change_revoked t now : ∃ at_, tk_RevokedAt (revoke_change t now) = Some at_.
Proof. unfold revoke_change. destruct (tk_RevokedAt t) eqn:E; rewrite ?E; eauto. Qed.

(** ** Property theorems *)

Section samples.
Lemma sample_inv : token_inv sample_db.
Proof.
  split.
  - intros k r Hk. cbn in Hk. unfold sample_record, sample_record2 in Hk.
    apply lookup_insert_Some in Hk as [[<- [= <-]]|[_ Hk]]; [done|].
    by apply lookup_singleton_Some in Hk as [<- [= <-]].
  - intros k id Hk. cbn in Hk.
    apply lookup_insert_Some in Hk as [[<- <-]|[_ Hk]]; [by exists false|].
    apply lookup_singleton_Some in Hk as [<- <-]. by exists false.
Qed.
End samples.

(** C17: The repository refines the token book.  Along every history of token operations,
    profile deletions and calls that do not touch tokens, failed calls included, the
    records stay under their own ids, every indexed digest is the current digest of its
    token, each call makes one step of the abstract book, and a bearer secret that
    authenticates is the current secret of an unrevoked token. *)
Theorem repository_refines_book `{Sha256, NetURL, Unicode, KeyN} avoid (w w' : gworld) :
  token_inv (w_db w) → rtc (token_step avoid) w w' →
  token_inv (w_db w') ∧ rtc (book_step avoid) (book_of (w_db w)) (book_of (w_db w')) ∧
  ∀ ctx raw now p w'', AuthenticateMCPToken ctx raw now w' = (Ok p, w'') →
    bk_tokens (book_of (w_db w')) !! pp_TokenID p = Some (sha256 raw, false).
Proof.
  intros Hi Hh. pose proof (history_inv avoid _ _ Hi Hh) as Hi'.
  split; [done|]. split; [by apply history_book|].
  intros ctx raw now p w''. by apply accepted_in_book.
Qed.

Definition sample_revoke := @RevokeMCPToken Background "t1" Minute sample_world.
Definition sample_rotate := @RotateMCPToken id_sha256 Background "t1" Minute sample_rtok sample_world.

Lemma repository_refines_book_witness :
  token_inv (w_db sample_rotate.2).
Proof.
  apply (@repository_refines_book id_sha256 sample_net ascii_tables keyN_committed (λ _, False)
    sample_world).
  - exact sample_inv.
  - apply rtc_once.
    apply (@step_rotate id_sha256 sample_net ascii_tables keyN_committed (λ _, False) Background "t1"
      Minute sample_rtok sample_world sample_rotate.1); [intros []|].
    unfold sample_rotate. by destruct (RotateMCPToken _ _ _ _ _).
Defined.

(** C14: Revocation is permanent and immediate.  Revoking a token removes its pending
    approval requests and refresh tokens; from then on, whatever calls follow, no bearer
    secret authenticates as it, no apply is admitted for it, it cannot be rotated, and no
    refresh yields a token with its id. *)
Theorem revocation_permanent `{Sha256, NetURL, Unicode, KeyN} ctx id now (w w1 w2 : gworld) t :
  token_inv (w_db w) → RevokeMCPToken ctx id now w = (Ok t, w1) →
  rtc (token_step (λ _, False)) w1 w2 →
  (∀ k q, b_approval_requests (w_db w1) !! k = Some (Json q) → pa_RequestingTokenID q ≠ id) ∧
  (∀ k r, b_oauth_refresh (w_db w1) !! k = Some (Json r) → rf_TokenID r ≠ id) ∧
  (∀ ctx' raw now' p, (AuthenticateMCPToken ctx' raw now' w2).1 = Ok p → pp_TokenID p ≠ id) ∧
  (∀ r, ad_tokenID r = id → is_Ok (run_admission r w2).1 = false) ∧
  (∀ ctx' now' rtok, is_Ok (RotateMCPToken ctx' id now' rtok w2).1 = false) ∧
  (∀ ctx' raw client resource rtok1 rtok2 now' s,
     (RefreshOAuthTokenSet ctx' raw client resource rtok1 rtok2 now' w2).1 = Ok s →
     tk_ID (os_Token s) ≠ id).
Proof.
  intros Hi Hrun Hh. pose proof Hi as [Hk _].
  assert (token_step (λ _, False) w w1) as Hs by by eapply step_revoke.
  pose proof (step_inv _ _ _ Hi Hs) as Hi1.
  apply change_run in Hrun as (record & Hr & -> & _ & Ht & _ & Hq & Hf). simpl in *.
  pose proof (keyed_read _ _ _ Hk Hr) as Hid.
  pose proof (revoke_change_id (tr_MCPToken record) now) as Hid'. rewrite Hid in Hid'.
  destruct (revoke_change_revoked (tr_MCPToken record) now) as [t0 Hrev].
  assert (revoked (w_db w2) id) as Hv.
  { eapply history_revoked; [exact Hi1|exact Hh|]. eexists. simpl.
    rewrite lookup_omap, Ht, lookup_insert_eq. simpl. by rewrite Hrev. }
  pose proof (history_inv _ _ _ Hi1 Hh) as Hi2.
  rewrite Hrev in Hq. rewrite Hid' in Hq, Hf. split; [|split; [|split; [|split; [|split]]]].
  - intros k q. rewrite Hq, lookup_delete_keys_Some, elem_of_keys_where. intros [Hkq Hn] Hx.
    apply Hn. exists q. split; [done|]. by apply bool_decide_eq_true.
  - intros k r. rewrite Hf, lookup_delete_keys_Some, refresh_keys_of_spec. intros [Hkr Hn] Hx.
    eauto.
  - intros ctx' raw now' p Hp. destruct (AuthenticateMCPToken ctx' raw now' w2) as [res w3] eqn:Ha.
    simpl in Hp. subst res. intros Hx. apply (accepted_in_book ctx' raw now' w2 w3 p Hi2) in Ha.
    destruct Hv as [k Hv]. rewrite Hx in Ha. congruence.
  - intros r Hx. destruct (run_admission r w2) as [[u|e] w3] eqn:Ha; [|done].
    apply admit_inv in Ha as (_ & _ & token & (Hrt & Hact & _) & _). rewrite Hx in Hrt.
    rewrite (revoked_inactive _ _ _ _ Hv Hrt) in Hact. done.
  - intros ctx' now' rtok. destruct (RotateMCPToken _ _ _ _ w2) as [[i|e] w3] eqn:Ha; [|done].
    apply rotate_run in Ha as (r & Hrt & Hn & _). by destruct (revoked_read _ _ _ Hv Hrt).
  - intros ctx' raw client resource rtok1 rtok2 now' s Ha.
    destruct (RefreshOAuthTokenSet _ _ _ _ _ _ _ w2) as [res w3] eqn:Hrf. simpl in Ha. subst res.
    apply refresh_run in Hrf as (rf & r & r' & _ & _ & _ & _ & Hrt & Hn & -> & _ & _ & -> & _).
    simpl. intros Hx. pose proof (keyed_read _ _ _ (proj1 Hi2) Hrt) as Hy.
    rewrite Hy in Hx. rewrite Hx in Hrt. by destruct (revoked_read _ _ _ Hv Hrt).
Qed.

Lemma revocation_permanent_witness :
  ∃ t w1, sample_revoke = (Ok t, w1) ∧
    is_Ok (@run_admission ascii_tables keyN_committed sample_admission w1).1 = false.
Proof.
  destruct sample_revoke as [[t|e] w1] eqn:E; [|vm_compute in E; discriminate].
  exists t, w1. split; [reflexivity|].
  apply (@revocation_permanent id_sha256 sample_net ascii_tables keyN_committed Background "t1" Minute
    sample_world w1 w1 t sample_inv E (rtc_refl _ w1)). reflexivity.
Defined.

(** Rotation replaces the secret.  The new secret authenticates as the same token, with
    the same scopes and allowlist, and the old one is refused then and ever after, unless a
    later secret happens to have its digest; the token's refresh tokens are gone. *)
Theorem rotation_replaces_secret `{Sha256, NetURL, Unicode, KeyN} ctx id now rtok old
    (w w1 w2 : gworld) i :
  token_inv (w_db w) → RotateMCPToken ctx id now rtok w = (Ok i, w1) →
  bk_tokens (book_of (w_db w)) !! id = Some (sha256 old, false) →
  sha256 (is_BearerToken i) ≠ sha256 old →
  rtc (token_step (λ k, k = sha256 old)) w1 w2 →
  (∀ ctx' now', is_Ok (AuthenticateMCPToken ctx' old now' w2).1 = false) ∧
  (id ≠ "" → 32 ≤ slen rtok → ∀ ctx' now', ctx_Err ctx' = None →
     token_active (is_Token i) now' = true →
     (AuthenticateMCPToken ctx' (is_BearerToken i) now' w1).1 = Ok (principalFor (is_Token i))) ∧
  (∃ record, readMCPToken (w_db w) id = Ok record ∧
     principalFor (is_Token i) = principalFor (tr_MCPToken record)) ∧
  (∀ k r, b_oauth_refresh (w_db w1) !! k = Some (Json r) → rf_TokenID r ≠ id).
Proof.
  intros Hi Hrun Hold Hne Hh. pose proof Hi as [Hk _]. pose proof Hrun as Hrun'.
  apply rotate_run in Hrun as (record & Hr & Hrev & Hb & Ht & Hd & Hrf & Htok).
  rewrite (book_token _ _ _ Hr) in Hold. injection Hold as Hdig _.
  pose proof (keyed_read _ _ _ Hk Hr) as Hid.
  assert (token_inv (w_db w1)) as Hi1.
  { apply (step_inv (λ k, k = sha256 old) w); [done|]. eapply step_rotate; [|exact Hrun'].
    by rewrite <- Hb. }
  split; [|split; [|split]].
  - intros ctx' now'. apply unindexed_refused.
    apply (history_dead (λ k, k = sha256 old) w1); [done..|].
    rewrite Hd, lookup_insert_ne by by rewrite <- Hb. by rewrite Hdig, lookup_delete_eq.
  - intros Hne' Hlen ctx' now' Hctx Hact.
    assert (token_active (tr_MCPToken record) now' = true) as Hact' by by rewrite Htok in Hact.
    pose proof (rotate_credential _ _ _ _ _ _ _ _ _ Hrun' Hr Hne' Hlen Hact') as Hc.
    rewrite (authenticate_credential _ _ _ _ _ Hctx Hc). by rewrite Htok.
  - exists record. split; [done|]. by rewrite Htok.
  - intros k r. rewrite Hrf, lookup_delete_keys_Some, refresh_keys_of_spec, Hid.
    intros [Hkr Hn] Hx. eauto.
Qed.

Lemma rotation_replaces_secret_witness :
  ∃ i w1, sample_rotate = (Ok i, w1) ∧
    is_Ok (@AuthenticateMCPToken id_sha256 Background sample_raw Minute w1).1 = false.
Proof.
  destruct sample_rotate as [[i|e] w1] eqn:E; [|vm_compute in E; discriminate].
  exists i, w1. split; [reflexivity|].
  apply (@rotation_replaces_secret id_sha256 sample_net ascii_tables keyN_committed Background "t1"
    Minute sample_rtok sample_raw sample_world w1 w1 i sample_inv E).
  - reflexivity.
  - vm_compute in E. injection E as <- <-. vm_compute. discriminate.
  - reflexivity.
Defined.

Section refresh.
Context `{Sha256, NetURL, Unicode, KeyN}.

Lemma used_refused ctx raw clientID resource rtok1 rtok2 now (w : gworld) :
  bk_refresh (book_of (w_db w)) !! sha256 raw = None →
  is_Ok (RefreshOAuthTokenSet ctx raw clientID resource rtok1 rtok2 now w).1 = false.
Proof.
  intros Hn. destruct (RefreshOAuthTokenSet _ _ _ _ _ _ _ w) as [[s|e] w'] eqn:Hrun; [|done].
  apply refresh_run in Hrun as (r & _ & _ & Hr & _). simpl in Hn.
  rewrite lookup_omap, Hr in Hn. done.
Qed.
End refresh.

(** C18: Refresh tokens are single-use and keep the grant's end.  A refresh token that was
    exchanged is refused ever after, unless a later one happens to have its digest; the
    exchange keeps the token's id, hands over the same client, resource and absolute expiry
    to the new refresh token, and invalidates the previous access secret. *)
Theorem refresh_single_use `{Sha256, NetURL, Unicode, KeyN} ctx raw clientID resource
    rtok1 rtok2 now (w w1 w2 : gworld) s :
  token_inv (w_db w) →
  RefreshOAuthTokenSet ctx raw clientID resource rtok1 rtok2 now w = (Ok s, w1) →
  sha256 (os_RefreshToken s) ≠ sha256 raw →
  rtc (token_step (λ k, k = sha256 raw)) w1 w2 →
  (∀ ctx' clientID' resource' rtok1' rtok2' now',
     is_Ok (RefreshOAuthTokenSet ctx' raw clientID' resource' rtok1' rtok2' now' w2).1 = false) ∧
  ∃ r record, b_oauth_refresh (w_db w) !! sha256 raw = Some (Json r) ∧ now < rf_ExpiresAt r ∧
    rf_ClientID r = TrimSpace clientID ∧ rf_Resource r = TrimSpace resource ∧
    readMCPToken (w_db w) (rf_TokenID r) = Ok record ∧
    tk_ID (os_Token s) = rf_TokenID r ∧
    b_oauth_refresh (w_db w1) !! sha256 (os_RefreshToken s) = Some (Json r) ∧
    (∀ old ctx' now', sha256 old = tr_Digest record → sha256 old ≠ sha256 (os_AccessToken s) →
       is_Ok (AuthenticateMCPToken ctx' old now' w1).1 = false).
Proof.
  intros Hi Hrun Hne Hh. pose proof Hi as [Hk _].
  assert (∀ avoid, ¬ avoid (sha256 (os_AccessToken s)) → ¬ avoid (sha256 (os_RefreshToken s)) →
    token_inv (w_db w1)) as Hi1.
  { intros avoid Ha1 Ha2. apply (step_inv avoid w); [done|].
    pose proof Hrun as (_ & _ & _ & _ & _ & _ & _ & _ & _ & _ & Hs1 & Hs2 & _)%refresh_run.
    eapply step_refresh; [..|exact Hrun]; congruence. }
  specialize (Hi1 (λ _, False) ltac:(tauto) ltac:(tauto)).
  apply refresh_run in Hrun as (r & record & record' & Hf & Hc & Hres & Hexp & Hr & Hrev & -> &
    Hs1 & Hs2 & Htok & Ht & Hd & Hrf).
  pose proof (keyed_read _ _ _ Hk Hr) as Hid. split.
  - intros. apply used_refused. apply (history_used (λ k, k = sha256 raw) w1); [done..|].
    simpl. rewrite lookup_omap, Hrf, lookup_insert_ne by done. by rewrite lookup_delete_eq.
  - exists r, record. split; [done|]. split; [done|]. split; [done|]. split; [done|].
    split; [done|]. split; [by rewrite Htok|]. split; [by rewrite Hrf, lookup_insert_eq|].
    intros old ctx' now' Ho Hno. apply unindexed_refused.
    rewrite Hd, lookup_insert_ne by done. by rewrite <- Ho, lookup_delete_eq.
Qed.

(** A world with one OAuth client, and the tokens issued to it. *)
Definition sample_client : OAuthClient := {|
  oc_ID := "c1"; oc_Name := "MCP client"; oc_RedirectURIs := []; oc_GrantTypes := [];
  oc_ResponseTypes := []; oc_TokenEndpointAuthMethod := "none"; oc_CreatedAt := 0 |}.
Definition sample_grant : OAuthTokenInput := {|
  ot_ClientID := "c1"; ot_Name := "agent"; ot_Resource := "https://nas1:5001";
  ot_Scopes := ["nas.read"]; ot_NASAllowlist := ["nas1"] |}.
Definition client_world : gworld :=
  World (set_b_oauth_clients {[ "c1" := Json sample_client ]} sample_db) ∅.
Definition sample_issue := @IssueOAuthTokenSet id_sha256 sample_net
  Background sample_grant 0 sample_rtok "t9" "r1" client_world.
Definition sample_refresh := @RefreshOAuthTokenSet id_sha256
  Background "dsmctl_oauth_refresh_r1" "c1" "https://nas1:5001" "a2" "r2" Minute sample_issue.2.

Lemma refresh_single_use_witness :
  ∃ s w1, sample_refresh = (Ok s, w1) ∧
    is_Ok (@RefreshOAuthTokenSet id_sha256 Background "dsmctl_oauth_refresh_r1" "c1"
      "https://nas1:5001" "a3" "r3" Minute w1).1 = false.
Proof.
  destruct sample_refresh as [[s|e] w1] eqn:E; [|vm_compute in E; discriminate].
  exists s, w1. split; [reflexivity|].
  apply (@refresh_single_use id_sha256 sample_net ascii_tables keyN_committed Background
    "dsmctl_oauth_refresh_r1" "c1" "https://nas1:5001" "a2" "r2" Minute sample_issue.2 w1 w1 s).
  - apply (@step_inv id_sha256 sample_net ascii_tables keyN_committed (λ _, False) client_world).
    + exact sample_inv.
    + apply (@step_issue id_sha256 sample_net ascii_tables keyN_committed (λ _, False) Background
        sample_grant 0 sample_rtok "t9" "r1" client_world sample_issue.1);
        [reflexivity|intros []|intros []|].
      unfold sample_issue. by destruct (IssueOAuthTokenSet _ _ _ _ _ _ _).
  - exact E.
  - vm_compute in E. injection E as <- <-. vm_compute. discriminate.
  - reflexivity.
Defined.

Section exchange.
Context `{Sha256, NetURL, Unicode}.

Lemma issue_guards ctx input now rtok1 rid rtok2 (w w' : gworld) s :
  IssueOAuthTokenSet ctx input now rtok1 rid rtok2 w = (Ok s, w') →
  TrimSpace (ot_ClientID input) ≠ "" ∧ TrimSpace (ot_Resource input) ≠ "" ∧
  validateTokenNAS (w_db w) (tk_NASAllowlist (os_Token s)) = Ok ().
Proof.
  unfold IssueOAuthTokenSet, putMCPTokenRecord, newMCPTokenRecord. intros Hrun. tx_inv.
  match goal with Hc : ctx_check _ _ = _ |- _ => apply ctx_check_ok in Hc as [_ ->] end.
  match goal with Hc : negb (_ || _) = true |- _ =>
    apply negb_true_iff in Hc; split_bools end.
  repeat match goal with u : () |- _ => destruct u end. by repeat (split; [done|]).
Qed.

(** The exchange of a good refresh token, forwards. *)
Lemma refresh_eq ctx raw clientID resource rtok1 rtok2 now (w : gworld) r record :
  ctx_Err ctx = None → HasPrefix raw oauthRefreshPrefix = true →
  TrimSpace clientID ≠ "" → TrimSpace resource ≠ "" →
  b_oauth_refresh (w_db w) !! sha256 raw = Some (Json r) →
  rf_ClientID r = TrimSpace clientID → rf_Resource r = TrimSpace resource →
  now < rf_ExpiresAt r → readMCPToken (w_db w) (rf_TokenID r) = Ok record →
  tk_RevokedAt (tr_MCPToken record) = None →
  validateTokenNAS (w_db w) (tk_NASAllowlist (tr_MCPToken record)) = Ok () →
  (RefreshOAuthTokenSet ctx raw clientID resource rtok1 rtok2 now w).1 = Ok {|
    os_AccessToken := mcpTokenPrefix +:+ rtok1;
    os_RefreshToken := oauthRefreshPrefix +:+ rtok2;
    os_Token := set_tk_ExpiresAt (Some (now + OAuthAccessTokenTTL))
      (set_tk_UpdatedAt now (tr_MCPToken record));
    os_ExpiresIn := access_expires_in |}.
Proof.
  intros Hctx Hp Hc Hres Hr Hrc Hrr Hexp Hread Hrev Hnas. destruct w as [d fl]. simpl in *.
  unfold RefreshOAuthTokenSet, ctx_check. rewrite Hctx, Hp.
  rewrite !bool_decide_false by done.
  unfold mask, Update, putMCPTokenRecord, put_token, put_digest, delete_digest, put_refresh,
    delete_refresh. st_unfold. simpl.
  rewrite Hr, Hrc, Hrr. rewrite !bool_decide_true by done.
  rewrite (proj2 (Z.ltb_lt _ _) Hexp), Hread. simpl. rewrite Hrev. simpl.
  assert (validateTokenNAS (set_b_token_digests (delete (tr_Digest record) (b_token_digests d)) d)
    (tk_NASAllowlist (tr_MCPToken record)) = Ok ()) as Hnas' by exact Hnas.
  rewrite Hnas'. reflexivity.
Qed.
End exchange.

(** Issue and refresh round-trip.  The refresh token handed out with an access token is
    accepted for the same client and resource until its absolute end, and yields an access
    token with the same id, scopes and allowlist and a renewed hour of life. *)
Theorem issue_then_refresh `{Sha256, NetURL, Unicode} ctx ctx' input now rtok1 rid rtok2
    rtok1' rtok2' now' (w w' : gworld) s :
  IssueOAuthTokenSet ctx input now rtok1 rid rtok2 w = (Ok s, w') →
  ctx_Err ctx' = None → now' < now + OAuthRefreshTokenTTL →
  ∃ s', (RefreshOAuthTokenSet ctx' (os_RefreshToken s) (ot_ClientID input) (ot_Resource input)
           rtok1' rtok2' now' w').1 = Ok s' ∧
    tk_ID (os_Token s') = tk_ID (os_Token s) ∧ tk_ID (os_Token s) = rid ∧
    tk_Scopes (os_Token s') = tk_Scopes (os_Token s) ∧
    tk_NASAllowlist (os_Token s') = tk_NASAllowlist (os_Token s) ∧
    tk_ExpiresAt (os_Token s) = Some (now + OAuthAccessTokenTTL) ∧
    tk_ExpiresAt (os_Token s') = Some (now' + OAuthAccessTokenTTL).
Proof.
  intros Hrun Hctx Hexp. pose proof Hrun as (Hc & Hres & Hnas)%issue_guards.
  apply issue_run in Hrun as (record & Htok & Hid & _ & Hs2 & _ & Hrev & Hx & Hmode & _ &
    Ht & _ & Hrf & Hp).
  assert (validateTokenNAS (w_db w') (tk_NASAllowlist (tr_MCPToken record)) = Ok ()) as Hnas'.
  { revert Hnas. rewrite Htok. unfold validateTokenNAS, readProfile. by rewrite Hp. }
  eassert (b_oauth_refresh (w_db w') !! sha256 (os_RefreshToken s) = Some (Json _)) as Hr
    by (rewrite Hrf; apply lookup_insert_eq).
  assert (readMCPToken (w_db w') rid = Ok record) as Hread
    by (apply readMCPToken_put; [by rewrite Ht, lookup_insert_eq|done]).
  assert (HasPrefix (os_RefreshToken s) oauthRefreshPrefix = true) as Hpre
    by (rewrite Hs2; apply HasPrefix_app).
  eexists. split; [exact (refresh_eq _ _ _ _ _ _ now' w' _ record Hctx Hpre Hc Hres Hr eq_refl
    eq_refl Hexp Hread Hrev Hnas')|]. by rewrite Htok.
Qed.

Lemma issue_then_refresh_witness :
  ∃ s w', sample_issue = (Ok s, w') ∧
    ∃ s', (@RefreshOAuthTokenSet id_sha256 Background (os_RefreshToken s) "c1"
             "https://nas1:5001" "a2" "r2" Minute w').1 = Ok s'.
Proof.
  destruct sample_issue as [[s|e] w'] eqn:E; [|vm_compute in E; discriminate].
  exists s, w'. split; [reflexivity|].
  destruct (@issue_then_refresh id_sha256 sample_net ascii_tables Background Background
    sample_grant 0 sample_rtok "t9" "r1" "a2" "r2" Minute client_world w' s E eq_refl)
    as (s' & Hs & _); [reflexivity|].
  exists s'. exact Hs.
Defined.
