(* ===== verification/TokenTypes.v ===== *)
(** * What every stored token looks like

    A type for the records of the token bucket, and that every operation that writes tokens
    or removes profiles keeps it: the name, the scopes and the approval mode are from their
    domains, the record is stored under its own id, and every NAS a token is allowed to use
    is a configured profile. *)

From S2P Require Import Prelude.
From S2P Require Import GoStrings.
From S2P Require Import Bolt.
From S2P Require Import NetIP.
From S2P Require Import RemotePolicy.
From S2P Require Import StateTypes.
From S2P Require Import Records.
From S2P Require Import Policy.
From S2P Require Import TlsThms.
From S2P Require Import OAuth.
From S2P Require Import Repository.
From S2P Require Import Samples.
From S2P Require Import PolicyThms.
From S2P Require Import TokenThms.
From S2P Require Import RepositoryThms.
From S2P Require Import TokenHistory.

(** ** The type *)

(** The NAS is a profile of the database. *)
Definition known (d : DB) (nas : string) : Prop := is_Ok (readProfile d nas) = true.

Record token_typed (t : MCPToken) : Prop := {
  tt_name : TrimSpace (tk_Name t) = tk_Name t ∧ tk_Name t ≠ "" ∧
            slen (tk_Name t) ≤ MaxMCPTokenNameBytes ∧ has_control (tk_Name t) = false;
  tt_scopes : Forall (.∈ validScopes) (tk_Scopes t);
  tt_mode : tk_ApprovalMode t = ApprovalModeInteractive ∨
            tk_ApprovalMode t = ApprovalModeAdministrator
}.

Definition tokens_typed (d : DB) : Prop := ∀ k r, b_mcp_tokens d !! k = Some (Json r) →
  tr_ID r = k ∧ token_typed (tr_MCPToken r) ∧ Forall (known d) (tk_NASAllowlist (tr_MCPToken r)).

(** ** The calls that matter *)

Inductive typed_step `{Sha256, NetURL, Unicode, KeyN} : relation gworld :=
| ty_create ctx input now1 now2 rtok rid w r w' :
    CreateMCPToken ctx input now1 now2 rtok rid w = (r, w') → typed_step w w'
| ty_rotate ctx id now rtok w r w' :
    RotateMCPToken ctx id now rtok w = (r, w') → typed_step w w'
| ty_revoke ctx id now w r w' : RevokeMCPToken ctx id now w = (r, w') → typed_step w w'
| ty_expire ctx id expires now w r w' :
    ExpireMCPToken ctx id expires now w = (r, w') → typed_step w w'
| ty_authenticate ctx raw now w r w' :
    AuthenticateMCPToken ctx raw now w = (r, w') → typed_step w w'
| ty_issue ctx input now rtok1 rid rtok2 w r w' :
    IssueOAuthTokenSet ctx input now rtok1 rid rtok2 w = (r, w') → typed_step w w'
| ty_refresh ctx raw clientID resource rtok1 rtok2 now w r w' :
    RefreshOAuthTokenSet ctx raw clientID resource rtok1 rtok2 now w = (r, w') → typed_step w w'
| ty_create_profile ctx input now rid w r w' :
    CreateProfile ctx input now rid w = (r, w') → typed_step w w'
| ty_update_profile ctx name expected input now w r w' :
    UpdateProfile ctx name expected input now w = (r, w') → typed_step w w'
| ty_delete_profile ctx name expected retain nows now wall rid w r w' :
    DeleteProfile ctx name expected retain nows now wall rid w = (r, w') → typed_step w w'
| ty_frame w w' : b_mcp_tokens (w_db w') = b_mcp_tokens (w_db w) →
    (∀ n, known (w_db w) n → known (w_db w') n) → typed_step w w'.

(** ** Frames *)

(** Profiles that can be read stay readable. *)
Definition profiles_kept : relation gworld := fun w w' =>
  ∀ n, known (w_db w) n → known (w_db w') n.
#[global] Instance profiles_kept_preorder : PreOrder profiles_kept.
Proof. split; unfold profiles_kept; auto. Qed.
#[global] Instance profiles_kept_rollback : RollbackOk profiles_kept.
Proof. intros w w1 _ n Hn. exact Hn. Qed.

(** Tokens are unchanged. *)
Definition tokens_kept : relation gworld := fun w w' =>
  b_mcp_tokens (w_db w') = b_mcp_tokens (w_db w).
#[global] Instance tokens_kept_preorder : PreOrder tokens_kept.
Proof. split; unfold tokens_kept; [done|]. intros ???. congruence. Qed.
#[global] Instance tokens_kept_rollback : RollbackOk tokens_kept.
Proof. done. Qed.

Lemma put_profile_keeps name r : Steps profiles_kept (put_profile name r).
Proof.
  intros w u w' Hw n. unfold put_profile, modifyDB in Hw. injection Hw as _ <-.
  unfold known, readProfile. cbn. rewrite lookup_insert. by case_decide.
Qed.

Section kept.
Context `{Sha256, NetURL, Unicode, KeyN}.

Ltac kept_walk := unfold changeMCPToken, nextProfileRevision, ctx_check, newMCPTokenRecord, putMCPTokenRecord,
  put_token, put_digest, delete_digest, put_refresh, delete_refresh, put_meta, delete_meta,
  deleteOAuthRefreshTokensForMCPToken, deletePendingApprovalsForToken, delete_requests,
  foreach, check_revision, putProfile;
  repeat first [done | solve [intros n Hn; exact Hn] | apply put_profile_keeps | steps_step
    | progress (cbv zeta)].

#[global] Instance create_keeps ctx input now1 now2 rtok rid :
  Steps profiles_kept (CreateMCPToken ctx input now1 now2 rtok rid).
Proof. unfold CreateMCPToken. kept_walk. Qed.
#[global] Instance rotate_keeps ctx id now rtok : Steps profiles_kept (RotateMCPToken ctx id now rtok).
Proof. unfold RotateMCPToken. kept_walk. Qed.
#[global] Instance change_keeps ctx id change now :
  Steps profiles_kept (changeMCPToken ctx id change now).
Proof. kept_walk. Qed.
#[global] Instance issue_keeps ctx input now rtok1 rid rtok2 :
  Steps profiles_kept (IssueOAuthTokenSet ctx input now rtok1 rid rtok2).
Proof. unfold IssueOAuthTokenSet. kept_walk. Qed.
#[global] Instance refresh_keeps ctx raw clientID resource rtok1 rtok2 now :
  Steps profiles_kept (RefreshOAuthTokenSet ctx raw clientID resource rtok1 rtok2 now).
Proof. unfold RefreshOAuthTokenSet. kept_walk. Qed.
#[global] Instance create_profile_keeps ctx input now rid :
  Steps profiles_kept (CreateProfile ctx input now rid).
Proof. unfold CreateProfile, create_profile_tx, GetProfile. kept_walk. Qed.
#[global] Instance update_profile_keeps ctx name expected input now :
  Steps profiles_kept (UpdateProfile ctx name expected input now).
Proof. unfold UpdateProfile, update_profile_tx, GetProfile. kept_walk. Qed.

#[global] Instance create_profile_tokens ctx input now rid :
  Steps tokens_kept (CreateProfile ctx input now rid).
Proof. unfold CreateProfile, create_profile_tx, GetProfile, put_profile. kept_walk. Qed.
#[global] Instance update_profile_tokens ctx name expected input now :
  Steps tokens_kept (UpdateProfile ctx name expected input now).
Proof. unfold UpdateProfile, update_profile_tx, GetProfile, putProfile, put_profile. kept_walk. Qed.
End kept.

(** ** Preservation *)

Lemma typed_mode_kept t : token_typed t → TrimSpace (tk_ApprovalMode t) ≠ "".
Proof. intros [_ _ [-> | ->]]; vm_compute; discriminate. Qed.

(** A typed record is read as it is stored. *)
Lemma typed_read d id r : tokens_typed d → readMCPToken d id = Ok r →
  b_mcp_tokens d !! id = Some (Json r) ∧ tr_ID r = id ∧ token_typed (tr_MCPToken r) ∧
  Forall (known d) (tk_NASAllowlist (tr_MCPToken r)).
Proof.
  intros Hd Hr. unfold readMCPToken, decodeMCPToken in Hr.
  destruct (b_mcp_tokens d !! id) as [[r0|]|] eqn:Hk; [|done..]. cbn in Hr.
  destruct (Hd _ _ Hk) as (Hid & Ht & Hn). pose proof (typed_mode_kept _ Ht) as Hm.
  rewrite bool_decide_eq_false_2 in Hr by done. injection Hr as <-. done.
Qed.

(** Putting a typed record keeps the tokens typed. *)
Lemma typed_put (w w' : gworld) id r : tokens_typed (w_db w) → profiles_kept w w' →
  b_mcp_tokens (w_db w') = <[id := Json r]> (b_mcp_tokens (w_db w)) →
  tr_ID r = id → token_typed (tr_MCPToken r) →
  Forall (known (w_db w)) (tk_NASAllowlist (tr_MCPToken r)) → tokens_typed (w_db w').
Proof.
  intros Hd Hp Ht Hid Hr Hn k r'. rewrite Ht, lookup_insert_Some.
  assert (∀ l, Forall (known (w_db w)) l → Forall (known (w_db w')) l) as Hall
    by (intros l Hl; eapply Forall_impl; [exact Hl|exact Hp]).
  intros [[<- [= <-]]|[_ Hk]]; [split_and!; auto|].
  destruct (Hd _ _ Hk) as (? & ? & ?). split_and!; auto.
Qed.

Lemma typed_db_eq (w w' : gworld) : w_db w' = w_db w → tokens_typed (w_db w) → tokens_typed (w_db w').
Proof. by intros ->. Qed.

Lemma typed_frame (w w' : gworld) : tokens_typed (w_db w) → profiles_kept w w' →
  b_mcp_tokens (w_db w') = b_mcp_tokens (w_db w) → tokens_typed (w_db w').
Proof.
  intros Hd Hp Ht k r. rewrite Ht. intros Hk. destruct (Hd _ _ Hk) as (? & ? & Hn).
  split_and!; [done..|]. eapply Forall_impl; [exact Hn|exact Hp].
Qed.

Lemma normalized_typed input now input' : normalizeMCPTokenInput input now = Ok input' →
  TrimSpace (ti_Name input') = ti_Name input' ∧ ti_Name input' ≠ "" ∧
  slen (ti_Name input') ≤ MaxMCPTokenNameBytes ∧ has_control (ti_Name input') = false ∧
  Forall (.∈ validScopes) (ti_Scopes input').
Proof.
  unfold normalizeMCPTokenInput. cbv zeta.
  destruct (_ || _) eqn:E1; [done|]. destruct (has_control _) eqn:E2; [done|].
  destruct (negb (_ || _)); [done|]. destruct (negb (forallb _ _)) eqn:E3; [done|].
  apply orb_false_elim in E1 as [Hne Hlen]. apply bool_decide_eq_false in Hne.
  apply Z.ltb_ge in Hlen. apply negb_false_iff in E3.
  match type of E3 with forallb _ ?l = _ => assert (Forall (.∈ validScopes) l) as Hs end.
  { apply Forall_forall. intros x Hx. rewrite forallb_forall in E3.
    apply (bool_decide_eq_true _), E3. by apply list_elem_of_In. }
  destruct (ti_ExpiresAt input); [destruct (negb _); [done|]|]; intros [= <-]; cbn;
    (split_and!; [apply TrimSpace_idem|done..]).
Qed.

Lemma new_record_typed input now input' now2 rtok rid (r : mcpTokenRecord) `{Sha256} :
  normalizeMCPTokenInput input now = Ok input' →
  r = (newMCPTokenRecord input' now2 rtok rid).2 → tr_ID r = rid ∧ token_typed (tr_MCPToken r).
Proof.
  intros Hn ->. split; [done|]. pose proof (normalize_mode _ _ _ Hn).
  apply normalized_typed in Hn as (? & ? & ? & ? & ?). by split.
Qed.

Section preservation.
Context `{Sha256, NetURL, Unicode, KeyN}.

Lemma change_typed ctx id change now (w w' : gworld) r :
  (∀ t, tk_ID (change t now) = tk_ID t) → (∀ t, token_typed t → token_typed (change t now)) →
  (∀ t, tk_NASAllowlist (change t now) = tk_NASAllowlist t) →
  changeMCPToken ctx id change now w = (r, w') → tokens_typed (w_db w) → tokens_typed (w_db w').
Proof.
  intros Hid Hty Hnas Hrun Hd. destruct r as [t|e];
    [|eapply typed_db_eq, Hd; by eapply change_token_err].
  pose proof (change_keeps _ _ _ _ _ _ _ Hrun) as Hp.
  apply change_run in Hrun as (record & Hr & _ & _ & Ht & _).
  destruct (typed_read _ _ _ Hd Hr) as (_ & Hrid & Hrt & Hn).
  eapply (typed_put w w' id); [done|done|exact Ht|cbn; by rewrite Hid| |cbn; by rewrite Hnas].
  cbn. destruct (Hty _ Hrt) as [? ? ?]. by split.
Qed.

Lemma create_typed ctx input now1 now2 rtok rid (w w' : gworld) r :
  CreateMCPToken ctx input now1 now2 rtok rid w = (r, w') →
  tokens_typed (w_db w) → tokens_typed (w_db w').
Proof.
  intros Hrun Hd. destruct r; [|eapply typed_db_eq, Hd; by eapply create_token_err].
  pose proof (create_keeps _ _ _ _ _ _ _ _ _ Hrun) as Hp.
  apply create_run in Hrun as (input' & Hn & _ & _ & Ht & _ & Hnas).
  destruct (new_record_typed input now1 input' now2 rtok rid _ Hn eq_refl) as [Hid Hty].
  eapply (typed_put w w' rid); [done|done|exact Ht|done|done|].
  apply Forall_forall. intros n Hin. by apply Hnas.
Qed.

Lemma rotate_typed ctx id now rtok (w w' : gworld) r :
  RotateMCPToken ctx id now rtok w = (r, w') → tokens_typed (w_db w) → tokens_typed (w_db w').
Proof.
  intros Hrun Hd. destruct r; [|eapply typed_db_eq, Hd; by eapply rotate_token_err].
  pose proof (rotate_keeps _ _ _ _ _ _ _ Hrun) as Hp.
  apply rotate_run in Hrun as (record & Hr & _ & _ & Ht & _).
  destruct (typed_read _ _ _ Hd Hr) as (_ & Hrid & [? ? ?] & Hn).
  eapply (typed_put w w' id); [done|done|exact Ht|done|by split|done].
Qed.

Lemma authenticate_typed ctx raw now (w w' : gworld) r :
  AuthenticateMCPToken ctx raw now w = (r, w') → tokens_typed (w_db w) → tokens_typed (w_db w').
Proof.
  intros Hrun Hd. destruct r as [p|e]; [|eapply typed_db_eq, Hd; by eapply authenticate_token_err].
  destruct (ctx_Err ctx) as [e|] eqn:Hc.
  { unfold AuthenticateMCPToken, ctx_check in Hrun. rewrite Hc in Hrun. st_unfold. done. }
  destruct (authenticate_run ctx raw now w Hc) as [(token & Hcr & Hrun')|[_ Hrun']];
    rewrite Hrun' in Hrun; [|done]. injection Hrun as _ <-.
  destruct Hcr as (_ & _ & id & _ & _ & Hr & _).
  destruct (typed_read _ _ _ Hd Hr) as (_ & Hrid & [? ? ?] & Hn).
  eapply (typed_put w _ id); [done|by intros n Hk|unfold touch; cbn; by rewrite Hrid|done|by split|done].
Qed.

Lemma issue_typed ctx input now rtok1 rid rtok2 (w w' : gworld) r :
  IssueOAuthTokenSet ctx input now rtok1 rid rtok2 w = (r, w') →
  tokens_typed (w_db w) → tokens_typed (w_db w').
Proof.
  intros Hrun Hd. destruct r; [|eapply typed_db_eq, Hd; by eapply issue_tokens_err].
  pose proof (issue_keeps _ _ _ _ _ _ _ _ _ Hrun) as Hp.
  unfold IssueOAuthTokenSet, newMCPTokenRecord, putMCPTokenRecord, put_token, put_digest,
    put_refresh in Hrun.
  tx_inv. match goal with Hc : ctx_check _ _ = _ |- _ => apply ctx_check_ok in Hc as [_ ->] end.
  match goal with Hn : normalizeMCPTokenInput _ _ = Ok ?x |- _ =>
    destruct (new_record_typed _ _ x now rtok1 rid _ Hn eq_refl) as [Hid [Hty1 Hty2 Hty3]] end.
  eapply (typed_put w _ rid); [done|done|done|done|by split|].
  match goal with Hv : validateTokenNAS _ _ = Ok _ |- _ => revert Hv end.
  unfold validateTokenNAS. destruct (forallb _ _) eqn:E; [|done]. intros _.
  apply Forall_forall. intros n Hin. rewrite forallb_forall in E. apply E. by apply list_elem_of_In.
Qed.

Lemma refresh_typed ctx raw clientID resource rtok1 rtok2 now (w w' : gworld) r :
  RefreshOAuthTokenSet ctx raw clientID resource rtok1 rtok2 now w = (r, w') →
  tokens_typed (w_db w) → tokens_typed (w_db w').
Proof.
  intros Hrun Hd. destruct r; [|eapply typed_db_eq, Hd; by eapply refresh_tokens_err].
  pose proof (refresh_keeps _ _ _ _ _ _ _ _ _ _ Hrun) as Hp.
  apply refresh_run in Hrun as (refresh & record & record' & _ & _ & _ & _ & Hr & _ & -> & _ & _ &
    _ & Ht & _).
  destruct (typed_read _ _ _ Hd Hr) as (_ & Hrid & [? ? ?] & Hn).
  eapply (typed_put w w' (tr_ID record)); [done|done|exact Ht|done|by split|done].
Qed.

Lemma delete_profile_typed ctx name expected retain nows now wall rid (w w' : gworld) r :
  DeleteProfile ctx name expected retain nows now wall rid w = (r, w') →
  tokens_typed (w_db w) → tokens_typed (w_db w').
Proof.
  intros Hrun Hd. destruct r; [|eapply typed_db_eq, Hd; by eapply delete_profile_err].
  apply delete_profile_run in Hrun as (_ & _ & _ & _ & _ & (Hpr & _ & Ht & _) & _).
  intros k r. rewrite Ht, lookup_cleaned.
  destruct (b_mcp_tokens (w_db w) !! k) as [[r0|]|] eqn:Hk; cbn; [|done..].
  destruct (Hd _ _ Hk) as (Hid & Hty & Hn). unfold cleaned_token, drop_allowed, decodeMCPToken.
  cbn [unmarshal]. rewrite (bool_decide_eq_false_2 (TrimSpace _ = "")) by by apply typed_mode_kept.
  assert (∀ n, n ≠ name → known (w_db w) n → known (w_db w') n) as Hother.
  { intros n Hne. unfold known, readProfile. by rewrite Hpr, lookup_delete_ne. }
  case_bool_decide as Hin; intros [= <-]; cbn.
  - split; [done|]. split; [destruct Hty; by split|].
    apply Forall_forall. intros n [Hne Hn']%list_elem_of_filter. apply Hother; [done|].
    rewrite Forall_forall in Hn. by apply Hn.
  - split; [done|]. split; [done|]. apply Forall_forall. intros n Hn'.
    apply Hother; [by intros ->|]. rewrite Forall_forall in Hn. by apply Hn.
Qed.

Lemma typed_step_keeps w w' : typed_step w w' → tokens_typed (w_db w) → tokens_typed (w_db w').
Proof.
  intros Hs Hd. destruct Hs as [? ? ? ? ? ? ? ? ? Hr|? ? ? ? ? ? ? Hr|? ? ? ? ? ? Hr
    |? ? ? ? ? ? ? Hr|? ? ? ? ? ? Hr|? ? ? ? ? ? ? ? ? Hr|? ? ? ? ? ? ? ? ? ? Hr
    |? ? ? ? ? ? ? Hr|? ? ? ? ? ? ? ? Hr|? ? ? ? ? ? ? ? ? ? ? Hr|w w' Ht Hp].
  - by eapply create_typed.
  - by eapply rotate_typed.
  - eapply change_typed, Hd; [..|exact Hr]; intros t; unfold revoke_change;
      destruct (tk_RevokedAt t); try done. intros [? ? ?]. by split.
  - unfold ExpireMCPToken in Hr.
    apply bind_inv in Hr as [(e & Hc & _)|(u & w1 & [_ ->]%check_ok_inv & Hr)].
    { unfold check in Hc. destruct (negb _); [done|]. injection Hc as _ <-. done. }
    eapply change_typed, Hd; [..|exact Hr]; intros t; [done| |done]. intros [? ? ?]. by split.
  - by eapply authenticate_typed.
  - by eapply issue_typed.
  - by eapply refresh_typed.
  - eapply typed_frame; [done|by eapply create_profile_keeps|by eapply create_profile_tokens].
  - eapply typed_frame; [done|by eapply update_profile_keeps|by eapply update_profile_tokens].
  - by eapply delete_profile_typed.
  - by eapply typed_frame.
Qed.
End preservation.

(** C36: stored tokens are well typed.  From a database whose tokens are, and so from a new
    one, every history of token operations, OAuth grants, refreshes, authentications and
    profile changes, successful or refused, leaves only records that are stored under their
    own id, with a proper name, known scopes and a known approval mode, and an allowlist of
    profiles that exist. *)
Theorem stored_tokens_typed `{Sha256, NetURL, Unicode, KeyN} (w w' : gworld) :
  tokens_typed (w_db w) → rtc typed_step w w' → tokens_typed (w_db w').
Proof. intros Hd Hs. induction Hs as [|w1 w2 w3 Hs _ IH]; [done|]. by apply IH, (typed_step_keeps w1). Qed.

(** A token for the sample profile, whose deletion empties the allowlist. *)
Definition typed_input : MCPTokenInput := {|
  ti_Name := " laptop "; ti_Scopes := ["nas.read"; "nas.plan"]; ti_NASAllowlist := ["nas1"];
  ti_ExpiresAt := None; ti_ApprovalMode := "" |}.
Definition typed_start : gworld := World (set_b_profiles (b_profiles sample_db) empty_db) ∅.
Definition typed_created := @CreateMCPToken id_sha256 Background typed_input 1 1 sample_rtok "t9"
  typed_start.
Definition typed_deleted :=
  @DeleteProfile keyN_committed Background "nas1" 3 true (fun _ => 2) 2 2 "e1"
    typed_created.2.

Lemma stored_tokens_typed_witness :
  ∃ r, b_mcp_tokens (w_db typed_deleted.2) = {[ "t9" := Json r ]} ∧
    Forall (known (w_db typed_deleted.2)) (tk_NASAllowlist (tr_MCPToken r)).
Proof.
  eexists. split; [vm_compute; reflexivity|].
  refine (proj2 (proj2 (@stored_tokens_typed id_sha256 one_url ascii_tables keyN_committed typed_start
    typed_deleted.2 _ _ "t9" _ _))).
  - intros k r Hk. discriminate Hk.
  - eapply rtc_l; [|eapply rtc_once].
    + eapply (@ty_create id_sha256 one_url ascii_tables keyN_committed _ _ _ _ _ _ typed_start).
      apply surjective_pairing.
    + eapply (@ty_delete_profile id_sha256 one_url ascii_tables keyN_committed).
      apply surjective_pairing.
  - vm_compute. reflexivity.
Defined.
