(* ===== verification/AdminThms.v ===== *)
(** * Properties of the administration API

    Which requests change anything, who they come from, and what is recorded of them. *)

From S2P Require Import Prelude.
From S2P Require Import GoStrings.
From S2P Require Import Bolt.
From S2P Require Import NetIP.
From S2P Require Import RemotePolicy.
From S2P Require Import Password.
From S2P Require Import Json.
From S2P Require Import Config.
From S2P Require Import StateTypes.
From S2P Require Import Records.
From S2P Require Import Policy.
From S2P Require Import Http.
From S2P Require Import TlsTrust.
From S2P Require Import PlatformAuth.
From S2P Require Import Repository.
From S2P Require Import DsmErrors.
From S2P Require Import Vault.
From S2P Require Import Provision.
From S2P Require Import Admin.
From S2P Require Import AdminHttp.
From S2P Require Import AdminApi.
From S2P Require Import AdminServe.
From S2P Require Import Samples.
From S2P Require Import AuditThms.

(** ** Housekeeping: what a request that reads may change *)

(** A bucket that lost entries, each for a reason. *)
Definition pruned {A} (why : string → stored A → Prop) : relation (bucket A) := fun b b' =>
  ∀ k, b' !! k = b !! k ∨ b' !! k = None ∧ ∃ e, b !! k = Some e ∧ why k e.
#[global] Instance pruned_preorder {A} (why : string → stored A → Prop) : PreOrder (pruned why).
Proof.
  split; [intros b k; by left|]. intros b1 b2 b3 H12 H23 k.
  destruct (H23 k) as [E|[E (e & He & Hw)]]; [rewrite E; apply H12|].
  destruct (H12 k) as [E2|[E2 _]]; right; split; [done| |done|]; rewrite E2 in *; [by exists e|done].
Qed.

Section kept.
Context `{Unicode, Sha256, TimeText, KeyN}.
(** The readings of the request, and the request. *)
Context (rd : areadings) (req : http_request).

(** The session of the request's own cookie, that does not authenticate at its readings: it
    does not decode, it has expired, or its administrator is no longer the one it names. *)
Definition ended_session (d : DB) (k : string) (e : stored administratorSessionRecord) : Prop :=
  (∃ token, rq_Cookie req administratorCookie = Some token ∧ k = sha256 token) ∧
  ∀ r, e = Json r → session_authentic d r (ad_authenticate rd) = false ∨
                    session_authentic d r (ad_session rd) = false.
(** A pending approval that has expired when the request reads the clock. *)
Definition ended_request (k : string) (e : stored PendingApproval) : Prop :=
  ∃ p, e = Json p ∧ request_expired (ad_now rd) p = true.
(** One event of the request, appended to the log as [AppendAudit] does it. *)
Definition logged : relation (bucket AuditEvent) := fun b b' =>
  ∃ n wall id actorType actorID action nas outcome reason,
    ad_audit rd n = (None, wall, id) ∧
    b' = audit_append (count b) wall id {|
      ev_ID := ""; ev_Time := zeroTime; ev_CorrelationID := CorrelationID (rq_Context req);
      ev_ActorType := actorType; ev_ActorID := actorID; ev_Action := action; ev_Tool := "";
      ev_NAS := nas; ev_Outcome := outcome; ev_Reason := reason |} b.

(** Events of the request join the log, its own session goes if it has ended, and so do the
    pending approvals that have expired. *)
Record kept (d d' : DB) : Prop := {
  kp_meta : b_meta d' = b_meta d;
  kp_profiles : b_profiles d' = b_profiles d;
  kp_secrets : b_secrets d' = b_secrets d;
  kp_tokens : b_mcp_tokens d' = b_mcp_tokens d;
  kp_digests : b_token_digests d' = b_token_digests d;
  kp_approvals : b_approvals d' = b_approvals d;
  kp_clients : b_oauth_clients d' = b_oauth_clients d;
  kp_refresh : b_oauth_refresh d' = b_oauth_refresh d;
  kp_requests : pruned ended_request (b_approval_requests d) (b_approval_requests d');
  kp_sessions : pruned (ended_session d) (b_admin_sessions d) (b_admin_sessions d');
  kp_audit : rtc logged (b_audit d) (b_audit d')
}.

Lemma session_authentic_meta d d' r now :
  b_meta d' = b_meta d → session_authentic d' r now = session_authentic d r now.
Proof. intros Hm. unfold session_authentic, validateAdministratorRecord, meta_get. by rewrite Hm. Qed.

#[global] Instance kept_preorder : PreOrder kept.
Proof.
  split; [by intros d; split|]. intros d1 d2 d3 [] [Hm]. split; try congruence; try (by etransitivity).
  transitivity (b_admin_sessions d2); [done|]. intros k. destruct (kp_sessions1 k) as [|(E & e & He & Hc & Hr)].
  { by left. } right. split; [done|]. exists e. split; [done|]. split; [done|].
  intros r Hj. rewrite <- !(session_authentic_meta d1 d2) by done. by apply Hr.
Qed.

Definition tidied : relation gworld := fun w w' =>
  kept (w_db w) (w_db w') ∧ w_rest w' = w_rest w.
#[global] Instance tidied_preorder : PreOrder tidied.
Proof.
  split; [by intros w; split|]. intros w1 w2 w3 [Hk1 Hr1] [Hk2 Hr2].
  split; [by etransitivity|congruence].
Qed.
#[global] Instance tidied_rollback : RollbackOk tidied.
Proof. intros w w1 [_ Hr]. by split. Qed.

(** Nothing but the repository changes, and that only so. *)
Record idle (s s' : astate) : Prop := {
  il_repository : tidied (ast_repository s) (ast_repository s');
  il_setup : ast_setup s' = ast_setup s;
  il_login : ast_login s' = ast_login s;
  il_export : ast_export s' = ast_export s;
  il_seen : ast_seen s' = ast_seen s;
  il_pending : ast_pending s' = ast_pending s;
  il_restore : ast_restore s' = ast_restore s
}.
#[global] Instance idle_preorder : PreOrder idle.
Proof.
  split; [by intros s; split|]. intros s1 s2 s3 [] []. split; try congruence; by etransitivity.
Qed.

#[global] Instance idle_repository {E A} (m : ST gworld E A) :
  Steps tidied m → Steps idle (on_repository m).
Proof.
  intros Hm s r s'. unfold on_repository. destruct (m _) as [x w] eqn:Er. intros [= <- <-].
  split; try done. by eapply Hm.
Qed.
End kept.

(** ** Methods of the repository *)

Section idle.
Context `{Unicode, NetURL, Sha256, Argon2, TimeText, KeyN, HMAC, PayloadText, AEAD,
  Codec TrustedDevice, Codec SessionCredential, X509, RFC3339, Peers}.
Context (rd : areadings) (req : http_request).
Abbreviation tidied := (tidied rd req).
Abbreviation idle := (idle rd req).

Ltac tidy_walk := repeat first [done | apply _ | steps_step | progress (cbv zeta)].

#[global] Instance idle_append n a b c d e f : Steps idle (append_audit rd n req a b c d e f).
Proof.
  unfold append_audit. destruct (ad_audit rd n) as [[auditFailure wall] id] eqn:Er.
  apply idle_repository. intros w r w'. unfold AppendAudit, ctx_check.
  destruct (ctx_Err (rq_Context req)) eqn:Ec; [by intros [= _ <-]|].
  destruct auditFailure; [by intros [= _ <-]|]. intros Hr. revert Hr.
  unfold Update, appendAuditTx. st_unfold. intros [= _ <-]. split; [|done]. split; try done. cbn.
  apply rtc_once. do 9 eexists. split; [exact Er|reflexivity].
Qed.

Lemma tidied_authenticate ctx token now :
  rq_Cookie req administratorCookie = Some token → now = ad_authenticate rd ∨ now = ad_session rd →
  Steps tidied (AuthenticateAdministratorSession ctx token now).
Proof.
  intros Hc Hnow [d rest] r w'. unfold AuthenticateAdministratorSession, ctx_check.
  destruct (ctx_Err ctx); [by intros [= _ <-]|]. intros Hr.
  destruct (b_admin_sessions d !! sha256 token) as [e|] eqn:El.
  2:{ revert Hr. unfold Update, delete_session. st_unfold. cbn. rewrite El. intros [= _ <-].
      split; [|done]. split; try done. cbn. intros k. left.
      destruct (decide (k = sha256 token)) as [->|]; [by rewrite lookup_delete_eq, El|].
      by rewrite lookup_delete_ne. }
  assert ((∃ s, e = Json s ∧ session_authentic d s now = true) ∧ w' = World d rest ∨
    (∀ s, e = Json s → session_authentic d s now = false) ∧
    w' = World (set_b_admin_sessions (delete (sha256 token) (b_admin_sessions d)) d)
           rest) as [[_ ->]|[He ->]].
  { revert Hr. unfold Update, delete_session. st_unfold. cbn. rewrite El. destruct e as [s|].
    - destruct (session_authentic d s now) eqn:Es; intros [= _ <-]; [by left; eauto|].
      right. split; [|done]. intros ? [= <-]. done.
    - intros [= _ <-]. right. by split. }
  { done. }
  split; [|done]. split; try done. cbn. intros k.
  destruct (decide (k = sha256 token)) as [->|]; [|left; by rewrite lookup_delete_ne].
  right. rewrite lookup_delete_eq. split; [done|]. exists e. split; [done|]. split; [by exists token|].
  intros s Hs. destruct Hnow as [-> | ->]; auto.
Qed.
#[global] Instance tidied_pending ctx : Steps tidied (PendingApprovals ctx (ad_now rd)).
Proof.
  unfold PendingApprovals, prunePendingApprovals, delete_requests. tidy_walk.
  split; [|done]. split; try done. cbn. intros k.
  match goal with |- delete_keys ?ks ?b !! k = _ ∨ _ => destruct (decide (k ∈ ks)) as [Hk|Hk] end.
  - right. split; [by rewrite lookup_delete_keys, decide_True|]. apply elem_of_keys_where in Hk as (p & Hp & He).
    exists (Json p). split; [done|]. by exists p.
  - left. by rewrite lookup_delete_keys, decide_False.
Qed.

Tactic Notation "view" reference(f) := unfold f; tidy_walk.
#[global] Instance tidied_status ctx : Steps tidied (GetAdministratorStatus ctx).
Proof. view GetAdministratorStatus. Qed.
#[global] Instance tidied_health ctx : Steps tidied (health ctx).
Proof. view health. Qed.
#[global] Instance tidied_tokens ctx : Steps tidied (MCPTokens ctx).
Proof. view MCPTokens. Qed.
#[global] Instance tidied_token ctx id : Steps tidied (GetMCPToken ctx id).
Proof. view GetMCPToken. Qed.
#[global] Instance tidied_approvals ctx b : Steps tidied (Approvals ctx b).
Proof. view Approvals. Qed.
#[global] Instance tidied_events ctx q : Steps tidied (AuditEvents ctx q).
Proof. view AuditEvents. Qed.
#[global] Instance tidied_export ctx : Steps tidied (AuditExport ctx).
Proof. view AuditExport. Qed.
#[global] Instance tidied_orphans ctx : Steps tidied (OrphanedSecrets ctx).
Proof. view OrphanedSecrets. Qed.
#[global] Instance tidied_secrets ctx id : Steps tidied (SecretMetadataForProfile ctx id).
Proof. view SecretMetadataForProfile. Qed.
#[global] Instance tidied_profiles ctx : Steps tidied (Profiles ctx).
Proof. view Profiles. Qed.
#[global] Instance tidied_profile ctx name : Steps tidied (GetProfile ctx name).
Proof. view GetProfile. Qed.
#[global] Instance tidied_accounts ctx name : Steps tidied (PasswordAccounts ctx name).
Proof. view PasswordAccounts. Qed.
#[global] Instance tidied_session ctx name : Steps tidied (Session ctx name).
Proof. unfold Session. view read_credential. Qed.
#[global] Instance tidied_meta ctx name : Steps tidied (session_meta ctx name).
Proof. view session_meta. Qed.
#[global] Instance tidied_reveal ctx name account :
  Steps tidied (RevealPasswordForAccount ctx name account).
Proof. view RevealPasswordForAccount. Qed.

(** ** Handlers of requests that read *)

Context (h : Handler) (net : outside).

Lemma reading_method m :
  is_mutation req = false → m ≠ "GET" → m ≠ "HEAD" → rq_Method req ≠ m.
Proof. unfold is_mutation. intros Hm ?? <-. by rewrite !bool_decide_eq_false_2 in Hm. Qed.

Lemma steps_refused {A} m (k : () → AH A) :
  is_mutation req = false → m ≠ "GET" → m ≠ "HEAD" → Steps idle (method_is req m ≫= k).
Proof.
  intros Hm Hg Hh. unfold method_is. rewrite (bool_decide_eq_false_2 (rq_Method req = m)) by by apply reading_method.
  intros s r s'. cbv. by intros [= <- <-].
Qed.

#[global] Instance idle_method m : Steps idle (method_is req m).
Proof. unfold method_is. steps_walk. Qed.
#[global] Instance idle_answer {A} (r : result error A) status f : Steps idle (answer r status f).
Proof. unfold answer. steps_walk. Qed.
#[global] Instance idle_listing {A} (r : result error A) x y f : Steps idle (listing r x y f).
Proof. unfold listing. steps_walk. Qed.
#[global] Instance idle_identity : Steps idle (authenticate rd req).
Proof.
  unfold authenticate. destruct (rq_Cookie req administratorCookie) as [token|] eqn:Hc; [|tidy_walk].
  pose proof (tidied_authenticate (rq_Context req) token (ad_authenticate rd) Hc (or_introl eq_refl)).
  tidy_walk.
Qed.

Ltac read_case :=
  match goal with
  | Hr : is_mutation ?req = false |- Steps _ (if bool_decide (rq_Method ?req = ?m) then _ else _) =>
      rewrite (bool_decide_eq_false_2 (rq_Method req = m)) by by apply reading_method
  | Hr : is_mutation ?req = false |-
      Steps _ (if _ && bool_decide (rq_Method ?req = ?m) then _ else _) =>
      rewrite (bool_decide_eq_false_2 (rq_Method req = m)), andb_false_r by by apply reading_method
  end.
Ltac read_walk :=
  repeat first [done | apply _ | apply steps_refused; done | read_case | steps_step
    | progress (cbv zeta)].

Section reading.
Hypothesis (Hread : is_mutation req = false).

Tactic Notation "reads" reference(f) := unfold f; read_walk.
Lemma idle_setup : Steps idle (setup h rd req).
Proof. reads setup. Qed.
Lemma idle_login : Steps idle (login h rd req).
Proof. reads login. Qed.
Lemma idle_dsm_login : Steps idle (dsmLogin h rd req).
Proof. reads dsmLogin. Qed.
Lemma idle_tokens : Steps idle (mcpTokens rd req).
Proof. reads mcpTokens. Qed.
Lemma idle_approvals actor : Steps idle (approvals rd req actor).
Proof. reads approvals. Qed.
Lemma idle_requests actor : Steps idle (approvalRequests rd req actor).
Proof. reads approvalRequests. Qed.
Lemma idle_secrets name id : Steps idle (applySecrets rd req name id).
Proof. reads applySecrets. Qed.
Lemma idle_profiles : Steps idle (profiles rd req).
Proof. reads profiles. Qed.
Lemma idle_record revoke name : Steps idle (profileRecord revoke rd req name).
Proof. reads profileRecord. Qed.
Lemma idle_enrollment name : Steps idle (passwordEnrollment net rd req name).
Proof. reads passwordEnrollment. Qed.

(** A handler of one method that is not a reading one. *)
Ltac refuses := cbv zeta; apply steps_refused; done.

Lemma idle_profile_route actor : Steps idle (profile h net rd req actor).
Proof.
  unfold profile. cbv zeta. destruct (PathUnescape _) as [name|]; [|read_walk].
  repeat match goal with |- Steps _ (if ?b then _ else _) => destruct b end.
  all: first [apply idle_record | apply idle_enrollment | apply idle_secrets
    | solve [unfold credentialStatus, passwordAccounts; read_walk]
    | unfold testProfile, probeProfileTLS, trustProfileCertificate, revealPassword, removeSession,
        removeTrustedDevice, startWebLogin, completeWebLogin, connectStoredPassword,
        provisionProfile; refuses].
Qed.

Lemma idle_session token :
  rq_Cookie req administratorCookie = Some token → Steps idle (session rd req token).
Proof.
  intros Hc. pose proof (tidied_authenticate (rq_Context req) token (ad_session rd) Hc
    (or_intror eq_refl)). reads session.
Qed.
#[global] Instance idle_inventory m ctx : Steps idle (Status m ctx).
Proof. by intros s r s' [= _ <-]. Qed.
Lemma idle_recovery : Steps idle (recoveryAPI net req).
Proof. unfold recoveryAPI. cbv zeta. destruct (ou_recovery net); read_walk. Qed.

Lemma idle_serve actor token :
  rq_Cookie req administratorCookie = Some token →
  Steps idle (serveAuthenticated h net rd req actor token).
Proof.
  intros Hc. unfold serveAuthenticated. cbv zeta.
  repeat match goal with |- Steps _ (if ?b then _ else _) => destruct b end.
  all: first [apply idle_profile_route | apply idle_tokens | by apply idle_session
    | apply idle_recovery | apply idle_approvals | apply idle_requests | apply idle_profiles
    | solve [unfold status, audit, orphanSecrets; read_walk]
    | unfold logout, changePassword, configureLocalAdministrator, revokeOtherSessions,
        exportCredentials, discoverLAN; refuses].
Qed.
(** Reading the setup is read only whatever the method. *)
Lemma idle_setup_status : Steps idle (setupStatus h req).
Proof. unfold setupStatus. read_walk. Qed.
End reading.

#[global] Instance idle_caught (m : AH aresponse) : Steps idle m → Steps idle (caught m).
Proof.
  intros Hm s r s'. unfold caught. destruct (m s) as [[x|x] s1] eqn:E; intros [= <- <-];
    by eapply Hm.
Qed.
End idle.

(** ** Which requests change anything *)

Section gate.
Context `{Unicode, NetURL, Sha256, Argon2, TimeText, KeyN, HMAC, PayloadText, AEAD,
  Codec TrustedDevice, Codec SessionCredential, X509, RFC3339, Peers}.
Context (h : Handler) (net : outside).

Definition login_paths : list string :=
  ["/admin/api/setup/status"; "/admin/api/setup"; "/admin/api/login"; "/admin/api/dsm-login"].

(** The header of the console's own scripts, a content type that a plain form cannot send,
    and the origin of the console. *)
Record from_console (req : http_request) : Prop := {
  fc_header : rq_Header req requestHeader = "1";
  fc_type : media_type req = "application/json";
  fc_origin : TrimRight1 (TrimSpace (rq_Header req "Origin")) 47 = externalOrigin h req;
  fc_present : externalOrigin h req ≠ ""
}.

Definition actor_of (r : administratorSessionRecord) : string :=
  normalizedAdministratorProvider (se_Provider r) +:+ ":" +:+ se_Username r.

(** The request bears the token of the session [r], live in the database [d]. *)
Record signed_in (rd : areadings) (req : http_request) (d : DB) (token : string)
    (r : administratorSessionRecord) : Prop := {
  si_cookie : rq_Cookie req administratorCookie = Some token;
  si_stored : b_admin_sessions d !! sha256 token = Some (Json r);
  si_live : session_authentic d r (ad_authenticate rd) = true
}.

(** The request was served for the session [r] once the log held its start. *)
Definition served_for (rd : areadings) (req : http_request) (s : astate)
    (token : string) (r : administratorSessionRecord) (resp : aresponse) (s' : astate) : Prop :=
  ∃ s1 s2,
    append_audit rd 0 req "gateway_admin" (actor_of r) (adminAuditAction (rq_Path req)) ""
      "started" "" s = (Ok (Ok ()), s1) ∧
    caught (serveAuthenticated h net rd req (actor_of r) token) s1 = (Ok resp, s2) ∧
    idle rd req s2 s'.

Lemma validated_from_console req : validateBrowserMutation h req = Ok () → from_console req.
Proof.
  unfold validateBrowserMutation. destruct (negb _) eqn:E1; [done|].
  destruct (negb (bool_decide (media_type _ = _))) eqn:E2; [done|]. cbv zeta.
  destruct (_ || _) eqn:E3; [done|]. intros _. apply orb_false_elim in E3 as [E3 E4].
  split_bools. split; [done..|congruence].
Qed.

Lemma authenticate_inv rd req s actor token s' :
  authenticate rd req s = (Ok (Ok (actor, token)), s') →
  s' = s ∧ ∃ r, signed_in rd req (w_db (ast_repository s)) token r ∧ actor = actor_of r.
Proof.
  unfold authenticate. destruct (rq_Cookie req _) as [v|] eqn:Ec; [|by intros [=]].
  destruct (bool_decide _); [by intros [=]|]. intros (se & s1 & Hon & Hr)%bind_ok_inv.
  unfold on_repository in Hon. destruct (AuthenticateAdministratorSession _ _ _ _) as [x w] eqn:Ea.
  injection Hon as -> <-. injection Hr as Hr <-. destruct se as [se|e]; [|discriminate].
  unfold AuthenticateAdministratorSession in Ea. tx_inv.
  match goal with Hc : ctx_check _ _ = _ |- _ => apply ctx_check_ok in Hc as [_ ->] end.
  destruct (b_admin_sessions _ !! sha256 v) as [[r|]|] eqn:El; [|tx_inv..].
  destruct (session_authentic _ _ _) eqn:Es; [|tx_inv]. tx_inv.
  split; [by destruct s|]. exists r. cbn in Hr. unfold actor_of.
  destruct (bool_decide (_ = AdminProviderLocal)) eqn:E1; split_bools.
  { rewrite E1. by split. }
  destruct (bool_decide (_ = AdminProviderDSM)) eqn:E2; [|done]. split_bools.
  rewrite E2. by split.
Qed.

Lemma caught_not_err (m : AH aresponse) s e s' : caught m s ≠ (Err e, s').
Proof. unfold caught. by destruct (m s) as [[]]. Qed.

Lemma on_repository_not_err {A} (m : GW A) s e s' : on_repository m s ≠ (Err e, s').
Proof. unfold on_repository. by destruct (m _). Qed.

Lemma append_audit_not_err rd n req a b c d e f s x s' :
  append_audit rd n req a b c d e f s ≠ (Err x, s').
Proof. unfold append_audit. destruct (ad_audit rd n) as [[??]?]. apply on_repository_not_err. Qed.

(** Behind the session: either nothing but the log changed, or the request was served. *)
Lemma authenticated_changes rd req s x s' :
  authenticated (serveAuthenticated h net) rd req s = (x, s') →
  idle rd req s s' ∨ is_mutation req = true ∧ ∃ token r resp,
    signed_in rd req (w_db (ast_repository s)) token r ∧ x = Ok resp ∧
    served_for rd req s token r resp s'.
Proof.
  intros Hr. unfold authenticated in Hr. cbv zeta in Hr.
  apply bind_inv in Hr as [(e & Hi & ->)|(identity & s0 & Hi & Hr)].
  { left. by eapply idle_identity. }
  destruct identity as [[actor token]|e].
  2:{ left. transitivity s0; [by eapply idle_identity|]. revert Hr.
      apply steps_bind; [apply _..|]. intros _. steps_walk. }
  apply authenticate_inv in Hi as (-> & r & Hr' & ->).
  destruct (is_mutation req) eqn:Em.
  - apply bind_inv in Hr as [(e & Hst & ->)|([] & s1 & Hst & Hr)].
    { left. revert Hst. apply steps_bind; [apply _..|]. intros started. steps_walk. }
    right. split; [done|]. apply bind_ok_inv in Hst as (started & s1' & Hst & Hok).
    destruct started as [[]|]; [|done]. injection Hok as ->.
    pose proof Hr as Hc. unfold mbind at 1, ST_bind in Hc.
    destruct (caught _ s1) as [[resp|e] s2] eqn:Ec; [|by apply caught_not_err in Ec].
    exists token, r, resp. split; [done|].
    assert (Steps (idle rd req) (if bool_decide (ar_status resp = 0) then mret resp else
      append_audit rd 1 req "gateway_admin" (actor_of r) (adminAuditAction (rq_Path req)) ""
        (outcome_of resp) "";; mret resp)) as Hs.
    { destruct (bool_decide _); [steps_walk|]. apply steps_bind; [apply _..|]. intros _. steps_walk. }
    split.
    { revert Hc. destruct (bool_decide _); [by intros [= <- _]|].
      intros [(y & Hy & ->)|(y & s3 & _ & Hy)]%bind_inv; [by apply append_audit_not_err in Hy|].
      by injection Hy as <- _. }
    exists s1, s2. split_and!; [done..|]. by eapply Hs.
  - left. revert Hr.
    apply steps_bind; [apply _|steps_walk|intros _].
    apply steps_bind; [apply _|apply idle_caught; apply idle_serve; [done|apply Hr']|intros resp].
    destruct (bool_decide _); [steps_walk|].
    apply steps_bind; [apply _..|]. intros _. steps_walk.
Qed.

Ltac case_dispatch :=
  match goal with |- (if ?b then _ else _) _ = _ → _ => destruct b eqn:? end.

(** C31: what the console's API changes is gated.  A request leaves everything as it is —
    except that events of this request join the log, that the session of its own cookie goes
    when it does not authenticate at the time the request reads, and that pending approvals
    that have expired at that time go — unless it is no read, is not too long, carries the
    header, the content type and the origin of the console's own scripts, and either is a
    setup or a login or bears the token of a live session; and then it is served under the
    session's name, after the log holds its start, and what follows is only its second
    event.  Everything is the state of the gateway and the file of a scheduled restore. *)
Theorem admin_changes_gated rd req s resp s' :
  ServeHTTP h net rd req s = (resp, s') →
  idle rd req s s' ∨
  is_mutation req = true ∧ HasPrefix (rq_Path req) "/admin/api/" = true ∧
  rq_ContentLength req ≤ maxAdminBody ∧ from_console req ∧
  (rq_Path req ∈ login_paths ∨ ∃ token r,
    signed_in rd req (w_db (ast_repository s)) token r ∧ served_for rd req s token r resp s').
Proof.
  intros Hr. unfold ServeHTTP in Hr.
  destruct (dispatch _ _ _ _ s) as [x s1] eqn:Ed.
  assert (s1 = s' ∧ (x = Ok resp ∨ x = Err resp)) as [-> Hx].
  { destruct x; injection Hr as -> ->; auto. }
  clear Hr. unfold dispatch in Ed. cbv zeta in Ed.
  destruct (_ && (maxAdminBody <? _)) eqn:E1; [left; by injection Ed as _ <-|].
  destruct (_ && _ && _) eqn:E2; [left; by injection Ed as _ <-|].
  destruct (is_mutation req) eqn:Em.
  2:{ left. revert Ed. repeat case_dispatch.
      all: first [by intros [= _ <-] | by apply idle_setup | by apply idle_login
        | by apply idle_dsm_login | apply idle_setup_status
        | intros [?|[? _]]%authenticated_changes; [done|congruence]]. }
  destruct (HasPrefix (rq_Path req) "/admin/api/") eqn:Ep.
  2:{ left. revert Ed. repeat case_dispatch.
      all: first [by intros [= _ <-] | split_bools; match goal with
        | Hp : rq_Path _ = _ |- _ => rewrite Hp in Ep; vm_compute in Ep; discriminate end]. }
  cbn in E1, E2. apply Z.ltb_ge in E1.
  destruct (validateBrowserMutation h req) as [[]|] eqn:Ev; [|done].
  apply validated_from_console in Ev. revert Ed. repeat case_dispatch.
  all: first
    [ intros [?|(_ & token & r & resp' & Hs & -> & Hserved)]%authenticated_changes; [by left|];
      right; destruct Hx as [[= ->]|]; [|done];
      split_and!; [done..|]; right; by exists token, r
    | by intros [= _ <-]; left
    | split_bools; intros _; right; split_and!; [done..|]; left;
      match goal with Hp : rq_Path _ = _ |- _ => rewrite Hp end; unfold login_paths; set_solver ].
Qed.
End gate.

(** ** What the log says of a revealed password *)

Lemma reveal_reason_unsafe account : safeAuditReason (reveal_reason account) = "failure".
Proof.
  unfold safeAuditReason. rewrite bool_decide_eq_false_2; [done|]. unfold reveal_reason, safe_reasons.
  destruct (bool_decide _); set_unfold; intros Hr; by repeat destruct Hr as [Hr|Hr].
Qed.

Section reveal.
Context `{Unicode, NetURL, Sha256, Argon2, TimeText, KeyN, HMAC, PayloadText, AEAD,
  Codec TrustedDevice, Codec SessionCredential, X509, RFC3339, Peers}.

#[global] Instance idle_reveal rd req name actor : Steps (idle rd req) (revealPassword rd req name actor).
Proof.
  unfold revealPassword, decoded. repeat first [steps_step | progress (cbv zeta) | apply _].
Qed.

Lemma append_audit_event rd n req a b c d e f s wall id r s' :
  ctx_Err (rq_Context req) = None → ad_audit rd n = (None, wall, id) →
  append_audit rd n req a b c d e f s = (r, s') →
  let log := b_audit (w_db (ast_repository s)) in
  b_audit (w_db (ast_repository s')) = audit_append (count log) wall id {|
    ev_ID := ""; ev_Time := zeroTime; ev_CorrelationID := CorrelationID (rq_Context req);
    ev_ActorType := a; ev_ActorID := b; ev_Action := c; ev_Tool := "";
    ev_NAS := d; ev_Outcome := e; ev_Reason := f |} log.
Proof.
  intros Hctx Hrd. unfold append_audit. rewrite Hrd. unfold on_repository.
  rewrite append_audit_run by done. by intros [= _ <-].
Qed.
End reveal.

(** Revealing a password gives it to the administrator and changes nothing but the log.
    The entry is a success of the administrator on that NAS; of the account whose password
    was shown it says nothing, because the reason that names it is not one the log keeps. *)
Theorem reveal_audited
    `{Unicode, NetURL, Sha256, Argon2, TimeText, KeyN, HMAC, PayloadText, AEAD,
      Codec TrustedDevice, Codec SessionCredential, X509, RFC3339, Peers}
    rd req name actor s resp s' wall id :
  ctx_Err (rq_Context req) = None → ad_audit rd 2 = (None, wall, id) →
  revealPassword rd req name actor s = (Ok resp, s') →
  ∃ account password,
    RevealPasswordForAccount (rq_Context req) name account (ast_repository s)
      = (Ok password, ast_repository s) ∧
    resp = writeJSON 200 (VObject [("nas", VText name); ("account", VText account);
                                   ("password", VText password)]) ∧
    let b := b_audit (w_db (ast_repository s)) in
    let e := {| ev_ID := ""; ev_Time := zeroTime; ev_CorrelationID := CorrelationID (rq_Context req);
                ev_ActorType := "gateway_admin"; ev_ActorID := administratorActor actor;
                ev_Action := "credential.reveal"; ev_Tool := ""; ev_NAS := name;
                ev_Outcome := "success"; ev_Reason := "failure" |} in
    idle rd req s s' ∧ b_audit (w_db (ast_repository s')) = audit_append (count b) wall id e b.
Proof.
  intros Hctx Hrd Hr. pose proof Hr as Hidle. unfold revealPassword in Hr.
  apply bind_ok_inv in Hr as ([] & s0 & Hm & Hr).
  assert (s0 = s) as -> by (unfold method_is in Hm; case_bool_decide; [by injection Hm|done]).
  apply bind_ok_inv in Hr as (raw & s0 & Hd & Hr).
  assert (s0 = s) as -> by (unfold decoded in Hd; destruct (decodeJSON _ _ _); [by injection Hd|done]).
  cbv zeta in Hr. set (account := TrimSpace raw) in Hr.
  apply bind_ok_inv in Hr as (pw & s1 & Hon & Hr). unfold on_repository in Hon.
  destruct (RevealPasswordForAccount _ _ _ _) as [x w] eqn:Ev. injection Hon as -> <-.
  assert (w = ast_repository s) as ->.
  { unfold RevealPasswordForAccount in Ev. apply bind_inv in Ev as [(e & Hc & _)|(u & w1 & Hc & Ev)];
      unfold ctx_check in Hc; rewrite Hctx in Hc; [done|]. injection Hc as _ <-.
    by apply View_inv in Ev as [_ ->]. }
  destruct pw as [password|e]; [|by destruct e].
  apply bind_ok_inv in Hr as (u & s2 & Ha & Hr). injection Hr as <- <-.
  exists account, password. split; [done|]. split; [done|]. cbv zeta. split; [by apply idle_reveal in Hidle|].
  apply (append_audit_event _ _ _ _ _ _ _ _ _ _ wall id) in Ha; [|done..]. rewrite Ha. cbn.
  unfold audit_append, normalize_event. cbn. by rewrite reveal_reason_unsafe.
Qed.

(** ** A console, with one profile and a signed-in administrator *)

Definition nas_url : URL := {|
  u_Scheme := "https"; u_Host := "nas1:5001"; u_Hostname := "nas1"; u_Port := "5001";
  u_User := false; u_Path := ""; u_EscapedPath := ""; u_RawQuery := ""; u_Fragment := "";
  u_String := "https://nas1:5001" |}.
Definition nas_urls : NetURL :=
  {| url_Parse := fun _ => Some nas_url; url_ParseRequestURI := fun _ => Some nas_url |}.
Definition trusting : X509 := {|
  CertPool := (); VerifyChain := fun _ _ _ => None; VerifyHostname := fun _ _ => true |}.
Definition undated : RFC3339 := fun _ => "".
Definition served_leaf : x509 := {|
  xc_Raw := "leaf"; xc_Subject := "CN=nas1"; xc_Issuer := "CN=ca"; xc_RawSubject := "s";
  xc_RawIssuer := "i"; xc_DNSNames := ["nas1"]; xc_IPAddresses := []; xc_NotBefore := 0;
  xc_NotAfter := 100; xc_self_signature := false |}.
Definition nas_peer : Peers := fun _ _ => Ok [served_leaf].

Definition console_handler : Handler := {|
  ah_publicURL := "https://gw"; ah_platformVerifier := None;
  ah_passwordHash := DefaultPasswordHashParameters |}.
Definition console_net : outside := {|
  ou_revoke := fun _ => Ok true; ou_sign_in := fun _ _ _ _ => None;
  ou_begin := fun _ _ _ => Ok (7%nat, "https://nas1:5001/login", "nonce");
  ou_complete := fun n code _ _ => if bool_decide (n = 7%nat ∧ code = "code") then Some {|
      wr_SID := "sid"; wr_SynoToken := "st"; wr_DeviceID := ""; wr_ServerPublicKey := "k";
      wr_LocalPublicKey := "k"; wr_LocalPrivateKey := "k"; wr_Account := "admin" |} else None;
  ou_lookup := fun _ => Ok []; ou_connect := fun _ => None; ou_query := fun _ => None;
  ou_dsm := fun _ => None;
  ou_sign_in_stored := fun _ password _ => if bool_decide (password = "hunter2")
    then Ok {| dl_DeviceID := ""; dl_SID := "sid"; dl_SynoToken := "st" |} else Err EContext;
  ou_discover := fun _ => None;
  ou_provisioner := {| EstablishSetupSession := fun _ => None; CreateFirstAdmin := fun _ _ => None;
    DisableBuiltinAdmin := fun _ _ => None; Login := fun _ _ _ => None;
    CompleteSetup := fun _ _ => None; Harden := fun _ _ => None |};
  ou_recovery := Some {| rc_Status := fun _ => None; rc_inspect := fun _ => None;
                         rc_written := true |};
  ou_restart := true; ou_environment := fun _ => None; ou_deviceName := "gateway" |}.
Definition console_state : astate := {|
  ast_repository := World gw_db ∅; ast_setup := ∅; ast_login := ∅; ast_export := ∅;
  ast_seen := ∅; ast_pending := ∅; ast_restore := None |}.

Definition console_header (k : string) : string :=
  if bool_decide (k = requestHeader) then "1"
  else if bool_decide (k = "Content-Type") then "application/json"
  else if bool_decide (k = "Origin") then "https://gw" else "".
Definition console_request (method path : string) (body : object) : http_request := {|
  rq_Method := method; rq_Path := path; rq_Header := console_header; rq_Query := fun _ => "";
  rq_PostForm := None;
  rq_Cookie := fun k => if bool_decide (k = administratorCookie) then Some "cookie" else None;
  rq_JSON := Some (JObject body, true); rq_BodyLength := Some 100; rq_ContentLength := 100;
  rq_Host := "gw"; rq_RemoteAddr := "10.0.0.9:1000"; rq_TLS := true; rq_Context := Background |}.
Definition console_reading (now : Z) (rid : string) : areadings :=
  let fr k := {| fr_id := rid +:+ k; fr_wall := now; fr_nonce := "123456789012" |} in {|
  ad_audit := fun n => (None, now, rid +:+ (if decide (n = 0%nat) then "-a" else "-b"));
  ad_authenticate := now; ad_session := now; ad_attempt := now; ad_victim := "";
  ad_cookie := now; ad_platform := now; ad_slot := None; ad_slot2 := None; ad_salt := [];
  ad_others := fun w => w; ad_token := rid; ad_id := rid; ad_now := now; ad_now2 := now;
  ad_nows := fun _ => now; ad_secret := fr "1"; ad_secret2 := fr "2"; ad_secret3 := fr "3";
  ad_wall := now; ad_wall2 := now; ad_dial := 0;
  ad_draw := fun n => Some (Z.of_nat n * 7919) |}.
Definition console_serve (rd : areadings) (req : http_request) (s : astate) : aresponse * astate :=
  @ServeHTTP ascii_tables nas_urls id_sha256 no_hash one_time keyN_committed plain_mac no_payload
    plain_aead no_device no_session trusting undated nas_peer console_handler console_net rd req s.

(** Revoking a token from the console. *)
Definition revoke_request : http_request := console_request "DELETE" "/admin/api/mcp-tokens/t1" [].

Lemma admin_changes_gated_witness :
  let rd := console_reading 1000 "r1" in
  ar_status (console_serve rd revoke_request console_state).1 = 200 ∧
  @from_console ascii_tables console_handler revoke_request ∧
  ∃ token r, @signed_in ascii_tables id_sha256 one_time rd revoke_request gw_db token r.
Proof.
  split; [vm_compute; reflexivity|].
  destruct (@admin_changes_gated ascii_tables nas_urls id_sha256 no_hash one_time keyN_committed
    plain_mac no_payload plain_aead no_device no_session trusting undated nas_peer
    console_handler console_net (console_reading 1000 "r1") revoke_request console_state
    _ _ (surjective_pairing (console_serve (console_reading 1000 "r1") revoke_request console_state)))
    as [Hidle|(_ & _ & _ & Hc & [Hp|(token & r & Hs & _)])].
  - exfalso. apply il_repository in Hidle as [Hk _]. apply kp_tokens in Hk.
    apply (f_equal (lookup "t1")) in Hk. vm_compute in Hk. discriminate Hk.
  - exfalso. revert Hp. apply (bool_decide_eq_false_1 (rq_Path revoke_request ∈ login_paths)).
    vm_compute. reflexivity.
  - split; [exact Hc|]. exists token, r. exact Hs.
Defined.

(** A second account of the NAS, in the password book of its profile. *)
Definition book_secret : sealedSecret := {|
  ss_Metadata := {| sm_ID := "x1"; sm_ProfileID := "p1"; sm_Type := secretPassword;
                    sm_Account := "backup"; sm_CreatedAt := 0; sm_UpdatedAt := 0 |};
  ss_Nonce := Some "123456789012"; ss_Ciphertext := Some "hunter2" |}.
Definition book_state : astate := {|
  ast_repository := World (set_b_secrets {[ "x1" := Json book_secret ]} gw_db) ∅;
  ast_setup := ∅; ast_login := ∅; ast_export := ∅; ast_seen := ∅; ast_pending := ∅;
  ast_restore := None |}.
Definition reveal_request : http_request := console_request "POST"
  "/admin/api/profiles/nas1/credentials/password/reveal" [("account", JString "backup")].
Definition reveal_run : Prelude.result aresponse aresponse * astate :=
  @revealPassword ascii_tables keyN_committed plain_aead (console_reading 1000 "r1") reveal_request
    "nas1" "local:root" book_state.

Lemma reveal_audited_witness :
  reveal_run.1 = Ok (writeJSON 200 (VObject [("nas", VText "nas1"); ("account", VText "backup");
    ("password", VText "hunter2")])) ∧
  b_audit (w_db (ast_repository reveal_run.2)) !! audit_key 1000 "r1-b" = Some (Json {|
    ev_ID := "r1-b"; ev_Time := 1000; ev_CorrelationID := ""; ev_ActorType := "gateway_admin";
    ev_ActorID := "local:root"; ev_Action := "credential.reveal"; ev_Tool := ""; ev_NAS := "nas1";
    ev_Outcome := "success"; ev_Reason := "failure" |}).
Proof.
  assert (∃ resp s', reveal_run = (Ok resp, s') ∧ ar_status resp = 200) as (resp & s' & Hr & _)
    by (do 2 eexists; split; vm_compute; reflexivity).
  destruct (@reveal_audited ascii_tables nas_urls id_sha256 no_hash one_time keyN_committed
    plain_mac no_payload plain_aead no_device no_session trusting undated nas_peer
    (console_reading 1000 "r1") reveal_request "nas1" "local:root" book_state resp s' 1000 "r1-b"
    eq_refl eq_refl Hr) as (account & password & _ & Hresp & _ & Hlog).
  split; [vm_compute; reflexivity|]. rewrite Hr. cbn [snd]. rewrite Hlog.
  vm_compute. reflexivity.
Defined.

(** ** Endpoints at work: a new NAS is provisioned, its stored password connects, a restore
    is scheduled once *)

Definition steps_of (s : astate) (l : list (areadings * http_request)) : list Z * astate :=
  fold_left (fun p c => let '(r, s) := console_serve c.1 c.2 p.2 in (p.1 ++ [ar_status r], s))
    l ([], s).
Definition provision_request : http_request :=
  console_request "POST" "/admin/api/profiles/nas1/provision" [("admin_user", JString " root ")].
Definition stored_password_of (s : astate) : Prelude.result error string :=
  (@StoredPassword plain_aead ascii_tables Background "nas1" (ast_repository s)).1.

Example provisioned :
  let '(statuses, s) := steps_of console_state [(console_reading 1000 "r1", provision_request)] in
  statuses = [200] ∧ slen <$> stored_password_of s = Ok 24.
Proof. vm_compute. split; reflexivity. Qed.

(** The session of a connection with the stored password is that of the profile's account. *)
Definition connect_state : astate := {|
  ast_repository := (@SavePassword plain_aead Background "nas1" "hunter2"
    {| fr_id := "x9"; fr_wall := 1; fr_nonce := "123456789012" |} 1 (World gw_db ∅)).2;
  ast_setup := ∅; ast_login := ∅; ast_export := ∅; ast_seen := ∅; ast_pending := ∅;
  ast_restore := None |}.
Definition connect_request : http_request :=
  console_request "POST" "/admin/api/profiles/nas1/credentials/password/connect" [].

(** A session that is encoded as its identifier. *)
Definition sid_session : Codec SessionCredential := {|
  Marshal := sc_SID;
  Unmarshal := fun sid =>
    Some (established "" "" 0 {| dl_DeviceID := ""; dl_SID := sid; dl_SynoToken := "" |}) |}.
Definition connect_run (s : astate) : aresponse * astate :=
  @ServeHTTP ascii_tables nas_urls id_sha256 no_hash one_time keyN_committed plain_mac no_payload
    plain_aead no_device sid_session trusting undated nas_peer console_handler console_net
    (console_reading 1000 "r1") connect_request s.

Example connected :
  ar_status (connect_run connect_state).1 = 200 ∧ ar_status (connect_run console_state).1 = 409.
Proof. vm_compute. split; reflexivity. Qed.

Definition restore_request : http_request :=
  console_request "POST" "/admin/api/recovery/restore"
    [("backup", JString "b1"); ("confirmation", JString "RESTORE b1")].

Example restored :
  let '(statuses, s) := steps_of console_state
    [(console_reading 1000 "r1", restore_request); (console_reading 2000 "r2", restore_request)] in
  statuses = [202; 409] ∧ ast_restore s = Some (Json "b1").
Proof. vm_compute. split; reflexivity. Qed.
