(* ===== verification/WebLoginThms.v ===== *)
(** * Properties of the console's web logins

    A web login is a ticket of [Traces]: starting one makes it pending, completing it takes
    it out. *)

From S2P Require Import Prelude.
From S2P Require Import GoStrings.
From S2P Require Import Bolt.
From S2P Require Import NetIP.
From S2P Require Import RemotePolicy.
From S2P Require Import Password.
From S2P Require Import Json.
From S2P Require Import Config.
From S2P Require Import StateTypes.
From S2P Require Import Records.
From S2P Require Import Policy.
From S2P Require Import Http.
From S2P Require Import TlsTrust.
From S2P Require Import PlatformAuth.
From S2P Require Import Traces.
From S2P Require Import Repository.
From S2P Require Import DsmErrors.
From S2P Require Import Vault.
From S2P Require Import Provision.
From S2P Require Import Admin.
From S2P Require Import AdminHttp.
From S2P Require Import AdminApi.
From S2P Require Import AdminServe.
From S2P Require Import Samples.
From S2P Require Import AdminThms.

(** ** Requests that leave the pending logins alone *)

Definition pending_eq : relation astate := fun s s' => ast_pending s' = ast_pending s.
#[global] Instance pending_eq_preorder : PreOrder pending_eq.
Proof. split; unfold pending_eq; [done|]. intros ????. congruence. Qed.

Ltac quiet_walk := repeat first [steps_step | progress (cbv zeta) | apply _].

Section quiet.
Context `{Unicode, NetURL, Sha256, Argon2, TimeText, KeyN, HMAC, PayloadText, AEAD,
  Codec TrustedDevice, Codec SessionCredential, X509, RFC3339, Peers}.
Context (h : Handler) (net : outside).

#[global] Instance quiet_repository {E A} (m : ST gworld E A) : Steps pending_eq (on_repository m).
Proof. intros s r s'. unfold on_repository. destruct (m _). by intros [= _ <-]. Qed.
#[global] Instance quiet_attempt rd l key : Steps pending_eq (allow_attempt rd l key).
Proof. intros s r s'. unfold allow_attempt. destruct (attempt_Allow _ _ _ _ _ _). by intros [= _ <-]. Qed.
#[global] Instance quiet_reset l key : Steps pending_eq (Reset l key).
Proof. intros s r s'. unfold Reset, modifyS. by intros [= _ <-]. Qed.
#[global] Instance quiet_audit rd n req a b c d e f :
  Steps pending_eq (append_audit rd n req a b c d e f).
Proof. unfold append_audit. destruct (ad_audit rd n) as [[? ?] ?]. apply _. Qed.
#[global] Instance quiet_method req m : Steps pending_eq (method_is req m).
Proof. unfold method_is. steps_walk. Qed.
#[global] Instance quiet_decoded {A} (r : result string A) : Steps pending_eq (decoded r).
Proof. unfold decoded. steps_walk. Qed.
#[global] Instance quiet_answer {A} (r : result error A) status f :
  Steps pending_eq (answer r status f).
Proof. unfold answer. steps_walk. Qed.
#[global] Instance quiet_listing {A} (r : result error A) x y f :
  Steps pending_eq (listing r x y f).
Proof. unfold listing. steps_walk. Qed.
#[global] Instance quiet_tls rd req name : Steps pending_eq (requireProfileTLS rd req name).
Proof. unfold requireProfileTLS. repeat first [steps_step | progress (cbv zeta) | apply _]. Qed.
#[global] Instance quiet_identity rd req : Steps pending_eq (authenticate rd req).
Proof. unfold authenticate. repeat first [steps_step | progress (cbv zeta) | apply _]. Qed.
#[global] Instance quiet_logged_in rd req key a b c d :
  Steps pending_eq (logged_in h rd req key a b c d).
Proof. unfold logged_in. repeat first [steps_step | progress (cbv zeta) | apply _]. Qed.
#[global] Instance quiet_rows ctx l : Steps pending_eq (export_rows ctx l).
Proof. induction l; cbn [export_rows]; repeat first [steps_step | progress (cbv zeta) | apply _]. Qed.
#[global] Instance quiet_enroll rd ctx name p i l : Steps pending_eq (enroll rd ctx name p i l).
Proof.
  unfold enroll. repeat first [steps_step | progress (cbv zeta) | apply _].
Qed.

Tactic Notation "quiet" reference(f) := unfold f; quiet_walk.

#[global] Instance quiet_setup rd req : Steps pending_eq (setup h rd req).
Proof. quiet setup. Qed.
#[global] Instance quiet_setup_status req : Steps pending_eq (setupStatus h req).
Proof. quiet setupStatus. Qed.
#[global] Instance quiet_login rd req : Steps pending_eq (login h rd req).
Proof. quiet login. Qed.
#[global] Instance quiet_dsm_login rd req : Steps pending_eq (dsmLogin h rd req).
Proof.
  unfold dsmLogin. quiet_walk. intros s r s'. destruct (Verify _ _ _ _ _). by intros [= _ <-].
Qed.
#[global] Instance quiet_export rd req actor : Steps pending_eq (exportCredentials h rd req actor).
Proof. quiet exportCredentials. Qed.
#[global] Instance quiet_tokens rd req : Steps pending_eq (mcpTokens rd req).
Proof. quiet mcpTokens. Qed.
#[global] Instance quiet_requests rd req actor : Steps pending_eq (approvalRequests rd req actor).
Proof. quiet approvalRequests. Qed.
#[global] Instance quiet_profiles rd req : Steps pending_eq (profiles rd req).
Proof. quiet profiles. Qed.
#[global] Instance quiet_record revoke rd req name : Steps pending_eq (profileRecord revoke rd req name).
Proof. quiet profileRecord. Qed.
#[global] Instance quiet_trust rd req name : Steps pending_eq (trustProfileCertificate rd req name).
Proof. quiet trustProfileCertificate. Qed.
#[global] Instance quiet_enrollment rd req name : Steps pending_eq (passwordEnrollment net rd req name).
Proof. quiet passwordEnrollment. Qed.
#[global] Instance quiet_test rd req name : Steps pending_eq (testProfile net rd req name).
Proof. quiet testProfile. Qed.
#[global] Instance quiet_connect rd req name : Steps pending_eq (connectStoredPassword net rd req name).
Proof. quiet connectStoredPassword. Qed.
#[global] Instance quiet_provision rd req name : Steps pending_eq (provisionProfile net rd req name).
Proof. quiet provisionProfile. Qed.
#[global] Instance quiet_inventory m ctx : Steps pending_eq (Status m ctx).
Proof. by intros s r s' [= _ <-]. Qed.
#[global] Instance quiet_queue m ctx name confirmation : Steps pending_eq (Queue m ctx name confirmation).
Proof.
  intros s r s'. unfold Queue. repeat case_match; by intros [= _ <-].
Qed.
#[global] Instance quiet_recovery req : Steps pending_eq (recoveryAPI net req).
Proof. quiet recoveryAPI. Qed.
#[global] Instance quiet_discovery req : Steps pending_eq (discoverLAN net req).
Proof. quiet discoverLAN. Qed.
#[global] Instance quiet_secrets rd req name id : Steps pending_eq (applySecrets rd req name id).
Proof. quiet applySecrets. Qed.
#[global] Instance quiet_caught (m : AH aresponse) : Steps pending_eq m → Steps pending_eq (caught m).
Proof.
  intros Hm s r s'. unfold caught. destruct (m s) as [[x|x] s1] eqn:E; intros [= _ <-];
    by eapply Hm.
Qed.
End quiet.

(** ** Starting and completing a web login *)

Section tickets.
Context `{Unicode, NetURL, Sha256, Argon2, TimeText, KeyN, HMAC, PayloadText, AEAD,
  Codec TrustedDevice, Codec SessionCredential, X509, RFC3339, Peers}.
Context (h : Handler) (net : outside).

(** The name of the profile and the action of a request under [/admin/api/profiles/]. *)
Definition routed (req : http_request) (name action : string) : Prop :=
  HasPrefix (rq_Path req) "/admin/api/profiles/" = true ∧ name ≠ "" ∧
  let parts := path_parts (TrimPrefix (rq_Path req) "/admin/api/profiles/") in
  PathUnescape (default "" (head parts)) = Some name ∧ Join (tail parts) "/" = action.

(** What the repository says of the profile [name]: the public profile, and the one that
    clients of the NAS are made with. *)
Definition profile_of (ctx : context) (w : gworld) (name : string) (profile : Profile)
    (nas : NASProfile) : Prop :=
  (GetProfile ctx name w).1 = Ok profile ∧
  nas = default zero_NASProfile
    (match (Snapshot ctx w).1 with Ok cfg => cf_NAS cfg !! name | Err _ => None end).

(** The response hands out the identifier, the address to sign in at and the nonce. *)
Definition handed_out (r : aresponse) (id url nonce : string) : Prop :=
  ar_status r = 201 ∧ ∃ l, ar_body r = VObject l ∧ ("enrollment_id", VText id) ∈ l ∧
    ("login_url", VText url) ∈ l ∧ ("state", VText nonce) ∈ l.

(** An enrolment of the profile [name] began with its NAS, waits for five minutes, and was
    answered with its identifier; a stored URL that does not parse leaves no answer. *)
Definition begun (rd : areadings) (req : http_request) (w : gworld) (r : aresponse)
    (name id : string) (g : pendingEnrollment) : Prop :=
  id = ad_token rd ∧ pe_ProfileName g = name ∧ pe_ExpiresAt g = ad_now rd + enrollmentTTL ∧
  ∃ profile nas page url nonce, profile_of (rq_Context req) w name profile nas ∧
    opener h req = Some page ∧
    ou_begin net nas (pf_URL profile) (page +:+ "/admin/") = Ok (pe_Enrollment g, url, nonce) ∧
    (is_Some (url_Parse (pf_URL profile)) → handed_out r id url nonce).

Lemma profile_of_same ctx w w1 name profile nas :
  b_profiles (w_db w1) = b_profiles (w_db w) → b_meta (w_db w1) = b_meta (w_db w) →
  profile_of ctx w1 name profile nas → profile_of ctx w name profile nas.
Proof.
  destruct w as [d rest], w1 as [d1 rest1]. cbn. intros Hp Hm [Hg Hn]. split.
  - rewrite <- Hg. unfold GetProfile, ctx_check, View, readProfile, meta_get. st_unfold.
    destruct (ctx_Err ctx); [done|]. cbn. by rewrite Hp, Hm.
  - rewrite Hn. do 2 f_equal. unfold Snapshot, Profiles, ctx_check, View, Profiles_view, meta_get.
    st_unfold. destruct (ctx_Err ctx); [done|]. cbn. rewrite Hp, Hm. by destruct (ForEach _).
Qed.

Lemma require_profile rd req name s profile s' :
  requireProfileTLS rd req name s = (Ok profile, s') →
  s' = s ∧ (GetProfile (rq_Context req) name (ast_repository s)).1 = Ok profile.
Proof.
  unfold requireProfileTLS, on_repository. intros (x & s1 & Hg & Hr)%bind_ok_inv.
  destruct (GetProfile _ _ _) as [y w] eqn:Eg. injection Hg as <- <-.
  assert (w = ast_repository s) as ->.
  { unfold GetProfile, ctx_check in Eg. destruct (ctx_Err _); [by injection Eg|].
    by apply View_inv in Eg as [_ ->]. }
  destruct y as [p|e]; [|done]. destruct (probeTLS rd p) as [[]|[]]; try done.
  injection Hr as <- <-. by destruct s.
Qed.

Lemma start_pending rd req name s r s' :
  startWebLogin h net rd req name s = (r, s') →
  ast_pending s' = ast_pending s ∨
  ∃ g, (∀ resp, r = Ok resp ∨ r = Err resp →
          begun rd req (ast_repository s) resp name (ad_token rd) g) ∧ rq_Method req = "POST" ∧
    ast_pending s' ⊆ <[ad_token rd := g]> (ast_pending s).
Proof.
  unfold startWebLogin. intros [(e & Hq & _)|([] & s0 & Hm & Hr)]%bind_inv.
  { left. exact (quiet_method _ _ _ _ _ Hq). }
  assert (rq_Method req = "POST" ∧ s0 = s) as [Hpost ->].
  { unfold method_is in Hm. case_bool_decide; [|done]. by injection Hm. }
  apply bind_inv in Hr as [(e & Hq & _)|(profile & s1 & Hq & Hr)];
    [left; exact (quiet_tls _ _ _ _ _ _ Hq)|].
  apply require_profile in Hq as [-> Hp].
  apply bind_inv in Hr as [(e & Hq2 & _)|(cfg & s2 & Hq2 & Hr)];
    [left; exact (quiet_repository _ _ _ _ Hq2)|].
  pose proof (quiet_repository _ _ _ _ Hq2) as E2; unfold pending_eq in E2.
  assert (cfg = (Snapshot (rq_Context req) (ast_repository s)).1) as ->.
  { unfold on_repository in Hq2. destruct (Snapshot _ _). by injection Hq2 as <- _. }
  cbv zeta in Hr. destruct (opener h req) as [page|] eqn:Eo; [|injection Hr as _ <-; by left].
  destruct (ou_begin _ _ _ _) as [[[enrollment url] nonce]|e] eqn:Eb;
    [|injection Hr as _ <-; by left].
  right. exists {| pe_ProfileName := name; pe_Enrollment := enrollment;
    pe_ExpiresAt := ad_now rd + enrollmentTTL |}. split_and!; [|done|].
  - intros resp Hresp. split_and!; [done..|]. eexists profile, _, page, url, nonce.
    split_and!; [by split|done|exact Eb|]. intros [parsed Hu].
    destruct (url_Parse (pf_URL profile)); [|done]. injection Hr as <- _.
    destruct Hresp as [[= <-]|]; [|done]. split; [done|]. eexists. split; [reflexivity|].
    rewrite !elem_of_cons. auto 10.
  - injection Hr as _ <-. cbn. rewrite <- E2. apply insert_mono, map_filter_subseteq.
Qed.

(** The request completes the enrolment [id], with the code that DSM gave the browser. *)
Definition completion (req : http_request) (id code rs state : string) : Prop :=
  decodeJSON ["enrollment_id"; "code"; "rs"; "state"]
    (fun m => id ← string_field m "enrollment_id"; code ← string_field m "code";
              rs ← string_field m "rs"; state ← string_field m "state";
              Some (id, code, rs, state)) req = Ok (id, code, rs, state).

(** Taken out by its own profile, in time, and DSM took the code. *)
Definition redeemable (rd : areadings) (name code rs state : string) (g : pendingEnrollment) : Prop :=
  pe_ProfileName g = name ∧ ad_now rd ≤ pe_ExpiresAt g ∧
  is_Some (ou_complete net (pe_Enrollment g) code rs state).

Lemma complete_pending rd req name s r s' :
  completeWebLogin net rd req name s = (r, s') →
  ast_pending s' ⊆ ast_pending s ∧
  ∀ id code rs state resp, completion req id code rs state →
    r = Ok resp ∨ r = Err resp → ar_status resp = 200 →
    ∃ g, ast_pending s !! id = Some g ∧ redeemable rd name code rs state g ∧
      ast_pending s' !! id = None.
Proof.
  unfold completeWebLogin, completion. intros [(e & Hm & ->)|([] & s0 & Hm & Hr)]%bind_inv.
  { split; [by rewrite (quiet_method _ _ _ _ _ Hm)|]. unfold method_is in Hm.
    case_bool_decide; [done|]. injection Hm as <- _. by intros ????? _ [?|[= <-]]. }
  assert (s0 = s) as ->. { unfold method_is in Hm. case_bool_decide; [|done]. by injection Hm. }
  destruct (decodeJSON _ _ req) as [[[[id code] rs] state]|e] eqn:Ed.
  2:{ injection Hr as <- <-. split; [done|]. by intros ????? [=]. }
  apply bind_inv in Hr as [(e & Hq & _)|(x & s0 & Hx & Hr)]; [done|]. injection Hx as <- <-.
  apply bind_inv in Hr as [(e & Hq & _)|(x & s1 & Hx & Hr)]; [done|].
  injection Hx as <- Hs. cbv zeta in Hr.
  assert (ast_pending s1 = delete id (ast_pending s)) as E1 by by subst s1.
  assert (ast_pending s1 ⊆ ast_pending s) as Hs1 by (rewrite E1; apply delete_subseteq).
  assert (∀ status body, status ≠ 200 →
    (r, s') = (Err (writeJSON status body) : result aresponse aresponse, s1) →
    ast_pending s' ⊆ ast_pending s ∧ ∀ id' code' rs' state' resp,
      Ok (id, code, rs, state) = Ok (E := string) (id', code', rs', state') →
      r = Ok resp ∨ r = Err resp → ar_status resp = 200 →
      ∃ g, ast_pending s !! id' = Some g ∧ redeemable rd name code' rs' state' g ∧
        ast_pending s' !! id' = None) as Hrefused.
  { intros status body Hne [= -> ->]. split; [done|]. by intros ????? _ [?|[= <-]]. }
  destruct (ast_pending s !! id) as [g|] eqn:Eg; [|by eapply Hrefused; [|symmetry; exact Hr]].
  destruct (_ || _) eqn:Eo; [by eapply Hrefused; [|symmetry; exact Hr]|].
  destruct (ou_complete _ _ _ _ _) as [result|] eqn:Ec; [|by eapply Hrefused; [|symmetry; exact Hr]].
  assert (ast_pending s' = ast_pending s1) as E2.
  { apply bind_inv in Hr as [(e & Hq & _)|(revision & s2 & Hq & Hr)];
      [by apply quiet_repository in Hq|].
    apply quiet_repository in Hq. apply quiet_answer in Hr. unfold pending_eq in *. congruence. }
  split; [by rewrite E2|]. intros id' code' rs' state' resp [= <- <- <- <-] _ _.
  exists g. split_bools. split; [done|]. split; [by split|]. rewrite E2, E1. apply lookup_delete_eq.
Qed.

(** ** Routes *)

(** What a request that was answered with [x] may do to the pending logins. *)
Definition pending_step (rd : areadings) (req : http_request) (x : result aresponse aresponse)
    (s s' : astate) : Prop :=
  ast_pending s' ⊆ ast_pending s ∨
  ∃ name g, routed req name "weblogin/start" ∧
    (∀ resp, x = Ok resp ∨ x = Err resp →
       begun rd req (ast_repository s) resp name (ad_token rd) g) ∧
    rq_Method req = "POST" ∧ ast_pending s' ⊆ <[ad_token rd := g]> (ast_pending s).

Lemma step_quiet rd req (m : AH aresponse) s r s' :
  Steps pending_eq m → m s = (r, s') → pending_step rd req r s s'.
Proof. intros Hm Hs. left. by rewrite (Hm _ _ _ Hs). Qed.

Ltac case_run :=
  match goal with |- (if ?b then _ else _) _ = _ → _ => destruct b eqn:? end.
Ltac quiet_handler :=
  apply step_quiet; first [apply _ | progress unfold removeSession, removeTrustedDevice,
    revealPassword, passwordAccounts, credentialStatus, probeProfileTLS, status, session, logout,
    changePassword, configureLocalAdministrator, revokeOtherSessions, approvals, audit,
    orphanSecrets; quiet_walk].

Lemma profile_pending rd req actor s r s' :
  HasPrefix (rq_Path req) "/admin/api/profiles/" = true →
  profile h net rd req actor s = (r, s') → pending_step rd req r s s'.
Proof.
  intros Hp. unfold profile. cbv zeta.
  destruct (PathUnescape _) as [name|] eqn:En; [|apply step_quiet; quiet_walk].
  repeat case_run.
  all: try solve [apply step_quiet; solve [quiet_walk] | quiet_handler].
  all: split_bools.
  - intros [E|(g & Hg & Hpost & Hs)]%start_pending; [left; by rewrite E|].
    right. by exists name, g.
  - intros [Hs _]%complete_pending. by left.
Qed.

Lemma serve_authenticated_pending rd req actor token s r s' :
  serveAuthenticated h net rd req actor token s = (r, s') → pending_step rd req r s s'.
Proof.
  unfold serveAuthenticated. cbv zeta. repeat case_run.
  all: try solve [apply step_quiet; solve [quiet_walk] | quiet_handler].
  by apply profile_pending.
Qed.

(** Behind the session: refused, or handed to the inner handler. *)
Lemma authenticated_inner inner rd req s x s' :
  authenticated inner rd req s = (x, s') →
  (ast_pending s' = ast_pending s ∧ ∃ resp, x = Err resp ∧ ar_status resp ≠ 200) ∨
  ∃ actor token r s1 s2 resp q, signed_in rd req (w_db (ast_repository s)) token r ∧
    idle rd req s s1 ∧ inner rd req actor token s1 = (q, s2) ∧
    (q = Ok resp ∨ q = Err resp) ∧ ast_pending s' = ast_pending s2 ∧ x = Ok resp.
Proof.
  unfold authenticated. cbv zeta. intros [(e & Hi & ->)|(identity & s0 & Hi & Hr)]%bind_inv.
  { exfalso. unfold authenticate in Hi. destruct (rq_Cookie _ _); [|done].
    destruct (bool_decide _); [done|]. apply bind_inv in Hi as [(? & Hq & _)|(? & ? & _ & ?)];
      [by apply on_repository_not_err in Hq|done]. }
  pose proof (quiet_identity _ _ _ _ _ Hi) as E0. unfold pending_eq in E0.
  destruct identity as [[actor token]|e].
  2:{ left. apply bind_inv in Hr as [(? & Hq & _)|(? & s1 & Hq & Hr)];
        [by apply append_audit_not_err in Hq|]. apply quiet_audit in Hq. unfold pending_eq in Hq.
      injection Hr as <- <-. split; [congruence|]. by eexists. }
  apply authenticate_inv in Hi as (-> & r & Hr' & ->).
  apply bind_inv in Hr as [(e & Hst & ->)|([] & s1 & Hst & Hr)].
  - left. destruct (is_mutation req); [|done].
    apply bind_inv in Hst as [(? & Hq & _)|(started & s1 & Hq & Hst)];
      [by apply append_audit_not_err in Hq|]. apply quiet_audit in Hq. unfold pending_eq in Hq.
    destruct (is_Ok started); [done|]. injection Hst as <- <-. split; [congruence|]. by eexists.
  - right. assert (idle rd req s s1) as E1.
    { revert Hst. destruct (is_mutation req); [|by intros [= <-]].
      intros (started & s2 & Hq & Hst)%bind_ok_inv. apply idle_append in Hq.
      destruct (is_Ok started); [|done]. by injection Hst as <-. }
    apply bind_inv in Hr as [(e & Hq & _)|(resp & s2 & Hq & Hr)]; [by apply caught_not_err in Hq|].
    assert (x = Ok resp ∧ ast_pending s' = ast_pending s2) as [-> E2].
    { destruct (bool_decide _); [by injection Hr as <- <-|].
      apply bind_inv in Hr as [(? & Hq2 & _)|(? & s3 & Hq2 & Hr)];
        [by apply append_audit_not_err in Hq2|]. apply quiet_audit in Hq2.
      by injection Hr as <- <-. }
    unfold caught in Hq. destruct (inner _ _ _ _ s1) as [q s3] eqn:Ei.
    exists (actor_of r), token, r, s1, s2, resp, q. rewrite Ei.
    split; [done|]. split; [done|]. destruct q; injection Hq as <- <-; auto 10.
Qed.

(** Before the session: refused, a page or a login, or let through. *)
Lemma dispatch_inner inner rd req s x s' :
  dispatch h inner rd req s = (x, s') →
  (ast_pending s' = ast_pending s ∧
    (HasPrefix (rq_Path req) "/admin/api/profiles/" = true →
     ∃ resp, x = Err resp ∧ ar_status resp ≠ 200)) ∨
  (is_mutation req = true → from_console h req) ∧ authenticated inner rd req s = (x, s').
Proof.
  unfold dispatch. cbv zeta. intros Hr.
  destruct (_ && (maxAdminBody <? _)); [injection Hr as <- <-; left; split; [done|]; by eexists|].
  destruct (_ && _ && _) eqn:Ev; [injection Hr as <- <-; left; split; [done|]; by eexists|].
  assert (∀ p, rq_Path req = p → HasPrefix p "/admin/api/profiles/" = false →
    HasPrefix (rq_Path req) "/admin/api/profiles/" = true → ∃ resp, x = Err resp ∧ ar_status resp ≠ 200)
    as Hno by (intros p -> ->; done).
  revert Hr. repeat case_run; split_bools.
  all: try solve [intros Hr; left; split; [|by eapply Hno];
    first [by injection Hr as _ <- | by apply quiet_setup_status in Hr | by apply quiet_setup in Hr
      | by apply quiet_login in Hr | by apply quiet_dsm_login in Hr]].
  all: intros Hr; try (left; injection Hr as <- <-; split; [done|]; by eexists).
  { injection Hr as _ <-. left. split; [done|].
    match goal with Ho : _ || _ = true |- _ => apply orb_true_elim in Ho as [?|?] end;
      split_bools; by eapply Hno. }
  right. split; [|done]. intros Hm. rewrite Hm in Ev.
  match goal with Hp : HasPrefix _ _ = true |- _ => rewrite Hp in Ev end. cbn in Ev.
  destruct (validateBrowserMutation h req) as [[]|] eqn:E; [|done].
  by apply validated_from_console.
Qed.

Lemma serve_profiles rd req actor token :
  HasPrefix (rq_Path req) "/admin/api/profiles/" = true →
  serveAuthenticated h net rd req actor token = profile h net rd req actor.
Proof.
  intros [rest Ht]%HasPrefix_inv. unfold serveAuthenticated. rewrite Ht. cbv zeta.
  repeat rewrite bool_decide_eq_false_2 by done. cbn [orb].
  rewrite (HasPrefix_app "/admin/api/profiles/"). reflexivity.
Qed.

Lemma profile_completes rd req actor name :
  routed req name "weblogin/complete" →
  profile h net rd req actor = completeWebLogin net rd req name.
Proof.
  intros (_ & Hne & Hn & Ha). unfold profile. cbv zeta in *. rewrite Hn, Ha.
  rewrite bool_decide_eq_false_2 by done. reflexivity.
Qed.

(** An administrator began the enrolment [g] from a page of the console, and was answered
    with its identifier. *)
Definition started_login (rd : areadings) (req : http_request) (s : astate) (resp : aresponse)
    (name id : string) (g : pendingEnrollment) : Prop :=
  routed req name "weblogin/start" ∧ rq_Method req = "POST" ∧ from_console h req ∧
  begun rd req (ast_repository s) resp name id g ∧
  ∃ token r, signed_in rd req (w_db (ast_repository s)) token r.

Lemma serve_pending rd req s resp s' :
  ServeHTTP h net rd req s = (resp, s') →
  ast_pending s' ⊆ ast_pending s ∨
  ∃ id g, (∃ name, started_login rd req s resp name id g) ∧
    ast_pending s' ⊆ <[id := g]> (ast_pending s).
Proof.
  unfold ServeHTTP. destruct (dispatch _ _ _ _ s) as [x s1] eqn:Ed. intros Hr.
  assert (s1 = s' ∧ (x = Ok resp ∨ x = Err resp)) as [-> Hx] by (destruct x; injection Hr as -> ->; auto).
  clear Hr. apply dispatch_inner in Ed as [[E _]|[Hc Ed]]; [left; by rewrite E|].
  apply authenticated_inner in Ed as
    [[E _]|(actor & token & se & s1 & s2 & resp' & q & Hsi & Hs1 & Hin & Hq & E2 & ->)];
    [left; by rewrite E|].
  destruct Hx as [[= ->]|]; [|done]. apply serve_authenticated_pending in Hin.
  unfold pending_step in Hin. rewrite (il_pending _ _ _ _ Hs1), <- E2 in Hin.
  destruct Hin as [?|(name & g & Hrt & Hb & Hpost & Hs)]; [by left|].
  right. exists (ad_token rd), g. split; [|done]. exists name. split; [done|]. split; [done|].
  split; [apply Hc; unfold is_mutation; by rewrite Hpost|]. split; [|by exists token, se].
  destruct (Hb resp Hq) as (? & ? & ? & profile & nas & page & url & nonce & Hpr & ?).
  split_and!; [done..|]. exists profile, nas, page, url, nonce. split; [|done].
  destruct (il_repository _ _ _ _ Hs1) as [[] _]. by eapply profile_of_same.
Qed.

Lemma serve_completion rd req s r s' name id code rs state :
  ServeHTTP h net rd req s = (r, s') → routed req name "weblogin/complete" →
  completion req id code rs state → ar_status r = 200 →
  ∃ g, ast_pending s !! id = Some g ∧ redeemable rd name code rs state g ∧
    ast_pending s' !! id = None.
Proof.
  unfold ServeHTTP. destruct (dispatch _ _ _ _ s) as [x s1] eqn:Ed. intros Hr Hrt Hc Hst.
  assert (s1 = s' ∧ (x = Ok r ∨ x = Err r)) as [-> Hx] by (destruct x; injection Hr as -> ->; auto).
  clear Hr. pose proof Hrt as (Hp & _).
  apply dispatch_inner in Ed as [[_ Hno]|[_ Ed]].
  { destruct (Hno Hp) as (resp & -> & ?). destruct Hx as [|[= ->]]; [done|congruence]. }
  apply authenticated_inner in Ed as
    [[_ (resp & -> & ?)]|(actor & token & se & s1 & s2 & resp & q & _ & E1 & Hin & Hq & E2 & ->)].
  { destruct Hx as [|[= ->]]; [done|congruence]. }
  destruct Hx as [[= ->]|]; [|done].
  rewrite serve_profiles, (profile_completes _ _ _ name) in Hin by done.
  apply complete_pending in Hin as [_ Hin].
  destruct (Hin _ _ _ _ _ Hc Hq Hst) as (g & Hg & ? & ?). exists g. by rewrite <- (il_pending _ _ _ _ E1), E2.
Qed.

(** ** Web logins as tickets *)

End tickets.

Section console.
Context `{Unicode, NetURL, Sha256, Argon2, TimeText, KeyN, HMAC, PayloadText, AEAD,
  Codec TrustedDevice, Codec SessionCredential, X509, RFC3339, Peers}.
Context (h : Handler).

(** One request, with its readings and with what the world outside answers it. *)
Record call := { cl_reading : areadings; cl_outside : outside; cl_request : http_request }.

Definition console : server := {|
  sv_serve := fun x s => ServeHTTP h (cl_outside x) (cl_reading x) (cl_request x) s;
  sv_pending := ast_pending |}.

Definition completed (x : call) (r : aresponse) (id : string) : Prop :=
  ∃ name code rs state, routed (cl_request x) name "weblogin/complete" ∧
    completion (cl_request x) id code rs state ∧ ar_status r = 200.

Lemma web_logins_single_use : SingleUse console
  (fun x r id g s => ∃ name,
     started_login h (cl_outside x) (cl_reading x) (cl_request x) s r name id g) completed
  (fun x _ g => ∀ name id code rs state, routed (cl_request x) name "weblogin/complete" →
     completion (cl_request x) id code rs state →
     redeemable (cl_outside x) (cl_reading x) name code rs state g).
Proof.
  split.
  - intros [rd net req] s r s' Hs. by apply (serve_pending h net rd req s r s').
  - intros [rd net req] s r s' id Hs (name & code & rs & state & Hrt & Hc & Hst).
    destruct (serve_completion h net rd req s r s' name id code rs state Hs Hrt Hc Hst)
      as (g & Hg & Hred & Hn). exists g. split; [done|]. split; [|done].
    intros name' id' code' rs' state' (_ & _ & Hn' & _) Hc'. cbn in *.
    destruct Hrt as (_ & _ & Hn'' & _). unfold completion in Hc, Hc'. cbv zeta in *. cbn in *.
    rewrite Hn'' in Hn'. rewrite Hc in Hc'. by simplify_eq.
Qed.
End console.

(** C32: a web login signs the gateway in at most once, for the NAS it was started for and
    within five minutes.  In every history that starts without pending web logins, a
    completion that is answered with success follows a start of the same profile, sent from
    a page of the console by a signed-in administrator and answered with that identifier
    (with nothing, should the stored URL not parse); the start began the exchange with the
    NAS that the repository held under the name of the profile, at its stored URL, for this
    console's page; at most five minutes lie between them; DSM took the code in the exchange
    that this start began; and no completion of the identifier in between was answered with
    success. *)
Theorem web_login_single_use
    `{Unicode, NetURL, Sha256, Argon2, TimeText, KeyN, HMAC, PayloadText, AEAD,
      Codec TrustedDevice, Codec SessionCredential, X509, RFC3339, Peers}
    h s l j rd net req name id code rs state resp :
  ast_pending s = ∅ →
  l !! j = Some {| cl_reading := rd; cl_outside := net; cl_request := req |} →
  run (console h) s l !! j = Some resp → routed req name "weblogin/complete" →
  completion req id code rs state → ar_status resp = 200 →
  ∃ i rd' net' req' resp' profile nas page enrollment url nonce, (i < j)%nat ∧
    l !! i = Some {| cl_reading := rd'; cl_outside := net'; cl_request := req' |} ∧
    run (console h) s l !! i = Some resp' ∧
    routed req' name "weblogin/start" ∧ rq_Method req' = "POST" ∧ from_console h req' ∧
    let w := ast_repository (run_state (console h) s (take i l)) in
    (∃ token r, signed_in rd' req' (w_db w) token r) ∧
    (is_Some (url_Parse (pf_URL profile)) → handed_out resp' id url nonce) ∧
    ad_now rd ≤ ad_now rd' + enrollmentTTL ∧
    profile_of (rq_Context req') w name profile nas ∧ opener h req' = Some page ∧
    ou_begin net' nas (pf_URL profile) (page +:+ "/admin/") = Ok (enrollment, url, nonce) ∧
    is_Some (ou_complete net enrollment code rs state) ∧
    ∀ k rd2 net2 req2 name2 code2 rs2 state2 resp2, (i < k < j)%nat →
      l !! k = Some {| cl_reading := rd2; cl_outside := net2; cl_request := req2 |} →
      routed req2 name2 "weblogin/complete" → completion req2 id code2 rs2 state2 →
      run (console h) s l !! k = Some resp2 → ar_status resp2 ≠ 200.
Proof.
  intros Hs Hl Hr Hrt Hc Hst. pose proof (web_logins_single_use h) as Hsu.
  destruct (redeemed_once (console h) _ _ _ s l j _ resp id Hs Hl Hr)
    as (g & i & Hh & Hi & ([rd' net' req'] & resp' & Hli & Hri & (name' & Hrt' & Hp & Hcon & Hb & Hsi)) & Hno);
    [by exists name, code, rs, state|].
  destruct (Hh _ _ _ _ _ Hrt Hc) as (Hn & Ht & Hok). cbn in *.
  destruct Hb as (Hid & Hpn & He & profile & nas & page & url & nonce & Hpr & Hop & Hbegin & Hout).
  assert (name' = name) as -> by congruence.
  exists i, rd', net', req', resp', profile, nas, page, (pe_Enrollment g), url, nonce.
  split_and!; try done; [by rewrite <- He|].
  intros k rd2 net2 req2 name2 code2 rs2 state2 resp2 Hk Hlk Hrt2 Hc2 Hr2 Hst2. apply (Hno k Hk).
  eexists _, resp2. split_and!; [done..|]. by exists name2, code2, rs2, state2.
Qed.

(** ** A history: a start, its completion, and the same completion again *)

Definition start_request : http_request :=
  console_request "POST" "/admin/api/profiles/nas1/weblogin/start" [].
Definition complete_request : http_request :=
  console_request "POST" "/admin/api/profiles/nas1/weblogin/complete"
    [("enrollment_id", JString "e1"); ("code", JString "code"); ("rs", JString "rs");
     ("state", JString "nonce")].
Definition console_call (now : Z) (rid : string) (req : http_request) : call :=
  {| cl_reading := console_reading now rid; cl_outside := console_net; cl_request := req |}.
Definition login_history : list call :=
  [console_call 1000 "e1" start_request; console_call 2000 "x1" complete_request;
   console_call 3000 "x2" complete_request].
Definition sample_console : server :=
  @console ascii_tables nas_urls id_sha256 no_hash one_time keyN_committed plain_mac no_payload
    plain_aead no_device no_session trusting undated nas_peer console_handler.

Definition url_of (r : Prelude.result error Profile) : string :=
  match r with Ok p => pf_URL p | Err _ => "" end.

Lemma web_login_single_use_witness :
  ar_status <$> run sample_console console_state login_history = [201; 200; 410] ∧
  ∃ i resp profile nas url nonce, (i < 1)%nat ∧
    run sample_console console_state login_history !! i = Some resp ∧
    handed_out resp "e1" url nonce ∧ pf_URL profile = "https://nas1:5001" ∧
    ou_begin console_net nas (pf_URL profile) "https://gw/admin/" = Ok (7%nat, url, nonce).
Proof.
  split; [vm_compute; reflexivity|].
  assert (∃ resp, run sample_console console_state login_history !! 1%nat = Some resp ∧
    ar_status resp = 200) as (resp & Hr & Hst) by (eexists; split; vm_compute; reflexivity).
  assert (routed complete_request "nas1" "weblogin/complete") as Hrt
    by (unfold routed; cbv zeta; split_and!; [vm_compute; reflexivity|discriminate
        |vm_compute; reflexivity..]).
  assert (@completion ascii_tables complete_request "e1" "code" "rs" "nonce") as Hc
    by (vm_compute; reflexivity).
  destruct (@web_login_single_use ascii_tables nas_urls id_sha256 no_hash one_time keyN_committed
    plain_mac no_payload plain_aead no_device no_session trusting undated nas_peer
    console_handler console_state login_history 1 (console_reading 2000 "x1") console_net
    complete_request "nas1" "e1" "code" "rs" "nonce" resp eq_refl eq_refl Hr Hrt Hc Hst)
    as (i & rd' & net' & req' & resp' & profile & nas & page & enrollment & url & nonce & Hi & Hli &
        Hri & _ & _ & _ & _ & Hout & _ & Hpr & Hpage & Hbegin & _).
  assert (i = 0%nat) as -> by lia. injection Hli as <- <- <-.
  assert (pf_URL profile = "https://nas1:5001") as Hurl.
  { destruct Hpr as [Hpr _]. apply (f_equal url_of) in Hpr. cbn [url_of] in Hpr. rewrite <- Hpr.
    vm_compute. reflexivity. }
  assert (page = "https://gw") as ->.
  { assert (Some page = Some "https://gw") as E by (rewrite <- Hpage; vm_compute; reflexivity).
    injection E as ->. reflexivity. }
  exists 0%nat, resp', profile, nas, url, nonce.
  split; [lia|]. split; [exact Hri|]. split; [|split; [exact Hurl|]].
  - apply Hout. eexists. reflexivity.
  - cbn in Hbegin. injection Hbegin as <- <- <-. reflexivity.
Defined.
