(* ===== verification/RemoteApply.v ===== *)
(** * The service behind the gateway

    The application service over the gateway's own repository, and what an apply of a
    remote client establishes before it hands anything to the DSM client.  [calm Q] and
    [manager_promise Q] are stated for the requests [Q] of one domain that change the NAS. *)

From S2P Require Import Prelude.
From S2P Require Import GoStrings.
From S2P Require Import Bolt.
From S2P Require Import NetIP.
From S2P Require Import RemotePolicy.
From S2P Require Import Compat.
From S2P Require Import Json.
From S2P Require Import DsmErrors.
From S2P Require Import DsmClient.
From S2P Require Import DsmThms.
From S2P Require Import DsmWire.
From S2P Require Import DsmOps.
From S2P Require Import Config.
From S2P Require Import Service.
From S2P Require Import StateTypes.
From S2P Require Import Records.
From S2P Require Import Policy.
From S2P Require Import Repository.
From S2P Require Import Vault.
From S2P Require Import Samples.
From S2P Require Import PolicyThms.

(** The service of the gateway: profiles and apply secrets from the repository, whose
    [AdmitRemoteApply] is the remote authorizer, with the clocks and the random ids of this
    apply. *)
Definition gateway_service `{Unicode, NetURL, KeyN, AEAD} {W : Type}
    (client : context → string → ST (gworld * dstate W) service_error string)
    (auditFailure : option error) (now wall : Z) (rid1 rid2 : string) : Service gworld W := {|
  sv_configSource := Snapshot;
  sv_remoteApply := Some (fun ctx tokenID nas revision hash risk =>
    AdmitRemoteApply ctx auditFailure tokenID nas revision hash risk now wall rid1 rid2);
  sv_secretReferences := ResolveSecret;
  sv_Client := client
|}.

(** A step of the service that sends nothing satisfying [Q]. *)
Definition calm {W} (Q : Post → Prop) (d d' : dstate W) : Prop :=
  ∃ l, dc_log d' = dc_log d ++ l ∧ Forall (fun x => ¬ Q x.1) l.

(** What the manager promises: handing out a client sends no such request and leaves the
    gateway's state alone. *)
Definition manager_promise {G W} (Q : Post → Prop) (srv : Service G W) : Prop :=
  ∀ ctx name g d r g' d', sv_Client srv ctx name (g, d) = (r, (g', d')) →
    g' = g ∧ calm Q d d'.

Section calm.
Context {W : Type} (Q : Post → Prop).

Lemma calm_refl (d : dstate W) : calm Q d d.
Proof. exists []. rewrite app_nil_r. split; [done|constructor]. Qed.

Lemma calm_trans (d1 d2 d3 : dstate W) : calm Q d1 d2 → calm Q d2 d3 → calm Q d1 d3.
Proof.
  intros (l & Hl & Hq) (l' & Hl' & Hq'). exists (l ++ l').
  split; [by rewrite Hl', Hl, app_assoc|]. by apply Forall_app.
Qed.

(** The changes between two states are the calls, and there were no others. *)
Definition sends_only (calls : list Request) (d d' : dstate W) : Prop :=
  ∃ l, dc_log d' = dc_log d ++ l ∧
    Forall (fun x => Q x.1 → changes_by calls x.1) l.

Lemma sends_calm calls d1 d2 d3 :
  sends_only calls d1 d2 → calm Q d2 d3 → sends_only calls d1 d3.
Proof.
  intros (l & Hl & HP) (l' & Hl' & HQ). exists (l ++ l').
  split; [by rewrite Hl', Hl, app_assoc|]. apply Forall_app. split; [done|].
  eapply Forall_impl; [exact HQ|]. by intros x Hn Hw.
Qed.
End calm.

Section remote.
Context `{Unicode, NetURL} {G W : Type} (srv : Service G W).

(** The caller's token, of the apply scope and this NAS, was admitted for this plan at the
    revision of the profile. *)
Definition admitted (ctx : context) (principal : Principal) (nas : string) (revision : Z)
    (hash risk : string) (g g' : G) : Prop :=
  ∃ remote g1 cfg profile,
    sv_remoteApply srv = Some remote ∧
    HasScope principal ScopeApply = true ∧ AllowsNAS principal nas = true ∧
    remote ctx (pp_TokenID principal) nas revision hash risk g = (Ok (), g1) ∧
    sv_configSource srv ctx g1 = (Ok cfg, g') ∧
    cf_NAS cfg !! nas = Some profile ∧
    np_Revision profile = revision.

Lemma on_gateway_ok {A} (m : ST G error A) g d a s' :
  @on_gateway G W A m (g, d) = (Ok a, s') → ∃ g', m g = (Ok a, g') ∧ s' = (g', d).
Proof. unfold on_gateway. destruct (m g) as [[] g']; intros; simplify_eq. eauto. Qed.

Lemma on_gateway_err {A} (m : ST G error A) g d e s' :
  @on_gateway G W A m (g, d) = (Err e, s') → s'.2 = d.
Proof. unfold on_gateway. destruct (m g) as [[] g']; intros; by simplify_eq. Qed.

Lemma authorizeRemoteApply_ok ctx principal nas revision hash risk g (d : dstate W) u s' :
  PrincipalFromContext ctx = Some principal →
  authorizeRemoteApply srv ctx nas revision hash risk (g, d) = (Ok u, s') →
  ∃ remote g1, sv_remoteApply srv = Some remote ∧
    HasScope principal ScopeApply = true ∧ AllowsNAS principal nas = true ∧
    remote ctx (pp_TokenID principal) nas revision hash risk g = (Ok (), g1) ∧ s' = (g1, d).
Proof.
  unfold authorizeRemoteApply. intros ->.
  destruct (sv_remoteApply srv) as [remote|]; [|done]. intros Hr. st_inv. split_bools.
  match goal with Ho : on_gateway _ _ = _ |- _ => apply on_gateway_ok in Ho as (g1 & Ho & ->) end.
  destruct u. eauto 10.
Qed.

Lemma authorizeRemoteApply_err ctx nas revision hash risk g (d : dstate W) e s' :
  authorizeRemoteApply srv ctx nas revision hash risk (g, d) = (Err e, s') → s'.2 = d.
Proof.
  unfold authorizeRemoteApply. destruct (PrincipalFromContext ctx); [|done].
  destruct (sv_remoteApply srv); [|by intros [= <- <-]].
  intros [Hc|(u & s1 & Hc & Hr)]%bind_err_inv.
  - apply check_err_inv in Hc as (_ & _ & ->). done.
  - apply check_ok_inv in Hc as [_ ->]. by eapply on_gateway_err.
Qed.

Lemma verifyProfileRevision_inv ctx name planned g (d : dstate W) r s' :
  verifyProfileRevision srv ctx name planned (g, d) = (r, s') →
  s'.2 = d ∧ (is_Ok r = true → ∃ cfg profile,
    sv_configSource srv ctx g = (Ok cfg, s'.1) ∧ cf_NAS cfg !! name = Some profile ∧
    np_Revision profile = planned).
Proof.
  unfold verifyProfileRevision, profileRevision, configSnapshot.
  unfold mbind, ST_bind, on_gateway.
  destruct (sv_configSource srv ctx g) as [[cfg|e] g1]; [|by intros [= <- <-]].
  destruct (cf_NAS cfg !! name) as [profile|] eqn:En; [|by intros [= <- <-]]. cbn.
  unfold check. destruct (Z.eqb_spec (np_Revision profile) planned); cbn; intros [= <- <-];
    (split; [done|]); [|done]. intros _. by exists cfg, profile.
Qed.

(** The two checks of an apply, before anything is read from the NAS. *)
Lemma admission_inv {B} ctx principal nas revision hash risk (k : ST (G * dstate W) service_error B)
    g (d : dstate W) r g' d' :
  PrincipalFromContext ctx = Some principal →
  (authorizeRemoteApply srv ctx nas revision hash risk;;
   verifyProfileRevision srv ctx nas revision;; k) (g, d) = (r, (g', d')) →
  d' = d ∧ is_Ok r = false ∨
  ∃ g1, admitted ctx principal nas revision hash risk g g1 ∧ k (g1, d) = (r, (g', d')).
Proof.
  intros Hp Hr. apply bind_inv in Hr as [(e & Ha & ->)|([] & s2 & Ha & Hr)].
  { apply authorizeRemoteApply_err in Ha. cbn in Ha. by left. }
  eapply authorizeRemoteApply_ok in Ha as (remote & g1 & Hs & Hsc & Hn & Ha & ->); [|done].
  apply bind_inv in Hr as [(e & Hv & ->)|([] & [g2 d2] & Hv & Hr)];
    apply verifyProfileRevision_inv in Hv as [Hd Hrev]; cbn in Hd; subst; [by left|].
  destruct (Hrev eq_refl) as (cfg & profile & Hcfg & Hprof & Heq).
  right. exists g2. split; [|done]. exists remote, g1, cfg, profile. auto 10.
Qed.
End remote.

Lemma Snapshot_state `{Unicode} ctx (g : gworld) r g' : Snapshot ctx g = (r, g') → g' = g.
Proof.
  unfold Snapshot, Profiles, ctx_check, View.
  intros [(e & Hp & _)|(l & g1 & Hp & [= _ <-])]%bind_inv;
    apply bind_inv in Hp as [(e' & Hc & _)|(u & g2 & Hc & Hv)];
    destruct (ctx_Err ctx); unfold fail, mret, ST_ret in *; by simplify_eq.
Qed.

(** The admission behind the gateway, as an apply sees it. *)
Lemma gateway_admission `{Unicode, NetURL, KeyN, AEAD} {W : Type}
    (client : context → string → ST (gworld * dstate W) service_error string)
    auditFailure now wall rid1 rid2 ctx principal nas revision hash risk g g' :
  admitted (gateway_service client auditFailure now wall rid1 rid2) ctx principal nas revision
    hash risk g g' →
  ∃ token, apply_authorised (w_db g) (pp_TokenID principal) nas revision now token ∧
    (EqualFold risk "high" = true →
     admitted_by_approval g g' (pp_TokenID principal) nas revision hash now ∨
     admitted_by_grant g g' ctx (pp_TokenID principal) nas revision hash).
Proof.
  intros (remote & g1 & cfg & profile & [= <-] & _ & _ & Hok & Hcfg & _ & _).
  apply Snapshot_state in Hcfg as ->.
  apply admit_inv in Hok as (_ & _ & token & Hauth & Hrisk). exists token. split; [done|].
  intros Hhigh. rewrite Hhigh in Hrisk. destruct Hrisk as [?|[_ ?]]; auto.
Qed.

(** No URL parses; the samples' admission reads none. *)
Definition no_urls : NetURL :=
  {| url_Parse := fun _ => None; url_ParseRequestURI := fun _ => None |}.

(** A manager that puts no client in place: the one of the state is the NAS's. *)
Definition sample_manager (ctx : context) (name : string) :
    ST (gworld * dstate (list answer)) service_error string := mret name.

(** A remote request under the sample token. *)
Definition remote_principal : Principal :=
  {| pp_TokenID := "t1"; pp_Name := "client"; pp_ApprovalMode := ApprovalModeAdministrator;
     pp_Scopes := {[ ScopeApply; ScopePlan ]}; pp_NAS := {[ "nas1" ]} |}.
Definition remote_context : context := WithPrincipal Background remote_principal.

(** The sample database, whose one approval is for a plan of this hash. *)
Definition approved_world (hash : string) : gworld :=
  World (set_b_approvals {[ "a1" := Json {|
    ap_ID := "a1"; ap_PlanHash := hash; ap_NAS := "nas1";
    ap_ProfileRevision := 3; ap_RequestingTokenID := "t1"; ap_Administrator := "root";
    ap_CreatedAt := 0; ap_ExpiresAt := 10 * Minute; ap_ConsumedAt := None |} ]} sample_db) ∅.
