(* ===== verification/FirewallRemote.v ===== *)
(** * Remote firewall changes: the gateway's admission before the wire

    What a remote apply establishes before its first write: the approval hash, the
    admission, the profile revision and the risk that the NAS's state gives the change. *)

From S2P Require Import Prelude.
From S2P Require Import GoStrings.
From S2P Require Import Bolt.
From S2P Require Import NetIP.
From S2P Require Import Firewall.
From S2P Require Import RemotePolicy.
From S2P Require Import Compat.
From S2P Require Import Json.
From S2P Require Import DsmErrors.
From S2P Require Import DsmClient.
From S2P Require Import DsmThms.
From S2P Require Import FirewallWire.
From S2P Require Import FirewallOps.
From S2P Require Import Config.
From S2P Require Import Service.
From S2P Require Import FirewallPlan.
From S2P Require Import FirewallPlanThms.
From S2P Require Import StateTypes.
From S2P Require Import Records.
From S2P Require Import Policy.
From S2P Require Import Repository.
From S2P Require Import Vault.
From S2P Require Import Samples.
From S2P Require Import PolicyThms.
From S2P Require Import RemoteApply.

(** Two plans of different content that have one hash. *)
Definition collides `{PlanHash} (p q : FirewallProfilePlan) : Prop :=
  let content x := set_fpl_Revision_Hash (fpl_ProfileRevision q) "" x in
  content p ≠ content q ∧
  hashJSON (HProfilePlan (content p)) = hashJSON (HProfilePlan (content q)).

Section remote.
Context `{Unicode, NetURL, PlanHash} {W : Type} `{Network W} {G : Type} (srv : Service G W).

(** ** Hashes bind plans *)

Lemma validate_plan_ok plan approvalHash u :
  validateFirewallProfilePlan plan approvalHash = Ok u →
  approvalHash = fpl_Hash plan ∧ firewallProfilePlanHash plan = fpl_Hash plan.
Proof.
  unfold validateFirewallProfilePlan. destruct (_ || _) eqn:E1; [done|].
  destruct (_ || _) in |- *; [done|].
  destruct (validateFirewallProfileShape _); cbn; [|done].
  destruct (bool_decide (hashJSON _ = _)); cbn; [|discriminate].
  destruct (bool_decide (firewallProfilePlanHash _ = _)) eqn:E2; cbn; [|discriminate].
  intros _. split_bools. auto.
Qed.

(** The plan that the NAS's state gives has the risk of the approved plan, or collides
    with it. *)
Lemma same_plan_risk current plan :
  same_plan current plan → firewallProfilePlanHash plan = fpl_Hash plan →
  collides current plan ∨ fpl_Risk current = fpl_Risk plan.
Proof.
  intros [_ Hh] Hp. rewrite <- Hp in Hh. unfold collides. cbv zeta.
  destruct (decide (fpl_Risk current = fpl_Risk plan)) as [|Hr]; [by right|left].
  split; [by intros Hc%(f_equal fpl_Risk)|]. by destruct current.
Qed.

(** ** The order of the checks *)

Abbreviation quiet_step := (calm firewall_write).

(** What the service establishes before it hands the plan to the client. *)
Lemma apply_remote_inv ctx principal plan approvalHash g d r g' d' :
  manager_promise firewall_write srv → PrincipalFromContext ctx = Some principal →
  ApplyFirewallProfilePlan srv ctx plan approvalHash (g, d) = (r, (g', d')) →
  quiet_step d d' ∨
  approvalHash = fpl_Hash plan ∧ firewallProfilePlanHash plan = fpl_Hash plan ∧
  admitted srv ctx principal (fpl_NAS plan) (fpl_ProfileRevision plan) (fpl_Hash plan)
    (fpl_Risk plan) g g' ∧
  ∃ d1 r1, quiet_step d d1 ∧ applyFirewallProfileWithClient plan d1 = (r1, d').
Proof.
  intros Hm Hp. unfold ApplyFirewallProfilePlan.
  destruct (validateFirewallProfilePlan plan approvalHash) as [[]|e] eqn:Ev.
  2:{ intros [= <- <- <-]. left. apply calm_refl. }
  apply validate_plan_ok in Ev as [Hh Hc].
  intros [(e & [=] & _)|([] & s1 & [= <-] & Hr)]%bind_inv.
  eapply admission_inv in Hr as [[-> _]|(g1 & Hadm & Hr)]; [left; apply calm_refl| |done].
  apply bind_inv in Hr as [(e & Hv' & _)|(name & [g4 d4] & Hv' & Hr)];
    apply Hm in Hv' as [-> Hcalm]; [by left|].
  apply bind_inv in Hr as [(e & Hk & _)|([] & s5 & Hk & Hr)].
  { apply check_err_inv in Hk as (_ & _ & [= -> ->]). by left. }
  apply check_ok_inv in Hk as [_ ->]. right. revert Hr. unfold on_client. destruct (applyFirewallProfileWithClient plan d4) as [[a|e] d5] eqn:E;
    intros [= <- <- <-]; eauto 10.
Qed.

(** Beyond the calls that establish it, an apply writes only after its plan. *)
Lemma apply_client_inv plan d r d' :
  applyFirewallProfileWithClient plan d = (r, d') →
  quiet_step d d' ∨ ∃ current d1,
    planFirewallProfileWithClient (fpl_NAS plan) (fpl_Request plan) d = (Ok current, d1) ∧
    same_plan current plan.
Proof.
  intros (l & Hl & [Hq|(current & d1 & fresh & Hp & Hs & _)])%apply_profile_sends.
  - left. by exists l.
  - right. eauto.
Qed.

End remote.

(** C1: a remote firewall change reaches the wire only when the gateway admitted it.  A
    remote apply of a profile plan sends no firewall write, or the approval hash is the
    plan's, the token of the caller was active with the nas.apply scope and this NAS at
    exactly the planned revision, and the NAS's current state gave the approved plan again.
    If that change takes effect, then, whatever risk the caller put into the plan, it used up
    an administrator's approval of this hash or the interactive grant of this session;
    the only escape is a plan that collides with the current one under the hash. *)
Theorem remote_firewall_write_admitted `{Unicode, NetURL, KeyN, AEAD, PlanHash} {W : Type}
    `{Network W} client auditFailure now wall rid1 rid2 ctx principal plan approvalHash
    (g : gworld) (d : dstate W) r g' d' :
  let srv := gateway_service client auditFailure now wall rid1 rid2 in
  let tokenID := pp_TokenID principal in
  let nas := fpl_NAS plan in
  let revision := fpl_ProfileRevision plan in
  manager_promise firewall_write srv → PrincipalFromContext ctx = Some principal →
  ApplyFirewallProfilePlan srv ctx plan approvalHash (g, d) = (r, (g', d')) →
  calm firewall_write d d' ∨
  approvalHash = fpl_Hash plan ∧
  (∃ token, apply_authorised (w_db g) tokenID nas revision now token) ∧
  ∃ d1 current d2, calm firewall_write d d1 ∧
    planFirewallProfileWithClient nas (fpl_Request plan) d1 = (Ok current, d2) ∧
    same_plan current plan ∧
    (fpl_TakesEffect current = true →
     collides current plan ∨
     admitted_by_approval g g' tokenID nas revision (fpl_Hash plan) now ∨
     admitted_by_grant g g' ctx tokenID nas revision (fpl_Hash plan)).
Proof.
  intros srv tokenID nas revision Hm Hp Ha.
  destruct (apply_remote_inv srv _ _ _ _ _ _ _ _ _ Hm Hp Ha)
    as [?|(Hh & Hc & Hadm & d1 & r1 & Hcalm & Hr)]; [by left|].
  apply apply_client_inv in Hr as [Hq|(current & d2 & Hplan & Hsame)].
  { left. by eapply calm_trans. }
  right. split; [done|].
  apply gateway_admission in Hadm as (token & Hauth & Hrisk).
  split; [by exists token|]. exists d1, current, d2. do 3 (split; [done|]). intros Ht.
  destruct (same_plan_risk _ _ Hsame Hc) as [|He]; [by left|right].
  apply plan_sound in Hplan as Hpl. rewrite <- He, (pl_Risk _ _ _ Hpl Ht) in Hrisk.
  by apply Hrisk.
Qed.

(** An administrator approved the sample plan. *)
Definition profile_world : gworld := approved_world "profile custom high".

(** Applying the sample plan over the approved world. *)
Definition sample_run :
    result service_error FirewallApplyResult * (gworld * dstate (list answer)) :=
  @ApplyFirewallProfilePlan ascii_tables clear_hash _ script_world _
    (@gateway_service ascii_tables no_urls keyN_committed plain_aead _ sample_manager None Minute Minute "e1" "e2")
    remote_context sample_plan "profile custom high"
    (profile_world, firewall_state apply_script).

(** The approved plan is applied and its approval used up. *)
Lemma remote_firewall_write_admitted_witness :
  let P := clear_hash in
  is_Ok sample_run.1 = true ∧
  (calm firewall_write (firewall_state apply_script) sample_run.2.2 ∨
   (∃ token, apply_authorised (w_db profile_world) "t1" "nas1" 3 Minute token) ∧
   ∃ current, fpl_TakesEffect current = true →
     collides current sample_plan ∨
     admitted_by_approval profile_world sample_run.2.1 "t1" "nas1" 3 "profile custom high" Minute ∨
     admitted_by_grant profile_world sample_run.2.1 remote_context "t1" "nas1" 3
       "profile custom high").
Proof.
  cbv zeta. split; [vm_compute; reflexivity|].
  assert (fpl_NAS sample_plan = "nas1" ∧ fpl_ProfileRevision sample_plan = 3 ∧
          fpl_Hash sample_plan = "profile custom high") as (Hn & Hr & Hh) by (vm_compute; auto).
  destruct (@remote_firewall_write_admitted ascii_tables no_urls keyN_committed plain_aead clear_hash _
    script_world sample_manager None Minute Minute "e1" "e2" remote_context
    remote_principal sample_plan "profile custom high"
    profile_world (firewall_state apply_script) sample_run.1 sample_run.2.1 sample_run.2.2)
    as [Hc|(_ & Ht & _ & current & _ & _ & _ & _ & Hw)].
  - intros ctx name g d r g' d' [= <- <- <-]. split; [done|]. apply calm_refl.
  - reflexivity.
  - fold sample_run. by destruct sample_run as [? []].
  - by left.
  - rewrite Hn, Hr, Hh in *. right. split; [exact Ht|]. by exists current.
Defined.
