(* ===== verification/ManagementRemote.v ===== *)
(** * Remote changes of accounts and shared folders: the admission before the wire

    [still Q m]: every run of the service's step [m] leaves the gateway's state alone and
    sends no request satisfying [Q].  A plan is still; an apply is, up to the change it
    admits. *)

From S2P Require Import Prelude.
From S2P Require Import GoStrings.
From S2P Require Import Bolt.
From S2P Require Import NetIP.
From S2P Require Import RemotePolicy.
From S2P Require Import Compat.
From S2P Require Import Json.
From S2P Require Import DsmErrors.
From S2P Require Import DsmClient.
From S2P Require Import DsmThms.
From S2P Require Import DsmWire.
From S2P Require Import DsmOps.
From S2P Require Import Identity.
From S2P Require Import IdentityWire.
From S2P Require Import IdentityOps.
From S2P Require Import ShareWire.
From S2P Require Import ShareOps.
From S2P Require Import Config.
From S2P Require Import Service.
From S2P Require Import Management.
From S2P Require Import ManagementWire.
From S2P Require Import ManagementThms.
From S2P Require Import StateTypes.
From S2P Require Import Records.
From S2P Require Import Policy.
From S2P Require Import Repository.
From S2P Require Import Vault.
From S2P Require Import Samples.
From S2P Require Import PolicyThms.
From S2P Require Import RemoteApply.

Section still.
Context {G W : Type} (Q : Post → Prop).

Abbreviation MS := (ST (G * dstate W) service_error).

Definition still {A} (m : MS A) : Prop :=
  ∀ g d r g' d', m (g, d) = (r, (g', d')) → g' = g ∧ calm Q d d'.

Lemma still_pure {A} (m : MS A) : (∀ s, (m s).2 = s) → still m.
Proof.
  intros Hm g d r g' d' Hr. specialize (Hm (g, d)). rewrite Hr in Hm. cbn in Hm.
  simplify_eq. split; [done|apply calm_refl].
Qed.

Lemma still_ret {A} (a : A) : still (mret a).
Proof. by apply still_pure. Qed.
Lemma still_lift {A} (r : result service_error A) : still (lift r).
Proof. apply still_pure. by destruct r. Qed.
Lemma still_check b e : still (check b e).
Proof. apply still_pure. by destruct b. Qed.
Lemma still_fail {A} e : still (fail e : MS A).
Proof. by apply still_pure. Qed.

Lemma still_bind {A B} (m : MS A) (k : A → MS B) :
  still m → (∀ a, still (k a)) → still (m ≫= k).
Proof.
  intros Hm Hk g d r g' d' [(e & He & _)|(a & [g1 d1] & Ha & Hr)]%bind_inv; [by eapply Hm|].
  apply Hm in Ha as [-> Hc]. apply Hk in Hr as [-> Hc']. split; [done|].
  by eapply calm_trans.
Qed.

Lemma still_around {A} msg (m : MS A) : still m → still (around msg m).
Proof.
  intros Hm g d r g' d'. unfold around. destruct (m (g, d)) as [[a|e] [g1 d1]] eqn:E;
    intros [= _ <- <-]; by eapply Hm.
Qed.

Lemma still_on_client `{Unicode, Network W} {A} (m : ST (dstate W) dsm_error A) :
  silent Q m → still (on_client m).
Proof.
  intros Hm g d r g' d'. unfold on_client. destruct (m d) as [[a|e] d1] eqn:E;
    destruct (Hm _ _ _ E) as (_ & l & Hl & HQ); intros [= _ <- <-]; (split; [done|]);
    by exists l.
Qed.

Lemma still_on_gateway {A} (m : ST G error A) :
  (∀ g r g', m g = (r, g') → g' = g) → still (on_gateway m).
Proof.
  intros Hm g d r g' d'. unfold on_gateway. destruct (m g) as [[a|e] g1] eqn:E;
    intros [= _ <- <-]; (split; [by eapply Hm|apply calm_refl]).
Qed.

(** A step that is still, and the rest: nothing was sent, or the rest ran. *)
Lemma still_then {A B} (m : MS A) (k : A → MS B) g d r g' d' :
  still m → (m ≫= k) (g, d) = (r, (g', d')) →
  is_Ok r = false ∧ g' = g ∧ calm Q d d' ∨
  ∃ a d1, m (g, d) = (Ok a, (g, d1)) ∧ calm Q d d1 ∧ k a (g, d1) = (r, (g', d')).
Proof.
  intros Hm [(e & He & ->)|(a & [g1 d1] & Ha & Hr)]%bind_inv.
  - left. split; [done|]. by eapply Hm.
  - right. apply Hm in Ha as Hs. destruct Hs as [-> Hc]. eauto.
Qed.
End still.

Create HintDb still discriminated.
#[export] Hint Constants Opaque : still.
#[export] Hint Resolve still_ret still_lift still_check still_fail still_bind still_around
  still_on_client still_on_gateway : still.

Lemma silent_named `{Unicode} {W A} `{Network W} Q nas (m : ST (dstate W) dsm_error A) :
  silent Q m → silent Q (named nas m).
Proof. intros. apply silent_catch; [done|]. intros; apply silent_fail. Qed.
#[export] Hint Resolve silent_named quiet_IdentityState quiet_ShareState : still.

(** What an apply relies on: the manager's promise, and that profiles and secrets are only
    read. *)
Record reads_only {G W} (Q : Post → Prop) (srv : Service G W) : Prop := {
  ro_Client : ∀ ctx name, still Q (sv_Client srv ctx name);
  ro_Config : ∀ ctx g r g', sv_configSource srv ctx g = (r, g') → g' = g;
  ro_Secrets : ∀ ctx ref g r g', sv_secretReferences srv ctx ref g = (r, g') → g' = g
}.

Lemma ResolveSecret_state `{AEAD} ctx ref (g : gworld) r g' :
  ResolveSecret ctx ref g = (r, g') → g' = g.
Proof.
  unfold ResolveSecret, ctx_check, View. intros [(e & Hc & _)|(u & g1 & Hc & Hv)]%bind_inv.
  { destruct (ctx_Err ctx); unfold fail, mret, ST_ret in *; by simplify_eq. }
  assert (g1 = g) as -> by
    (destruct (ctx_Err ctx); unfold fail, mret, ST_ret in *; by simplify_eq).
  apply bind_inv in Hv as [(e & Hk & _)|(v & g2 & Hk & Hv)];
    unfold check in Hk; destruct (_ && _); unfold fail, mret, ST_ret in *; by simplify_eq.
Qed.

Lemma gateway_reads_only `{Unicode, NetURL, KeyN, AEAD} {W : Type} Q
    (client : context → string → ST (gworld * dstate W) service_error string)
    auditFailure now wall rid1 rid2 :
  manager_promise Q (gateway_service client auditFailure now wall rid1 rid2) →
  reads_only Q (gateway_service client auditFailure now wall rid1 rid2).
Proof.
  intros Hm. split.
  - intros ctx name g d r g' d' Hr. by eapply Hm.
  - intros ctx g r g'. apply Snapshot_state.
  - intros ctx ref g r g'. apply ResolveSecret_state.
Qed.

(** ** Plans *)

(** The plan made now has the precondition and the hash of the approved one. *)
Definition same_managed {R} (current plan : ManagedPlan R) : Prop :=
  mp_Precondition current = mp_Precondition plan ∧ mp_Hash current = mp_Hash plan.

(** Two plans of different content that have one hash. *)
Definition managed_collision {R} (hash : ManagedPlan R → string) (p q : ManagedPlan R) : Prop :=
  set_Hash "" p ≠ set_Hash "" q ∧ hash p = hash q.

Lemma same_managed_risk {R} (hash : ManagedPlan R → string) current plan :
  same_managed current plan → hash current = mp_Hash current → hash plan = mp_Hash plan →
  managed_collision hash current plan ∨ mp_Risk current = mp_Risk plan.
Proof.
  intros [_ He] Hc Hp. destruct (decide (mp_Risk current = mp_Risk plan)) as [|Hr]; [by right|].
  left. split; [by intros Hx%(f_equal mp_Risk)|]. congruence.
Qed.

Section plans.
Context `{Unicode, NetURL, ManagedHash} {W : Type} `{Network W} {G : Type} (srv : Service G W).
Hypothesis Hro : reads_only managed_write srv.

Abbreviation MS := (ST (G * dstate W) service_error).
Abbreviation still_step := (still managed_write).

Lemma still_Client ctx name : still_step (sv_Client srv ctx name).
Proof. apply (ro_Client _ _ Hro). Qed.
Lemma still_profileRevision ctx name : still_step (profileRevision srv ctx name).
Proof.
  apply still_bind; [apply still_on_gateway, (ro_Config _ _ Hro)|]. intros cfg.
  destruct (cf_NAS cfg !! name); [apply still_ret|apply still_fail].
Qed.
Lemma still_credential ctx request : still_step (resolve_credential srv ctx request).
Proof.
  unfold resolve_credential. destruct (icr_User request); [|apply still_ret].
  case_bool_decide; [apply still_ret|].
  apply still_around, still_on_gateway. intros. by eapply (ro_Secrets _ _ Hro).
Qed.
#[local] Hint Resolve still_Client still_profileRevision still_credential : still.

Lemma still_plan_identity ctx nas request : still_step (PlanIdentityChange srv ctx nas request).
Proof.
  unfold PlanIdentityChange. cbv zeta.
  apply still_bind; [apply still_lift|]. intros _.
  apply still_bind; [apply still_Client|]. intros name.
  apply still_bind; [eauto with still|]. intros state.
  apply still_bind; [apply still_lift|]. intros precondition.
  apply still_bind; [apply still_profileRevision|]. intros. apply still_ret.
Qed.

Lemma still_plan_share ctx nas request : still_step (PlanShareChange srv ctx nas request).
Proof.
  unfold PlanShareChange. cbv zeta.
  apply still_bind; [apply still_lift|]. intros _.
  apply still_bind; [apply still_Client|]. intros name.
  apply still_bind; [eauto with still|]. intros state.
  apply still_bind; [destruct (includes_permissions _); eauto with still|]. intros identities.
  apply still_bind; [apply still_lift|]. intros precondition.
  apply still_bind; [apply still_profileRevision|]. intros. apply still_ret.
Qed.

Lemma revision_keeps ctx name g (d : dstate W) revision g' d' :
  profileRevision srv ctx name (g, d) = (Ok revision, (g', d')) → d' = d.
Proof.
  unfold profileRevision. intros (cfg & s1 & Hc & Hr)%bind_ok_inv.
  apply on_gateway_ok in Hc as (g1 & _ & ->).
  destruct (cf_NAS cfg !! name); [|done]. by injection Hr as _ _ <-.
Qed.

(** What a plan says of the state it read. *)
Lemma plan_identity_inv ctx nas request g d plan g' d' :
  PlanIdentityChange srv ctx nas request (g, d) = (Ok plan, (g', d')) →
  validateIdentityRequest request = Ok () ∧ identityPlanHash plan = mp_Hash plan ∧
  ∃ d0 state, calm managed_write d d0 ∧
    IdentityState (identityQueryForRequest request) d0 = (Ok state, d') ∧
    mp_Risk plan = riskLevel (identityChangeIsDestructive state request).
Proof.
  unfold PlanIdentityChange. cbv zeta.
  intros ([] & s1 & [Hv ->]%lift_ok_inv & (name & [g2 d2] & Hc & (state & s3 & Hs & (pre & s4 &
    [_ ->]%lift_ok_inv & (rev & [g5 d5] & Hr & Heq)%bind_ok_inv)%bind_ok_inv)%bind_ok_inv
    )%bind_ok_inv)%bind_ok_inv.
  injection Heq as <- <- <-. split; [done|]. split; [done|].
  apply still_Client in Hc as [-> Hcalm].
  unfold on_client, named, catch in Hs.
  destruct (IdentityState _ d2) as [[st|e] d3] eqn:E; [|done]. simplify_eq.
  apply revision_keeps in Hr as ->. by exists d2, state.
Qed.

Lemma plan_share_inv ctx nas request s plan s' :
  PlanShareChange srv ctx nas request s = (Ok plan, s') →
  sharePlanHash plan = mp_Hash plan ∧ validateShareRequest request = Ok () ∧
  mp_Risk plan = riskLevel (bool_decide (scr_Action request = ActionDelete)
                            || includes_permissions request).
Proof.
  unfold PlanShareChange. cbv zeta.
  intros ([] & s1 & [Hv _]%lift_ok_inv & (name & s2 & _ & (state & s3 & _ & (ids & s4 & _ & (pre & s5 & _ &
    (rev & s6 & _ & [= <- <-])%bind_ok_inv)%bind_ok_inv)%bind_ok_inv)%bind_ok_inv)%bind_ok_inv)%bind_ok_inv.
  done.
Qed.

Lemma credential_keeps ctx request g (d : dstate W) r g' d' :
  resolve_credential srv ctx request (g, d) = (r, (g', d')) → g' = g ∧ d' = d.
Proof.
  unfold resolve_credential, around, on_gateway.
  destruct (icr_User request); [|by intros [= _ <- <-]].
  case_bool_decide; [by intros [= _ <- <-]|].
  destruct (sv_secretReferences srv ctx _ g) as [[] g1] eqn:E; intros [= _ <- <-];
    (split; [by eapply (ro_Secrets _ _ Hro)|done]).
Qed.

Lemma validate_identity_plan_ok plan hash u :
  validateIdentityPlan plan hash = Ok u →
  hash = mp_Hash plan ∧ identityPlanHash plan = mp_Hash plan.
Proof.
  unfold validateIdentityPlan.
  intros (_ & (_ & (Hc & Hh)%verdict_bind)%verdict_bind)%verdict_bind.
  apply require_ok in Hc, Hh. split_bools. auto.
Qed.

Lemma validate_share_plan_ok plan hash u :
  validateSharePlan plan hash = Ok u →
  hash = mp_Hash plan ∧ sharePlanHash plan = mp_Hash plan.
Proof.
  unfold validateSharePlan.
  intros (_ & (_ & (Hc & Hh)%verdict_bind)%verdict_bind)%verdict_bind.
  apply require_ok in Hc, Hh. split_bools. auto.
Qed.

(** ** Sending and verifying *)

(** The end of an apply: what was sent, and what was read back when it succeeded. *)
Lemma send_identity_inv request password nas (result : ChangeResult → ManagedResult)
    g d r g' d' :
  (operation ← on_client (named nas (ApplyIdentityChange request password));
   state ← around "verify identity change"
     (on_client (IdentityState (identityQueryForRequest request)));
   lift (verifyIdentityPostcondition state request);;
   mret (result operation) : MS ManagedResult) (g, d) = (r, (g', d')) →
  g' = g ∧
  (∃ x d1, ApplyIdentityChange request password d = (x, d1) ∧ calm managed_write d1 d') ∧
  (is_Ok r = true → ∃ d1 state, IdentityState (identityQueryForRequest request) d1 = (Ok state, d') ∧
     verifyIdentityPostcondition state request = Ok ()).
Proof.
  unfold mbind, ST_bind, on_client, named, catch, around.
  destruct (ApplyIdentityChange request password d) as [[op|e] d1] eqn:Ea;
    [|intros [= <- <- <-]; split; [done|]; split; [eauto using calm_refl|done]].
  assert (∀ x d2, IdentityState (identityQueryForRequest request) d1 = (x, d2) →
    calm managed_write d1 d2) as Hcalm.
  { intros x d2 (_ & l & Hl & HQ)%quiet_IdentityState. by exists l. }
  destruct (IdentityState _ d1) as [[state|e] d2] eqn:Es; 
    [|intros [= <- <- <-]; split; [done|]; split; [eauto|done]].
  destruct (verifyIdentityPostcondition state request) as [[]|e] eqn:Ev;
    intros [= <- <- <-]; (split; [done|]); (split; [by eauto|]); by eauto.
Qed.

Lemma send_share_inv request nas (result : ChangeResult → ManagedResult) g d r g' d' :
  (operation ← on_client (named nas (ApplyShareChange request));
   state ← around "verify shared-folder change"
     (on_client (ShareState (includes_permissions request)));
   lift (verifySharePostcondition state request);;
   mret (result operation) : MS ManagedResult) (g, d) = (r, (g', d')) →
  g' = g ∧
  (∃ x d1, ApplyShareChange request d = (x, d1) ∧ calm managed_write d1 d') ∧
  (is_Ok r = true → ∃ d1 state, ShareState (includes_permissions request) d1 = (Ok state, d') ∧
     verifySharePostcondition state request = Ok ()).
Proof.
  unfold mbind, ST_bind, on_client, named, catch, around.
  destruct (ApplyShareChange request d) as [[op|e] d1] eqn:Ea;
    [|intros [= <- <- <-]; split; [done|]; split; [eauto using calm_refl|done]].
  assert (∀ x d2, ShareState (includes_permissions request) d1 = (x, d2) →
    calm managed_write d1 d2) as Hcalm.
  { intros x d2 (_ & l & Hl & HQ)%quiet_ShareState. by exists l. }
  destruct (ShareState _ d1) as [[state|e] d2] eqn:Es; 
    [|intros [= <- <- <-]; split; [done|]; split; [eauto|done]].
  destruct (verifySharePostcondition state request) as [[]|e] eqn:Ev;
    intros [= <- <- <-]; (split; [done|]); (split; [by eauto|]); by eauto.
Qed.

(** ** The checks before a change *)

(** What both applies do before they change anything: admit the plan, make it again from
    the NAS's state, and compare. *)
Lemma apply_checks {R B} ctx principal (plan : ManagedPlan R) (again : MS (ManagedPlan R))
    msg e1 e2 (k : MS B) g (d : dstate W) r g' d' :
  still_step again → PrincipalFromContext ctx = Some principal →
  (authorizeRemoteApply srv ctx (mp_NAS plan) (mp_ProfileRevision plan) (mp_Hash plan)
     (mp_Risk plan);;
   verifyProfileRevision srv ctx (mp_NAS plan) (mp_ProfileRevision plan);;
   current ← around msg again;
   check (bool_decide (mp_Precondition current = mp_Precondition plan)) e1;;
   check (bool_decide (mp_Hash current = mp_Hash plan)) e2;;
   sv_Client srv ctx (mp_NAS plan);; k) (g, d) = (r, (g', d')) →
  calm managed_write d d' ∧ is_Ok r = false ∨
  ∃ g1 current d1 d2,
    admitted srv ctx principal (mp_NAS plan) (mp_ProfileRevision plan) (mp_Hash plan)
      (mp_Risk plan) g g1 ∧
    again (g1, d) = (Ok current, (g1, d1)) ∧ same_managed current plan ∧
    calm managed_write d1 d2 ∧ k (g1, d2) = (r, (g', d')).
Proof.
  intros Hag Hp Hr.
  eapply admission_inv in Hr as [[-> Hf]|(g1 & Hadm & Hr)];
    [left; split; [apply calm_refl|done]| |done].
  apply still_then with (Q:=managed_write) in Hr as
    [(Hf & _ & Hc)|(current & d1 & Hcur & Hc1 & Hr)]; [by left| |by apply still_around].
  assert (again (g1, d) = (Ok current, (g1, d1))) as Hplan.
  { revert Hcur. unfold around. by destruct (again (g1, d)) as [[]]. }
  apply bind_inv in Hr as [(e & Hk & ->)|([] & s2 & Hk & Hr)].
  { apply check_err_inv in Hk as (_ & _ & [= -> ->]). by left. }
  apply check_ok_inv in Hk as [Hpre ->].
  apply bind_inv in Hr as [(e & Hk & ->)|([] & s2 & Hk & Hr)].
  { apply check_err_inv in Hk as (_ & _ & [= -> ->]). by left. }
  apply check_ok_inv in Hk as [Hhash ->]. split_bools.
  apply still_then with (Q:=managed_write) in Hr as
    [(Hf & _ & Hc)|(name & d2 & _ & Hc2 & Hr)]; [|right|apply still_Client].
  - left. split; [by eapply calm_trans|done].
  - exists g1, current, d1, d2. by repeat split.
Qed.

(** An apply of accounts: refused with nothing changed, or admitted, planned again from the
    state [d] it found, sent, and read back. *)
Lemma apply_identity_inv ctx principal plan approvalHash g d r g' d' :
  PrincipalFromContext ctx = Some principal →
  ApplyIdentityPlan srv ctx plan approvalHash (g, d) = (r, (g', d')) →
  let request := mp_Request plan in
  let query := identityQueryForRequest request in
  calm managed_write d d' ∧ is_Ok r = false ∨
  approvalHash = mp_Hash plan ∧ identityPlanHash plan = mp_Hash plan ∧
  admitted srv ctx principal (mp_NAS plan) (mp_ProfileRevision plan) (mp_Hash plan)
    (mp_Risk plan) g g' ∧
  ∃ current d1 d2 password,
    PlanIdentityChange srv ctx (mp_NAS plan) request (g', d) = (Ok current, (g', d1)) ∧
    same_managed current plan ∧ calm managed_write d1 d2 ∧
    resolve_credential srv ctx request (g', d2) = (Ok password, (g', d2)) ∧
    (calm managed_write d2 d' ∨ ∃ groups, read_before request d2 groups ∧
       sends_only managed_write (identity_calls request password groups) d2 d') ∧
    (is_Ok r = true → ∃ d3 after, IdentityState query d3 = (Ok after, d') ∧
       verifyIdentityPostcondition after request = Ok ()).
Proof.
  intros Hp Hr. unfold ApplyIdentityPlan in Hr. cbv zeta.
  destruct (validateIdentityPlan plan approvalHash) as [[]|e] eqn:Ev.
  2:{ injection Hr as <- <- <-. left. split; [apply calm_refl|done]. }
  apply validate_identity_plan_ok in Ev as [Hh Hown].
  apply bind_inv in Hr as [(e & [=] & _)|([] & s1 & [= <-] & Hr)].
  eapply apply_checks in Hr as [?|(g1 & current & d1 & d2 & Hadm & Hplan & Hsame & Hc2 & Hr)];
    [by left| |apply still_plan_identity|done].
  apply plan_identity_inv in Hplan as Hinv.
  destruct Hinv as (_ & _ & d0 & state & Hc0 & Hs & _).
  assert (calm managed_write d d2) as Hc.
  { eapply calm_trans; [|done]. eapply still_plan_identity; [exact Hplan]. }
  apply bind_inv in Hr as [(e & Hk & ->)|(password & s3 & Hk & Hr)].
  { apply credential_keeps in Hk as [-> ->]. by left. }
  destruct s3 as [g3 d3]. apply credential_keeps in Hk as Heq. destruct Heq as [-> ->].
  apply send_identity_inv in Hr as (-> & (x & d3 & Ha & Hc3) & Hpost).
  right. split; [done|]. split; [done|]. split; [done|].
  exists current, d1, d2, password. do 4 (split; [done|]). split; [|done].
  apply identity_change_sends in Ha as (l & Hl & [Hq|(groups & Hg & HP)]).
  - left. eapply calm_trans; [|done]. by exists l.
  - right. exists groups. split; [done|]. eapply sends_calm; [|done]. by exists l.
Qed.

Lemma apply_share_inv ctx principal plan approvalHash g d r g' d' :
  PrincipalFromContext ctx = Some principal →
  ApplySharePlan srv ctx plan approvalHash (g, d) = (r, (g', d')) →
  let request := mp_Request plan in
  calm managed_write d d' ∧ is_Ok r = false ∨
  approvalHash = mp_Hash plan ∧ sharePlanHash plan = mp_Hash plan ∧
  admitted srv ctx principal (mp_NAS plan) (mp_ProfileRevision plan) (mp_Hash plan)
    (mp_Risk plan) g g' ∧
  ∃ current d1 d2,
    PlanShareChange srv ctx (mp_NAS plan) request (g', d) = (Ok current, (g', d1)) ∧
    same_managed current plan ∧ calm managed_write d1 d2 ∧
    (calm managed_write d2 d' ∨ ∃ path, volume_before request d2 path ∧
       sends_only managed_write (share_calls request path) d2 d') ∧
    (is_Ok r = true → ∃ d3 after, ShareState (includes_permissions request) d3 = (Ok after, d') ∧
       verifySharePostcondition after request = Ok ()).
Proof.
  intros Hp Hr. unfold ApplySharePlan in Hr. cbv zeta.
  destruct (validateSharePlan plan approvalHash) as [[]|e] eqn:Ev.
  2:{ injection Hr as <- <- <-. left. split; [apply calm_refl|done]. }
  apply validate_share_plan_ok in Ev as [Hh Hown].
  apply bind_inv in Hr as [(e & [=] & _)|([] & s1 & [= <-] & Hr)].
  eapply apply_checks in Hr as [?|(g1 & current & d1 & d2 & Hadm & Hplan & Hsame & Hc2 & Hr)];
    [by left| |apply still_plan_share|done].
  apply send_share_inv in Hr as (-> & (x & d3 & Ha & Hc3) & Hpost).
  right. split; [done|]. split; [done|]. split; [done|].
  exists current, d1, d2. do 3 (split; [done|]). split; [|done].
  apply share_change_sends in Ha as (l & Hl & [Hq|(path & Hg & HP)]).
  - left. eapply calm_trans; [|done]. by exists l.
  - right. exists path. split; [done|]. eapply sends_calm; [|done]. by exists l.
Qed.
End plans.

(** An apply that succeeds was of a valid request, and read its result back last. *)
Lemma apply_verified `{Unicode, NetURL, ManagedHash} {W : Type} `{Network W} {G : Type}
    (srv : Service G W) ctx plan approvalHash g (d : dstate W) result g' d' :
  ApplyIdentityPlan srv ctx plan approvalHash (g, d) = (Ok result, (g', d')) →
  validateIdentityRequest (mp_Request plan) = Ok () ∧
  ∃ d1 after, IdentityState (identityQueryForRequest (mp_Request plan)) d1 = (Ok after, d') ∧
    verifyIdentityPostcondition after (mp_Request plan) = Ok ().
Proof.
  unfold ApplyIdentityPlan, validateIdentityPlan. cbv zeta.
  intros (u & s1 & [Hv ->]%lift_ok_inv & Hr)%bind_ok_inv.
  apply verdict_bind in Hv as [_ [Hv _]%verdict_bind]. split; [done|].
  do 5 (apply bind_ok_inv in Hr as (? & ? & _ & Hr)).
  apply bind_ok_inv in Hr as (? & ? & _ & Hr). apply bind_ok_inv in Hr as (? & [g1 d1] & _ & Hr).
  apply send_identity_inv in Hr as (_ & _ & Hpost). destruct (Hpost eq_refl) as (d3 & after & ?).
  by exists d3, after.
Qed.

Lemma membership_object `{Unicode, ManagedHash} r c :
  identity_object_of r = Some (OMembership c) →
  identityQueryForRequest r = membership_query (mch_User c) ∧
  ∀ s, verifyIdentityPostcondition s r = verify_membership s c.
Proof.
  unfold identity_object_of, identityQueryForRequest, verifyIdentityPostcondition.
  destruct (icr_User r), (icr_Group r), (icr_Membership r), (icr_Quota r),
    (icr_ApplicationPrivilege r); repeat case_bool_decide; by intros [=]; simplify_eq.
Qed.

Lemma only_shares `{Unicode} r u :
  validateShareRequest r = Ok u → includes_permissions r = false → scr_Resource r = ResourceShare.
Proof.
  unfold validateShareRequest, includes_permissions.
  case_bool_decide; [done|]. by case_bool_decide.
Qed.

(** ** The samples behind the gateway *)

(** The gateway's service over the scripted NAS. *)
Definition sample_service : Service gworld (list answer) :=
  @gateway_service ascii_tables no_urls keyN_committed plain_aead _ sample_manager None Minute Minute
    "e1" "e2".

(** A manager that hands out the client it has sends nothing. *)
Lemma sample_promise Q : manager_promise Q sample_service.
Proof. intros ctx name g d r g' d' [= _ <- <-]. split; [done|apply calm_refl]. Qed.

(** The plan for Bob to leave the staff, made from the NAS's state and approved. *)
Definition leave_world : gworld := approved_world "identity membership high".
Definition leave_planned :=
  @PlanIdentityChange ascii_tables clear_managed _ script_world _ sample_service
    remote_context "nas1" leave_staff (leave_world, identity_nas (accounts ["Bob"])).
Definition leave_plan : IdentityPlan :=
  match leave_planned.1 with Ok p => p | Err _ => draft "" 0 leave_staff absent false [] end.
Definition leave_run : result service_error ManagedResult * (gworld * dstate (list answer)) :=
  @ApplyIdentityPlan ascii_tables clear_managed _ script_world _ sample_service
    remote_context leave_plan "identity membership high" (leave_world, identity_nas leave_script).

(** The plan that deletes the folder. *)
Definition delete_world : gworld := approved_world "share share high".
Definition delete_planned :=
  @PlanShareChange ascii_tables clear_managed _ script_world _ sample_service
    remote_context "nas1" delete_photos (delete_world, share_nas [folder_reply "0"]).
Definition delete_plan : SharePlan :=
  match delete_planned.1 with Ok p => p | Err _ => draft "" 0 delete_photos absent false [] end.
Definition delete_run : result service_error ManagedResult * (gworld * dstate (list answer)) :=
  @ApplySharePlan ascii_tables clear_managed _ script_world _ sample_service
    remote_context delete_plan "share share high" (delete_world, share_nas delete_script).

(** ** The properties *)

(** C2: a remote change of accounts reaches the NAS only when the gateway admitted it, and
    then sends what its plan says.  A remote apply fails and changes nothing, or the approval
    hash is the plan's, the caller's token was active with the nas.apply scope and this NAS,
    at exactly the planned revision, and the state of the NAS gave the approved plan again.
    Unless the change takes nothing from that state (no deletion, no membership or quota
    lost, no application rule touched), it used up an administrator's approval of this hash
    or the interactive grant of this session, whatever risk the caller wrote into the plan;
    only a plan colliding with the one made now escapes.  Every change sent is one of the
    calls of the request, with the password its reference names.  On success the state read
    back, the last thing read, shows the change: a deleted user or group is not there; a
    created or updated one is there under its new name with the requested description, email
    and never-expiring password, and is expired or not when the request says [now] or
    [normal]; the user's groups are the requested ones, and each requested quota and
    application rule is in force.  An expiry date, the right to change the password and the
    password itself are sent but not read back. *)
Theorem identity_apply_admitted `{Unicode, NetURL, KeyN, AEAD, ManagedHash} {W : Type}
    `{Network W} client auditFailure now wall rid1 rid2 ctx principal plan approvalHash
    (g : gworld) (d : dstate W) r g' d' :
  let srv := gateway_service client auditFailure now wall rid1 rid2 in
  let tokenID := pp_TokenID principal in
  let nas := mp_NAS plan in
  let revision := mp_ProfileRevision plan in
  let request := mp_Request plan in
  let query := identityQueryForRequest request in
  manager_promise managed_write srv → PrincipalFromContext ctx = Some principal →
  ApplyIdentityPlan srv ctx plan approvalHash (g, d) = (r, (g', d')) →
  calm managed_write d d' ∧ is_Ok r = false ∨
  approvalHash = mp_Hash plan ∧
  (∃ token, apply_authorised (w_db g) tokenID nas revision now token) ∧
  ∃ d0 state d1 d2 password,
    (∃ current, PlanIdentityChange srv ctx nas request (g', d) = (Ok current, (g', d1)) ∧
       same_managed current plan ∧
       (keeps_access state request ∨ managed_collision identityPlanHash current plan ∨
        admitted_by_approval g g' tokenID nas revision (mp_Hash plan) now ∨
        admitted_by_grant g g' ctx tokenID nas revision (mp_Hash plan))) ∧
    calm managed_write d d0 ∧ IdentityState query d0 = (Ok state, d1) ∧
    calm managed_write d1 d2 ∧
    resolve_credential srv ctx request (g', d2) = (Ok password, (g', d2)) ∧
    (calm managed_write d2 d' ∨ ∃ groups, read_before request d2 groups ∧
       sends_only managed_write (identity_calls request password groups) d2 d') ∧
    (is_Ok r = true → ∃ d3 after, IdentityState query d3 = (Ok after, d') ∧
       identity_achieved after request).
Proof.
  cbv zeta. intros Hm Hp Ha.
  eapply apply_identity_inv in Ha as [?|(Hh & Hown & Hadm & current & d1 & d2 & password &
    Hplan & Hsame & Hc & Hpw & Hsent & Hpost)]; [by left| |by apply gateway_reads_only|done].
  right. split; [done|].
  apply gateway_admission in Hadm as (token & Hauth & Hrisk).
  split; [by exists token|].
  apply plan_identity_inv in Hplan as Hinv; [|by apply gateway_reads_only].
  destruct Hinv as (Hv & Hself & d0 & state & Hc0 & Hs & Hr).
  exists d0, state, d1, d2, password. split.
  2:{ do 5 (split; [done|]). intros Hok. destruct (Hpost Hok) as (d3 & after & Ha & Hver).
      exists d3, after. split; [done|]. by eapply identity_verified. }
  exists current. do 2 (split; [done|]).
  destruct (identityChangeIsDestructive state (mp_Request plan)) eqn:Ed;
    [|left; by eapply harmless_keeps].
  right. destruct (same_managed_risk identityPlanHash _ _ Hsame Hself Hown) as [|He]; [by left|].
  right. rewrite <- He, Hr in Hrisk. apply Hrisk. reflexivity.
Qed.

Lemma leave_plan_fields :
  mp_NAS leave_plan = "nas1" ∧ mp_ProfileRevision leave_plan = 3 ∧
  mp_Request leave_plan = leave_staff.
Proof. vm_compute. auto. Qed.

Lemma leave_run_ok : is_Ok leave_run.1 = true.
Proof. vm_compute. reflexivity. Qed.

(** Bob leaves the staff with an approval, which is used up. *)
Lemma identity_apply_admitted_witness :
  is_Ok leave_run.1 = true ∧
  (∃ token, apply_authorised (w_db leave_world) "t1" "nas1" 3 Minute token) ∧
  ∃ d3 after,
    @IdentityState ascii_tables _ script_world (identityQueryForRequest leave_staff) d3
    = (Ok after, leave_run.2.2) ∧
    @identity_achieved ascii_tables after leave_staff.
Proof.
  split; [exact leave_run_ok|]. destruct leave_plan_fields as (Hn & Hr & Hq).
  pose proof leave_run_ok as Hok.
  destruct (@identity_apply_admitted ascii_tables no_urls keyN_committed plain_aead clear_managed _
    script_world sample_manager None Minute Minute "e1" "e2" remote_context remote_principal
    leave_plan "identity membership high" leave_world (identity_nas leave_script)
    leave_run.1 leave_run.2.1 leave_run.2.2)
    as [[_ Hf]|(_ & Ht & d0 & state & d1 & d2 & password & _ & _ & _ & _ & _ & _ & Hpost)].
  - exact (sample_promise managed_write).
  - reflexivity.
  - fold sample_service. fold leave_run. destruct leave_run as [r [g d]]. reflexivity.
  - rewrite Hf in Hok. discriminate Hok.
  - rewrite Hn, Hr, Hq in *. split; [exact Ht|]. exact (Hpost Hok).
Defined.

(** C3: a remote change of shared folders or of their permissions reaches the NAS only when
    the gateway admitted it, and then sends what its plan says: as for accounts, where only
    a creation or an update of a folder's settings does without an approval.  On success the
    state read back, the last thing read, shows the change: a deleted folder is not there; a
    created or updated one is there under its new name with the requested description, hidden
    flag and quota (in bytes, modulo 2^64), a created one on the requested volume; and each
    requested access is the one of its folder's entry for the principal.  The recycle bin,
    hiding unreadable files, copy-on-write and compression are sent but not read back. *)
Theorem share_apply_admitted `{Unicode, NetURL, KeyN, AEAD, ManagedHash} {W : Type}
    `{Network W} client auditFailure now wall rid1 rid2 ctx principal plan approvalHash
    (g : gworld) (d : dstate W) r g' d' :
  let srv := gateway_service client auditFailure now wall rid1 rid2 in
  let tokenID := pp_TokenID principal in
  let nas := mp_NAS plan in
  let revision := mp_ProfileRevision plan in
  let request := mp_Request plan in
  manager_promise managed_write srv → PrincipalFromContext ctx = Some principal →
  ApplySharePlan srv ctx plan approvalHash (g, d) = (r, (g', d')) →
  calm managed_write d d' ∧ is_Ok r = false ∨
  approvalHash = mp_Hash plan ∧
  (∃ token, apply_authorised (w_db g) tokenID nas revision now token) ∧
  ∃ current d1 d2,
    PlanShareChange srv ctx nas request (g', d) = (Ok current, (g', d1)) ∧
    same_managed current plan ∧
    (scr_Resource request = ResourceShare ∧ scr_Action request ≠ ActionDelete ∨
     managed_collision sharePlanHash current plan ∨
     admitted_by_approval g g' tokenID nas revision (mp_Hash plan) now ∨
     admitted_by_grant g g' ctx tokenID nas revision (mp_Hash plan)) ∧
    calm managed_write d1 d2 ∧
    (calm managed_write d2 d' ∨ ∃ path, volume_before request d2 path ∧
       sends_only managed_write (share_calls request path) d2 d') ∧
    (is_Ok r = true → ∃ d3 after, ShareState (includes_permissions request) d3 = (Ok after, d') ∧
       share_achieved after request).
Proof.
  cbv zeta. intros Hm Hp Ha.
  eapply apply_share_inv in Ha as [?|(Hh & Hown & Hadm & current & d1 & d2 &
    Hplan & Hsame & Hc & Hsent & Hpost)]; [by left| |by apply gateway_reads_only|done].
  right. split; [done|].
  apply gateway_admission in Hadm as (token & Hauth & Hrisk).
  split; [by exists token|]. exists current, d1, d2. do 2 (split; [done|]).
  apply plan_share_inv in Hplan as (Hself & Hv & Hr). split.
  2:{ do 2 (split; [done|]). intros Hok. destruct (Hpost Hok) as (d3 & after & Ha & Hver).
      exists d3, after. split; [done|]. by eapply share_verified. }
  destruct (_ || _) eqn:Ed in Hr.
  - right. destruct (same_managed_risk sharePlanHash _ _ Hsame Hself Hown) as [|He]; [by left|].
    right. rewrite <- He, Hr in Hrisk. apply Hrisk. reflexivity.
  - left. split_bools. split; [|done]. by eapply only_shares.
Qed.

Lemma delete_plan_fields :
  mp_NAS delete_plan = "nas1" ∧ mp_ProfileRevision delete_plan = 3 ∧
  mp_Request delete_plan = delete_photos.
Proof. vm_compute. auto. Qed.

Lemma delete_run_ok : is_Ok delete_run.1 = true.
Proof. vm_compute. reflexivity. Qed.

(** The folder is deleted with an approval, which is used up. *)
Lemma share_apply_admitted_witness :
  is_Ok delete_run.1 = true ∧
  (∃ token, apply_authorised (w_db delete_world) "t1" "nas1" 3 Minute token) ∧
  ∃ d3 after,
    @ShareState ascii_tables _ script_world (includes_permissions delete_photos) d3
    = (Ok after, delete_run.2.2) ∧
    @share_achieved ascii_tables after delete_photos.
Proof.
  split; [exact delete_run_ok|]. destruct delete_plan_fields as (Hn & Hr & Hq).
  pose proof delete_run_ok as Hok.
  destruct (@share_apply_admitted ascii_tables no_urls keyN_committed plain_aead clear_managed _
    script_world sample_manager None Minute Minute "e1" "e2" remote_context remote_principal
    delete_plan "share share high" delete_world (share_nas delete_script)
    delete_run.1 delete_run.2.1 delete_run.2.2)
    as [[_ Hf]|(_ & Ht & current & d1 & d2 & _ & _ & _ & _ & _ & Hpost)].
  - exact (sample_promise managed_write).
  - reflexivity.
  - fold sample_service. fold delete_run. destruct delete_run as [r [g d]]. reflexivity.
  - rewrite Hf in Hok. discriminate Hok.
  - rewrite Hn, Hr, Hq in *. split; [exact Ht|]. exact (Hpost Hok).
Defined.

(** C20: a change of memberships that succeeds gave the user exactly the requested groups.
    For any service, when the apply of such a plan succeeds, the last thing read from the NAS
    is a state where the user's groups are the requested ones, up to order and case, each
    once. *)
Theorem membership_apply_exact `{Unicode, NetURL, ManagedHash} {W : Type} `{Network W}
    {G : Type} (srv : Service G W) ctx plan approvalHash c g (d : dstate W) result g' d' :
  identity_object_of (mp_Request plan) = Some (OMembership c) →
  ApplyIdentityPlan srv ctx plan approvalHash (g, d) = (Ok result, (g', d')) →
  ∃ d1 after m, IdentityState (membership_query (mch_User c)) d1 = (Ok after, d') ∧
    findMembership (ist_Memberships after) (mch_User c) = Some m ∧
    (ToLower <$> mem_Groups m) ≡ₚ (ToLower <$> mch_Groups c) ∧
    NoDup (ToLower <$> mem_Groups m).
Proof.
  intros Ho Ha.
  apply apply_verified in Ha as (Hv & d1 & after & Hs & Hpost).
  apply validated_object in Hv. rewrite Ho in Hv. apply validated_groups in Hv.
  destruct (membership_object _ _ Ho) as [Hq Hpc]. rewrite Hq in Hs. rewrite Hpc in Hpost.
  apply verify_membership_exact in Hpost as (m & Hf & HP); [|done].
  exists d1, after, m. do 3 (split; [done|]). by rewrite HP.
Qed.

(** After Bob left the staff, he is in [users] and nowhere else. *)
Lemma membership_apply_exact_witness :
  is_Ok leave_run.1 = true ∧
  ∃ d1 after m,
    @IdentityState ascii_tables _ script_world (membership_query "bob") d1
    = (Ok after, leave_run.2.2) ∧
    @findMembership ascii_tables (ist_Memberships after) "bob" = Some m ∧
    (@ToLower ascii_tables <$> mem_Groups m) ≡ₚ ["users"].
Proof.
  split; [exact leave_run_ok|]. pose proof leave_run_ok as Hok.
  destruct leave_plan_fields as (_ & _ & Hq).
  destruct leave_run as [[result|e] [g' d']] eqn:E; [|discriminate Hok].
  destruct (@membership_apply_exact ascii_tables no_urls clear_managed _ script_world _
    sample_service remote_context leave_plan "identity membership high"
    {| mch_User := "bob"; mch_Groups := ["users"] |} leave_world (identity_nas leave_script)
    result g' d') as (d1 & after & m & Hs & Hf & HP & _).
  - rewrite Hq. reflexivity.
  - exact E.
  - exists d1, after, m. split; [exact Hs|]. split; [exact Hf|exact HP].
Defined.
