(* ===== verification/StorageRemote.v ===== *)
(** * Remote changes of storage: the admission before the wire

    The plan that an apply carries is the plan made from the state it is applied to, and
    the gateway admitted it; and what pools, volumes and caches are after a success. *)

From S2P Require Import Prelude.
From S2P Require Import GoStrings.
From S2P Require Import Bolt.
From S2P Require Import NetIP.
From S2P Require Import RemotePolicy.
From S2P Require Import Compat.
From S2P Require Import Json.
From S2P Require Import DsmErrors.
From S2P Require Import DsmClient.
From S2P Require Import DsmThms.
From S2P Require Import DsmWire.
From S2P Require Import DsmOps.
From S2P Require Import Identity.
From S2P Require Import Config.
From S2P Require Import Service.
From S2P Require Import Management.
From S2P Require Import Storage.
From S2P Require Import StorageChecks.
From S2P Require Import StorageWire.
From S2P Require Import StorageOps.
From S2P Require Import StoragePlan.
From S2P Require Import StorageCalls.
From S2P Require Import ManagementThms.
From S2P Require Import StorageThms.
From S2P Require Import StateTypes.
From S2P Require Import Records.
From S2P Require Import Policy.
From S2P Require Import Repository.
From S2P Require Import Vault.
From S2P Require Import Samples.
From S2P Require Import PolicyThms.
From S2P Require Import RemoteApply.
From S2P Require Import ManagementRemote.

#[export] Hint Resolve quiet_StorageState quiet_StorageCapabilities : still.

(** ** Plans of one hash *)

(** Two plans of different content that have one hash. *)
Definition storage_collision `{StorageHash} (p q : StoragePlan) : Prop :=
  with_hash (sp_ProfileRevision p) "" p ≠ with_hash (sp_ProfileRevision q) "" q ∧
  storagePlanHash p = storagePlanHash q.

#[export] Instance PoolChange_eq_dec : EqDecision PoolChange.
Proof. solve_decision. Defined.
#[export] Instance CapacityPolicy_eq_dec : EqDecision CapacityPolicy.
Proof. solve_decision. Defined.
#[export] Instance VolumeChange_eq_dec : EqDecision VolumeChange.
Proof. solve_decision. Defined.
#[export] Instance CacheChange_eq_dec : EqDecision CacheChange.
Proof. solve_decision. Defined.
#[export] Instance StorageRequest_eq_dec : EqDecision StorageRequest.
Proof. solve_decision. Defined.
#[export] Instance consequence_eq_dec : EqDecision StorageDestructiveConsequence.
Proof. solve_decision. Defined.
#[export] Instance storage_line_eq_dec : EqDecision storage_line.
Proof. solve_decision. Defined.
#[export] Instance StoragePlan_eq_dec : EqDecision StoragePlan.
Proof. solve_decision. Defined.

Lemma with_hash_eta p : with_hash (sp_ProfileRevision p) (sp_Hash p) p = p.
Proof. by destruct p. Qed.

Lemma with_hash_inj p q :
  with_hash (sp_ProfileRevision p) "" p = with_hash (sp_ProfileRevision q) "" q →
  sp_Hash p = sp_Hash q → p = q.
Proof.
  intros He Hh. rewrite <- (with_hash_eta p), <- (with_hash_eta q), Hh.
  change (with_hash ?r ?h ?p) with (with_hash r h (with_hash r "" p)). rewrite He.
  assert (sp_ProfileRevision p = sp_ProfileRevision q) as -> by exact (f_equal sp_ProfileRevision He).
  done.
Qed.

(** The plan made now has the hash of the approved one: it is that plan, or they collide. *)
Lemma same_or_collision `{StorageHash} refreshed plan :
  storagePlanHash plan = sp_Hash plan →
  same_plan_now (at_revision (sp_ProfileRevision plan) refreshed) plan = true →
  at_revision (sp_ProfileRevision plan) refreshed = plan ∨
  storage_collision (at_revision (sp_ProfileRevision plan) refreshed) plan.
Proof.
  unfold same_plan_now, storage_collision. intros Hp Hs. split_bools.
  set (current := at_revision (sp_ProfileRevision plan) refreshed) in *.
  destruct (decide (with_hash (sp_ProfileRevision current) "" current
                    = with_hash (sp_ProfileRevision plan) "" plan)) as [He|Hne]; [left|right].
  - by apply with_hash_inj.
  - split; [done|]. rewrite Hp. done.
Qed.

(** ** What a change asks of the state that is read back *)

Section achieved.
Context `{Unicode}.

(** As many disks as wanted, and every wanted one among them, up to case. *)
Definition same_disks (actual wanted : list string) : Prop :=
  length actual = length wanted ∧ (ToLower <$> wanted) ⊆ (ToLower <$> actual).

(** Healthy; or being worked on and not failed; or in a benign background pass. *)
Definition settled (status health : string) (actioning : bool) : Prop :=
  healthyStorageStatus status = true ∧ healthyStorageStatus health = true ∨
  actioning = true ∧ failedStorageStatus status = false ∧ failedStorageStatus health = false ∨
  backgroundStorageStatus status = true ∧ failedStorageStatus health = false.

Definition cache_achieved (action : string) (c : CacheChange) (before after : storage_state)
    (id : string) : Prop :=
  action = ActionCreate ∧
    (∃ x, first_such (fun x => ssc_ID x ∉ ssc_ID <$> sst_Caches before ∧
        ssc_VolumeID x = cch_VolumeID c) (sst_Caches after) x ∧ ssc_ID x = id ∧
      (ssc_CacheType x ≠ "" → cch_CacheType c ≠ "" → ssc_CacheType x = cch_CacheType c) ∧
      failedStorageStatus (ssc_Status x) = false) ∨
  action = ActionDelete ∧ id = cch_ID c ∧
    (∀ x, first_such (fun x => TrimSpace (ssc_ID x) = cch_ID c) (sst_Caches after) x →
       ssc_Actioning x = true ∨ ssc_Flushing x = true ∨
       healthyStorageStatus (ssc_Status x) = false).

Definition pool_achieved (action : string) (c : PoolChange) (before after : storage_state)
    (id : string) : Prop :=
  let pool_of s := first_such (fun p => TrimSpace (spl_ID p) = plc_ID c) (sst_Pools s) in
  action = ActionCreate ∧
    (∃ p, first_such (fun p => spl_Name p = plc_Name c ∧
        normalizeObservedRAIDType (spl_RAIDType p) = plc_RAIDType c ∧
        same_disks (spl_DiskIDs p) (plc_DiskIDs c)) (sst_Pools after) p ∧ spl_ID p = id ∧
      settled (spl_Status p) (spl_Health p) (spl_Actioning p)) ∨
  action = ActionUpdate ∧
    (∃ old new, pool_of before old ∧ pool_of after new ∧ spl_ID new = id ∧
      same_disks (spl_DiskIDs new) (spl_DiskIDs old ++ plc_AddDiskIDs c) ∧
      normalizeObservedRAIDType (spl_RAIDType new) = normalizeObservedRAIDType (spl_RAIDType old) ∧
      settled (spl_Status new) (spl_Health new) (spl_Actioning new)) ∨
  action = ActionDelete ∧ id = plc_ID c ∧
    none_such (fun p => TrimSpace (spl_ID p) = plc_ID c) (sst_Pools after).

Definition volume_achieved (action : string) (c : VolumeChange) (layout : string) (resolved : Z)
    (before after : storage_state) (id : string) : Prop :=
  let volume_of s := first_such (fun v => TrimSpace (svo_ID v) = vch_ID c) (sst_Volumes s) in
  action = ActionCreate ∧
    (∃ v, svo_ID v = id ∧ settled (svo_Status v) (svo_Health v) (svo_Actioning v) ∧
      let P x := svo_ID x ∉ svo_ID <$> sst_Volumes before ∧
        (svo_Name x = "" ∨ svo_Name x = vch_Name c) ∧ svo_PoolID x = vch_PoolID c ∧
        EqualFold (svo_FileSystem x) (vch_FileSystem c) = true ∧
        (layout = "multiple" → svo_AllocatedBytes x = resolved) in
      ∃ l1 l2, sst_Volumes after = l1 ++ v :: l2 ∧ P v ∧ none_such P (l1 ++ l2)) ∨
  action = ActionUpdate ∧
    (∃ old new, volume_of before old ∧ volume_of after new ∧ svo_ID new = id ∧
      svo_PoolID new = svo_PoolID old ∧
      EqualFold (svo_FileSystem new) (svo_FileSystem old) = true ∧
      (svo_Actioning new = true ∨
       if svo_SingleVolume new then svo_AllocatedBytes old < svo_AllocatedBytes new
       else resolved ≤ svo_AllocatedBytes new) ∧
      settled (svo_Status new) (svo_Health new) (svo_Actioning new)) ∨
  action = ActionDelete ∧ id = vch_ID c ∧
    none_such (fun v => TrimSpace (svo_ID v) = vch_ID c) (sst_Volumes after).

Definition storage_achieved (p : StoragePlan) (before after : storage_state) (id : string) : Prop :=
  let r := sp_Request p in
  if decide (str_Resource r = ResourceCache)
  then ∃ c, str_Cache r = Some c ∧ cache_achieved (str_Action r) c before after id
  else if decide (str_Resource r = ResourceVolume)
  then ∃ c, str_Volume r = Some c ∧
    volume_achieved (str_Action r) c (ssr_PoolLayout (sp_References p))
      (sp_ResolvedCapacityBytes p) before after id
  else ∃ c, str_Pool r = Some c ∧ pool_achieved (str_Action r) c before after id.

(** *** The code's own checks establish it *)

Lemma sameStringSet_disks actual wanted :
  sameStringSet actual wanted = true ↔ same_disks actual wanted.
Proof.
  unfold sameStringSet, same_disks. rewrite andb_true_iff, bool_decide_eq_true, forallb_forall.
  setoid_rewrite bool_decide_eq_true. setoid_rewrite elem_of_list_to_set.
  setoid_rewrite <- list_elem_of_In. split; intros [Hl Hs]; (split; [done|]).
  - intros k (v & -> & Hv)%list_elem_of_fmap. by apply Hs.
  - intros v Hv. by apply Hs, list_elem_of_fmap_2.
Qed.

Lemma status_settled status health actioning u :
  validatePostStatus status health actioning = Ok u → settled status health actioning.
Proof.
  unfold validatePostStatus, settled. intros Hs%require_ok.
  destruct (healthyStorageStatus status), (healthyStorageStatus health), actioning,
    (failedStorageStatus status), (failedStorageStatus health), (backgroundStorageStatus status);
    naive_solver.
Qed.

Lemma cache_verified action c before after id :
  action = ActionCreate ∨ action = ActionDelete →
  verifyStorageCachePostcondition action c before after = Ok id →
  cache_achieved action c before after id.
Proof.
  unfold verifyStorageCachePostcondition, cache_achieved, created_cache, found, storageCacheByID.
  case_bool_decide as Hc; [|case_bool_decide as Hd; [|by intros [?|?]]]; intros _.
  - destruct (find_first _ _) as [x|] eqn:Ef; [|done]. cbn. intros Hv. verdicts Hv. simplify_eq.
    left. split; [done|]. exists x. split.
    { eapply first_such_ext; [|by apply find_first_such]. intros y.
      by rewrite conj_bool, bool_decide_eq_true. }
    split; [done|]. split; [|by apply negb_true_iff].
    intros H1 H2. unfold blank in Hq. rewrite !bool_decide_false in Hq by done. cbn in Hq.
    by rewrite negb_involutive, bool_decide_eq_true in Hq.
  - destruct (find_first _ _) as [x|] eqn:Ef; cbn; intros Hv; [verdicts Hv|]; simplify_eq;
      right; (split; [done|]); (split; [done|]); intros y Hy.
    + apply find_first_such in Ef. assert (y = x) as ->.
      { eapply first_such_unique; [exact Hy|]. eapply first_such_ext; [|exact Ef].
        intros z. apply bool_decide_eq_true. }
      destruct (ssc_Actioning x), (ssc_Flushing x); auto. right. right. by apply negb_true_iff.
    + apply find_none_such in Ef. destruct Hy as (l1 & l2 & He & HP & _).
      destruct (Ef y); [rewrite He; set_solver|by apply bool_decide_eq_true].
Qed.

Lemma pool_verified action c before after id :
  verifyStoragePoolPostcondition action c before after = Ok id →
  pool_achieved action c before after id.
Proof.
  unfold verifyStoragePoolPostcondition, pool_achieved, created_pool, expanded_pool, found,
    storagePoolByID, validatePoolPostStatus.
  case_bool_decide as Hc; [|case_bool_decide as Hu; [|case_bool_decide as Hd; [|done]]].
  - destruct (find_first _ _) as [p|] eqn:Ef; [|done]. cbn.
    intros [Hs%status_settled [= <-]]%verdict_bind. left. split; [done|]. exists p. split; [|done].
    eapply first_such_ext; [|by apply find_first_such]. intros y.
    rewrite !andb_true_iff, !bool_decide_eq_true, sameStringSet_disks. tauto.
  - destruct (find_first _ (sst_Pools before)) as [old|] eqn:Eo; [|done]. cbn.
    destruct (find_first _ (sst_Pools after)) as [new|] eqn:En; [|done]. cbn. intros Hv.
    verdicts Hv. apply verdict_bind in Hv as [Hs%status_settled [= <-]].
    right. left. split; [done|]. exists old, new. split_and!; try done.
    1,2: eapply first_such_ext; [|by apply find_first_such]; intros y; apply bool_decide_eq_true.
    + by apply sameStringSet_disks.
    + by apply bool_decide_eq_true in Hq0.
  - intros [Hn%require_ok [= <-]]%verdict_bind. right. right. split; [done|]. split; [done|].
    destruct (find_first _ _) as [x|] eqn:Ef; [done|]. apply find_none_such in Ef.
    intros p Hp He. apply (Ef p Hp). by apply bool_decide_eq_true.
Qed.

Lemma volume_verified action c layout resolved before after id :
  verifyStorageVolumePostcondition action c layout resolved before after = Ok id →
  volume_achieved action c layout resolved before after id.
Proof.
  unfold verifyStorageVolumePostcondition, volume_achieved, created_volume, expanded_volume, found,
    storageVolumeByID, validateVolumePostStatus.
  case_bool_decide as Hc; [|case_bool_decide as Hu; [|case_bool_decide as Hd; [|done]]].
  - destruct (base.filter _ _) as [|v [|]] eqn:Ef; [done| |done].
    intros [Hs%status_settled [= <-]]%verdict_bind. left. split; [done|]. exists v.
    do 2 (split; [done|]). cbv zeta. apply filter_single in Ef as (l1 & l2 & -> & Hv & Hn).
    assert (∀ x, new_volume before layout resolved c x = true ↔
      svo_ID x ∉ svo_ID <$> sst_Volumes before ∧ (svo_Name x = "" ∨ svo_Name x = vch_Name c) ∧
      svo_PoolID x = vch_PoolID c ∧ EqualFold (svo_FileSystem x) (vch_FileSystem c) = true ∧
      (layout = "multiple" → svo_AllocatedBytes x = resolved)) as Hx.
    { intros x. unfold new_volume, blank.
      rewrite !andb_true_iff, !orb_true_iff, !bool_decide_eq_true, negb_true_iff,
        bool_decide_eq_false, Z.eqb_eq. destruct (decide (layout = "multiple")); tauto. }
    exists l1, l2. split; [done|]. split; [by apply Hx|]. intros x Hin HP.
    apply (Hn x Hin). by apply Hx.
  - destruct (find_first _ (sst_Volumes before)) as [old|] eqn:Eo; [|done]. cbn.
    destruct (find_first _ (sst_Volumes after)) as [new|] eqn:En; [|done]. cbn. intros Hv.
    verdicts Hv. apply verdict_bind in Hv as [Hs%status_settled [= <-]].
    apply conj_bool in Hq as [Hq1 Hq2].
    right. left. split; [done|]. exists old, new. split_and!; try done.
    1,2: eapply first_such_ext; [|by apply find_first_such]; intros y; apply bool_decide_eq_true.
    revert Hq0. destruct (svo_SingleVolume new), (svo_Actioning new); cbn; try by left.
    all: rewrite andb_true_r, negb_true_iff; intros ?; right; lia.
  - intros [Hn%require_ok [= <-]]%verdict_bind. right. right. split; [done|]. split; [done|].
    destruct (find_first _ _) as [x|] eqn:Ef; [done|]. apply find_none_such in Ef.
    intros v Hv He. apply (Ef v Hv). by apply bool_decide_eq_true.
Qed.

Lemma storage_verified p before after id :
  (str_Resource (sp_Request p) = ResourceCache →
   str_Action (sp_Request p) = ActionCreate ∨ str_Action (sp_Request p) = ActionDelete) →
  verifyStoragePostcondition p before after = Ok id → storage_achieved p before after id.
Proof.
  intros Hc. unfold verifyStoragePostcondition, storage_achieved. cbv zeta.
  case_bool_decide as Hr.
  { rewrite decide_True by done. destruct (str_Cache _) as [c|]; [|done]. intros Hv.
    exists c. split; [done|]. by apply cache_verified; [apply Hc|]. }
  rewrite decide_False by done. case_bool_decide as Hv.
  { rewrite decide_True by done. destruct (str_Volume _) as [c|]; [|done]. intros Hx.
    exists c. split; [done|]. by apply volume_verified. }
  rewrite decide_False by done. destruct (str_Pool _) as [c|]; [|done]. intros Hx.
  exists c. split; [done|]. by apply pool_verified.
Qed.
End achieved.

Section apply.
Context `{Unicode, NetURL, StorageHash, Floats} {W : Type} `{Network W, ScriptNetwork W} {G : Type}
  (srv : Service G W).
Hypothesis Hro : reads_only storage_write srv.

Abbreviation MS := (ST (G * dstate W) service_error).
Abbreviation still_step := (still storage_write).

Lemma validate_storage_plan_ok plan hash u :
  validateStoragePlan plan hash = Ok u →
  hash = sp_Hash plan ∧ storagePlanHash plan = sp_Hash plan.
Proof. unfold validateStoragePlan. intros Hv. result_inv. split_bools. by split. Qed.

Lemma still_supported nas r : still_step (supported_state nas r : MS storage_state).
Proof.
  unfold supported_state. apply still_bind; [eauto with still|]. intros caps.
  apply still_bind; [apply still_check|]. eauto with still.
Qed.

(** No NAS is reported to expand or convert a cache. *)
Lemma no_cache_expansion (d : dstate W) caps d' :
  StorageCapabilities d = (Ok caps, d') →
  stc_CacheExpand caps = false ∧ stc_CacheConvert caps = false.
Proof.
  unfold StorageCapabilities. intros Hr.
  repeat (apply bind_ok_inv in Hr as (? & ? & _ & Hr)). cbv zeta in Hr.
  unfold mret, ST_ret in Hr. by injection Hr as <- _.
Qed.

Lemma supported_cache caps resource action :
  stc_CacheExpand caps = false → stc_CacheConvert caps = false →
  storageActionSupported caps resource action = true → resource = ResourceCache →
  action = ActionCreate ∨ action = ActionDelete.
Proof.
  intros He Hc Hs ->. unfold storageActionSupported in Hs. rewrite bool_decide_true in Hs by done.
  repeat case_bool_decide; simpl in Hs; rewrite ?He, ?Hc in Hs; first [done|by left|by right].
Qed.

(** The state that a supported change is planned from. *)
Lemma supported_state_inv nas r (g : G) (d : dstate W) s g' d' :
  supported_state nas r (g, d) = (Ok s, (g', d')) →
  g' = g ∧ (str_Resource r = ResourceCache →
    str_Action r = ActionCreate ∨ str_Action r = ActionDelete) ∧
  ∃ d0, calm storage_write d d0 ∧ StorageState d0 = (Ok s, d').
Proof.
  unfold supported_state. intros (caps & [g1 d1] & Hc & ([] & s2 & [Hk ->]%check_ok_inv & Hs)%bind_ok_inv
    )%bind_ok_inv.
  assert (∃ d1', StorageCapabilities d = (Ok caps, d1')) as [d1' [He Hv]%no_cache_expansion].
  { revert Hc. unfold on_client, named, catch.
    destruct (StorageCapabilities d) as [[c0|e] d2]; intros; simplify_eq. by eexists. }
  assert (still_step (on_client (named nas StorageCapabilities) : MS StorageCaps)) as Hstill
    by eauto with still.
  apply Hstill in Hc as [-> Hc]. unfold on_client, named, catch in Hs.
  destruct (StorageState d1) as [[st|e] d2] eqn:E; [|done]. simplify_eq.
  split; [done|]. split; [by apply (supported_cache caps)|]. by exists d1.
Qed.

(** The end of an apply: what was sent, and what was read back when it succeeded. *)
Lemma send_storage_inv i plan (result : MutationResult → string → StorageApplyResult)
    (g : G) (d : dstate W) r g' d' :
  (operation ← on_client (named (sp_NAS plan) (ApplyStorageChange i));
   after ← around "mutation returned but postcondition inventory failed"
     (on_client StorageState);
   resourceID ← around "storage postcondition failed"
     (lift (verifyStoragePostcondition plan (smi_State i) after));
   mret (result operation resourceID) : MS StorageApplyResult) (g, d) = (r, (g', d')) →
  g' = g ∧
  (∃ x d1, ApplyStorageChange i d = (x, d1) ∧ calm storage_write d1 d') ∧
  (is_Ok r = true → ∃ d1 after id, StorageState d1 = (Ok after, d') ∧
     verifyStoragePostcondition plan (smi_State i) after = Ok id).
Proof.
  unfold mbind, ST_bind, on_client, named, catch, around.
  destruct (ApplyStorageChange i d) as [[op|e] d1] eqn:Ea;
    [|intros [= <- <- <-]; split; [done|]; split; [eauto using calm_refl|done]].
  assert (∀ x d2, StorageState d1 = (x, d2) → calm storage_write d1 d2) as Hcalm.
  { intros x d2 (_ & l & Hl & HQ)%quiet_StorageState. by exists l. }
  destruct (StorageState d1) as [[after|e] d2] eqn:Es;
    [|intros [= <- <- <-]; split; [done|]; split; [eauto|done]].
  destruct (verifyStoragePostcondition _ _ _) as [id|e] eqn:Ev;
    intros [= <- <- <-]; (split; [done|]); (split; [by eauto|]); by eauto.
Qed.

(** With the client in place: nothing is sent, or the plan made from the state is compared,
    sent, and the state read back. *)
Lemma apply_with_client_inv plan (g : G) (d : dstate W) r g' d' :
  applyStoragePlanWithClient plan (g, d) = (r, (g', d')) →
  g' = g ∧
  (calm storage_write d d' ∧ is_Ok r = false ∨
   ∃ d0 s d1 refreshed,
     let change := {| smi_Request := sp_Request plan; smi_State := s;
                      smi_ResolvedCapacityBytes := sp_ResolvedCapacityBytes plan |} in
     calm storage_write d d0 ∧ StorageState d0 = (Ok s, d1) ∧
     BuildStoragePlan (sp_NAS plan) s (sp_Request plan) = Ok refreshed ∧
     same_plan_now (at_revision (sp_ProfileRevision plan) refreshed) plan = true ∧
     (calm storage_write d1 d' ∨ ∃ size, size_before (sp_Request plan) s d1 size ∧
        sends_only storage_write (storage_calls change size) d1 d') ∧
     (is_Ok r = true → ∃ d2 after id, StorageState d2 = (Ok after, d') ∧
        storage_achieved plan s after id)).
Proof.
  unfold applyStoragePlanWithClient. cbv zeta.
  intros [(e & He & ->)|(s & [g1 d1] & Hs & Hr)]%bind_inv.
  { apply still_supported in He as [-> Hc]. split; [done|]. by left. }
  apply supported_state_inv in Hs as (-> & Hcache & d0 & Hc & Hs).
  assert (calm storage_write d d1) as Hc1.
  { eapply calm_trans; [done|]. apply quiet_StorageState in Hs as (_ & l & Hl & HQ). by exists l. }
  destruct (BuildStoragePlan _ _ _) as [refreshed|e] eqn:Eb.
  2:{ injection Hr as <- <- <-. split; [done|]. by left. }
  apply bind_inv in Hr as [(e & [=] & _)|(x & s1 & [= <- <-] & Hr)].
  apply bind_inv in Hr as [(e & Hk & ->)|([] & s2 & Hk & Hr)].
  { apply check_err_inv in Hk as (_ & _ & [= -> ->]). split; [done|]. by left. }
  apply check_ok_inv in Hk as [Hsame ->].
  apply (send_storage_inv {| smi_Request := sp_Request plan; smi_State := s;
    smi_ResolvedCapacityBytes := sp_ResolvedCapacityBytes plan |} plan) in Hr
    as (-> & (x & d2 & Ha & Hc2) & Hpost).
  split; [done|]. right. exists d0, s, d1, refreshed. do 4 (split; [done|]). split.
  2:{ intros Hok. destruct (Hpost Hok) as (d3 & after & id & Hst & Hv). exists d3, after, id.
      split; [done|]. by apply storage_verified. }
  apply storage_change_sends in Ha as (l & Hl & [Hq|(size & Hsz & HP)]).
  - left. eapply calm_trans; [|done]. by exists l.
  - right. exists size. split; [done|]. eapply sends_calm; [|done]. by exists l.
Qed.

(** The checks before the client: refused with nothing sent, or admitted. *)
Lemma apply_storage_inv ctx principal plan approvalHash g d r g' d' :
  PrincipalFromContext ctx = Some principal →
  ApplyStoragePlan srv ctx plan approvalHash (g, d) = (r, (g', d')) →
  calm storage_write d d' ∧ is_Ok r = false ∨
  approvalHash = sp_Hash plan ∧ storagePlanHash plan = sp_Hash plan ∧
  ∃ g1 d1, admitted srv ctx principal (sp_NAS plan) (sp_ProfileRevision plan) (sp_Hash plan)
    (sp_Risk plan) g g1 ∧ calm storage_write d d1 ∧
    applyStoragePlanWithClient plan (g1, d1) = (r, (g', d')).
Proof.
  intros Hp. unfold ApplyStoragePlan, alive. destruct (ctx_Err ctx) as [e|].
  { intros [= <- <- <-]. left. split; [apply calm_refl|done]. }
  destruct (validateStoragePlan plan approvalHash) as [[]|e] eqn:Ev.
  2:{ intros [= <- <- <-]. left. split; [apply calm_refl|done]. }
  apply validate_storage_plan_ok in Ev as [Hh Hown].
  intros [(e & [=] & _)|([] & s1 & [= <-] & Hr)]%bind_inv.
  apply bind_inv in Hr as [(e & [=] & _)|([] & s1 & [= <-] & Hr)].
  destruct (ensureStorageBackendScope (sp_Request plan)) as [[]|e].
  2:{ left. apply bind_inv in Hr as [(x & Ha%authorizeRemoteApply_err & ->)|([] & s2 & Ha & Hr)].
      - cbn in Ha. subst. split; [apply calm_refl|done].
      - eapply authorizeRemoteApply_ok in Ha as (? & g1 & _ & _ & _ & _ & ->); [|done].
        injection Hr as <- <- <-. split; [apply calm_refl|done]. }
  match type of Hr with _ = ?rhs => assert (
    (authorizeRemoteApply srv ctx (sp_NAS plan) (sp_ProfileRevision plan) (sp_Hash plan)
       (sp_Risk plan);;
     verifyProfileRevision srv ctx (sp_NAS plan) (sp_ProfileRevision plan);;
     name ← sv_Client srv ctx (sp_NAS plan);
     check (bool_decide (name = sp_NAS plan))
       (EText "storage plan NAS resolved to different profile");;
     applyStoragePlanWithClient plan) (g, d) = rhs) as Hr' by exact Hr end.
  eapply admission_inv in Hr' as [[-> Hf]|(g1 & Hadm & Hk)];
    [left; split; [apply calm_refl|done]| |done].
  apply still_then with (Q:=storage_write) in Hk as
    [(Hf & _ & Hc)|(name & d1 & _ & Hc & Hk)]; [by left| |apply (ro_Client _ _ Hro)].
  apply bind_inv in Hk as [(e & Hx & ->)|([] & s2 & Hx & Hk)].
  { apply check_err_inv in Hx as (_ & _ & [= -> ->]). by left. }
  apply check_ok_inv in Hx as [_ ->].
  right. split; [done|]. split; [done|]. by exists g1, d1.
Qed.
End apply.

(** A plan without a resource at stake, or of high risk. *)
Lemma built_risk `{Unicode, StorageHash} nas s request plan :
  BuildStoragePlan nas s request = Ok plan →
  (∀ id, ¬ at_stake s (sp_Request plan) id) ∨ sp_Risk plan = "high".
Proof.
  intros (t & e & Hb)%build_inv. destruct (plan_announces _ _ _ _ Hb) as [_ Hd].
  rewrite (bf_risk _ _ _ _ Hb). destruct (ef_Destructive e); [by right|left].
  intros id Hid. discriminate (proj2 Hd (ex_intro _ id Hid)).
Qed.

(** ** The samples behind the gateway *)

Definition storage_world : gworld := approved_world "pool delete high".
Definition storage_planned :=
  @PlanStorageChange ascii_tables clear_storage no_floats _ script_world btrfs_model _
    sample_service remote_context "nas1" delete_data (storage_world, storage_nas [full_reply]).
Definition storage_plan : StoragePlan := built_plan storage_planned.1.
Definition storage_run : result service_error StorageApplyResult * (gworld * dstate (list answer)) :=
  @ApplyStoragePlan ascii_tables clear_storage no_floats _ script_world btrfs_model _
    sample_service remote_context storage_plan "pool delete high"
    (storage_world, storage_nas destroy_script).


Lemma storage_plan_fields :
  sp_NAS storage_plan = "nas1" ∧ sp_ProfileRevision storage_plan = 3 ∧
  sp_Hash storage_plan = "pool delete high".
Proof. vm_compute. auto. Qed.

Lemma storage_run_ok : is_Ok storage_run.1 = true.
Proof. vm_compute. reflexivity. Qed.

